(* ===== verification/_CoqProject ===== *)
-Q . S2P
Prelude.v
CString.v
Uuid.v
StdMap.v
BitField.v
Utils.v
VaMgr.v
VaMgrSpec.v
SimpleHeap.v
SmallHeap.v
SmallHeapLayout.v
SmallHeapSpec.v
Status.v
SmiStatus.v
SmiTypes.v
GpuInfo.v
Kernel.v
World.v
Loader.v
Runtime.v
Device.v
GpuMemory.v
Demo.v
MapSpec.v
GpuMemorySpec.v
CreateSpec.v
Memory.v
RuntimeSpec.v
OpenCloseSpec.v
MemorySpec.v
MemoryHistory.v
Aql.v
CmdUtil.v
CmdUtilSpec.v
Queue.v
QueueThread.v
Sdma.v
QueueNew.v
QueueApi.v
Sysfs.v
Platform.v
Smi.v
SmiQuery.v
SmiSensor.v
SmiProcess.v
SmiUtils.v
SmiStubs.v
Topology.v
QueueLog.v
QueueDemo.v
QueueSpec.v
QueueProcess.v
SdmaSpec.v
QueueApiSpec.v
TopologySpec.v
PlatformSpec.v
SmiSpec.v
SmiDeviceSpec.v
SmiProcessSpec.v
SmiQuerySpec.v
SmiUtilsSpec.v
Wakeup.v
Fence.v
Locks.v
OsLinux.v
LazyPtr.v
HsaBridge.v
OsServices.v
Entry.v
