(* ===== verification/Prelude.v ===== *)
(** * The verification of librocdxg

    librocdxg implements the ROCm thunk interface ([hsaKmt*]) on Windows Subsystem for
    Linux: instead of the KFD driver it drives /dev/dxg through libdxcore. The sources
    under src/ fall into layers that call downwards:

    - the exported calls (src/openclose.cpp, memory.cpp, libdrm.cpp, queues.cpp,
      topology.cpp): guards, tables, statuses;
    - the WDDM layer (src/wddm): devices, GPU memory, queues with their worker threads, the
      PM4 encoder, the virtual address manager;
    - the shared layer (shared/): adapters and chains, the D3DKMT wrappers with their error
      codes, the proxy library;
    - util/: the sub-allocators, arithmetic helpers, and an operating system layer of
      locks, events and threads that the library does not compile.

    AMD SMI (src/amdsmi) is a second library in the repository: it monitors the devices
    through the shared layer, with an adapter list of its own.

    ** How the program is modelled

    An operation is a function in [M] (World.v): it takes the state of the library and
    returns a result with the new state, or [None] where the code fails an assertion or has
    undefined behaviour: a dangling pointer, an index out of range, a division by 0. What
    leaves the library (libdxcore, the proxy library, Linux, the memory it shares with the
    device) is a call of Kernel.v, answered by an environment of class [Kernel] about which
    nothing is assumed. All calls are kept in a log with their answers, so theorems speak
    about the order of what the driver is asked to do. Integers are [Z] with their
    wrap-around written ([+64], [u32], ...), flag words and packet words are read and
    written field by field (BitField.v), [std::map] and [std::multimap] are sorted lists
    with iterators (StdMap.v), objects with a lifetime are finite maps by pointer, so that
    a deleted one is not there.

    ** Files and sources

    - Prelude, StdMap, BitField, Utils: integers, containers, bit fields and util/utils.h.
      Status: the error codes and their translations (shared/src/status.cpp, thunks.h).
    - VaMgr, VaMgrSpec: wddm/va_mgr.cpp, the best-fit address manager; SimpleHeap:
      util/simple_heap.h, over a type class of block allocators. SmallHeap,
      SmallHeapLayout, SmallHeapSpec: util/small_heap.h and small_heap.cpp, a first-fit
      allocator.
    - Kernel, World: the boundary and the state. Runtime, RuntimeSpec, OpenCloseSpec:
      openclose.cpp and librocdxg.h.
    - Device: wddm/device.cpp without construction. GpuMemory, MapSpec, GpuMemorySpec,
      CreateSpec: wddm/gpu_memory.cpp. Memory, MemorySpec, MemoryHistory: memory.cpp and
      libdrm.cpp.
    - Aql, CmdUtil, CmdUtilSpec: the HSA structures and the PM4 encoder (wddm/cmd_util.cpp,
      pm4_cmds.h).
    - Queue, QueueThread, QueueNew: the compute queue of wddm/queue.cpp, its worker and its
      construction; Sdma: the SDMA queue; QueueApi: queues.cpp. QueueLog, QueueSpec,
      QueueProcess, SdmaSpec and QueueApiSpec hold their theorems.
    - Platform, PlatformSpec: shared/src/platform.cpp, lda_chain.cpp, device.cpp, utils.cpp
      and the construction of the devices in wddm/device.cpp.
    - GpuInfo: shared/include/gpu_info.h and the queries of shared/src/device.cpp. Loader:
      shared/src/dxcore_loader.cpp, whose object is part of the state in World.
    - Sysfs, Topology, TopologySpec: topology.cpp.
    - CString: strings in arrays of characters, as [snprintf], [strncpy] and [memset] treat
      them. Uuid: amdsmi/src/amd_smi/amd_smi_uuid.cc. SmiStatus and SmiTypes: the statuses
      and structures of amdsmi.h. Smi (life cycle, sockets, processors, addresses),
      SmiQuery (identity, texts, tables), SmiSensor (temperatures, power, clocks, PCI),
      SmiProcess (processes) and SmiStubs (the calls that only refuse): amd_smi.cc.
      SmiUtils: amd_smi_utils.cc, amd_smi_common.cc. SmiSpec, SmiDeviceSpec,
      SmiProcessSpec, SmiQuerySpec and SmiUtilsSpec hold their theorems.
    - Wakeup and Fence: the sleep of the compute worker and the paging fence as steps of
      many threads. Locks, OsLinux, LazyPtr: util/locks.h, util/lnx/os_linux.cpp
      (semaphores, events, threads) and util/lazy_ptr.h, likewise. OsServices: the clocks,
      libraries, environment and cpuid of os_linux.cpp. HsaBridge: hsa.cpp. Entry:
      events.cpp, time.cpp, version.cpp, debug.cpp, spm.cpp, svm.cpp, perfctr.cpp,
      pc_sampling.cpp, ais.cpp, hsakmtmodel.cpp and the entry points of memory.cpp and
      libdrm.cpp that do nothing.
    - Demo, QueueDemo: the concrete environments of the witnesses.

    The members of the runtime object, the loader of libdxcore, the device table, the
    memory objects and the allocation map are [World]. A queue's members are a state of
    their own ([QM], or explicit arguments for SDMA), the queue table of queues.cpp is
    passed along by QueueApi, and the snapshot with the platform is [Topology], next to the
    world in the monad [TM]; [World] keeps the parts of topology.cpp the lower layers read,
    the devices and the number of nodes. The state of AMD SMI is [Smi]: the count of
    initialisations, the handle of libdxcore and a platform, a second instance of that of
    Platform.v. It lives next to the world, from which the calls of AMD SMI only use the
    boundary; a handle of a processor is the pointer of a device, looked up in that
    platform. A caller's pointer is an [option], an output array a list, and a call returns
    what is left in them.

    ** What the theorems show

    - Address manager: [AllocImpl] and [Free] refine an allocator of disjoint blocks, so do
      histories, answer by answer, requests are refused only when nothing fits, and what
      fixed-address requests break. First-fit heap: every history of allocations from
      either end and of frees passes its assertions and refines an allocator of disjoint
      blocks.
    - Memory: histories of allocations, releases, queue references and queries refine an
      abstract memory of disjoint blocks; creating local memory is all or nothing, deletion
      and release give back everything that was taken, a mapping is complete or undone and
      tiles its range, the paging fence covers all pending updates, memory a queue holds is
      not freed, but for the last reference to an imported buffer, a closed library
      refuses.
    - Runtime: opens and closes in one process refine a state machine through failures of
      open and of the loader, the first open of a forked child starts over, the system heap
      commits what it hands out or takes it back, the search for the handle aperture ends,
      with a slot the adapter's apertures avoid.
    - Queues: the packets read back as what they were built from, a kernel dispatch becomes
      the commands it stands for or is refused with the right error, the worker submits in
      order and never overwrites what the device may still read, SDMA ranges are taken once
      and in order under every interleaving of the application, the doorbell and the
      worker, without a gap if the application does not write while a doorbell is rung, the
      compute worker misses no wake-up, and every outcome of creating a queue.
    - Adapters and topology: enumeration never touches a deleted object (when chains have
      one device) and fails only when the first adapters appear in the middle of it, the
      table lists exactly the devices found, an acquired snapshot is well formed, and what
      the getters return of it.
    - Locks: the hybrid mutex excludes and loses no wake-up, whatever its threads do,
      threads are joined once, an object made at first use is made once; a poll of an event
      never succeeds and blocks the event for good. The system: a function of a library is
      its own, the tools opened are those that carry the symbol, the clocks need their
      resolution.
    - AMD SMI: every history of initialisations and shutdowns refines a counter, with the
      references to libdxcore it holds and leaks; devices are numbered without gaps, their
      addresses and identifiers lead back to them; the tables of processes agree with the
      drivers' lists and with each other; tables and texts stay in their buffers, with the
      exceptions named; an uninitialised library refuses, where it looks; the texts of the
      statuses tell them apart.

    A good part states defects the models made visible: a theorem says exactly what the
    code does on the inputs concerned.

    ** Hypotheses on the environment

    [MmapFixed] is what mmap(2) says of [MAP_FIXED]; [OneProcess] that the pid of the
    process stays what it is, that open(2) answers -1 or a descriptor and that the devices
    named in ROCR_VISIBLE_DEVICES are counted in 31 bits; [EnumAdaptersOk] that a
    successful enumeration reports no more adapters than it was given room for; [GpuChains]
    that a chain has at most the four devices it has places for, or at most one where no
    adapters are linked, without which enumeration can leave dangling devices
    ([linked_adapters_dangle]). [StableChains] (SmiDeviceSpec) says that a chain has the
    same number of devices, at most four, in every state, [StableQueries], for the queries
    of single devices, that the driver gives the same answer to the same query; the order
    in which a hash map is walked is a parameter, any permutation of its entries.
    [config_ok], [buffer_ok], [environment_ok] and [ring_ok] are what the constructors of
    the queues establish. Each has an instance, on which the witnesses run.

    ** Bounds and fuel

    Loops of the code that are not structural take fuel. [AllocImpl_loop] and [alloc_loop]
    have the retry bound of the code, the mapping of address spaces its 16 attempts;
    [skip_loop], [map_loop] and [unmap_loop] get the number of chunks in the range,
    [aperture_loop] the [aperture_fuel] steps after which the start wraps around,
    [query_linked] five rounds since a fifth device has no place; theorems show that these
    do not run out; [split_string] and [removeString] get the length of the string, with
    which they end ([string_loops_end]), the walks of SmallHeap the number of its nodes,
    with which they end ([SmallHeap_history_refines]), [grow_stack] one round more than it
    takes from a page to its limit ([grow_stack_total]). The loops that wait for other
    agents ([Process], [poll_loop], [thread_rounds], the waits on signals) have no bound in
    the code: they take the number of rounds as an argument, theorems hold for every
    number, and running out is a result of its own. The command buffer has [AqlFrameNum] =
    0x1000 frames; a dispatch takes at most [dispatch_limit] = 404 bytes of a frame, and a
    frame has as many ([InitCmdbufInfo_enough]).

    ** Not modelled

    - The functions of libhsa-runtime64 that hsa.cpp looks up: they are calls.
    - util/: semaphores, mutexes and reader-writer locks that wrap one call of pthread, the
      calibration of timer.cpp, the template of atomic operations, the Windows half. The
      steps of Locks, OsLinux and LazyPtr are atomic and sequentially consistent; [reset],
      moves and destructors are not for use by many threads. In the library itself mutexes
      are held over whole operations, so each operation is one step; where threads share
      members without one the points are separate steps (Sdma, Wakeup, Fence) or calls
      (Queue).
    - The proxy library, whose answers are calls; vendored headers. Of AMD SMI: the command
      line tool and the bindings, which are Python, [smi_brcm_execute_cmd_get_data], which
      runs a command, the structures of the public header that only refused calls mention,
      and the type of an output that a refused call leaves alone.
    - Logging and profiling output. Doubles of /proc/cpuinfo are rationals; the fields of a
      node past the first 368 bytes are never set, and a shorter copy ends at a field. A
      memory object whose device has been deleted keeps the index [deleted_device], which
      no device has. *)

(** * Prelude: fixed-width integers, the assertion monad and shared lemmas

    Everything the components share: unsigned machine integers as [Z] with
    their wrap-around written out, the option monad used for code that can hit
    an [assert] or undefined behaviour, a few list facts, the hint databases
    and the tactics of the development. *)

From Stdlib Require Export ZArith Lia.
From stdpp Require Export base tactics option sorting list.
#[global] Set Default Proof Using "Type".

Declare Scope dxg_scope.
Delimit Scope dxg_scope with dxg.
#[global] Open Scope Z_scope.
#[global] Open Scope dxg_scope.

(** ** Machine integers *)

Definition wrap (w x : Z) : Z := x mod 2 ^ w.
Abbreviation u8 := (wrap 8).
Abbreviation u16 := (wrap 16).
Abbreviation u32 := (wrap 32).
Abbreviation u63 := (wrap 63).
Abbreviation u64 := (wrap 64).
(** The signed 32-bit reading of a word. *)
Definition s32 (x : Z) : Z := if u32 x <? 2 ^ 31 then u32 x else u32 x - 2 ^ 32.

(** Unsigned 64-bit arithmetic, as C performs it on [uint64_t] and [size_t]. *)
Definition add64 (x y : Z) : Z := u64 (x + y).
Definition sub64 (x y : Z) : Z := u64 (x - y).
Definition mul64 (x y : Z) : Z := u64 (x * y).
Notation "x +64 y" := (add64 x y) (at level 50, left associativity) : dxg_scope.
Notation "x -64 y" := (sub64 x y) (at level 50, left associativity) : dxg_scope.
Notation "x *64 y" := (mul64 x y) (at level 40, left associativity) : dxg_scope.

#[global] Arguments wrap : simpl never.
#[global] Arguments add64 : simpl never.
#[global] Arguments sub64 : simpl never.
#[global] Arguments mul64 : simpl never.
#[global] Arguments Z.pow : simpl never.
#[global] Arguments Z.modulo : simpl never.
#[global] Arguments Z.div : simpl never.

Definition UINT32_MAX : Z := 4294967295.
Definition UINT64_MAX : Z := 18446744073709551615.

Create HintDb dxg discriminated.
Create HintDb width.

Lemma wrap_range (w x : Z) : 0 <= w -> 0 <= wrap w x < 2 ^ w.
Proof. intros. apply Z.mod_pos_bound, Z.pow_pos_nonneg; lia. Qed.

Lemma wrap_small (w x : Z) : 0 <= x < 2 ^ w -> wrap w x = x.
Proof. apply Z.mod_small. Qed.

Lemma s32_small (x : Z) : - 2 ^ 31 <= x < 2 ^ 31 -> s32 x = x.
Proof.
  intros Hx. unfold s32, wrap. destruct (Z.le_gt_cases 0 x).
  - rewrite Z.mod_small by lia. by rewrite (proj2 (Z.ltb_lt x _)) by lia.
  - replace (x mod 2 ^ 32) with (x + 2 ^ 32) by (apply Z.mod_unique with (-1); lia).
    rewrite (proj2 (Z.ltb_ge (x + 2 ^ 32) _)) by lia. lia.
Qed.
Lemma s32_wrap (x : Z) : s32 (wrap 32 x) = s32 x.
Proof. unfold s32. change (wrap 32 (wrap 32 x)) with ((x mod 2 ^ 32) mod 2 ^ 32). by rewrite Z.mod_mod by lia. Qed.
Lemma wrap_idem (w x : Z) : 0 <= w -> wrap w (wrap w x) = wrap w x.
Proof. intros. apply wrap_small, wrap_range; lia. Qed.

Lemma u64_small x : 0 <= x < 2 ^ 64 -> u64 x = x.
Proof. apply wrap_small. Qed.

Lemma u63_small x : 0 <= x < 2 ^ 63 -> u63 x = x.
Proof. apply wrap_small. Qed.

Lemma u32_small x : 0 <= x < 2 ^ 32 -> u32 x = x.
Proof. apply wrap_small. Qed.

Lemma add64_small x y : 0 <= x + y < 2 ^ 64 -> x +64 y = x + y.
Proof. apply wrap_small. Qed.

Lemma sub64_small x y : 0 <= x - y < 2 ^ 64 -> x -64 y = x - y.
Proof. apply wrap_small. Qed.

Lemma mul64_small x y : 0 <= x * y < 2 ^ 64 -> x *64 y = x * y.
Proof. apply wrap_small. Qed.

#[export] Hint Rewrite u64_small u63_small u32_small add64_small sub64_small mul64_small
  using lia : width.

(** Remove every wrap-around that the context shows not to happen. *)
Ltac unwrap := autorewrite with width in *.

(** ** Boolean reflection of [Z] comparisons *)

Ltac zbool :=
  repeat match goal with
  | H : (_ =? _) = true |- _ => apply Z.eqb_eq in H
  | H : (_ =? _) = false |- _ => apply Z.eqb_neq in H
  | H : (_ <? _) = true |- _ => apply Z.ltb_lt in H
  | H : (_ <? _) = false |- _ => apply Z.ltb_ge in H
  | H : (_ <=? _) = true |- _ => apply Z.leb_le in H
  | H : (_ <=? _) = false |- _ => apply Z.leb_gt in H
  | H : (_ && _) = true |- _ => apply andb_prop in H; destruct H
  | H : (_ || _) = false |- _ => apply orb_false_elim in H; destruct H
  | H : negb _ = true |- _ => apply negb_true_iff in H
  | H : negb _ = false |- _ => apply negb_false_iff in H
  end.

(** Split on the innermost boolean test of the goal, recording it as a fact on [Z]. *)
Ltac case_zbool :=
  match goal with
  | |- context [Z.eqb ?a ?b] => destruct (Z.eqb_spec a b)
  | |- context [Z.ltb ?a ?b] => destruct (Z.ltb_spec a b)
  | |- context [Z.leb ?a ?b] => destruct (Z.leb_spec a b)
  end.

Ltac case_zbool_in H :=
  match type of H with
  | context [Z.eqb ?a ?b] => destruct (Z.eqb_spec a b)
  | context [Z.ltb ?a ?b] => destruct (Z.ltb_spec a b)
  | context [Z.leb ?a ?b] => destruct (Z.leb_spec a b)
  end.

(** ** Assertions

    A C++ [assert(c)], or an operation whose behaviour is undefined unless [c]
    holds, is [check c]: the [None] of the option monad marks the abort. *)
Definition check (c : bool) : option unit := if c then Some tt else None.

Lemma check_true (c : bool) : c = true -> check c = Some tt.
Proof. by intros ->. Qed.

Lemma check_Some (c : bool) u : check c = Some u -> c = true.
Proof. by destruct c. Qed.

(** ** Lists *)

Section lists.
Context {A : Type}.
Implicit Types (l : list A) (x : A).

Lemma app_cons_snoc l x l' : l ++ x :: l' = (l ++ [x]) ++ l'.
Proof. by rewrite <- app_assoc. Qed.

End lists.
