(* ===== verification/CString.v ===== *)
(** * CString: C strings in character buffers

    The string functions the AMD SMI library calls on buffers of its callers: a buffer is
    the list of its characters, a write past its end has no result. Hexadecimal printing
    and reading, with the lemma that reading takes back printing. *)

From Stdlib Require Import String Ascii.
From S2P Require Import Prelude.
#[local] Open Scope Z_scope.

Abbreviation buffer := (list ascii).

Definition NUL : ascii := "000".
Definition chars (s : string) : list ascii := list_ascii_of_string s.

(** The characters before the first [NUL]; without one, reading runs past the end. *)
Fixpoint c_string (b : buffer) : option string :=
  match b with
  | [] => None
  | c :: b => if Ascii.eqb c NUL then Some EmptyString else String c <$> c_string b
  end.

(** ** White space *)

Definition is_space (c : ascii) : bool :=
  let n := Z.of_nat (nat_of_ascii c) in (n =? 32) || ((9 <=? n) && (n <=? 13)).

Fixpoint skip_space (s : string) : string :=
  match s with String c s' => if is_space c then skip_space s' else s | EmptyString => s end.

Fixpoint all_space (s : string) : bool :=
  match s with EmptyString => true | String c s => is_space c && all_space s end.

(** The string without the white space at its end. *)
Fixpoint drop_space (s : string) : string :=
  match s with
  | EmptyString => EmptyString
  | String c s' => if all_space s then EmptyString else String c (drop_space s')
  end.

(** ** Writing into a buffer *)

Definition write_at (off : nat) (l : list ascii) (b : buffer) : option buffer :=
  if (off + length l <=? length b)%nat then Some (take off b ++ l ++ drop (off + length l) b) else None.

(** [memset(b, 0, n)] *)
Definition memset0 (n : nat) (b : buffer) : option buffer := write_at 0 (repeat NUL n) b.

(** [strncpy(b, src, n)]: exactly [n] characters, padded with [NUL]s but not
    terminated when [src] has as many. *)
Definition strncpy (src : string) (n : nat) (b : buffer) : option buffer :=
  write_at 0 (take n (chars src ++ repeat NUL n)) b.

(** [sprintf(b + off, ...)] of the text [s]. *)
Definition sprintf_at (off : nat) (s : string) (b : buffer) : option buffer := write_at off (chars s ++ [NUL]) b.

(** [snprintf(b, n, ...)] *)
Definition snprintf (n : nat) (s : string) (b : buffer) : option buffer :=
  match n with O => Some b | S n => write_at 0 (take n (chars s) ++ [NUL]) b end.

(** A character array of [n] places that starts out clear, after [strncpy] or [snprintf]
    of at most [n - 1] characters: the text it holds. *)
Definition array_text (n : nat) (s : string) : string := string_of_list_ascii (take (n - 1) (chars s)).

(** ** Hexadecimal *)

Definition hex_char (d : Z) : ascii := ascii_of_nat (Z.to_nat (if d <? 10 then 48 + d else 87 + d)).

(** The last [w] digits of [v]. *)
Fixpoint hex_fixed (w : nat) (v : Z) : string :=
  match w with
  | O => EmptyString
  | S w => hex_fixed w (v / 16) ++ String (hex_char (v mod 16)) EmptyString
  end%string.

Definition hex_len (v : Z) : nat := Z.to_nat (Z.log2 v / 4 + 1).

(** [%0wx]: at least [w] digits. *)
Definition print_x (w : nat) (v : Z) : string := hex_fixed (Nat.max w (hex_len v)) v.

Definition char_hex (c : ascii) : option Z :=
  let n := Z.of_nat (nat_of_ascii c) in
  if (48 <=? n) && (n <=? 57) then Some (n - 48)
  else if (97 <=? n) && (n <=? 102) then Some (n - 87)
  else None.

(** The number a string of hexadecimal digits stands for. *)
Fixpoint read_hex (acc : Z) (s : string) : option Z :=
  match s with
  | EmptyString => Some acc
  | String c s => match char_hex c with Some d => read_hex (16 * acc + d) s | None => None end
  end.

(** ** Lemmas *)

Lemma write_at_length off l b b' : write_at off l b = Some b' -> length b' = length b.
Proof.
  unfold write_at. case_match eqn:E; [|done]. intros [= <-]. apply Nat.leb_le in E.
  rewrite !length_app, length_take, length_drop. lia.
Qed.

Lemma write_at_take off l b b' : write_at off l b = Some b' -> take (off + length l) b' = take off b ++ l.
Proof.
  unfold write_at. case_match eqn:E; [|done]. intros [= <-]. apply Nat.leb_le in E. rewrite app_assoc.
  rewrite take_app_length'; [done|]. rewrite length_app, length_take. lia.
Qed.

Lemma write_at_drop off l b b' k : write_at off l b = Some b' -> (off + length l <= k)%nat -> drop k b' = drop k b.
Proof.
  unfold write_at. case_match eqn:E; [|done]. intros [= <-] Hk. apply Nat.leb_le in E. rewrite app_assoc.
  rewrite drop_app_ge; rewrite length_app, length_take, Nat.min_l by lia; [|lia]. rewrite drop_drop. f_equal. lia.
Qed.

Lemma write_at_Some off l b : (off + length l <= length b)%nat -> exists b', write_at off l b = Some b'.
Proof. intros Hl. unfold write_at. rewrite (proj2 (Nat.leb_le _ _) Hl). eauto. Qed.

(** What a buffer holds is settled by the part before its first [NUL]. *)
Lemma c_string_app (s : string) b : Forall (fun c => c <> NUL) (chars s) -> c_string (chars s ++ NUL :: b) = Some s.
Proof.
  induction s as [|c s IH]; [done|]. cbn. intros [Hc Hs]%Forall_cons. destruct (Ascii.eqb_spec c NUL); [done|].
  change (String c <$> c_string (chars s ++ NUL :: b) = Some (String c s)). by rewrite (IH Hs).
Qed.

Lemma c_string_none b : Forall (fun c => c <> NUL) b -> c_string b = None.
Proof.
  induction b as [|c b IH]; [done|]. intros [Hc Hb]%Forall_cons. cbn. destruct (Ascii.eqb_spec c NUL); [done|].
  by rewrite (IH Hb).
Qed.

Lemma chars_app s t : chars (s ++ t)%string = chars s ++ chars t.
Proof. induction s as [|c s IH]; [done|]. cbn. f_equal. exact IH. Qed.

Lemma str_app_assoc (s t u : string) : (s ++ (t ++ u) = (s ++ t) ++ u)%string.
Proof. induction s as [|c s IH]; [done|]. cbn. by rewrite IH. Qed.
Lemma str_app_nil (s : string) : (s ++ "" = s)%string.
Proof. induction s as [|c s IH]; [done|]. cbn. by rewrite IH. Qed.
Lemma length_str_app (s t : string) : (String.length (s ++ t) = String.length s + String.length t)%nat.
Proof. induction s as [|c s IH]; [done|]. cbn. by rewrite IH. Qed.

Lemma length_chars s : length (chars s) = String.length s.
Proof. induction s as [|c s IH]; [done|]. cbn. f_equal. exact IH. Qed.

Lemma chars_of_list l : chars (string_of_list_ascii l) = l.
Proof. apply list_ascii_of_string_of_list_ascii. Qed.

Lemma string_of_chars s : string_of_list_ascii (chars s) = s.
Proof. apply string_of_list_ascii_of_string. Qed.

(** A string that fits in its array is there whole. *)
Lemma array_text_fits n s : (String.length s < n)%nat -> array_text n s = s.
Proof. intros Hn. unfold array_text. rewrite take_ge; [apply string_of_chars|]. rewrite length_chars. lia. Qed.

Lemma digit_cases (P : Z -> Prop) : Forall P [0; 1; 2; 3; 4; 5; 6; 7; 8; 9; 10; 11; 12; 13; 14; 15] -> forall d, 0 <= d < 16 -> P d.
Proof. intros HP d Hd. rewrite Forall_forall in HP. apply HP. apply list_elem_of_In. cbn. lia. Qed.

Lemma char_hex_char d : 0 <= d < 16 -> char_hex (hex_char d) = Some d.
Proof. revert d. apply digit_cases. by repeat constructor. Qed.

Lemma hex_char_not_NUL d : 0 <= d < 16 -> hex_char d <> NUL.
Proof. revert d. apply digit_cases. by repeat constructor. Qed.

Lemma hex_fixed_length w v : String.length (hex_fixed w v) = w.
Proof.
  revert v. induction w as [|w IH]; intros v; [done|]. cbn. rewrite <-length_chars, chars_app, length_app, length_chars, IH. cbn. lia.
Qed.

Lemma hex_fixed_chars w v : Forall (fun c => exists d, 0 <= d < 16 /\ c = hex_char d) (chars (hex_fixed w v)).
Proof.
  revert v. induction w as [|w IH]; intros v; [by constructor|]. cbn [hex_fixed]. rewrite chars_app. apply Forall_app. split; [apply IH|].
  apply Forall_singleton. exists (v mod 16). split; [|done]. apply Z.mod_pos_bound. lia.
Qed.

Lemma hex_fixed_no_NUL w v : Forall (fun c => c <> NUL) (chars (hex_fixed w v)).
Proof.
  eapply Forall_impl; [apply hex_fixed_chars|]. intros c (d & Hd & ->). by apply hex_char_not_NUL.
Qed.

Lemma read_hex_app acc s t : read_hex acc (s ++ t)%string = n ← read_hex acc s; read_hex n t.
Proof. revert acc. induction s as [|c s IH]; intros acc; [done|]. cbn. destruct (char_hex c); [apply IH|done]. Qed.

Lemma read_hex_fixed w v acc : 0 <= v < 16 ^ Z.of_nat w -> read_hex acc (hex_fixed w v) = Some (acc * 16 ^ Z.of_nat w + v).
Proof.
  revert v. induction w as [|w IH]; intros v Hv.
  { cbn in *. change (16 ^ 0) with 1 in *. f_equal. lia. }
  assert (16 ^ Z.of_nat (S w) = 16 * 16 ^ Z.of_nat w) as E by (rewrite Nat2Z.inj_succ, Z.pow_succ_r; lia). rewrite E in *.
  cbn [hex_fixed]. rewrite read_hex_app, IH.
  - cbn. rewrite char_hex_char by (apply Z.mod_pos_bound; lia). f_equal. pose proof (Z.div_mod v 16). nia.
  - split; [apply Z.div_pos; lia|]. apply Z.div_lt_upper_bound; lia.
Qed.

(** A number of at most [w] digits is printed with exactly [w]. *)
Lemma print_x_fixed w v : (0 < w)%nat -> 0 <= v < 16 ^ Z.of_nat w -> print_x w v = hex_fixed w v.
Proof.
  intros Hw Hv. unfold print_x. f_equal. unfold hex_len.
  enough (Z.log2 v / 4 + 1 <= Z.of_nat w) by lia. enough (Z.log2 v / 4 < Z.of_nat w) by lia.
  apply Z.div_lt_upper_bound; [lia|]. destruct (Z.eq_dec v 0) as [->|Hne]; [cbn; lia|].
  apply Z.log2_lt_pow2; [lia|]. rewrite Z.pow_mul_r by lia. change (2 ^ 4) with 16. lia.
Qed.

Lemma print_x_mod w k v : (0 < w)%nat -> 2 ^ k = 16 ^ Z.of_nat w -> print_x w (v mod 2 ^ k) = hex_fixed w (v mod 2 ^ k).
Proof. intros Hw E. apply print_x_fixed; [done|]. rewrite E. apply Z.mod_pos_bound. lia. Qed.
