(* ===== verification/Uuid.v ===== *)
(** * Uuid: the identifier of a device (amdsmi/src/amd_smi/amd_smi_uuid.cc)

    The serial number, the device id and the function index, laid out as a UUID of
    version 1 and printed. *)

From Stdlib Require Import String Ascii.
From S2P Require Import Prelude.
From S2P Require Import CString.
#[local] Open Scope Z_scope.

(** The bit fields; [did], [fcn] and [asic_7] share a word with [time_low], [asic_6] a
    byte with [clk_seq_low]. *)
Record uuid_t := mkUuid {
  did : Z;
  fcn : Z;
  asic_7 : Z;
  time_mid : Z;
  time_high : Z;
  version : Z;
  clk_seq_hi : Z;
  variant : Z;
  asic_6 : Z;
  asic_4 : Z;
  asic_0 : Z;
}.

Definition time_low (u : uuid_t) : Z := did u + 2 ^ 16 * fcn u + 2 ^ 24 * asic_7 u.

Definition print_uuid (str : buffer) (u : uuid_t) : option buffer :=
  str ← sprintf_at 0 (print_x 8 (time_low u)) str;
  str ← sprintf_at 8 "-" str;
  str ← sprintf_at 9 (print_x 4 (time_mid u)) str;
  str ← sprintf_at 13 "-" str;
  str ← sprintf_at 14 (print_x 4 (Z.lor (Z.shiftl (version u) 12) (time_high u))) str;
  str ← sprintf_at 18 "-" str;
  str ← sprintf_at 19 (print_x 2 (Z.lor (Z.shiftl (variant u) 6) (clk_seq_hi u))) str;
  str ← sprintf_at 21 (print_x 2 (asic_6 u)) str;
  str ← sprintf_at 23 "-" str;
  str ← sprintf_at 24 (print_x 4 (asic_4 u)) str;
  str ← sprintf_at 28 (print_x 8 (asic_0 u)) str;
  write_at 36 [NUL] str.

Definition insert_asic_serial (serial : Z) (u : uuid_t) : uuid_t :=
  mkUuid (did u) (fcn u) (Z.land (u32 (Z.shiftr serial 56)) 0xFF) (time_mid u) (time_high u) (version u)
    (clk_seq_hi u) (variant u) (Z.land (u8 (Z.shiftr serial 48)) 0xFF) (Z.land (u16 (Z.shiftr serial 32)) 0xFFFF) (u32 serial).

Definition insert_did (d : Z) (u : uuid_t) : uuid_t :=
  mkUuid d (fcn u) (asic_7 u) (time_mid u) (time_high u) (version u) (clk_seq_hi u) (variant u) (asic_6 u) (asic_4 u) (asic_0 u).
Definition insert_fcn (f : Z) (u : uuid_t) : uuid_t :=
  mkUuid (did u) f (asic_7 u) (time_mid u) (time_high u) (version u) (clk_seq_hi u) (variant u) (asic_6 u) (asic_4 u) (asic_0 u).
Definition insert_clk_seq (seq : Z) (u : uuid_t) : uuid_t :=
  mkUuid (did u) (fcn u) (asic_7 u) (time_mid u) (time_high u) (version u) (Z.land (Z.shiftr seq 8) 0x3F) (variant u) (u8 seq)
    (asic_4 u) (asic_0 u).
Definition set_version_variant (v r : Z) (u : uuid_t) : uuid_t :=
  mkUuid (did u) (fcn u) (asic_7 u) (time_mid u) (time_high u) v (clk_seq_hi u) r (asic_6 u) (asic_4 u) (asic_0 u).

Definition uuid_make (serial d idx : Z) : uuid_t :=
  let u := mkUuid 0 0 0 0 0 0 0 0 0 0 0 in
  let u := insert_clk_seq 0 u in
  let u := insert_did d u in
  let u := insert_fcn idx u in
  let u := insert_asic_serial serial u in
  set_version_variant 1 2 u.

(** Always [AMDSMI_STATUS_SUCCESS]: what is left in [str]. *)
Definition amdsmi_uuid_gen (str : buffer) (serial d idx : Z) : option buffer := print_uuid str (uuid_make serial d idx).

(** ** Reading it back *)

Definition slice (off n : nat) (s : string) : string := substring off n s.

(** The serial number, the device id and the function index of an identifier. *)
Definition uuid_parse (s : string) : option (Z * Z * Z) :=
  low ← read_hex 0 (slice 0 8 s);
  a6 ← read_hex 0 (slice 21 2 s);
  a4 ← read_hex 0 (slice 24 4 s);
  a0 ← read_hex 0 (slice 28 8 s);
  Some (a0 + 2 ^ 32 * a4 + 2 ^ 48 * a6 + 2 ^ 56 * (low / 2 ^ 24), low mod 2 ^ 16, low / 2 ^ 16 mod 2 ^ 8).

(** The text of an identifier. *)
Definition uuid_text (serial d idx : Z) : string :=
  (hex_fixed 8 (time_low (uuid_make serial d idx)) ++ "-0000-1000-80" ++ hex_fixed 2 (serial / 2 ^ 48 mod 2 ^ 8) ++
   "-" ++ hex_fixed 4 (serial / 2 ^ 32 mod 2 ^ 16) ++ hex_fixed 8 (serial mod 2 ^ 32))%string.

(** ** Lemmas *)

(** One [sprintf] after the other, each where the last one put its terminator: the buffer
    [b] starts with [p] and is [b0] past the terminator. *)
Definition filled (p : list ascii) (b0 b : buffer) : Prop :=
  take (length p) b = p /\ length b = length b0 /\ forall k, (length p < k)%nat -> drop k b = drop k b0.

Lemma filled_nil b : filled [] b b.
Proof. by split_and!. Qed.

Lemma filled_sprintf {A} off s p b0 b (f : buffer -> option A) (Q : A -> Prop) :
  filled p b0 b -> off = length p -> (length p + String.length s + 1 <= length b0)%nat ->
  (forall b', filled (p ++ chars s) b0 b' -> exists x, f b' = Some x /\ Q x) ->
  exists x, (sprintf_at off s b ≫= f) = Some x /\ Q x.
Proof.
  intros (Hp & Hn & Hd) -> Hlen Hf. unfold sprintf_at. pose proof (length_chars s) as Hs.
  destruct (write_at_Some (length p) (chars s ++ [NUL]) b) as [b' Hb]; [rewrite length_app; cbn; lia|].
  rewrite Hb. apply Hf. split_and!; [|by rewrite (write_at_length _ _ _ _ Hb)|].
  - apply write_at_take in Hb. rewrite Hp in Hb. rewrite length_app.
    apply (f_equal (take (length p + length (chars s)))) in Hb. rewrite take_take in Hb.
    rewrite Nat.min_l in Hb by (rewrite length_app; lia). rewrite Hb, app_assoc, take_app_length'; [done|]. by rewrite length_app.
  - intros k Hk. rewrite length_app in Hk. rewrite (write_at_drop _ _ _ _ _ Hb) by (rewrite length_app; cbn; lia). apply Hd. lia.
Qed.

(** The terminator. *)
Lemma filled_end s b0 b : filled (chars s) b0 b -> Forall (fun c => c <> NUL) (chars s) -> (String.length s < length b0)%nat ->
  exists b', write_at (String.length s) [NUL] b = Some b' /\ c_string b' = Some s /\ length b' = length b0 /\
    drop (String.length s + 1) b' = drop (String.length s + 1) b0.
Proof.
  intros (Hp & Hn & Hd) HN Hlen. rewrite <-length_chars in *.
  destruct (write_at_Some (length (chars s)) [NUL] b) as [b' Hb]; [cbn; lia|]. exists b'.
  split_and!; [done|..|by rewrite (write_at_length _ _ _ _ Hb)|].
  - rewrite <-(take_drop (length (chars s) + 1) b'). rewrite (write_at_take _ _ _ _ Hb : take (length (chars s) + 1) b' = _), Hp, <-app_assoc.
    by apply c_string_app.
  - rewrite (write_at_drop _ _ _ _ _ Hb) by (cbn; lia). apply Hd. lia.
Qed.

(** The fields of the identifier. *)
Lemma uuid_fields serial d idx : 0 <= serial < 2 ^ 64 ->
  let u := uuid_make serial d idx in
  asic_0 u = serial mod 2 ^ 32 /\ asic_4 u = serial / 2 ^ 32 mod 2 ^ 16 /\ asic_6 u = serial / 2 ^ 48 mod 2 ^ 8 /\
  asic_7 u = serial / 2 ^ 56 /\ time_low u = d + 2 ^ 16 * idx + 2 ^ 24 * (serial / 2 ^ 56).
Proof.
  intros Hs u. assert (0 <= serial / 2 ^ 56 < 2 ^ 8) as H56.
  { split; [apply Z.div_pos; lia|]. apply Z.div_lt_upper_bound; lia. }
  assert (asic_7 u = serial / 2 ^ 56) as E7.
  { cbn. change 0xFF with (Z.ones 8). rewrite Z.land_ones, Z.shiftr_div_pow2 by lia. rewrite u32_small by lia. apply Z.mod_small. lia. }
  split_and!; [done|..|exact E7|unfold time_low; rewrite E7; done].
  - cbn. change 0xFFFF with (Z.ones 16). rewrite Z.land_ones, Z.shiftr_div_pow2 by lia. apply Z.mod_small, Z.mod_pos_bound. lia.
  - cbn. change 0xFF with (Z.ones 8). rewrite Z.land_ones, Z.shiftr_div_pow2 by lia. apply Z.mod_small, Z.mod_pos_bound. lia.
Qed.

Lemma time_low_range serial d idx : 0 <= serial < 2 ^ 64 -> 0 <= d < 2 ^ 16 -> 0 <= idx < 2 ^ 8 ->
  0 <= time_low (uuid_make serial d idx) < 16 ^ Z.of_nat 8.
Proof.
  intros Hs Hd Hi. destruct (uuid_fields serial d idx Hs) as (_ & _ & _ & _ & ->).
  assert (0 <= serial / 2 ^ 56 < 2 ^ 8); [|change (16 ^ Z.of_nat 8) with (2 ^ 32); nia].
  split; [apply Z.div_pos; lia|]. apply Z.div_lt_upper_bound; lia.
Qed.

#[local] Hint Rewrite chars_app length_chars hex_fixed_length @length_app : chars.

Lemma uuid_text_no_NUL serial d idx : Forall (fun c => c <> NUL) (chars (uuid_text serial d idx)).
Proof.
  unfold uuid_text. rewrite !chars_app. rewrite !Forall_app. split_and!; try apply hex_fixed_no_NUL; by repeat constructor.
Qed.

(** What [amdsmi_uuid_gen] leaves in a buffer of 37 characters or more. *)
Lemma uuid_gen_text serial d idx b : 0 <= serial < 2 ^ 64 -> 0 <= d < 2 ^ 16 -> 0 <= idx < 2 ^ 8 -> (37 <= length b)%nat ->
  exists b', amdsmi_uuid_gen b serial d idx = Some b' /\ c_string b' = Some (uuid_text serial d idx) /\
    length b' = length b /\ drop 37 b' = drop 37 b.
Proof.
  intros Hs Hd Hi Hb. pose proof (uuid_text_no_NUL serial d idx) as HN. revert HN.
  unfold amdsmi_uuid_gen, print_uuid. pose proof (time_low_range serial d idx Hs Hd Hi) as Hlow.
  destruct (uuid_fields serial d idx Hs) as (E0 & E4 & E6 & _ & _).
  rewrite (print_x_fixed 8 (time_low _)) by (exact Hlow || lia). rewrite E0, E4, E6. clear E0 E4 E6.
  change (time_mid _) with 0. change (Z.lor (Z.shiftl (version _) 12) (time_high _)) with 0x1000.
  change (Z.lor (Z.shiftl (variant _) 6) (clk_seq_hi _)) with 0x80.
  change (print_x 4 0) with "0000"%string. change (print_x 4 0x1000) with "1000"%string. change (print_x 2 0x80) with "80"%string.
  rewrite (print_x_mod 2), (print_x_mod 4), (print_x_mod 8) by (reflexivity || lia).
  unfold uuid_text. generalize dependent (time_low (uuid_make serial d idx)). intros low _ HN.
  do 11 (eapply filled_sprintf; [first [eassumption|apply filled_nil]|autorewrite with chars; done|autorewrite with chars; cbn [String.length length]; lia|];
    intros ? ?).
  match goal with H : filled _ _ ?b' |- _ => eapply (filled_end _ b b') in HN end.
  - destruct HN as (b2 & Hw & Hf). rewrite !length_str_app, !hex_fixed_length in Hw, Hf. by exists b2.
  - rewrite !chars_app. match goal with H : filled _ _ ?b' |- filled _ _ ?b' => cbn [app] in H; rewrite <-!app_assoc in H; exact H end.
  - rewrite !length_str_app, !hex_fixed_length. cbn [String.length]. lia.
Qed.

Lemma substring_app off n s t : (String.length s = off)%nat -> substring off n (s ++ t) = substring 0 n t.
Proof. intros <-. induction s as [|c s IH]; [done|]. exact IH. Qed.
Lemma substring_here s t : substring 0 (String.length s) (s ++ t) = s.
Proof. induction s as [|c s IH]; [by destruct t|]. cbn. by rewrite IH. Qed.

Lemma read_slice off w v s t : 0 <= v < 16 ^ Z.of_nat w -> String.length s = off ->
  read_hex 0 (slice off w (s ++ hex_fixed w v ++ t)) = Some v.
Proof.
  intros Hv <-. unfold slice. rewrite (substring_app _ _ s) by done.
  rewrite <-(hex_fixed_length w v) at 1. rewrite substring_here. by rewrite read_hex_fixed.
Qed.

Lemma uuid_parse_text serial d idx : 0 <= serial < 2 ^ 64 -> 0 <= d < 2 ^ 16 -> 0 <= idx < 2 ^ 8 ->
  uuid_parse (uuid_text serial d idx) = Some (serial, d, idx).
Proof.
  intros Hs Hd Hi. pose proof (time_low_range serial d idx Hs Hd Hi) as Hlow.
  destruct (uuid_fields serial d idx Hs) as (_ & _ & _ & _ & Elow).
  assert (0 <= serial / 2 ^ 56 < 2 ^ 8) as H56.
  { split; [apply Z.div_pos; lia|]. apply Z.div_lt_upper_bound; lia. }
  unfold uuid_parse, uuid_text. rewrite Elow in *. set (low := d + _ + _) in *.
  set (x6 := serial / 2 ^ 48 mod 2 ^ 8). set (x4 := serial / 2 ^ 32 mod 2 ^ 16). set (x0 := serial mod 2 ^ 32).
  assert (0 <= x6 < 16 ^ Z.of_nat 2) as H6 by (apply Z.mod_pos_bound; lia).
  assert (0 <= x4 < 16 ^ Z.of_nat 4) as H4 by (apply Z.mod_pos_bound; lia).
  assert (0 <= x0 < 16 ^ Z.of_nat 8) as H0 by (apply Z.mod_pos_bound; lia).
  pose proof (read_slice 0 8 low "" ("-0000-1000-80" ++ hex_fixed 2 x6 ++ "-" ++ hex_fixed 4 x4 ++ hex_fixed 8 x0) Hlow eq_refl) as E1.
  pose proof (read_slice 21 2 x6 (hex_fixed 8 low ++ "-0000-1000-80") ("-" ++ hex_fixed 4 x4 ++ hex_fixed 8 x0) H6) as E2.
  pose proof (read_slice 24 4 x4 (hex_fixed 8 low ++ "-0000-1000-80" ++ hex_fixed 2 x6 ++ "-") (hex_fixed 8 x0) H4) as E3.
  pose proof (read_slice 28 8 x0 (hex_fixed 8 low ++ "-0000-1000-80" ++ hex_fixed 2 x6 ++ "-" ++ hex_fixed 4 x4) "" H0) as E4.
  repeat rewrite <-str_app_assoc in E2. repeat rewrite <-str_app_assoc in E3. repeat rewrite <-str_app_assoc in E4. rewrite str_app_nil in E4. change ("" ++ ?s)%string with s in E1.
  rewrite E1, E2, E3, E4 by (rewrite ?length_str_app, ?hex_fixed_length; reflexivity). clear E1 E2 E3 E4.
  cbn [mbind option_bind]. unfold low. repeat f_equal.
  - replace ((d + 2 ^ 16 * idx + 2 ^ 24 * (serial / 2 ^ 56)) / 2 ^ 24) with (serial / 2 ^ 56)
      by (apply Z.div_unique with (r := d + 2 ^ 16 * idx); lia).
    assert (serial / 2 ^ 48 = serial / 2 ^ 32 / 2 ^ 16) as E1 by (rewrite Z.div_div by lia; reflexivity).
    assert (serial / 2 ^ 56 = serial / 2 ^ 48 / 2 ^ 8) as E2 by (rewrite Z.div_div by lia; reflexivity).
    unfold x0, x4, x6. pose proof (Z.div_mod serial (2 ^ 32)) as D0. pose proof (Z.div_mod (serial / 2 ^ 32) (2 ^ 16)) as D1.
    pose proof (Z.div_mod (serial / 2 ^ 48) (2 ^ 8)) as D2. lia.
  - symmetry. apply Z.mod_unique with (q := idx + 2 ^ 8 * (serial / 2 ^ 56)); lia.
  - replace ((d + 2 ^ 16 * idx + 2 ^ 24 * (serial / 2 ^ 56)) / 2 ^ 16) with (idx + 2 ^ 8 * (serial / 2 ^ 56)).
    + symmetry. apply Z.mod_unique with (q := serial / 2 ^ 56); lia.
    + apply Z.div_unique with (r := d); lia.
Qed.

(** ** Properties *)

(** C32: For every serial number, device id and function index, [amdsmi_uuid_gen] writes no
    further than the 37 characters of a buffer it is given that many or more of, and
    leaves a terminated text of 36 characters there from which all 64 bits of the serial
    number, the 16 of the device id and the 8 of the function index can be read back: no
    two devices share an identifier. *)
Theorem uuid_gen_roundtrip serial d idx b : 0 <= serial < 2 ^ 64 -> 0 <= d < 2 ^ 16 -> 0 <= idx < 2 ^ 8 -> (37 <= length b)%nat ->
  exists b' s, amdsmi_uuid_gen b serial d idx = Some b' /\ drop 37 b' = drop 37 b /\ length b' = length b /\
    c_string b' = Some s /\ String.length s = 36%nat /\ uuid_parse s = Some (serial, d, idx).
Proof.
  intros Hs Hd Hi Hb. destruct (uuid_gen_text serial d idx b Hs Hd Hi Hb) as (b' & H1 & H2 & H3 & H4).
  exists b', (uuid_text serial d idx). split_and!; try done. by apply uuid_parse_text.
Qed.

Lemma uuid_gen_roundtrip_witness :
  (37 <= length (repeat "x"%char 38))%nat /\
  exists b' s, amdsmi_uuid_gen (repeat "x"%char 38) 0x123456789ABCDEF0 0x744C 0xFF = Some b' /\
    drop 37 b' = drop 37 (repeat "x"%char 38) /\ length b' = 38%nat /\
    c_string b' = Some s /\ String.length s = 36%nat /\ uuid_parse s = Some (0x123456789ABCDEF0, 0x744C, 0xFF).
Proof.
  assert (37 <= length (repeat "x"%char 38))%nat as Hb by (vm_compute; lia). split; [exact Hb|].
  exact (uuid_gen_roundtrip 0x123456789ABCDEF0 0x744C 0xFF (repeat "x"%char 38) ltac:(lia) ltac:(lia) ltac:(lia) Hb).
Defined.

Example uuid_gen_text_example :
  (amdsmi_uuid_gen (repeat "x"%char 38) 0x123456789ABCDEF0 0x744C 0xFF ≫= c_string) = Some "12ff744c-0000-1000-8034-56789abcdef0"%string.
Proof. vm_compute. reflexivity. Qed.
