(* ===== verification/StdMap.v ===== *)
(** * StdMap: the ordered containers of the C++ standard library

    [std::map<uint64_t, V>] as an association list sorted by strictly
    increasing keys, an iterator as the key it points to; and
    [std::multimap<size_t, uintptr_t>] as a list of pairs sorted by key,
    equal keys in insertion order, an iterator as the entry it points to
    ([None] for [end()]). Only the members the sources use are defined. *)

From S2P Require Import Prelude.

Section map.
Context {V : Type}.
Implicit Types (m l : list (Z * V)) (k : Z) (v : V).

(** [m.find(k)] *)
Fixpoint map_find k m : option V :=
  match m with
  | [] => None
  | (k', v) :: m' => if k =? k' then Some v else map_find k m'
  end.

(** [m[k] = v] *)
Fixpoint map_set k v m : list (Z * V) :=
  match m with
  | [] => [(k, v)]
  | (k', v') :: m' =>
      if k <? k' then (k, v) :: m
      else if k =? k' then (k, v) :: m'
      else (k', v') :: map_set k v m'
  end.

(** [m.erase(k)] *)
Fixpoint map_erase k m : list (Z * V) :=
  match m with
  | [] => []
  | (k', v') :: m' => if k =? k' then m' else (k', v') :: map_erase k m'
  end.

(** [--it] for the iterator at [k]: the last entry below it; [None] when the
    iterator is [begin()]. *)
Fixpoint map_prev k m : option (Z * V) :=
  match m with
  | [] => None
  | (k', v') :: m' =>
      if k' <? k then
        match map_prev k m' with Some e => Some e | None => Some (k', v') end
      else None
  end.

(** [++it] for the iterator at [k], and [upper_bound(k)]: the first entry
    above [k]. *)
Fixpoint map_next k m : option (Z * V) :=
  match m with
  | [] => None
  | (k', v') :: m' => if k <? k' then Some (k', v') else map_next k m'
  end.

(** The entries an iterator visits when it starts at [upper_bound(k)] and is
    decremented until it reaches [begin()]. *)
Definition map_down_from k m : list (Z * V) :=
  reverse (filter (fun e => e.1 <= k) m).

(** [--upper_bound(k)]: the last entry at or below [k]; [None] when
    [upper_bound(k)] is [begin()]. *)
Definition map_floor k m : option (Z * V) := head (map_down_from k m).

Definition keys_lt k m : Prop := Forall (fun e => e.1 < k) m.
Definition keys_gt k m : Prop := Forall (fun e => k < e.1) m.

Lemma map_find_mid k v l1 l2 :
  keys_lt k l1 -> map_find k (l1 ++ (k, v) :: l2) = Some v.
Proof.
  induction 1 as [|[k' v'] l1 Hlt _ IH]; simpl in *; case_zbool; try lia; done.
Qed.

Lemma map_find_None k l1 l2 :
  keys_lt k l1 -> keys_gt k l2 -> map_find k (l1 ++ l2) = None.
Proof.
  intros H1 H2. induction H1 as [|[k' v'] l1 Hlt _ IH]; simpl in *.
  - induction H2 as [|[k' v'] l2 Hgt _ IH]; simpl in *; [done|]. case_zbool; [lia|done].
  - case_zbool; [lia|done].
Qed.

Lemma map_find_split k v m :
  map_find k m = Some v -> exists l1 l2, m = l1 ++ (k, v) :: l2.
Proof.
  induction m as [|[k' v'] m IH]; simpl; [done|].
  case_zbool; intros; simplify_eq.
  - by exists [], m.
  - destruct IH as (l1 & l2 & ->); [done|]. by exists ((k', v') :: l1), l2.
Qed.

Lemma map_set_mid k v v' l1 l2 :
  keys_lt k l1 -> map_set k v (l1 ++ (k, v') :: l2) = l1 ++ (k, v) :: l2.
Proof.
  induction 1 as [|[k' v''] l1 Hlt _ IH]; simpl in *.
  - by rewrite Z.ltb_irrefl, Z.eqb_refl.
  - rewrite IH. repeat case_zbool; try lia; done.
Qed.

Lemma map_set_new k v l1 l2 :
  keys_lt k l1 -> keys_gt k l2 -> map_set k v (l1 ++ l2) = l1 ++ (k, v) :: l2.
Proof.
  intros H1 H2. induction H1 as [|[k' v''] l1 Hlt _ IH]; simpl in *.
  - destruct H2 as [|[k' v''] l2 Hgt _]; simpl in *; [done|]. repeat case_zbool; try lia; done.
  - rewrite IH. repeat case_zbool; try lia; done.
Qed.

Lemma map_erase_mid k v l1 l2 :
  keys_lt k l1 -> map_erase k (l1 ++ (k, v) :: l2) = l1 ++ l2.
Proof.
  induction 1 as [|[k' v''] l1 Hlt _ IH]; simpl in *.
  - by rewrite Z.eqb_refl.
  - rewrite IH. case_zbool; [lia|done].
Qed.

Lemma map_prev_mid k v l1 l2 :
  keys_lt k l1 -> map_prev k (l1 ++ (k, v) :: l2) = last l1.
Proof.
  induction 1 as [|[k' v''] l1 Hlt _ IH]; simpl in *.
  - by rewrite Z.ltb_irrefl.
  - rewrite IH. case_zbool; [|lia]. destruct l1; simpl; [done|].
    by destruct (last (p :: l1)) eqn:E; [|apply last_None in E].
Qed.

Lemma map_next_mid k v l1 l2 :
  keys_lt k l1 -> keys_gt k l2 -> map_next k (l1 ++ (k, v) :: l2) = head l2.
Proof.
  intros H1 H2. induction H1 as [|[k' v''] l1 Hlt _ IH]; simpl in *.
  - rewrite Z.ltb_irrefl. destruct H2 as [|[k' v''] l2 Hgt _]; simpl in *; [done|].
    repeat case_zbool; try lia; done.
  - rewrite IH. case_zbool; [lia|done].
Qed.

(** The keys ascend. *)
Definition map_sorted m : Prop := StronglySorted (fun e e' => e.1 < e'.1) m.

Lemma map_sorted_around k m :
  map_sorted m -> map_find k m = None -> exists l1 l2, m = l1 ++ l2 /\ keys_lt k l1 /\ keys_gt k l2.
Proof.
  induction 1 as [|[k' v'] m Hs IH Hall]; simpl; intros Hf; [by exists [], []; repeat constructor|].
  destruct (Z.eqb_spec k k'); [done|]. destruct (Z.lt_ge_cases k k').
  - exists [], ((k', v') :: m). split_and!; [done|constructor|]. constructor; [done|].
    eapply Forall_impl; [exact Hall|]. simpl. lia.
  - destruct (IH Hf) as (l1 & l2 & -> & ? & ?). exists ((k', v') :: l1), l2. split_and!; [done| |done].
    constructor; [simpl; lia|done].
Qed.

Lemma map_erase_set k v m : map_sorted m -> map_find k m = None -> map_erase k (map_set k v m) = m.
Proof.
  intros Hw Hf. destruct (map_sorted_around _ _ Hw Hf) as (l1 & l2 & -> & ? & ?).
  by rewrite map_set_new, map_erase_mid.
Qed.

Lemma map_sorted_insert k v l1 l2 :
  map_sorted (l1 ++ l2) -> keys_lt k l1 -> keys_gt k l2 -> map_sorted (l1 ++ (k, v) :: l2).
Proof.
  induction l1 as [|[k' v'] l1 IH]; simpl; intros Hs H1 H2.
  - constructor; [done|exact H2].
  - apply StronglySorted_inv in Hs as [Hs Hall]. apply Forall_cons in H1 as [Hk H1].
    constructor; [by apply IH|]. apply Forall_app in Hall as [Ha1 Ha2]. apply Forall_app. split; [done|].
    constructor; [done|]. eapply Forall_impl; [exact H2|]. simpl in *. lia.
Qed.

Lemma map_set_sorted k v m : map_sorted m -> map_find k m = None -> map_sorted (map_set k v m).
Proof.
  intros Hw Hf. destruct (map_sorted_around _ _ Hw Hf) as (l1 & l2 & -> & ? & ?).
  rewrite map_set_new by done. by apply map_sorted_insert.
Qed.

Lemma map_find_set_other k k' v m : k <> k' -> map_find k' (map_set k v m) = map_find k' m.
Proof.
  intros Hne. induction m as [|[j u] m IH]; simpl; [by rewrite (proj2 (Z.eqb_neq k' k)) by done|].
  repeat case_zbool; simpl; repeat case_zbool; subst; try done; try lia.
Qed.

Lemma map_find_set_same k v m : map_sorted m -> map_find k m = None -> map_find k (map_set k v m) = Some v.
Proof.
  intros Hw Hf. destruct (map_sorted_around _ _ Hw Hf) as (l1 & l2 & -> & ? & ?).
  by rewrite map_set_new, map_find_mid.
Qed.

Lemma map_find_erase_other k k' m : k <> k' -> map_find k' (map_erase k m) = map_find k' m.
Proof. intros Hne. induction m as [|[j u] m IH]; simpl; [done|]. repeat case_zbool; simpl; repeat case_zbool; subst; try done; lia. Qed.

Lemma map_erase_incl k m e : e ∈ map_erase k m -> e ∈ m.
Proof.
  induction m as [|[j u] m IH]; simpl; [done|]. case_zbool; [by right|]. intros [->|H]%elem_of_cons; [left|right; by apply IH].
Qed.

Lemma map_erase_sorted k m : map_sorted m -> map_sorted (map_erase k m).
Proof.
  induction 1 as [|[j u] m Hs IH Hall]; simpl; [constructor|]. case_zbool; [done|]. constructor; [done|]. rewrite Forall_forall in *.
  intros e He. by apply Hall, (map_erase_incl k).
Qed.

Lemma map_find_erase_same k m : map_sorted m -> map_find k (map_erase k m) = None.
Proof.
  induction 1 as [|[j u] m Hs IH Hall]; simpl; [done|]. case_zbool; simpl; [|by case_zbool]. subst. clear IH Hs.
  induction Hall as [|[j' u'] m Hj Hall IH]; simpl in *; [done|]. case_zbool; [lia|done].
Qed.

Lemma map_find_elem k v m : map_sorted m -> map_find k m = Some v <-> (k, v) ∈ m.
Proof.
  intros Hs. split; [intros (l1 & l2 & ->)%map_find_split; rewrite elem_of_app, elem_of_cons; auto|].
  induction Hs as [|[j u] m Hs IH Hall]; [by intros ?%elem_of_nil|]. simpl. intros [[= -> ->]|Hin]%elem_of_cons.
  - by rewrite Z.eqb_refl.
  - rewrite Forall_forall in Hall. specialize (Hall _ Hin). simpl in Hall. case_zbool; [lia|by apply IH].
Qed.

Lemma map_sorted_filter (P : Z * V -> Prop) `{forall e, Decision (P e)} m : map_sorted m -> map_sorted (filter P m).
Proof.
  induction 1 as [|e m Hs IH Hall]; [constructor|]. rewrite filter_cons. case_decide; [|done]. constructor; [done|].
  rewrite Forall_forall in *. intros e' [_ He']%list_elem_of_filter. by apply Hall.
Qed.

(** The entry [map_floor] finds is the one with the greatest key that is not above. *)
Lemma map_floor_spec k m : map_sorted m ->
  match map_floor k m with
  | Some (a, v) => a <= k /\ map_find a m = Some v /\ forall a' v', map_find a' m = Some v' -> a' <= k -> a' <= a
  | None => forall a v, map_find a m = Some v -> k < a
  end.
Proof.
  intros Hs. unfold map_floor, map_down_from. set (l := filter (fun e : Z * V => e.1 <= k) m).
  assert (forall e, e ∈ l <-> e.1 <= k /\ e ∈ m) as Hl by (intros e; unfold l; by rewrite list_elem_of_filter).
  assert (map_sorted l) as Hsl by (by apply map_sorted_filter).
  rewrite head_reverse. destruct l as [|[a v] r _] using rev_ind; cbn.
  - intros a v Hf%map_find_elem; [|done]. destruct (Z.lt_ge_cases k a); [done|].
    assert ((a, v) ∈ ([] : list (Z * V))) as Hn by (by apply Hl). by apply elem_of_nil in Hn.
  - rewrite last_snoc. assert ((a, v) ∈ r ++ [(a, v)]) as Hin by (apply elem_of_app; right; by apply list_elem_of_singleton). apply Hl in Hin as [Hle Hin]. cbn in Hle.
    split; [done|]. split; [by apply map_find_elem|]. intros a' v' Hf%map_find_elem Hle'; [|done].
    assert ((a', v') ∈ r ++ [(a, v)]) as Hin' by (by apply Hl). apply elem_of_app in Hin' as [Hin'|Hin']; [|apply list_elem_of_singleton in Hin' as [= -> ->]; done].
    apply StronglySorted_app in Hsl as (Hlt & _). pose proof (Hlt (a', v') (a, v) Hin' ltac:(by apply list_elem_of_singleton)). cbn in *. lia.
Qed.

Lemma keys_lt_app k l1 l2 : keys_lt k (l1 ++ l2) <-> keys_lt k l1 /\ keys_lt k l2.
Proof. apply Forall_app. Qed.

Lemma keys_gt_app k l1 l2 : keys_gt k (l1 ++ l2) <-> keys_gt k l1 /\ keys_gt k l2.
Proof. apply Forall_app. Qed.
End map.

#[export] Hint Rewrite @map_find_mid @map_set_mid @map_erase_mid @map_prev_mid @map_next_mid
  using (first [assumption | lia]) : stdmap.

Section multimap.
Implicit Types (m l : list (Z * Z)) (k v : Z) (e : Z * Z).

(** [m.insert({k, v})]: after the entries with an equal key. *)
Fixpoint mm_insert k v m : list (Z * Z) :=
  match m with
  | [] => [(k, v)]
  | (k', v') :: m' => if k <? k' then (k, v) :: m else (k', v') :: mm_insert k v m'
  end.

(** [m.lower_bound(k)] *)
Fixpoint mm_lower_bound k m : option (Z * Z) :=
  match m with
  | [] => None
  | (k', v') :: m' => if k <=? k' then Some (k', v') else mm_lower_bound k m'
  end.

(** [m.erase(it)] *)
Fixpoint mm_erase e m : list (Z * Z) :=
  match m with
  | [] => []
  | e' :: m' => if decide (e = e') then m' else e' :: mm_erase e m'
  end.

Definition mm_sorted m : Prop := StronglySorted (fun e e' => e.1 <= e'.1) m.

Lemma mm_insert_perm k v m : mm_insert k v m ≡ₚ (k, v) :: m.
Proof.
  induction m as [|[k' v'] m IH]; simpl; [done|].
  case_zbool; [done|]. rewrite IH. constructor.
Qed.

Lemma mm_erase_perm e m : e ∈ m -> e :: mm_erase e m ≡ₚ m.
Proof.
  induction m as [|e' m IH]; simpl; [by intros ?%not_elem_of_nil|].
  intros Hin. case_decide; [by subst|].
  apply elem_of_cons in Hin as [?|Hin]; [done|]. rewrite <- (IH Hin) at 2. constructor.
Qed.

Lemma mm_erase_perm_cons e m l : m ≡ₚ e :: l -> mm_erase e m ≡ₚ l.
Proof.
  intros Hm. apply (Permutation_cons_inv (a := e)). rewrite <- Hm. apply mm_erase_perm.
  rewrite Hm. constructor.
Qed.

Lemma mm_erase_incl e m : forall x, x ∈ mm_erase e m -> x ∈ m.
Proof.
  induction m as [|e' m IH]; simpl; [done|]. intros x. case_decide; subst; [by constructor|].
  intros [->|?]%elem_of_cons; constructor; auto.
Qed.

Lemma mm_insert_sorted k v m : mm_sorted m -> mm_sorted (mm_insert k v m).
Proof.
  induction 1 as [|[k' v'] m Hs IH Hall]; simpl; [repeat constructor|].
  case_zbool.
  - constructor; [by constructor|]. constructor; [simpl; lia|].
    eapply Forall_impl; [exact Hall|]. simpl. intros; lia.
  - constructor; [done|]. rewrite mm_insert_perm. constructor; [simpl; lia|done].
Qed.

Lemma mm_erase_sorted e m : mm_sorted m -> mm_sorted (mm_erase e m).
Proof.
  induction 1 as [|e' m Hs IH Hall]; simpl; [constructor|]. case_decide; [done|].
  constructor; [done|]. apply Forall_forall. intros x Hx%mm_erase_incl.
  by eapply Forall_forall in Hall.
Qed.

Lemma mm_lower_bound_Some k m e : mm_lower_bound k m = Some e -> e ∈ m /\ k <= e.1.
Proof.
  induction m as [|[k' v'] m IH]; simpl; [done|]. case_zbool; intros; simplify_eq/=.
  - split; [constructor|lia].
  - destruct IH; [done|]. split; [by constructor|lia].
Qed.

Lemma mm_lower_bound_None k m : mm_lower_bound k m = None -> forall e, e ∈ m -> e.1 < k.
Proof.
  induction m as [|[k' v'] m IH]; simpl; [by intros ? ? ?%not_elem_of_nil|].
  case_zbool; [done|]. intros ? e [->|?]%elem_of_cons; simpl; auto.
Qed.

(** The entry found is a best fit. *)
Lemma mm_lower_bound_least k m e :
  mm_sorted m -> mm_lower_bound k m = Some e -> forall e', e' ∈ m -> k <= e'.1 -> e.1 <= e'.1.
Proof.
  induction 1 as [|[k' v'] m Hs IH Hall]; simpl; [done|].
  case_zbool; intros ? e' [->|Hin]%elem_of_cons ?; simplify_eq/=; try lia; eauto.
  eapply Forall_forall in Hall; [|done]. done.
Qed.
End multimap.

#[export] Hint Resolve mm_insert_sorted mm_erase_sorted : dxg.
