(* ===== verification/BitField.v ===== *)
(** * BitField: C bit-fields and flag words

    A bit-field of [w] bits at position [pos] of an unsigned word [x]. The
    flag unions of the sources ([HsaMemFlags], [GpuMemoryDescFlags], ...) and
    the register words of the packets are words read and written through it. *)

From S2P Require Import Prelude.

Definition bf_get (pos w x : Z) : Z := Z.land (Z.shiftr x pos) (Z.ones w).

Definition bf_set (pos w v x : Z) : Z :=
  Z.lor (Z.ldiff x (Z.shiftl (Z.ones w) pos)) (Z.shiftl (Z.land v (Z.ones w)) pos).

(** Fields of one bit. *)
Definition bit (pos x : Z) : bool := Z.testbit x pos.
Definition bit_set (pos : Z) (b : bool) (x : Z) : Z := bf_set pos 1 (Z.b2z b) x.

Lemma testbit_ones w n : 0 <= w -> 0 <= n -> Z.testbit (Z.ones w) n = (n <? w).
Proof. intros. rewrite Z.testbit_ones by lia. by destruct (Z.leb_spec 0 n); [|lia]. Qed.

Lemma bf_set_bits pos w v x n :
  0 <= pos -> 0 <= w -> 0 <= n ->
  Z.testbit (bf_set pos w v x) n =
    if (pos <=? n) && (n <? pos + w) then Z.testbit v (n - pos) else Z.testbit x n.
Proof.
  intros Hp Hw Hn. unfold bf_set.
  rewrite Z.lor_spec, Z.ldiff_spec, !Z.shiftl_spec, Z.land_spec by lia.
  destruct (Z.leb_spec pos n); simpl.
  - rewrite testbit_ones by lia. case_zbool; case_zbool; simpl; try lia;
      rewrite ?andb_false_r, ?andb_true_r, ?orb_false_r; done.
  - rewrite !(Z.testbit_neg_r _ (n - pos)) by lia. by rewrite andb_true_r, orb_false_r.
Qed.

Lemma bf_get_bits pos w x n :
  0 <= pos -> 0 <= w -> 0 <= n ->
  Z.testbit (bf_get pos w x) n = (n <? w) && Z.testbit x (n + pos).
Proof.
  intros. unfold bf_get. rewrite Z.land_spec, Z.shiftr_spec, testbit_ones by lia.
  repeat case_zbool; simpl; try lia; by rewrite ?andb_false_r, ?andb_true_r.
Qed.

(** What is written to a field is read back, truncated to its width. *)
Lemma bf_get_set_same pos w v x :
  0 <= pos -> 0 <= w -> bf_get pos w (bf_set pos w v x) = Z.land v (Z.ones w).
Proof.
  intros. apply Z.bits_inj'. intros n Hn.
  rewrite bf_get_bits, bf_set_bits, Z.land_spec, testbit_ones by lia.
  replace (n + pos - pos) with n by lia.
  repeat case_zbool; simpl; try lia; by rewrite ?andb_false_r, ?andb_true_r.
Qed.

(** Writing a field leaves the others alone. *)
Lemma bf_get_set_other pos w v x pos' w' :
  0 <= pos -> 0 <= w -> 0 <= pos' -> 0 <= w' -> pos + w <= pos' \/ pos' + w' <= pos ->
  bf_get pos' w' (bf_set pos w v x) = bf_get pos' w' x.
Proof.
  intros. apply Z.bits_inj'. intros n Hn. rewrite !bf_get_bits, bf_set_bits by lia.
  repeat case_zbool; simpl; try lia; done.
Qed.

Lemma bit_set_same pos b x : 0 <= pos -> bit pos (bit_set pos b x) = b.
Proof.
  intros. unfold bit, bit_set. rewrite bf_set_bits by lia.
  repeat case_zbool; simpl; try lia. replace (pos - pos) with 0 by lia. by destruct b.
Qed.

Lemma bit_set_other pos b x pos' :
  0 <= pos -> 0 <= pos' -> pos <> pos' -> bit pos' (bit_set pos b x) = bit pos' x.
Proof.
  intros. unfold bit, bit_set. rewrite bf_set_bits by lia.
  repeat case_zbool; simpl; try lia; done.
Qed.

Lemma bit_bf_set_other pos w v x pos' :
  0 <= pos -> 0 <= w -> 0 <= pos' -> pos' < pos \/ pos + w <= pos' ->
  bit pos' (bf_set pos w v x) = bit pos' x.
Proof.
  intros. unfold bit. rewrite bf_set_bits by lia. repeat case_zbool; simpl; try lia; done.
Qed.

Lemma bf_get_bit_set_other pos b x pos' w' :
  0 <= pos -> 0 <= pos' -> 0 <= w' -> pos + 1 <= pos' \/ pos' + w' <= pos ->
  bf_get pos' w' (bit_set pos b x) = bf_get pos' w' x.
Proof. intros. apply bf_get_set_other; lia. Qed.

(** Writing back what was there. *)
Lemma bit_set_id pos x : 0 <= pos -> bit_set pos (bit pos x) x = x.
Proof.
  intros. apply Z.bits_inj'. intros n Hn. unfold bit_set, bit. rewrite bf_set_bits by lia.
  repeat case_zbool; simpl; try done. replace n with pos by lia. replace (pos - pos) with 0 by lia.
  by destruct (Z.testbit x pos).
Qed.

Lemma bf_set_twice pos w v v' x : 0 <= pos -> 0 <= w -> bf_set pos w v (bf_set pos w v' x) = bf_set pos w v x.
Proof.
  intros. apply Z.bits_inj'. intros n Hn. rewrite !bf_set_bits by lia. by destruct (_ && _).
Qed.

Lemma bit_set_back pos b b' x : 0 <= pos -> bit pos x = b -> bit_set pos b (bit_set pos b' x) = x.
Proof. intros ? <-. unfold bit_set at 1 2. rewrite bf_set_twice by lia. by apply bit_set_id. Qed.

Lemma bf_get_range pos w x : 0 <= w -> 0 <= bf_get pos w x < 2 ^ w.
Proof.
  intros. unfold bf_get. rewrite Z.land_ones by lia. apply Z.mod_pos_bound. apply Z.pow_pos_nonneg; lia.
Qed.

Lemma bit_0 pos : bit pos 0 = false.
Proof. apply Z.bits_0. Qed.

#[export] Hint Rewrite bit_set_same bit_set_other bit_bf_set_other bf_get_bit_set_other
  bf_get_set_other bf_get_set_same bit_0 using lia : bits.

#[global] Arguments bit : simpl never.
#[global] Arguments bit_set : simpl never.
#[global] Arguments bf_get : simpl never.
#[global] Arguments bf_set : simpl never.

(** Read fields of a word written field by field. *)
Ltac bits := autorewrite with bits in *.
