(* ===== verification/Utils.v ===== *)
(** * Utils: the arithmetic helpers of util/utils.h and librocdxg.h

    Alignment and address-splitting helpers, at the width of the template
    argument they are instantiated with. *)

From Stdlib Require Import String.
From S2P Require Import Prelude.
From S2P Require Import CString.
#[local] Open Scope Z_scope.

Definition GPU_HUGE_PAGE_SIZE : Z := Z.shiftl 2 20.
Definition DEFAULT_GPU_PAGE_SIZE : Z := Z.shiftl 1 12.

Definition IsPowerOfTwo (w val : Z) : bool := Z.land val (wrap w (val - 1)) =? 0.

(** [(T)((value / alignment) * alignment)], [T] an unsigned type of [w] bits. *)
Definition AlignDown (w value alignment : Z) : Z := wrap w (u64 ((value / alignment) * alignment)).

(** [AlignDown((T)(value + alignment - 1), alignment)] *)
Definition AlignUp (w value alignment : Z) : Z :=
  AlignDown w (wrap w (u64 (value + alignment - 1))) alignment.

Definition IsMultipleOf (w value alignment : Z) : bool := AlignUp w value alignment =? value.

(** [uint64_t] and [size_t] arguments. *)
Abbreviation AlignDown64 := (AlignDown 64).
Abbreviation AlignUp64 := (AlignUp 64).

(** [a] where the two compare equal. *)
Definition Min (a b : Z) : Z := if b <? a then b else a.
Definition Max (a b : Z) : Z := if a <? b then b else a.

(** [v |= v >> k] for one shift after the other *)
Definition smear (shifts : list Z) (v : Z) : Z := fold_left (fun v k => Z.lor v (Z.shiftr v k)) shifts v.

Definition NextPow2_32 (value : Z) : Z :=
  if value =? 0 then 1 else u32 (smear [1; 2; 4; 8; 16] (u32 (value - 1)) + 1).
Definition NextPow2_64 (value : Z) : Z :=
  if value =? 0 then 1 else u64 (smear [1; 2; 4; 8; 16; 32] (u64 (value - 1)) + 1).

(** ** Strings *)

Definition strIsEmpty (str : string) : bool := match str with EmptyString => true | _ => false end.
Definition ltrim (s : string) : string := skip_space s.
Definition rtrim (s : string) : string := drop_space s.
Definition wsl_trim (s : string) : string := ltrim (rtrim s).

(** ** Splitting addresses over register fields *)

(** [BitSelect<lowBit, highBit>(p)] *)
Definition BitSelect (lowBit highBit p : Z) : Z :=
  if negb (highBit =? 63) then u32 (Z.shiftr (Z.land p (u64 (Z.shiftl 1 (highBit + 1)) -64 1)) lowBit) else u32 (Z.shiftr p lowBit).

Definition PtrLow16Shift8 (p : Z) : Z := u32 (Z.shiftr (Z.land p 0xFFFF) 8).
Definition PtrHigh64Shift16 (p : Z) : Z := u32 (Z.shiftr (Z.land p 0xFFFFFFFFFFFF0000) 16).
Definition PtrLow40Shift8 (p : Z) : Z := u32 (Z.shiftr (Z.land p 0xFFFFFFFFFF) 8).
Definition PtrHigh64Shift40 (p : Z) : Z := u32 (Z.shiftr (Z.land p 0xFFFFFF0000000000) 40).
Definition Ptr48High8 (p : Z) : Z := u8 (Z.shiftr (Z.land p 0xFF0000000000) 40).
(** The source asserts [(p & 0xFFFFFFFFFF00) == p]. *)
Definition Ptr48Low32 (p : Z) : option Z :=
  check (Z.land p 0xFFFFFFFFFF00 =? p) ;; Some (u32 (Z.shiftr (Z.land p 0xFFFFFFFFFF) 8)).
Definition PtrLow32 (p : Z) : Z := u32 p.
Definition PtrHigh32 (p : Z) : Z := u32 (Z.shiftr p 32).
Definition HighPart (value : Z) : Z := u32 (Z.shiftr (Z.land value 0xFFFFFFFF00000000) 32).
Definition LowPart (value : Z) : Z := u32 (Z.land value 0x00000000FFFFFFFF).

(** ** Laws *)

Lemma AlignDown_floor (w v a : Z) :
  0 <= w <= 64 -> 0 <= v < 2 ^ w -> 0 < a -> AlignDown w v a = v - v mod a.
Proof.
  intros Hw Hv Ha. unfold AlignDown.
  pose proof (Z.mod_pos_bound v a Ha). pose proof (Z.mod_le v a ltac:(lia) Ha).
  assert (v / a * a = v - v mod a) as -> by (pose proof (Z.div_mod v a ltac:(lia)); lia).
  assert (2 ^ w <= 2 ^ 64) by (apply Z.pow_le_mono_r; lia).
  rewrite u64_small by lia. rewrite wrap_small by lia. done.
Qed.

(** [AlignUp] is the least multiple of the alignment that is not below the value,
    as long as the sum it forms does not leave the type. *)
Lemma AlignUp_ceil (w v a : Z) :
  0 <= w <= 64 -> 0 <= v -> 0 < a -> v + a - 1 < 2 ^ w ->
  let r := AlignUp w v a in
  r mod a = 0 /\ v <= r < v + a /\ forall r', r' mod a = 0 -> v <= r' -> r <= r'.
Proof.
  intros Hw Hv Ha Hb r.
  assert (2 ^ w <= 2 ^ 64) by (apply Z.pow_le_mono_r; lia).
  assert (Hr : r = (v + a - 1) - (v + a - 1) mod a).
  { subst r. unfold AlignUp. rewrite u64_small by lia. rewrite wrap_small by lia.
    apply AlignDown_floor; lia. }
  pose proof (Z.mod_pos_bound (v + a - 1) a Ha).
  pose proof (Z.div_mod (v + a - 1) a ltac:(lia)).
  split_and!; [| lia | lia |].
  - rewrite Hr. replace (_ - _) with ((v + a - 1) / a * a) by lia. apply Z_mod_mult.
  - intros r' Hr' Hle. pose proof (Z.div_mod r' a ltac:(lia)).
    assert ((v + a - 1) / a <= r' / a); [|nia].
    apply Z.lt_succ_r, Z.div_lt_upper_bound; [lia|]. nia.
Qed.

Lemma AlignUp64_bounds (v a : Z) :
  0 <= v -> 0 < a -> v + a - 1 < 2 ^ 64 -> v <= AlignUp64 v a < v + a.
Proof. intros. apply AlignUp_ceil; lia. Qed.

Lemma AlignUp64_mod (v a : Z) :
  0 <= v -> 0 < a -> v + a - 1 < 2 ^ 64 -> AlignUp64 v a mod a = 0.
Proof. intros. apply AlignUp_ceil; lia. Qed.

Lemma AlignUp64_id (v a : Z) :
  0 <= v -> 0 < a -> v + a - 1 < 2 ^ 64 -> v mod a = 0 -> AlignUp64 v a = v.
Proof.
  intros Hv Ha Hb Hm. destruct (AlignUp_ceil 64 v a) as (_ & ? & Hmin); try lia.
  specialize (Hmin v Hm). lia.
Qed.

Lemma HighPart_LowPart (v : Z) : 0 <= v < 2 ^ 64 -> HighPart v * 2 ^ 32 + LowPart v = v.
Proof.
  intros Hv. unfold HighPart, LowPart.
  replace 0xFFFFFFFF00000000 with (Z.shiftl (Z.ones 32) 32) by reflexivity.
  replace 0x00000000FFFFFFFF with (Z.ones 32) by reflexivity.
  rewrite Z.shiftr_land, Z.shiftr_shiftl_l by lia. change (32 - 32) with 0.
  rewrite Z.shiftl_0_r, !Z.land_ones, Z.shiftr_div_pow2 by lia.
  unfold wrap. rewrite !Zmod_mod.
  rewrite (Z.mod_small (v / 2 ^ 32)) by (split; [apply Z.div_pos; lia | apply Z.div_lt_upper_bound; lia]).
  pose proof (Z.div_mod v (2 ^ 32)). lia.
Qed.

(** ** The next power of two *)

(** A smearing step doubles the run of ones below the highest bit. *)
Lemma smear_step v m : 0 < v -> 0 < m -> (forall i, 0 <= i -> Z.log2 v - m < i <= Z.log2 v -> Z.testbit v i = true) ->
  let v' := Z.lor v (Z.shiftr v m) in
  0 < v' /\ Z.log2 v' = Z.log2 v /\ forall i, 0 <= i -> Z.log2 v - 2 * m < i <= Z.log2 v -> Z.testbit v' i = true.
Proof.
  intros Hv Hm Hb v'. assert (0 <= Z.shiftr v m) as Hs by (apply Z.shiftr_nonneg; lia).
  assert (Z.log2 v' = Z.log2 v) as Hl.
  { unfold v'. rewrite Z.log2_lor by lia. destruct (Z.eq_dec (Z.shiftr v m) 0) as [->|Hz]; [cbn; pose proof (Z.log2_nonneg v); lia|].
    rewrite Z.log2_shiftr by lia. pose proof (Z.log2_nonneg v). lia. }
  split_and!; [|done|].
  - assert (0 <= v') by (apply Z.lor_nonneg; lia). assert (v' <> 0); [|lia]. unfold v'. intros [E _]%Z.lor_eq_0_iff. lia.
  - intros i Hi Hr. unfold v'. rewrite Z.lor_spec, Z.shiftr_spec by done. apply orb_true_iff.
    destruct (Z.lt_ge_cases (Z.log2 v - m) i); [left; apply Hb; lia|right; apply Hb; lia].
Qed.

Lemma smear_ones ks v m : 0 < v -> 0 < m -> (forall i, 0 <= i -> Z.log2 v - m < i <= Z.log2 v -> Z.testbit v i = true) ->
  ks = (fun n => m * 2 ^ Z.of_nat n) <$> seq 0 (length ks) -> Z.log2 v < m * 2 ^ Z.of_nat (length ks) ->
  smear ks v = Z.ones (Z.log2 v + 1).
Proof.
  revert v m. induction ks as [|k ks IH]; intros v m Hv Hm Hb Hks Hl.
  - cbn in *. rewrite Z.mul_1_r in Hl. pose proof (Z.log2_nonneg v). apply Z.bits_inj'. intros i Hi. destruct (Z.le_gt_cases i (Z.log2 v)).
    + rewrite Z.ones_spec_low by lia. apply Hb; lia.
    + rewrite Z.ones_spec_high by lia. by apply Z.bits_above_log2; lia.
  - cbn [length seq fmap list_fmap] in Hks. injection Hks as Hk Hks. change (2 ^ Z.of_nat 0) with 1 in Hk. rewrite Z.mul_1_r in Hk. subst k.
    destruct (smear_step v m Hv Hm Hb) as (H1 & H2 & H3). cbn [smear fold_left]. change (fold_left _ ks ?x) with (smear ks x). rewrite (IH _ (2 * m)); [by rewrite H2|lia|lia|by rewrite H2| |].
    + rewrite Hks at 1. rewrite <-(fmap_S_seq 0), <-list_fmap_compose. apply list_fmap_ext. intros i n _. cbn. rewrite Nat2Z.inj_succ, Z.pow_succ_r by lia. lia.
    + rewrite H2. cbn [length] in Hl. rewrite Nat2Z.inj_succ, Z.pow_succ_r in Hl by lia. lia.
Qed.

(** [NextPow2] of a value is the least power of two that is not below it; one above the
    highest power of the type wraps around to 0. *)
Lemma next_pow2 w n ks value : w = 2 ^ Z.of_nat n -> ks = (fun n => 1 * 2 ^ Z.of_nat n) <$> seq 0 (length ks) -> length ks = n -> 0 < value < 2 ^ w ->
  let r := wrap w (smear ks (wrap w (value - 1)) + 1) in
  if value <=? 2 ^ (w - 1) then (exists k, 0 <= k /\ r = 2 ^ k) /\ value <= r /\ (forall k, 0 <= k -> value <= 2 ^ k -> r <= 2 ^ k) else r = 0.
Proof.
  intros -> Hks Hn Hv r. set (w := 2 ^ Z.of_nat n) in *. assert (0 < w) as Hw by (apply Z.pow_pos_nonneg; lia). assert (2 ^ w = 2 * 2 ^ (w - 1)) as E2.
  { rewrite <-Z.pow_succ_r by lia. f_equal. lia. }
  assert (r = wrap w (smear ks (value - 1) + 1)) as Er by (unfold r; by rewrite (wrap_small w (value - 1)) by lia). clearbody r. destruct (Z.eq_dec value 1) as [->|Hne].
  { assert (r = 1) as ->.
    { rewrite Er. assert (smear ks (1 - 1) = 0) as ->; [|rewrite wrap_small; lia]. cbn. clear. induction ks as [|k ks IH]; [done|]. cbn. by rewrite Z.shiftr_0_l. }
    assert (0 < 2 ^ (w - 1)) by (apply Z.pow_pos_nonneg; lia). rewrite (proj2 (Z.leb_le _ _)) by lia. split_and!; [by exists 0|lia|]. intros k Hk. assert (0 < 2 ^ k) by (apply Z.pow_pos_nonneg; lia). lia. }
  assert (0 < value - 1) as Hv1 by lia. pose proof (Z.log2_spec _ Hv1) as [L1 L2]. pose proof (Z.log2_nonneg (value - 1)) as L0. set (l := Z.log2 (value - 1)) in *.
  assert (l < w) as Hlw by (apply (Z.log2_lt_pow2 (value - 1) w Hv1); lia). rewrite Z.pow_succ_r in L2 by done.
  assert (smear ks (value - 1) = 2 ^ (l + 1) - 1) as Es.
  { rewrite (smear_ones ks (value - 1) 1); [rewrite Z.ones_equiv; unfold l; lia|lia|lia| |done|rewrite Hn, Z.mul_1_l; exact Hlw].
    intros i Hi Hr. assert (i = l) as -> by (unfold l; lia). by apply Z.bit_log2. }
  rewrite Er, Es, Z.sub_add. clear Er. assert (2 ^ (l + 1) = 2 * 2 ^ l) as El by (rewrite <-Z.pow_succ_r by done; done).
  destruct (Z.leb_spec value (2 ^ (w - 1))) as [Hle|Hgt].
  - assert (l < w - 1) as Hl1 by (apply (Z.log2_lt_pow2 (value - 1) (w - 1) Hv1); lia). assert (2 ^ (l + 1) <= 2 ^ (w - 1)) by (apply Z.pow_le_mono_r; lia).
    assert (0 < 2 ^ (l + 1)) by (apply Z.pow_pos_nonneg; lia). rewrite wrap_small by lia. split_and!; [exists (l + 1); split; [lia|done]|lia|].
    intros k Hk Hle'. apply Z.pow_le_mono_r; [lia|]. assert (l < k); [|lia]. apply (Z.pow_lt_mono_r_iff 2); lia.
  - assert (w - 1 <= l) as Hl1 by (apply (Z.log2_le_pow2 (value - 1) (w - 1) Hv1); lia). assert (l + 1 = w) as -> by lia. unfold wrap. apply Z_mod_same_full.
Qed.

(** [NextPow2] of a positive number is the least power of two that is not below it, at
    either width; above the highest power of the type it is 0, and of 0 it is 1. *)
Theorem NextPow2_least :
  (forall value, 0 < value < 2 ^ 32 -> let r := NextPow2_32 value in
     if value <=? 2 ^ 31 then (exists k, 0 <= k /\ r = 2 ^ k) /\ value <= r /\ (forall k, 0 <= k -> value <= 2 ^ k -> r <= 2 ^ k) else r = 0) /\
  (forall value, 0 < value < 2 ^ 64 -> let r := NextPow2_64 value in
     if value <=? 2 ^ 63 then (exists k, 0 <= k /\ r = 2 ^ k) /\ value <= r /\ (forall k, 0 <= k -> value <= 2 ^ k -> r <= 2 ^ k) else r = 0) /\
  NextPow2_32 0 = 1 /\ NextPow2_64 0 = 1.
Proof.
  split_and!; [| |done|done]; intros value Hv; cbv zeta; unfold NextPow2_32, NextPow2_64; rewrite (proj2 (Z.eqb_neq value 0)) by lia.
  - by apply (next_pow2 32 5).
  - by apply (next_pow2 64 6).
Qed.

Lemma NextPow2_least_witness : 0 < 0x1001 < 2 ^ 32 /\ 0x1001 <= NextPow2_32 0x1001 /\ NextPow2_32 0x1001 = 0x2000.
Proof.
  assert (0 < 0x1001 < 2 ^ 32) as Hv by lia. split_and!; [lia|lia| |reflexivity].
  exact (proj1 (proj2 (proj1 NextPow2_least 0x1001 Hv))).
Defined.

(** [BitSelect] gives the bits from the low to the high one. *)
Lemma BitSelect_bits lowBit highBit p i : 0 <= lowBit <= highBit -> highBit < 64 -> 0 <= p < 2 ^ 64 -> 0 <= i < 32 ->
  Z.testbit (BitSelect lowBit highBit p) i = Z.testbit p (lowBit + i) && (lowBit + i <=? highBit).
Proof.
  intros Hl Hh Hp Hi. unfold BitSelect, wrap. destruct (Z.eqb_spec highBit 63) as [->|Hne]; cbn [negb]; rewrite Z.mod_pow2_bits_low, Z.shiftr_spec by lia.
  - rewrite (Z.add_comm i). destruct (Z.leb_spec (lowBit + i) 63); [by rewrite andb_true_r|]. rewrite andb_false_r. destruct (Z.eq_dec p 0) as [->|]; [by rewrite Z.testbit_0_l|].
    apply Z.bits_above_log2; [lia|]. apply Z.log2_lt_pow2; [lia|]. assert (2 ^ 64 <= 2 ^ (lowBit + i)) by (apply Z.pow_le_mono_r; lia). lia.
  - assert (2 ^ (highBit + 1) < 2 ^ 64) by (apply Z.pow_lt_mono_r; lia). assert (0 < 2 ^ (highBit + 1)) by (apply Z.pow_pos_nonneg; lia).
    rewrite Z.shiftl_1_l, Z.mod_small, sub64_small by lia. replace (2 ^ (highBit + 1) - 1) with (Z.ones (highBit + 1)) by (rewrite Z.ones_equiv; lia). rewrite Z.land_spec, (Z.add_comm i). f_equal.
    destruct (Z.leb_spec (lowBit + i) highBit); [apply Z.ones_spec_low; lia|apply Z.ones_spec_high; lia].
Qed.
