(* ===== verification/VaMgr.v ===== *)
(** * VaMgr: the best-fit virtual address manager (src/wddm/va_mgr.cpp)

    [VaMgr] carves a reserved range of addresses into fragments. [frag_map_]
    indexes the fragments by address, [free_list_] the free ones by size. The
    mutex is held for the whole of [AllocImpl], [Free] and the search of
    [Alloc], so each operation is one step. *)

From S2P Require Import Prelude.
From S2P Require Import StdMap.
From S2P Require Import Utils.

(** ** Data (va_mgr.h) *)

Record Fragment := mkFragment {
  free_list_entry_ : option (Z * Z);  (* the entry pointed to; [None] is [free_list_.end()] *)
  frag_size : Z;                      (* size : 63 *)
  frag_is_free : bool;
}.

Record VaMgr := mkVaMgr {
  free_list_ : list (Z * Z);          (* multimap: size -> base *)
  frag_map_ : list (Z * Fragment);    (* map: base -> fragment *)
  min_align_ : Z;
}.

Definition with_free_list (l : list (Z * Z)) (m : VaMgr) : VaMgr :=
  mkVaMgr l (frag_map_ m) (min_align_ m).
Definition with_frag_map (l : list (Z * Fragment)) (m : VaMgr) : VaMgr :=
  mkVaMgr (free_list_ m) l (min_align_ m).

Definition make_fragment (it : Z * Z) (len : Z) : Fragment := mkFragment (Some it) (u63 len) true.
Definition make_used_fragment (len : Z) : Fragment := mkFragment None (u63 len) false.

Definition is_free (f : Fragment) : bool := frag_is_free f.
Definition set_used (f : Fragment) : Fragment := mkFragment None (frag_size f) false.
Definition set_free (f : Fragment) (it : Z * Z) : Fragment := mkFragment (Some it) (frag_size f) true.
Definition set_size (f : Fragment) (n : Z) : Fragment :=
  mkFragment (free_list_entry_ f) (u63 n) (frag_is_free f).

(** [remove_free_list_entry]: the list afterwards and the fragment without its entry. *)
Definition remove_free_list_entry (l : list (Z * Z)) (f : Fragment) : list (Z * Z) * Fragment :=
  match free_list_entry_ f with
  | Some e => (mm_erase e l, mkFragment None (frag_size f) (frag_is_free f))
  | None => (l, f)
  end.

Definition add_free_fragment (size base : Z) (m : VaMgr) : VaMgr :=
  mkVaMgr (mm_insert size base (free_list_ m))
    (map_set base (make_fragment (size, base) size) (frag_map_ m)) (min_align_ m).

Definition add_used_fragment (size base : Z) (m : VaMgr) : VaMgr :=
  with_frag_map (map_set base (make_used_fragment size) (frag_map_ m)) m.

(** ** Operations (va_mgr.cpp) *)

(** The constructor. *)
Definition VaMgr_new (start size min_align : Z) : VaMgr :=
  mkVaMgr [(size, start)] [(start, make_fragment (size, start) size)] min_align.

Section AllocImpl.
Context (bytes align : Z).

(** The body of the [for] loop for iteration [i], [fuel] iterations left. *)
Fixpoint AllocImpl_loop (fuel : nat) (i align_bytes new_align : Z) (m : VaMgr)
    : option (Z * VaMgr) :=
  match fuel with
  | O => Some (0, m)
  | S fuel =>
      match mm_lower_bound align_bytes (free_list_ m) with
      | None => Some (0, m)
      | Some (size, base) =>
          check (align_bytes <=? size) ;;
          fragment ← map_find base (frag_map_ m);
          check (size =? frag_size fragment) ;;
          let delta := if align =? 0 then 0 else base mod align in
          if delta =? 0 then
            let m1 := with_free_list (mm_erase (size, base) (free_list_ m)) m in
            let m2 := with_frag_map
                        (map_set base (set_used (set_size fragment bytes)) (frag_map_ m1)) m1 in
            let m3 := if bytes <? size
                      then add_free_fragment (size -64 bytes) (base +64 bytes) m2 else m2 in
            Some (base, m3)
          else if i =? 0 then
            AllocImpl_loop fuel (i + 1) (align_bytes +64 new_align) new_align m
          else
            let aligned_base := base +64 align -64 delta in
            let m1 := with_free_list (mm_erase (size, base) (free_list_ m)) m in
            let m2 := add_used_fragment bytes aligned_base m1 in
            let m3 := add_free_fragment (aligned_base -64 base) base m2 in
            let m4 := if aligned_base -64 base +64 bytes <? size
                      then add_free_fragment (size -64 (aligned_base -64 base) -64 bytes)
                             (aligned_base +64 bytes) m3
                      else m3 in
            Some (aligned_base, m4)
      end
  end.

Definition VaMgr_AllocImpl (m : VaMgr) : option (Z * VaMgr) :=
  let retry := if align =? 0 then 0%nat else 1%nat in
  let new_align := if align =? 0 then min_align_ m else AlignUp64 align (min_align_ m) in
  AllocImpl_loop (S retry) 0 bytes new_align m.
End AllocImpl.

(** The fixed-address search of [Alloc]: [cands] are the fragments the iterator
    walks down, the last of them being [frag_map_.begin()], which it never tries. *)
Fixpoint Alloc_search (bytes addr : Z) (cands : list (Z * Fragment)) : option (Z * Fragment) :=
  match cands with
  | [] | [_] => None
  | (base, f) :: rest =>
      let size := frag_size f in
      if (size <? bytes) || (addr <? base) || (base +64 size <? addr +64 bytes)
         || negb (is_free f)
      then Alloc_search bytes addr rest
      else if base +64 size <=? addr then None
      else Some (base, f)
  end.

Definition VaMgr_Alloc (bytes align addr : Z) (m : VaMgr) : option (Z * VaMgr) :=
  if (0 <? addr) && ((align =? 0) || (addr mod align =? 0)) then
    let cands := map_down_from addr (frag_map_ m) in
    check (negb (Nat.eqb (length cands) 0)) ;;
    match Alloc_search bytes addr cands with
    | None => VaMgr_AllocImpl bytes align m
    | Some (base, f) =>
        let size := frag_size f in
        free_it ← free_list_entry_ f;
        let m1 := with_free_list (mm_erase free_it (free_list_ m)) m in
        let m2 := with_frag_map (map_set base (set_used (set_size f bytes)) (frag_map_ m1)) m1 in
        let m3 := if base <? addr then add_free_fragment (addr -64 base) base m2 else m2 in
        let m4 := if addr +64 bytes <? base +64 size
                  then add_free_fragment (base +64 size -64 addr -64 bytes) (addr +64 bytes) m3
                  else m3 in
        Some (addr, m4)
    end
  else VaMgr_AllocImpl bytes align m.

(** The two merges of [Free]. The iterator is the key [it] with its fragment [f];
    [base] is the separate variable of the source that ends up in [free_list_]. *)
Definition Free_merge_lower (it base : Z) (f : Fragment) (m : VaMgr) : Z * Z * Fragment * VaMgr :=
  match map_prev it (frag_map_ m) with
  | Some (lit, lower) =>
      if is_free lower then
        let '(fl, lower') := remove_free_list_entry (free_list_ m) lower in
        let merged := set_size lower' (frag_size lower' + frag_size f) in
        (lit, base -64 frag_size lower', merged,
         mkVaMgr fl (map_erase it (map_set lit merged (frag_map_ m))) (min_align_ m))
      else (it, base, f, m)
  | None => (it, base, f, m)
  end.

Definition Free_merge_upper (it : Z) (f : Fragment) (m : VaMgr) : Fragment * VaMgr :=
  match map_next it (frag_map_ m) with
  | Some (uit, upper) =>
      if is_free upper then
        let '(fl, upper') := remove_free_list_entry (free_list_ m) upper in
        let merged := set_size f (frag_size f + frag_size upper') in
        (merged, mkVaMgr fl (map_erase uit (map_set it merged (frag_map_ m))) (min_align_ m))
      else (f, m)
  | None => (f, m)
  end.

Definition VaMgr_Free (addr : Z) (m : VaMgr) : VaMgr :=
  if addr =? 0 then m
  else
    match map_find addr (frag_map_ m) with
    | None => m
    | Some f =>
        if is_free f then m
        else
          let '(it, base, f1, m1) := Free_merge_lower addr addr f m in
          let '(f2, m2) := Free_merge_upper it f1 m1 in
          let size := frag_size f2 in
          mkVaMgr (mm_insert size base (free_list_ m2))
            (map_set it (set_free f2 (size, base)) (frag_map_ m2)) (min_align_ m2)
    end.

(** ** The invariant *)

(** The fragments of [l], in order, tile the addresses [lo, hi). *)
Fixpoint tiles (lo : Z) (l : list (Z * Fragment)) (hi : Z) : Prop :=
  match l with
  | [] => lo = hi
  | (k, f) :: l' => k = lo /\ 0 < frag_size f /\ tiles (lo + frag_size f) l' hi
  end.

(** A fragment holds the iterator of its own entry exactly when it is free. *)
Definition frag_ok (e : Z * Fragment) : Prop :=
  free_list_entry_ e.2 = (if frag_is_free e.2 then Some (frag_size e.2, e.1) else None).

Definition free_entry (e : Z * Fragment) : option (Z * Z) :=
  if frag_is_free e.2 then Some (frag_size e.2, e.1) else None.

(** No two neighbours are both free: the compaction is eager. *)
Fixpoint coalesced (l : list (Z * Fragment)) : Prop :=
  match l with
  | e :: l' =>
      (forall e', head l' = Some e' -> frag_is_free e.2 && frag_is_free e'.2 = false) /\ coalesced l'
  | [] => True
  end.

Record VaMgr_wf (lo hi : Z) (m : VaMgr) : Prop := {
  wf_lo : 0 < lo;
  wf_hi : hi < 2 ^ 63;
  wf_min_align : 0 < min_align_ m < 2 ^ 62;
  wf_tiles : tiles lo (frag_map_ m) hi;
  wf_frags : Forall frag_ok (frag_map_ m);
  wf_free_list : free_list_ m ≡ₚ omap free_entry (frag_map_ m);
  wf_sorted : mm_sorted (free_list_ m);
  wf_coalesced : coalesced (frag_map_ m);
}.

(** ** Lemmas on tilings *)

Lemma tiles_app lo l1 l2 hi :
  tiles lo (l1 ++ l2) hi <-> exists mid, tiles lo l1 mid /\ tiles mid l2 hi.
Proof.
  revert lo. induction l1 as [|[k f] l1 IH]; intros lo; simpl.
  - split; [eauto|]. by intros (? & <- & ?).
  - rewrite IH. naive_solver.
Qed.

Lemma tiles_le lo l hi : tiles lo l hi -> lo <= hi.
Proof.
  revert lo. induction l as [|[k f] l IH]; intros lo; simpl; [lia|].
  intros (_ & ? & ?%IH). lia.
Qed.

Lemma tiles_bounds lo l hi :
  tiles lo l hi -> Forall (fun e => lo <= e.1 /\ 0 < frag_size e.2 /\ e.1 + frag_size e.2 <= hi) l.
Proof.
  revert lo. induction l as [|[k f] l IH]; intros lo; simpl; [constructor|].
  intros (-> & ? & Ht). pose proof (tiles_le _ _ _ Ht). constructor; simpl; [lia|].
  eapply Forall_impl; [by apply IH|]. simpl. lia.
Qed.

Lemma tiles_keys_lt lo l hi : tiles lo l hi -> keys_lt hi l.
Proof.
  intros Ht%tiles_bounds. eapply Forall_impl; [done|]. simpl. lia.
Qed.

Lemma tiles_keys_gt lo l hi k : tiles lo l hi -> k < lo -> keys_gt k l.
Proof.
  intros Ht%tiles_bounds Hk. eapply Forall_impl; [done|]. simpl. lia.
Qed.

Lemma coalesced_app l1 l2 :
  coalesced (l1 ++ l2) <->
  coalesced l1 /\ coalesced l2 /\ (forall e1 e2, last l1 = Some e1 -> head l2 = Some e2 -> frag_is_free e1.2 && frag_is_free e2.2 = false).
Proof.
  induction l1 as [|e l1 IH]; simpl; [naive_solver|].
  rewrite IH. destruct l1 as [|e' l1]; simpl in *; naive_solver.
Qed.

(** What a position of the map gives: the fragment with its surroundings. *)
Lemma wf_split lo hi m l1 k f l2 :
  VaMgr_wf lo hi m -> frag_map_ m = l1 ++ (k, f) :: l2 ->
  tiles lo l1 k /\ 0 < frag_size f /\ tiles (k + frag_size f) l2 hi /\ keys_lt k l1 /\ keys_gt k l2 /\ lo <= k /\ k + frag_size f <= hi.
Proof.
  intros Hwf E. pose proof (wf_tiles _ _ _ Hwf) as Ht. rewrite E in Ht.
  apply tiles_app in Ht as (mid & H1 & -> & Hpos & H2).
  split_and!; eauto using tiles_keys_lt, tiles_le.
  eapply tiles_keys_gt; [done|]. lia.
Qed.

(** A free-list entry leads to its fragment (the second and third [assert] of [AllocImpl]). *)
Lemma wf_entry lo hi m size base :
  VaMgr_wf lo hi m -> (size, base) ∈ free_list_ m ->
  exists l1 f l2, frag_map_ m = l1 ++ (base, f) :: l2 /\
    f = mkFragment (Some (size, base)) size true.
Proof.
  intros Hwf. rewrite (wf_free_list _ _ _ Hwf), list_elem_of_omap.
  intros ([k [e s fr]] & Hin & Hf).
  pose proof (proj1 (Forall_forall _ _) (wf_frags _ _ _ Hwf) _ Hin) as Hok.
  apply list_elem_of_split in Hin as (l1 & l2 & E).
  unfold free_entry, frag_ok in *. simpl in *. destruct fr; simplify_eq. eauto.
Qed.

(** A used fragment is found by its address. *)
Lemma wf_used lo hi m a f :
  VaMgr_wf lo hi m -> map_find a (frag_map_ m) = Some f -> is_free f = false ->
  exists l1 l2, frag_map_ m = l1 ++ (a, f) :: l2 /\ f = mkFragment None (frag_size f) false.
Proof.
  intros Hwf (l1 & l2 & E)%map_find_split Hu.
  pose proof (wf_frags _ _ _ Hwf) as Hok. rewrite E in Hok.
  apply Forall_app in Hok as [_ [Hok _]%Forall_cons].
  exists l1, l2. split; [done|]. destruct f as [e s fr]. unfold frag_ok in Hok. simpl in *.
  unfold is_free in Hu. simpl in Hu. by subst.
Qed.

(** ** Carving an allocation out of a free fragment *)

Definition free_piece (b e : Z) : list (Z * Fragment) :=
  if b <? e then [(b, mkFragment (Some (e - b, b)) (e - b) true)] else [].

Definition used_piece (a n : Z) : Z * Fragment := (a, mkFragment None n false).

(** [m'] is [m] with the free fragment [base, base + size) cut into a free part,
    the allocation [a, a + bytes) and another free part. *)
Definition carved (m : VaMgr) l1 (base size : Z) l2 (a bytes : Z) (m' : VaMgr) : Prop :=
  frag_map_ m = l1 ++ (base, mkFragment (Some (size, base)) size true) :: l2 /\
  base <= a /\ a + bytes <= base + size /\
  frag_map_ m' = l1 ++ free_piece base a ++ used_piece a bytes ::
                   free_piece (a + bytes) (base + size) ++ l2 /\
  free_list_ m' ≡ₚ omap free_entry (frag_map_ m') /\
  mm_sorted (free_list_ m') /\ min_align_ m' = min_align_ m.

Lemma tiles_free_piece lo b e l hi :
  b <= e -> tiles lo (free_piece b e ++ l) hi <-> (if b <? e then lo = b /\ tiles e l hi else tiles lo l hi).
Proof.
  intros Hbe. unfold free_piece. case_zbool; simpl; [|done].
  split; [intros (-> & ? & Ht)|intros (-> & Ht)]; [split; [done|]|split_and!; [done|lia|]];
    by replace (_ + (e - _)) with e in * by lia.
Qed.

Lemma carved_tiles lo hi m l1 base size l2 a bytes m' :
  VaMgr_wf lo hi m -> 0 < bytes -> carved m l1 base size l2 a bytes m' ->
  tiles lo (frag_map_ m') hi.
Proof.
  intros Hwf Hb (E & ? & ? & -> & _). destruct (wf_split _ _ _ _ _ _ _ Hwf E) as (H1 & _ & H2 & _).
  simpl in H2. apply tiles_app. exists base. split; [done|].
  apply tiles_free_piece; [lia|].
  assert (tiles a (used_piece a bytes :: free_piece (a + bytes) (base + size) ++ l2) hi).
  { simpl. split_and!; [done|lia|]. apply tiles_free_piece; [lia|]. case_zbool; [done|].
    by replace (a + bytes) with (base + size) by lia. }
  case_zbool; [done|]. assert (base = a) by lia. by subst.
Qed.

Lemma free_piece_ok b e : Forall frag_ok (free_piece b e).
Proof. unfold free_piece. case_zbool; repeat constructor. Qed.

Lemma coalesced_carve (l : list (Z * Fragment)) b e a n b' e' :
  coalesced l -> coalesced (free_piece b e ++ used_piece a n :: free_piece b' e' ++ l) <->
  (b' < e' -> forall x, head l = Some x -> frag_is_free x.2 = false).
Proof.
  intros Hl. unfold free_piece. repeat case_zbool; simpl; naive_solver lia.
Qed.

Lemma carved_wf lo hi m l1 base size l2 a bytes m' :
  VaMgr_wf lo hi m -> 0 < bytes -> carved m l1 base size l2 a bytes m' -> VaMgr_wf lo hi m'.
Proof.
  intros Hwf Hb Hc. pose proof (carved_tiles _ _ _ _ _ _ _ _ _ _ Hwf Hb Hc) as Ht.
  destruct Hc as (E & ? & ? & E' & Hperm & Hs & Hm).
  pose proof (wf_coalesced _ _ _ Hwf) as Hco. pose proof (wf_frags _ _ _ Hwf) as Hok.
  rewrite E in Hco, Hok. apply coalesced_app in Hco as (Hc1 & [Hhd Hc2] & Hj).
  apply Forall_app in Hok as [Hok1 [_ Hok2]%Forall_cons].
  constructor; try done; try (rewrite Hm); try apply Hwf; rewrite E'.
  - rewrite !Forall_app, Forall_cons, Forall_app. split_and!; auto using free_piece_ok. done.
  - apply coalesced_app. split_and!; [done| |].
    + apply coalesced_carve; [done|]. intros _ x Hx. by apply Hhd in Hx.
    + intros e1 e2 He1. specialize (Hj e1 _ He1 eq_refl). simpl in Hj. rewrite andb_true_r in Hj.
      intros _. by rewrite Hj.
Qed.

Lemma wf_erase_entry lo hi m l1 base size l2 :
  VaMgr_wf lo hi m -> frag_map_ m = l1 ++ (base, mkFragment (Some (size, base)) size true) :: l2 ->
  mm_erase (size, base) (free_list_ m) ≡ₚ omap free_entry l1 ++ omap free_entry l2.
Proof.
  intros Hwf E. apply mm_erase_perm_cons. rewrite (wf_free_list _ _ _ Hwf), E, omap_app. cbn.
  solve_Permutation.
Qed.

Lemma omap_free_piece b e : omap free_entry (free_piece b e) = if b <? e then [(e - b, b)] else [].
Proof. unfold free_piece. by case_zbool. Qed.

(** Inserting a fragment into a gap of the map, and over an existing fragment. *)
Lemma add_free_fragment_new size base m l1 l2 :
  frag_map_ m = l1 ++ l2 -> keys_lt base l1 -> keys_gt base l2 -> 0 <= size < 2 ^ 63 ->
  frag_map_ (add_free_fragment size base m) =
    l1 ++ (base, mkFragment (Some (size, base)) size true) :: l2.
Proof.
  intros E ? ? ?. unfold add_free_fragment, make_fragment. simpl.
  by rewrite E, map_set_new, u63_small by done.
Qed.

Lemma add_free_fragment_over size base m l1 f l2 :
  frag_map_ m = l1 ++ (base, f) :: l2 -> keys_lt base l1 -> 0 <= size < 2 ^ 63 ->
  frag_map_ (add_free_fragment size base m) =
    l1 ++ (base, mkFragment (Some (size, base)) size true) :: l2.
Proof.
  intros E ? ?. unfold add_free_fragment, make_fragment. simpl.
  by rewrite E, map_set_mid, u63_small by done.
Qed.

Lemma free_piece_lt b e :
  b < e -> free_piece b e = [(b, mkFragment (Some (e - b, b)) (e - b) true)].
Proof. intros. unfold free_piece. by destruct (Z.ltb_spec b e); [|lia]. Qed.

Lemma free_piece_ge b e : e <= b -> free_piece b e = [].
Proof. intros. unfold free_piece. by destruct (Z.ltb_spec b e); [lia|]. Qed.

(** The two shapes of carving the operations perform: at the base of the
    fragment, and above it. *)
Lemma carve_at_base lo hi m l1 base size l2 bytes :
  VaMgr_wf lo hi m -> 0 < bytes <= size ->
  frag_map_ m = l1 ++ (base, mkFragment (Some (size, base)) size true) :: l2 ->
  let m1 := with_free_list (mm_erase (size, base) (free_list_ m)) m in
  let m2 := with_frag_map
              (map_set base (set_used (set_size (mkFragment (Some (size, base)) size true) bytes))
                 (frag_map_ m1)) m1 in
  carved m l1 base size l2 base bytes
    (if bytes <? size then add_free_fragment (size -64 bytes) (base +64 bytes) m2 else m2).
Proof.
  intros Hwf Hb E m1 m2. destruct (wf_split _ _ _ _ _ _ _ Hwf E) as (Ht1 & Hs & Ht2 & Hlt & Hgt & Hlo & Hhi).
  simpl in Hs, Hhi, Ht2. pose proof (wf_lo _ _ _ Hwf). pose proof (wf_hi _ _ _ Hwf).
  pose proof (wf_erase_entry _ _ _ _ _ _ _ Hwf E) as Hfl.
  assert (frag_map_ m2 = l1 ++ [used_piece base bytes] ++ l2) as E2.
  { subst m2 m1. simpl. rewrite E, map_set_mid by done. unfold set_used, set_size. simpl.
    by rewrite u63_small by lia. }
  assert (keys_lt (base + bytes) (l1 ++ [used_piece base bytes])) as Hlt2.
  { apply keys_lt_app. split; [|repeat constructor; simpl; lia].
    eapply Forall_impl; [exact Hlt|]. simpl. lia. }
  unfold carved. rewrite (free_piece_ge base base) by lia.
  destruct (Z.ltb_spec bytes size).
  - rewrite sub64_small, add64_small by lia.
    erewrite (add_free_fragment_new _ _ _ (l1 ++ [used_piece base bytes]) l2);
      [|by rewrite <- app_assoc|done|eapply tiles_keys_gt; [done|lia]|lia].
    rewrite free_piece_lt by lia. replace (base + size - (base + bytes)) with (size - bytes) by lia.
    split_and!; [done|lia|lia|by rewrite <- app_assoc|..]; simpl; [..|done].
    + rewrite mm_insert_perm, Hfl, !omap_app. cbn. rewrite <- app_assoc. solve_Permutation.
    + by apply mm_insert_sorted, mm_erase_sorted, Hwf.
  - rewrite free_piece_ge by lia. split_and!; [done|lia|lia|done|..]; [..|done].
    + rewrite E2, !omap_app. by simpl.
    + by apply mm_erase_sorted, Hwf.
Qed.

(** [add_free_fragment (a - base) base] over the fragment that was carved, the
    allocation itself recorded at [a]: the shape of the last branch of [AllocImpl]. *)
Lemma carve_above lo hi m l1 base size l2 a bytes :
  VaMgr_wf lo hi m -> 0 < bytes -> base < a -> a + bytes < base + size ->
  frag_map_ m = l1 ++ (base, mkFragment (Some (size, base)) size true) :: l2 ->
  let m1 := with_free_list (mm_erase (size, base) (free_list_ m)) m in
  let m2 := add_used_fragment bytes a m1 in
  let m3 := add_free_fragment (a - base) base m2 in
  carved m l1 base size l2 a bytes (add_free_fragment (base + size - (a + bytes)) (a + bytes) m3).
Proof.
  intros Hwf Hb Ha Hab E m1 m2 m3.
  destruct (wf_split _ _ _ _ _ _ _ Hwf E) as (Ht1 & Hs & Ht2 & Hlt & Hgt & Hlo & Hhi).
  simpl in Hs, Hhi, Ht2. pose proof (wf_lo _ _ _ Hwf). pose proof (wf_hi _ _ _ Hwf).
  pose proof (wf_erase_entry _ _ _ _ _ _ _ Hwf E) as Hfl.
  assert (forall x l, base < x -> keys_lt x l -> keys_lt x (l1 ++ l)) as Hlt'.
  { intros x l ? ?. apply keys_lt_app. split; [|done]. eapply Forall_impl; [exact Hlt|]. simpl. lia. }
  assert (frag_map_ m2 = l1 ++ (base, mkFragment (Some (size, base)) size true) ::
                           used_piece a bytes :: l2) as E2.
  { subst m2 m1. unfold add_used_fragment, make_used_fragment. simpl. rewrite E.
    rewrite app_cons_snoc.
    rewrite map_set_new, <- app_assoc; [by rewrite u63_small by lia| |eapply tiles_keys_gt; [done|lia]].
    apply Hlt'; [done|]. repeat constructor. simpl. lia. }
  assert (frag_map_ m3 = (l1 ++ free_piece base a ++ [used_piece a bytes]) ++ l2) as E3.
  { subst m3. erewrite add_free_fragment_over; [|exact E2|done|lia].
    rewrite free_piece_lt by lia. by rewrite <- app_assoc. }
  unfold carved. erewrite add_free_fragment_new;
    [|exact E3| |eapply tiles_keys_gt; [done|lia]|lia].
  2:{ apply Hlt'; [lia|]. rewrite free_piece_lt by lia. repeat constructor; simpl; lia. }
  rewrite !free_piece_lt by lia.
  split_and!; [done|lia|lia|by rewrite <- !app_assoc|..]; simpl; [..|done].
  - rewrite !mm_insert_perm, Hfl, <- !app_assoc, !omap_app. cbn. solve_Permutation.
  - by apply mm_insert_sorted, mm_insert_sorted, mm_erase_sorted, Hwf.
Qed.

(** ** [AllocImpl] *)

Definition new_align_of (align : Z) (m : VaMgr) : Z :=
  if align =? 0 then min_align_ m else AlignUp64 align (min_align_ m).

Lemma new_align_bound lo hi m align :
  VaMgr_wf lo hi m -> 0 <= align < 2 ^ 62 -> align <= new_align_of align m < 2 ^ 63.
Proof.
  intros Hwf Ha. pose proof (wf_min_align _ _ _ Hwf). unfold new_align_of.
  case_zbool; [lia|]. pose proof (AlignUp64_bounds align (min_align_ m)). lia.
Qed.

Lemma wf_lower_bound lo hi m ab size base :
  VaMgr_wf lo hi m -> mm_lower_bound ab (free_list_ m) = Some (size, base) ->
  ab <= size /\ lo <= base /\ base + size <= hi /\
  map_find base (frag_map_ m) = Some (mkFragment (Some (size, base)) size true) /\
  exists l1 l2, frag_map_ m = l1 ++ (base, mkFragment (Some (size, base)) size true) :: l2.
Proof.
  intros Hwf [Hin ?]%mm_lower_bound_Some.
  destruct (wf_entry _ _ _ _ _ Hwf Hin) as (l1 & f & l2 & E & ->).
  destruct (wf_split _ _ _ _ _ _ _ Hwf E) as (_ & _ & _ & Hlt & _ & ? & ?).
  split_and!; [done..| |by eauto]. rewrite E. by apply map_find_mid.
Qed.

(** Enter an iteration of the loop whose [lower_bound] finds a fragment: the
    three assertions hold. *)
Ltac enter_loop Ef :=
  cbn [AllocImpl_loop];
  match goal with H : mm_lower_bound _ _ = Some _ |- _ => rewrite H end;
  rewrite check_true by (apply Z.leb_le; lia); cbn [mbind option_bind]; rewrite Ef;
  cbn [mbind option_bind frag_size]; rewrite check_true by apply Z.eqb_refl;
  cbn [mbind option_bind].

Section AllocImpl_proofs.
Context (lo hi : Z) (m : VaMgr) (bytes align : Z).
Hypothesis Hwf : VaMgr_wf lo hi m.
Hypothesis Hbytes : 0 < bytes.
Hypothesis Halign : 0 <= align < 2 ^ 62.

Let delta_of base := if align =? 0 then 0 else base mod align.

Lemma AllocImpl_loop_aligned fuel i ab na size base :
  bytes <= ab -> mm_lower_bound ab (free_list_ m) = Some (size, base) -> delta_of base = 0 ->
  exists l1 l2 m', AllocImpl_loop bytes align (S fuel) i ab na m = Some (base, m') /\
    carved m l1 base size l2 base bytes m'.
Proof using Hwf Hbytes.
  intros Hab Hlb Hd. destruct (wf_lower_bound _ _ _ _ _ _ Hwf Hlb) as (? & _ & _ & Ef & l1 & l2 & E).
  exists l1, l2. eexists. enter_loop Ef. subst delta_of. cbv beta in Hd. rewrite Hd, Z.eqb_refl.
  split; [done|]. eapply carve_at_base; [done|lia|done].
Qed.

Lemma AllocImpl_loop_retry fuel ab na size base :
  mm_lower_bound ab (free_list_ m) = Some (size, base) -> delta_of base <> 0 ->
  AllocImpl_loop bytes align (S fuel) 0 ab na m = AllocImpl_loop bytes align fuel 1 (ab +64 na) na m.
Proof using Hwf.
  intros Hlb Hd. destruct (wf_lower_bound _ _ _ _ _ _ Hwf Hlb) as (? & _ & _ & Ef & _).
  subst delta_of. cbv beta in Hd. enter_loop Ef. by rewrite (proj2 (Z.eqb_neq _ _) Hd).
Qed.

Lemma AllocImpl_loop_trim fuel ab na size base :
  bytes + align <= ab -> mm_lower_bound ab (free_list_ m) = Some (size, base) ->
  delta_of base <> 0 ->
  exists l1 l2 m', let a := base + align - base mod align in
    AllocImpl_loop bytes align (S fuel) 1 ab na m = Some (a, m') /\
    carved m l1 base size l2 a bytes m' /\ a mod align = 0.
Proof using All.
  intros Hab Hlb Hd. pose proof (wf_lo _ _ _ Hwf). pose proof (wf_hi _ _ _ Hwf).
  destruct (wf_lower_bound _ _ _ _ _ _ Hwf Hlb) as (? & ? & ? & Ef & l1 & l2 & E).
  exists l1, l2. eexists. cbv zeta. subst delta_of. cbv beta in Hd.
  enter_loop Ef. rewrite (proj2 (Z.eqb_neq _ _) Hd). destruct (Z.eqb_spec align 0) as [|Hal]; [done|].
  change (1 =? 0) with false. cbn iota.
  pose proof (Z.mod_pos_bound base align ltac:(lia)).
  rewrite (add64_small base align), (sub64_small (base + align)) by lia.
  set (a := base + align - base mod align).
  rewrite (sub64_small a base), (add64_small (a - base) bytes), (add64_small a bytes) by lia.
  rewrite (sub64_small size (a - base)), (sub64_small (size - _)) by lia.
  destruct (Z.ltb_spec (a - base + bytes) size); [|lia].
  replace (size - (a - base) - bytes) with (base + size - (a + bytes)) by lia.
  split_and!; [done|eapply carve_above; try done; lia|]. subst a.
  replace (_ - _) with ((base / align + 1) * align) by (pose proof (Z.div_mod base align); lia).
  apply Z_mod_mult.
Qed.

(** Every run of [AllocImpl] on a well-formed manager passes its assertions and
    either finds nothing and changes nothing, or carves an aligned block out of
    a free fragment. *)
Lemma AllocImpl_carves :
  exists r m', VaMgr_AllocImpl bytes align m = Some (r, m') /\
    ((r = 0 /\ m' = m /\
      forall e, e ∈ free_list_ m ->
        e.1 < bytes + (if align =? 0 then 0 else new_align_of align m)) \/
     exists l1 base size l2, carved m l1 base size l2 r bytes m' /\ (align <> 0 -> r mod align = 0)).
Proof using All.
  pose proof (new_align_bound _ _ _ _ Hwf Halign) as Hna.
  unfold VaMgr_AllocImpl. fold (new_align_of align m).
  destruct (mm_lower_bound bytes (free_list_ m)) as [[size base]|] eqn:Eb.
  2:{ exists 0, m. split; [cbn [AllocImpl_loop]; by rewrite Eb|]. left. split_and!; [done..|].
      intros e He. pose proof (mm_lower_bound_None _ _ Eb e He). case_zbool; lia. }
  destruct (decide (delta_of base = 0)) as [Hd|Hd].
  { edestruct AllocImpl_loop_aligned as (l1 & l2 & m' & Hrun & Hc); [reflexivity|exact Eb|exact Hd|].
    exists base, m'. split; [exact Hrun|]. right. exists l1, base, size, l2. split; [done|].
    intros Hal. subst delta_of. cbv beta in Hd. by rewrite (proj2 (Z.eqb_neq _ _) Hal) in Hd. }
  erewrite AllocImpl_loop_retry by done. pose proof (wf_hi _ _ _ Hwf).
  destruct (wf_lower_bound _ _ _ _ _ _ Hwf Eb) as (? & ? & ? & _). pose proof (wf_lo _ _ _ Hwf).
  assert (align <> 0) as Hal by (intros ->; by apply Hd).
  rewrite (proj2 (Z.eqb_neq _ _) Hal), add64_small by lia.
  destruct (mm_lower_bound (bytes + new_align_of align m) (free_list_ m)) as [[size' base']|] eqn:Eb'.
  2:{ exists 0, m. split; [cbn [AllocImpl_loop]; by rewrite Eb'|]. left. split_and!; [done..|].
      apply (mm_lower_bound_None _ _ Eb'). }
  destruct (decide (delta_of base' = 0)) as [Hd'|Hd'].
  - edestruct AllocImpl_loop_aligned as (l1 & l2 & m' & Hrun & Hc); [|exact Eb'|exact Hd'|]; [lia|].
    exists base', m'. split; [exact Hrun|]. right. exists l1, base', size', l2. split; [done|].
    subst delta_of. cbv beta in Hd'. by rewrite (proj2 (Z.eqb_neq _ _) Hal) in Hd'.
  - edestruct AllocImpl_loop_trim as (l1 & l2 & m' & Hrun & Hc & Hm); [|exact Eb'|exact Hd'|]; [lia|].
    do 2 eexists. split; [exact Hrun|]. right. exists l1, base', size', l2. by split.
Qed.
End AllocImpl_proofs.

(** ** [Free] *)

Definition nonfree_end (o : option (Z * Fragment)) : Prop :=
  forall e, o = Some e -> frag_is_free e.2 = false.

(** The free neighbours of a fragment, as pieces. *)
Lemma split_lower lo l a :
  tiles lo l a -> Forall frag_ok l -> coalesced l ->
  exists l' b, l = l' ++ free_piece b a /\ b <= a /\ nonfree_end (last l').
Proof.
  intros Ht Hok Hco. destruct (last l) as [[k f]|] eqn:El.
  2:{ apply last_None in El as ->. exists [], a. rewrite free_piece_ge by lia.
      split_and!; [done|lia|by intros ?]. }
  apply last_Some in El as [l' ->]. destruct (frag_is_free f) eqn:Ef.
  - exists l', k. apply tiles_app in Ht as (mid & _ & -> & ? & <-).
    apply Forall_app in Hok as [_ [Hok _]%Forall_cons]. apply coalesced_app in Hco as (_ & _ & Hco).
    unfold frag_ok in Hok. simpl in Hok. rewrite Ef in Hok. rewrite free_piece_lt by lia.
    split_and!; [|lia|intros e He; specialize (Hco _ _ He eq_refl); simpl in Hco].
    + destruct f as [e s fr]. simpl in *. subst.
      by replace (mid + s - mid) with s by lia.
    + by rewrite Ef, andb_true_r in Hco.
  - exists (l' ++ [(k, f)]), a. rewrite free_piece_ge, app_nil_r by lia.
    split_and!; [done|lia|]. intros e. rewrite last_snoc. by intros [= <-].
Qed.

Lemma split_upper a l hi :
  tiles a l hi -> Forall frag_ok l -> coalesced l ->
  exists e l', l = free_piece a e ++ l' /\ a <= e /\ nonfree_end (head l').
Proof.
  destruct l as [|[k f] l]; simpl.
  - intros -> _ _. exists hi, []. rewrite free_piece_ge by lia. split_and!; [done|lia|by intros ?].
  - intros (-> & ? & Ht) [Hok _]%Forall_cons [Hco _]. destruct (frag_is_free f) eqn:Ef.
    + exists (a + frag_size f), l. rewrite free_piece_lt by lia.
      unfold frag_ok in Hok. simpl in Hok. rewrite Ef in Hok.
      split_and!; [|lia|intros e He; specialize (Hco _ He); simpl in Hco].
      * destruct f as [e s fr]. simpl in *. subst. by replace (a + s - a) with s by lia.
      * done.
    + exists a, ((a, f) :: l). rewrite free_piece_ge by lia. split_and!; [done|lia|]. by intros e [= <-].
Qed.

Section Free_proofs.
Context (lo hi : Z) (m : VaMgr) (l1 l2 : list (Z * Fragment)) (b a n e : Z).
Hypothesis Hwf : VaMgr_wf lo hi m.
Hypothesis Hba : b <= a.
Hypothesis Hane : a + n <= e.
Hypothesis E : frag_map_ m = l1 ++ free_piece b a ++ used_piece a n :: free_piece (a + n) e ++ l2.
Hypothesis Hlast : nonfree_end (last l1).
Hypothesis Hhead : nonfree_end (head l2).

Lemma Free_geometry :
  0 < n /\ lo <= b /\ e <= hi /\ keys_lt b l1 /\ keys_gt a l2 /\ (a + n < e -> keys_gt (a + n) l2) /\
  tiles lo l1 b /\ tiles e l2 hi.
Proof using Hwf Hba Hane E.
  pose proof (wf_tiles _ _ _ Hwf) as Ht. rewrite E in Ht.
  apply tiles_app in Ht as (mid & H1 & H2). apply tiles_free_piece in H2; [|lia].
  assert (mid = b /\ tiles a (used_piece a n :: free_piece (a + n) e ++ l2) hi) as [-> H3].
  { destruct (Z.ltb_spec b a); [done|]. pose proof H2 as [? _]. simpl in *. subst mid.
    split; [lia|done]. }
  clear H2. destruct H3 as (_ & Hn & H3). simpl in Hn, H3. apply tiles_free_piece in H3; [|lia].
  assert (tiles e l2 hi) as H4.
  { destruct (Z.ltb_spec (a + n) e); [by destruct H3|]. by replace e with (a + n) by lia. }
  pose proof (tiles_le _ _ _ H1). pose proof (tiles_le _ _ _ H4).
  split_and!; [done|done|done|by eapply tiles_keys_lt|..|done|done].
  - eapply tiles_keys_gt; [done|lia].
  - intros. eapply tiles_keys_gt; [done|lia].
Qed.

Lemma Free_merge_lower_spec :
  exists fr fl, Free_merge_lower a a (used_piece a n).2 m =
    (b, b, mkFragment None (a + n - b) fr,
     mkVaMgr fl (l1 ++ (b, mkFragment None (a + n - b) fr) :: free_piece (a + n) e ++ l2) (min_align_ m)) /\
    fl ≡ₚ omap free_entry (l1 ++ free_piece (a + n) e ++ l2) /\ mm_sorted fl.
Proof using Hwf Hba Hane E Hlast.
  destruct Free_geometry as (Hn & Hlo & Hhi & Hk1 & Hk2 & _ & _ & _).
  pose proof (wf_lo _ _ _ Hwf). pose proof (wf_hi _ _ _ Hwf).
  pose proof (wf_free_list _ _ _ Hwf) as Hfl. rewrite E in Hfl.
  unfold Free_merge_lower. rewrite E. destruct (Z.le_gt_cases a b) as [Hle|Hlt].
  - assert (b = a) as Hb by lia. subst b. rewrite free_piece_ge in * by lia. cbn [app].
    unfold used_piece at 1. rewrite map_prev_mid by done.
    exists false, (free_list_ m). replace (a + n - a) with n by lia.
    split_and!; [|rewrite Hfl, !omap_app; cbn; by rewrite ?omap_app|apply Hwf].
    destruct m as [fl fm ma]. simpl in *. subst fm.
    destruct (last l1) as [[lk lf]|] eqn:El; [|done]. specialize (Hlast _ eq_refl).
    simpl in Hlast. unfold is_free. by rewrite Hlast.
  - rewrite free_piece_lt in * by lia. cbn [app] in *.
    assert (keys_lt a (l1 ++ [(b, mkFragment (Some (a - b, b)) (a - b) true)])) as Hk3.
    { apply keys_lt_app. split; [|repeat constructor; done]. eapply Forall_impl; [exact Hk1|].
      simpl. lia. }
    rewrite app_cons_snoc. unfold used_piece at 1.
    rewrite map_prev_mid, last_snoc by done. cbn. unfold set_size. simpl.
    replace (a - b + n) with (a + n - b) by lia. rewrite u63_small, sub64_small by lia.
    replace (a - (a - b)) with b by lia. rewrite <- app_assoc. cbn [app].
    rewrite map_set_mid by done.
    exists true. eexists. split_and!; [|apply mm_erase_perm_cons|apply mm_erase_sorted, Hwf].
    + rewrite app_cons_snoc. unfold used_piece.
      rewrite map_erase_mid; [by rewrite <- app_assoc|].
      apply keys_lt_app. split; [|repeat constructor; done]. eapply Forall_impl; [exact Hk1|].
      simpl. lia.
    + rewrite Hfl, !omap_app. cbn. rewrite omap_app. solve_Permutation.
Qed.

Lemma Free_merge_upper_spec fr fl :
  fl ≡ₚ omap free_entry (l1 ++ free_piece (a + n) e ++ l2) -> mm_sorted fl ->
  let f := mkFragment None (a + n - b) fr in
  exists fl', Free_merge_upper b f
      (mkVaMgr fl (l1 ++ (b, f) :: free_piece (a + n) e ++ l2) (min_align_ m)) =
    (mkFragment None (e - b) fr,
     mkVaMgr fl' (l1 ++ (b, mkFragment None (e - b) fr) :: l2) (min_align_ m)) /\
    fl' ≡ₚ omap free_entry (l1 ++ l2) /\ mm_sorted fl'.
Proof using Hwf Hba Hane E Hhead.
  intros Hfl Hs f. destruct Free_geometry as (Hn & Hlo & Hhi & Hk1 & Hk2 & Hk3 & _ & _).
  pose proof (wf_lo _ _ _ Hwf). pose proof (wf_hi _ _ _ Hwf).
  assert (keys_gt b l2) as Hk2'.
  { eapply Forall_impl; [exact Hk2|]. simpl. lia. }
  unfold Free_merge_upper. cbn [frag_map_]. destruct (Z.le_gt_cases e (a + n)) as [Hle|Hlt].
  - assert (e = a + n) as He by lia. subst e. rewrite free_piece_ge in * by lia. cbn [app] in *.
    rewrite map_next_mid by done. exists fl. split; [|done].
    destruct l2 as [|[uk uf] l2']; [done|]. cbn. specialize (Hhead _ eq_refl).
    simpl in Hhead. unfold is_free. by rewrite Hhead.
  - specialize (Hk3 Hlt). rewrite free_piece_lt in * by lia. cbn [app] in *.
    rewrite map_next_mid; [|done|constructor; [simpl; lia|done]].
    cbn. unfold set_size. simpl. replace (a + n - b + (e - (a + n))) with (e - b) by lia.
    rewrite u63_small by lia. rewrite map_set_mid by done.
    rewrite app_cons_snoc, map_erase_mid, <- app_assoc.
    2:{ apply keys_lt_app. split; [|repeat constructor; simpl; lia].
        eapply Forall_impl; [exact Hk1|]. simpl. lia. }
    eexists. split_and!; [done|apply mm_erase_perm_cons|by apply mm_erase_sorted].
    rewrite Hfl, !omap_app. cbn. solve_Permutation.
Qed.

(** [Free] turns the block and its free neighbours into one free fragment. *)
Lemma Free_merges :
  exists fl, VaMgr_Free a m =
    mkVaMgr fl (l1 ++ (b, mkFragment (Some (e - b, b)) (e - b) true) :: l2) (min_align_ m) /\
    fl ≡ₚ (e - b, b) :: omap free_entry (l1 ++ l2) /\ mm_sorted fl.
Proof using Hwf Hba Hane E Hlast Hhead.
  destruct Free_geometry as (Hn & Hlo & Hhi & Hk1 & _).
  pose proof (wf_lo _ _ _ Hwf). unfold VaMgr_Free. destruct (Z.eqb_spec a 0); [lia|].
  assert (map_find a (frag_map_ m) = Some (mkFragment None n false)) as ->.
  { rewrite E, app_assoc. apply map_find_mid. apply keys_lt_app. split.
    - eapply Forall_impl; [exact Hk1|]. simpl. lia.
    - unfold free_piece. case_zbool; repeat constructor. done. }
  cbn [is_free frag_is_free].
  destruct Free_merge_lower_spec as (fr & fl & Hlow & Hfl & Hs). simpl in Hlow. rewrite Hlow.
  destruct (Free_merge_upper_spec fr fl Hfl Hs) as (fl' & Hup & Hfl' & Hs'). simpl in Hup. rewrite Hup.
  cbn. eexists. rewrite map_set_mid by done. unfold set_free. simpl.
  split_and!; [done|by rewrite mm_insert_perm, Hfl'|by apply mm_insert_sorted].
Qed.

Lemma Free_merges_wf : VaMgr_wf lo hi (VaMgr_Free a m).
Proof using Hwf Hba Hane E Hlast Hhead.
  destruct Free_geometry as (Hn & Hlo & Hhi & Hk1 & Hk2 & Hk3 & Ht1 & Ht2).
  destruct Free_merges as (fl & -> & Hfl & Hs).
  pose proof (wf_frags _ _ _ Hwf) as Hok. rewrite E, !Forall_app, Forall_cons, Forall_app in Hok.
  destruct Hok as (Hok1 & _ & _ & _ & Hok2).
  pose proof (wf_coalesced _ _ _ Hwf) as Hco. rewrite E in Hco.
  apply coalesced_app in Hco as (Hc1 & Hco & _). apply coalesced_app in Hco as (_ & [_ Hco] & _).
  apply coalesced_app in Hco as (_ & Hc2 & _).
  constructor; cbn [free_list_ frag_map_ min_align_]; try apply Hwf; try done.
  - apply tiles_app. exists b. split; [done|]. simpl. split_and!; [done|lia|].
    by replace (b + (e - b)) with e by lia.
  - rewrite Forall_app, Forall_cons. by split_and!.
  - rewrite Hfl, !omap_app. cbn. solve_Permutation.
  - apply coalesced_app. split_and!; [done| |].
    + split; [|done]. intros x Hx. simpl. by apply Hhead.
    + intros x y Hx [= <-]. by rewrite (Hlast _ Hx).
Qed.
End Free_proofs.

(** Every allocated fragment can be presented that way. *)
Lemma wf_used_split lo hi m a f :
  VaMgr_wf lo hi m -> map_find a (frag_map_ m) = Some f -> is_free f = false ->
  exists l1 b e l2,
    frag_map_ m = l1 ++ free_piece b a ++ used_piece a (frag_size f) :: free_piece (a + frag_size f) e ++ l2 /\
    b <= a /\ a + frag_size f <= e /\ nonfree_end (last l1) /\ nonfree_end (head l2).
Proof.
  intros Hwf Hf Hu. destruct (wf_used _ _ _ _ _ Hwf Hf Hu) as (l1 & l2 & E & Ef).
  destruct (wf_split _ _ _ _ _ _ _ Hwf E) as (Ht1 & _ & Ht2 & _).
  pose proof (wf_frags _ _ _ Hwf) as Hok. pose proof (wf_coalesced _ _ _ Hwf) as Hco.
  rewrite E in Hok, Hco. apply Forall_app in Hok as [Hok1 [_ Hok2]%Forall_cons].
  apply coalesced_app in Hco as (Hc1 & [_ Hc2] & _).
  destruct (split_lower _ _ _ Ht1 Hok1 Hc1) as (l1' & b & -> & ? & ?).
  destruct (split_upper _ _ _ Ht2 Hok2 Hc2) as (e & l2' & -> & ? & ?).
  exists l1', b, e, l2'. split_and!; try done. rewrite E, <- app_assoc. unfold used_piece.
  by rewrite <- Ef.
Qed.
