(* ===== verification/VaMgrSpec.v ===== *)
(** * VaMgrSpec: what the virtual address manager promises, and what a fixed
    address breaks

    The abstract state of a manager is the finite map of its live blocks, from
    address to size. [AllocImpl] and [Free] refine an allocator on that state;
    histories of operations keep live blocks disjoint. The last section is about
    the [addr] hint of [Alloc]. *)

From stdpp Require Import gmap.
From S2P Require Import Prelude.
From S2P Require Import StdMap.
From S2P Require Import Utils.
From S2P Require Import VaMgr.

(** ** The abstract allocator *)

Definition block_disjoint (a n a' n' : Z) : Prop := a + n <= a' \/ a' + n' <= a.

(** Allocating [bytes] at [align] within [lo, hi): refuse, or add a fresh block. *)
Definition spec_alloc (lo hi bytes align : Z) (σ : gmap Z Z) (r : Z) (σ' : gmap Z Z) : Prop :=
  (r = 0 /\ σ' = σ) \/
  (lo <= r /\ r + bytes <= hi /\ (align <> 0 -> r mod align = 0) /\
   (forall a n, σ !! a = Some n -> block_disjoint r bytes a n) /\ σ' = <[r := bytes]> σ).

Definition spec_free (a : Z) (σ σ' : gmap Z Z) : Prop := σ' = delete a σ.

(** The live blocks of a manager. *)
Definition used_entry (e : Z * Fragment) : option (Z * Z) :=
  if frag_is_free e.2 then None else Some (e.1, frag_size e.2).

Definition allocated (m : VaMgr) : gmap Z Z := list_to_map (omap used_entry (frag_map_ m)).

(** ** Lemmas *)

Lemma omap_used_free_piece b e : omap used_entry (free_piece b e) = [].
Proof. unfold free_piece. by case_zbool. Qed.

Lemma used_keys k (l : list (Z * Fragment)) : keys_lt k l \/ keys_gt k l -> k ∉ (omap used_entry l).*1.
Proof.
  intros Hk ([k' n] & -> & Hin)%list_elem_of_fmap.
  apply list_elem_of_omap in Hin as ([k2 f] & Hin & Hu). unfold used_entry in Hu. simpl in *.
  destruct (frag_is_free f); simplify_eq.
  destruct Hk as [Hk|Hk]; eapply Forall_forall in Hk; try done; simpl in Hk; lia.
Qed.

Lemma list_to_map_mid (l1 l2 : list (Z * Z)) a n :
  a ∉ l1.*1 -> (list_to_map (l1 ++ (a, n) :: l2) : gmap Z Z) = <[a := n]> (list_to_map (l1 ++ l2)).
Proof.
  intros Ha. rewrite !list_to_map_app. cbn. rewrite insert_union_r; [done|].
  by apply not_elem_of_list_to_map_1.
Qed.

Lemma list_to_map_out (l1 l2 : list (Z * Z)) a :
  a ∉ l1.*1 -> a ∉ l2.*1 -> (list_to_map (l1 ++ l2) : gmap Z Z) !! a = None.
Proof.
  intros H1 H2. apply not_elem_of_list_to_map_1. rewrite fmap_app, elem_of_app. by intros [].
Qed.

(** The live blocks are the used fragments. *)
Lemma allocated_elem m a n :
  allocated m !! a = Some n -> exists f, (a, f) ∈ frag_map_ m /\ frag_size f = n /\ frag_is_free f = false.
Proof.
  intros ([k f] & Hin & Hu)%elem_of_list_to_map_2%list_elem_of_omap. unfold used_entry in Hu.
  simpl in Hu. destruct (frag_is_free f) eqn:?; simplify_eq. eauto.
Qed.

Lemma allocated_find lo hi m a f :
  VaMgr_wf lo hi m -> map_find a (frag_map_ m) = Some f -> is_free f = false ->
  allocated m !! a = Some (frag_size f).
Proof.
  intros Hwf Hf Hu. destruct (wf_used _ _ _ _ _ Hwf Hf Hu) as (l1 & l2 & E & Ef).
  destruct (wf_split _ _ _ _ _ _ _ Hwf E) as (_ & _ & _ & Hlt & Hgt & _).
  unfold allocated. rewrite E, Ef, omap_app. cbn. rewrite list_to_map_mid by (apply used_keys; auto).
  apply lookup_insert_eq.
Qed.

Lemma allocated_carved lo hi m l1 base size l2 a bytes m' :
  VaMgr_wf lo hi m -> 0 < bytes -> carved m l1 base size l2 a bytes m' ->
  allocated m' = <[a := bytes]> (allocated m) /\
  (forall a' n, allocated m !! a' = Some n -> block_disjoint a bytes a' n) /\
  lo <= a /\ a + bytes <= hi.
Proof.
  intros Hwf Hb (E & ? & ? & E' & _). destruct (wf_split _ _ _ _ _ _ _ Hwf E) as (Ht1 & _ & Ht2 & Hlt & _ & ? & ?).
  simpl in *. split_and!; [| |lia|lia].
  - unfold allocated. rewrite E, E', !omap_app. cbn. rewrite omap_app, !omap_used_free_piece. cbn.
    apply list_to_map_mid, used_keys. left. eapply Forall_impl; [exact Hlt|]. simpl. lia.
  - intros a' n (f & Hin & <- & Hu)%allocated_elem. unfold block_disjoint. rewrite E in Hin.
    apply elem_of_app in Hin as [Hin|[Hin|Hin]%elem_of_cons].
    + pose proof (proj1 (Forall_forall _ _) (tiles_bounds _ _ _ Ht1) _ Hin). simpl in *. lia.
    + by simplify_eq.
    + pose proof (proj1 (Forall_forall _ _) (tiles_bounds _ _ _ Ht2) _ Hin). simpl in *. lia.
Qed.

Lemma wf_live_bounds lo hi m a n :
  VaMgr_wf lo hi m -> allocated m !! a = Some n -> 0 < n /\ lo <= a /\ a + n <= hi.
Proof.
  intros Hwf (f & Hin & <- & _)%allocated_elem.
  pose proof (proj1 (Forall_forall _ _) (tiles_bounds _ _ _ (wf_tiles _ _ _ Hwf)) _ Hin). simpl in *. lia.
Qed.

(** Two fragments of a tiling do not overlap. *)
Lemma wf_live_disjoint lo hi m a n a' n' :
  VaMgr_wf lo hi m -> allocated m !! a = Some n -> allocated m !! a' = Some n' -> a <> a' ->
  block_disjoint a n a' n'.
Proof.
  intros Hwf (f & Hin & <- & _)%allocated_elem (f' & Hin' & <- & _)%allocated_elem Hne.
  apply list_elem_of_split in Hin as (l1 & l2 & E).
  destruct (wf_split _ _ _ _ _ _ _ Hwf E) as (Ht1 & _ & Ht2 & _). unfold block_disjoint.
  rewrite E in Hin'. apply elem_of_app in Hin' as [Hin|[Hin|Hin]%elem_of_cons].
  - pose proof (proj1 (Forall_forall _ _) (tiles_bounds _ _ _ Ht1) _ Hin). simpl in *. lia.
  - by simplify_eq.
  - pose proof (proj1 (Forall_forall _ _) (tiles_bounds _ _ _ Ht2) _ Hin). simpl in *. lia.
Qed.

Lemma VaMgr_new_wf start size min_align :
  0 < start -> 0 < size -> start + size < 2 ^ 63 -> 0 < min_align < 2 ^ 62 ->
  VaMgr_wf start (start + size) (VaMgr_new start size min_align).
Proof.
  intros. unfold VaMgr_new, make_fragment. rewrite u63_small by lia.
  constructor; cbn; try done; repeat constructor; simpl; lia.
Qed.

Lemma VaMgr_new_allocated start size min_align : allocated (VaMgr_new start size min_align) = ∅.
Proof. done. Qed.

Lemma VaMgr_Free_noop m a :
  (forall f, map_find a (frag_map_ m) = Some f -> is_free f = true) -> VaMgr_Free a m = m.
Proof.
  intros H. unfold VaMgr_Free. destruct (a =? 0); [done|].
  destruct (map_find a (frag_map_ m)) as [f|]; [|done]. by rewrite H.
Qed.

(** [AllocImpl] and [Free] keep the invariant. *)
Lemma AllocImpl_wf lo hi m bytes align :
  VaMgr_wf lo hi m -> 0 < bytes -> 0 <= align < 2 ^ 62 ->
  exists r m', VaMgr_AllocImpl bytes align m = Some (r, m') /\ VaMgr_wf lo hi m'.
Proof.
  intros Hwf Hb Ha.
  destruct (AllocImpl_carves _ _ _ _ _ Hwf Hb Ha) as
    (r & m' & Hrun & [(-> & -> & _)|(l1 & base & size & l2 & Hc & Hal)]); [by exists 0, m|].
  exists r, m'. split; [done|]. by eapply carved_wf.
Qed.

Lemma Free_wf lo hi m a : VaMgr_wf lo hi m -> VaMgr_wf lo hi (VaMgr_Free a m).
Proof.
  intros Hwf. destruct (map_find a (frag_map_ m)) as [f|] eqn:Ef; [destruct (is_free f) eqn:Hu|].
  1,3: by rewrite VaMgr_Free_noop by (rewrite Ef; naive_solver).
  destruct (wf_used_split _ _ _ _ _ Hwf Ef Hu) as (l1 & b & e & l2 & E & Hb & He & Hl & Hh).
  by eapply Free_merges_wf.
Qed.

(** What [AllocImpl] and [Free] do to the live blocks. *)
Lemma AllocImpl_allocated lo hi m bytes align :
  VaMgr_wf lo hi m -> 0 < bytes -> 0 <= align < 2 ^ 62 ->
  exists r m', VaMgr_AllocImpl bytes align m = Some (r, m') /\ VaMgr_wf lo hi m' /\
    spec_alloc lo hi bytes align (allocated m) r (allocated m').
Proof.
  intros Hwf Hb Ha.
  destruct (AllocImpl_carves _ _ _ _ _ Hwf Hb Ha) as
    (r & m' & Hrun & [(-> & -> & _)|(l1 & base & size & l2 & Hc & Hal)]).
  - exists 0, m. split_and!; [done..|]. by left.
  - exists r, m'. split_and!; [done|by eapply carved_wf|]. right.
    destruct (allocated_carved _ _ _ _ _ _ _ _ _ _ Hwf Hb Hc) as (? & ? & ? & ?). done.
Qed.

Lemma Free_allocated lo hi m a :
  VaMgr_wf lo hi m ->
  spec_free a (allocated m) (allocated (VaMgr_Free a m)) /\
  (allocated m !! a = None -> VaMgr_Free a m = m).
Proof.
  intros Hwf.
  destruct (map_find a (frag_map_ m)) as [f|] eqn:Ef; [destruct (is_free f) eqn:Hu|].
  3: { assert (VaMgr_Free a m = m) as -> by (apply VaMgr_Free_noop; rewrite Ef; naive_solver).
    split_and!; [|done]. symmetry. apply delete_id. apply eq_None_not_Some.
    intros [n (f & Hin & _)%allocated_elem]. apply list_elem_of_split in Hin as (l1 & l2 & E).
    destruct (wf_split _ _ _ _ _ _ _ Hwf E) as (_ & _ & _ & Hlt & _).
    by rewrite E, map_find_mid in Ef. }
  - assert (VaMgr_Free a m = m) as -> by (apply VaMgr_Free_noop; rewrite Ef; naive_solver).
    split_and!; [|done]. symmetry. apply delete_id. apply eq_None_not_Some.
    intros [n (f' & Hin & _ & Hu')%allocated_elem]. apply list_elem_of_split in Hin as (l1 & l2 & E).
    destruct (wf_split _ _ _ _ _ _ _ Hwf E) as (_ & _ & _ & Hlt & _).
    rewrite E, map_find_mid in Ef by done. unfold is_free in Hu. congruence.
  - destruct (wf_used_split _ _ _ _ _ Hwf Ef Hu) as (l1 & b & e & l2 & E & Hb & He & Hl & Hh).
    split.
    + unfold spec_free, allocated. destruct (Free_merges _ _ _ _ _ _ _ _ _ Hwf Hb He E Hl Hh) as (fl & -> & _).
      destruct (Free_geometry _ _ _ _ _ _ _ _ _ Hwf Hb He E) as (Hn & _ & _ & Hk1 & Hk2 & _).
      cbn [frag_map_]. rewrite E, !omap_app. cbn. rewrite !omap_app, !omap_used_free_piece. cbn.
      rewrite list_to_map_mid, delete_insert_id; [done| |].
      * apply list_to_map_out; apply used_keys; [left|by right].
        eapply Forall_impl; [exact Hk1|]. simpl. lia.
      * apply used_keys. left. eapply Forall_impl; [exact Hk1|]. simpl. lia.
    + by rewrite (allocated_find _ _ _ _ _ Hwf Ef Hu).
Qed.

(** ** The interface of an address manager

    What the runtime relies on: an allocator over a range whose live blocks are a
    finite map. *)
Class AddressManager (T : Type) := {
  am_inv : Z -> Z -> T -> Prop;
  am_live : T -> gmap Z Z;
  am_alloc : Z -> Z -> T -> option (Z * T);
  am_free : Z -> T -> T;
  am_lo lo hi t : am_inv lo hi t -> 0 < lo;
  am_alloc_ok lo hi t bytes align :
    am_inv lo hi t -> 0 < bytes -> 0 <= align < 2 ^ 62 ->
    exists r t', am_alloc bytes align t = Some (r, t') /\ am_inv lo hi t' /\
      spec_alloc lo hi bytes align (am_live t) r (am_live t');
  am_free_ok lo hi t a :
    am_inv lo hi t -> am_inv lo hi (am_free a t) /\ spec_free a (am_live t) (am_live (am_free a t));
}.

#[export] Instance VaMgr_AddressManager : AddressManager VaMgr.
Proof.
  refine {| am_inv := VaMgr_wf; am_live := allocated; am_alloc b a := VaMgr_Alloc b a 0; am_free := VaMgr_Free |}.
  - apply wf_lo.
  - intros. unfold VaMgr_Alloc. rewrite Z.ltb_irrefl. by apply AllocImpl_allocated.
  - intros lo hi t a Hwf. split; [by apply Free_wf|by eapply Free_allocated].
Defined.

(** Freeing what was just allocated restores the live blocks. *)
Lemma spec_alloc_free lo hi n align m m1 a :
  VaMgr_wf lo hi m -> VaMgr_wf lo hi m1 -> 0 < n -> a <> 0 ->
  spec_alloc lo hi n align (allocated m) a (allocated m1) ->
  allocated (VaMgr_Free a m1) = allocated m.
Proof.
  intros Hwf Hwf1 Hn Ha Hspec. destruct (am_free_ok (T := VaMgr) lo hi m1 a) as (_ & Hfree); [exact Hwf1|].
  cbn [am_live am_free VaMgr_AddressManager] in Hfree. rewrite Hfree.
  destruct Hspec as [[? _]|(_ & _ & _ & Hdis & ->)]; [done|].
  apply delete_insert_id. destruct (allocated m !! a) as [x|] eqn:E; [|done].
  pose proof (proj1 (wf_live_bounds _ _ _ _ _ Hwf E)). apply Hdis in E as [?|?]; lia.
Qed.

(** ** Refinement *)

(** C5: On a well-formed manager [AllocImpl] passes every assertion, keeps the
    manager well-formed and refines the abstract allocator: it answers 0 and
    changes nothing, or returns an aligned block inside the range, disjoint from
    every live block, which becomes live with exactly the requested size. *)
Theorem VaMgr_AllocImpl_refines lo hi m bytes align :
  VaMgr_wf lo hi m -> 0 < bytes -> 0 <= align < 2 ^ 62 ->
  exists r m', VaMgr_AllocImpl bytes align m = Some (r, m') /\ VaMgr_wf lo hi m' /\
    spec_alloc lo hi bytes align (allocated m) r (allocated m').
Proof. apply AllocImpl_allocated. Qed.

(** C6: [Free] keeps the manager well-formed and removes exactly the block at the
    address; on any other address (0, unknown, already free) it does nothing. *)
Theorem VaMgr_Free_refines lo hi m a :
  VaMgr_wf lo hi m ->
  VaMgr_wf lo hi (VaMgr_Free a m) /\ spec_free a (allocated m) (allocated (VaMgr_Free a m)) /\
  (allocated m !! a = None -> VaMgr_Free a m = m).
Proof. intros Hwf. split; [by apply Free_wf|by eapply Free_allocated]. Qed.

(** C34: A request is refused only when no free fragment can host it padded to its
    alignment: with a fragment of [bytes + AlignUp(align, min_align)] bytes (of
    [bytes], when no alignment is asked) [AllocImpl] succeeds. *)
Theorem VaMgr_AllocImpl_finds lo hi m bytes align e :
  VaMgr_wf lo hi m -> 0 < bytes -> 0 <= align < 2 ^ 62 -> e ∈ free_list_ m ->
  bytes + (if align =? 0 then 0 else AlignUp64 align (min_align_ m)) <= e.1 ->
  exists r m', VaMgr_AllocImpl bytes align m = Some (r, m') /\ r <> 0 /\
    allocated m' !! r = Some bytes.
Proof.
  intros Hwf Hb Ha Hin Hfit.
  destruct (AllocImpl_carves _ _ _ _ _ Hwf Hb Ha) as
    (r & m' & Hrun & [(-> & -> & Hno)|(l1 & base & size & l2 & Hc & Hal)]).
  - specialize (Hno _ Hin). unfold new_align_of in Hno. destruct (align =? 0); lia.
  - exists r, m'. destruct (allocated_carved _ _ _ _ _ _ _ _ _ _ Hwf Hb Hc) as (-> & _ & ? & _).
    pose proof (wf_lo _ _ _ Hwf). split_and!; [done|lia|]. apply lookup_insert_eq.
Qed.

(** Freeing what was just allocated restores the fragment map exactly and the
    free list up to the order of equal sizes: compaction undoes every split. *)
Theorem VaMgr_alloc_free_roundtrip lo hi m bytes align r m' :
  VaMgr_wf lo hi m -> 0 < bytes -> 0 <= align < 2 ^ 62 ->
  VaMgr_AllocImpl bytes align m = Some (r, m') -> r <> 0 ->
  frag_map_ (VaMgr_Free r m') = frag_map_ m /\ free_list_ (VaMgr_Free r m') ≡ₚ free_list_ m.
Proof.
  intros Hwf Hb Ha Hrun Hr.
  destruct (AllocImpl_carves _ _ _ _ _ Hwf Hb Ha) as
    (r' & m'' & Hrun' & [(-> & -> & Hno)|(l1 & base & size & l2 & Hc & Hal)]); simplify_eq.
  pose proof (carved_wf _ _ _ _ _ _ _ _ _ _ Hwf Hb Hc) as Hwf'.
  destruct Hc as (E & Hlo & Hhi & E' & _). pose proof (wf_coalesced _ _ _ Hwf) as Hco. rewrite E in Hco.
  apply coalesced_app in Hco as (_ & [Hh _] & Hl).
  destruct (Free_merges _ _ _ _ _ _ _ _ _ Hwf' Hlo Hhi E') as (fl & -> & Hfl & _).
  - intros x Hx. specialize (Hl _ _ Hx eq_refl). by rewrite andb_true_r in Hl.
  - intros x Hx. by apply Hh.
  - cbn [frag_map_ free_list_]. rewrite (wf_free_list _ _ _ Hwf), E, Hfl, !omap_app. cbn.
    replace (base + size - base) with size by lia. split; [done|]. solve_Permutation.
Qed.

(** ** Histories *)

Inductive va_op :=
| OpAlloc (bytes align : Z)
| OpFree (addr : Z).

Definition va_op_ok (op : va_op) : Prop :=
  match op with OpAlloc bytes align => 0 < bytes /\ 0 <= align < 2 ^ 62 | OpFree _ => True end.

(** One call without a hint: its answer and the manager afterwards. *)
Definition va_exec (m : VaMgr) (op : va_op) : option (Z * VaMgr) :=
  match op with
  | OpAlloc bytes align => VaMgr_Alloc bytes align 0 m
  | OpFree addr => Some (0, VaMgr_Free addr m)
  end.

(** The answers of a history and the manager afterwards. *)
Fixpoint va_run (m : VaMgr) (ops : list va_op) : option (list Z * VaMgr) :=
  match ops with
  | [] => Some ([], m)
  | op :: ops => p ← va_exec m op; q ← va_run p.2 ops; Some (p.1 :: q.1, q.2)
  end.

(** [n] bytes at [x] are inside the range and not of a live block. *)
Definition gap (lo hi : Z) (σ : gmap Z Z) (x n : Z) : Prop :=
  lo <= x /\ x + n <= hi /\ forall a k, σ !! a = Some k -> block_disjoint x n a k.

(** What an allocation needs at most: room for the alignment in front of it. *)
Definition padded (min_align bytes align : Z) : Z := bytes + (if align =? 0 then 0 else AlignUp64 align min_align).

(** The abstract allocator over a history: an allocation returns a fresh aligned block, or 0
    when no gap has its padded size; a free takes the block at the address away. *)
Inductive va_specs (lo hi min_align : Z) : gmap Z Z -> list va_op -> list Z -> gmap Z Z -> Prop :=
  | va_specs_nil σ : va_specs lo hi min_align σ [] [] σ
  | va_specs_alloc σ σ1 σ2 bytes align r ops rs :
      spec_alloc lo hi bytes align σ r σ1 ->
      (r = 0 -> forall x, ~ gap lo hi σ x (padded min_align bytes align)) ->
      va_specs lo hi min_align σ1 ops rs σ2 -> va_specs lo hi min_align σ (OpAlloc bytes align :: ops) (r :: rs) σ2
  | va_specs_free σ σ1 σ2 a ops rs :
      spec_free a σ σ1 -> va_specs lo hi min_align σ1 ops rs σ2 ->
      va_specs lo hi min_align σ (OpFree a :: ops) (0 :: rs) σ2.

(** A gap of a tiling without free neighbours is inside one free fragment. *)
Lemma gap_in_fragment lo l hi x n :
  tiles lo l hi -> coalesced l -> lo <= x -> 0 < n -> x + n <= hi ->
  (forall e, e ∈ l -> frag_is_free e.2 = false -> block_disjoint x n e.1 (frag_size e.2)) ->
  exists e, e ∈ l /\ frag_is_free e.2 = true /\ n <= frag_size e.2.
Proof.
  revert lo. induction l as [|[k f] l IH]; intros lo Ht Hc Hx Hn Hhi Hdis; [cbn in Ht; lia|].
  destruct Ht as (-> & Hf & Ht), Hc as [Hhead Hc]. destruct (decide (lo + frag_size f <= x)) as [Hge|Hlt].
  - destruct (IH _ Ht Hc Hge Hn Hhi) as (e & Hin & He); [|exists e; split; [by constructor|done]].
    intros e Hin. apply Hdis. by constructor.
  - destruct (frag_is_free f) eqn:Hfree.
    2:{ destruct (Hdis (lo, f)) as [?|?]; [constructor|done|cbn in *; lia..]. }
    exists (lo, f). split_and!; [constructor|done|]. cbn. destruct (decide (x + n <= lo + frag_size f)) as [|Hover]; [lia|].
    destruct l as [|[k' f'] l]; [cbn in Ht; lia|]. destruct Ht as (-> & Hf' & _). specialize (Hhead _ eq_refl). cbn in Hhead.
    rewrite Hfree in Hhead. destruct (Hdis (lo + frag_size f, f')) as [?|?]; [right; constructor|done|cbn in *; lia..].
Qed.

Lemma gap_free_entry lo hi m x n : VaMgr_wf lo hi m -> 0 < n -> gap lo hi (allocated m) x n ->
  exists e, e ∈ free_list_ m /\ n <= e.1.
Proof.
  intros Hwf Hn (Hlo & Hhi & Hdis).
  destruct (gap_in_fragment lo (frag_map_ m) hi x n) as ([k f] & Hin & Hfree & Hle); try done; try apply Hwf.
  - intros [k f] Hin Hused. apply Hdis. apply list_elem_of_split in Hin as (l1 & l2 & E).
    destruct (wf_split _ _ _ _ _ _ _ Hwf E) as (_ & _ & _ & Hl & Hg & _). cbn in *. unfold allocated.
    rewrite E, omap_app. cbn. unfold used_entry at 2. cbn. rewrite Hused. cbn.
    rewrite list_to_map_mid by (apply used_keys; auto). apply lookup_insert_eq.
  - exists (frag_size f, k). split; [|done]. rewrite (wf_free_list _ _ _ Hwf). apply list_elem_of_omap.
    exists (k, f). split; [done|]. unfold free_entry. cbn in *. by rewrite Hfree.
Qed.

Lemma va_exec_spec lo hi m op : VaMgr_wf lo hi m -> va_op_ok op ->
  exists r m', va_exec m op = Some (r, m') /\ VaMgr_wf lo hi m' /\ min_align_ m' = min_align_ m /\
    match op with
    | OpAlloc bytes align => spec_alloc lo hi bytes align (allocated m) r (allocated m') /\
        (r = 0 -> forall x, ~ gap lo hi (allocated m) x (padded (min_align_ m) bytes align))
    | OpFree a => r = 0 /\ spec_free a (allocated m) (allocated m')
    end.
Proof.
  intros Hwf Hop. destruct op as [bytes align|a]; cbn.
  - destruct Hop as [Hb Ha]. change (VaMgr_Alloc bytes align 0 m) with (VaMgr_AllocImpl bytes align m).
    destruct (AllocImpl_allocated _ _ _ _ _ Hwf Hb Ha) as (r & m' & Hrun & Hwf' & Hspec). exists r, m'.
    destruct (AllocImpl_carves _ _ _ _ _ Hwf Hb Ha) as
      (r' & m'' & Hrun' & [(-> & -> & Hno)|(l1 & base & size & l2 & Hc & Hal)]); simplify_eq.
    + split_and!; [done..|]. intros _ x Hgap. unfold padded in Hgap.
      pose proof (new_align_bound _ _ _ _ Hwf Ha) as Hna. unfold new_align_of in *.
      apply (gap_free_entry _ _ _ _ _ Hwf) in Hgap as (e & Hin & He); [|destruct (align =? 0); lia].
      specialize (Hno e Hin). destruct (align =? 0); lia.
    + split_and!; [done|done|apply Hc|done|]. intros ->.
      destruct (allocated_carved _ _ _ _ _ _ _ _ _ _ Hwf Hb Hc) as (_ & _ & ? & _). pose proof (wf_lo _ _ _ Hwf). lia.
  - exists 0, (VaMgr_Free a m). split_and!; [done|by apply Free_wf| |done|by eapply Free_allocated].
    destruct (map_find a (frag_map_ m)) as [f|] eqn:Ef; [destruct (is_free f) eqn:Hu|].
    1,3: by rewrite VaMgr_Free_noop by (rewrite Ef; naive_solver).
    destruct (wf_used_split _ _ _ _ _ Hwf Ef Hu) as (l1 & b & e & l2 & E & Hb & He & Hl & Hh).
    by destruct (Free_merges _ _ _ _ _ _ _ _ _ Hwf Hb He E Hl Hh) as (fl & -> & _).
Qed.

Lemma va_run_specs lo hi ops : forall m, VaMgr_wf lo hi m -> Forall va_op_ok ops ->
  exists rs m', va_run m ops = Some (rs, m') /\ VaMgr_wf lo hi m' /\ min_align_ m' = min_align_ m /\
    va_specs lo hi (min_align_ m) (allocated m) ops rs (allocated m').
Proof.
  induction ops as [|op ops IH]; intros m Hwf Hops; [exists [], m; by split_and!; [| | |constructor]|].
  apply Forall_cons in Hops as [Hop Hops]. destruct (va_exec_spec _ _ _ _ Hwf Hop) as (r & m1 & Hr & Hwf1 & Hm1 & Hs).
  destruct (IH m1 Hwf1 Hops) as (rs & m2 & Hr2 & Hwf2 & Hm2 & Hs2). exists (r :: rs), m2. cbn. rewrite Hr. cbn. rewrite Hr2.
  rewrite Hm1 in *. split_and!; [done..|]. destruct op as [bytes align|a].
  - destruct Hs as [Hs Hno]. by econstructor.
  - destruct Hs as [-> Hs]. by econstructor.
Qed.

(** Without live blocks there is one fragment: the range as it was. *)
Lemma all_freed start size min_align m : 0 < size -> start + size < 2 ^ 63 -> VaMgr_wf start (start + size) m ->
  min_align_ m = min_align -> allocated m = ∅ -> m = VaMgr_new start size min_align.
Proof.
  intros Hsize Hb Hwf Hm Hnone.
  assert (forall e, e ∈ frag_map_ m -> frag_is_free e.2 = true) as Hfree.
  { intros [k f] Hin. destruct (frag_is_free f) eqn:Hu; [done|]. apply list_elem_of_split in Hin as (l1 & l2 & E).
    destruct (wf_split _ _ _ _ _ _ _ Hwf E) as (_ & _ & _ & Hl & Hg & _).
    assert (allocated m !! k = Some (frag_size f)) as Hk; [|by rewrite Hnone in Hk].
    unfold allocated. rewrite E, omap_app. cbn. unfold used_entry at 2. cbn. rewrite Hu. cbn.
    rewrite list_to_map_mid by (apply used_keys; auto). apply lookup_insert_eq. }
  pose proof (wf_tiles _ _ _ Hwf) as Ht. pose proof (wf_coalesced _ _ _ Hwf) as Hc. pose proof (wf_frags _ _ _ Hwf) as Hf.
  pose proof (wf_free_list _ _ _ Hwf) as Hl. pose proof (wf_lo _ _ _ Hwf) as Hlo. destruct m as [fl fm ma]. cbn in *. subst ma.
  destruct fm as [|[k f] [|[k' f'] fm]]; cbn in Ht; [lia| |].
  - destruct Ht as (-> & Hpos & Heq). apply Forall_cons in Hf as [Hf _]. specialize (Hfree (start, f) ltac:(constructor)).
    destruct f as [e s fr]. unfold frag_ok in Hf. cbn in *. subst fr e. assert (s = size) as -> by lia.
    apply Permutation_singleton_r in Hl as ->. unfold VaMgr_new, make_fragment. by rewrite u63_small by lia.
  - pose proof (proj1 Hc _ eq_refl) as Hn. cbn in Hn.
    pose proof (Hfree (k, f) ltac:(repeat constructor)) as E1. pose proof (Hfree (k', f') ltac:(repeat constructor)) as E2.
    cbn in E1, E2. by rewrite E1, E2 in Hn.
Qed.

(** C7: Every history of hint-free allocations and frees from a fresh manager runs without an
    assertion failing and refines an abstract allocator, answer by answer: an allocation
    returns an aligned block of the managed range that no live block touches and that is live
    from then on, or 0, and then no gap between the live blocks has the padded size; a free
    takes away the block at its address. The state reached is well formed, its live blocks are
    pairwise disjoint, and when all are freed the manager is what it was at first. *)
Theorem VaMgr_history_safe start size min_align ops :
  0 < start -> 0 < size -> start + size < 2 ^ 63 -> 0 < min_align < 2 ^ 62 ->
  Forall va_op_ok ops ->
  exists rs m, va_run (VaMgr_new start size min_align) ops = Some (rs, m) /\
    va_specs start (start + size) min_align ∅ ops rs (allocated m) /\
    VaMgr_wf start (start + size) m /\
    (forall a n, allocated m !! a = Some n -> start <= a /\ a + n <= start + size) /\
    (forall a n a' n', allocated m !! a = Some n -> allocated m !! a' = Some n' -> a <> a' ->
       block_disjoint a n a' n') /\
    (allocated m = ∅ -> m = VaMgr_new start size min_align).
Proof.
  intros Hstart Hsize Hend Hal Hops.
  destruct (va_run_specs start (start + size) ops (VaMgr_new start size min_align)) as (rs & m & Hrun & Hwf & Hm & Hs);
    [by apply VaMgr_new_wf|done|]. exists rs, m. split_and!; [done|exact Hs|done| | |].
  - intros a n Hl. by destruct (wf_live_bounds _ _ _ _ _ Hwf Hl).
  - intros. by eapply wf_live_disjoint.
  - intros Hnone. by apply all_freed.
Qed.

(** ** The fixed-address hint *)

Lemma Alloc_search_sound bytes addr cands base f :
  Alloc_search bytes addr cands = Some (base, f) ->
  (base, f) ∈ cands /\ bytes <= frag_size f /\ base <= addr /\ is_free f = true /\
  addr +64 bytes <= base +64 frag_size f.
Proof.
  induction cands as [|[b g] cands IH]; [done|]. simpl. destruct cands as [|c cands]; [done|].
  destruct ((frag_size g <? bytes) || (addr <? b) || (b +64 frag_size g <? addr +64 bytes)
            || negb (is_free g)) eqn:Ec.
  - intros Hs. destruct (IH Hs) as (? & ?). split; [by constructor|done].
  - case_zbool; [done|]. intros. simplify_eq. zbool. split_and!; [constructor|done..].
Qed.

Lemma map_down_from_elem {V} k (m : list (Z * V)) e : e ∈ map_down_from k m <-> e.1 <= k /\ e ∈ m.
Proof. unfold map_down_from. by rewrite elem_of_reverse, list_elem_of_filter. Qed.

(** What the hinted branch does once the search has found a fragment. *)
Definition hint_found (m : VaMgr) (bytes addr base : Z) (f : Fragment) : Prop :=
  0 < addr /\ Alloc_search bytes addr (map_down_from addr (frag_map_ m)) = Some (base, f).

Lemma hint_found_split lo hi m bytes addr base f :
  VaMgr_wf lo hi m -> 0 < bytes < 2 ^ 63 -> addr < 2 ^ 63 -> hint_found m bytes addr base f ->
  base <= addr /\ addr + bytes <= base + frag_size f /\
  exists l1 l2 size, f = mkFragment (Some (size, base)) size true /\
    frag_map_ m = l1 ++ (base, mkFragment (Some (size, base)) size true) :: l2.
Proof.
  intros Hwf Hb Ha [Ha0 (Hin & ? & ? & Hf & Hfit)%Alloc_search_sound].
  apply map_down_from_elem in Hin as [_ Hin].
  pose proof (proj1 (Forall_forall _ _) (wf_frags _ _ _ Hwf) _ Hin) as Hok.
  apply list_elem_of_split in Hin as (l1 & l2 & E).
  destruct (wf_split _ _ _ _ _ _ _ Hwf E) as (_ & ? & _ & _ & _ & ? & ?).
  pose proof (wf_lo _ _ _ Hwf). pose proof (wf_hi _ _ _ Hwf).
  rewrite !add64_small in Hfit by lia. split_and!; [lia|lia|].
  destruct f as [e s fr]. unfold frag_ok, is_free in *. simpl in *. subst. eauto.
Qed.

Lemma VaMgr_Alloc_hinted lo hi m bytes align addr base f :
  VaMgr_wf lo hi m -> 0 < bytes < 2 ^ 63 -> addr < 2 ^ 63 -> (align <> 0 -> addr mod align = 0) ->
  hint_found m bytes addr base f ->
  let m1 := with_free_list (mm_erase (frag_size f, base) (free_list_ m)) m in
  let m2 := with_frag_map (map_set base (set_used (set_size f bytes)) (frag_map_ m1)) m1 in
  let m3 := if base <? addr then add_free_fragment (addr - base) base m2 else m2 in
  VaMgr_Alloc bytes align addr m =
    Some (addr, if addr + bytes <? base + frag_size f
                then add_free_fragment (base + frag_size f - addr - bytes) (addr + bytes) m3 else m3).
Proof.
  intros Hwf Hb Ha Hal Hfound m1 m2 m3.
  destruct (hint_found_split _ _ _ _ _ _ _ Hwf Hb Ha Hfound) as (? & ? & l1 & l2 & size & -> & E).
  destruct (wf_split _ _ _ _ _ _ _ Hwf E) as (_ & ? & _ & _ & _ & ? & ?).
  pose proof (wf_lo _ _ _ Hwf). pose proof (wf_hi _ _ _ Hwf).
  destruct Hfound as [Ha0 Hs]. unfold VaMgr_Alloc. destruct (Z.ltb_spec 0 addr); [|lia].
  assert ((align =? 0) || (addr mod align =? 0) = true) as ->.
  { destruct (Z.eqb_spec align 0); [done|]. simpl. by apply Z.eqb_eq, Hal. }
  cbn [andb]. rewrite Hs. rewrite check_true.
  2:{ apply Alloc_search_sound in Hs as (Hin & _). by destruct (map_down_from _ _); [apply not_elem_of_nil in Hin|]. }
  simpl in *. rewrite !add64_small, (sub64_small addr base) by lia.
  rewrite (sub64_small (base + size)), sub64_small by lia. done.
Qed.

(** A hint that is the base of the free fragment it falls in is honoured: the
    block is placed exactly there and recorded, the invariant is kept. *)
Theorem VaMgr_hint_at_base lo hi m bytes align addr f :
  VaMgr_wf lo hi m -> 0 < bytes < 2 ^ 63 -> addr < 2 ^ 63 -> (align <> 0 -> addr mod align = 0) ->
  hint_found m bytes addr addr f ->
  exists m', VaMgr_Alloc bytes align addr m = Some (addr, m') /\ VaMgr_wf lo hi m' /\
    spec_alloc lo hi bytes align (allocated m) addr (allocated m').
Proof.
  intros Hwf Hb Ha Hal Hf. pose proof (VaMgr_Alloc_hinted _ _ _ _ _ _ _ _ Hwf Hb Ha Hal Hf) as Hrun.
  destruct (hint_found_split _ _ _ _ _ _ _ Hwf Hb Ha Hf) as (? & ? & l1 & l2 & size & -> & E).
  simpl in *. rewrite Z.ltb_irrefl in Hrun. eexists. split; [exact Hrun|].
  pose proof (wf_lo _ _ _ Hwf). pose proof (wf_hi _ _ _ Hwf).
  destruct (wf_split _ _ _ _ _ _ _ Hwf E) as (_ & ? & _ & _ & _ & ? & ?). simpl in *.
  assert (0 < bytes <= size) as Hbs by lia.
  pose proof (carve_at_base _ _ _ _ _ _ _ bytes Hwf Hbs E) as Hc. cbv zeta in Hc.
  assert ((bytes <? size) = (addr + bytes <? addr + size)) as Heq by (repeat case_zbool; lia).
  rewrite Heq in Hc. unfold add_free_fragment at 1 in Hc.
  rewrite sub64_small, add64_small in Hc by lia.
  replace (addr + size - addr - bytes) with (size - bytes) by lia.
  assert (0 < bytes) as Hb0 by lia. split; [exact (carved_wf _ _ _ _ _ _ _ _ _ _ Hwf Hb0 Hc)|].
  right. destruct (allocated_carved _ _ _ _ _ _ _ _ _ _ Hwf Hb0 Hc) as (? & ? & ? & ?). done.
Qed.

(** A hint strictly inside a free fragment is answered, but the block is not
    recorded: no fragment starts at the returned address, the live blocks are
    what they were, and freeing the address is a no-op. *)
Theorem VaMgr_hint_unrecorded lo hi m bytes align addr base f :
  VaMgr_wf lo hi m -> 0 < bytes < 2 ^ 63 -> addr < 2 ^ 63 -> (align <> 0 -> addr mod align = 0) ->
  hint_found m bytes addr base f -> base < addr ->
  exists m', VaMgr_Alloc bytes align addr m = Some (addr, m') /\
    map_find addr (frag_map_ m') = None /\ allocated m' = allocated m /\ VaMgr_Free addr m' = m'.
Proof.
  intros Hwf Hb Ha Hal Hf Hlt. pose proof (VaMgr_Alloc_hinted _ _ _ _ _ _ _ _ Hwf Hb Ha Hal Hf) as Hrun.
  destruct (hint_found_split _ _ _ _ _ _ _ Hwf Hb Ha Hf) as (? & ? & l1 & l2 & size & -> & E).
  cbv zeta in Hrun. rewrite (proj2 (Z.ltb_lt _ _) Hlt) in Hrun. simpl in *.
  eexists. split; [exact Hrun|]. clear Hrun.
  pose proof (wf_lo _ _ _ Hwf). pose proof (wf_hi _ _ _ Hwf).
  destruct (wf_split _ _ _ _ _ _ _ Hwf E) as (_ & ? & Ht2 & Hk1 & Hk2 & ? & ?). simpl in *.
  set (m2 := with_frag_map _ _).
  assert (frag_map_ m2 = l1 ++ (base, set_used (set_size (mkFragment (Some (size, base)) size true) bytes)) :: l2)
    as E2 by (subst m2; simpl; by rewrite E, map_set_mid).
  pose proof (add_free_fragment_over (addr - base) base _ _ _ _ E2 Hk1 ltac:(lia)) as E3.
  set (m3 := add_free_fragment (addr - base) base m2) in *. clearbody m3.
  set (m4 := if _ : bool then _ else _).
  assert (frag_map_ m4 = (l1 ++ free_piece base addr) ++ free_piece (addr + bytes) (base + size) ++ l2) as E4.
  { subst m4. rewrite free_piece_lt, <- app_assoc by lia. cbn [app].
    destruct (Z.ltb_spec (addr + bytes) (base + size)).
    - erewrite (add_free_fragment_new _ _ _ (l1 ++ [_]) l2); [|by rewrite E3, app_cons_snoc| |eapply tiles_keys_gt; [exact Ht2|lia]|lia].
      + rewrite free_piece_lt by lia. rewrite <- app_assoc.
        by replace (base + size - addr - bytes) with (base + size - (addr + bytes)) by lia.
      + apply keys_lt_app. split; [|repeat constructor; simpl; lia]. eapply Forall_impl; [exact Hk1|]. simpl. lia.
    - by rewrite E3, free_piece_ge by lia. }
  assert (map_find addr (frag_map_ m4) = None) as Hnone.
  { rewrite E4. apply map_find_None.
    - apply keys_lt_app. split; [eapply Forall_impl; [exact Hk1|]; simpl; lia|].
      rewrite free_piece_lt by lia. repeat constructor; simpl; lia.
    - apply keys_gt_app. split; [unfold free_piece; case_zbool; repeat constructor; simpl; lia|].
      eapply tiles_keys_gt; [exact Ht2|lia]. }
  split_and!; [done| |by apply VaMgr_Free_noop; rewrite Hnone].
  unfold allocated. rewrite E4, E, !omap_app, !omap_used_free_piece. cbn. by rewrite app_nil_r.
Qed.

(** On a fresh manager every hint is ignored: the walk stops before trying the
    first fragment, so the call is the un-hinted one. *)
Theorem VaMgr_fresh_hint_ignored start size min_align bytes align addr :
  start <= addr ->
  VaMgr_Alloc bytes align addr (VaMgr_new start size min_align) =
  VaMgr_AllocImpl bytes align (VaMgr_new start size min_align).
Proof.
  intros Hle. unfold VaMgr_Alloc. destruct (_ && _); [|done].
  assert (map_down_from addr (frag_map_ (VaMgr_new start size min_align)) =
          frag_map_ (VaMgr_new start size min_align)) as ->.
  { unfold map_down_from, VaMgr_new. cbn [frag_map_]. rewrite filter_cons_True by done. done. }
  done.
Qed.

(** The manager of the examples: a megabyte at 0x1000. *)
Definition demo_mgr : VaMgr := VaMgr_new 0x1000 0x100000 0x1000.

Lemma demo_mgr_wf : VaMgr_wf 0x1000 0x101000 demo_mgr.
Proof. by apply (VaMgr_new_wf 0x1000 0x100000 0x1000). Qed.

(** Allocate; allocate at the hint 0x10000; fill the hole below it; free that; allocate again. *)
Definition hint_history : option (Z * Z) :=
  p1 ← VaMgr_Alloc 0x1000 0 0 demo_mgr;
  p2 ← VaMgr_Alloc 0x1000 0 0x10000 p1.2;
  p3 ← VaMgr_Alloc 0xE000 0 0 p2.2;
  p4 ← VaMgr_Alloc 0x10000 0 0 (VaMgr_Free p3.1 p3.2);
  Some (p2.1, p4.1).

(** A hint inside a free fragment leads to double allocation: in this history
    the hinted block [0x10000, 0x11000) is still held when a later call is given
    [0x2000, 0x12000), because [Free] merges over the unrecorded gap. *)
Theorem VaMgr_hint_double_allocation :
  exists hinted later, hint_history = Some (hinted, later) /\
    ~ block_disjoint hinted 0x1000 later 0x10000.
Proof. exists 0x10000, 0x2000. split; [by vm_compute|]. unfold block_disjoint. lia. Qed.

(** ** The theorems at concrete inputs *)

Lemma VaMgr_AllocImpl_refines_witness :
  exists r m', VaMgr_AllocImpl 0x3000 0x2000 demo_mgr = Some (r, m') /\ VaMgr_wf 0x1000 0x101000 m' /\
    spec_alloc 0x1000 0x101000 0x3000 0x2000 (allocated demo_mgr) r (allocated m').
Proof. apply (VaMgr_AllocImpl_refines _ _ _ _ _ demo_mgr_wf); lia. Defined.

Lemma VaMgr_Free_refines_witness :
  VaMgr_wf 0x1000 0x101000 (VaMgr_Free 0x2000 demo_mgr) /\
  spec_free 0x2000 (allocated demo_mgr) (allocated (VaMgr_Free 0x2000 demo_mgr)) /\
  (allocated demo_mgr !! 0x2000 = None -> VaMgr_Free 0x2000 demo_mgr = demo_mgr).
Proof. apply (VaMgr_Free_refines _ _ _ _ demo_mgr_wf). Defined.

Lemma VaMgr_AllocImpl_finds_witness :
  exists r m', VaMgr_AllocImpl 0x3000 0x2000 demo_mgr = Some (r, m') /\ r <> 0 /\
    allocated m' !! r = Some 0x3000.
Proof.
  apply (VaMgr_AllocImpl_finds _ _ _ _ _ (0x100000, 0x1000) demo_mgr_wf); [lia|lia| |].
  - vm_compute. constructor.
  - by vm_compute.
Defined.

Definition demo_alloc : Z * VaMgr :=
  match VaMgr_AllocImpl 0x3000 0x2000 demo_mgr with Some p => p | None => (0, demo_mgr) end.

Lemma VaMgr_alloc_free_roundtrip_witness :
  frag_map_ (VaMgr_Free demo_alloc.1 demo_alloc.2) = frag_map_ demo_mgr /\
  free_list_ (VaMgr_Free demo_alloc.1 demo_alloc.2) ≡ₚ free_list_ demo_mgr.
Proof.
  apply (VaMgr_alloc_free_roundtrip _ _ _ 0x3000 0x2000 _ _ demo_mgr_wf); [lia|lia|by vm_compute|].
  by vm_compute.
Defined.

Definition demo_history : list va_op := [OpAlloc 0x3000 0x2000; OpAlloc 0x1000 0; OpFree 0x2000; OpAlloc 0x200000 0; OpFree 0x1000].

Lemma VaMgr_history_safe_witness :
  exists m, va_run (VaMgr_new 0x1000 0x100000 0x1000) demo_history = Some ([0x2000; 0x1000; 0; 0; 0], m) /\
    va_specs 0x1000 (0x1000 + 0x100000) 0x1000 ∅ demo_history [0x2000; 0x1000; 0; 0; 0] (allocated m) /\
    m = VaMgr_new 0x1000 0x100000 0x1000.
Proof.
  destruct (VaMgr_history_safe 0x1000 0x100000 0x1000 demo_history) as (rs & m & Hrun & Hs & _ & _ & _ & Hnew);
    [lia|lia|lia|lia|repeat constructor; simpl; lia|].
  assert (fst <$> va_run (VaMgr_new 0x1000 0x100000 0x1000) demo_history = Some [0x2000; 0x1000; 0; 0; 0]) as Hrs by (vm_compute; reflexivity).
  assert (allocated <$> (snd <$> va_run (VaMgr_new 0x1000 0x100000 0x1000) demo_history) = Some ∅) as Hm by (vm_compute; reflexivity).
  rewrite Hrun in Hrs, Hm. injection Hrs as ->. injection Hm as Hm. exists m. split_and!; [exact Hrun|exact Hs|exact (Hnew Hm)].
Defined.

(** The manager after a first allocation: the free part is no longer the first fragment. *)
Definition demo_used : VaMgr :=
  match VaMgr_AllocImpl 0x1000 0 demo_mgr with Some p => p.2 | None => demo_mgr end.

Lemma demo_used_wf : VaMgr_wf 0x1000 0x101000 demo_used.
Proof.
  destruct (AllocImpl_wf _ _ _ 0x1000 0 demo_mgr_wf) as (r & m' & Hrun & Hwf); [lia|lia|].
  unfold demo_used. by rewrite Hrun.
Qed.

Lemma VaMgr_hint_at_base_witness :
  exists m', VaMgr_Alloc 0x1000 0x1000 0x2000 demo_used = Some (0x2000, m') /\
    VaMgr_wf 0x1000 0x101000 m' /\
    spec_alloc 0x1000 0x101000 0x1000 0x1000 (allocated demo_used) 0x2000 (allocated m').
Proof.
  apply (VaMgr_hint_at_base _ _ _ _ _ _ (mkFragment (Some (0xFF000, 0x2000)) 0xFF000 true) demo_used_wf);
    [lia|lia|done|]. split; [lia|by vm_compute].
Defined.

Lemma VaMgr_hint_unrecorded_witness :
  exists m', VaMgr_Alloc 0x1000 0x1000 0x10000 demo_used = Some (0x10000, m') /\
    map_find 0x10000 (frag_map_ m') = None /\ allocated m' = allocated demo_used /\
    VaMgr_Free 0x10000 m' = m'.
Proof.
  apply (VaMgr_hint_unrecorded 0x1000 0x101000 _ _ _ _ 0x2000
           (mkFragment (Some (0xFF000, 0x2000)) 0xFF000 true) demo_used_wf);
    [lia|lia|done| |lia]. split; [lia|by vm_compute].
Defined.

Lemma VaMgr_fresh_hint_ignored_witness :
  VaMgr_Alloc 0x1000 0 0x10000 (VaMgr_new 0x1000 0x100000 0x1000) =
  VaMgr_AllocImpl 0x1000 0 (VaMgr_new 0x1000 0x100000 0x1000).
Proof. apply VaMgr_fresh_hint_ignored. lia. Defined.
