(* ===== verification/SimpleHeap.v ===== *)
(** * SimpleHeap: the sub-allocator for small local memory (util/simple_heap.h)

    [SimpleHeap<Allocator>] cuts blocks obtained from a block allocator into
    fragments. The template parameter is the class [BlockAllocator]; its state
    [A] is threaded through the operations that call it. [None] is a failed
    [assert] or a dereference of [end()]. *)

From S2P Require Import Prelude.
From S2P Require Import StdMap.
From S2P Require Import Utils.

(** ** The template parameter *)

(** [alloc(bytes, size)] returns the pointer ([0] is [nullptr]) and the size of
    the block; [free] has no result. Either may abort. *)
Class BlockAllocator (A : Type) := {
  ba_alloc : Z -> A -> option (Z * Z * A);
  ba_free : Z -> Z -> A -> option A;
  ba_block_size : Z;
}.

(** ** Data *)

Record Fragment_T := mkFragment_T {
  ft_entry : option (Z * Z);   (* free_list_entry_; [None] is [free_list_.end()] *)
  ft_size : Z;                 (* size : 62 *)
  ft_discard : bool;
  ft_free : bool;
}.

Record Block := mkBlock { base_ptr_ : Z; length_ : Z }.

Record SimpleHeap := mkSimpleHeap {
  sh_free_list : list (Z * Z);                       (* multimap: size -> address *)
  sh_block_list : list (Z * list (Z * Fragment_T));  (* map: block -> fragments by address *)
  sh_block_cache : list Block;                       (* deque, front first *)
  sh_in_use_size : Z;
  sh_cache_size : Z;
}.

Definition SimpleHeap_new : SimpleHeap := mkSimpleHeap [] [] [] 0 0.

Definition sh_set_free_list l h :=
  mkSimpleHeap l (sh_block_list h) (sh_block_cache h) (sh_in_use_size h) (sh_cache_size h).
Definition sh_set_blocks l h :=
  mkSimpleHeap (sh_free_list h) l (sh_block_cache h) (sh_in_use_size h) (sh_cache_size h).
Definition sh_set_cache l n h :=
  mkSimpleHeap (sh_free_list h) (sh_block_list h) l (sh_in_use_size h) n.
Definition sh_set_in_use n h :=
  mkSimpleHeap (sh_free_list h) (sh_block_list h) (sh_block_cache h) n (sh_cache_size h).

Definition ft_used (n : Z) : Fragment_T := mkFragment_T None (wrap 62 n) false false.
Definition ft_make (it : Z * Z) (n : Z) : Fragment_T := mkFragment_T (Some it) (wrap 62 n) false true.
Definition ft_set_used (f : Fragment_T) : Fragment_T :=
  mkFragment_T None (ft_size f) (ft_discard f) false.
Definition ft_set_free (f : Fragment_T) (it : Z * Z) : Fragment_T :=
  mkFragment_T (Some it) (ft_size f) (ft_discard f) true.
Definition ft_set_size (f : Fragment_T) (n : Z) : Fragment_T :=
  mkFragment_T (ft_entry f) (wrap 62 n) (ft_discard f) (ft_free f).

Definition removeFreeListEntry (l : list (Z * Z)) (f : Fragment_T) : list (Z * Z) * Fragment_T :=
  match ft_entry f with
  | Some e => (mm_erase e l, mkFragment_T None (ft_size f) (ft_discard f) (ft_free f))
  | None => (l, f)
  end.

Definition sh_discard (l : list (Z * Z)) (f : Fragment_T) : list (Z * Z) * Fragment_T :=
  let '(l', f') := removeFreeListEntry l f in
  (l', mkFragment_T (ft_entry f') (ft_size f') true (ft_free f')).

(** [free_list_.insert({n, b}); frag_map[b] = makeFragment(it, n)] *)
Definition sh_add_free (b n : Z) (fl : list (Z * Z)) (fm : list (Z * Fragment_T)) :=
  (mm_insert n b fl, map_set b (ft_make (n, b) n) fm).

(** ** Allocation *)

Section alloc_loop.
Context (bytes align : Z).

(** The body of the search loop in iteration [i]. The result is the address
    returned from inside the loop, or [None] when the loop ends without one. *)
Fixpoint alloc_loop (fuel : nat) (i align_bytes : Z) (h : SimpleHeap)
    : option (option Z * SimpleHeap) :=
  match fuel with
  | O => Some (None, h)
  | S fuel =>
      match mm_lower_bound align_bytes (sh_free_list h) with
      | None => Some (None, h)
      | Some (size, addr) =>
          check (bytes <=? size) ;;
          '(blk, frag_map) ← map_floor addr (sh_block_list h);
          fragment ← map_find addr frag_map;
          check (size =? ft_size fragment) ;;
          let delta := Z.land addr (align - 1) in
          if delta =? 0 then
            let fl := mm_erase (size, addr) (sh_free_list h) in
            let fm := map_set addr (ft_set_used (ft_set_size fragment bytes)) frag_map in
            let '(fl', fm') := if bytes <? size
                               then sh_add_free (addr +64 bytes) (size -64 bytes) fl fm
                               else (fl, fm) in
            Some (Some addr, sh_set_blocks (map_set blk fm' (sh_block_list h)) (sh_set_free_list fl' h))
          else if (i =? 0) && (size <? bytes +64 align -64 delta) then
            alloc_loop fuel (i + 1) (align_bytes +64 align) h
          else
            let aligned_base := addr +64 align -64 delta in
            let fl := mm_erase (size, addr) (sh_free_list h) in
            let '(fl1, fm1) := sh_add_free addr (aligned_base -64 addr) fl frag_map in
            let fm2 := map_set aligned_base (ft_used bytes) fm1 in
            let '(fl3, fm3) :=
              if aligned_base -64 addr +64 bytes <? size
              then sh_add_free (aligned_base +64 bytes) (size -64 (aligned_base -64 addr) -64 bytes) fl1 fm2
              else (fl1, fm2) in
            Some (Some aligned_base,
                  sh_set_blocks (map_set blk fm3 (sh_block_list h)) (sh_set_free_list fl3 h))
      end
  end.
End alloc_loop.

(** [block_list_\[base\]], created empty when absent. *)
Definition block_at (base : Z) (h : SimpleHeap) : list (Z * Fragment_T) :=
  default [] (map_find base (sh_block_list h)).

(** [for (auto& frag : frag_map) { discard(frag); size += frag.size; }] *)
Fixpoint discard_all (l : list (Z * Z)) (fm : list (Z * Fragment_T)) (size : Z)
    : list (Z * Z) * list (Z * Fragment_T) * Z :=
  match fm with
  | [] => (l, [], size)
  | (k, f) :: fm =>
      let '(l', f') := sh_discard l f in
      let '(l'', fm', size') := discard_all l' fm (size +64 ft_size f') in
      (l'', (k, f') :: fm', size')
  end.

Section with_allocator.
Context `{BlockAllocator A}.

(** The loop of [balance]: what is left of the cache, its size, the allocator. *)
Fixpoint balance_loop (cache : list Block) (cache_size in_use : Z) (a : A)
    : option (list Block * Z * A) :=
  match cache with
  | b :: ((_ :: _) as rest) =>
      if in_use *64 2 <? cache_size then
        a' ← ba_free (base_ptr_ b) (length_ b) a;
        balance_loop rest (cache_size -64 length_ b) in_use a'
      else Some (cache, cache_size, a)
  | _ => Some (cache, cache_size, a)
  end.

Definition SimpleHeap_balance (h : SimpleHeap) (a : A) : option (SimpleHeap * A) :=
  '(cache, n, a') ← balance_loop (sh_block_cache h) (sh_cache_size h) (sh_in_use_size h) a;
  Some (sh_set_cache cache n h, a').

Definition SimpleHeap_discardBlock (base : Z) (h : SimpleHeap) (a : A)
    : option (bool * SimpleHeap * A) :=
  if base =? 0 then Some (true, h, a)
  else
    match map_floor base (sh_block_list h) with
    | None => Some (false, h, a)
    | Some (blk, frag_map) =>
        '(first_k, first_f) ← head frag_map;
        '(last_k, last_f) ← last frag_map;
        if (base <? first_k) || (last_k +64 ft_size last_f <=? base) then Some (false, h, a)
        else if ft_discard first_f then Some (true, h, a)
        else
          let '(fl, fm, size) := discard_all (sh_free_list h) frag_map 0 in
          let h1 := sh_set_blocks (map_set blk fm (sh_block_list h)) (sh_set_free_list fl h) in
          '(h2, a2) ← SimpleHeap_balance (sh_set_in_use (sh_in_use_size h -64 size) h1) a;
          Some (true, h2, a2)
    end.

Definition SimpleHeap_alloc (bytes : Z) (h : SimpleHeap) (a : A) : option (Z * SimpleHeap * A) :=
  let retry := if GPU_HUGE_PAGE_SIZE <=? bytes then 1%nat else 0%nat in
  let align := if GPU_HUGE_PAGE_SIZE <=? bytes then GPU_HUGE_PAGE_SIZE else DEFAULT_GPU_PAGE_SIZE in
  '(found, h0) ← alloc_loop bytes align (S retry) 0 bytes h;
  match found with
  | Some base => Some (base, h0, a)
  | None =>
      let new_block :=
        '(ptr, size, a') ← ba_alloc bytes a;
        Some (if ptr =? 0 then None else Some (ptr, size), h0, a') in
      '(got, h1, a1) ←
        match last (sh_block_cache h0) with
        | Some block =>
            if bytes <? ba_block_size then
              Some (Some (base_ptr_ block, length_ block),
                    sh_set_cache (removelast (sh_block_cache h0)) (sh_cache_size h0 -64 length_ block) h0, a)
            else new_block
        | None => new_block
        end;
      match got with
      | None => Some (0, h1, a1)
      | Some (base, size) =>
        let h2 := sh_set_in_use (sh_in_use_size h1 +64 size) h1 in
        check (bytes <=? size) ;;
        let h3 := if bytes <? size then
                    let '(fl, fm) := sh_add_free (base +64 bytes) (size -64 bytes) (sh_free_list h2)
                                       (block_at base h2) in
                    sh_set_blocks (map_set base fm (sh_block_list h2)) (sh_set_free_list fl h2)
                  else h2 in
        let h4 := sh_set_blocks
                    (map_set base (map_set base (ft_used bytes) (block_at base h3)) (sh_block_list h3)) h3 in
        if ba_block_size <? bytes then
          '(err, h5, a5) ← SimpleHeap_discardBlock base h4 a1;
          check err ;;
          Some (base, h5, a5)
        else Some (base, h4, a1)
      end
  end.

(** ** Release *)

(** The two merges of [free]: the fragment is the key [it] with its data [f]. *)
Definition sh_merge_lower (it : Z) (f : Fragment_T) (fl : list (Z * Z)) (fm : list (Z * Fragment_T)) :=
  match map_prev it fm with
  | Some (lit, lower) =>
      if ft_free lower then
        let '(fl', lower') := removeFreeListEntry fl lower in
        let merged := ft_set_size lower' (ft_size lower' + ft_size f) in
        (lit, merged, fl', map_erase it (map_set lit merged fm))
      else (it, f, fl, fm)
  | None => (it, f, fl, fm)
  end.

Definition sh_merge_upper (it : Z) (f : Fragment_T) (fl : list (Z * Z)) (fm : list (Z * Fragment_T)) :=
  match map_next it fm with
  | Some (uit, upper) =>
      if ft_free upper then
        let '(fl', upper') := removeFreeListEntry fl upper in
        let merged := ft_set_size f (ft_size f + ft_size upper') in
        (merged, fl', map_erase uit (map_set it merged fm))
      else (f, fl, fm)
  | None => (f, fl, fm)
  end.

Definition SimpleHeap_free (ptr : Z) (h : SimpleHeap) (a : A) : option (bool * SimpleHeap * A) :=
  if ptr =? 0 then Some (true, h, a)
  else
    match map_floor ptr (sh_block_list h) with
    | None => Some (false, h, a)
    | Some (blk, frag_map) =>
        match map_find ptr frag_map with
        | None => Some (false, h, a)
        | Some fragment =>
            if ft_free fragment then Some (false, h, a)
            else
              let discard := ft_discard fragment in
              let '(it, f1, fl1, fm1) := sh_merge_lower ptr fragment (sh_free_list h) frag_map in
              let '(f2, fl2, fm2) := sh_merge_upper it f1 fl1 fm1 in
              if Nat.eqb (length fm2) 1 then
                let block := mkBlock it (ft_size f2) in
                let h1 := sh_set_blocks (map_erase blk (sh_block_list h)) (sh_set_free_list fl2 h) in
                '(h2, a2) ←
                  (if discard then
                     a' ← ba_free (base_ptr_ block) (length_ block) a; Some (h1, a')
                   else
                     Some (sh_set_in_use (sh_in_use_size h1 -64 length_ block)
                             (sh_set_cache (sh_block_cache h1 ++ [block])
                                (sh_cache_size h1 +64 length_ block) h1), a));
                '(h3, a3) ← SimpleHeap_balance h2 a2;
                Some (true, h3, a3)
              else if discard then
                Some (true, sh_set_blocks (map_set blk fm2 (sh_block_list h)) (sh_set_free_list fl2 h), a)
              else
                let size := ft_size f2 in
                let fm3 := map_set it (ft_set_free f2 (size, it)) fm2 in
                Some (true, sh_set_blocks (map_set blk fm3 (sh_block_list h))
                              (sh_set_free_list (mm_insert size it fl2) h), a)
        end
    end.

(** ** Queries and whole-heap operations *)

Definition SimpleHeap_block_base (ptr : Z) (h : SimpleHeap) : Z :=
  if ptr =? 0 then 0
  else
    match map_floor ptr (sh_block_list h) with
    | None => 0
    | Some (blk, frag_map) =>
        match map_find ptr frag_map with
        | None => 0
        | Some fragment => if ft_free fragment then 0 else blk
        end
    end.

Definition SimpleHeap_reset (h : SimpleHeap) : SimpleHeap := mkSimpleHeap [] [] [] 0 0.

Fixpoint free_blocks (l : list Block) (a : A) : option A :=
  match l with
  | [] => Some a
  | b :: l => a' ← ba_free (base_ptr_ b) (length_ b) a; free_blocks l a'
  end.

Definition SimpleHeap_trim (h : SimpleHeap) (a : A) : option (SimpleHeap * A) :=
  a' ← free_blocks (sh_block_cache h) a;
  Some (sh_set_cache [] 0 h, a').
End with_allocator.
