(* ===== verification/SmallHeap.v ===== *)
(** * SmallHeap: the first-fit allocator (util/small_heap.h, small_heap.cpp)

    A map from addresses to nodes covers the pool, with a guard at either end of the
    address space; the free nodes are a list linked in both directions by iterators, the
    used ones have the guard at the start for their [next]. An assertion that fails, and an
    iterator dereferenced that points to no node, is [None]. *)

From S2P Require Import Prelude.
From S2P Require Import StdMap.
#[local] Open Scope Z_scope.

(** An iterator of the map: at a node, [end()], or one never assigned. *)
Inductive iterator_t := At (key : Z) | End | Singular.
#[export] Instance iterator_t_eq : EqDecision iterator_t.
Proof. solve_decision. Defined.

Record Node := mkNode { len : Z; next : iterator_t; prior : iterator_t }.
Abbreviation memory_t := (list (Z * Node)).

Definition n_set_len v n := mkNode v (next n) (prior n).
Definition n_set_next it n := mkNode (len n) it (prior n).
Definition n_set_prior it n := mkNode (len n) (next n) it.

(** The addresses handed out by [alloc_high], a set, are the keys of a map. *)
Record SmallHeap := mkSmallHeap {
  pool : Z;
  length_ : Z;
  total_free : Z;
  memory : memory_t;
  high : list (Z * unit);
}.

Definition sm_set_free v h := mkSmallHeap (pool h) (length_ h) v (memory h) (high h).
Definition sm_set_memory m h := mkSmallHeap (pool h) (length_ h) (total_free h) m (high h).
Definition sm_set_high l h := mkSmallHeap (pool h) (length_ h) (total_free h) (memory h) l.

(** [(void* )0xFFFFFFFFFFFFFFFFull] *)
Definition top_address : Z := 0xFFFFFFFFFFFFFFFF.

(** ** Iterators and nodes *)

Definition begin_ (m : memory_t) : iterator_t := match m with [] => End | e :: _ => At e.1 end.
Definition deref (m : memory_t) (it : iterator_t) : option Node := match it with At k => map_find k m | _ => None end.

(** [it->second = f(it->second)] *)
Definition update (it : iterator_t) (f : Node -> Node) (m : memory_t) : option memory_t :=
  match it with At k => n ← map_find k m; Some (map_set k (f n) m) | _ => None end.

(** [memory[k]]: a node is made where there is none. *)
Definition subscript (k : Z) (m : memory_t) : memory_t :=
  match map_find k m with Some _ => m | None => map_set k (mkNode 0 Singular Singular) m end.

Definition isfree (m : memory_t) (n : Node) : bool := negb (bool_decide (next n = begin_ m)).
Definition islastfree (n : Node) : bool := bool_decide (next n = End).
Definition isfirstfree (n : Node) : bool := bool_decide (prior n = End).
Definition setlastfree (n : Node) : Node := n_set_next End n.
Definition setfirstfree (n : Node) : Node := n_set_prior End n.
Definition setused (m : memory_t) (n : Node) : Node := n_set_next (begin_ m) n.

Definition firstfree (m : memory_t) : option iterator_t := next <$> deref m (begin_ m).
Definition lastfree (m : memory_t) : option iterator_t := (fun e => prior e.2) <$> last m.

(** ** The free list *)

Definition insertafter (place node : Z) (m : memory_t) : option memory_t :=
  check (place <? node) ;;
  p ← map_find place m;
  check (isfree m p) ;;
  m ← update (At node) (fun n => n_set_prior (At place) (n_set_next (next p) n)) m;
  m ← update (At place) (n_set_next (At node)) m;
  update (next p) (n_set_prior (At node)) m.

Definition remove (node : Z) (m : memory_t) : option memory_t :=
  n ← map_find node m;
  check (isfree m n) ;;
  m ← update (prior n) (n_set_next (next n)) m;
  m ← update (next n) (n_set_prior (prior n)) m;
  update (At node) (setused m) m.

(** The merged node, or [high] where the two do not meet. *)
Definition merge (low high : Z) (m : memory_t) : option (Z * memory_t) :=
  l ← map_find low m;
  h ← map_find high m;
  check (isfree m l) ;;
  check (isfree m h) ;;
  if negb (low +64 len l =? high) then Some (high, m)
  else
    check (negb (islastfree h)) ;;
    m ← update (At low) (fun l => n_set_next (next h) (n_set_len (len l +64 len h) l)) m;
    m ← update (next h) (n_set_prior (At low)) m;
    Some (low, map_erase high m).

(** ** Operations *)

Definition SmallHeap_default : SmallHeap := mkSmallHeap 0 0 0 [] [].

Definition SmallHeap_new (base length : Z) : option SmallHeap :=
  check (negb (base =? 0)) ;;
  check (negb (base =? top_address)) ;;
  check (negb (base +64 length =? top_address)) ;;
  let m := subscript top_address (subscript base (subscript 0 [])) in
  m ← update (At 0) (fun n => setfirstfree (n_set_next (At base) (n_set_len 0 n))) m;
  back ← last m;
  m ← update (At base) (fun n => n_set_next (At back.1) (n_set_prior (begin_ m) (n_set_len length n))) m;
  m ← update (At top_address) (fun n => setlastfree (n_set_prior (At base) (n_set_len 0 n))) m;
  Some (mkSmallHeap base length length m (map_set top_address tt [])).

(** [before--] until the node is free. *)
Fixpoint free_before (fuel : nat) (m : memory_t) (k : Z) : option (Z * Node) :=
  match fuel with
  | O => None
  | S fuel => e ← map_prev k m; if isfree m e.2 then Some e else free_before fuel m e.1
  end.

Definition free (ptr : Z) (h : SmallHeap) : option SmallHeap :=
  if ptr =? 0 then Some h
  else
    n ← map_find ptr (memory h);
    before ← free_before (length (memory h)) (memory h) ptr;
    check (match next before.2 with At k => ptr <? k | _ => false end) ;;
    m ← insertafter before.1 ptr (memory h);
    '(it, m) ← merge before.1 ptr m;
    n' ← map_find it m;
    '(_, m) ← match next n' with At k => merge it k m | _ => None end;
    Some (mkSmallHeap (pool h) (length_ h) (total_free h +64 len n) m (map_erase ptr (high h))).

(** The node at [current] is taken, what it has too much becomes a node of its own. *)
Definition alloc_at (bytes current : Z) (n : Node) (h : SmallHeap) : option (Z * SmallHeap) :=
  m ← (if negb (bytes =? len n) then
         let remaining := current +64 bytes in
         m ← update (At remaining) (n_set_len (len n -64 bytes)) (subscript remaining (memory h));
         m ← update (At current) (n_set_len bytes) m;
         insertafter current remaining m
       else Some (memory h));
  m ← remove current m;
  Some (current, sm_set_memory m (sm_set_free (total_free h -64 bytes) h)).

Fixpoint alloc_walk (fuel : nat) (bytes : Z) (current : iterator_t) (h : SmallHeap) : option (Z * SmallHeap) :=
  match fuel with
  | O => None
  | S fuel =>
      n ← deref (memory h) current;
      if islastfree n then check (len n =? 0) ;; Some (0, h)
      else
        match current with
        | At k => if bytes <=? len n then alloc_at bytes k n h else alloc_walk fuel bytes (next n) h
        | _ => None
        end
  end.

Definition alloc (bytes : Z) (h : SmallHeap) : option (Z * SmallHeap) :=
  if (total_free h <? bytes) || (bytes =? 0) then Some (0, h)
  else first ← firstfree (memory h); alloc_walk (length (memory h)) bytes first h.

(** The end of the node at [current] is taken. *)
Definition alloc_high_at (bytes current : Z) (n : Node) (h : SmallHeap) : option (Z * SmallHeap) :=
  '(a, m) ← (if negb (bytes =? len n) then
               let a := current +64 len n -64 bytes in
               m ← update (At current) (n_set_len (len n -64 bytes)) (memory h);
               m ← update (At a) (n_set_len bytes) (subscript a m);
               m ← update (At a) (setused m) m;
               Some (a, m)
             else m ← remove current (memory h); Some (current, m));
  Some (a, mkSmallHeap (pool h) (length_ h) (total_free h -64 bytes) m (map_set a tt (high h))).

Fixpoint alloc_high_walk (fuel : nat) (bytes : Z) (current : iterator_t) (h : SmallHeap) : option (Z * SmallHeap) :=
  match fuel with
  | O => None
  | S fuel =>
      n ← deref (memory h) current;
      if isfirstfree n then check (len n =? 0) ;; Some (0, h)
      else
        match current with
        | At k => if bytes <=? len n then alloc_high_at bytes k n h else alloc_high_walk fuel bytes (prior n) h
        | _ => None
        end
  end.

Definition alloc_high (bytes : Z) (h : SmallHeap) : option (Z * SmallHeap) :=
  if (total_free h <? bytes) || (bytes =? 0) then Some (0, h)
  else last ← lastfree (memory h); alloc_high_walk (length (memory h)) bytes last h.

Definition base (h : SmallHeap) : Z := pool h.
Definition size (h : SmallHeap) : Z := length_ h.
Definition remaining (h : SmallHeap) : Z := total_free h.
(** [*high.begin()] *)
Definition high_split (h : SmallHeap) : option Z := fst <$> head (high h).

(** ** A history *)

Example SmallHeap_example :
  (h ← SmallHeap_new 0x1000 0x100;
   '(a, h) ← alloc 0x10 h; '(b, h) ← alloc_high 0x20 h; '(c, h) ← alloc 0x30 h;
   h ← free a h; '(d, h) ← alloc 0x11 h; '(e, h) ← alloc 0x10 h; h ← free c h; h ← free d h;
   Some ([a; b; c; d; e], remaining h, high_split h, (fun x => (x.1, len x.2)) <$> memory h)) =
  Some ([0x1000; 0x10e0; 0x1010; 0x1040; 0x1000], 0xd0, Some 0x10e0, [(0, 0); (0x1000, 0x10); (0x1010, 0xd0); (0x10e0, 0x20); (top_address, 0)]).
Proof. vm_compute. reflexivity. Qed.
