(* ===== verification/SmallHeapLayout.v ===== *)
(** * SmallHeapLayout: the map of the first-fit allocator as a list of blocks

    The free list in both directions, the blocks between the guards and the room they tile,
    and what the steps of SmallHeap.v do to them. *)

From stdpp Require Import gmap.
From S2P Require Import Prelude.
From S2P Require Import StdMap.
From S2P Require Import SmallHeap.
#[local] Open Scope Z_scope.

(** ** Maps as lists around a node *)

Definition asc (m : memory_t) : Prop := StronglySorted Z.lt m.*1.

Ltac flat := repeat first [rewrite <-app_assoc | rewrite <-app_comm_cons].
Ltac keys := unfold asc in *; rewrite ?fmap_app, ?fmap_cons, ?fmap_app, ?fmap_cons, ?fmap_app, ?fmap_cons in *; cbn [fst] in *;
  repeat first [rewrite <-app_assoc in * | rewrite <-app_comm_cons in *].

Lemma keys_gt_keys k (m : memory_t) : keys_gt k m <-> Forall (Z.lt k) m.*1.
Proof. rewrite Forall_fmap. done. Qed.
Lemma keys_lt_keys k (m : memory_t) : keys_lt k m <-> Forall (fun k' => k' < k) m.*1.
Proof. rewrite Forall_fmap. done. Qed.

Lemma asc_mid m1 k n m2 : asc (m1 ++ (k, n) :: m2) -> keys_lt k m1 /\ keys_gt k m2.
Proof.
  unfold asc. induction m1 as [|[k' n'] m1 IH]; cbn [app fst fmap list_fmap].
  - intros [_ H]%StronglySorted_inv. split; [constructor|]. unfold keys_gt. rewrite Forall_fmap in H. exact H.
  - intros [Hs H]%StronglySorted_inv. destruct (IH Hs) as [H1 H2]. split; [|done]. constructor; [|done]. cbn.
    rewrite fmap_app in H. apply Forall_app in H as [_ [H _]%Forall_cons]. exact H.
Qed.

Lemma find_split k m m1 n m2 : m = m1 ++ (k, n) :: m2 -> asc m -> map_find k m = Some n.
Proof. intros -> [H _]%asc_mid. by apply map_find_mid. Qed.

Lemma update_split k f m m1 n m2 : m = m1 ++ (k, n) :: m2 -> asc m -> update (At k) f m = Some (m1 ++ (k, f n) :: m2).
Proof. intros -> H. unfold update. rewrite (find_split _ _ m1 n m2) by done. cbn. by rewrite map_set_mid by apply (asc_mid _ _ _ _ H). Qed.

Lemma begin_keys m m' : m.*1 = m'.*1 -> begin_ m = begin_ m'.
Proof. destruct m as [|[]], m' as [|[]]; cbn; congruence. Qed.

(** Two free nodes with a node between them, and used ones around it. *)
Definition around (m1 : memory_t) (f : Z) (nf : Node) (mu : memory_t) (k : Z) (nn : Node) (mu' : memory_t) (g : Z) (ng : Node) (m2 : memory_t)
  : memory_t := m1 ++ (f, nf) :: mu ++ (k, nn) :: mu' ++ (g, ng) :: m2.

Section links.
Context (m1 : memory_t) (f : Z) (nf : Node) (mu : memory_t) (k : Z) (nn : Node) (mu' : memory_t) (g : Z) (ng : Node) (m2 : memory_t).
#[local] Set Default Proof Using "All".
#[local] Notation here nf nn ng := (around m1 f nf mu k nn mu' g ng m2).
Context (Ha : asc (here nf nn ng)) (Hb : begin_ (here nf nn ng) = At 0) (Hg : 0 < g).

Lemma around_keys nf' nn' ng' : (here nf' nn' ng').*1 = (here nf nn ng).*1.
Proof. unfold around. by repeat (rewrite fmap_app || rewrite fmap_cons). Qed.
Lemma around_asc nf' nn' ng' : asc (here nf' nn' ng').
Proof. unfold asc. by rewrite around_keys. Qed.
Lemma around_begin nf' nn' ng' : begin_ (here nf' nn' ng') = At 0.
Proof. rewrite <-Hb. apply begin_keys, around_keys. Qed.

Lemma around_low nf' nn' ng' fn : update (At f) fn (here nf' nn' ng') = Some (here (fn nf') nn' ng').
Proof. by apply update_split, around_asc. Qed.
Lemma around_node nf' nn' ng' fn : update (At k) fn (here nf' nn' ng') = Some (here nf' (fn nn') ng').
Proof. unfold around. rewrite (update_split k fn _ (m1 ++ (f, nf') :: mu) nn' (mu' ++ (g, ng') :: m2)); [by flat|by flat|apply around_asc]. Qed.
Lemma around_high nf' nn' ng' fn : update (At g) fn (here nf' nn' ng') = Some (here nf' nn' (fn ng')).
Proof.
  unfold around. rewrite (update_split g fn _ (m1 ++ (f, nf') :: mu ++ (k, nn') :: mu') ng' m2); [by flat|by flat|apply around_asc].
Qed.
Lemma around_find_low nf' nn' ng' : map_find f (here nf' nn' ng') = Some nf'.
Proof. by eapply find_split, around_asc. Qed.
Lemma around_find nf' nn' ng' : map_find k (here nf' nn' ng') = Some nn'.
Proof. apply (find_split _ _ (m1 ++ (f, nf') :: mu) _ (mu' ++ (g, ng') :: m2)); [unfold around; by flat|apply around_asc]. Qed.
Lemma around_lt : f < k.
Proof. pose proof (around_asc nf nn ng) as H. apply asc_mid in H as [_ H]. apply keys_gt_app in H as [_ H]. by apply Forall_cons in H as [H _]. Qed.

Lemma insertafter_around : next nf = At g ->
  insertafter f k (here nf nn ng) = Some (here (n_set_next (At k) nf) (mkNode (len nn) (At g) (At f)) (n_set_prior (At k) ng)).
Proof.
  intros Hn. unfold insertafter. pose proof around_lt. rewrite (proj2 (Z.ltb_lt f k)) by done. cbn [check mbind option_bind].
  rewrite around_find_low. cbn [mbind option_bind]. unfold isfree. rewrite around_begin, Hn, bool_decide_eq_false_2 by (injection 1; lia). cbn [check negb mbind option_bind].
  rewrite around_node. cbn [mbind option_bind]. rewrite around_low. cbn [mbind option_bind]. by rewrite around_high.
Qed.

Lemma remove_around : next nn = At g -> prior nn = At f ->
  remove k (here nf nn ng) = Some (here (n_set_next (At g) nf) (n_set_next (At 0) nn) (n_set_prior (At f) ng)).
Proof.
  intros Hn Hp. unfold remove. rewrite around_find. cbn [mbind option_bind]. unfold isfree.
  rewrite around_begin, Hn, bool_decide_eq_false_2 by (injection 1; lia). cbn [check negb mbind option_bind].
  rewrite Hp, around_low. cbn [mbind option_bind]. rewrite around_high. cbn [mbind option_bind]. rewrite around_node. unfold setused. by rewrite around_begin.
Qed.

Lemma merge_around : mu = [] -> next nn = At g -> next nf <> At 0 -> f +64 len nf = k ->
  merge f k (here nf nn ng) = Some (f, m1 ++ (f, mkNode (len nf +64 len nn) (At g) (prior nf)) :: mu' ++ (g, n_set_prior (At f) ng) :: m2).
Proof.
  intros Hmu Hn Hf Hk. unfold merge. rewrite around_find_low, around_find. cbn [mbind option_bind]. unfold isfree, islastfree.
  rewrite around_begin, Hn, !bool_decide_eq_false_2 by (done || (injection 1; lia)). rewrite Hk, Z.eqb_refl. cbn [check negb mbind option_bind].
  rewrite around_low. cbn [mbind option_bind]. rewrite around_high. cbn [mbind option_bind]. do 2 f_equal.
  unfold around. rewrite Hmu. cbn [app].
  pose proof (around_asc (mkNode (len nf +64 len nn) (At g) (prior nf)) nn (n_set_prior (At f) ng)) as Hasc.
  unfold around in Hasc. rewrite Hmu in Hasc. cbn [app] in Hasc. rewrite cons_middle, app_assoc in Hasc. apply asc_mid in Hasc as [Hlt _].
  rewrite cons_middle, app_assoc, map_erase_mid by exact Hlt. by flat.
Qed.
End links.

Lemma merge_far low high l h m : map_find low m = Some l -> map_find high m = Some h -> isfree m l = true -> isfree m h = true ->
  low +64 len l <> high -> merge low high m = Some (high, m).
Proof. intros Hl Hh Fl Fh Hne. unfold merge. rewrite Hl, Hh. cbn. rewrite Fl, Fh. cbn. by rewrite (proj2 (Z.eqb_neq _ _)) by done. Qed.

(** ** The layout of the map *)

(** A node as a block of the pool; a raw one has been made and not yet been linked. *)
Inductive kind_t := Free | Used | Raw.
#[export] Instance kind_t_eq : EqDecision kind_t.
Proof. solve_decision. Defined.

Record block := mkBlock { b_addr : Z; b_len : Z; b_kind : kind_t }.
Definition b_free (b : block) : Prop := b_kind b = Free.
#[export] Instance b_free_dec b : Decision (b_free b) := decide (b_kind b = Free).
Abbreviation held := (Forall (fun b => ~ b_free b)).

Fixpoint first_free (bs : list block) (nx : iterator_t) : iterator_t :=
  match bs with [] => nx | b :: bs => if decide (b_free b) then At (b_addr b) else first_free bs nx end.
Fixpoint last_free (p : iterator_t) (bs : list block) : iterator_t :=
  match bs with [] => p | b :: bs => last_free (if decide (b_free b) then At (b_addr b) else p) bs end.

(** The nodes of the blocks, the free ones linked between [p] and [nx]. *)
Fixpoint lseg (p : iterator_t) (bs : list block) (nx : iterator_t) (m : memory_t) : Prop :=
  match bs, m with
  | [], [] => True
  | b :: bs, (k, n) :: m =>
      k = b_addr b /\ len n = b_len b /\
      match b_kind b with
      | Free => next n = first_free bs nx /\ prior n = p
      | Used => next n = At 0
      | Raw => True
      end /\ lseg (if decide (b_free b) then At k else p) bs nx m
  | _, _ => False
  end.

Lemma first_free_app b1 b2 nx : first_free (b1 ++ b2) nx = first_free b1 (first_free b2 nx).
Proof. induction b1 as [|b b1 IH]; cbn; [done|]. by destruct (decide _). Qed.
Lemma last_free_app p b1 b2 : last_free p (b1 ++ b2) = last_free (last_free p b1) b2.
Proof. revert p. induction b1 as [|b b1 IH]; intros p; cbn; [done|]. apply IH. Qed.
Lemma first_free_held us nx : held us -> first_free us nx = nx.
Proof. induction 1; cbn; [done|]. by rewrite decide_False. Qed.
Lemma last_free_held p us : held us -> last_free p us = p.
Proof. induction 1; cbn; [done|]. by rewrite decide_False. Qed.

Lemma lseg_app p b1 b2 nx m :
  lseg p (b1 ++ b2) nx m <-> exists m1 m2, m = m1 ++ m2 /\ lseg p b1 (first_free b2 nx) m1 /\ lseg (last_free p b1) b2 nx m2.
Proof.
  revert p m. induction b1 as [|b b1 IH]; intros p m; cbn.
  - split; [by intros H; exists [], m|]. by intros ([|] & m2 & -> & H1 & H2).
  - destruct m as [|[k n] m].
    + split; [done|]. by intros ([|[]] & m2 & E & H1 & H2).
    + rewrite IH. split.
      * intros (-> & Hl & Hk & m1 & m2 & -> & H1 & H2). exists ((b_addr b, n) :: m1), m2. rewrite first_free_app in Hk. done.
      * intros ([|[k' n'] m1] & m2 & E & H1 & H2); [done|]. injection E as -> -> ->. destruct H1 as (-> & Hl & Hk & H1).
        rewrite first_free_app. split_and!; [done..|]. by exists m1, m2.
Qed.

Lemma lseg_held p p' us nx nx' m : held us -> lseg p us nx m -> lseg p' us nx' m.
Proof.
  intros H. revert m. induction H as [|b us Hb H IH]; intros [|[k n] m]; cbn; [done..|]. rewrite !decide_False by done.
  intros (Hk & Hl & Hn & Hs). split_and!; [done..| |by apply IH]. unfold b_free in Hb. by destruct (b_kind b).
Qed.

Lemma lseg_keys p bs nx m : lseg p bs nx m -> m.*1 = b_addr <$> bs.
Proof.
  revert p m. induction bs as [|b bs IH]; intros p [|[k n] m]; cbn; [done..|]. intros (-> & _ & _ & H). f_equal. by eapply IH.
Qed.

(** The addresses ascend, and the guard at the start is the first block. *)
Definition ascending (bs : list block) : Prop := StronglySorted Z.lt (b_addr <$> bs).
Record laid (bs : list block) (m : memory_t) : Prop := {
  la_asc : ascending bs;
  la_start : exists bs', bs = mkBlock 0 0 Free :: bs';
  la_seg : lseg End bs End m;
}.

Lemma laid_asc bs m : laid bs m -> asc m.
Proof. intros [H _ Hs]. unfold asc. by rewrite (lseg_keys _ _ _ _ Hs). Qed.
Lemma laid_begin bs m : laid bs m -> begin_ m = At 0.
Proof. intros [_ [bs' ->] Hs]. destruct m as [|[k n] m]; [done|]. destruct Hs as (-> & _). done. Qed.

(** A block not at either end has a free one before and after it. *)
Lemma last_free_split b bs : b_free b -> exists c f us, b :: bs = c ++ f :: us /\ b_free f /\ held us.
Proof.
  intros Hb. induction bs as [|x bs IH] using rev_ind; [by exists [], b, []|].
  destruct (decide (b_free x)) as [Hx|Hx].
  - exists (b :: bs), x, []. split_and!; [done..|constructor].
  - destruct IH as (c & f & us & E & Hf & Hus). exists c, f, (us ++ [x]). rewrite app_comm_cons, E. split_and!; [by flat|done|].
    apply Forall_app_2; [done|]. by constructor.
Qed.
Lemma first_free_split bs b : b_free b -> exists us g c, bs ++ [b] = us ++ g :: c /\ b_free g /\ held us.
Proof.
  intros Hb. induction bs as [|x bs IH]; [by exists [], b, []|].
  destruct (decide (b_free x)) as [Hx|Hx].
  - exists [], x, (bs ++ [b]). split_and!; [done..|constructor].
  - destruct IH as (us & g & c & E & Hg & Hus). exists (x :: us), g, c. cbn. rewrite E. split_and!; [done..|]. by constructor.
Qed.

Record pieces c f us b us' g c' m1 nf mu nn mu' ng m2 : Prop := {
  pc_below : lseg End c (At (b_addr f)) m1;
  pc_held : lseg End us End mu;
  pc_held' : lseg End us' End mu';
  pc_above : lseg (At (b_addr g)) c' End m2;
  pc_low : len nf = b_len f /\ prior nf = last_free End c;
  pc_high : len ng = b_len g /\ next ng = first_free c' End;
  pc_node : len nn = b_len b;
  pc_links : match b_kind b with
             | Free => next nf = At (b_addr b) /\ prior nn = At (b_addr f) /\ next nn = At (b_addr g) /\ prior ng = At (b_addr b)
             | k => next nf = At (b_addr g) /\ prior ng = At (b_addr f) /\ (k = Used -> next nn = At 0)
             end;
}.

Lemma lseg_cons p b bs nx m : lseg p (b :: bs) nx m <-> exists n m', m = (b_addr b, n) :: m' /\ len n = b_len b /\
  match b_kind b with Free => next n = first_free bs nx /\ prior n = p | Used => next n = At 0 | Raw => True end /\
  lseg (if decide (b_free b) then At (b_addr b) else p) bs nx m'.
Proof.
  destruct m as [|[k n] m]; cbn.
  - split; [done|]. by intros (? & ? & ? & _).
  - split; [intros (-> & H); by exists n, m|]. intros (n' & m' & [= -> -> ->] & H). done.
Qed.

Section focus.
Context (c : list block) (f : block) (us : list block) (b : block) (us' : list block) (g : block) (c' : list block).
Context (Hf : b_free f) (Hus : held us) (Hus' : held us') (Hg : b_free g).
Let bs := c ++ f :: us ++ b :: us' ++ g :: c'.

Lemma lseg_pieces m : lseg End bs End m -> exists m1 nf mu nn mu' ng m2,
  m = around m1 (b_addr f) nf mu (b_addr b) nn mu' (b_addr g) ng m2 /\ pieces c f us b us' g c' m1 nf mu nn mu' ng m2.
Proof using Hf Hus Hus' Hg.
  unfold bs. rewrite lseg_app. intros (m1 & m2 & -> & H1 & H2). apply lseg_cons in H2 as (nf & m3 & -> & Lf & Kf & H2).
  rewrite (Hf : b_kind f = Free) in Kf. rewrite decide_True in H2 by done. apply lseg_app in H2 as (mu & m4 & -> & H2 & H3). rewrite last_free_held in H3 by done.
  apply lseg_cons in H3 as (nn & m5 & -> & Ln & Kn & H3). apply lseg_app in H3 as (mu' & m6 & -> & H4 & H5).
  rewrite last_free_held in H5 by done. apply lseg_cons in H5 as (ng & m7 & -> & Lg & Kg & H5). rewrite (Hg : b_kind g = Free) in Kg. rewrite decide_True in H5 by done.
  cbn [first_free] in *. rewrite first_free_app, (first_free_held us) in Kf by done. rewrite first_free_app, (first_free_held us') in Kn by done.
  cbn [first_free] in *. rewrite (decide_True (P := b_free g)) in * by done. rewrite decide_True in H1 by done.
  rewrite first_free_app, (first_free_held us') in Kf by done. cbn [first_free] in Kf. rewrite (decide_True (P := b_free g)) in Kf by done.
  exists m1, nf, mu, nn, mu', ng, m7. split; [done|]. destruct Kf as [Kf1 Kf2], Kg as [Kg1 Kg2].
  split; [done|by eapply lseg_held|by eapply lseg_held|done|done|done|done|].
  destruct (decide (b_free b)) as [E|E].
  - rewrite (E : b_kind b = Free) in *. by destruct Kn.
  - unfold b_free in E. by destruct (b_kind b).
Qed.

Lemma pieces_lseg m1 nf mu nn mu' ng m2 : pieces c f us b us' g c' m1 nf mu nn mu' ng m2 ->
  lseg End bs End (around m1 (b_addr f) nf mu (b_addr b) nn mu' (b_addr g) ng m2).
Proof using Hf Hus Hus' Hg.
  intros [H1 H2 H3 H4 [Lf Pf] [Lg Ng] Ln Hk]. unfold bs, around.
  rewrite lseg_app. exists m1. eexists. split; [done|]. cbn [first_free]. rewrite decide_True by done. split; [done|].
  rewrite lseg_cons. exists nf. eexists. split; [done|]. split; [done|]. rewrite (Hf : b_kind f = Free), decide_True by done.
  rewrite first_free_app, (first_free_held us) by done. cbn [first_free]. rewrite first_free_app, (first_free_held us') by done. cbn [first_free].
  rewrite (decide_True (P := b_free g)) by done. rewrite lseg_app, (last_free_held _ us) by done. split.
  { split; [|done]. destruct (decide (b_free b)) as [E|E]; [rewrite (E : b_kind b = Free) in Hk|unfold b_free in E; destruct (b_kind b)]; tauto. }
  exists mu. eexists. split; [done|]. split; [by eapply lseg_held|]. rewrite lseg_cons. exists nn. eexists. split; [done|]. split; [done|].
  rewrite lseg_app, (last_free_held _ us') by done. rewrite first_free_app, (first_free_held us') by done. cbn [first_free].
  rewrite (decide_True (P := b_free g)) by done. split; [destruct (b_kind b); tauto|].
  exists mu'. eexists. split; [done|]. split; [by eapply lseg_held|]. rewrite lseg_cons. exists ng, m2. split; [done|]. split; [done|].
  rewrite (Hg : b_kind g = Free), (decide_True (P := b_free g)) by done. split; [|done]. split; [done|]. destruct (decide (b_free b)) as [E|E]; [rewrite (E : b_kind b = Free) in Hk|unfold b_free in E; destruct (b_kind b)]; tauto.
Qed.
End focus.

(** ** The steps of the operations on the layout *)

Lemma laid_pos c b c' m : laid (c ++ b :: c') m -> Forall (fun x => 0 < b_addr x) c'.
Proof.
  intros [Ha [bs' E] _]. unfold ascending in Ha. rewrite E in Ha. cbn [fmap list_fmap b_addr] in Ha.
  apply StronglySorted_inv in Ha as [_ Ha]. rewrite Forall_fmap in Ha. destruct c as [|x c]; cbn [app] in E; injection E as -> E.
  - rewrite E. exact Ha.
  - rewrite <-E in Ha. by apply Forall_app in Ha as [_ [_ Ha]%Forall_cons].
Qed.

Lemma first_free_pos c nx : Forall (fun x => 0 < b_addr x) c -> nx <> At 0 -> first_free c nx <> At 0.
Proof. induction 1 as [|x c Hx _ IH]; cbn; [done|]. destruct (decide _); [intros Hnx [= E]; lia|exact IH]. Qed.

Lemma laid_find c b c' m : laid (c ++ b :: c') m -> exists n, map_find (b_addr b) m = Some n /\ len n = b_len b /\
  match b_kind b with Free => next n = first_free c' End /\ prior n = last_free End c | Used => next n = At 0 | Raw => True end.
Proof.
  intros H. pose proof (la_seg _ _ H) as Hs. apply lseg_app in Hs as (m1 & m2 & E & _ & Hs). apply lseg_cons in Hs as (n & m' & -> & Hl & Hk & _).
  exists n. split; [|done]. eapply find_split; [done|]. by eapply laid_asc.
Qed.

Lemma laid_isfree c b c' m : laid (c ++ b :: c') m -> exists n, map_find (b_addr b) m = Some n /\ len n = b_len b /\ match b_kind b with
  | Free => isfree m n = true /\ next n = first_free c' End /\ prior n = last_free End c
  | Used => isfree m n = false
  | Raw => True
  end.
Proof.
  intros H. destruct (laid_find _ _ _ _ H) as (n & Hn & Hl & Hk). exists n. split_and!; [done..|].
  unfold isfree. rewrite (laid_begin _ _ H). destruct (b_kind b); [|by rewrite bool_decide_eq_true_2|done].
  split; [|done]. rewrite bool_decide_eq_false_2; [done|]. rewrite (proj1 Hk). apply first_free_pos; [by eapply laid_pos|done].
Qed.

(** ** The steps of the operations on the blocks around a node *)

Lemma focus_high c f us b us' g c' m : laid (c ++ f :: us ++ b :: us' ++ g :: c') m -> 0 < b_addr g.
Proof.
  intros H. pose proof (laid_pos _ _ _ _ H) as Hp. apply Forall_app in Hp as [_ [_ Hp]%Forall_cons]. by apply Forall_app in Hp as [_ [? _]%Forall_cons].
Qed.

Lemma relaid bs bs' m m' : b_addr <$> bs' = b_addr <$> bs -> head bs' = head bs -> laid bs m -> lseg End bs' End m' -> laid bs' m'.
Proof.
  intros E Eh [Ha [bs0 ->] _] Hs. split; [unfold ascending; by rewrite E| |done].
  destruct bs' as [|x bs']; cbn in *; [done|]. injection Eh as ->. by eexists.
Qed.

Ltac same_addrs := repeat first [rewrite fmap_app | rewrite fmap_cons]; done.

Lemma sorted_drop (l1 l2 : list Z) a : StronglySorted Z.lt (l1 ++ a :: l2) -> StronglySorted Z.lt (l1 ++ l2).
Proof.
  induction l1 as [|b l1 IH]; cbn; [by intros [? _]%StronglySorted_inv|]. intros [Hs Ha]%StronglySorted_inv. constructor; [by apply IH|].
  apply Forall_app in Ha as [H1 [_ H2]%Forall_cons]. by apply Forall_app.
Qed.

Section focused.
Context (c : list block) (f : block) (us : list block) (us' : list block) (g : block) (c' : list block).
Context (Hf : b_free f) (Hus : held us) (Hus' : held us') (Hg : b_free g).
#[local] Notation bs b := (c ++ f :: us ++ b :: us' ++ g :: c').
#[local] Set Default Proof Using "All".

Lemma insertafter_laid b m : ~ b_free b -> laid (bs b) m ->
  exists m', insertafter (b_addr f) (b_addr b) m = Some m' /\ laid (bs (mkBlock (b_addr b) (b_len b) Free)) m'.
Proof.
  intros Hb H. pose proof (focus_high _ _ _ _ _ _ _ _ H) as Hpos. pose proof (laid_asc _ _ H) as Ha. pose proof (laid_begin _ _ H) as Hb0.
  destruct (lseg_pieces c f us b us' g c' Hf Hus Hus' Hg m (la_seg _ _ H)) as (m1 & nf & mu & nn & mu' & ng & m2 & E & [H1 H2 H3 H4 [Lf Pf] [Lg Ng] Ln Hk]).
  subst m. assert (next nf = At (b_addr g)) as Hn by (unfold b_free in Hb; destruct (b_kind b); tauto).
  eexists. split; [by apply insertafter_around|]. eapply (relaid (bs b)); [same_addrs|by destruct c|exact H|].
  apply (pieces_lseg c f us (mkBlock (b_addr b) (b_len b) Free) us' g c'); [done..|]. by split.
Qed.

Lemma remove_laid b m : b_free b -> laid (bs b) m ->
  exists m', remove (b_addr b) m = Some m' /\ laid (bs (mkBlock (b_addr b) (b_len b) Used)) m'.
Proof.
  intros Hb H. pose proof (focus_high _ _ _ _ _ _ _ _ H) as Hpos. pose proof (laid_asc _ _ H) as Ha. pose proof (laid_begin _ _ H) as Hb0.
  destruct (lseg_pieces c f us b us' g c' Hf Hus Hus' Hg m (la_seg _ _ H)) as (m1 & nf & mu & nn & mu' & ng & m2 & E & [H1 H2 H3 H4 [Lf Pf] [Lg Ng] Ln Hk]).
  subst m. rewrite (Hb : b_kind b = Free) in Hk. destruct Hk as (K1 & K2 & K3 & K4).
  eexists. split; [by apply remove_around|]. eapply (relaid (bs b)); [same_addrs|by destruct c|exact H|].
  apply (pieces_lseg c f us (mkBlock (b_addr b) (b_len b) Used) us' g c'); [done..|]. by split.
Qed.

Lemma merge_laid b m : us = [] -> b_free b -> laid (bs b) m -> b_addr f +64 b_len f = b_addr b ->
  exists m', merge (b_addr f) (b_addr b) m = Some (b_addr f, m') /\
             laid (c ++ mkBlock (b_addr f) (b_len f +64 b_len b) Free :: us' ++ g :: c') m'.
Proof.
  intros Eus Hb H Hadj. pose proof (focus_high _ _ _ _ _ _ _ _ H) as Hpos. pose proof (laid_asc _ _ H) as Ha. pose proof (laid_begin _ _ H) as Hb0.
  destruct (lseg_pieces c f us b us' g c' Hf Hus Hus' Hg m (la_seg _ _ H)) as (m1 & nf & mu & nn & mu' & ng & m2 & E & [H1 H2 H3 H4 [Lf Pf] [Lg Ng] Ln Hk]).
  subst m us. assert (mu = []) as -> by (by destruct mu). rewrite (Hb : b_kind b = Free) in Hk. destruct Hk as (K1 & K2 & K3 & K4).
  eexists. split.
  { apply (merge_around m1 (b_addr f) nf [] (b_addr b) nn mu' (b_addr g) ng m2 Ha Hb0 Hpos); [done..| |congruence]. rewrite K1.
    pose proof (laid_pos _ _ _ _ H) as [Hp _]%Forall_cons. injection 1; lia. }
  rewrite Lf, Ln. pose proof (laid_pos _ _ _ _ H) as [Hp _]%Forall_cons. destruct H as [Has [bs' Hst] _]. split.
  - unfold ascending in *. rewrite fmap_app, fmap_cons in *. cbn [app fmap list_fmap b_addr] in *. rewrite cons_middle, app_assoc in Has.
    apply sorted_drop in Has. by rewrite <-app_assoc in Has.
  - destruct c; cbn [app] in *; injection Hst; intros E1 E2; [|subst; by eexists].
    rewrite E2 in Hadj. cbn in Hadj. unfold add64, wrap in Hadj. rewrite Z.mod_0_l in Hadj; lia.
  - rewrite lseg_app. exists m1. eexists. split; [done|]. cbn [first_free last_free]. rewrite decide_True by done. split; [done|].
    rewrite lseg_cons. eexists _, _. split; [done|]. split; [done|]. rewrite decide_True by done. cbn [b_kind b_addr].
    rewrite first_free_app, (first_free_held us') by done. cbn [first_free]. rewrite decide_True by done. split; [done|].
    rewrite lseg_app. exists mu'. eexists. split; [done|]. split; [by eapply lseg_held|]. rewrite lseg_cons. eexists _, m2. split; [done|]. split; [done|].
    rewrite (Hg : b_kind g = Free), last_free_held, decide_True by done. done.
Qed.
End focused.

Lemma merge_apart bs l h m : laid bs m -> l ∈ bs -> h ∈ bs -> b_free l -> b_free h -> b_addr l +64 b_len l <> b_addr h ->
  merge (b_addr l) (b_addr h) m = Some (b_addr h, m).
Proof.
  intros H (c1 & c2 & E1)%list_elem_of_split (d1 & d2 & E2)%list_elem_of_split Hl Hh Hne.
  destruct (laid_isfree c1 l c2 m) as (n & Hn & L & K); [by rewrite <-E1|]. destruct (laid_isfree d1 h d2 m) as (n' & Hn' & L' & K'); [by rewrite <-E2|].
  rewrite (Hl : b_kind l = Free) in K. rewrite (Hh : b_kind h = Free) in K'. eapply merge_far; [done..|apply K|apply K'|congruence].
Qed.

Lemma lseg_update c b b' c' k f m n m1 m2 : b_addr b' = b_addr b -> (b_free b' <-> b_free b) -> m = m1 ++ (k, n) :: m2 ->
  lseg End c (if decide (b_free b) then At (b_addr b) else first_free c' End) m1 -> lseg (if decide (b_free b) then At k else last_free End c) c' End m2 ->
  k = b_addr b -> len (f n) = b_len b' ->
  match b_kind b' with Free => next (f n) = first_free c' End /\ prior (f n) = last_free End c | Used => next (f n) = At 0 | Raw => True end ->
  lseg End (c ++ b' :: c') End (m1 ++ (k, f n) :: m2).
Proof.
  intros Ea Ef -> H1 H2 -> Hl Hk. rewrite lseg_app. exists m1. eexists. split; [done|]. cbn [first_free]. rewrite Ea.
  assert (forall A (x y : A), (if decide (b_free b') then x else y) = (if decide (b_free b) then x else y)) as Ed by (intros; by destruct (decide (b_free b')), (decide (b_free b)); tauto).
  rewrite Ed. split; [done|]. rewrite lseg_cons. rewrite Ea, Ed. by exists (f n), m2.
Qed.

(** A step that changes one node and leaves the links. *)
Lemma update_laid c b b' c' f m : c <> [] -> laid (c ++ b :: c') m -> b_addr b' = b_addr b -> (b_free b' <-> b_free b) ->
  (forall n, len n = b_len b -> len (f n) = b_len b') ->
  (forall n, match b_kind b with Free => next n = first_free c' End /\ prior n = last_free End c | Used => next n = At 0 | Raw => True end ->
     match b_kind b' with Free => next (f n) = first_free c' End /\ prior (f n) = last_free End c | Used => next (f n) = At 0 | Raw => True end) ->
  exists m', update (At (b_addr b)) f m = Some m' /\ laid (c ++ b' :: c') m'.
Proof.
  intros Hc H Ea Ef Hl Hk. pose proof (la_seg _ _ H) as Hs. apply lseg_app in Hs as (m1 & m2 & E & H1 & Hs).
  apply lseg_cons in Hs as (n & m' & -> & Ln & Kn & H2). eexists. split; [eapply update_split; [done|by eapply laid_asc]|].
  eapply (relaid (c ++ b :: c')); [rewrite !fmap_app, !fmap_cons; by rewrite Ea|by destruct c|done|].
  eapply (lseg_update c b b'); [done..| |by apply Hl|by apply Hk]. done.
Qed.

Lemma set_len_laid c b c' v m : c <> [] -> laid (c ++ b :: c') m ->
  exists m', update (At (b_addr b)) (n_set_len v) m = Some m' /\ laid (c ++ mkBlock (b_addr b) v (b_kind b) :: c') m'.
Proof. intros Hc H. by eapply update_laid. Qed.

Lemma setused_laid c a v c' m : c <> [] -> laid (c ++ mkBlock a v Raw :: c') m ->
  exists m', update (At a) (setused m) m = Some m' /\ laid (c ++ mkBlock a v Used :: c') m'.
Proof.
  intros Hc H. eapply (update_laid c (mkBlock a v Raw)); [done|done|done|done|done|]. intros n _. cbn. by rewrite (laid_begin _ _ H).
Qed.

Lemma sorted_insert (l1 l2 : list Z) b a : StronglySorted Z.lt (l1 ++ b :: l2) -> b < a -> Forall (Z.lt a) l2 -> StronglySorted Z.lt (l1 ++ b :: a :: l2).
Proof.
  induction l1 as [|x l1 IH]; cbn; intros [Hs Ha]%StronglySorted_inv Hb Hl.
  - constructor; [by constructor|]. constructor; [done|]. done.
  - constructor; [by apply IH|]. apply Forall_app in Ha as [H1 [H2 H3]%Forall_cons]. apply Forall_app. split; [done|]. constructor; [done|]. constructor; [lia|done].
Qed.

(** A new node is raw. *)
Lemma subscript_laid c b c' a v m : laid (c ++ b :: c') m -> b_addr b < a -> Forall (fun x => a < b_addr x) c' ->
  exists m', update (At a) (n_set_len v) (subscript a m) = Some m' /\ laid (c ++ b :: mkBlock a v Raw :: c') m'.
Proof.
  intros H Hb Hc'. pose proof (la_seg _ _ H) as Hs. rewrite cons_middle, app_assoc in Hs. apply lseg_app in Hs as (m1 & m2 & -> & H1 & H2).
  pose proof (laid_asc _ _ H) as Ha. pose proof (lseg_keys _ _ _ _ H1) as K1. pose proof (lseg_keys _ _ _ _ H2) as K2.
  assert (keys_gt a m2) as Hgt. { apply keys_gt_keys. rewrite K2, Forall_fmap. exact Hc'. }
  assert (keys_lt a m1) as Hlt.
  { apply keys_lt_keys. rewrite K1. destruct H as [Has _ _]. unfold ascending in Has.
    rewrite fmap_app, fmap_cons in Has. rewrite fmap_app, fmap_cons. apply Forall_app. split; [|by repeat constructor].
    apply Forall_forall. intros k (l1 & l2 & E)%list_elem_of_split. rewrite E in Has. rewrite <-app_assoc in Has. 
    assert (k < b_addr b); [|lia]. clear -Has. induction l1 as [|y l1 IH]; cbn in Has; apply StronglySorted_inv in Has as [Hs Hk]; [|by apply IH].
    apply Forall_app in Hk as [_ [? _]%Forall_cons]. done. }
  unfold subscript. rewrite map_find_None by done. rewrite map_set_new by done.
  destruct H as [Has Hst _]. assert (asc (m1 ++ (a, mkNode 0 Singular Singular) :: m2)) as Ha'.
  { unfold asc. rewrite fmap_app, fmap_cons, K1, K2, fmap_app. cbn [fmap list_fmap fst]. rewrite <-app_assoc. cbn [app].
    apply sorted_insert; [|done|by rewrite Forall_fmap]. unfold ascending in Has. by rewrite fmap_app in Has. }
  eexists. split; [by eapply update_split|]. split.
  - unfold asc in Ha'. rewrite fmap_app, fmap_cons, K1, K2, fmap_app, <-app_assoc in Ha'. unfold ascending. rewrite fmap_app, !fmap_cons. exact Ha'.
  - destruct Hst as [bs' E]. destruct c; cbn in *; injection E as -> E; by eexists.
  - rewrite cons_middle, app_assoc, lseg_app. exists m1. eexists. split; [done|]. split; [exact H1|].
    rewrite lseg_cons. by eexists _, m2.
Qed.

(** Going back over used nodes to the free one before them. *)
Lemma free_before_laid c f us b c' m fuel : laid (c ++ f :: us ++ b :: c') m -> b_free f -> Forall (fun x => b_kind x = Used) us -> (length us < fuel)%nat ->
  exists n, free_before fuel m (b_addr b) = Some (b_addr f, n) /\ map_find (b_addr f) m = Some n.
Proof.
  intros H Hf. revert b c' fuel H. induction us as [|y us IH] using rev_ind; intros b c' fuel H Hu Hl; (destruct fuel as [|fuel]; [lia|]); cbn [free_before].
  - destruct (laid_isfree c f (b :: c') m H) as (n & Hn & L & K). rewrite (Hf : b_kind f = Free) in K.
    pose proof (laid_asc _ _ H) as Ha. pose proof (la_seg _ _ H) as Hs. apply lseg_app in Hs as (m1 & m2 & -> & H1 & Hs).
    apply lseg_cons in Hs as (n0 & m3 & -> & _ & _ & Hs). apply lseg_cons in Hs as (nb & m4 & -> & _).
    rewrite (find_split _ _ m1 n0 ((b_addr b, nb) :: m4)) in Hn by done. injection Hn as ->.
    rewrite cons_middle, app_assoc in Ha |- *. rewrite map_prev_mid by apply (asc_mid _ _ _ _ Ha). rewrite last_snoc. cbn [mbind option_bind snd].
    rewrite <-app_assoc. cbn [app]. rewrite (proj1 K). exists n. split; [done|]. eapply find_split; [done|]. by rewrite <-app_assoc in Ha.
  - rewrite length_app in Hl. cbn in Hl. apply Forall_app in Hu as [Hu [Hy _]%Forall_cons].
    assert (laid ((c ++ f :: us) ++ y :: b :: c') m) as H' by (revert H; by flat).
    destruct (laid_isfree _ y _ m H') as (n & Hn & L & K). rewrite Hy in K.
    assert (laid (c ++ f :: us ++ y :: b :: c') m) as H2 by (revert H; by flat).
    destruct (IH y (b :: c') fuel H2 Hu ltac:(lia)) as (nf & E & Ef). exists nf. split; [|done].
    pose proof (laid_asc _ _ H) as Ha. pose proof (la_seg _ _ H') as Hs. apply lseg_app in Hs as (m1 & m2 & -> & H1 & Hs).
    apply lseg_cons in Hs as (n0 & m3 & -> & _ & _ & Hs). apply lseg_cons in Hs as (nb & m4 & -> & _).
    rewrite (find_split _ _ m1 n0 ((b_addr b, nb) :: m4)) in Hn by done. injection Hn as ->.
    assert (map_prev (b_addr b) (m1 ++ (b_addr y, n) :: (b_addr b, nb) :: m4) = Some (b_addr y, n)) as ->; [|cbn [mbind option_bind snd fst]; by rewrite K].
    rewrite cons_middle, app_assoc in Ha |- *. rewrite map_prev_mid by apply (asc_mid _ _ _ _ Ha). by rewrite last_snoc.
Qed.

(** ** The pool between the guards *)

Definition start_block : block := mkBlock 0 0 Free.
Definition end_block : block := mkBlock top_address 0 Free.
Definition full (bs : list block) : list block := start_block :: bs ++ [end_block].

Lemma full_low B1 : exists c f us, start_block :: B1 = c ++ f :: us /\ b_free f /\ held us.
Proof. by apply last_free_split. Qed.
Lemma full_high B2 : exists us g c, B2 ++ [end_block] = us ++ g :: c /\ b_free g /\ held us.
Proof. by apply first_free_split. Qed.

Lemma full_mid B1 b B2 : full (B1 ++ b :: B2) = (start_block :: B1) ++ b :: (B2 ++ [end_block]).
Proof. unfold full. by flat. Qed.

Lemma laid_remove B1 b B2 m : b_free b -> laid (full (B1 ++ b :: B2)) m ->
  exists m', remove (b_addr b) m = Some m' /\ laid (full (B1 ++ mkBlock (b_addr b) (b_len b) Used :: B2)) m'.
Proof.
  intros Hb H. rewrite full_mid in *. destruct (full_low B1) as (c & f & us & E1 & Hf & Hus), (full_high B2) as (us' & g & c' & E2 & Hg & Hus').
  rewrite E1, E2, <-app_assoc in *. cbn [app] in *. by apply remove_laid.
Qed.

Lemma laid_alloc B1 b B2 m bytes n h : b_free b -> laid (full (B1 ++ b :: B2)) m -> memory h = m -> len n = b_len b ->
  0 < b_addr b -> 0 < bytes <= b_len b -> b_addr b + b_len b < 2 ^ 64 -> Forall (fun x => b_addr b + b_len b <= b_addr x) (B2 ++ [end_block]) ->
  exists m', alloc_at bytes (b_addr b) n h = Some (b_addr b, sm_set_memory m' (sm_set_free (total_free h -64 bytes) h)) /\
    laid (full (B1 ++ mkBlock (b_addr b) bytes Used ::
                (if bytes =? b_len b then [] else [mkBlock (b_addr b + bytes) (b_len b - bytes) Free]) ++ B2)) m'.
Proof.
  intros Hb H <- Hn Hpos Hbytes Hend Habove. unfold alloc_at. rewrite Hn. destruct (Z.eqb_spec bytes (b_len b)) as [E|E]; cbn [negb].
  - destruct (laid_remove B1 b B2 _ Hb H) as (m' & Er & H'). cbn [mbind option_bind]. rewrite Er. exists m'. split; [done|]. by rewrite E.
  - rewrite (add64_small (b_addr b)), (sub64_small (b_len b)) by lia. rewrite full_mid in H. destruct (subscript_laid _ b _ (b_addr b + bytes) (b_len b - bytes) _ H) as (m1 & E1 & H1); [lia|eapply Forall_impl; [done|cbn; lia]|].
    rewrite E1. cbn [mbind option_bind]. destruct (set_len_laid (start_block :: B1) b _ bytes m1 ltac:(done) H1) as (m2 & E2 & H2). rewrite E2. cbn [mbind option_bind].
    destruct (full_high B2) as (us' & g & c' & E4 & Hg & Hus'). rewrite E4 in H2.
    destruct (insertafter_laid (start_block :: B1) (mkBlock (b_addr b) bytes (b_kind b)) [] us' g c' Hb ltac:(constructor) Hus' Hg
      (mkBlock (b_addr b + bytes) (b_len b - bytes) Raw) m2 ltac:(done) H2) as (m3 & E3 & H3). cbn [b_addr b_len] in *.
    rewrite E3. cbn [mbind option_bind]. destruct (full_low B1) as (c & f & us & E5 & Hf & Hus).
    cbn [app] in H3. rewrite app_comm_cons, E5, <-app_assoc in H3. cbn [app] in H3.
    destruct (remove_laid c f us [] (mkBlock (b_addr b + bytes) (b_len b - bytes) Free) (us' ++ g :: c') Hf Hus ltac:(constructor) ltac:(done)
      (mkBlock (b_addr b) bytes (b_kind b)) m3 Hb H3) as (m4 & E6 & H6). cbn [b_addr b_len] in *.
    rewrite E6. cbn [mbind option_bind]. exists m4. split; [done|]. rewrite full_mid, E5, <-E4 in *. revert H6. by flat.
Qed.

Lemma laid_alloc_high B1 b B2 m bytes n h : b_free b -> laid (full (B1 ++ b :: B2)) m -> memory h = m -> len n = b_len b ->
  0 < b_addr b -> 0 < bytes <= b_len b -> b_addr b + b_len b < 2 ^ 64 -> Forall (fun x => b_addr b + b_len b <= b_addr x) (B2 ++ [end_block]) ->
  let a := b_addr b + b_len b - bytes in
  exists m', alloc_high_at bytes (b_addr b) n h = Some (a, mkSmallHeap (pool h) (length_ h) (total_free h -64 bytes) m' (map_set a tt (high h))) /\
    laid (full (B1 ++ (if bytes =? b_len b then [] else [mkBlock (b_addr b) (b_len b - bytes) Free]) ++ mkBlock a bytes Used :: B2)) m'.
Proof.
  intros Hb H <- Hn Hpos Hbytes Hend Habove a. unfold alloc_high_at. rewrite Hn. destruct (Z.eqb_spec bytes (b_len b)) as [E|E]; cbn [negb].
  - destruct (laid_remove B1 b B2 _ Hb H) as (m' & Er & H'). rewrite Er. cbn [mbind option_bind]. exists m'.
    assert (a = b_addr b) as -> by lia. split; [done|]. by rewrite E.
  - assert (b_addr b +64 b_len b -64 bytes = a) as -> by (unfold a; rewrite add64_small by lia; by rewrite sub64_small by lia). rewrite (sub64_small (b_len b)) by lia.
    rewrite full_mid in H. destruct (set_len_laid (start_block :: B1) b _ (b_len b - bytes) _ ltac:(done) H) as (m1 & E1 & H1). rewrite E1. cbn [mbind option_bind].
    destruct (subscript_laid _ (mkBlock (b_addr b) (b_len b - bytes) (b_kind b)) _ a bytes _ H1) as (m2 & E2 & H2); [unfold a; cbn; lia|eapply Forall_impl; [done|unfold a; cbn; lia]|].
    rewrite E2. cbn [mbind option_bind]. rewrite cons_middle, app_assoc in H2.
    destruct (setused_laid ((start_block :: B1) ++ [mkBlock (b_addr b) (b_len b - bytes) (b_kind b)]) a bytes (B2 ++ [end_block]) m2) as (m3 & E3 & H3); [by destruct B1|done|].
    rewrite E3. cbn [mbind option_bind]. exists m3. split; [done|]. rewrite (Hb : b_kind b = Free) in H3. revert H3. unfold full. by flat.
Qed.

(** ** Blocks that tile the pool *)

Fixpoint tiles (lo : Z) (bs : list block) (hi : Z) : Prop :=
  match bs with
  | [] => lo = hi
  | b :: bs => b_addr b = lo /\ 0 < b_len b /\ b_kind b <> Raw /\ tiles (lo + b_len b) bs hi
  end.

(** No two free blocks touch. *)
Fixpoint apart (bs : list block) : Prop :=
  match bs with
  | b :: (b' :: _) as bs' => ~ (b_free b /\ b_free b') /\ apart bs'
  | _ => True
  end.

Fixpoint free_len (bs : list block) : Z :=
  match bs with [] => 0 | b :: bs => (if decide (b_free b) then b_len b else 0) + free_len bs end.

Lemma room_app lo b1 b2 hi : tiles lo (b1 ++ b2) hi <-> exists mid, tiles lo b1 mid /\ tiles mid b2 hi.
Proof.
  revert lo. induction b1 as [|b b1 IH]; intros lo; cbn; [split; [by eexists|by intros (? & -> & ?)]|]. rewrite IH. split.
  - intros (? & ? & ? & mid & ? & ?). by exists mid.
  - intros (mid & (? & ? & ? & ?) & ?). split_and!; [done..|]. by exists mid.
Qed.

Lemma room_le lo bs hi : tiles lo bs hi -> lo <= hi.
Proof. revert lo. induction bs as [|b bs IH]; cbn; intros lo; [lia|]. intros (_ & ? & _ & H%IH). lia. Qed.

Lemma room_bounds lo bs hi : tiles lo bs hi -> Forall (fun x => lo <= b_addr x /\ 0 < b_len x /\ b_addr x + b_len x <= hi /\ b_kind x <> Raw) bs.
Proof.
  revert lo. induction bs as [|b bs IH]; cbn; intros lo H; [constructor|]. destruct H as (<- & Hl & Hk & H). constructor.
  - pose proof (room_le _ _ _ H). split_and!; [lia..|done].
  - eapply Forall_impl; [by apply IH|]. cbn. intros x (? & ? & ? & ?). split_and!; [lia..|done].
Qed.

(** What comes before and after a block. *)
Lemma tiles_mid lo b1 b b2 hi : tiles lo (b1 ++ b :: b2) hi ->
  tiles lo b1 (b_addr b) /\ 0 < b_len b /\ b_kind b <> Raw /\ tiles (b_addr b + b_len b) b2 hi.
Proof. intros (mid & H1 & <- & H)%room_app. done. Qed.

Lemma tiles_sides lo b1 b b2 hi : tiles lo (b1 ++ b :: b2) hi ->
  Forall (fun x => lo <= b_addr x /\ 0 < b_len x /\ b_addr x + b_len x <= b_addr b) b1 /\ lo <= b_addr b /\ 0 < b_len b /\ b_addr b + b_len b <= hi /\
  Forall (fun x => b_addr b + b_len b <= b_addr x /\ 0 < b_len x /\ b_addr x + b_len x <= hi) b2.
Proof.
  intros (H1 & Hl & _ & H2)%tiles_mid. pose proof (room_le _ _ _ H1). pose proof (room_le _ _ _ H2). split_and!; [|lia..|].
  - eapply Forall_impl; [by eapply room_bounds|]. cbn. intros x. lia.
  - eapply Forall_impl; [by eapply room_bounds|]. cbn. intros x. lia.
Qed.

Lemma free_len_app b1 b2 : free_len (b1 ++ b2) = free_len b1 + free_len b2.
Proof. induction b1 as [|b b1 IH]; cbn; [done|]. rewrite IH. lia. Qed.

Lemma free_len_le lo bs hi : tiles lo bs hi -> 0 <= free_len bs <= hi - lo /\ Forall (fun x => b_free x -> b_len x <= free_len bs) bs.
Proof.
  revert lo. induction bs as [|b bs IH]; cbn; intros lo H; [split; [lia|constructor]|]. destruct H as (_ & ? & _ & H%IH). destruct H as [Hb H].
  destruct (decide (b_free b)); (split; [lia|]); (constructor; [intros; try lia; done|]); (eapply Forall_impl; [done|]); intros x Hx Hf; specialize (Hx Hf); lia.
Qed.

Lemma apart_mid b1 b b2 : apart (b1 ++ b :: b2) <-> apart (b1 ++ [b]) /\ apart (b :: b2).
Proof.
  induction b1 as [|x b1 IH]; [cbn; tauto|]. destruct b1 as [|y b1].
  - cbn in *. destruct b2; tauto.
  - change ((x :: y :: b1) ++ b :: b2) with (x :: (y :: b1) ++ b :: b2). change ((x :: y :: b1) ++ [b]) with (x :: (y :: b1) ++ [b]).
    cbn [app] in *. cbn [apart] in *. tauto.
Qed.

(** A freed block swallows the free one before it, and the one after it. *)
Inductive joins_low : list block -> block -> list block -> block -> Prop :=
  | jl_free B x b : b_free x -> joins_low (B ++ [x]) b B (mkBlock (b_addr x) (b_len x + b_len b) Free)
  | jl_held B b : (forall B' x, B = B' ++ [x] -> ~ b_free x) -> joins_low B b B b.
Inductive joins_high : block -> list block -> block -> list block -> Prop :=
  | jh_free b x B : b_free x -> joins_high b (x :: B) (mkBlock (b_addr b) (b_len b + b_len x) Free) B
  | jh_held b B : (forall x B', B = x :: B' -> ~ b_free x) -> joins_high b B b B.

Definition used_in (bs : list block) (a n : Z) : Prop := mkBlock a n Used ∈ bs.

Lemma joins_low_tiles lo B1 b B2 hi B1' b' : joins_low B1 b B1' b' -> b_free b -> tiles lo (B1 ++ b :: B2) hi ->
  tiles lo (B1' ++ b' :: B2) hi /\ b_free b'.
Proof.
  destruct 1 as [B x b Hx|B b Hlast]; intros Hb Ht; [|done]. split; [|done]. rewrite <-app_assoc in Ht. apply room_app in Ht as (mid & Ta & Tb).
  apply room_app. exists mid. split; [done|]. cbn in *. destruct Tb as (? & ? & ? & ? & ? & ? & ?). split_and!; [done|lia|done|]. by rewrite Z.add_assoc.
Qed.

Lemma joins_low_spec B1 b B1' b' : joins_low B1 b B1' b' -> apart B1 ->
  apart (B1' ++ [b']) /\ free_len B1' + b_len b' = free_len B1 + b_len b /\
  (forall a n, used_in B1' a n <-> used_in B1 a n).
Proof.
  destruct 1 as [B x b Hx|B b Hlast]; intros Ha.
  - split_and!.
    + induction B as [|y B IH]; [done|]. destruct B as [|z B]; cbn in *; [|by destruct Ha; split; [|apply IH]]. destruct Ha as [Hyx _].
      split; [|done]. intros [Hy _]. by apply Hyx.
    + rewrite free_len_app. cbn. rewrite decide_True by done. lia.
    + intros a n. unfold used_in. rewrite elem_of_app, list_elem_of_singleton. split; [by left|]. intros [?|<-]; [done|]. discriminate Hx.
  - split_and!; try done. induction B as [|y B IH]; [done|]. destruct B as [|z B].
    + cbn. split; [|done]. intros [Hy _]. by apply (Hlast [] y).
    + cbn [app apart] in *. destruct Ha as [Hyz Ha]. split; [done|]. apply IH; [|done]. intros B' x E. apply (Hlast (y :: B')). by rewrite E.
Qed.

Lemma joins_high_spec lo B1 b B2 hi b' B2' : joins_high b B2 b' B2' -> b_free b -> tiles lo (B1 ++ b :: B2) hi -> apart B2 -> apart (B1 ++ [b]) ->
  tiles lo (B1 ++ b' :: B2') hi /\ apart (B1 ++ b' :: B2') /\ b_free b' /\ b_len b' + free_len B2' = b_len b + free_len B2 /\
  (forall a n, used_in B2' a n <-> used_in B2 a n).
Proof.
  intros Hj Hb Ht Ha Ha1. enough (tiles lo (B1 ++ b' :: B2') hi /\ apart (b' :: B2') /\ b_addr b' = b_addr b /\ b_free b' /\
    b_len b' + free_len B2' = b_len b + free_len B2 /\ (forall a n, used_in B2' a n <-> used_in B2 a n)) as (H1 & H2 & H3 & H4 & H5 & H6).
  { split_and!; [done| |done..]. apply apart_mid. split; [|done]. clear -Ha1 Hb H4. induction B1 as [|y B1 IH]; [done|]. destruct B1 as [|z B1].
    - cbn in *. destruct Ha1 as [Ha1 _]. split; [|done]. intros [Hy _]. by apply Ha1.
    - cbn [app apart] in *. destruct Ha1. split; [done|]. by apply IH. }
  destruct Hj as [b x B Hx|b B Hfirst].
  - split_and!; [| | |done| |].
    + apply room_app in Ht as (mid & H1 & H2). apply room_app. exists mid. split; [done|]. cbn in *. destruct H2 as (? & ? & ? & ? & ? & ? & ?).
      split_and!; [done|lia|done|]. by rewrite Z.add_assoc.
    + destruct B as [|y B]; [done|]. cbn in *. destruct Ha as [Hxy Ha]. split; [|done]. intros [_ Hy]. by apply Hxy.
    + done.
    + cbn. rewrite decide_True by done. lia.
    + intros a n. unfold used_in. rewrite elem_of_cons. split; [by right|]. intros [<-|?]; [|done]. discriminate Hx.
  - split_and!; try done. destruct B as [|y B]; [done|]. cbn. split; [|done]. intros [_ Hy]. by eapply Hfirst.
Qed.

Lemma full_in bs x : x ∈ full bs <-> x = start_block \/ x ∈ bs \/ x = end_block.
Proof. unfold full. rewrite elem_of_cons, elem_of_app, list_elem_of_singleton. done. Qed.

Lemma merge_low_laid lo hi B1 b B2 c f us m : 0 < lo -> hi < top_address -> tiles lo (B1 ++ b :: B2) hi -> b_free b -> laid (full (B1 ++ b :: B2)) m ->
  start_block :: B1 = c ++ f :: us -> b_free f -> held us ->
  exists B1' b' m', merge (b_addr f) (b_addr b) m = Some (b_addr b', m') /\ joins_low B1 b B1' b' /\ laid (full (B1' ++ b' :: B2)) m'.
Proof.
  intros Hlo Hhi Ht Hb H E Hf Hus. pose proof (tiles_sides _ _ _ _ _ Ht) as (T1 & ? & ? & ? & T2). unfold top_address in *.
  assert (b_addr f + b_len f <> b_addr b -> (forall B' x, B1 = B' ++ [x] -> ~ b_free x) -> exists B1' b' m',
    merge (b_addr f) (b_addr b) m = Some (b_addr b', m') /\ joins_low B1 b B1' b' /\ laid (full (B1' ++ b' :: B2)) m') as Hapart.
  { intros Hne Hlast. exists B1, b, m. split_and!; [|by apply jl_held|done].
    assert (f ∈ start_block :: B1) as Hin by (rewrite E; apply elem_of_app; right; left).
    apply (merge_apart _ f b m H); [|apply full_in; right; left; apply elem_of_app; right; left|done..|].
    - apply full_in. apply elem_of_cons in Hin as [->|Hin]; [by left|]. right; left. apply elem_of_app. by left.
    - apply elem_of_cons in Hin as [->|Hin]; [cbn; unfold add64, wrap; rewrite Z.mod_0_l; lia|].
      rewrite Forall_forall in T1. specialize (T1 f Hin). rewrite add64_small; lia. }
  destruct us as [|y us1 _] using rev_ind.
  - destruct c as [|s c]; cbn [app] in E; injection E as <- E.
    + subst B1. apply Hapart; [cbn; lia|]. intros B' x Ex. by destruct B'.
    + subst B1. rewrite <-app_assoc in H, Ht. cbn [app] in H, Ht. rewrite full_mid in H. destruct (full_high B2) as (us' & g & c' & E2 & Hg & Hus').
      cbn [app] in H. rewrite E2 in H. apply room_app in Ht as (mid & Ht1 & Ht2). cbn in Ht2. destruct Ht2 as (? & ? & ? & ? & ? & ? & Ht2).
      apply room_le in Ht2. apply room_le in Ht1.
      destruct (merge_laid (start_block :: c) f [] us' g c' Hf ltac:(constructor) Hus' Hg b m eq_refl Hb H) as (m' & Em & H'); [rewrite add64_small; lia|].
      exists c, (mkBlock (b_addr f) (b_len f + b_len b) Free), m'. split_and!; [done|by constructor|].
      rewrite add64_small, <-E2 in H' by lia. by rewrite full_mid.
  - assert (B1 = tail (c ++ f :: us1) ++ [y]) as EB.
    { rewrite app_comm_cons, app_assoc in E. destruct (c ++ f :: us1) eqn:Ec; [by destruct c|]. injection E as _ E. exact E. }
    apply Hapart.
    + rewrite EB in T1. apply Forall_app in T1 as [T0 [T1 _]%Forall_cons]. destruct c as [|s c]; cbn [app tail] in *; injection E as <- E; [cbn; lia|].
      rewrite EB in Ht. rewrite <-!app_assoc in Ht. cbn [app] in Ht. apply tiles_sides in Ht as (_ & _ & _ & _ & Ht).
      apply Forall_app in Ht as [_ [Hy [Hb' _]%Forall_cons]%Forall_cons]. lia.
    + intros B' x Ex. rewrite EB in Ex. apply app_inj_tail in Ex as [_ <-]. apply Forall_app in Hus as [_ [Hy _]%Forall_cons]. done.
Qed.

Lemma merge_high_laid lo hi B1 b B2 us g c m : 0 < lo -> hi < top_address -> tiles lo (B1 ++ b :: B2) hi -> b_free b -> laid (full (B1 ++ b :: B2)) m ->
  B2 ++ [end_block] = us ++ g :: c -> b_free g -> held us ->
  exists b' B2' it m', merge (b_addr b) (b_addr g) m = Some (it, m') /\ joins_high b B2 b' B2' /\ laid (full (B1 ++ b' :: B2')) m'.
Proof.
  intros Hlo Hhi Ht Hb H E Hg Hus. pose proof (tiles_sides _ _ _ _ _ Ht) as (T1 & ? & ? & ? & T2). unfold top_address in *.
  assert (b_addr b + b_len b <> b_addr g -> (forall x B', B2 = x :: B' -> ~ b_free x) -> exists b' B2' it m',
    merge (b_addr b) (b_addr g) m = Some (it, m') /\ joins_high b B2 b' B2' /\ laid (full (B1 ++ b' :: B2')) m') as Hapart.
  { intros Hne Hfirst. exists b, B2, (b_addr g), m. split_and!; [|by apply jh_held|done].
    apply (merge_apart _ b g m H); [apply full_in; right; left; apply elem_of_app; right; left| |done..|rewrite add64_small; lia].
    assert (g ∈ B2 ++ [end_block]) as Hin by (rewrite E; apply elem_of_app; right; left). apply full_in. right.
    apply elem_of_app in Hin as [?|Hin]; [|right; by apply list_elem_of_singleton in Hin]. left. apply elem_of_app. right. by right. }
  destruct us as [|y us].
  - destruct B2 as [|x B2]; cbn [app] in E; [injection E as <- E|injection E as -> E].
    + apply Hapart; [cbn; unfold top_address; lia|done].
    + apply room_app in Ht as (mid & _ & Ht). cbn in Ht. destruct Ht as (? & ? & ? & ? & ? & ? & Ht). apply room_le in Ht.
      rewrite full_mid in H. cbn [app] in H. destruct (full_high B2) as (us' & g' & c' & E2 & Hg' & Hus'). rewrite E2 in H.
      destruct (merge_laid (start_block :: B1) b [] us' g' c' Hb ltac:(constructor) Hus' Hg' g m eq_refl Hg H) as (m' & Em & H'); [rewrite add64_small; lia|].
      exists (mkBlock (b_addr b) (b_len b + b_len g) Free), B2, (b_addr b), m'. split_and!; [done|by constructor|].
      rewrite add64_small, <-E2 in H' by lia. by rewrite full_mid.
  - destruct B2 as [|x B2]; cbn [app] in E; [injection E as _ E; by destruct us|injection E as -> E].  apply Forall_cons in Hus as [Hy Hus]. apply Hapart.
    + apply room_app in Ht as (mid & _ & Ht). cbn in Ht. destruct Ht as (? & ? & ? & Ey & ? & ? & Ht). pose proof (room_le _ _ _ Ht).
      assert (g ∈ B2 ++ [end_block]) as Hin by (rewrite E; apply elem_of_app; right; left).
      apply elem_of_app in Hin as [Hin|Hin%list_elem_of_singleton]; [|subst g; cbn; unfold top_address; lia].
      apply room_bounds in Ht. rewrite Forall_forall in Ht. specialize (Ht g Hin). lia.
    + intros x B' [= -> ->]. done.
Qed.

Lemma tiles_used B1 : Forall (fun x => b_kind x <> Raw) B1 -> forall us, (exists c, start_block :: B1 = c ++ us) -> held us -> Forall (fun x => b_kind x = Used) us.
Proof.
  intros Hr us [c E] Hus. apply Forall_forall. intros x Hx. rewrite Forall_forall in Hus, Hr. specialize (Hus x Hx).
  assert (x ∈ start_block :: B1) as Hin by (rewrite E; apply elem_of_app; by right). apply elem_of_cons in Hin as [->|Hin]; [by destruct Hus|].
  specialize (Hr x Hin). unfold b_free in Hus. by destruct (b_kind x).
Qed.

Lemma free_laid lo hi B1 b B2 h : 0 < lo -> hi < top_address -> tiles lo (B1 ++ b :: B2) hi -> b_kind b = Used -> laid (full (B1 ++ b :: B2)) (memory h) ->
  exists B1' b' b'' B2' m', joins_low B1 (mkBlock (b_addr b) (b_len b) Free) B1' b' /\ joins_high b' B2 b'' B2' /\ laid (full (B1' ++ b'' :: B2')) m' /\
    free (b_addr b) h = Some (mkSmallHeap (pool h) (length_ h) (total_free h +64 b_len b) m' (map_erase (b_addr b) (high h))).
Proof.
  intros Hlo Hhi Ht Hb H. pose proof (tiles_sides _ _ _ _ _ Ht) as (T1 & L1 & L2 & L3 & T2). unfold free. rewrite (proj2 (Z.eqb_neq (b_addr b) 0)) by lia.
  rewrite full_mid in H. destruct (laid_find _ _ _ _ H) as (n & Hn & Ln & _). rewrite Hn. cbn [mbind option_bind].
  destruct (full_low B1) as (c & f & us & E1 & Hf & Hus), (full_high B2) as (us' & g & c' & E2 & Hg & Hus').
  assert (Forall (fun x => b_kind x = Used) us) as Hu.
  { apply (tiles_used B1); [|exists (c ++ [f]); rewrite E1; by flat|done]. apply room_app in Ht as (mid & Ht & _). eapply Forall_impl; [by eapply room_bounds|]. cbn. tauto. }
  assert (forall x, c ++ f :: us ++ x :: us' ++ g :: c' = (start_block :: B1) ++ x :: us' ++ g :: c') as E1' by (intros x; rewrite E1; by flat).
  rewrite E2, <-E1' in H.
  destruct (free_before_laid c f us b (us' ++ g :: c') (memory h) (length (memory h)) H Hf Hu) as (nf & E3 & Ef).
  { pose proof (lseg_keys _ _ _ _ (la_seg _ _ H)) as Ek. apply (f_equal length) in Ek. rewrite !length_fmap in Ek. rewrite Ek, length_app. cbn. rewrite length_app. lia. }
  rewrite E3. cbn [mbind option_bind snd fst].
  assert (next nf = At (b_addr g)) as ->.
  { destruct (laid_find _ _ _ _ H) as (nf' & Hnf' & _ & K). rewrite Ef in Hnf'. injection Hnf' as <-. rewrite (Hf : b_kind f = Free) in K.
    rewrite (proj1 K), first_free_app, first_free_held by done. cbn [first_free]. rewrite decide_False by (unfold b_free; congruence).
    rewrite first_free_app, first_free_held by done. cbn [first_free]. by rewrite decide_True. }
  assert (b_addr b < b_addr g) as Hbg.
  { assert (g ∈ B2 ++ [end_block]) as Hin by (rewrite E2; apply elem_of_app; right; left). unfold top_address in *.
    apply elem_of_app in Hin as [Hin|Hin%list_elem_of_singleton]; [rewrite Forall_forall in T2; specialize (T2 g Hin); lia|subst g; cbn; unfold top_address; lia]. }
  rewrite (proj2 (Z.ltb_lt _ _)) by done. cbn [check mbind option_bind].
  destruct (insertafter_laid c f us us' g c' Hf Hus Hus' Hg b (memory h)) as (m1 & Ei & Hi); [unfold b_free; congruence|done|].
  rewrite Ei. cbn [mbind option_bind]. rewrite E1', <-E2 in Hi. set (bF := mkBlock (b_addr b) (b_len b) Free) in *.
  rewrite <-full_mid in Hi. assert (tiles lo (B1 ++ bF :: B2) hi) as Ht1.
  { apply room_app in Ht as (mid & Ta & Tb). apply room_app. exists mid. split; [done|]. cbn in *. destruct Tb as (? & ? & ? & ?). done. }
  destruct (merge_low_laid lo hi B1 bF B2 c f us m1 Hlo Hhi Ht1 eq_refl Hi E1 Hf Hus) as (B1' & b' & m2 & E4 & J1 & H2).
  change (b_addr bF) with (b_addr b) in E4. rewrite E4. cbn [mbind option_bind].
  destruct (joins_low_tiles lo B1 bF B2 hi B1' b' J1 eq_refl Ht1) as [Ht2 Hb'].
  rewrite full_mid in H2. destruct (laid_find _ _ _ _ H2) as (n2 & Hn2 & _ & K2). rewrite Hn2. cbn [mbind option_bind].
  rewrite (Hb' : b_kind b' = Free) in K2. rewrite (proj1 K2), E2, first_free_app, first_free_held by done. cbn [first_free]. rewrite decide_True by done.
  rewrite <-full_mid in H2. destruct (merge_high_laid lo hi B1' b' B2 us' g c' m2 Hlo Hhi Ht2 Hb' H2 E2 Hg Hus') as (b'' & B2' & it & m3 & E5 & J2 & H3).
  rewrite E5. cbn [mbind option_bind]. rewrite Ln. by exists B1', b', b'', B2', m3.
Qed.

(** ** The walks over the free list *)

Abbreviation too_small bytes := (Forall (fun x => b_free x -> b_len x < bytes)).

Lemma alloc_walk_laid c bs h bytes fuel : laid (c ++ bs ++ [end_block]) (memory h) -> 0 < bytes -> (length bs < fuel)%nat ->
  (exists c1 b c2 n, bs = c1 ++ b :: c2 /\ b_free b /\ bytes <= b_len b /\ too_small bytes c1 /\ map_find (b_addr b) (memory h) = Some n /\ len n = b_len b /\
     alloc_walk fuel bytes (first_free (bs ++ [end_block]) End) h = alloc_at bytes (b_addr b) n h) \/
  (too_small bytes bs /\ alloc_walk fuel bytes (first_free (bs ++ [end_block]) End) h = Some (0, h)).
Proof.
  intros H Hb. revert c fuel H. induction bs as [|x bs IH]; intros c fuel H Hf.
  - right. split; [constructor|]. destruct fuel as [|fuel]; [cbn in Hf; lia|]. destruct (laid_isfree c end_block [] _ H) as (n & Hn & Ln & K).
    cbn [app first_free]. rewrite decide_True by done. cbn [alloc_walk deref]. rewrite Hn. cbn [mbind option_bind]. unfold islastfree. cbn in K. rewrite (proj1 (proj2 K)), bool_decide_eq_true_2 by done. by rewrite Ln.
  - assert (laid ((c ++ [x]) ++ bs ++ [end_block]) (memory h)) as Hx by (revert H; by flat). cbn [app first_free]. destruct (decide (b_free x)) as [Fx|Fx].
    + destruct fuel as [|fuel]; [lia|]. cbn in Hf. destruct (laid_isfree c x (bs ++ [end_block]) _ H) as (n & Hn & Ln & K). rewrite (Fx : b_kind x = Free) in K.
      destruct K as (_ & K & _). cbn [alloc_walk deref]. rewrite Hn. cbn [mbind option_bind].
      assert (islastfree n = false) as ->.
      { unfold islastfree. apply bool_decide_eq_false. rewrite K. destruct (full_high bs) as (us & g & c' & E & Hg & Hus). rewrite E, first_free_app, first_free_held by done.
        cbn [first_free]. by rewrite decide_True. }
      rewrite Ln. destruct (Z.leb_spec bytes (b_len x)) as [Hle|Hgt].
      * left. exists [], x, bs, n. split_and!; [done|done|done|constructor|done|done|done].
      * rewrite K. destruct (IH _ fuel Hx ltac:(lia)) as [(c1 & b & c2 & n' & -> & H1 & H2 & H3 & H4)|[H1 H2]].
        -- left. exists (x :: c1), b, c2, n'. split_and!; [done|done|done| |apply H4|apply H4|apply H4]. by constructor.
        -- right. split; [by constructor|done].
    + destruct (IH _ fuel Hx) as [(c1 & b & c2 & n' & -> & H1 & H2 & H3 & H4)|[H1 H2]]; [cbn in Hf; lia| |].
      * left. exists (x :: c1), b, c2, n'. split_and!; [done|done|done| |apply H4|apply H4|apply H4]. by constructor.
      * right. split; [by constructor|done].
Qed.

Lemma alloc_high_walk_laid c bs h bytes fuel : laid (start_block :: bs ++ c) (memory h) -> 0 < bytes -> (length bs < fuel)%nat ->
  (exists c1 b c2 n, bs = c1 ++ b :: c2 /\ b_free b /\ bytes <= b_len b /\ too_small bytes c2 /\ map_find (b_addr b) (memory h) = Some n /\ len n = b_len b /\
     alloc_high_walk fuel bytes (last_free End (start_block :: bs)) h = alloc_high_at bytes (b_addr b) n h) \/
  (too_small bytes bs /\ alloc_high_walk fuel bytes (last_free End (start_block :: bs)) h = Some (0, h)).
Proof.
  intros H Hb. revert c fuel H. induction bs as [|x bs IH] using rev_ind; intros c fuel H Hf.
  - right. split; [constructor|]. destruct fuel as [|fuel]; [cbn in Hf; lia|]. destruct (laid_isfree [] start_block c _ H) as (n & Hn & Ln & K).
    cbn [last_free]. rewrite decide_True by done. cbn [alloc_high_walk deref]. rewrite Hn. cbn [mbind option_bind]. unfold isfirstfree. cbn in K. rewrite (proj2 (proj2 K)), bool_decide_eq_true_2 by done. by rewrite Ln.
  - rewrite length_app in Hf. cbn in Hf. assert (laid (start_block :: bs ++ x :: c) (memory h)) as Hx by (revert H; by flat).
    rewrite app_comm_cons, last_free_app. cbn [last_free]. change (last_free (if decide (b_free start_block) then At (b_addr start_block) else End) bs) with (last_free End (start_block :: bs)).
    destruct (decide (b_free x)) as [Fx|Fx].
    + destruct fuel as [|fuel]; [lia|]. destruct (laid_isfree (start_block :: bs) x c _ Hx) as (n & Hn & Ln & K). rewrite (Fx : b_kind x = Free) in K.
      destruct K as (_ & _ & K). cbn [alloc_high_walk deref]. rewrite Hn. cbn [mbind option_bind].
      assert (isfirstfree n = false) as ->.
      { unfold isfirstfree. apply bool_decide_eq_false. rewrite K. destruct (full_low bs) as (d & f & us & E & Hf' & Hus). rewrite E, last_free_app. cbn [last_free].
        by rewrite decide_True, last_free_held. }
      rewrite Ln. destruct (Z.leb_spec bytes (b_len x)) as [Hle|Hgt].
      * left. exists bs, x, [], n. split_and!; [done|done|done|constructor|done|done|done].
      * rewrite K. destruct (IH _ fuel Hx ltac:(lia)) as [(c1 & b & c2 & n' & -> & H1 & H2 & H3 & H4)|[H1 H2]].
        -- left. exists c1, b, (c2 ++ [x]), n'. split_and!; [by flat|done|done| |apply H4|apply H4|apply H4]. apply Forall_app. split; [done|]. by constructor.
        -- right. split; [apply Forall_app; split; [done|]; by constructor|done].
    + destruct (IH _ fuel Hx ltac:(lia)) as [(c1 & b & c2 & n' & -> & H1 & H2 & H3 & H4)|[H1 H2]].
      * left. exists c1, b, (c2 ++ [x]), n'. split_and!; [by flat|done|done| |apply H4|apply H4|apply H4]. apply Forall_app. split; [done|]. by constructor.
      * right. split; [apply Forall_app; split; [done|]; by constructor|done].
Qed.
