(* ===== verification/SmallHeapSpec.v ===== *)
(** * SmallHeapSpec: the first-fit allocator refines its specification *)

From stdpp Require Import gmap.
From S2P Require Import Prelude.
From S2P Require Import StdMap.
From S2P Require Import SmallHeap.
From S2P Require Import SmallHeapLayout.
#[local] Open Scope Z_scope.

(** ** The specification *)

(** The blocks handed out: their sizes, and whether [alloc_high] did. *)
Record spec := mkSpec { sp_base : Z; sp_size : Z; sp_live : gmap Z (Z * bool) }.
Definition sp_set_live l s := mkSpec (sp_base s) (sp_size s) l.

(** The pool has room at [a]. *)
Definition fits (s : spec) (n a : Z) : Prop :=
  0 < n /\ sp_base s <= a /\ a + n <= sp_base s + sp_size s /\
  forall x k t, sp_live s !! x = Some (k, t) -> a + n <= x \/ x + k <= a.

Inductive heap_op := OpAlloc (bytes : Z) | OpAllocHigh (bytes : Z) | OpFree (ptr : Z).

Inductive spec_step : spec -> heap_op -> Z -> spec -> Prop :=
  | sp_alloc s n a : fits s n a -> (forall a', fits s n a' -> a <= a') ->
      spec_step s (OpAlloc n) a (sp_set_live (<[a := (n, false)]> (sp_live s)) s)
  | sp_alloc_full s n : (forall a, ~ fits s n a) -> spec_step s (OpAlloc n) 0 s
  | sp_high s n a : fits s n a -> (forall a', fits s n a' -> a' <= a) ->
      spec_step s (OpAllocHigh n) a (sp_set_live (<[a := (n, true)]> (sp_live s)) s)
  | sp_high_full s n : (forall a, ~ fits s n a) -> spec_step s (OpAllocHigh n) 0 s
  | sp_free_null s : spec_step s (OpFree 0) 0 s
  | sp_free s a e : sp_live s !! a = Some e -> spec_step s (OpFree a) 0 (sp_set_live (delete a (sp_live s)) s).

Inductive spec_steps : spec -> list heap_op -> list Z -> spec -> Prop :=
  | sps_nil s : spec_steps s [] [] s
  | sps_cons s op r s1 ops rs s2 : spec_step s op r s1 -> spec_steps s1 ops rs s2 -> spec_steps s (op :: ops) (r :: rs) s2.

Definition sp_used (s : spec) : Z := map_fold (fun _ e acc => e.1 + acc) 0 (sp_live s).

(** The lowest block of [alloc_high], the guard without one. *)
Definition sp_split (s : spec) (m : Z) : Prop :=
  (m = top_address \/ exists n, sp_live s !! m = Some (n, true)) /\ m <= top_address /\ forall x n, sp_live s !! x = Some (n, true) -> m <= x.

Definition do_heap_op (op : heap_op) (h : SmallHeap) : option (Z * SmallHeap) :=
  match op with
  | OpAlloc bytes => alloc bytes h
  | OpAllocHigh bytes => alloc_high bytes h
  | OpFree ptr => h ← free ptr h; Some (0, h)
  end.
Fixpoint do_heap_ops (ops : list heap_op) (h : SmallHeap) : option (list Z * SmallHeap) :=
  match ops with
  | [] => Some ([], h)
  | op :: ops => '(r, h) ← do_heap_op op h; '(rs, h) ← do_heap_ops ops h; Some (r :: rs, h)
  end.

(** [size_t] arguments. *)
Definition op_ok (op : heap_op) : Prop :=
  match op with OpAlloc n | OpAllocHigh n => 0 <= n < 2 ^ 64 | OpFree _ => True end.

(** The heap [h], laid out as [bs], is in the state [s]. *)
Record refines (s : spec) (bs : list block) (h : SmallHeap) : Prop := {
  rf_pool : pool h = sp_base s /\ length_ h = sp_size s /\ 0 < sp_base s /\ sp_base s + sp_size s < top_address;
  rf_tiles : tiles (sp_base s) bs (sp_base s + sp_size s);
  rf_apart : apart bs;
  rf_laid : laid (full bs) (memory h);
  rf_free : total_free h = free_len bs;
  rf_live : forall a n, used_in bs a n <-> exists t, sp_live s !! a = Some (n, t);
  rf_sorted : map_sorted (high h);
  rf_high : forall k, map_find k (high h) = Some tt <-> k = top_address \/ exists n, sp_live s !! k = Some (n, true);
}.

(** ** Room is a free block *)

Lemma used_block x : b_kind x = Used -> mkBlock (b_addr x) (b_len x) Used = x.
Proof. destruct x. cbn. by intros ->. Qed.

Lemma span_in_free lo bs hi n a : tiles lo bs hi -> apart bs -> 0 < n -> lo <= a -> a + n <= hi ->
  (forall x k, used_in bs x k -> a + n <= x \/ x + k <= a) -> exists b, b ∈ bs /\ b_free b /\ b_addr b <= a /\ a + n <= b_addr b + b_len b.
Proof.
  revert lo. induction bs as [|b bs IH]; cbn [tiles]; intros lo Ht Ha Hn Hlo Hhi Hu; [lia|]. destruct Ht as (<- & Hl & Hk & Ht).
  assert (apart bs) as Ha' by (destruct bs; [done|by destruct Ha]).
  assert (forall x k, used_in bs x k -> a + n <= x \/ x + k <= a) as Hu' by (intros x k Hx; apply Hu; by right).
  destruct (Z.le_gt_cases (b_addr b + b_len b) a) as [Hge|Hlt].
  { destruct (IH _ Ht Ha' Hn Hge Hhi Hu') as (x & Hx & H). exists x. split; [by right|done]. }
  destruct (decide (b_free b)) as [Hf|Hf].
  - exists b. split_and!; [left|done|done|]. destruct (Z.le_gt_cases (a + n) (b_addr b + b_len b)) as [|Hgt]; [done|exfalso].
    destruct bs as [|y bs]; [cbn in Ht; lia|]. cbn in Ht. destruct Ht as (Ey & ? & Hy & _). cbn in Ha.
    assert (b_kind y = Used) as Ky. { destruct (b_kind y) eqn:E; [|done..]. destruct Ha as [Ha _]. by destruct Ha. }
    destruct (Hu (b_addr y) (b_len y)); [unfold used_in; rewrite used_block by done; right; left| |]; lia.
  - assert (b_kind b = Used) as Kb by (unfold b_free in Hf; by destruct (b_kind b)).
    destruct (Hu (b_addr b) (b_len b)); [unfold used_in; rewrite used_block by done; left| |]; lia.
Qed.

Lemma fits_block s bs h n a : refines s bs h ->
  fits s n a <-> 0 < n /\ exists b, b ∈ bs /\ b_free b /\ b_addr b <= a /\ a + n <= b_addr b + b_len b.
Proof.
  intros H. unfold fits. split.
  - intros (Hn & Hlo & Hhi & Hl). split; [done|]. apply (span_in_free _ _ _ _ _ (rf_tiles _ _ _ H) (rf_apart _ _ _ H)); [done..|].
    intros x k Hx. apply (rf_live _ _ _ H) in Hx as [t Hx]. by eapply Hl.
  - intros (Hn & b & Hb & Hf & Hlo & Hhi). split; [done|]. apply list_elem_of_split in Hb as (B1 & B2 & ->).
    destruct (tiles_sides _ _ _ _ _ (rf_tiles _ _ _ H)) as (T1 & ? & ? & ? & T2). split_and!; [lia..|]. intros x k t Hx.
    assert (used_in (B1 ++ b :: B2) x k) as Hu by (apply (rf_live _ _ _ H); by exists t). unfold used_in in Hu. rewrite Forall_forall in T1, T2.
    apply elem_of_app in Hu as [Hu|[Hu|Hu]%elem_of_cons]; [apply T1 in Hu; cbn in Hu; lia| |apply T2 in Hu; cbn in Hu; lia]. subst b. discriminate Hf.
Qed.

(** ** The blocks after an operation *)

Lemma tiles_replace lo B1 b P B2 hi : tiles lo (B1 ++ b :: B2) hi -> tiles (b_addr b) P (b_addr b + b_len b) -> tiles lo (B1 ++ P ++ B2) hi.
Proof. intros (H1 & _ & _ & H2)%tiles_mid HP. apply room_app. exists (b_addr b). split; [done|]. apply room_app. by exists (b_addr b + b_len b). Qed.

Lemma apart_snoc_any B b x : b_free b -> apart (B ++ [b]) -> apart (B ++ [x]).
Proof.
  intros Hb. induction B as [|y B IH]; [done|]. destruct B as [|z B]; cbn [app apart] in *; intros [H1 H2]; (split; [|try done; by apply IH]); [|done].
  intros [Hy _]. by apply H1.
Qed.
Lemma apart_cons_any B b x : b_free b -> apart (b :: B) -> apart (x :: B).
Proof. intros Hb. destruct B as [|y B]; cbn; [done|]. intros [H1 H2]. split; [|done]. intros [_ Hy]. by apply H1. Qed.
Lemma apart_snoc_held B x : apart B -> ~ b_free x -> apart (B ++ [x]).
Proof. intros H Hx. induction B as [|y B IH]; [done|]. destruct B as [|z B]; cbn [app apart] in *; [tauto|]. destruct H. split; [done|by apply IH]. Qed.
Lemma apart_cons_held B x : apart B -> ~ b_free x -> apart (x :: B).
Proof. intros H Hx. destruct B; cbn; tauto. Qed.
Lemma apart_app_l B1 B2 : apart (B1 ++ B2) -> apart B1.
Proof. induction B1 as [|x B1 IH]; [done|]. destruct B1 as [|y B1]; [done|]. cbn [app apart] in *. intros [? ?]. split; [done|]. by apply IH. Qed.
Lemma apart_app_r B1 B2 : apart (B1 ++ B2) -> apart B2.
Proof. induction B1 as [|x B1 IH]; [done|]. cbn [app]. intros H. apply IH. destruct (B1 ++ B2); [done|by destruct H]. Qed.

Section taken.
Context (lo hi : Z) (B1 : list block) (b : block) (B2 : list block) (pre post : list block) (a n : Z).
Context (Ht : tiles lo (B1 ++ b :: B2) hi) (Ha : apart (B1 ++ b :: B2)) (Hb : b_free b).
Context (HP : tiles (b_addr b) (pre ++ mkBlock a n Used :: post) (b_addr b + b_len b)).
Context (Hpre : pre = [] \/ exists x, pre = [x] /\ b_free x) (Hpost : post = [] \/ exists x, post = [x] /\ b_free x).
#[local] Set Default Proof Using "All".
#[local] Notation taken := (B1 ++ (pre ++ mkBlock a n Used :: post) ++ B2).

Lemma taken_apart : apart taken.
Proof.
  apply apart_mid in Ha as [A1 A2]. rewrite <-app_assoc, app_assoc. apply apart_mid. split.
  - apply apart_snoc_held; [|done]. destruct Hpre as [->|(x & -> & Hx)]; [rewrite app_nil_r; by eapply apart_app_l|by apply (apart_snoc_any B1 b)].
  - cbn [app]. apply apart_cons_held; [|done]. destruct Hpost as [->|(x & -> & Hx)]; [by apply (apart_app_r [b])|by apply (apart_cons_any B2 b x)].
Qed.

Lemma taken_free : free_len taken = free_len (B1 ++ b :: B2) - n.
Proof.
  rewrite !free_len_app. cbn [free_len]. rewrite decide_False, decide_True by done.
  assert (free_len pre + free_len post = b_len b - n); [|lia]. apply room_app in HP as (mid & H1 & H2). cbn in H2. destruct H2 as (Ea & _ & _ & H2).
  assert (forall l x y, (l = [] \/ exists z, l = [z] /\ b_free z) -> tiles x l y -> free_len l = y - x) as Hlen.
  { intros l x y [->|(z & -> & Hz)]; cbn; [lia|]. rewrite decide_True by done. lia. }
  rewrite (Hlen pre _ _ Hpre H1), (Hlen post _ _ Hpost H2). lia.
Qed.

Lemma taken_used x k : used_in taken x k <-> (x = a /\ k = n) \/ used_in (B1 ++ b :: B2) x k.
Proof.
  unfold used_in. rewrite !elem_of_app, !elem_of_cons.
  assert (forall l, (l = [] \/ exists z, l = [z] /\ b_free z) -> mkBlock x k Used ∉ l) as Hno.
  { intros l [->|(z & -> & Hz)]; [by apply not_elem_of_nil|]. rewrite list_elem_of_singleton. intros <-. discriminate Hz. }
  pose proof (Hno pre Hpre). pose proof (Hno post Hpost). assert (mkBlock x k Used <> b) by (intros <-; discriminate Hb).
  split; [intros [?|[[?|[[= -> ->]|?]]|?]]; tauto|]. intros [[-> ->]|?]; tauto.
Qed.

Lemma taken_new k : ~ used_in (B1 ++ b :: B2) a k.
Proof.
  destruct (tiles_sides _ _ _ _ _ Ht) as (T1 & ? & ? & ? & T2). destruct (tiles_sides _ _ _ _ _ HP) as (_ & ? & ? & ? & _). cbn in *. rewrite Forall_forall in T1, T2.
  intros [Hu|[Hu|Hu]%elem_of_cons]%elem_of_app; [apply T1 in Hu; cbn in Hu; lia| |apply T2 in Hu; cbn in Hu; lia]. subst b. discriminate Hb.
Qed.
End taken.

(** ** The operations refine the specification *)

Lemma refines_free_len s bs h : refines s bs h -> 0 <= free_len bs < 2 ^ 64.
Proof.
  intros H. destruct (rf_pool _ _ _ H) as (_ & _ & ? & ?). destruct (free_len_le _ _ _ (rf_tiles _ _ _ H)) as [? _]. unfold top_address in *. lia.
Qed.

Lemma not_live_high s bs h a : refines s bs h -> sp_live s !! a = None -> a <> top_address -> map_find a (high h) = None.
Proof.
  intros H Hl Hg. destruct (map_find a (high h)) as [[]|] eqn:E; [|done]. apply (rf_high _ _ _ H) in E as [?|[n E]]; [done|congruence].
Qed.

Lemma take_refines s B1 b B2 h pre post a n (tag : bool) m' : refines s (B1 ++ b :: B2) h -> b_free b -> 0 <= n <= b_len b ->
  tiles (b_addr b) (pre ++ mkBlock a n Used :: post) (b_addr b + b_len b) ->
  (pre = [] \/ exists x, pre = [x] /\ b_free x) -> (post = [] \/ exists x, post = [x] /\ b_free x) ->
  laid (full (B1 ++ (pre ++ mkBlock a n Used :: post) ++ B2)) m' ->
  refines (sp_set_live (<[a := (n, tag)]> (sp_live s)) s) (B1 ++ (pre ++ mkBlock a n Used :: post) ++ B2)
    (mkSmallHeap (pool h) (length_ h) (total_free h -64 n) m' (if tag then map_set a tt (high h) else high h)).
Proof.
  intros H Hb Hn HP Hpre Hpost Hl. pose proof (refines_free_len _ _ _ H) as Hfl. destruct (rf_pool _ _ _ H) as (P1 & P2 & P3 & P4).
  pose proof (rf_tiles _ _ _ H) as Ht. pose proof (rf_apart _ _ _ H) as Ha.
  assert (free_len (B1 ++ (pre ++ mkBlock a n Used :: post) ++ B2) = free_len (B1 ++ b :: B2) - n) as Hf by (by eapply taken_free).
  assert (sp_live s !! a = None) as Hnew.
  { destruct (sp_live s !! a) as [[k t]|] eqn:E; [exfalso|done]. eapply (taken_new _ _ B1 b B2 pre post a n); [done..|]. apply (rf_live _ _ _ H). by exists t. }
  pose proof (tiles_replace _ _ _ _ _ _ Ht HP) as Ht'. destruct (tiles_sides _ _ _ _ _ Ht) as (_ & S1 & S2 & S3 & _). destruct (tiles_sides _ _ _ _ _ HP) as (_ & S4 & S5 & S6 & _). cbn in *.
  pose proof (not_live_high _ _ _ _ H Hnew ltac:(lia)) as Hh. split; cbn; [done|done|by eapply taken_apart|done| | | |].
  - rewrite Hf, (rf_free _ _ _ H), sub64_small; [done|]. rewrite <-Hf in *. destruct (free_len_le _ _ _ Ht') as [? _]. lia.
  - intros x k. rewrite (taken_used (sp_base s) (sp_base s + sp_size s)) by done. rewrite (rf_live _ _ _ H). destruct (decide (a = x)) as [<-|Hne].
    + rewrite lookup_insert_eq. split; [|intros [t [= -> ->]]; by left]. intros [[_ ->]|[t Hx]]; [by exists tag|congruence].
    + rewrite lookup_insert_ne by done. split; [|by right]. intros [[-> _]|?]; done.
  - destruct tag; [|by apply (rf_sorted _ _ _ H)]. by apply map_set_sorted; [apply (rf_sorted _ _ _ H)|].
  - intros k. destruct (decide (a = k)) as [<-|Hne].
    + rewrite lookup_insert_eq. destruct tag.
      * rewrite map_find_set_same by (done || apply (rf_sorted _ _ _ H)). split; [|done]. intros _. right. by exists n.
      * rewrite Hh. split; [done|]. intros [->|[n' [=]]]. lia.
    + rewrite lookup_insert_ne by done. rewrite <-(rf_high _ _ _ H). destruct tag; [by rewrite map_find_set_other|done].
Qed.

Lemma no_room s bs h n : refines s bs h -> 0 < n -> (too_small n bs \/ free_len bs < n) -> forall a, ~ fits s n a.
Proof.
  intros H Hn Hs a Hf. apply (fits_block _ _ _ _ _ H) in Hf as (_ & b & Hb & Hf & Hlo & Hhi).
  destruct (free_len_le _ _ _ (rf_tiles _ _ _ H)) as [_ Hle]. rewrite Forall_forall in Hle. specialize (Hle b Hb Hf).
  destruct Hs as [Hs|Hs]; [|lia]. rewrite Forall_forall in Hs. specialize (Hs b Hb Hf). lia.
Qed.

Lemma fits_first s B1 b B2 h n a : refines s (B1 ++ b :: B2) h -> too_small n B1 -> fits s n a -> b_addr b <= a.
Proof.
  intros H Hs Hf. apply (fits_block _ _ _ _ _ H) in Hf as (_ & x & Hx & Hf & Hlo & Hhi). destruct (tiles_sides _ _ _ _ _ (rf_tiles _ _ _ H)) as (_ & ? & ? & ? & T2).
  rewrite Forall_forall in T2, Hs. apply elem_of_app in Hx as [Hx|[->|Hx]%elem_of_cons]; [specialize (Hs x Hx Hf); lia|done|specialize (T2 x Hx); lia].
Qed.

Lemma fits_last s B1 b B2 h n a : refines s (B1 ++ b :: B2) h -> too_small n B2 -> n <= b_len b -> fits s n a -> a <= b_addr b + b_len b - n.
Proof.
  intros H Hs Hn Hf. apply (fits_block _ _ _ _ _ H) in Hf as (_ & x & Hx & Hf & Hlo & Hhi). destruct (tiles_sides _ _ _ _ _ (rf_tiles _ _ _ H)) as (T1 & ? & ? & ? & _).
  rewrite Forall_forall in T1, Hs. apply elem_of_app in Hx as [Hx|[->|Hx]%elem_of_cons]; [specialize (T1 x Hx); lia|lia|specialize (Hs x Hx Hf); lia].
Qed.

Lemma firstfree_laid bs m : laid (full bs) m -> firstfree m = Some (first_free (bs ++ [end_block]) End).
Proof.
  intros H. unfold firstfree. rewrite (laid_begin _ _ H). destruct (laid_isfree [] start_block (bs ++ [end_block]) _ H) as (n & Hn & _ & _ & K & _).
  cbn. cbn in Hn. rewrite Hn. cbn. by rewrite K.
Qed.

Lemma lastfree_laid bs m : laid (full bs) m -> lastfree m = Some (last_free End (start_block :: bs)).
Proof.
  intros H. unfold lastfree. pose proof (la_seg _ _ H) as Hs. unfold full in Hs. rewrite app_comm_cons in Hs. apply lseg_app in Hs as (m1 & m2 & -> & _ & Hs).
  apply lseg_cons in Hs as (n & m' & -> & _ & [_ K] & Hs). destruct m'; [|done]. by rewrite last_snoc, <-K.
Qed.

Lemma memory_length s bs h : refines s bs h -> (length bs < length (memory h))%nat.
Proof.
  intros H. pose proof (lseg_keys _ _ _ _ (la_seg _ _ (rf_laid _ _ _ H))) as Ek. apply (f_equal length) in Ek. rewrite !length_fmap in Ek. rewrite Ek.
  unfold full. cbn. rewrite length_app. lia.
Qed.

(** What lies above a block of the pool. *)
Lemma above_block s B1 b B2 h : refines s (B1 ++ b :: B2) h ->
  0 < b_addr b /\ b_addr b + b_len b < 2 ^ 64 /\ Forall (fun x => b_addr b + b_len b <= b_addr x) (B2 ++ [end_block]).
Proof.
  intros H. destruct (rf_pool _ _ _ H) as (_ & _ & ? & ?). destruct (tiles_sides _ _ _ _ _ (rf_tiles _ _ _ H)) as (_ & ? & ? & ? & T2). unfold top_address in *.
  split_and!; [lia..|]. apply Forall_app. split; [eapply Forall_impl; [done|cbn; lia]|]. repeat constructor. cbn. unfold top_address. lia.
Qed.

Lemma alloc_refines s bs h n : refines s bs h -> 0 <= n < 2 ^ 64 ->
  exists r bs' h' s', alloc n h = Some (r, h') /\ spec_step s (OpAlloc n) r s' /\ refines s' bs' h'.
Proof.
  intros H Hn. unfold alloc. destruct ((total_free h <? n) || (n =? 0)) eqn:E.
  { exists 0, bs, h, s. split_and!; [done| |done]. constructor. intros a Hf. rewrite (rf_free _ _ _ H) in E. apply orb_prop in E as [E|E]; zbool.
    - eapply no_room; [done| |by right|done]. pose proof (refines_free_len _ _ _ H). lia.
    - destruct Hf. lia. }
  zbool. rewrite (firstfree_laid _ _ (rf_laid _ _ _ H)). cbn [mbind option_bind].
  destruct (alloc_walk_laid [start_block] bs h n _ (rf_laid _ _ _ H) ltac:(lia) (memory_length _ _ _ H)) as [(B1 & b & B2 & nd & -> & Hb & Hle & Hs & Hnd & Ln & ->)|[Hs ->]].
  - destruct (above_block _ _ _ _ _ H) as (G1 & G2 & G3).
    destruct (laid_alloc B1 b B2 (memory h) n nd h Hb (rf_laid _ _ _ H) eq_refl Ln G1 ltac:(lia) G2 G3) as (m' & -> & Hm).
    set (post := if n =? b_len b then [] else [mkBlock (b_addr b + n) (b_len b - n) Free]) in *.
    eexists _, _, _, _. split_and!; [done| |].
    + constructor; [|intros a' Hf; by eapply fits_first]. apply (fits_block _ _ _ _ _ H). split; [lia|]. exists b. split_and!; [apply elem_of_app; right; left|done|lia..].
    + apply (take_refines s B1 b B2 h [] post (b_addr b) n false m' H Hb); [lia| |by left| |exact Hm].
      * cbn. split_and!; [done|lia|done|]. unfold post. case_zbool; cbn; [lia|]. split_and!; [done|lia|done|lia].
      * unfold post. case_zbool; [by left|right; by eexists].
  - exists 0, bs, h, s. split_and!; [done| |done]. constructor. eapply no_room; [done|lia|by left].
Qed.

Lemma alloc_high_refines s bs h n : refines s bs h -> 0 <= n < 2 ^ 64 ->
  exists r bs' h' s', alloc_high n h = Some (r, h') /\ spec_step s (OpAllocHigh n) r s' /\ refines s' bs' h'.
Proof.
  intros H Hn. unfold alloc_high. destruct ((total_free h <? n) || (n =? 0)) eqn:E.
  { exists 0, bs, h, s. split_and!; [done| |done]. constructor. intros a Hf. rewrite (rf_free _ _ _ H) in E. apply orb_prop in E as [E|E]; zbool.
    - eapply no_room; [done| |by right|done]. pose proof (refines_free_len _ _ _ H). lia.
    - destruct Hf. lia. }
  zbool. rewrite (lastfree_laid _ _ (rf_laid _ _ _ H)). cbn [mbind option_bind].
  destruct (alloc_high_walk_laid [end_block] bs h n _ (rf_laid _ _ _ H) ltac:(lia) (memory_length _ _ _ H)) as [(B1 & b & B2 & nd & -> & Hb & Hle & Hs & Hnd & Ln & ->)|[Hs ->]].
  - destruct (above_block _ _ _ _ _ H) as (G1 & G2 & G3).
    destruct (laid_alloc_high B1 b B2 (memory h) n nd h Hb (rf_laid _ _ _ H) eq_refl Ln G1 ltac:(lia) G2 G3) as (m' & -> & Hm).
    set (pre := if n =? b_len b then [] else [mkBlock (b_addr b) (b_len b - n) Free]) in *. set (a := b_addr b + b_len b - n) in *.
    eexists _, _, _, _. split_and!; [done| |].
    + constructor; [|intros a' Hf; by eapply fits_last]. apply (fits_block _ _ _ _ _ H). split; [lia|]. exists b. split_and!; [apply elem_of_app; right; left|done|lia..].
    + apply (take_refines s B1 b B2 h pre [] a n true m' H Hb); [lia| | |by left|].
      * apply room_app. exists a. split; [|cbn; split_and!; [done|lia|done|lia]]. unfold pre. case_zbool; cbn; [lia|]. split_and!; [done|lia|done|lia].
      * unfold pre. case_zbool; [by left|right; by eexists].
      * revert Hm. by flat.
  - exists 0, bs, h, s. split_and!; [done| |done]. constructor. eapply no_room; [done|lia|by left].
Qed.

Lemma free_refines s bs h a n t : refines s bs h -> sp_live s !! a = Some (n, t) ->
  exists bs' h', free a h = Some h' /\ refines (sp_set_live (delete a (sp_live s)) s) bs' h'.
Proof.
  intros H Hl. assert (used_in bs a n) as Hu by (apply (rf_live _ _ _ H); by exists t). apply list_elem_of_split in Hu as (B1 & B2 & ->).
  set (b := mkBlock a n Used) in *. destruct (rf_pool _ _ _ H) as (P1 & P2 & P3 & P4). pose proof (rf_tiles _ _ _ H) as Ht. pose proof (refines_free_len _ _ _ H) as Hfl.
  destruct (free_laid _ _ B1 b B2 h P3 P4 Ht eq_refl (rf_laid _ _ _ H)) as (B1' & b' & b'' & B2' & m' & J1 & J2 & Hm & E).
  change (b_addr b) with a in *. change (b_len b) with n in *. exists (B1' ++ b'' :: B2'). eexists. split; [exact E|].
  set (bF := mkBlock a n Free) in *. pose proof (tiles_mid _ _ _ _ _ Ht) as (Ta & Tb & _ & Tc).
  assert (tiles (sp_base s) (B1 ++ bF :: B2) (sp_base s + sp_size s)) as HtF by (apply room_app; exists a; by split_and!).
  destruct (apart_mid B1 b B2) as [Hap _]. destruct (Hap (rf_apart _ _ _ H)) as [A1 A2].
  destruct (joins_low_spec _ _ _ _ J1 (apart_app_l _ _ A1)) as (A3 & F1 & U1).
  destruct (joins_low_tiles _ _ _ _ _ _ _ J1 eq_refl HtF) as [Ht2 Hb'].
  destruct (joins_high_spec _ _ _ _ _ _ _ J2 Hb' Ht2 (apart_app_r [b] _ A2) A3) as (Ht3 & A4 & Hb'' & F2 & U2).
  destruct (tiles_sides _ _ _ _ _ Ht) as (T1 & S1 & S2 & S3 & T2). rewrite Forall_forall in T1, T2.
  assert (free_len (B1' ++ b'' :: B2') = free_len (B1 ++ b :: B2) + n) as Hf.
  { rewrite !free_len_app. cbn [free_len]. rewrite decide_True, decide_False by done. cbn in F1. lia. }
  split; cbn; [done|done|done|done| | | |].
  - rewrite Hf, (rf_free _ _ _ H), add64_small; [done|]. rewrite <-Hf. destruct (free_len_le _ _ _ Ht3) as [? _]. unfold top_address in *. lia.
  - intros x k. unfold used_in in *. rewrite elem_of_app, elem_of_cons, U1, U2. destruct (decide (a = x)) as [<-|Hne].
    + rewrite lookup_delete_eq. split; [|by intros [? ?]]. cbn in *. intros [Hx|[Hx|Hx]]; [apply T1 in Hx; cbn in Hx; lia| |apply T2 in Hx; cbn in Hx; lia]. subst b''. discriminate Hb''.
    + rewrite lookup_delete_ne by done. rewrite <-(rf_live _ _ _ H). unfold used_in. rewrite elem_of_app, elem_of_cons.
      assert (mkBlock x k Used <> b) by (unfold b; intros [= -> _]; done). assert (mkBlock x k Used <> b'') by (intros <-; discriminate Hb''). tauto.
  - apply map_erase_sorted, (rf_sorted _ _ _ H).
  - intros k. destruct (decide (a = k)) as [<-|Hne].
    + rewrite map_find_erase_same, lookup_delete_eq by apply (rf_sorted _ _ _ H). split; [done|]. unfold b in S2, S3. cbn in S2, S3. intros [->|[? ?]]; [lia|done].
    + rewrite map_find_erase_other, lookup_delete_ne by done. apply (rf_high _ _ _ H).
Qed.

(** Freeing anything else fails an assertion. *)
Lemma free_illegal s bs h a : refines s bs h -> a <> 0 -> sp_live s !! a = None -> free a h = None.
Proof.
  intros H Ha Hl. unfold free. rewrite (proj2 (Z.eqb_neq a 0)) by done. destruct (map_find a (memory h)) as [n|] eqn:En; [|done]. cbn [mbind option_bind].
  pose proof (rf_laid _ _ _ H) as Hm. assert (exists b B1 B2, bs ++ [end_block] = B1 ++ b :: B2 /\ b_addr b = a /\ b_free b) as (b & B1 & B2 & E & Ea & Hb).
  { apply map_find_split in En as (m1 & m2 & En). pose proof (lseg_keys _ _ _ _ (la_seg _ _ Hm)) as Ek. rewrite En in Ek.
    assert (a ∈ b_addr <$> full bs) as Hin by (rewrite <-Ek, fmap_app, fmap_cons; apply elem_of_app; right; left).
    apply list_elem_of_fmap in Hin as (b & -> & Hin). apply full_in in Hin as [->|[Hin| ->]]; [done|..].
    - destruct (list_elem_of_split _ _ Hin) as (B1 & B2 & ->). exists b, B1, (B2 ++ [end_block]). split_and!; [by flat|done|].
      destruct (decide (b_free b)) as [|Hf]; [done|exfalso]. destruct (tiles_mid _ _ _ _ _ (rf_tiles _ _ _ H)) as (_ & _ & Hr & _).
      assert (b_kind b = Used) as Hk by (unfold b_free in Hf; by destruct (b_kind b)). destruct (rf_live _ _ _ H (b_addr b) (b_len b)) as [Hu _].
      assert (used_in (B1 ++ b :: B2) (b_addr b) (b_len b)) as Hi by (unfold used_in; by rewrite used_block).
      destruct (Hu Hi) as [t Ht]. congruence.
    - by exists end_block, bs, []. }
  assert (full bs = (start_block :: B1) ++ b :: B2) as Efull by (unfold full; by rewrite E). rewrite Efull in Hm.
  destruct (full_low B1) as (c & f & us & E1 & Hf & Hus).
  assert (Forall (fun x => b_kind x = Used) us) as Hu.
  { apply (tiles_used B1); [|exists (c ++ [f]); rewrite E1; by flat|done]. apply Forall_forall. intros x Hx.
    assert (x ∈ bs ++ [end_block]) as Hin by (rewrite E; apply elem_of_app; by left). apply elem_of_app in Hin as [Hin|Hin%list_elem_of_singleton]; [|by subst x].
    pose proof (room_bounds _ _ _ (rf_tiles _ _ _ H)) as Hb'. rewrite Forall_forall in Hb'. apply Hb', Hin. }
  rewrite E1, <-app_assoc in Hm. cbn [app] in Hm. pose proof (memory_length _ _ _ H) as Hlen.
  destruct (free_before_laid c f us b B2 (memory h) (length (memory h)) Hm Hf Hu) as (nf & E3 & Ef).
  { pose proof (lseg_keys _ _ _ _ (la_seg _ _ Hm)) as Ek. apply (f_equal length) in Ek. rewrite !length_fmap in Ek. rewrite Ek, length_app. cbn. rewrite length_app. cbn. lia. }
  rewrite Ea in E3. rewrite E3. cbn [mbind option_bind snd fst]. destruct (laid_find _ _ _ _ Hm) as (nf' & Hnf' & _ & K). rewrite Ef in Hnf'. injection Hnf' as <-.
  rewrite (Hf : b_kind f = Free) in K. rewrite (proj1 K), first_free_app, first_free_held by done. cbn [first_free]. rewrite decide_True by done. rewrite Ea.
  by rewrite Z.ltb_irrefl.
Qed.

(** ** What is observed of a heap *)

Lemma live_sum lo bs hi (live : gmap Z (Z * bool)) : tiles lo bs hi -> (forall a n, used_in bs a n <-> exists t, live !! a = Some (n, t)) ->
  map_fold (fun _ (e : Z * bool) acc => e.1 + acc) 0 live = hi - lo - free_len bs.
Proof.
  revert lo live. induction bs as [|b bs IH]; cbn [tiles free_len]; intros lo live Ht Hl.
  - assert (live = ∅) as ->.
    { apply map_empty. intros a. destruct (live !! a) as [[n t]|] eqn:E; [|done]. assert (used_in [] a n) as Hk by (apply Hl; by exists t). by apply elem_of_nil in Hk. }
    rewrite map_fold_empty. lia.
  - destruct Ht as (<- & Hb & Hk & Ht). pose proof (room_bounds _ _ _ Ht) as Hbs. rewrite Forall_forall in Hbs. destruct (decide (b_free b)) as [Hf|Hf].
    + rewrite (IH _ live Ht); [lia|]. intros a n. rewrite <-Hl. unfold used_in. rewrite elem_of_cons. split; [by right|]. intros [<-|?]; [discriminate Hf|done].
    + assert (b_kind b = Used) as Kb by (unfold b_free in Hf; by destruct (b_kind b)).
      destruct (proj1 (Hl (b_addr b) (b_len b))) as [t Et]; [unfold used_in; rewrite used_block by done; left|].
      rewrite (map_fold_delete_L _ _ (b_addr b) (b_len b, t)); [|intros; lia|done]. rewrite (IH _ (delete (b_addr b) live) Ht); [cbn; lia|].
      intros a n. destruct (decide (b_addr b = a)) as [<-|Hne].
      * rewrite lookup_delete_eq. split; [|by intros [? ?]]. intros Hu. apply Hbs in Hu. cbn in Hu. lia.
      * rewrite lookup_delete_ne, <-Hl by done. unfold used_in. rewrite elem_of_cons. split; [by right|]. intros [<-|?]; done.
Qed.

Lemma remaining_refines s bs h : refines s bs h -> remaining h = sp_size s - sp_used s.
Proof.
  intros H. unfold remaining, sp_used. rewrite (rf_free _ _ _ H), (live_sum _ _ _ _ (rf_tiles _ _ _ H) (rf_live _ _ _ H)). lia.
Qed.

Lemma map_find_in {V} k (v : V) m : map_find k m = Some v -> (k, v) ∈ m.
Proof. intros (l1 & l2 & ->)%map_find_split. apply elem_of_app. right; left. Qed.

Lemma split_refines s bs h : refines s bs h -> exists m, high_split h = Some m /\ sp_split s m.
Proof.
  intros H. pose proof (rf_high _ _ _ H) as Hh. assert (map_find top_address (high h) = Some tt) as Hg by (apply Hh; by left).
  pose proof (rf_sorted _ _ _ H) as Hs. unfold high_split. destruct (high h) as [|[m []] l] eqn:E; [done|]. exists m. split; [done|].
  assert (forall k, map_find k ((m, tt) :: l) = Some tt -> m <= k) as Hle.
  { intros k Hk. apply map_find_in in Hk. apply StronglySorted_inv in Hs as [_ Hs]. rewrite Forall_forall in Hs.
    apply elem_of_cons in Hk as [[= ->]|Hk]; [lia|]. apply Hs in Hk. cbn in Hk. lia. }
  split_and!; [apply Hh; cbn; by rewrite Z.eqb_refl|by apply Hle|]. intros x n Hx. apply Hle, Hh. right. by exists n.
Qed.

(** ** A heap just made *)

Definition fresh_heap (base length : Z) : SmallHeap :=
  mkSmallHeap base length length [(0, mkNode 0 (At base) End); (base, mkNode length (At top_address) (At 0)); (top_address, mkNode 0 End (At base))] [(top_address, tt)].
Definition fresh_spec (base length : Z) : spec := mkSpec base length ∅.

Lemma SmallHeap_new_fresh base length : 0 < base -> base + length < top_address -> 0 <= length -> SmallHeap_new base length = Some (fresh_heap base length).
Proof.
  intros Hb Hl Hl0. unfold top_address in *. unfold SmallHeap_new. rewrite (proj2 (Z.eqb_neq base 0)), (proj2 (Z.eqb_neq base top_address)) by (unfold top_address; lia).
  rewrite add64_small, (proj2 (Z.eqb_neq _ _)) by (unfold top_address; lia). cbn [check negb mbind option_bind].
  assert ((0 <? base) = true) as E1 by lia. assert ((base <? 0) = false) as E2 by lia. assert ((base =? 0) = false) as E3 by lia. assert ((0 =? base) = false) as E6 by lia.
  assert ((top_address <? base) = false) as E4 by (unfold top_address; lia). assert ((top_address =? base) = false) as E5 by (unfold top_address; lia). assert ((base <? top_address) = true) as E7 by (unfold top_address; lia).
  assert ((top_address <? 0) = false) as E8 by done. assert ((top_address =? 0) = false) as E9 by done.
  unfold subscript, update. repeat (cbn [map_find map_set mbind option_bind last begin_ fst];
    rewrite ?E1, ?E2, ?E3, ?E4, ?E5, ?E6, ?E7, ?E8, ?E9, ?Z.eqb_refl, ?Z.ltb_irrefl). done.
Qed.

Lemma fresh_refines base length : 0 < base -> 0 < length -> base + length < top_address ->
  refines (fresh_spec base length) [mkBlock base length Free] (fresh_heap base length).
Proof.
  intros Hb Hl Hg. split; cbn; [done|split_and!; [done|lia|done|done]|done| |rewrite decide_True by done; lia| | |].
  - split; [|by eexists|]; cbn.
    + unfold ascending. cbn. repeat match goal with |- StronglySorted _ _ => constructor | |- Forall _ _ => constructor end; unfold top_address in *; lia.
    + rewrite !decide_True by done. done.
  - intros a n. rewrite lookup_empty. split; [|by intros [? ?]]. intros Hu%list_elem_of_singleton. done.
  - repeat constructor.
  - intros k. rewrite lookup_empty. case_zbool; [subst; split; [by left|done]|]. split; [done|]. by intros [->|[? ?]].
Qed.

(** With nothing handed out, the heap is as it was made. *)
Lemma empty_fresh s bs h : refines s bs h -> 0 < sp_size s -> sp_live s = ∅ -> h = fresh_heap (sp_base s) (sp_size s).
Proof.
  intros H Hsize He. destruct (rf_pool _ _ _ H) as (P1 & P2 & P3 & P4). pose proof (rf_tiles _ _ _ H) as Ht.
  assert (Forall b_free bs) as Hfree.
  { apply Forall_forall. intros x Hx. destruct (decide (b_free x)) as [|Hf]; [done|exfalso]. pose proof (room_bounds _ _ _ Ht) as Hr. rewrite Forall_forall in Hr.
    destruct (Hr x Hx) as (_ & _ & _ & Hk). assert (b_kind x = Used) as Kx by (unfold b_free in Hf; by destruct (b_kind x)).
    destruct (proj1 (rf_live _ _ _ H (b_addr x) (b_len x))) as [t E]; [unfold used_in; by rewrite used_block|]. by rewrite He in E. }
  destruct bs as [|b [|b' bs]]; [cbn in Ht; lia| |].
  2: { exfalso. destruct (rf_apart _ _ _ H) as [Ha _]. apply Forall_cons in Hfree as [? [? _]%Forall_cons]. by apply Ha. }
  apply Forall_cons in Hfree as [Hb _]. cbn in Ht. destruct Ht as (Eb & _ & _ & El). assert (b_len b = sp_size s) as Elen by lia.
  pose proof (rf_free _ _ _ H) as Hf. cbn in Hf. rewrite decide_True in Hf by done.
  pose proof (la_seg _ _ (rf_laid _ _ _ H)) as Hs. unfold full in Hs. cbn [app] in Hs.
  apply lseg_cons in Hs as ([l0 n0 p0] & m & Em & L0 & [N0 Q0] & Hs). apply lseg_cons in Hs as ([l1 n1 p1] & m1 & -> & L1 & K1 & Hs).
  apply lseg_cons in Hs as ([l2 n2 p2] & m2 & -> & L2 & [N2 Q2] & Hs). destruct m2; [|done]. rewrite (Hb : b_kind b = Free) in K1. destruct K1 as [N1 Q1].
  cbn in *. rewrite !decide_True in * by done. cbn in *. subst.
  assert (high h = [(top_address, tt)]) as Eh.
  { pose proof (rf_sorted _ _ _ H) as Hsort. pose proof (rf_high _ _ _ H) as Hh. rewrite He in Hh.
    assert (forall e, e ∈ high h -> e = (top_address, tt)) as Hin.
    { intros [k []] Hk. apply list_elem_of_split in Hk as (l1 & l2 & E). assert (map_find k (high h) = Some tt) as Hk.
      { rewrite E. apply map_find_mid. rewrite E in Hsort. clear -Hsort. induction l1 as [|e l1 IH]; [constructor|]. apply StronglySorted_inv in Hsort as [Hs Ha].
        constructor; [|by apply IH]. apply Forall_app in Ha as [_ [Ha _]%Forall_cons]. exact Ha. }
      apply Hh in Hk as [->|[n Hk]]; [done|]. by rewrite lookup_empty in Hk. }
    assert (map_find top_address (high h) = Some tt) as Hg by (apply Hh; by left). destruct (high h) as [|e [|e' l]]; [done| |].
    - by rewrite (Hin e) by left.
    - exfalso. apply StronglySorted_inv in Hsort as [_ [Hlt _]%Forall_cons]. rewrite (Hin e), (Hin e') in Hlt by (left || (right; left)). cbn in Hlt. lia. }
  destruct h as [p len tf m hi]. cbn in *. subst. unfold fresh_heap. by rewrite Eb, Elen, Z.add_0_r.
Qed.

(** ** Histories *)

Lemma do_heap_op_refines s bs h op : refines s bs h -> op_ok op ->
  (exists r bs' h' s', do_heap_op op h = Some (r, h') /\ spec_step s op r s' /\ refines s' bs' h') \/
  (do_heap_op op h = None /\ exists a, op = OpFree a /\ a <> 0 /\ sp_live s !! a = None).
Proof.
  intros H Hop. destruct op as [n|n|a]; [left; by eapply alloc_refines|left; by eapply alloc_high_refines|]. cbn [do_heap_op].
  destruct (decide (a = 0)) as [->|Ha]; [left; exists 0, bs, h, s; split_and!; [done|constructor|done]|].
  destruct (sp_live s !! a) as [[n t]|] eqn:E.
  - left. destruct (free_refines _ _ _ _ _ _ H E) as (bs' & h' & Ef & H'). rewrite Ef. exists 0, bs', h'. eexists. split_and!; [done|by econstructor|done].
  - right. rewrite (free_illegal _ _ _ _ H Ha E). split; [done|]. by exists a.
Qed.

Lemma do_heap_ops_refines ops s bs h : refines s bs h -> Forall op_ok ops ->
  match do_heap_ops ops h with
  | Some (rs, h') => exists s' bs', spec_steps s ops rs s' /\ refines s' bs' h'
  | None => exists ops1 a ops2 rs1 s1, ops = ops1 ++ OpFree a :: ops2 /\ spec_steps s ops1 rs1 s1 /\ a <> 0 /\ sp_live s1 !! a = None
  end.
Proof.
  intros H Hops. revert s bs h H. induction Hops as [|op ops Hop Hops IH]; intros s bs h H; cbn [do_heap_ops].
  { exists s, bs. split; [constructor|done]. }
  destruct (do_heap_op_refines _ _ _ _ H Hop) as [(r & bs1 & h1 & s1 & E & Hst & H1)|(E & a & -> & Ha & Hl)]; rewrite E; cbn [mbind option_bind].
  - specialize (IH _ _ _ H1). destruct (do_heap_ops ops h1) as [[rs h2]|]; cbn.
    + destruct IH as (s2 & bs2 & Hss & H2). exists s2, bs2. split; [by econstructor|done].
    + destruct IH as (ops1 & a & ops2 & rs1 & s2 & -> & Hss & Ha & Hl). exists (op :: ops1), a, ops2, (r :: rs1), s2. split_and!; [done|by econstructor|done|done].
  - exists [], a, ops, [], s. split_and!; [done|constructor|done|done].
Qed.

Lemma spec_step_pool s op r s' : spec_step s op r s' -> sp_base s' = sp_base s /\ sp_size s' = sp_size s.
Proof. by destruct 1. Qed.
Lemma spec_steps_pool s ops rs s' : spec_steps s ops rs s' -> sp_base s' = sp_base s /\ sp_size s' = sp_size s.
Proof. induction 1 as [|s op r s1 ops rs s2 H1 _ IH]; [done|]. apply spec_step_pool in H1. destruct H1, IH. split; congruence. Qed.

(** C8: The first-fit allocator. Every history of allocations from either end and of frees
    on a heap just made, with arguments of any size, refines the allocator of blocks:
    [alloc] hands out the lowest place of the pool with room, [alloc_high] the highest,
    they refuse only where there is none (or for nothing), [free] gives a block back; what
    is left is the pool less the blocks handed out, [high_split] is the lowest block of
    [alloc_high]. The history goes through unless it frees an address that is not a block
    handed out, which an assertion stops there and then. When all blocks have been given
    back the heap is, node for node, the one it was made as. *)
Theorem SmallHeap_history_refines base length ops : 0 < base -> 0 < length -> base + length < top_address -> Forall op_ok ops ->
  exists h0, SmallHeap_new base length = Some h0 /\
    match do_heap_ops ops h0 with
    | Some (rs, h) => exists s m, spec_steps (fresh_spec base length) ops rs s /\ remaining h = length - sp_used s /\
        high_split h = Some m /\ sp_split s m /\ (sp_live s = ∅ -> h = h0)
    | None => exists ops1 a ops2 rs1 s1, ops = ops1 ++ OpFree a :: ops2 /\ spec_steps (fresh_spec base length) ops1 rs1 s1 /\ a <> 0 /\ sp_live s1 !! a = None
    end.
Proof.
  intros Hb Hl Hg Hops. exists (fresh_heap base length). split; [by apply SmallHeap_new_fresh; [..|lia]|].
  pose proof (do_heap_ops_refines ops _ _ _ (fresh_refines base length Hb Hl Hg) Hops) as H.
  destruct (do_heap_ops ops (fresh_heap base length)) as [[rs h]|]; [|done]. destruct H as (s & bs & Hs & H).
  destruct (spec_steps_pool _ _ _ _ Hs) as [E1 E2]. cbn in E1, E2. destruct (split_refines _ _ _ H) as (m & Hm & Hsp). exists s, m. split_and!; [done| |done|done|].
  - by rewrite (remaining_refines _ _ _ H), E2.
  - intros He. rewrite (empty_fresh _ _ _ H) by (done || lia). by rewrite E1, E2.
Qed.

#[local] Notation demo_ops := [OpAlloc 0x10; OpAllocHigh 0x20; OpAlloc 0xd1; OpFree 0x1000; OpAlloc 0xe0; OpFree 0x10e0; OpFree 0x1000].

Lemma SmallHeap_history_refines_witness :
  Forall op_ok demo_ops /\ (exists s, spec_steps (fresh_spec 0x1000 0x100) demo_ops [0x1000; 0x10e0; 0; 0; 0x1000; 0; 0] s).
Proof.
  assert (Forall op_ok demo_ops) as Hok by (repeat constructor; cbn; lia). split; [exact Hok|].
  assert (SmallHeap_new 0x1000 0x100 = Some (fresh_heap 0x1000 0x100)) as Hnew by (vm_compute; reflexivity).
  assert (do_heap_ops demo_ops (fresh_heap 0x1000 0x100) = Some ([0x1000; 0x10e0; 0; 0; 0x1000; 0; 0], fresh_heap 0x1000 0x100)) as Hrun by (vm_compute; reflexivity).
  destruct (SmallHeap_history_refines 0x1000 0x100 demo_ops eq_refl eq_refl eq_refl Hok) as (h0 & E & H).
  rewrite Hnew in E. assert (fresh_heap 0x1000 0x100 = h0) as <- by congruence. rewrite Hrun in H.
  destruct H as (s & m & H & _). exists s. exact H.
Defined.
