(* ===== verification/Status.v ===== *)
(** * Status: the error codes of the three layers

    [NTSTATUS] is what libdxcore returns, [ErrorCode] what the wrappers of
    shared/include/thunks.h and the WDDM layer return, [HSAKMT_STATUS] what the
    exported [hsaKmt*] functions return. *)

From Stdlib Require Import String.
From S2P Require Import Prelude.

(** The [NTSTATUS] values the sources name; the others are [STATUS_OTHER]. *)
Inductive NTSTATUS :=
  | STATUS_SUCCESS
  | STATUS_PENDING
  | STATUS_NO_MEMORY
  | STATUS_DEVICE_REMOVED
  | STATUS_GRAPHICS_NO_VIDEO_MEMORY
  | STATUS_TIMEOUT
  | STATUS_BUFFER_TOO_SMALL
  | STATUS_INVALID_PARAMETER
  | STATUS_OTHER (code : Z).

Inductive ErrorCode :=
  | Success
  | DeviceLost
  | UnSupported
  | NotReady
  | OutOfMemory
  | InitializationFailed
  | OutOfGpuMemory
  | OutOfHandleApeMemory
  | BufferTooSmall
  | Timeout
  | SyscallFail
  | InvalidParams
  | InvalidPointer
  | IncompatibleDevice
  | CheckError
  | NotFound
  | SameProcessSameDevice
  | Unknown.

#[export] Instance NTSTATUS_eq_dec : EqDecision NTSTATUS.
Proof. solve_decision. Defined.

#[export] Instance ErrorCode_eq_dec : EqDecision ErrorCode.
Proof. solve_decision. Defined.

Definition TranslateNtStatus (status : NTSTATUS) : ErrorCode :=
  match status with
  | STATUS_SUCCESS => Success
  | STATUS_PENDING => NotReady
  | STATUS_NO_MEMORY => OutOfMemory
  | STATUS_DEVICE_REMOVED => DeviceLost
  | STATUS_GRAPHICS_NO_VIDEO_MEMORY => OutOfGpuMemory
  | STATUS_TIMEOUT => Timeout
  | STATUS_BUFFER_TOO_SMALL => BufferTooSmall
  | STATUS_INVALID_PARAMETER => InvalidParams
  | STATUS_OTHER _ => Unknown
  end.

Definition ErrorCodeToString (code : ErrorCode) : string :=
  match code with
  | Success => "success"
  | DeviceLost => "device lost"
  | NotReady => "not ready"
  | UnSupported => "unsupported"
  | OutOfMemory => "out of memory"
  | InitializationFailed => "initialization failed"
  | OutOfGpuMemory => "out of gpu memory"
  | OutOfHandleApeMemory => "out of handle ape memory"
  | Timeout => "timeout"
  | SyscallFail => "syscall fail"
  | InvalidParams => "invalid params"
  | InvalidPointer => "invalid pointer"
  | IncompatibleDevice => "incompatible device"
  | CheckError => "check error"
  | NotFound => "not found"
  | SameProcessSameDevice => "same process same device"
  | _ => "unknown"
  end%string.

(** The statuses of hsakmttypes.h the modelled functions return. *)
Inductive HSAKMT_STATUS :=
  | HSAKMT_STATUS_SUCCESS
  | HSAKMT_STATUS_ERROR
  | HSAKMT_STATUS_DRIVER_MISMATCH
  | HSAKMT_STATUS_INVALID_PARAMETER
  | HSAKMT_STATUS_INVALID_HANDLE
  | HSAKMT_STATUS_INVALID_NODE_UNIT
  | HSAKMT_STATUS_NO_MEMORY
  | HSAKMT_STATUS_BUFFER_TOO_SMALL
  | HSAKMT_STATUS_NOT_IMPLEMENTED
  | HSAKMT_STATUS_NOT_SUPPORTED
  | HSAKMT_STATUS_UNAVAILABLE
  | HSAKMT_STATUS_OUT_OF_RESOURCES
  | HSAKMT_STATUS_KERNEL_IO_CHANNEL_NOT_OPENED
  | HSAKMT_STATUS_KERNEL_COMMUNICATION_ERROR
  | HSAKMT_STATUS_KERNEL_ALREADY_OPENED
  | HSAKMT_STATUS_HSAMMU_UNAVAILABLE
  | HSAKMT_STATUS_WAIT_FAILURE
  | HSAKMT_STATUS_WAIT_TIMEOUT
  | HSAKMT_STATUS_MEMORY_ALREADY_REGISTERED
  | HSAKMT_STATUS_MEMORY_NOT_REGISTERED
  | HSAKMT_STATUS_MEMORY_ALIGNMENT.

Definition HSAKMT_STATUS_value (s : HSAKMT_STATUS) : Z :=
  match s with
  | HSAKMT_STATUS_SUCCESS => 0
  | HSAKMT_STATUS_ERROR => 1
  | HSAKMT_STATUS_DRIVER_MISMATCH => 2
  | HSAKMT_STATUS_INVALID_PARAMETER => 3
  | HSAKMT_STATUS_INVALID_HANDLE => 4
  | HSAKMT_STATUS_INVALID_NODE_UNIT => 5
  | HSAKMT_STATUS_NO_MEMORY => 6
  | HSAKMT_STATUS_BUFFER_TOO_SMALL => 7
  | HSAKMT_STATUS_NOT_IMPLEMENTED => 10
  | HSAKMT_STATUS_NOT_SUPPORTED => 11
  | HSAKMT_STATUS_UNAVAILABLE => 12
  | HSAKMT_STATUS_OUT_OF_RESOURCES => 13
  | HSAKMT_STATUS_KERNEL_IO_CHANNEL_NOT_OPENED => 20
  | HSAKMT_STATUS_KERNEL_COMMUNICATION_ERROR => 21
  | HSAKMT_STATUS_KERNEL_ALREADY_OPENED => 22
  | HSAKMT_STATUS_HSAMMU_UNAVAILABLE => 23
  | HSAKMT_STATUS_WAIT_FAILURE => 30
  | HSAKMT_STATUS_WAIT_TIMEOUT => 31
  | HSAKMT_STATUS_MEMORY_ALREADY_REGISTERED => 35
  | HSAKMT_STATUS_MEMORY_NOT_REGISTERED => 36
  | HSAKMT_STATUS_MEMORY_ALIGNMENT => 37
  end.

#[export] Instance HSAKMT_STATUS_eq_dec : EqDecision HSAKMT_STATUS.
Proof. solve_decision. Defined.

Definition ErrorCode_ok (c : ErrorCode) : bool := bool_decide (c = Success).

Lemma ErrorCode_ok_true c : ErrorCode_ok c = true <-> c = Success.
Proof. apply bool_decide_eq_true. Qed.
