(* ===== verification/SmiStatus.v ===== *)
(** * SmiStatus: the statuses of AMD SMI and their texts (amd_smi.cc, amdsmi.h, amd_smi_utils.cc) *)

From Stdlib Require Import String Ascii.
From S2P Require Import Prelude.
From S2P Require Import Status.
From S2P Require Import CString.
#[local] Open Scope Z_scope.

Inductive amdsmi_status_t :=
  | AMDSMI_STATUS_SUCCESS
  | AMDSMI_STATUS_INVAL
  | AMDSMI_STATUS_NOT_SUPPORTED
  | AMDSMI_STATUS_NOT_YET_IMPLEMENTED
  | AMDSMI_STATUS_FAIL_LOAD_MODULE
  | AMDSMI_STATUS_FAIL_LOAD_SYMBOL
  | AMDSMI_STATUS_DRM_ERROR
  | AMDSMI_STATUS_API_FAILED
  | AMDSMI_STATUS_TIMEOUT
  | AMDSMI_STATUS_RETRY
  | AMDSMI_STATUS_NO_PERM
  | AMDSMI_STATUS_INTERRUPT
  | AMDSMI_STATUS_IO
  | AMDSMI_STATUS_ADDRESS_FAULT
  | AMDSMI_STATUS_FILE_ERROR
  | AMDSMI_STATUS_OUT_OF_RESOURCES
  | AMDSMI_STATUS_INTERNAL_EXCEPTION
  | AMDSMI_STATUS_INPUT_OUT_OF_BOUNDS
  | AMDSMI_STATUS_INIT_ERROR
  | AMDSMI_STATUS_REFCOUNT_OVERFLOW
  | AMDSMI_STATUS_DIRECTORY_NOT_FOUND
  | AMDSMI_STATUS_IPC_ERROR
  | AMDSMI_STATUS_BUSY
  | AMDSMI_STATUS_NOT_FOUND
  | AMDSMI_STATUS_NOT_INIT
  | AMDSMI_STATUS_NO_SLOT
  | AMDSMI_STATUS_DRIVER_NOT_LOADED
  | AMDSMI_STATUS_MORE_DATA
  | AMDSMI_STATUS_NO_DATA
  | AMDSMI_STATUS_INSUFFICIENT_SIZE
  | AMDSMI_STATUS_UNEXPECTED_SIZE
  | AMDSMI_STATUS_UNEXPECTED_DATA
  | AMDSMI_STATUS_NON_AMD_CPU
  | AMDSMI_STATUS_NO_ENERGY_DRV
  | AMDSMI_STATUS_NO_MSR_DRV
  | AMDSMI_STATUS_NO_HSMP_DRV
  | AMDSMI_STATUS_NO_HSMP_SUP
  | AMDSMI_STATUS_NO_HSMP_MSG_SUP
  | AMDSMI_STATUS_HSMP_TIMEOUT
  | AMDSMI_STATUS_NO_DRV
  | AMDSMI_STATUS_FILE_NOT_FOUND
  | AMDSMI_STATUS_ARG_PTR_NULL
  | AMDSMI_STATUS_AMDGPU_RESTART_ERR
  | AMDSMI_STATUS_SETTING_UNAVAILABLE
  | AMDSMI_STATUS_CORRUPTED_EEPROM
  | AMDSMI_STATUS_MAP_ERROR
  | AMDSMI_STATUS_UNKNOWN_ERROR.

#[export] Instance amdsmi_status_eq_dec : EqDecision amdsmi_status_t.
Proof. solve_decision. Defined.

Definition amdsmi_status_value (s : amdsmi_status_t) : Z :=
  match s with
  | AMDSMI_STATUS_SUCCESS => 0
  | AMDSMI_STATUS_INVAL => 1
  | AMDSMI_STATUS_NOT_SUPPORTED => 2
  | AMDSMI_STATUS_NOT_YET_IMPLEMENTED => 3
  | AMDSMI_STATUS_FAIL_LOAD_MODULE => 4
  | AMDSMI_STATUS_FAIL_LOAD_SYMBOL => 5
  | AMDSMI_STATUS_DRM_ERROR => 6
  | AMDSMI_STATUS_API_FAILED => 7
  | AMDSMI_STATUS_TIMEOUT => 8
  | AMDSMI_STATUS_RETRY => 9
  | AMDSMI_STATUS_NO_PERM => 10
  | AMDSMI_STATUS_INTERRUPT => 11
  | AMDSMI_STATUS_IO => 12
  | AMDSMI_STATUS_ADDRESS_FAULT => 13
  | AMDSMI_STATUS_FILE_ERROR => 14
  | AMDSMI_STATUS_OUT_OF_RESOURCES => 15
  | AMDSMI_STATUS_INTERNAL_EXCEPTION => 16
  | AMDSMI_STATUS_INPUT_OUT_OF_BOUNDS => 17
  | AMDSMI_STATUS_INIT_ERROR => 18
  | AMDSMI_STATUS_REFCOUNT_OVERFLOW => 19
  | AMDSMI_STATUS_DIRECTORY_NOT_FOUND => 20
  | AMDSMI_STATUS_IPC_ERROR => 21
  | AMDSMI_STATUS_BUSY => 30
  | AMDSMI_STATUS_NOT_FOUND => 31
  | AMDSMI_STATUS_NOT_INIT => 32
  | AMDSMI_STATUS_NO_SLOT => 33
  | AMDSMI_STATUS_DRIVER_NOT_LOADED => 34
  | AMDSMI_STATUS_MORE_DATA => 39
  | AMDSMI_STATUS_NO_DATA => 40
  | AMDSMI_STATUS_INSUFFICIENT_SIZE => 41
  | AMDSMI_STATUS_UNEXPECTED_SIZE => 42
  | AMDSMI_STATUS_UNEXPECTED_DATA => 43
  | AMDSMI_STATUS_NON_AMD_CPU => 44
  | AMDSMI_STATUS_NO_ENERGY_DRV => 45
  | AMDSMI_STATUS_NO_MSR_DRV => 46
  | AMDSMI_STATUS_NO_HSMP_DRV => 47
  | AMDSMI_STATUS_NO_HSMP_SUP => 48
  | AMDSMI_STATUS_NO_HSMP_MSG_SUP => 49
  | AMDSMI_STATUS_HSMP_TIMEOUT => 50
  | AMDSMI_STATUS_NO_DRV => 51
  | AMDSMI_STATUS_FILE_NOT_FOUND => 52
  | AMDSMI_STATUS_ARG_PTR_NULL => 53
  | AMDSMI_STATUS_AMDGPU_RESTART_ERR => 54
  | AMDSMI_STATUS_SETTING_UNAVAILABLE => 55
  | AMDSMI_STATUS_CORRUPTED_EEPROM => 56
  | AMDSMI_STATUS_MAP_ERROR => 0xFFFFFFFE
  | AMDSMI_STATUS_UNKNOWN_ERROR => 0xFFFFFFFF
  end.

Definition all_statuses : list amdsmi_status_t :=
  [AMDSMI_STATUS_SUCCESS; AMDSMI_STATUS_INVAL; AMDSMI_STATUS_NOT_SUPPORTED;
   AMDSMI_STATUS_NOT_YET_IMPLEMENTED; AMDSMI_STATUS_FAIL_LOAD_MODULE; AMDSMI_STATUS_FAIL_LOAD_SYMBOL;
   AMDSMI_STATUS_DRM_ERROR; AMDSMI_STATUS_API_FAILED; AMDSMI_STATUS_TIMEOUT;
   AMDSMI_STATUS_RETRY; AMDSMI_STATUS_NO_PERM; AMDSMI_STATUS_INTERRUPT;
   AMDSMI_STATUS_IO; AMDSMI_STATUS_ADDRESS_FAULT; AMDSMI_STATUS_FILE_ERROR;
   AMDSMI_STATUS_OUT_OF_RESOURCES; AMDSMI_STATUS_INTERNAL_EXCEPTION; AMDSMI_STATUS_INPUT_OUT_OF_BOUNDS;
   AMDSMI_STATUS_INIT_ERROR; AMDSMI_STATUS_REFCOUNT_OVERFLOW; AMDSMI_STATUS_DIRECTORY_NOT_FOUND;
   AMDSMI_STATUS_IPC_ERROR; AMDSMI_STATUS_BUSY; AMDSMI_STATUS_NOT_FOUND;
   AMDSMI_STATUS_NOT_INIT; AMDSMI_STATUS_NO_SLOT; AMDSMI_STATUS_DRIVER_NOT_LOADED;
   AMDSMI_STATUS_MORE_DATA; AMDSMI_STATUS_NO_DATA; AMDSMI_STATUS_INSUFFICIENT_SIZE;
   AMDSMI_STATUS_UNEXPECTED_SIZE; AMDSMI_STATUS_UNEXPECTED_DATA; AMDSMI_STATUS_NON_AMD_CPU;
   AMDSMI_STATUS_NO_ENERGY_DRV; AMDSMI_STATUS_NO_MSR_DRV; AMDSMI_STATUS_NO_HSMP_DRV;
   AMDSMI_STATUS_NO_HSMP_SUP; AMDSMI_STATUS_NO_HSMP_MSG_SUP; AMDSMI_STATUS_HSMP_TIMEOUT;
   AMDSMI_STATUS_NO_DRV; AMDSMI_STATUS_FILE_NOT_FOUND; AMDSMI_STATUS_ARG_PTR_NULL;
   AMDSMI_STATUS_AMDGPU_RESTART_ERR; AMDSMI_STATUS_SETTING_UNAVAILABLE; AMDSMI_STATUS_CORRUPTED_EEPROM;
   AMDSMI_STATUS_MAP_ERROR; AMDSMI_STATUS_UNKNOWN_ERROR].

Definition translateCodeToSmiStatus (code : ErrorCode) : amdsmi_status_t :=
  match code with
  | Success => AMDSMI_STATUS_SUCCESS
  | UnSupported => AMDSMI_STATUS_NOT_SUPPORTED
  | NotReady => AMDSMI_STATUS_RETRY
  | InitializationFailed => AMDSMI_STATUS_INIT_ERROR
  | Timeout => AMDSMI_STATUS_TIMEOUT
  | SyscallFail => AMDSMI_STATUS_API_FAILED
  | InvalidParams | InvalidPointer => AMDSMI_STATUS_INVAL
  | OutOfMemory | OutOfGpuMemory => AMDSMI_STATUS_OUT_OF_RESOURCES
  | NotFound => AMDSMI_STATUS_NOT_FOUND
  | _ => AMDSMI_STATUS_UNKNOWN_ERROR
  end.

(** The status and [*status_string]. *)
Definition amdsmi_status_code_to_string (status : amdsmi_status_t) : amdsmi_status_t * string :=
  let known s := (AMDSMI_STATUS_SUCCESS, s) in
  match status with
  | AMDSMI_STATUS_SUCCESS => known "AMDSMI_STATUS_SUCCESS: Call succeeded."
  | AMDSMI_STATUS_INVAL => known "AMDSMI_STATUS_INVAL: Invalid parameters."
  | AMDSMI_STATUS_NOT_SUPPORTED => known "AMDSMI_STATUS_NOT_SUPPORTED: Command not supported."
  | AMDSMI_STATUS_NOT_YET_IMPLEMENTED => known "AMDSMI_STATUS_NOT_YET_IMPLEMENTED:  Not implemented yet."
  | AMDSMI_STATUS_FAIL_LOAD_MODULE => known "AMDSMI_STATUS_FAIL_LOAD_MODULE: Fail to load lib module."
  | AMDSMI_STATUS_FAIL_LOAD_SYMBOL => known "AMDSMI_STATUS_FAIL_LOAD_SYMBOL: Fail to load symbol."
  | AMDSMI_STATUS_DRM_ERROR => known "AMDSMI_STATUS_DRM_ERROR: Error when calling libdrm function."
  | AMDSMI_STATUS_API_FAILED => known "AMDSMI_STATUS_API_FAILED: API call failed."
  | AMDSMI_STATUS_RETRY => known "AMDSMI_STATUS_RETRY: Retry operation."
  | AMDSMI_STATUS_NO_PERM => known "AMDSMI_STATUS_NO_PERM: Permission Denied."
  | AMDSMI_STATUS_INTERRUPT => known "AMDSMI_STATUS_INTERRUPT: An interrupt occurred during execution of function."
  | AMDSMI_STATUS_IO => known "AMDSMI_STATUS_IO: I/O Error."
  | AMDSMI_STATUS_ADDRESS_FAULT => known "AMDSMI_STATUS_ADDRESS_FAULT: Bad address."
  | AMDSMI_STATUS_FILE_ERROR => known "AMDSMI_STATUS_FILE_ERROR: Problem accessing a file."
  | AMDSMI_STATUS_OUT_OF_RESOURCES => known "AMDSMI_STATUS_OUT_OF_RESOURCES: Not enough memory."
  | AMDSMI_STATUS_INTERNAL_EXCEPTION => known "AMDSMI_STATUS_INTERNAL_EXCEPTION: An internal exception was caught."
  | AMDSMI_STATUS_INPUT_OUT_OF_BOUNDS => known "AMDSMI_STATUS_INPUT_OUT_OF_BOUNDS: The provided input is out of allowable or safe range."
  | AMDSMI_STATUS_INIT_ERROR => known "AMDSMI_STATUS_INIT_ERROR: An error occurred when initializing internal data structures."
  | AMDSMI_STATUS_REFCOUNT_OVERFLOW => known "AMDSMI_STATUS_REFCOUNT_OVERFLOW: An internal reference counter exceeded INT32_MAX."
  | AMDSMI_STATUS_DIRECTORY_NOT_FOUND => known "AMDSMI_STATUS_DIRECTORY_NOT_FOUND: Error when a directory is not found, maps to ENOTDIR."
  | AMDSMI_STATUS_IPC_ERROR => known "AMDSMI_STATUS_IPC_ERROR: An IPC error occurred."
  | AMDSMI_STATUS_BUSY => known "AMDSMI_STATUS_BUSY: Processor busy."
  | AMDSMI_STATUS_NOT_FOUND => known "AMDSMI_STATUS_NOT_FOUND: Processor Not found."
  | AMDSMI_STATUS_NOT_INIT => known "AMDSMI_STATUS_NOT_INIT: Processor not initialized."
  | AMDSMI_STATUS_NO_SLOT => known "AMDSMI_STATUS_NO_SLOT: No more free slot."
  | AMDSMI_STATUS_DRIVER_NOT_LOADED => known "AMDSMI_STATUS_DRIVER_NOT_LOADED: Processor driver not loaded."
  | AMDSMI_STATUS_NO_DATA => known "AMDSMI_STATUS_NO_DATA: No data was found for a given input."
  | AMDSMI_STATUS_INSUFFICIENT_SIZE => known "AMDSMI_STATUS_INSUFFICIENT_SIZE: Not enough resources were available for the operation."
  | AMDSMI_STATUS_UNEXPECTED_SIZE => known "AMDSMI_STATUS_UNEXPECTED_SIZE: An unexpected amount of data was read."
  | AMDSMI_STATUS_UNEXPECTED_DATA => known "AMDSMI_STATUS_UNEXPECTED_DATA: The data read or provided to function is not what was expected."
  | AMDSMI_STATUS_NON_AMD_CPU => known "AMDSMI_STATUS_NON_AMD_CPU: System has different cpu than AMD."
  | AMDSMI_STATUS_NO_ENERGY_DRV => known "AMDSMI_STATUS_NO_ENERGY_DRV: Energy driver not found."
  | AMDSMI_STATUS_NO_MSR_DRV => known "AMDSMI_STATUS_NO_MSR_DRV: MSR driver not found."
  | AMDSMI_STATUS_NO_HSMP_DRV => known "AMDSMI_STATUS_NO_HSMP_DRV: HSMP driver not found."
  | AMDSMI_STATUS_NO_HSMP_SUP => known "AMDSMI_STATUS_NO_HSMP_SUP: HSMP not supported."
  | AMDSMI_STATUS_NO_HSMP_MSG_SUP => known "AMDSMI_STATUS_NO_HSMP_MSG_SUP: HSMP message/feature not supported."
  | AMDSMI_STATUS_HSMP_TIMEOUT => known "AMDSMI_STATUS_HSMP_TIMEOUT: HSMP message timed out."
  | AMDSMI_STATUS_NO_DRV => known "AMDSMI_STATUS_NO_DRV: No Energy and HSMP driver present."
  | AMDSMI_STATUS_FILE_NOT_FOUND => known "AMDSMI_STATUS_FILE_NOT_FOUND: file or directory not found."
  | AMDSMI_STATUS_ARG_PTR_NULL => known "AMDSMI_STATUS_ARG_PTR_NULL: Parsed argument is invalid."
  | AMDSMI_STATUS_AMDGPU_RESTART_ERR => known "AMDSMI_STATUS_AMDGPU_RESTART_ERR: AMDGPU restart failed."
  | AMDSMI_STATUS_SETTING_UNAVAILABLE => known "AMDSMI_STATUS_SETTING_UNAVAILABLE: Setting is not available."
  | AMDSMI_STATUS_CORRUPTED_EEPROM => known "AMDSMI_STATUS_CORRUPTED_EEPROM: EEPROM is corrupted."
  | AMDSMI_STATUS_MAP_ERROR => known "AMDSMI_STATUS_MAP_ERROR: The internal library error did not map to a status code."
  | AMDSMI_STATUS_UNKNOWN_ERROR => known "AMDSMI_STATUS_UNKNOWN_ERROR: An unknown error occurred."
  | _ => (AMDSMI_STATUS_UNKNOWN_ERROR, "An unknown error occurred")
  end%string.

(** [smi_amdgpu_split_string]: what [std::getline] reads first. *)
Fixpoint smi_amdgpu_split_string (str : string) (delim : ascii) : string :=
  match str with
  | EmptyString => EmptyString
  | String c str => if Ascii.eqb c delim then EmptyString else String c (smi_amdgpu_split_string str delim)
  end.

Definition smi_amdgpu_get_status_string (ret : amdsmi_status_t) (fullStatus : bool) : string :=
  let err_str := (amdsmi_status_code_to_string ret).2 in
  if fullStatus then err_str else smi_amdgpu_split_string err_str ":".

(** ** Lemmas *)

(** A status is found by its short text: the first of the list that has it. *)
Definition status_of_string (s : string) : option amdsmi_status_t :=
  List.find (fun st => String.eqb (smi_amdgpu_get_status_string st false) s) all_statuses.

Definition has_text (s : amdsmi_status_t) : bool :=
  match s with AMDSMI_STATUS_TIMEOUT | AMDSMI_STATUS_MORE_DATA => false | _ => true end.

(** ** Properties *)

(** The texts of the statuses tell them apart. For every status but two,
    [amdsmi_status_code_to_string] succeeds, its text starts with the short one, and the
    short text is that of no other status, so the status is read back from it. The two
    without a text are [AMDSMI_STATUS_TIMEOUT], which is what the library returns for a
    driver call that timed out, and [AMDSMI_STATUS_MORE_DATA]. The values are distinct, and
    only that of success is a multiple of 256, which a shell would take for success. *)
Theorem status_text_roundtrip (s : amdsmi_status_t) :
  (if has_text s then
     (amdsmi_status_code_to_string s).1 = AMDSMI_STATUS_SUCCESS /\
     status_of_string (smi_amdgpu_get_status_string s false) = Some s /\
     String.prefix (smi_amdgpu_get_status_string s false) (smi_amdgpu_get_status_string s true) = true
   else
     amdsmi_status_code_to_string s = (AMDSMI_STATUS_UNKNOWN_ERROR, "An unknown error occurred"%string) /\
     (s = translateCodeToSmiStatus Timeout \/ (forall code, s <> translateCodeToSmiStatus code))) /\
  List.find (fun st => (amdsmi_status_value st =? amdsmi_status_value s)) all_statuses = Some s /\
  (amdsmi_status_value s mod 256 =? 0) = bool_decide (s = AMDSMI_STATUS_SUCCESS).
Proof.
  destruct s; (split; [split_and!; vm_compute; try reflexivity|split; vm_compute; reflexivity]); [by left|].
  right. by intros [].
Qed.
