(* ===== verification/SmiTypes.v ===== *)
(** * SmiTypes: the structures of AMD SMI (amdsmi.h)

    The members the library writes or reads; the others of a structure stay 0 or what the
    caller left in them. *)

From Stdlib Require Import String Ascii.
From S2P Require Import Prelude.
From S2P Require Import CString.
#[local] Open Scope Z_scope.

Definition AMDSMI_MAX_STRING_LENGTH : nat := 256.
Definition AMDSMI_MAX_CACHE_TYPES : nat := 10.
Definition AMDSMI_GPU_UUID_SIZE : Z := 38.
Definition AMDSMI_MAX_NUM_FREQUENCIES : nat := 33.
Definition AMDSMI_MAX_NUM_GFX_CLKS : nat := 8.
Definition AMDSMI_MAX_NUM_CLKS : nat := 4.
Definition AMDSMI_FW_ID__MAX : Z := 80.
Definition UINT16_MAX : Z := 65535.

Inductive processor_type_t :=
  | AMDSMI_PROCESSOR_TYPE_UNKNOWN | AMDSMI_PROCESSOR_TYPE_AMD_GPU | AMDSMI_PROCESSOR_TYPE_AMD_CPU
  | AMDSMI_PROCESSOR_TYPE_NON_AMD_GPU | AMDSMI_PROCESSOR_TYPE_NON_AMD_CPU | AMDSMI_PROCESSOR_TYPE_AMD_CPU_CORE
  | AMDSMI_PROCESSOR_TYPE_AMD_APU | AMDSMI_PROCESSOR_TYPE_AMD_NIC | AMDSMI_PROCESSOR_TYPE_BRCM_NIC
  | AMDSMI_PROCESSOR_TYPE_BRCM_SWITCH.

Definition AMDSMI_CLK_TYPE_SYS : Z := 0.
Definition AMDSMI_CLK_TYPE_MEM : Z := 4.
Definition AMDSMI_CLK_TYPE__MAX : Z := 9.

Definition AMDSMI_MEM_TYPE_FIRST : Z := 0.
Definition AMDSMI_MEM_TYPE_LAST : Z := 2.

Definition AMDSMI_VOLT_CURRENT : Z := 0.
Definition AMDSMI_VOLT_TYPE_VDDGFX : Z := 0.

Inductive amdsmi_vram_type_t :=
  | AMDSMI_VRAM_TYPE_UNKNOWN
  | AMDSMI_VRAM_TYPE_HBM | AMDSMI_VRAM_TYPE_HBM2 | AMDSMI_VRAM_TYPE_HBM2E | AMDSMI_VRAM_TYPE_HBM3 | AMDSMI_VRAM_TYPE_HBM3E
  | AMDSMI_VRAM_TYPE_DDR2 | AMDSMI_VRAM_TYPE_DDR3 | AMDSMI_VRAM_TYPE_DDR4 | AMDSMI_VRAM_TYPE_DDR5
  | AMDSMI_VRAM_TYPE_GDDR1 | AMDSMI_VRAM_TYPE_GDDR2 | AMDSMI_VRAM_TYPE_GDDR3 | AMDSMI_VRAM_TYPE_GDDR4
  | AMDSMI_VRAM_TYPE_GDDR5 | AMDSMI_VRAM_TYPE_GDDR6 | AMDSMI_VRAM_TYPE_GDDR7
  | AMDSMI_VRAM_TYPE_LPDDR4 | AMDSMI_VRAM_TYPE_LPDDR5.

(** The union: three, five, eight and 48 bits. *)
Record amdsmi_bdf_t := mkBdf {
  function_number : Z;
  device_number : Z;
  bus_number : Z;
  domain_number : Z;
}.

Definition bdf_zero : amdsmi_bdf_t := mkBdf 0 0 0 0.
Definition as_uint (b : amdsmi_bdf_t) : Z :=
  function_number b + 2 ^ 3 * device_number b + 2 ^ 8 * bus_number b + 2 ^ 16 * domain_number b.

Record amdsmi_vram_usage_t := mkSmiVramUsage { vu_vram_total : Z; vu_vram_used : Z }.

Record amdsmi_pcie_info_t := mkSmiPcieInfo {
  ps_max_pcie_width : Z;
  ps_max_pcie_speed : Z;
  ps_pcie_interface_version : Z;
  ps_slot_type : Z;
  pm_pcie_width : Z;
  pm_pcie_speed : Z;
  pm_pcie_bandwidth : Z;
  pm_pcie_replay_count : Z;
  pm_pcie_l0_to_recovery_count : Z;
  pm_pcie_replay_roll_over_count : Z;
  pm_pcie_nak_sent_count : Z;
  pm_pcie_nak_received_count : Z;
}.

Record amdsmi_power_cap_info_t := mkSmiPowerCap { power_cap : Z; max_power_cap : Z }.

Record amdsmi_vbios_info_t := mkSmiVbios { vbs_name : string; vbs_build_date : string; vbs_part_number : string; vbs_version : string }.

Record smi_cache := mkSmiCache {
  sc_cache_properties : Z;
  sc_cache_size : Z;
  sc_cache_level : Z;
  sc_max_num_cu_shared : Z;
  sc_num_cache_instance : Z;
}.

Record amdsmi_gpu_cache_info_t := mkSmiCacheInfo { sc_num_cache_types : Z; sc_cache : list smi_cache }.

Record fw_info_list := mkFwInfoList { fl_fw_id : Z; fl_fw_version : Z }.
Record amdsmi_fw_info_t := mkSmiFwInfo { sf_num_fw_info : Z; sf_fw_info_list : list fw_info_list }.

(** The texts are the arrays themselves: nobody clears them. *)
Record amdsmi_asic_info_t := mkSmiAsicInfo {
  sa_market_name : buffer;
  sa_vendor_id : Z;
  sa_vendor_name : buffer;
  sa_subvendor_id : Z;
  sa_device_id : Z;
  sa_rev_id : Z;
  sa_asic_serial : buffer;
  sa_oam_id : Z;
  sa_num_of_compute_units : Z;
  sa_target_graphics_version : Z;
  sa_subsystem_id : Z;
  sa_flags : Z;
}.

Record amdsmi_vram_info_t := mkSmiVramInfo {
  sv_vram_type : amdsmi_vram_type_t;
  sv_vram_size : Z;
  sv_vram_bit_width : Z;
  sv_vram_max_bandwidth : Z;
}.

Record amdsmi_driver_info_t := mkSmiDriverInfo { sd_driver_version : string; sd_driver_date : string; sd_driver_name : string }.

Record amdsmi_board_info_t := mkSmiBoardInfo {
  sb_model_number : string;
  sb_product_serial : string;
  sb_fru_id : string;
  sb_product_name : string;
  sb_manufacturer_name : string;
}.

Record amdsmi_power_info_t := mkSmiPowerInfo {
  sp_socket_power : Z;
  sp_current_socket_power : Z;
  sp_average_socket_power : Z;
  sp_gfx_voltage : Z;
  sp_soc_voltage : Z;
  sp_mem_voltage : Z;
  sp_power_limit : Z;
}.

Record amdsmi_clk_info_t := mkSmiClkInfo { sk_clk : Z; sk_min_clk : Z; sk_max_clk : Z; sk_clk_locked : Z; sk_clk_deep_sleep : Z }.

Record amdsmi_engine_usage_t := mkSmiEngineUsage { se_gfx_activity : Z; se_umc_activity : Z; se_mm_activity : Z }.

Record amdsmi_proc_info_t := mkProcInfo {
  pr_name : string;
  pr_pid : Z;
  pr_mem : Z;
  pr_engine_gfx : Z;
  pr_engine_enc : Z;
  pr_gtt_mem : Z;
  pr_cpu_mem : Z;
  pr_vram_mem : Z;
  pr_cu_occupancy : Z;
  pr_evicted_time : Z;
  pr_sdma_usage : Z;
}.

Record amdsmi_utilization_counter_t := mkUtilizationCounter { uc_type : Z; uc_value : Z; uc_fine_value_count : Z }.

Record amdsmi_frequencies_t := mkFrequencies { has_deep_sleep : bool; num_supported : Z; current : Z; frequency : list Z }.
Definition frequencies_zero : amdsmi_frequencies_t := mkFrequencies false 0 0 (repeat 0 AMDSMI_MAX_NUM_FREQUENCIES).

Record amdsmi_pcie_bandwidth_t := mkPcieBandwidth { transfer_rate : amdsmi_frequencies_t; lanes : list Z }.

Record amdsmi_version_t := mkVersion { v_major : Z; v_minor : Z; v_release : Z; v_build : string }.

Record amd_metrics_table_header_t := mkMetricsHeader { structure_size : Z; format_revision : Z; content_revision : Z }.

Record amdsmi_gpu_metrics_t := mkSmiGpuMetrics {
  sg_temperature_edge : Z;
  sg_temperature_hotspot : Z;
  sg_temperature_mem : Z;
  sg_average_gfx_activity : Z;
  sg_average_umc_activity : Z;
  sg_current_socket_power : Z;
  sg_current_gfxclk : Z;
  sg_current_socclk : Z;
  sg_current_fan_speed : Z;
  sg_voltage_soc : Z;
  sg_voltage_gfx : Z;
  sg_voltage_mem : Z;
  sg_current_gfxclks : list Z;
  sg_current_socclks : list Z;
}.
Definition gpu_metrics_zero : amdsmi_gpu_metrics_t :=
  mkSmiGpuMetrics 0 0 0 0 0 0 0 0 0 0 0 0 (repeat 0 AMDSMI_MAX_NUM_GFX_CLKS) (repeat 0 AMDSMI_MAX_NUM_CLKS).

Record amdsmi_process_info_t := mkProcessInfo { pi_process_id : Z; pi_vram_usage : Z; pi_sdma_usage : Z; pi_cu_occupancy : Z; pi_evicted_time : Z }.
