(* ===== verification/GpuInfo.v ===== *)
(** * GpuInfo: what a device is asked for (shared/include/gpu_info.h)

    The structures the queries of [thunk_proxy::DeviceContext] fill in, and the queries
    themselves, each with the type of its answer. *)

From Stdlib Require Import String.
From S2P Require Import Prelude.

Record VramInfo := mkVramInfo {
  vi_vram_type : Z;        (* a raw VIDEO_MEMORY_TYPE *)
  vi_vram_bit_width : Z;
  vi_vram_size_mb : Z;
}.

Record VramUsage := mkVramUsage { vram_used_mb : Z; vram_total_mb : Z }.

Record RasFeature := mkRasFeature {
  dram_ecc : bool;
  sram_ecc : bool;
  poisoning : bool;
  needs_reboot : bool;
}.

Record BdfInfo := mkBdfInfo {
  bi_domain_number : Z;
  bi_bus_number : Z;
  bi_device_number : Z;
  bi_function_number : Z;
}.

Record PowerInfo := mkPowerInfo {
  pi_current_socket_power : Z;
  pi_gfx_voltage : Z;
  pi_soc_voltage : Z;
  pi_mem_voltage : Z;
  pi_power_limit : Z;
}.

Record FwEntry := mkFwEntry { fe_fw_id : Z; fe_fw_version : Z }.

Definition kMaxFwEntries : Z := 32.

Record FwInfo := mkFwInfo {
  fw_entries : list FwEntry;     (* [kMaxFwEntries] of them *)
  fw_num_fw_info : Z;
}.

Record GpuActivity := mkGpuActivity {
  ga_gfx_activity : Z;
  ga_umc_activity : Z;
  ga_mm_activity : Z;
}.

Record PCIeInfo := mkPCIeInfo {
  px_max_pcie_width : Z;
  px_max_pcie_speed : Z;
  px_pcie_interface_version : Z;
  px_slot_type : Z;
  px_pcie_width : Z;
  px_pcie_speed : Z;
  px_pcie_bandwidth : Z;
  px_pcie_replay_count : Z;
  px_pcie_l0_to_recovery_count : Z;
  px_pcie_replay_roll_over_count : Z;
  px_pcie_nak_sent_count : Z;
  px_pcie_nak_received_count : Z;
}.

Record ClockInfo := mkClockInfo {
  ci_clk : Z;
  ci_min_clk : Z;
  ci_max_clk : Z;
  ci_clk_locked : Z;
  ci_clk_deep_sleep : Z;
}.

(** A [char\[256\]] is its characters before the terminator. *)
Record BoardInfo := mkBoardInfo { bo_product_name : string; bo_manufacturer_name : string }.

Record DriverInfo := mkDriverInfo { dr_driver_version : string; dr_driver_date : string; dr_driver_name : string }.

Record VBiosInfo := mkVBiosInfo {
  vb_name : string;
  vb_build_date : string;
  vb_part_number : string;
  vb_version : string;
  vb_boot_firmware : string;
}.

Record GpuMetricsInfo := mkGpuMetricsInfo {
  gm_temperature_edge : Z;
  gm_temperature_hotspot : Z;
  gm_temperature_mem : Z;
  gm_average_gfx_activity : Z;
  gm_average_umc_activity : Z;
  gm_current_socket_power : Z;
  gm_current_gfxclk : Z;
  gm_current_socclk : Z;
  gm_current_fan_speed : Z;
  gm_current_fan_speed_percent : Z;
  gm_voltage_soc : Z;
  gm_voltage_gfx : Z;
  gm_voltage_mem : Z;
}.

Record CacheEntry := mkCacheEntry {
  ce_cache_size_kb : Z;
  ce_cache_level : Z;
  ce_cache_properties : Z;
  ce_max_num_cu_shared : Z;
  ce_num_cache_instance : Z;
}.

Record CacheInfo := mkCacheInfo {
  ca_num_cache_types : Z;
  ca_cache : list CacheEntry;    (* 10 of them *)
}.

Record AsicInfo := mkAsicInfo {
  as_device_id : Z;
  as_vendor_id : Z;
  as_subvendor_id : Z;
  as_subsystem_id : Z;
  as_rev_id : Z;
  as_asic_serial : Z;
  as_market_name : string;
  as_num_of_compute_units : Z;
  as_target_graphics_version : Z;
}.

(** [thunk_proxy::GpuProcessInfo] *)
Record GpuProcessInfo := mkGpuProcessInfo { win_pid : Z; vram_usage_bytes : Z }.

(** The queries of [DeviceContext]. *)
Inductive device_query : Type -> Type :=
  | QueryVramInfo : device_query VramInfo
  | QueryVramUsage : device_query VramUsage
  | QueryRasFeature : device_query RasFeature
  | QueryBdfInfo : device_query BdfInfo
  | QueryAsicInfo : device_query AsicInfo
  | QueryCacheInfo : device_query CacheInfo
  | QueryVBiosInfo : device_query VBiosInfo
  | QueryPowerInfo : device_query PowerInfo
  | QueryTempMetric (sensor_type metric : Z) : device_query Z
  | QueryGpuActivity : device_query GpuActivity
  | QueryFwInfo : device_query FwInfo
  | QueryClockInfo (clk_type : Z) : device_query ClockInfo
  | QueryPCIeInfo : device_query PCIeInfo
  | QueryBoardInfo : device_query BoardInfo
  | QueryDriverInfo : device_query DriverInfo
  | QueryMemoryTotal (mem_type : Z) : device_query Z
  | QueryMemoryUsage (mem_type : Z) : device_query Z
  | QueryGpuMetricsInfo : device_query GpuMetricsInfo
  | EnumGpuProcesses : device_query (list GpuProcessInfo).
