(* ===== verification/Kernel.v ===== *)
(** * Kernel: the calls that leave the library

    libdxcore (the [D3DKMT*] entry points the wrappers of thunks.h reach through
    DxcoreLoader) and the Linux system calls are not part of the repository. A
    call is a value of [kcall R], [R] the results its caller reads; an
    environment of type [K] answers it ([Kernel]). Nothing is assumed of the
    answers. The calls and answers of a run are kept in a log. *)

From Stdlib Require Import String.
From S2P Require Import Prelude.
From S2P Require Import Status.
From S2P Require Export GpuInfo.

(** [thunk_proxy::AllocDomain] *)
Inductive AllocDomain := kSystem | kLocal | kUserMemory | kUserQueue.

#[export] Instance AllocDomain_eq_dec : EqDecision AllocDomain.
Proof. solve_decision. Defined.

Record LUID := mkLUID { LUID_LowPart : Z; LUID_HighPart : Z }.

#[export] Instance LUID_eq_dec : EqDecision LUID.
Proof. solve_decision. Defined.

(** The fields of [D3DDDI_MAPGPUVIRTUALADDRESS] the sources set. *)
Record MapArgs := mkMapArgs {
  map_hPagingQueue : Z;
  map_BaseAddress : Z;
  map_hAllocation : Z;
  map_OffsetInPages : Z;
  map_SizeInPages : Z;
  map_Write : bool;
  map_NoAccess : bool;
}.

(** One entry of [pAllocationInfo2] with the private data [SetAllocationInfo]
    writes for it. *)
Record AllocationInfo := mkAllocationInfo {
  ai_size : Z;
  ai_domain : AllocDomain;
  ai_addr : Z;
  ai_mem_flags : Z;
  ai_engine_flag : Z;
  ai_pSystemMem : Z;
}.

(** The private runtime data shared between exporter and importer. *)
Record SharedHandleInfo := mkSharedHandleInfo {
  shi_domain : AllocDomain;
  shi_adapter_luid : LUID;
  shi_client_size : Z;
  shi_size : Z;
  shi_flags : Z;
  shi_mem_flags : Z;
  shi_pid : Z;
  shi_gpu_addr : Z;
}.

Record CreateAllocationArgs := mkCreateAllocationArgs {
  ca_hDevice : Z;
  ca_info : list AllocationInfo;
  ca_shared : option SharedHandleInfo;   (* with NtSecuritySharing, CreateShared, CreateResource *)
}.

Record QueryResourceInfo := mkQueryResourceInfo {
  qr_NumAllocations : Z;
  qr_PrivateRuntimeDataSize : Z;
}.

Record OpenResourceResult := mkOpenResourceResult {
  or_hResource : Z;
  or_handles : list Z;
  or_private_data : SharedHandleInfo;
}.

Record SegmentStatistics := mkSegmentStatistics {
  ss_SegmentType : Z;
  ss_SystemMemory : bool;
  ss_Aperture : bool;
  ss_CommitLimit : Z;
  ss_BytesResident : Z;
}.

Inductive mmap_prot := PROT_NONE | PROT_READ | PROT_WRITE | PROT_EXEC.
Inductive mmap_flag :=
  | MAP_PRIVATE | MAP_SHARED | MAP_ANONYMOUS | MAP_FIXED | MAP_NORESERVE | MAP_UNINITIALIZED | MAP_LOCKED.

#[export] Instance mmap_flag_eq_dec : EqDecision mmap_flag.
Proof. solve_decision. Defined.

Record ReserveVaArgs := mkReserveVaArgs {
  rv_handle : Z;
  rv_Size : Z;
  rv_BaseAddress : Z;
  rv_MinimumAddress : Z;
  rv_MaximumAddress : Z;
}.

(** What [shared_dev_] answers: the accessors of shared/include/device.h, served
    by the thunk proxy from the kernel driver's adapter information. *)
Record DeviceInfo := mkDeviceInfo {
  sd_DeviceHandle : Z;
  sd_AdapterLuid : LUID;
  sd_EngineOrdinal : Z -> Z;
  sd_IsHwsEnabled : Z -> bool;
  sd_IsGpuTimeoutDisabled : Z -> bool;
  sd_Major : Z;
  sd_Minor : Z;
  sd_Stepping : Z;
  sd_IsDgpu : bool;
  sd_LocalVisibleHeapSize : Z;
  sd_LocalInvisibleHeapSize : Z;
  sd_NonLocalHeapSize : Z;
  sd_PrivateApertureBase : Z;
  sd_PrivateApertureSize : Z;
  sd_SharedApertureBase : Z;
  sd_SharedApertureSize : Z;
  sd_SupportStateShadowingByCpFw : bool;
  sd_ComputeEngine : Z;
  sd_NumSdmaEngines : Z;
  sd_SdmaEngine : Z -> Z;
  sd_EnableBigPageAlignment : bool;
  sd_BigPageAlignmentSize : Z;
  sd_HwBigPageMinAlignmentSize : Z;
  sd_HwBigPageAlignmentSize : Z;
  sd_LdsSize : Z;
  sd_MaxScratchSlotsPerCu : Z;
  sd_ComputeUnitCount : Z;
  sd_NumShaderEngine : Z;
  sd_UserQueueSize : Z;
  sd_SupportPlatformAtomic : bool;
  sd_ProductName : string;
  sd_Uuid : Z;
  sd_Family : Z;
  sd_DeviceId : Z;
  sd_WavefrontSize : Z;
  sd_MaxEngineClockMhz : Z;
  sd_WatchPointsNum : Z;
  sd_PciBusAddr : Z;
  sd_MemoryBusWidth : Z;
  sd_MaxMemoryClockMhz : Z;
  sd_WavePerCu : Z;
  sd_SimdPerCu : Z;
  sd_ShaderArrayPerShaderEngine : Z;
  sd_Domain : Z;
  sd_AsicRevision : Z;
  sd_GpuCounterFrequency : Z;
  sd_MecFwVersion : Z;
  sd_SdmaFwVersion : Z;
  sd_L1CacheSize : Z;
  sd_L2CacheSize : Z;
  sd_L3CacheSize : Z;
  sd_NumCpQueues : Z;
}.

(** What dl_iterate_phdr(3) says of a loaded object: of a program header its type and, read
    at its address, the entries (tag, value) of a dynamic section before [DT_NULL]. *)
Record program_header := mkPhdr { p_type : Z; p_dynamic : list (Z * Z) }.
Record dl_phdr_info := mkPhdrInfo { dlpi_name : string; dlpi_phdr : list program_header }.

Inductive kcall : Type -> Type :=
  (* libdxcore *)
  | D3DKMTMapGpuVirtualAddress (args : MapArgs) : kcall (NTSTATUS * Z)
      (* PagingFenceValue *)
  | D3DKMTCreateAllocation2 (args : CreateAllocationArgs) : kcall (NTSTATUS * (Z * list Z))
      (* hResource and the hAllocation of each entry *)
  | D3DKMTDestroyAllocation2 (device resource : Z) (handles : list Z) : kcall NTSTATUS
  | D3DKMTReserveGpuVirtualAddress (args : ReserveVaArgs) : kcall (NTSTATUS * Z)
  | D3DKMTFreeGpuVirtualAddress (adapter base size : Z) : kcall NTSTATUS
  | D3DKMTMakeResident (paging_queue : Z) (handles : list Z) : kcall (NTSTATUS * Z)
  | D3DKMTEvict (device : Z) (handles : list Z) : kcall NTSTATUS
  | D3DKMTShareObjects (num : Z) (resource flags : Z) : kcall (NTSTATUS * Z)
  | D3DKMTQueryResourceInfoFromNtHandle (device handle : Z) : kcall (NTSTATUS * QueryResourceInfo)
  | D3DKMTOpenResourceFromNtHandle (device handle num : Z) : kcall (NTSTATUS * OpenResourceResult)
  | D3DKMTWaitForSynchronizationObjectFromCpu (device : Z) (objs values : list Z) (any : bool)
      : kcall NTSTATUS
  | D3DKMTWaitForSynchronizationObjectFromGpu (context : Z) (objs values : list Z) : kcall NTSTATUS
  | D3DKMTSignalSynchronizationObjectFromGpu (context : Z) (objs values : list Z) : kcall NTSTATUS
  | D3DKMTCreatePagingQueue (device : Z) : kcall (NTSTATUS * (Z * Z * Z))
      (* hPagingQueue, hSyncObject, FenceValueCPUVirtualAddress *)
  | D3DKMTDestroyPagingQueue (queue : Z) : kcall NTSTATUS
  | D3DKMTEscape_PowerOpt (adapter device : Z) (restore : bool) : kcall NTSTATUS
  | D3DKMTQueryStatistics_Adapter (luid : LUID) : kcall (NTSTATUS * Z)
  | D3DKMTQueryStatistics_Segment (luid : LUID) (segment : Z) : kcall (NTSTATUS * SegmentStatistics)
  | D3DKMTLock2 (device allocation : Z) : kcall (NTSTATUS * Z)
  | D3DKMTUnlock2 (device allocation : Z) : kcall NTSTATUS
  | D3DKMTCreateContextVirtual (device ordinal : Z) (hw_queue disable_timeout : bool) (fw_state : bool)
      : kcall (NTSTATUS * Z)
  | D3DKMTDestroyContext (context : Z) : kcall NTSTATUS
  | D3DKMTCreateSynchronizationObject2 (device : Z) : kcall (NTSTATUS * (Z * Z))
      (* hSyncObject, FenceValueCPUVirtualAddress *)
  | D3DKMTDestroySynchronizationObject (obj : Z) : kcall NTSTATUS
  | D3DKMTQueryClockCalibration (adapter ordinal : Z) : kcall (NTSTATUS * (Z * Z))
      (* GpuClockCounter, CpuClockCounter *)
  | D3DKMTSubmitCommand (context queue commands length : Z) : kcall NTSTATUS
  | D3DKMTCreateHwQueue (context : Z) (disable_timeout fw_state : bool) (level : Z)
      : kcall (NTSTATUS * (Z * Z * Z))
      (* hHwQueue, hHwQueueProgressFence, HwQueueProgressFenceCPUVirtualAddress *)
  | D3DKMTDestroyHwQueue (queue : Z) : kcall NTSTATUS
  | D3DKMTSubmitCommandToHwQueue (queue fence commands length : Z) : kcall NTSTATUS
  (* libdxcore: enumeration *)
  | D3DKMTEnumAdapters2 (capacity : Z) : kcall (NTSTATUS * (Z * list (Z * LUID)))
      (* NumAdapters, and hAdapter and AdapterLuid of the entries written *)
  | D3DKMTQueryAdapterInfo_PhysicalAdapterCount (adapter : Z) : kcall (NTSTATUS * Z)
  | D3DKMTQueryAdapterInfo_DeviceIds (adapter index : Z) : kcall (NTSTATUS * (Z * Z))
      (* VendorID, DeviceID *)
  | D3DKMTCreateDevice (adapter : Z) (disable_timeout : bool) : kcall (NTSTATUS * Z)
  | D3DKMTDestroyDevice (device : Z) : kcall NTSTATUS
  (* the thunk proxy library; 0 is [nullptr] *)
  | ChainContext_Create (adapter : Z) (luid : LUID) : kcall Z
  | ChainContext_QueryAdapterInfo (ctx : Z) : kcall ErrorCode
  | ChainContext_NumChainedGpus (ctx : Z) : kcall Z
  | ChainContext_VendorId (ctx index : Z) : kcall Z
  | ChainContext_CreateDevice (ctx device index : Z) : kcall (Z * DeviceInfo)
      (* the [DeviceContext] and what it answers *)
  | ChainContext_delete (ctx : Z) : kcall unit
  | DeviceContext_IsWddm2Supported (ctx : Z) : kcall bool
  | DeviceContext_Init (ctx : Z) : kcall ErrorCode
  | DeviceContext_delete (ctx : Z) : kcall unit
  | DeviceContext_Query {R} (q : device_query R) (ctx : Z) : kcall (ErrorCode * R)
      (* a query and what it fills in; that is not read when it fails *)
  (* Linux *)
  | sys_dlopen (filename : string) : kcall Z
      (* 0 is [NULL] *)
  | sys_dlsym (handle : Z) (symbol : string) : kcall Z
  | sys_dlclose (handle : Z) : kcall Z
  | sys_dlinfo_linkmap (handle : Z) : kcall (option string)
      (* [l_name] of the link map, [None] when it fails *)
  | sys_dladdr (addr : Z) : kcall (option string)
      (* [dli_fname] *)
  | sys_dl_iterate_phdr : kcall (list dl_phdr_info)
  | read_c_string (addr : Z) : kcall string
      (* the characters in memory before the first NUL *)
  | sys_cpuid_max (leaf : Z) : kcall Z
  | sys_cpuid (leaf : Z) : kcall (option (Z * Z * Z * Z))
      (* eax, ebx, ecx, edx *)
  | sys_uname_release : kcall (option string)
  | sys_nprocessors : kcall Z
  | sys_read_file (path : string) : kcall (option string)
      (* the content of a file, [None] when it cannot be opened *)
  | sys_list_dir (path : string) : kcall (option (list string))
      (* the names in a directory in the order of readdir(3) *)
  | sys_mmap (addr len : Z) (prot : list mmap_prot) (flags : list mmap_flag) (fd : Z) : kcall (option Z)
      (* [None] is MAP_FAILED *)
  | sys_munmap (addr len : Z) : kcall Z
  | sys_madvise_dontfork (addr len : Z) : kcall Z
  | sys_memfd_create (name : string) : kcall Z
  | sys_ftruncate (fd len : Z) : kcall Z
  | sys_open (path : string) : kcall Z
  | sys_close (fd : Z) : kcall Z
  | sys_dup (fd : Z) : kcall Z
  | sys_fstat_size (fd : Z) : kcall Z
  | sys_readlink_fd (fd : Z) : kcall (option string)
  | sys_readlink (path : string) : kcall (option string)
  | sys_geteuid : kcall (Z * Z)
      (* the real and the effective user *)
  | sys_sysinfo : kcall (Z * (Z * Z))
      (* the result of sysinfo(2), totalram and freeram *)
  | sys_sysinfo_units : kcall (option (Z * Z))
      (* totalram and mem_unit *)
  | sys_setenv (name value : string) : kcall unit
  | sys_getpid : kcall Z
  | sys_getenv (name : string) : kcall (option string)
  | sys_page_size : kcall Z
  (* memory other agents read or write: the rings, the fences, the command buffers *)
  | load_u64 (addr : Z) : kcall Z
  | load_dwords (addr n : Z) : kcall (list Z)
  | store_dwords (addr : Z) (words : list Z) : kcall unit
  | store_u64 (addr value : Z) : kcall unit
  | store_u16 (addr value : Z) : kcall unit
  | atomic_decrement (addr : Z) : kcall unit
  | clear_bytes (addr n : Z) : kcall unit
  (* libhsa-runtime64, through hsa.cpp *)
  | hsa_signal_load_relaxed (signal : Z) : kcall Z
  | hsa_signal_wait_relaxed (signal compare : Z) : kcall Z
      (* condition EQ, no timeout *)
  | hsa_signal_store_screlease (signal value : Z) : kcall unit
  | hsa_loader_query_host_address (addr : Z) : kcall (Z * Z)
      (* the status and the host address *)
  | hsa_system_get_extension_table : kcall (option Z)
      (* [hsa_ven_amd_loader_query_host_address] of the table, [None] when it is left as it was *)
  (* threads *)
  | sleep_us (n : Z) : kcall unit
  | steady_clock_now_ns : kcall Z
  | clock_monotonic_raw : kcall (option (Z * Z))
      (* seconds and nanoseconds *)
  | clock_monotonic : kcall (Z * Z)
  | clock_getres_monotonic (raw : bool) : kcall (option (Z * Z))
  | clock_boottime : kcall (Z * Z)
  | clock_getres_boottime : kcall (Z * Z)
  | load_thread_stop (queue : Z) : kcall bool
  | store_thread_stop (queue : Z) : kcall unit
      (* under the lock of the queue *)
  | cond_wait (queue : Z) : kcall unit
  | cond_notify (queue : Z) : kcall unit
  | thread_join (queue : Z) : kcall unit
  | uninitialized_u32 : kcall Z
      (* what a local word holds that is not initialised *)
  | uninitialized_desc : kcall (AllocDomain * LUID).
      (* what [new GpuMemory] leaves in [domain] and [adapter_luid] of its descriptor *)

(** The environment answers every call. *)
Class Kernel (K : Type) := kernel_step : forall R, kcall R -> K -> R * K.

(** What mmap(2) says of [MAP_FIXED]: the mapping is at the address asked for, or
    the call fails. *)
Class MmapFixed (K : Type) `{Kernel K} : Prop := mmap_fixed :
  forall addr len prot flags fd k, MAP_FIXED ∈ flags ->
    (kernel_step _ (sys_mmap addr len prot flags fd) k).1 = None \/
    (kernel_step _ (sys_mmap addr len prot flags fd) k).1 = Some addr.

(** ** The log *)

Inductive kevent := KEvent (R : Type) (c : kcall R) (r : R).
#[global] Arguments KEvent {R}.

(** The calls to [D3DKMTMapGpuVirtualAddress] of a log, with their status. *)
Definition as_map (e : kevent) : option (MapArgs * NTSTATUS) :=
  match e with
  | KEvent c r =>
      match c in kcall R return R -> option (MapArgs * NTSTATUS) with
      | D3DKMTMapGpuVirtualAddress args => fun r => Some (args, r.1)
      | _ => fun _ => None
      end r
  end.

Definition map_calls (l : list kevent) : list (MapArgs * NTSTATUS) := omap as_map l.

Lemma map_calls_app l l' : map_calls (l ++ l') = map_calls l ++ map_calls l'.
Proof. apply omap_app. Qed.
