(* ===== verification/World.v ===== *)
(** * World: the state of the process and the monad of the stateful code

    The WDDM layer mutates a runtime object, the devices, a heap of [GpuMemory]
    objects and two global tables. [World] is all of it together with the
    environment that answers the calls of Kernel.v; [M] is the state and abort
    monad over it. [None] marks a failed [assert] or undefined behaviour, such
    as the use of a deleted object. *)

From Stdlib Require Import String.
From stdpp Require Export gmap.
From stdpp Require Import strings.
From S2P Require Import Prelude.
From S2P Require Import StdMap.
From S2P Require Import BitField.
From S2P Require Import VaMgr.
From S2P Require Import SimpleHeap.
From S2P Require Import Status.
From S2P Require Export Kernel.

(** ** Data *)

Record SegmentInfo := mkSegmentInfo {
  segment_id : Z;
  segment_type : Z;
  seg_aperture : bool;
  seg_system_memory : bool;
  seg_commit_limit : Z;
}.

Record WDDMDevice := mkWDDMDevice {
  adapter_ : Z;
  shared_dev_ : DeviceInfo;
  node_id_ : Z;
  page_queue_ : Z;
  page_syncobj_ : Z;
  page_fence_addr_ : Z;
  page_fence_value_ : Z;
  cmdbuf_size_ : Z;
  cmdbuf_aql_frame_size_ : Z;
  segment_infos_ : list SegmentInfo;
}.

Definition set_page_fence_value (v : Z) (d : WDDMDevice) : WDDMDevice :=
  mkWDDMDevice (adapter_ d) (shared_dev_ d) (node_id_ d) (page_queue_ d) (page_syncobj_ d)
    (page_fence_addr_ d) v (cmdbuf_size_ d) (cmdbuf_aql_frame_size_ d) (segment_infos_ d).
Definition set_page_queue (q s a v : Z) (d : WDDMDevice) : WDDMDevice :=
  mkWDDMDevice (adapter_ d) (shared_dev_ d) (node_id_ d) q s a v (cmdbuf_size_ d)
    (cmdbuf_aql_frame_size_ d) (segment_infos_ d).
Definition set_cmdbuf_info (size frame : Z) (d : WDDMDevice) : WDDMDevice :=
  mkWDDMDevice (adapter_ d) (shared_dev_ d) (node_id_ d) (page_queue_ d) (page_syncobj_ d)
    (page_fence_addr_ d) (page_fence_value_ d) size frame (segment_infos_ d).
Definition set_segment_infos (l : list SegmentInfo) (d : WDDMDevice) : WDDMDevice :=
  mkWDDMDevice (adapter_ d) (shared_dev_ d) (node_id_ d) (page_queue_ d) (page_syncobj_ d)
    (page_fence_addr_ d) (page_fence_value_ d) (cmdbuf_size_ d) (cmdbuf_aql_frame_size_ d)
    l.

(** [GpuMemoryDesc]; [desc_flags] is the word [flags.reserved]. *)
Record GpuMemoryDesc := mkGpuMemoryDesc {
  desc_domain : AllocDomain;
  desc_adapter_luid : LUID;
  desc_gpu_addr : Z;
  desc_cpu_addr : Z;
  desc_client_size : Z;
  desc_size : Z;
  desc_alignment : Z;
  desc_handle_ape_addr : Z;
  desc_flags : Z;
  desc_mem_flags : Z;
  desc_engine_flag : Z;
}.

Record GpuMemory := mkGpuMemory {
  device_ : nat;                         (* index into the device table *)
  desc_ : GpuMemoryDesc;
  num_allocations_ : Z;
  alloc_handles_ptr_ : option (list Z);  (* [None] is [nullptr] *)
  resource_ : Z;
  mem_fd_ : Z;
}.

(** An address space with the manager that hands it out. *)
Record HeapSpace := mkHeapSpace {
  space_start : Z;
  space_size : Z;
  space_mgr : option VaMgr;              (* the [unique_ptr] *)
}.

Record hsakmtRuntime := mkRuntime {
  dxg_fd : Z;
  parent_pid : Z;
  is_forked : bool;
  dxg_open_count : Z;
  hsakmt_debug_level : Z;
  hsakmt_is_dgpu : bool;
  zfb_support : Z;
  vendor_packet_process : Z;
  check_avail_sysram : bool;
  max_single_alloc_size : Z;
  enable_thunk_sub_allocator : Z;
  default_node : Z;
  page_size : Z;
  page_shift : Z;
  is_svm_api_supported : bool;
  local_heap : HeapSpace;
  system_heap : HeapSpace;
  handle_aperture : HeapSpace;
}.

(** An entry of [allocation_map_] (memory.cpp). *)
Record Allocation := mkAllocation {
  al_handle : Z;           (* the [GpuMemory] object *)
  al_cpu_addr : Z;
  al_gpu_addr : Z;
  al_size : Z;
  al_userptr : bool;
  al_user_data : Z;
  al_size_requested : Z;
  al_node_id : Z;
  al_mem_flags_value : Z;
  al_dmabuf_fd : Z;
  al_rocr_userdata : Z;
}.

(** The object that loads libdxcore (Loader.v). *)
Record DxcoreLoader := mkDxcoreLoader {
  dxcore_handle_ : Z;                (* 0 is [nullptr] *)
  pfn_ : gmap string Z;              (* a pointer that is not there is [nullptr] *)
}.

Definition DxcoreLoader_new : DxcoreLoader := mkDxcoreLoader 0 ∅.

Record World (K : Type) := mkWorld {
  w_ker : K;
  w_log : list kevent;                  (* oldest first *)
  w_rt : hsakmtRuntime;
  w_devs : list WDDMDevice;
  w_mems : gmap Z GpuMemory;            (* the live [GpuMemory] objects by pointer *)
  w_next : Z;                           (* the next pointer [new] returns *)
  w_amap : list (Z * Allocation);       (* allocation_map_ *)
  w_fa : SimpleHeap;                    (* fragment_allocator_ *)
  w_nodes : Z;                          (* dxg_topology->num_sysfs_nodes *)
  w_atfork : bool;                      (* atfork_installed of hsaKmtOpenKFD *)
  w_loader : DxcoreLoader;              (* DxcoreLoader::Instance() *)
}.

#[global] Arguments mkWorld {K}.
#[global] Arguments w_ker {K}.
#[global] Arguments w_log {K}.
#[global] Arguments w_rt {K}.
#[global] Arguments w_devs {K}.
#[global] Arguments w_mems {K}.
#[global] Arguments w_next {K}.
#[global] Arguments w_amap {K}.
#[global] Arguments w_fa {K}.
#[global] Arguments w_nodes {K}.
#[global] Arguments w_atfork {K}.
#[global] Arguments w_loader {K}.

Section setters.
Context {K : Type}.

Definition set_rt (r : hsakmtRuntime) (w : World K) : World K :=
  mkWorld (w_ker w) (w_log w) r (w_devs w) (w_mems w) (w_next w) (w_amap w) (w_fa w)
    (w_nodes w) (w_atfork w) (w_loader w).
Definition set_devs (l : list WDDMDevice) (w : World K) : World K :=
  mkWorld (w_ker w) (w_log w) (w_rt w) l (w_mems w) (w_next w) (w_amap w) (w_fa w)
    (w_nodes w) (w_atfork w) (w_loader w).
Definition set_mems (m : gmap Z GpuMemory) (w : World K) : World K :=
  mkWorld (w_ker w) (w_log w) (w_rt w) (w_devs w) m (w_next w) (w_amap w) (w_fa w)
    (w_nodes w) (w_atfork w) (w_loader w).
Definition set_next (n : Z) (w : World K) : World K :=
  mkWorld (w_ker w) (w_log w) (w_rt w) (w_devs w) (w_mems w) n (w_amap w) (w_fa w)
    (w_nodes w) (w_atfork w) (w_loader w).
Definition set_amap (m : list (Z * Allocation)) (w : World K) : World K :=
  mkWorld (w_ker w) (w_log w) (w_rt w) (w_devs w) (w_mems w) (w_next w) m (w_fa w)
    (w_nodes w) (w_atfork w) (w_loader w).
Definition set_fa (h : SimpleHeap) (w : World K) : World K :=
  mkWorld (w_ker w) (w_log w) (w_rt w) (w_devs w) (w_mems w) (w_next w) (w_amap w) h
    (w_nodes w) (w_atfork w) (w_loader w).
Definition set_nodes (n : Z) (w : World K) : World K :=
  mkWorld (w_ker w) (w_log w) (w_rt w) (w_devs w) (w_mems w) (w_next w) (w_amap w) (w_fa
    w) n (w_atfork w) (w_loader w).
Definition set_atfork (b : bool) (w : World K) : World K :=
  mkWorld (w_ker w) (w_log w) (w_rt w) (w_devs w) (w_mems w) (w_next w) (w_amap w) (w_fa
    w) (w_nodes w) b (w_loader w).
Definition log_call (k : K) (e : kevent) (w : World K) : World K :=
  mkWorld k (w_log w ++ [e]) (w_rt w) (w_devs w) (w_mems w) (w_next w) (w_amap w) (w_fa w)
    (w_nodes w) (w_atfork w) (w_loader w).
Definition set_loader (l : DxcoreLoader) (w : World K) : World K :=
  mkWorld (w_ker w) (w_log w) (w_rt w) (w_devs w) (w_mems w) (w_next w) (w_amap w) (w_fa w)
    (w_nodes w) (w_atfork w) l.
End setters.

(** ** The monad *)

Definition M (K : Type) (A : Type) : Type := World K -> option (A * World K).

#[export] Instance M_ret K : MRet (M K) := fun A x w => Some (x, w).
#[export] Instance M_bind K : MBind (M K) := fun A B f m w =>
  match m w with
  | Some (x, w') => f x w'
  | None => None
  end.

Section prims.
Context {K : Type}.

Definition abort {A} : M K A := fun _ => None.
Definition massert (b : bool) : M K unit := fun w => if b then Some (tt, w) else None.
Definition mget {A} (f : World K -> A) : M K A := fun w => Some (f w, w).
Definition mset (f : World K -> World K) : M K unit := fun w => Some (tt, f w).
(** Use a value that must be there: a pointer that is dereferenced. *)
Definition mderef {A} (o : option A) : M K A :=
  match o with Some x => mret x | None => abort end.

Context `{Kernel K}.

Definition kcall_ {R} (c : kcall R) : M K R := fun w =>
  let '(r, k) := kernel_step R c (w_ker w) in
  Some (r, log_call k (KEvent c r) w).

(** The wrappers of thunks.h: the status is translated. *)
Definition dx {R} (c : kcall (NTSTATUS * R)) : M K (ErrorCode * R) :=
  r ← kcall_ c; mret (TranslateNtStatus r.1, r.2).
Definition dx_ (c : kcall NTSTATUS) : M K ErrorCode :=
  r ← kcall_ c; mret (TranslateNtStatus r).
End prims.

#[global] Arguments abort : simpl never.

(** ** Objects *)

Section objects.
Context {K : Type}.

Definition get_dev (i : nat) : M K WDDMDevice := fun w =>
  match w_devs w !! i with Some d => Some (d, w) | None => None end.
Definition set_dev (i : nat) (d : WDDMDevice) : M K unit := fun w =>
  match w_devs w !! i with Some _ => Some (tt, set_devs (<[i := d]> (w_devs w)) w) | None => None end.

(** A member function runs on a live object. *)
Definition get_mem (p : Z) : M K GpuMemory := fun w =>
  match w_mems w !! p with Some g => Some (g, w) | None => None end.
Definition set_mem (p : Z) (g : GpuMemory) : M K unit := fun w =>
  match w_mems w !! p with Some _ => Some (tt, set_mems (<[p := g]> (w_mems w)) w) | None => None end.

Definition new_mem (g : GpuMemory) : M K Z := fun w =>
  Some (w_next w, set_next (w_next w + 1) (set_mems (<[w_next w := g]> (w_mems w)) w)).
(** The memory of a deleted object goes back after its destructor ran. *)
Definition delete_mem (p : Z) : M K unit := fun w =>
  match w_mems w !! p with Some _ => Some (tt, set_mems (delete p (w_mems w)) w) | None => None end.
End objects.

(** ** Reasoning about runs *)

Lemma M_bind_Some K A B (m : M K A) (f : A -> M K B) w y w2 :
  (m ≫= f) w = Some (y, w2) <-> exists x w1, m w = Some (x, w1) /\ f x w1 = Some (y, w2).
Proof.
  unfold mbind, M_bind. destruct (m w) as [[x w1]|]; naive_solver.
Qed.

Lemma M_bind_step K A B (m : M K A) (f : A -> M K B) w x w1 :
  m w = Some (x, w1) -> (m ≫= f) w = f x w1.
Proof. unfold mbind, M_bind. by intros ->. Qed.

(** What the results of [m] satisfy. *)
Definition returns {K A} (P : A -> Prop) (m : M K A) : Prop := forall w x w', m w = Some (x, w') -> P x.

Lemma returns_ret {K A} (P : A -> Prop) x : P x -> @returns K A P (mret x).
Proof. by intros HP w y w' [= <- <-]. Qed.
Lemma returns_bind {K A B} (P : A -> Prop) (Q : B -> Prop) (m : M K A) (f : A -> M K B) :
  returns P m -> (forall x, P x -> returns Q (f x)) -> returns Q (m ≫= f).
Proof. intros Hm Hf w y w2 (x & w1 & H1 & H2)%M_bind_Some. eapply Hf; [by eapply Hm|done]. Qed.
Lemma returns_any {K A B} (Q : B -> Prop) (m : M K A) (f : A -> M K B) : (forall x, returns Q (f x)) -> returns Q (m ≫= f).
Proof. intros Hf. apply (returns_bind (fun _ => True)); [done|auto]. Qed.
Lemma returns_abort {K A} (P : A -> Prop) : returns P (@abort K A).
Proof. by intros w x w'. Qed.

(** Steps through binds whose results do not matter. *)
Ltac returns :=
  repeat match goal with
  | |- returns _ (_ ≫= _) => apply returns_any; intros ?
  | |- returns _ (match _ with _ => _ end) => case_match
  | |- returns _ (mret _) => apply returns_ret
  | |- returns _ abort => apply returns_abort
  end.

(** [m] leaves the view [f] of the world alone. *)
Definition still {K A X} (f : World K -> X) (m : M K A) : Prop := forall w x w', m w = Some (x, w') -> f w' = f w.

Section still.
Context {K : Type} `{Kernel K} {X : Type} (f : World K -> X).

Lemma still_ret {A} (x : A) : still f (mret x).
Proof. by intros w y w' [= <- <-]. Qed.
Lemma still_bind {A B} (m : M K A) (g : A -> M K B) : still f m -> (forall x, still f (g x)) -> still f (m ≫= g).
Proof. intros Hm Hg w y w2 (x & w1 & H1 & H2)%M_bind_Some. rewrite (Hg _ _ _ _ H2). by eapply Hm. Qed.
Lemma still_mget {A} (g : World K -> A) : still f (mget g).
Proof. by intros w y w' [= <- <-]. Qed.
Lemma still_mderef {A} (o : option A) : still f (mderef o).
Proof. intros w y w'. by destruct o; [intros [= <- <-]|]. Qed.
Lemma still_massert b : still f (massert b).
Proof. intros w y w'. unfold massert. by destruct b; [intros [= <- <-]|]. Qed.
Lemma still_abort {A} : still f (@abort K A).
Proof. by intros w y w'. Qed.
Lemma still_mset g : (forall w, f (g w) = f w) -> still f (mset g).
Proof. intros Hg w y w' [= <- <-]. apply Hg. Qed.
Lemma still_get_dev i : still f (get_dev i).
Proof. intros w y w'. unfold get_dev. by case_match; [intros [= <- <-]|]. Qed.
Lemma still_kcall {R} (c : kcall R) : (forall k e w, f (log_call k e w) = f w) -> still f (kcall_ c).
Proof. intros Hf w y w'. unfold kcall_. destruct (kernel_step R c (w_ker w)). intros [= <- <-]. apply Hf. Qed.
End still.

Create HintDb still discriminated.
#[export] Hint Resolve still_ret still_mget still_mderef still_massert still_abort still_get_dev : still.

(** Works through a definition; the views in use do not see the log and [mset] updates. *)
Ltac still :=
  repeat match goal with
  | |- still _ (_ ≫= _) => apply still_bind; [|intros ?]
  | |- still _ (match ?x with _ => _ end) => destruct x
  | |- still _ (mset _) => apply still_mset; intros ?; reflexivity
  | |- still _ (kcall_ _) => apply still_kcall; intros ???; reflexivity
  | |- still _ (dx _) => unfold dx
  | |- still _ (dx_ _) => unfold dx_
  | |- still _ _ => solve [auto with still]
  end.

(** The last condition of every loop below: what a call may change. *)
Definition frame {K} (w w' : World K) : Prop :=
  w_rt w' = w_rt w /\ w_mems w' = w_mems w /\ w_next w' = w_next w /\
  w_amap w' = w_amap w /\ w_fa w' = w_fa w /\ w_nodes w' = w_nodes w /\ w_atfork w' = w_atfork w.

#[export] Instance frame_preorder {K} : PreOrder (@frame K).
Proof.
  split; [by repeat split|]. intros ??? (?&?&?&?&?&?&?) (?&?&?&?&?&?&?).
  repeat split; congruence.
Qed.

(** [w'] is [w] after some calls. *)
Definition log_extends {K} (w w' : World K) (l : list kevent) : Prop := w_log w' = w_log w ++ l.
