(* ===== verification/Loader.v ===== *)
(** * Loader: the loader of libdxcore (shared/src/dxcore_loader.cpp)

    The object behind [DXCORE_CALL], whose data is in World.v: a handle of dlopen(3) and
    one function pointer for every entry point the library uses. *)

From Stdlib Require Import String.
From stdpp Require Import strings.
From S2P Require Import Prelude.
From S2P Require Import Status.
From S2P Require Import World.
#[local] Open Scope Z_scope.

(** The entry points without which loading fails, in the order they are looked up. *)
Definition required_apis : list string :=
  ["D3DKMTCreateAllocation2"; "D3DKMTDestroyAllocation2"; "D3DKMTMapGpuVirtualAddress";
   "D3DKMTReserveGpuVirtualAddress"; "D3DKMTFreeGpuVirtualAddress"; "D3DKMTCreateDevice"; "D3DKMTDestroyDevice";
   "D3DKMTEnumAdapters2"; "D3DKMTQueryAdapterInfo"; "D3DKMTCreateContextVirtual"; "D3DKMTDestroyContext";
   "D3DKMTSubmitCommand"; "D3DKMTCreateSynchronizationObject2"; "D3DKMTDestroySynchronizationObject";
   "D3DKMTQueryStatistics"; "D3DKMTEscape"; "D3DKMTLock2"; "D3DKMTUnlock2"; "D3DKMTCreatePagingQueue";
   "D3DKMTDestroyPagingQueue"; "D3DKMTWaitForSynchronizationObjectFromGpu";
   "D3DKMTSignalSynchronizationObjectFromGpu"; "D3DKMTWaitForSynchronizationObjectFromCpu";
   "D3DKMTQueryClockCalibration"; "D3DKMTMakeResident"; "D3DKMTEvict"; "D3DKMTShareObjects";
   "D3DKMTQueryResourceInfoFromNtHandle"; "D3DKMTOpenResourceFromNtHandle"; "D3DKMTCreateHwQueue";
   "D3DKMTDestroyHwQueue"; "D3DKMTSubmitCommandToHwQueue"]%string.

Definition optional_apis : list string := ["D3DKMTEnumProcesses"; "D3DKMTQueryVideoMemoryInfo"]%string.

Definition IsLoaded (l : DxcoreLoader) : bool := negb (dxcore_handle_ l =? 0).
Definition set_handle (h : Z) (l : DxcoreLoader) : DxcoreLoader := mkDxcoreLoader h (pfn_ l).
Definition set_pfn (name : string) (p : Z) (l : DxcoreLoader) : DxcoreLoader :=
  mkDxcoreLoader (dxcore_handle_ l) (<[name := p]> (pfn_ l)).
Definition pfn (l : DxcoreLoader) (name : string) : Z := default 0 (pfn_ l !! name).

Section loader.
Context {K : Type} `{Kernel K}.

(** [LOAD_DXCORE_API] for each: stops at the first that is not there. *)
Fixpoint load_required (names : list string) (l : DxcoreLoader) : M K (bool * DxcoreLoader) :=
  match names with
  | [] => mret (true, l)
  | name :: names =>
      p ← kcall_ (sys_dlsym (dxcore_handle_ l) name);
      let l := set_pfn name p l in
      if p =? 0 then mret (false, l) else load_required names l
  end.

Fixpoint load_optional (names : list string) (l : DxcoreLoader) : M K DxcoreLoader :=
  match names with
  | [] => mret l
  | name :: names =>
      p ← kcall_ (sys_dlsym (dxcore_handle_ l) name);
      load_optional names (set_pfn name p l)
  end.

Definition LoadDxcoreApis (l : DxcoreLoader) : M K (bool * DxcoreLoader) :=
  if dxcore_handle_ l =? 0 then mret (false, l)
  else
    '(ok, l) ← load_required required_apis l;
    if negb ok then mret (false, l)
    else l ← load_optional optional_apis l; mret (true, l).

(** [DxcoreLoader::Initialize]: a handle that is already there is overwritten. *)
Definition Loader_Initialize (l : DxcoreLoader) : M K (bool * DxcoreLoader) :=
  h ← kcall_ (sys_dlopen "libdxcore.so");
  let l := set_handle h l in
  if h =? 0 then mret (false, l)
  else
    '(ok, l) ← LoadDxcoreApis l;
    if negb ok then
      kcall_ (sys_dlclose (dxcore_handle_ l)) ;;
      mret (false, set_handle 0 l)
    else mret (IsLoaded l, l).

(** [DxcoreLoader::Shutdown]: the function pointers stay. *)
Definition Loader_Shutdown (l : DxcoreLoader) : M K DxcoreLoader :=
  if negb (dxcore_handle_ l =? 0) then
    kcall_ (sys_dlclose (dxcore_handle_ l)) ;;
    mret (set_handle 0 l)
  else mret l.
End loader.

(** ** References to libdxcore *)

(** dlopen(3) counts the references to a library, dlclose(3) gives one back. *)
Definition as_dl (e : kevent) : Z :=
  match e with
  | KEvent c r =>
      match c in kcall R return R -> Z with
      | sys_dlopen _ => fun h => if h =? 0 then 0 else 1
      | sys_dlclose _ => fun _ => -1
      | _ => fun _ => 0
      end r
  end.

Definition dl_refs (l : list kevent) : Z := fold_right (fun e n => as_dl e + n) 0 l.

Lemma dl_refs_app l l' : dl_refs (l ++ l') = dl_refs l + dl_refs l'.
Proof. unfold dl_refs. induction l as [|e l IH]; [done|]. cbn. lia. Qed.

Section spec.
Context {K : Type} `{Kernel K}.
Implicit Types (w : World K) (l : DxcoreLoader).

Definition dlw w : Z := dl_refs (w_log w).

Lemma kcall_dl {R} (c : kcall R) w : exists r k w', kcall_ c w = Some (r, w') /\ w' = log_call k (KEvent c r) w /\ dlw w' = dlw w + as_dl (KEvent c r).
Proof.
  unfold kcall_. destruct (kernel_step R c (w_ker w)) as [r k]. exists r, k. eexists. split_and!; [done..|].
  unfold dlw. cbn [log_call w_log]. rewrite dl_refs_app. cbn [dl_refs fold_right]. lia.
Qed.

(** Every member but the environment and the log. *)
Definition kept w w' : Prop := w_rt w' = w_rt w /\ w_devs w' = w_devs w /\ w_mems w' = w_mems w /\ w_next w' = w_next w /\
  w_amap w' = w_amap w /\ w_fa w' = w_fa w /\ w_nodes w' = w_nodes w /\ w_atfork w' = w_atfork w /\ w_loader w' = w_loader w.

#[export] Instance kept_preorder : PreOrder kept.
Proof. split; [by repeat split|]. intros ??? (?&?&?&?&?&?&?&?&?) (?&?&?&?&?&?&?&?&?). repeat split; congruence. Qed.

Lemma kept_log k e w : kept w (log_call k e w).
Proof. by repeat split. Qed.

Lemma load_required_spec names l w : exists ok l' w', load_required names l w = Some ((ok, l'), w') /\ kept w w' /\ dlw w' = dlw w /\
  dxcore_handle_ l' = dxcore_handle_ l /\ (ok = true -> NoDup names -> forall n, n ∈ names -> pfn l' n <> 0) /\
  (forall n, n ∉ names -> pfn l' n = pfn l n).
Proof.
  revert l w. induction names as [|name names IH]; intros l w; cbn [load_required].
  { exists true, l, w. split_and!; try done. intros _ _ n Hn. by apply not_elem_of_nil in Hn. }
  destruct (kcall_dl (sys_dlsym (dxcore_handle_ l) name) w) as (p & k & w1 & H1 & Hw1 & Hd1). rewrite (M_bind_step _ _ _ _ _ _ _ _ H1).
  assert (pfn (set_pfn name p l) name = p) as Hp by (unfold pfn, set_pfn; cbn; by rewrite lookup_insert_eq).
  assert (forall n, n <> name -> pfn (set_pfn name p l) n = pfn l n) as Hne.
  { intros n Hn. unfold pfn, set_pfn. cbn. by rewrite lookup_insert_ne. }
  assert (kept w w1) as Hk1 by (subst w1; apply kept_log). rewrite Z.add_0_r in Hd1.
  destruct (Z.eqb_spec p 0).
  { eexists false, _, w1. split_and!; try done. intros n Hn. apply Hne. set_solver. }
  destruct (IH (set_pfn name p l) w1) as (ok & l' & w' & H2 & Hk2 & Hd2 & Hh & Hall & Hout). exists ok, l', w'.
  split_and!; [done|by etrans|congruence|done|..].
  - intros Hok [Hn Hnd]%NoDup_cons m [->|Hm]%elem_of_cons; [by rewrite Hout, Hp|by apply Hall].
  - intros m Hm. rewrite Hout by set_solver. apply Hne. set_solver.
Qed.

Lemma load_optional_spec names l w : exists l' w', load_optional names l w = Some (l', w') /\ kept w w' /\ dlw w' = dlw w /\
  dxcore_handle_ l' = dxcore_handle_ l /\ (forall n, n ∉ names -> pfn l' n = pfn l n).
Proof.
  revert l w. induction names as [|name names IH]; intros l w; cbn [load_optional]; [by exists l, w|].
  destruct (kcall_dl (sys_dlsym (dxcore_handle_ l) name) w) as (p & k & w1 & H1 & Hw1 & Hd1). rewrite (M_bind_step _ _ _ _ _ _ _ _ H1).
  destruct (IH (set_pfn name p l) w1) as (l' & w' & H2 & Hk2 & Hd2 & Hh & Hout). exists l', w'. rewrite Z.add_0_r in Hd1.
  split_and!; [done|etrans; [|done]; subst w1; apply kept_log|congruence|done|].
  intros m Hm. rewrite Hout by set_solver. unfold pfn, set_pfn. cbn. rewrite lookup_insert_ne; [done|]. set_solver.
Qed.

Lemma apis_NoDup : NoDup required_apis /\ forall n, n ∈ required_apis -> n ∉ optional_apis.
Proof.
  split; [by apply (bool_decide_unpack _); vm_compute|].
  assert (Forall (fun n => n ∉ optional_apis) required_apis) as Hall by (by apply (bool_decide_unpack _); vm_compute).
  by apply Forall_forall.
Qed.

(** Loading succeeds with one more reference, a handle and every required entry point, or
    fails with no handle and the references as they were. *)
Lemma Initialize_spec l w : exists ok l' w', Loader_Initialize l w = Some ((ok, l'), w') /\ kept w w' /\
  if (ok : bool) then dlw w' = dlw w + 1 /\ dxcore_handle_ l' <> 0 /\ forall n, n ∈ required_apis -> pfn l' n <> 0
  else dlw w' = dlw w /\ dxcore_handle_ l' = 0.
Proof.
  destruct (kcall_dl (sys_dlopen "libdxcore.so") w) as (h & k & w1 & H1 & Hw1 & Hd1). unfold Loader_Initialize.
  rewrite (M_bind_step _ _ _ _ _ _ _ _ H1). assert (kept w w1) as Hk1 by (subst w1; apply kept_log). cbn [as_dl] in Hd1.
  destruct (Z.eqb_spec h 0) as [->|Hh]; [exists false; eexists _, w1; split_and!; try done; lia|].
  unfold LoadDxcoreApis. change (dxcore_handle_ (set_handle h l)) with h. rewrite (proj2 (Z.eqb_neq h 0) Hh).
  destruct (load_required_spec required_apis (set_handle h l) w1) as (ok & l2 & w2 & H2 & Hk2 & Hd2 & Hh2 & Hall & _).
  assert (kept w w2) as Hk by (by etrans). destruct apis_NoDup as [Hnd Hdisj].
  destruct ok.
  - destruct (load_optional_spec optional_apis l2 w2) as (l3 & w3 & H3 & Hk3 & Hd3 & Hh3 & Hout).
    assert (dxcore_handle_ l3 = h) as E3 by (by rewrite Hh3, Hh2).
    exists true, l3, w3. split; [|split; [by etrans|]].
    + unfold mbind at 1, M_bind at 1. rewrite (M_bind_step _ _ _ _ _ _ _ _ H2). cbn [negb].
      rewrite (M_bind_step _ _ _ _ _ _ _ _ H3). cbn. unfold IsLoaded. rewrite E3. by rewrite (proj2 (Z.eqb_neq h 0) Hh).
    + split_and!; [lia|by rewrite E3|]. intros n Hn. rewrite Hout by auto. by apply Hall.
  - destruct (kcall_dl (sys_dlclose (dxcore_handle_ l2)) w2) as (r & k3 & w3 & H3 & Hw3 & Hd3).
    exists false, (set_handle 0 l2), w3. split; [|split; [etrans; [done|]; subst w3; apply kept_log|]].
    + unfold mbind at 1, M_bind at 1. rewrite (M_bind_step _ _ _ _ _ _ _ _ H2). cbn [negb mret M_ret].
      by rewrite (M_bind_step _ _ _ _ _ _ _ _ H3).
    + cbn [as_dl] in Hd3. split; [lia|done].
Qed.

Lemma Shutdown_spec l w : exists l' w', Loader_Shutdown l w = Some (l', w') /\ kept w w' /\ dxcore_handle_ l' = 0 /\
  dlw w' = dlw w - (if dxcore_handle_ l =? 0 then 0 else 1).
Proof.
  unfold Loader_Shutdown. destruct (Z.eqb_spec (dxcore_handle_ l) 0); cbn [negb].
  { exists l, w. split_and!; try done. lia. }
  destruct (kcall_dl (sys_dlclose (dxcore_handle_ l)) w) as (r & k & w1 & H1 & Hw1 & Hd1). exists (set_handle 0 l), w1.
  rewrite (M_bind_step _ _ _ _ _ _ _ _ H1). split_and!; [done|subst w1; apply kept_log|done|]. cbn [as_dl] in Hd1. lia.
Qed.
End spec.
