(* ===== verification/Runtime.v ===== *)
(** * Runtime: the process-wide runtime object (src/openclose.cpp)

    Three address spaces with their managers (local heap, system heap, handle
    aperture), reserved at the same addresses on the CPU and on every adapter,
    and the open count of the library with its fork detection. *)

From Stdlib Require Import String Ascii.
From S2P Require Import Prelude.
From S2P Require Import CString.
From S2P Require Import StdMap.
From S2P Require Import BitField.
From S2P Require Import Utils.
From S2P Require Import VaMgr.
From S2P Require Import SimpleHeap.
From S2P Require Import Status.
From S2P Require Import World.
From S2P Require Import Loader.
#[local] Open Scope Z_scope.

(** ** Record updates *)

Definition rt_dxg_fd (x : Z) (r : hsakmtRuntime) : hsakmtRuntime :=
  mkRuntime x (parent_pid r) (is_forked r) (dxg_open_count r) (hsakmt_debug_level r)
    (hsakmt_is_dgpu r) (zfb_support r) (vendor_packet_process r) (check_avail_sysram r)
    (max_single_alloc_size r) (enable_thunk_sub_allocator r) (default_node r) (page_size r)
    (page_shift r) (is_svm_api_supported r) (local_heap r) (system_heap r) (handle_aperture
    r).
Definition rt_parent_pid (x : Z) (r : hsakmtRuntime) : hsakmtRuntime :=
  mkRuntime (dxg_fd r) x (is_forked r) (dxg_open_count r) (hsakmt_debug_level r)
    (hsakmt_is_dgpu r) (zfb_support r) (vendor_packet_process r) (check_avail_sysram r)
    (max_single_alloc_size r) (enable_thunk_sub_allocator r) (default_node r) (page_size r)
    (page_shift r) (is_svm_api_supported r) (local_heap r) (system_heap r) (handle_aperture
    r).
Definition rt_is_forked (x : bool) (r : hsakmtRuntime) : hsakmtRuntime :=
  mkRuntime (dxg_fd r) (parent_pid r) x (dxg_open_count r) (hsakmt_debug_level r)
    (hsakmt_is_dgpu r) (zfb_support r) (vendor_packet_process r) (check_avail_sysram r)
    (max_single_alloc_size r) (enable_thunk_sub_allocator r) (default_node r) (page_size r)
    (page_shift r) (is_svm_api_supported r) (local_heap r) (system_heap r) (handle_aperture
    r).
Definition rt_dxg_open_count (x : Z) (r : hsakmtRuntime) : hsakmtRuntime :=
  mkRuntime (dxg_fd r) (parent_pid r) (is_forked r) x (hsakmt_debug_level r) (hsakmt_is_dgpu
    r) (zfb_support r) (vendor_packet_process r) (check_avail_sysram r)
    (max_single_alloc_size r) (enable_thunk_sub_allocator r) (default_node r) (page_size r)
    (page_shift r) (is_svm_api_supported r) (local_heap r) (system_heap r) (handle_aperture
    r).
Definition rt_hsakmt_debug_level (x : Z) (r : hsakmtRuntime) : hsakmtRuntime :=
  mkRuntime (dxg_fd r) (parent_pid r) (is_forked r) (dxg_open_count r) x (hsakmt_is_dgpu r)
    (zfb_support r) (vendor_packet_process r) (check_avail_sysram r) (max_single_alloc_size
    r) (enable_thunk_sub_allocator r) (default_node r) (page_size r) (page_shift r)
    (is_svm_api_supported r) (local_heap r) (system_heap r) (handle_aperture r).
Definition rt_hsakmt_is_dgpu (x : bool) (r : hsakmtRuntime) : hsakmtRuntime :=
  mkRuntime (dxg_fd r) (parent_pid r) (is_forked r) (dxg_open_count r) (hsakmt_debug_level
    r) x (zfb_support r) (vendor_packet_process r) (check_avail_sysram r)
    (max_single_alloc_size r) (enable_thunk_sub_allocator r) (default_node r) (page_size r)
    (page_shift r) (is_svm_api_supported r) (local_heap r) (system_heap r) (handle_aperture
    r).
Definition rt_zfb_support (x : Z) (r : hsakmtRuntime) : hsakmtRuntime :=
  mkRuntime (dxg_fd r) (parent_pid r) (is_forked r) (dxg_open_count r) (hsakmt_debug_level
    r) (hsakmt_is_dgpu r) x (vendor_packet_process r) (check_avail_sysram r)
    (max_single_alloc_size r) (enable_thunk_sub_allocator r) (default_node r) (page_size r)
    (page_shift r) (is_svm_api_supported r) (local_heap r) (system_heap r) (handle_aperture
    r).
Definition rt_vendor_packet_process (x : Z) (r : hsakmtRuntime) : hsakmtRuntime :=
  mkRuntime (dxg_fd r) (parent_pid r) (is_forked r) (dxg_open_count r) (hsakmt_debug_level
    r) (hsakmt_is_dgpu r) (zfb_support r) x (check_avail_sysram r) (max_single_alloc_size r)
    (enable_thunk_sub_allocator r) (default_node r) (page_size r) (page_shift r)
    (is_svm_api_supported r) (local_heap r) (system_heap r) (handle_aperture r).
Definition rt_check_avail_sysram (x : bool) (r : hsakmtRuntime) : hsakmtRuntime :=
  mkRuntime (dxg_fd r) (parent_pid r) (is_forked r) (dxg_open_count r) (hsakmt_debug_level
    r) (hsakmt_is_dgpu r) (zfb_support r) (vendor_packet_process r) x (max_single_alloc_size
    r) (enable_thunk_sub_allocator r) (default_node r) (page_size r) (page_shift r)
    (is_svm_api_supported r) (local_heap r) (system_heap r) (handle_aperture r).
Definition rt_max_single_alloc_size (x : Z) (r : hsakmtRuntime) : hsakmtRuntime :=
  mkRuntime (dxg_fd r) (parent_pid r) (is_forked r) (dxg_open_count r) (hsakmt_debug_level
    r) (hsakmt_is_dgpu r) (zfb_support r) (vendor_packet_process r) (check_avail_sysram r) x
    (enable_thunk_sub_allocator r) (default_node r) (page_size r) (page_shift r)
    (is_svm_api_supported r) (local_heap r) (system_heap r) (handle_aperture r).
Definition rt_enable_thunk_sub_allocator (x : Z) (r : hsakmtRuntime) : hsakmtRuntime :=
  mkRuntime (dxg_fd r) (parent_pid r) (is_forked r) (dxg_open_count r) (hsakmt_debug_level
    r) (hsakmt_is_dgpu r) (zfb_support r) (vendor_packet_process r) (check_avail_sysram r)
    (max_single_alloc_size r) x (default_node r) (page_size r) (page_shift r)
    (is_svm_api_supported r) (local_heap r) (system_heap r) (handle_aperture r).
Definition rt_default_node (x : Z) (r : hsakmtRuntime) : hsakmtRuntime :=
  mkRuntime (dxg_fd r) (parent_pid r) (is_forked r) (dxg_open_count r) (hsakmt_debug_level
    r) (hsakmt_is_dgpu r) (zfb_support r) (vendor_packet_process r) (check_avail_sysram r)
    (max_single_alloc_size r) (enable_thunk_sub_allocator r) x (page_size r) (page_shift r)
    (is_svm_api_supported r) (local_heap r) (system_heap r) (handle_aperture r).
Definition rt_page_size (x : Z) (r : hsakmtRuntime) : hsakmtRuntime :=
  mkRuntime (dxg_fd r) (parent_pid r) (is_forked r) (dxg_open_count r) (hsakmt_debug_level
    r) (hsakmt_is_dgpu r) (zfb_support r) (vendor_packet_process r) (check_avail_sysram r)
    (max_single_alloc_size r) (enable_thunk_sub_allocator r) (default_node r) x (page_shift
    r) (is_svm_api_supported r) (local_heap r) (system_heap r) (handle_aperture r).
Definition rt_page_shift (x : Z) (r : hsakmtRuntime) : hsakmtRuntime :=
  mkRuntime (dxg_fd r) (parent_pid r) (is_forked r) (dxg_open_count r) (hsakmt_debug_level
    r) (hsakmt_is_dgpu r) (zfb_support r) (vendor_packet_process r) (check_avail_sysram r)
    (max_single_alloc_size r) (enable_thunk_sub_allocator r) (default_node r) (page_size r)
    x (is_svm_api_supported r) (local_heap r) (system_heap r) (handle_aperture r).
Definition rt_is_svm_api_supported (x : bool) (r : hsakmtRuntime) : hsakmtRuntime :=
  mkRuntime (dxg_fd r) (parent_pid r) (is_forked r) (dxg_open_count r) (hsakmt_debug_level
    r) (hsakmt_is_dgpu r) (zfb_support r) (vendor_packet_process r) (check_avail_sysram r)
    (max_single_alloc_size r) (enable_thunk_sub_allocator r) (default_node r) (page_size r)
    (page_shift r) x (local_heap r) (system_heap r) (handle_aperture r).
Definition rt_local_heap (x : HeapSpace) (r : hsakmtRuntime) : hsakmtRuntime :=
  mkRuntime (dxg_fd r) (parent_pid r) (is_forked r) (dxg_open_count r) (hsakmt_debug_level
    r) (hsakmt_is_dgpu r) (zfb_support r) (vendor_packet_process r) (check_avail_sysram r)
    (max_single_alloc_size r) (enable_thunk_sub_allocator r) (default_node r) (page_size r)
    (page_shift r) (is_svm_api_supported r) x (system_heap r) (handle_aperture r).
Definition rt_system_heap (x : HeapSpace) (r : hsakmtRuntime) : hsakmtRuntime :=
  mkRuntime (dxg_fd r) (parent_pid r) (is_forked r) (dxg_open_count r) (hsakmt_debug_level
    r) (hsakmt_is_dgpu r) (zfb_support r) (vendor_packet_process r) (check_avail_sysram r)
    (max_single_alloc_size r) (enable_thunk_sub_allocator r) (default_node r) (page_size r)
    (page_shift r) (is_svm_api_supported r) (local_heap r) x (handle_aperture r).
Definition rt_handle_aperture (x : HeapSpace) (r : hsakmtRuntime) : hsakmtRuntime :=
  mkRuntime (dxg_fd r) (parent_pid r) (is_forked r) (dxg_open_count r) (hsakmt_debug_level
    r) (hsakmt_is_dgpu r) (zfb_support r) (vendor_packet_process r) (check_avail_sysram r)
    (max_single_alloc_size r) (enable_thunk_sub_allocator r) (default_node r) (page_size r)
    (page_shift r) (is_svm_api_supported r) (local_heap r) (system_heap r) x.

(** [hsakmtRuntime()] *)
Definition hsakmtRuntime_new (pid : Z) : hsakmtRuntime :=
  let space := mkHeapSpace 0 0 None in
  mkRuntime (-1) pid false 0 3 false 0 0 false 0 0 1 0 0 false space space space.

(** ** The standard library's number parsing *)

Definition is_digit (c : ascii) : bool :=
  let n := Z.of_nat (nat_of_ascii c) in (48 <=? n) && (n <=? 57).

Fixpoint digits (acc : Z) (s : string) : Z :=
  match s with
  | String c s' => if is_digit c then digits (10 * acc + (Z.of_nat (nat_of_ascii c) - 48)) s' else acc
  | EmptyString => acc
  end.

(** [atoi], and [stoi] on a string that starts with a digit. *)
Definition atoi (s : string) : Z :=
  match skip_space s with
  | String "-" s' => - digits 0 s'
  | String "+" s' => digits 0 s'
  | s' => digits 0 s'
  end.

(** [devices.substr(devices.find_first_of("0123456789"))] *)
Fixpoint from_first_digit (s : string) : option string :=
  match s with
  | String c s' => if is_digit c then Some s else from_first_digit s'
  | EmptyString => None
  end.

Section runtime.
Context {K : Type} `{Kernel K}.

Definition get_rt : M K hsakmtRuntime := mget w_rt.
Definition mod_rt (f : hsakmtRuntime -> hsakmtRuntime) : M K unit := mset (fun w => set_rt (f (w_rt w)) w).

(** ** The device table (topology.cpp) *)

Definition get_num_wddmdev : M K Z := mget (fun w => Z.of_nat (length (w_devs w))).

(** [nullptr], or [wdevices_\[node_id - 1\]]. *)
Definition get_wddmdev (node_id : Z) : M K (option nat) := fun w =>
  if Nat.eqb (length (w_devs w)) 0 || (node_id =? 0) || (w_nodes w <=? node_id) then Some (None, w)
  else
    let i := Z.to_nat (node_id - 1) in
    match w_devs w !! i with Some _ => Some (Some i, w) | None => None end.

(** [get_wddmdev(j+1)->...]: the pointer is dereferenced without a check. *)
Definition wddmdev (node_id : Z) : M K WDDMDevice :=
  o ← get_wddmdev node_id; i ← mderef o; get_dev i.

(** ** Reserving an address range on the CPU and on every adapter *)

(** The loop over the adapters in one attempt. [base] is the base found so far. *)
Fixpoint reserve_on_adapters (js : list Z) (ptr size sys_va_size base local_va cnt : Z)
    : M K (Z * Z * Z) :=
  match js with
  | [] => mret (base, local_va, cnt)
  | j :: js =>
      d ← wddmdev (j + 1);
      let start := if base =? 0 then ptr else base in
      let stop := start +64 (if base =? 0 then sys_va_size else size) +64 1 in
      r ← dx (D3DKMTReserveGpuVirtualAddress (mkReserveVaArgs (adapter_ d) size 0 start stop));
      if ErrorCode_ok r.1 then reserve_on_adapters js ptr size sys_va_size r.2 r.2 (cnt + 1)
      else reserve_on_adapters js ptr size sys_va_size base local_va cnt
  end.

(** The 16 attempts: the CPU ranges mapped so far, and the last [local_va] when
    an attempt matched on every adapter. *)
Fixpoint svm_attempts (fuel : nat) (size sys_va_size base : Z) (sys_va : list Z)
    : M K (option Z * Z * list Z) :=
  match fuel with
  | O => mret (None, base, sys_va)
  | S fuel =>
      ptr ← kcall_ (sys_mmap 0 sys_va_size [PROT_NONE] [MAP_PRIVATE; MAP_ANONYMOUS] (-1));
      match ptr with
      | None => mret (None, base, sys_va)
      | Some ptr =>
          n ← get_num_wddmdev;
          '(base, local_va, cnt) ←
            reserve_on_adapters (seqZ 0 n) ptr size sys_va_size base 0 0;
          let sys_va := sys_va ++ [ptr] in
          if cnt =? n then mret (Some local_va, base, sys_va)
          else svm_attempts fuel size sys_va_size base sys_va
      end
  end.

Fixpoint munmap_all (l : list Z) (size : Z) : M K unit :=
  match l with
  | [] => mret tt
  | a :: l =>
      (if a =? 0 then mret tt else kcall_ (sys_munmap a size) ≫= (fun _ => mret tt)) ;;
      munmap_all l size
  end.

(** The result, and the two in-out arguments [base] and [size]. *)
Definition ReserveSvmSpace (size align : Z) : M K (bool * Z * Z) :=
  let sys_va_size := size +64 align in
  '(matched, base, sys_va) ← svm_attempts 16 size sys_va_size 0 [];
  match matched with
  | Some local_va =>
      cpu ← mderef (last sys_va);
      let left_size := local_va -64 cpu in
      let right_size := align -64 left_size in
      (if 0 <? left_size then kcall_ (sys_munmap cpu left_size) ≫= (fun _ => mret tt) else mret tt) ;;
      (if 0 <? right_size then kcall_ (sys_munmap (local_va +64 size) right_size) ≫= (fun _ => mret tt)
       else mret tt) ;;
      munmap_all (removelast sys_va) sys_va_size ;;
      mret (true, base, size)
  | None =>
      munmap_all sys_va sys_va_size ;;
      mret (false, 0, 0)
  end.

(** [return -1] of a [bool] function is [true]. *)
Fixpoint FreeSvm_adapters (js : list Z) (base size : Z) : M K bool :=
  match js with
  | [] => mret true
  | j :: js =>
      o ← get_wddmdev (j + 1);
      match o with
      | None => mret false
      | Some i =>
          d ← get_dev i;
          dx_ (D3DKMTFreeGpuVirtualAddress (adapter_ d) base size) ;;
          FreeSvm_adapters js base size
      end
  end.

Definition FreeSvmSpace (get : hsakmtRuntime -> HeapSpace)
    (put : HeapSpace -> hsakmtRuntime -> hsakmtRuntime) : M K bool :=
  rt ← get_rt;
  let s := get rt in
  n ← get_num_wddmdev;
  go ← FreeSvm_adapters (seqZ 0 n) (space_start s) (space_size s);
  if (go : bool) then
    r ← kcall_ (sys_munmap (space_start s) (space_size s));
    mod_rt (put (mkHeapSpace 0 0 (space_mgr s))) ;;
    mret (r =? 0)
  else mret true.

(** The largest local size among the adapters, [None] on a missing adapter. *)
Fixpoint total_local_size (js : list Z) (total : Z) : M K (option Z) :=
  match js with
  | [] => mret (Some total)
  | j :: js =>
      o ← get_wddmdev (j + 1);
      match o with
      | None => mret None
      | Some i =>
          d ← get_dev i;
          let s := shared_dev_ d in
          let local := sd_LocalVisibleHeapSize s +64 sd_LocalInvisibleHeapSize s in
          let mine := if sd_IsDgpu s then local else local +64 sd_NonLocalHeapSize s in
          total_local_size js (Z.max mine total)
      end
  end.

Definition ReserveLocalHeapSpace : M K bool :=
  let align := 0x40000000 in
  n ← get_num_wddmdev;
  total ← total_local_size (seqZ 0 n) 0;
  match total with
  | None => mret true
  | Some total =>
      let size := AlignUp64 total align *64 4 in
      '(ok, base, size) ← ReserveSvmSpace size align;
      rt ← get_rt;
      mod_rt (rt_local_heap (mkHeapSpace base size (space_mgr (local_heap rt)))) ;;
      mret ok
  end.

Definition ReserveSystemHeapSpace : M K bool :=
  info ← kcall_ sys_sysinfo;
  massert (info.1 =? 0) ;;
  let alignment := 0x100000000 in
  let size := Z.min (AlignUp64 info.2.1 alignment *64 2) 0x10000000000 in
  '(ok, base, size) ← ReserveSvmSpace size alignment;
  rt ← get_rt;
  mod_rt (rt_system_heap (mkHeapSpace base size (space_mgr (system_heap rt)))) ;;
  mret ok.

Definition init_mgr (s : HeapSpace) : HeapSpace :=
  mkHeapSpace (space_start s) (space_size s)
    (Some (VaMgr_new (space_start s) (space_size s) DEFAULT_GPU_PAGE_SIZE)).

Definition InitLocalHeapMgr : M K unit := mod_rt (fun r => rt_local_heap (init_mgr (local_heap r)) r).
Definition InitSystemHeapMgr : M K unit := mod_rt (fun r => rt_system_heap (init_mgr (system_heap r)) r).
Definition InitHandleApertureMgr : M K unit :=
  mod_rt (fun r => rt_handle_aperture (init_mgr (handle_aperture r)) r).

Definition FreeLocalHeapSpace : M K bool := FreeSvmSpace local_heap rt_local_heap.
Definition FreeSystemHeapSpace : M K bool := FreeSvmSpace system_heap rt_system_heap.

(** ** The address managers *)

(** [mgr->Alloc(...)] and [mgr->Free(...)] through the [unique_ptr] of a space. *)
Definition heap_Alloc (get : hsakmtRuntime -> HeapSpace)
    (put : HeapSpace -> hsakmtRuntime -> hsakmtRuntime) (bytes align addr : Z) : M K Z :=
  rt ← get_rt;
  mgr ← mderef (space_mgr (get rt));
  '(a, mgr') ← mderef (VaMgr_Alloc bytes align addr mgr);
  mod_rt (put (mkHeapSpace (space_start (get rt)) (space_size (get rt)) (Some mgr'))) ;;
  mret a.

Definition heap_Free (get : hsakmtRuntime -> HeapSpace)
    (put : HeapSpace -> hsakmtRuntime -> hsakmtRuntime) (addr : Z) : M K unit :=
  rt ← get_rt;
  mgr ← mderef (space_mgr (get rt));
  mod_rt (put (mkHeapSpace (space_start (get rt)) (space_size (get rt)) (Some (VaMgr_Free addr mgr)))).

Definition CommitSystemHeapSpace (addr size : Z) (lock : bool) : M K bool :=
  paddr ← kcall_ (sys_mmap addr size [PROT_READ; PROT_WRITE; PROT_EXEC]
                    ([MAP_PRIVATE; MAP_ANONYMOUS; MAP_FIXED; MAP_NORESERVE; MAP_UNINITIALIZED] ++
                     (if lock then [MAP_LOCKED] else [])) (-1));
  match paddr with
  | None => mret false
  | Some paddr =>
      massert (addr =? paddr) ;;
      kcall_ (sys_madvise_dontfork addr size) ;;
      mret true
  end.

Definition DecommitSystemHeapSpace (addr size : Z) : M K bool :=
  paddr ← kcall_ (sys_mmap addr size [PROT_NONE]
                    [MAP_PRIVATE; MAP_ANONYMOUS; MAP_FIXED; MAP_NORESERVE; MAP_UNINITIALIZED] (-1));
  match paddr with
  | None => mret false
  | Some paddr => massert (addr =? paddr) ;; mret true
  end.

(** The alignment [ReserveGpuVirtualAddress] asks of the manager. *)
Definition reserve_align (size alignment : Z) : Z :=
  if GPU_HUGE_PAGE_SIZE <=? size then GPU_HUGE_PAGE_SIZE
  else if alignment =? 0 then 64 * 1024 else alignment.

(** The code and [*out_gpu_virt_addr]. *)
Definition Runtime_ReserveGpuVirtualAddress (domain : AllocDomain) (hit_base_addr size alignment : Z)
    (lock : bool) : M K (ErrorCode * Z) :=
  let align := reserve_align size alignment in
  '(code, gpu_addr) ←
    (if decide (domain = kSystem) then
       gpu_addr ← heap_Alloc system_heap rt_system_heap size align hit_base_addr;
       let code := if gpu_addr =? 0 then OutOfMemory else Success in
       ok ← CommitSystemHeapSpace gpu_addr size lock;
       if (ok : bool) then mret (code, gpu_addr)
       else heap_Free system_heap rt_system_heap gpu_addr ;; mret (SyscallFail, gpu_addr)
     else
       gpu_addr ← heap_Alloc local_heap rt_local_heap size align hit_base_addr;
       mret (if gpu_addr =? 0 then OutOfGpuMemory else Success, gpu_addr));
  mret (code, if ErrorCode_ok code then gpu_addr else 0).

Definition Runtime_FreeGpuVirtualAddress (domain : AllocDomain) (gpu_addr size : Z) : M K ErrorCode :=
  (if decide (domain = kSystem) then
     DecommitSystemHeapSpace gpu_addr size ;;
     heap_Free system_heap rt_system_heap gpu_addr
   else heap_Free local_heap rt_local_heap gpu_addr) ;;
  mret Success.

(** ** IPC system memory *)

(** The result and the in-out argument [memfd]. *)
Definition CommitSystemHeapSpaceIPC (addr size memfd : Z) (lock : bool) : M K (bool * Z) :=
  fd ← (if memfd =? -1 then
          fd ← kcall_ (sys_memfd_create "rocr4wsl_gtt");
          (if fd <? 0 then mret tt else kcall_ (sys_ftruncate fd size) ≫= (fun _ => mret tt)) ;;
          mret fd
        else mret memfd);
  if (memfd =? -1) && (fd <? 0) then mret (false, memfd)
  else
    paddr ← kcall_ (sys_mmap addr size [PROT_READ; PROT_WRITE]
                      ([MAP_SHARED; MAP_FIXED; MAP_NORESERVE; MAP_UNINITIALIZED] ++
                       (if lock then [MAP_LOCKED] else [])) fd);
    match paddr with
    | None =>
        (if memfd =? -1 then kcall_ (sys_close fd) ≫= (fun _ => mret tt) else mret tt) ;;
        mret (false, memfd)
    | Some paddr =>
        massert (addr =? paddr) ;;
        kcall_ (sys_madvise_dontfork addr size) ;;
        mret (true, fd)
    end.

Definition DecommitSystemHeapSpaceIPC (addr size memfd : Z) : M K (bool * Z) :=
  r ← kcall_ (sys_munmap addr size);
  if negb (r =? 0) then mret (false, memfd)
  else kcall_ (sys_close memfd) ;; mret (true, -1).

(** The code, [*out_gpu_virt_addr] (unchanged when no address is found) and [memfd]. *)
Definition ReserveIPCSysMem (size out alignment memfd : Z) (lock : bool) : M K (ErrorCode * Z * Z) :=
  gpu_addr ← heap_Alloc system_heap rt_system_heap size alignment 0;
  if gpu_addr =? 0 then mret (OutOfMemory, out, memfd)
  else
    '(ok, memfd) ← CommitSystemHeapSpaceIPC gpu_addr size memfd lock;
    if (ok : bool) then mret (Success, gpu_addr, memfd)
    else heap_Free system_heap rt_system_heap gpu_addr ;; mret (SyscallFail, 0, memfd).

Definition FreeIPCSysMem (gpu_addr size memfd : Z) : M K (ErrorCode * Z) :=
  '(_, memfd) ← DecommitSystemHeapSpaceIPC gpu_addr size memfd;
  heap_Free system_heap rt_system_heap gpu_addr ;;
  mret (Success, memfd).

(** ** The handle aperture *)

Definition START_NON_CANONICAL_ADDR : Z := Z.shiftl 1 47.
Definition END_NON_CANONICAL_ADDR : Z := UINT64_MAX -64 Z.shiftl 1 47.

Definition IS_OVERLAPPING (start1 size1 start2 size2 : Z) : bool :=
  (start1 <? start2 +64 size2) && (start2 <? start1 +64 size1).

(** Does an aperture of the device overlap [start, start + size)? *)
Definition device_overlaps (d : WDDMDevice) (start size : Z) : bool :=
  let s := shared_dev_ d in
  (negb (sd_PrivateApertureBase s =? 0) &&
     IS_OVERLAPPING (sd_PrivateApertureBase s) (sd_PrivateApertureSize s) start size) ||
  (negb (sd_SharedApertureBase s =? 0) &&
     IS_OVERLAPPING (sd_SharedApertureBase s) (sd_SharedApertureSize s) start size).

(** The [for] loop over the adapters, [j] its variable: the start it ends with, and [false]
    for the [return -1] on a missing adapter. *)
Fixpoint aperture_loop (fuel : nat) (j n start size : Z) : M K (bool * Z) :=
  match fuel with
  | O => abort
  | S fuel =>
      if j <? n then
        o ← get_wddmdev (j + 1);
        match o with
        | None => mret (false, start)
        | Some i =>
            d ← get_dev i;
            if device_overlaps d start size
            then aperture_loop fuel j n (start +64 Z.shiftl 1 47) size
            else aperture_loop fuel (j + 1) n start size
        end
      else mret (true, start)
  end.

(** Iterations that are always enough: the start wraps around after [2^17] steps. *)
Definition aperture_fuel (n : Z) : nat := Z.to_nat (2 ^ 17 + n + 1).

Definition InitHandleApertureSpace : M K bool :=
  n ← get_num_wddmdev;
  rt ← get_rt;
  let size := Z.shiftl 1 47 in
  let start := START_NON_CANONICAL_ADDR in
  mod_rt (rt_handle_aperture (mkHeapSpace start size (space_mgr (handle_aperture rt)))) ;;
  if start <? END_NON_CANONICAL_ADDR -64 1 then
    '(_, start) ← aperture_loop (aperture_fuel n) 0 n start size;
    mod_rt (rt_handle_aperture (mkHeapSpace start size (space_mgr (handle_aperture rt)))) ;;
    (* a [return -1] of a [bool] function is [true] *)
    mret true
  else
    mod_rt (rt_handle_aperture (mkHeapSpace 0 size (space_mgr (handle_aperture rt)))) ;;
    mret false.

Definition HandleApertureAlloc (size : Z) : M K (ErrorCode * Z) :=
  let align := if GPU_HUGE_PAGE_SIZE <=? size then GPU_HUGE_PAGE_SIZE else DEFAULT_GPU_PAGE_SIZE in
  a ← heap_Alloc handle_aperture rt_handle_aperture size align 0;
  mret (if a =? 0 then OutOfHandleApeMemory else Success, a).

Definition HandleApertureFree (gpu_addr : Z) : M K unit :=
  heap_Free handle_aperture rt_handle_aperture gpu_addr.

(** ** All of them *)

Definition HeapInit : M K unit :=
  ReserveLocalHeapSpace ;;
  ReserveSystemHeapSpace ;;
  InitHandleApertureSpace ;;
  InitLocalHeapMgr ;;
  InitSystemHeapMgr ;;
  InitHandleApertureMgr.

Definition HeapFini : M K unit :=
  FreeSystemHeapSpace ;; FreeLocalHeapSpace ;; mret tt.

(** ** Opening, closing and forking *)

(** The macro [CHECK_DXG_OPEN]: run [m] only when the library is open here. *)
Definition CHECK_DXG_OPEN {R} (err : HSAKMT_STATUS -> R) (m : M K R) : M K R :=
  rt ← get_rt;
  if (dxg_open_count rt =? 0) || is_forked rt
  then mret (err HSAKMT_STATUS_KERNEL_IO_CHANNEL_NOT_OPENED)
  else m.

Definition is_forked_child : M K bool :=
  rt ← get_rt;
  if is_forked rt then mret true
  else
    cur_pid ← kcall_ sys_getpid;
    if parent_pid rt =? cur_pid then mret false
    else mod_rt (fun r => rt_parent_pid cur_pid (rt_is_forked true r)) ;; mret true.

(** The [pthread_atfork] handler of the child. *)
Definition child_fork_handler : M K unit := mod_rt (rt_is_forked true).

Definition reset_suballocator : M K unit := mset (fun w => set_fa (SimpleHeap_reset (w_fa w)) w).
Definition clear_allocation_map : M K unit := mset (set_amap []).

Definition clear_after_fork : M K unit :=
  reset_suballocator ;;
  clear_allocation_map ;;
  rt ← get_rt;
  (if 0 <=? dxg_fd rt then kcall_ (sys_close (dxg_fd rt)) ;; mod_rt (rt_dxg_fd (-1)) else mret tt) ;;
  pid ← kcall_ sys_getpid;
  mod_rt (fun _ => hsakmtRuntime_new pid).

Definition init_page_size : M K unit :=
  n ← kcall_ sys_page_size;
  mod_rt (fun r => rt_page_shift (if n =? 0 then -1 else Z.log2 (Z.land n (- n))) (rt_page_size n r)).

(** [if ((envvar = getenv(name))) f(envvar)] *)
Definition on_env (name : string) (f : string -> hsakmtRuntime -> option hsakmtRuntime) : M K unit :=
  v ← kcall_ (sys_getenv name);
  match v with
  | None => mret tt
  | Some s => rt ← get_rt; rt' ← mderef (f s rt); mod_rt (fun _ => rt')
  end.

Definition init_vars_from_env : M K HSAKMT_STATUS :=
  on_env "HSAKMT_DEBUG_LEVEL" (fun s r => Some (rt_hsakmt_debug_level (atoi s) r)) ;;
  on_env "HSA_ZFB" (fun s r => Some (rt_zfb_support (atoi s) r)) ;;
  on_env "WSLKMT_VENDOR_PACKET" (fun s r => Some (rt_vendor_packet_process (atoi s) r)) ;;
  on_env "WSL_CHECK_AVAIL_SYSRAM" (fun s r => Some (rt_check_avail_sysram (String.eqb s "1") r)) ;;
  on_env "WSL_ENABLE_THUNK_SUB_ALLOCATOR" (fun s r => Some (rt_enable_thunk_sub_allocator (atoi s) r)) ;;
  on_env "ROCR_VISIBLE_DEVICES" (fun s r =>
    match from_first_digit s with
    | None => Some r
    | Some t =>
        (* [std::stoi] throws above [INT_MAX] *)
        check (atoi t <? 2 ^ 31) ;; Some (rt_default_node (u32 (atoi t + 1)) r)
    end) ;;
  mret HSAKMT_STATUS_SUCCESS.

(** hsa.cpp: [libhsa-runtime64.so] can be loaded. *)
Definition hsakmt_hsa_loader_init : M K bool :=
  h ← kcall_ (sys_dlopen "libhsa-runtime64.so");
  if h =? 0 then mret false else kcall_ (sys_dlclose h) ;; mret true.

(** [DxcoreLoader::Instance().Initialize()] and [Shutdown()] *)
Definition DxcoreLoader_Initialize : M K bool :=
  l ← mget w_loader; '(ok, l) ← Loader_Initialize l; mset (set_loader l) ;; mret ok.
Definition DxcoreLoader_Shutdown : M K unit :=
  l ← mget w_loader; l ← Loader_Shutdown l; mset (set_loader l).

(** The part of [hsaKmtOpenKFD] after the fork check. *)
Definition open_counted : M K HSAKMT_STATUS :=
  rt ← get_rt;
  if dxg_open_count rt =? 0 then
    result ← init_vars_from_env;
    fd ← (if dxg_fd rt <? 0 then
            fd ← kcall_ (sys_open "/dev/dxg");
            (if fd =? -1 then mret tt else mod_rt (rt_dxg_fd fd)) ;;
            mret (Some fd)
          else mret None);
    if bool_decide (fd = Some (-1)) then mret HSAKMT_STATUS_KERNEL_IO_CHANNEL_NOT_OPENED
    else
      ok ← DxcoreLoader_Initialize;
      if negb ok then
        kcall_ (sys_close (default (-1) fd)) ;; mret HSAKMT_STATUS_ERROR
      else
        hsakmt_hsa_loader_init ;;
        init_page_size ;;
        kcall_ (sys_getenv "HSA_USE_SVM") ;;
        mod_rt (fun r => rt_dxg_open_count 1 (rt_is_svm_api_supported false r)) ;;
        mset (set_atfork true) ;;
        reset_suballocator ;;
        mret result
  else
    mod_rt (fun r => rt_dxg_open_count (dxg_open_count r +64 1) r) ;;
    reset_suballocator ;;
    mret HSAKMT_STATUS_KERNEL_ALREADY_OPENED.

Definition hsaKmtOpenKFD : M K HSAKMT_STATUS :=
  forked ← is_forked_child;
  (if (forked : bool) then clear_after_fork else mret tt) ;;
  open_counted.

Definition hsaKmtCloseKFD : M K HSAKMT_STATUS :=
  rt ← get_rt;
  if 0 <? dxg_open_count rt then
    let n := dxg_open_count rt - 1 in
    mod_rt (rt_dxg_open_count n) ;;
    (if n =? 0 then
       kcall_ (sys_close (dxg_fd rt)) ;;
       mod_rt (rt_dxg_fd (-1)) ;;
       DxcoreLoader_Shutdown
     else mret tt) ;;
    mret HSAKMT_STATUS_SUCCESS
  else mret HSAKMT_STATUS_KERNEL_IO_CHANNEL_NOT_OPENED.
End runtime.

(** ** Lemmas *)

Lemma reserve_align_bound size align : 0 <= align < 2 ^ 62 -> 0 <= reserve_align size align < 2 ^ 62.
Proof.
  assert (GPU_HUGE_PAGE_SIZE = 2097152) as E by reflexivity.
  intros. unfold reserve_align. rewrite E. repeat case_zbool; lia.
Qed.
