(* ===== verification/Device.v ===== *)
(** * Device: one adapter (src/wddm/device.cpp)

    The member functions of [WDDMDevice] that talk to the driver about the
    paging queue, the monitored fences, segments, contexts and hardware queues.
    A device is named by its index in the table of topology.cpp. *)

From S2P Require Import Prelude.
From S2P Require Import StdMap.
From S2P Require Import BitField.
From S2P Require Import Utils.
From S2P Require Import Status.
From S2P Require Import World.
#[local] Open Scope Z_scope.

(** 2 GB *)
Definition GpuMemoryChunkSize : Z := 2 * Z.shiftl 1 30.

Definition HSA_STATUS_ERROR : Z := 0x1000.
Definition SEGMENT_TYPE_MEMORY : Z := 1.
Definition SEGMENT_TYPE_SYSMEM : Z := 2.

Definition LocalHeapSize (d : WDDMDevice) : Z :=
  sd_LocalVisibleHeapSize (shared_dev_ d) +64 sd_LocalInvisibleHeapSize (shared_dev_ d).
Definition DeviceHandle (d : WDDMDevice) : Z := sd_DeviceHandle (shared_dev_ d).
Definition GetLuid (d : WDDMDevice) : LUID := sd_AdapterLuid (shared_dev_ d).

Fixpoint find_segment (l : list SegmentInfo) (ty : Z) : option Z :=
  match l with
  | [] => None
  | s :: l => if segment_type s =? ty then Some (segment_id s) else find_segment l ty
  end.
Definition GetSegmentId (d : WDDMDevice) (ty : Z) : option Z := find_segment (segment_infos_ d) ty.

(** The value [UpdatePageFence] leaves: the atomic maximum. *)
Definition fence_max (current value : Z) : Z := if value <=? current then current else value.

Section device.
Context {K : Type} `{Kernel K}.

Definition UpdatePageFence (i : nat) (fence_value : Z) : M K unit :=
  d ← get_dev i; set_dev i (set_page_fence_value (fence_max (page_fence_value_ d) fence_value) d).

Definition CpuWait (i : nat) (objs values : list Z) (wait_any : bool) : M K bool :=
  d ← get_dev i;
  r ← dx_ (D3DKMTWaitForSynchronizationObjectFromCpu (DeviceHandle d) objs values wait_any);
  mret (ErrorCode_ok r).

Definition WaitOnPagingFenceFromCpu (i : nat) : M K bool :=
  d ← get_dev i; CpuWait i [page_syncobj_ d] [page_fence_value_ d] false.

Definition GpuWait (i : nat) (context : Z) (objs values : list Z) : M K bool :=
  r ← dx_ (D3DKMTWaitForSynchronizationObjectFromGpu context objs values);
  mret (ErrorCode_ok r).

Definition GpuSignal (context : Z) (objs values : list Z) : M K bool :=
  r ← dx_ (D3DKMTSignalSynchronizationObjectFromGpu context objs values);
  mret (ErrorCode_ok r).

(** Wait on the GPU for the pending page-table updates, unless they are done. *)
Definition WaitPagingFence (i : nat) (context : Z) : M K bool :=
  d ← get_dev i;
  let value := page_fence_value_ d in
  cur ← kcall_ (load_u64 (page_fence_addr_ d));
  if cur <? value then GpuWait i context [page_syncobj_ d] [value] else mret true.

(** [segment_infos_] is cleared, then filled until a query fails. *)
Fixpoint query_segments (ids : list Z) (luid : LUID) (acc : list SegmentInfo)
    : M K (bool * list SegmentInfo) :=
  match ids with
  | [] => mret (true, acc)
  | k :: ids =>
      r ← dx (D3DKMTQueryStatistics_Segment luid k);
      if ErrorCode_ok r.1 then
        let s := r.2 in
        query_segments ids luid
          (acc ++ [mkSegmentInfo k (ss_SegmentType s) (ss_Aperture s) (ss_SystemMemory s) (ss_CommitLimit s)])
      else mret (false, acc)
  end.

Definition QuerySegmentInfo (i : nat) : M K bool :=
  d ← get_dev i;
  set_dev i (set_segment_infos [] d) ;;
  r ← dx (D3DKMTQueryStatistics_Adapter (GetLuid d));
  if ErrorCode_ok r.1 then
    '(ok, l) ← query_segments (seqZ 0 r.2) (GetLuid d) [];
    d ← get_dev i;
    set_dev i (set_segment_infos l d) ;;
    mret ok
  else mret false.

(** Bytes resident in a segment, [0] when the query fails. *)
Definition segment_used (luid : LUID) (segment : Z) : M K Z :=
  r ← dx (D3DKMTQueryStatistics_Segment luid segment);
  mret (if ErrorCode_ok r.1 then ss_BytesResident r.2 else 0).

Definition VramAvail (i : nat) : M K Z :=
  d ← get_dev i;
  ok ← CpuWait i [page_syncobj_ d] [page_fence_value_ d] false;
  if negb ok then mret HSA_STATUS_ERROR
  else
    match GetSegmentId d SEGMENT_TYPE_MEMORY with
    | None => mret HSA_STATUS_ERROR
    | Some seg =>
        usedVis ← segment_used (GetLuid d) seg;
        usedInv ← (if negb (sd_LocalInvisibleHeapSize (shared_dev_ d) =? 0)
                   then segment_used (GetLuid d) (u32 (seg + 1)) else mret 0);
        if sd_IsDgpu (shared_dev_ d) then mret (LocalHeapSize d -64 usedVis -64 usedInv)
        else
          match GetSegmentId d SEGMENT_TYPE_SYSMEM with
          | None => mret HSA_STATUS_ERROR
          | Some seg =>
              usedNonLocal ← segment_used (GetLuid d) seg;
              mret (LocalHeapSize d +64 sd_NonLocalHeapSize (shared_dev_ d)
                      -64 usedVis -64 usedInv -64 usedNonLocal)
          end
    end.

Definition CreatePagingQueue (i : nat) : M K bool :=
  d ← get_dev i;
  r ← dx (D3DKMTCreatePagingQueue (DeviceHandle d));
  if ErrorCode_ok r.1 then
    let '(queue, sync, addr) := r.2 in
    set_dev i (set_page_queue queue sync addr 0 d) ;; mret true
  else mret false.

Definition DestroyPagingQueue (i : nat) : M K bool :=
  d ← get_dev i; r ← dx_ (D3DKMTDestroyPagingQueue (page_queue_ d)); mret (ErrorCode_ok r).

Definition SetPowerOptimization (i : nat) (restore : bool) : M K unit :=
  d ← get_dev i; dx_ (D3DKMTEscape_PowerOpt (adapter_ d) (DeviceHandle d) restore) ;; mret tt.

(** [None] is [NULL]. *)
Definition Device_Lock (i : nat) (handle : Z) : M K (option Z) :=
  d ← get_dev i; r ← dx (D3DKMTLock2 (DeviceHandle d) handle);
  mret (if ErrorCode_ok r.1 then Some r.2 else None).

Definition Device_Unlock (i : nat) (handle : Z) : M K bool :=
  d ← get_dev i; r ← dx_ (D3DKMTUnlock2 (DeviceHandle d) handle); mret (ErrorCode_ok r).

(** The context handle when one is created. *)
Definition CreateContext (i : nat) (engine : Z) : M K (option Z) :=
  d ← get_dev i;
  let s := shared_dev_ d in
  let ordinal := sd_EngineOrdinal s engine in
  if ordinal <? 0 then mret None
  else
    let hws := sd_IsHwsEnabled s engine in
    r ← dx (D3DKMTCreateContextVirtual (DeviceHandle d) ordinal hws
              (if hws then false else sd_IsGpuTimeoutDisabled s engine)
              (sd_SupportStateShadowingByCpFw s));
    mret (if ErrorCode_ok r.1 then Some r.2 else None).

Definition DestroyContext (handle : Z) : M K bool :=
  r ← dx_ (D3DKMTDestroyContext handle); mret (ErrorCode_ok r).

Definition CreateSyncobj (i : nat) : M K (option (Z * Z)) :=
  d ← get_dev i; r ← dx (D3DKMTCreateSynchronizationObject2 (DeviceHandle d));
  mret (if ErrorCode_ok r.1 then Some r.2 else None).

Definition DestroySyncobj (handle : Z) : M K unit :=
  dx_ (D3DKMTDestroySynchronizationObject handle) ;; mret tt.

(** [*gpu] and [*cpu], unchanged when the query fails. *)
Definition GetClockCounters (i : nat) (gpu cpu : Z) : M K (Z * Z) :=
  d ← get_dev i;
  let s := shared_dev_ d in
  r ← dx (D3DKMTQueryClockCalibration (adapter_ d) (sd_EngineOrdinal s (sd_ComputeEngine s)));
  mret (if ErrorCode_ok r.1 then r.2 else (gpu, cpu)).

Definition SubmitToSwQueue (context queue syncobj command_addr command_size fence_value : Z) : M K bool :=
  r ← dx_ (D3DKMTSubmitCommand context queue command_addr command_size);
  if ErrorCode_ok r then GpuSignal context [syncobj] [fence_value] else mret false.

(** [queue], [syncobj] and [sync_addr] of the new queue. *)
Definition CreateHwQueue (i : nat) (context engine level : Z) : M K (option (Z * Z * Z)) :=
  d ← get_dev i;
  let s := shared_dev_ d in
  r ← dx (D3DKMTCreateHwQueue context (sd_IsGpuTimeoutDisabled s engine)
            (sd_SupportStateShadowingByCpFw s) level);
  mret (if ErrorCode_ok r.1 then Some r.2 else None).

Definition DestroyHwQueue (queue : Z) : M K bool :=
  r ← dx_ (D3DKMTDestroyHwQueue queue); mret (ErrorCode_ok r).

Definition SubmitToHwQueue (queue command_addr command_size fence_value : Z) : M K bool :=
  r ← dx_ (D3DKMTSubmitCommandToHwQueue queue fence_value command_addr command_size);
  mret (ErrorCode_ok r).
End device.
