(* ===== verification/GpuMemory.v ===== *)
(** * GpuMemory: one GPU allocation (src/wddm/gpu_memory.cpp)

    Reserving its address range, creating its physical chunks of at most
    2 GB, mapping and unmapping them, residency, export and import, and the
    destructor. A member function takes the pointer of its object; the objects
    live in [w_mems], so running one on a deleted object aborts. *)

From S2P Require Import Prelude.
From S2P Require Import StdMap.
From S2P Require Import BitField.
From S2P Require Import Utils.
From S2P Require Import VaMgr.
From S2P Require Import Status.
From S2P Require Import World.
From S2P Require Import Runtime.
From S2P Require Import Device.
#[local] Open Scope Z_scope.

(** ** Flags *)

(** Positions in [GpuMemoryCreateFlags]. *)
Definition CF_virtual_alloc : Z := 0.
Definition CF_physical_only : Z := 1.
Definition CF_interprocess : Z := 2.
Definition CF_locked : Z := 3.
Definition CF_physical_contiguous : Z := 4.
Definition CF_sysmem_ipc_sig_importer : Z := 5.
Definition CF_sysmem_ipc_sig_exporter : Z := 6.
Definition CF_alloc_va : Z := 7.
Definition CF_blit_kernel_object : Z := 8.

(** Positions in [GpuMemoryDescFlags]. *)
Definition DF_is_virtual : Z := 0.
Definition DF_is_shared : Z := 1.
Definition DF_is_external : Z := 2.
Definition DF_is_physical_only : Z := 3.
Definition DF_is_locked : Z := 4.
Definition DF_is_queue_referenced : Z := 5.
Definition DF_is_physical_contiguous : Z := 6.
Definition DF_is_imported_sys_memfd : Z := 7.
Definition DF_is_sysmem_exporter : Z := 8.
Definition DF_is_va_required : Z := 9.
Definition DF_is_imported_vram_vmem : Z := 10.
Definition DF_is_imported_vram_ipc : Z := 11.
Definition DF_is_imported_from_same_process : Z := 12.  (* 3 bits *)
Definition DF_is_blit_kernel_object : Z := 15.

Record GpuMemoryCreateInfo := mkCreateInfo {
  ci_flags : Z;
  ci_domain : AllocDomain;
  ci_size : Z;
  ci_alignment : Z;
  ci_mem_flags : Z;
  ci_engine_flag : Z;
  ci_dmabuf_fd : Z;
  ci_user_ptr : Z;
  ci_va_hint : Z;
}.

Definition GpuMemoryCreateInfo_new : GpuMemoryCreateInfo := mkCreateInfo 0 kLocal 0 0 0 0 (-1) 0 0.

(** ** Record updates *)

Definition with_domain (x : AllocDomain) (d : GpuMemoryDesc) : GpuMemoryDesc :=
  mkGpuMemoryDesc x (desc_adapter_luid d) (desc_gpu_addr d) (desc_cpu_addr d)
    (desc_client_size d) (desc_size d) (desc_alignment d) (desc_handle_ape_addr d)
    (desc_flags d) (desc_mem_flags d) (desc_engine_flag d).
Definition with_adapter_luid (x : LUID) (d : GpuMemoryDesc) : GpuMemoryDesc :=
  mkGpuMemoryDesc (desc_domain d) x (desc_gpu_addr d) (desc_cpu_addr d) (desc_client_size d)
    (desc_size d) (desc_alignment d) (desc_handle_ape_addr d) (desc_flags d) (desc_mem_flags
    d) (desc_engine_flag d).
Definition with_gpu_addr (x : Z) (d : GpuMemoryDesc) : GpuMemoryDesc :=
  mkGpuMemoryDesc (desc_domain d) (desc_adapter_luid d) x (desc_cpu_addr d)
    (desc_client_size d) (desc_size d) (desc_alignment d) (desc_handle_ape_addr d)
    (desc_flags d) (desc_mem_flags d) (desc_engine_flag d).
Definition with_cpu_addr (x : Z) (d : GpuMemoryDesc) : GpuMemoryDesc :=
  mkGpuMemoryDesc (desc_domain d) (desc_adapter_luid d) (desc_gpu_addr d) x
    (desc_client_size d) (desc_size d) (desc_alignment d) (desc_handle_ape_addr d)
    (desc_flags d) (desc_mem_flags d) (desc_engine_flag d).
Definition with_client_size (x : Z) (d : GpuMemoryDesc) : GpuMemoryDesc :=
  mkGpuMemoryDesc (desc_domain d) (desc_adapter_luid d) (desc_gpu_addr d) (desc_cpu_addr d)
    x (desc_size d) (desc_alignment d) (desc_handle_ape_addr d) (desc_flags d)
    (desc_mem_flags d) (desc_engine_flag d).
Definition with_size (x : Z) (d : GpuMemoryDesc) : GpuMemoryDesc :=
  mkGpuMemoryDesc (desc_domain d) (desc_adapter_luid d) (desc_gpu_addr d) (desc_cpu_addr d)
    (desc_client_size d) x (desc_alignment d) (desc_handle_ape_addr d) (desc_flags d)
    (desc_mem_flags d) (desc_engine_flag d).
Definition with_alignment (x : Z) (d : GpuMemoryDesc) : GpuMemoryDesc :=
  mkGpuMemoryDesc (desc_domain d) (desc_adapter_luid d) (desc_gpu_addr d) (desc_cpu_addr d)
    (desc_client_size d) (desc_size d) x (desc_handle_ape_addr d) (desc_flags d)
    (desc_mem_flags d) (desc_engine_flag d).
Definition with_handle_ape_addr (x : Z) (d : GpuMemoryDesc) : GpuMemoryDesc :=
  mkGpuMemoryDesc (desc_domain d) (desc_adapter_luid d) (desc_gpu_addr d) (desc_cpu_addr d)
    (desc_client_size d) (desc_size d) (desc_alignment d) x (desc_flags d) (desc_mem_flags
    d) (desc_engine_flag d).
Definition with_flags (x : Z) (d : GpuMemoryDesc) : GpuMemoryDesc :=
  mkGpuMemoryDesc (desc_domain d) (desc_adapter_luid d) (desc_gpu_addr d) (desc_cpu_addr d)
    (desc_client_size d) (desc_size d) (desc_alignment d) (desc_handle_ape_addr d) x
    (desc_mem_flags d) (desc_engine_flag d).
Definition with_mem_flags (x : Z) (d : GpuMemoryDesc) : GpuMemoryDesc :=
  mkGpuMemoryDesc (desc_domain d) (desc_adapter_luid d) (desc_gpu_addr d) (desc_cpu_addr d)
    (desc_client_size d) (desc_size d) (desc_alignment d) (desc_handle_ape_addr d)
    (desc_flags d) x (desc_engine_flag d).
Definition with_engine_flag (x : Z) (d : GpuMemoryDesc) : GpuMemoryDesc :=
  mkGpuMemoryDesc (desc_domain d) (desc_adapter_luid d) (desc_gpu_addr d) (desc_cpu_addr d)
    (desc_client_size d) (desc_size d) (desc_alignment d) (desc_handle_ape_addr d)
    (desc_flags d) (desc_mem_flags d) x.
Definition with_desc (x : GpuMemoryDesc) (g : GpuMemory) : GpuMemory :=
  mkGpuMemory (device_ g) x (num_allocations_ g) (alloc_handles_ptr_ g) (resource_ g)
    (mem_fd_ g).
Definition with_num_allocations (x : Z) (g : GpuMemory) : GpuMemory :=
  mkGpuMemory (device_ g) (desc_ g) x (alloc_handles_ptr_ g) (resource_ g) (mem_fd_ g).
Definition with_handles (x : option (list Z)) (g : GpuMemory) : GpuMemory :=
  mkGpuMemory (device_ g) (desc_ g) (num_allocations_ g) x (resource_ g) (mem_fd_ g).
Definition with_resource (x : Z) (g : GpuMemory) : GpuMemory :=
  mkGpuMemory (device_ g) (desc_ g) (num_allocations_ g) (alloc_handles_ptr_ g) x (mem_fd_
    g).
Definition with_mem_fd (x : Z) (g : GpuMemory) : GpuMemory :=
  mkGpuMemory (device_ g) (desc_ g) (num_allocations_ g) (alloc_handles_ptr_ g) (resource_
    g) x.

Definition desc_flag (pos : Z) (g : GpuMemory) : bool := bit pos (desc_flags (desc_ g)).
Definition set_desc_flag (pos : Z) (b : bool) (d : GpuMemoryDesc) : GpuMemoryDesc :=
  with_flags (bit_set pos b (desc_flags d)) d.
Definition upd_desc (f : GpuMemoryDesc -> GpuMemoryDesc) (g : GpuMemory) : GpuMemory :=
  with_desc (f (desc_ g)) g.

(** ** The object on its own *)

(** The constructor. The source leaves [domain] and [adapter_luid] uninitialised. *)
Definition GpuMemory_new (dev : nat) (uninit : AllocDomain * LUID) : GpuMemory :=
  mkGpuMemory dev (mkGpuMemoryDesc uninit.1 uninit.2 0 0 0 0 0 0 0 0 0) 0 None 0 (-1).

Definition CalcChunkNumbers (size : Z) : Z :=
  (size +64 GpuMemoryChunkSize -64 1) / GpuMemoryChunkSize.

Definition AdjustSize (s : DeviceInfo) (domain : AllocDomain) (size : Z) : Z :=
  if sd_EnableBigPageAlignment s && bool_decide (domain = kLocal) then
    let alignment :=
      if (0 <? sd_HwBigPageMinAlignmentSize s) && (sd_HwBigPageMinAlignmentSize s <? size) then
        let a := Z.max (sd_BigPageAlignmentSize s) (sd_HwBigPageMinAlignmentSize s) in
        if sd_HwBigPageAlignmentSize s <? size then Z.max a (sd_HwBigPageAlignmentSize s) else a
      else sd_BigPageAlignmentSize s in
    if 0 <? alignment then AlignUp64 size alignment else size
  else AlignUp64 size 4096.

Definition IsVirtual := desc_flag DF_is_virtual.
Definition IsShared := desc_flag DF_is_shared.
Definition IsPhysicalOnly := desc_flag DF_is_physical_only.
Definition IsQueueReferenced := desc_flag DF_is_queue_referenced.
Definition IsSystem (g : GpuMemory) : bool := bool_decide (desc_domain (desc_ g) = kSystem).
Definition IsUserMemory (g : GpuMemory) : bool := bool_decide (desc_domain (desc_ g) = kUserMemory).
Definition GpuAddress (g : GpuMemory) : Z := desc_gpu_addr (desc_ g).
Definition Size (g : GpuMemory) : Z := desc_size (desc_ g).
Definition IsSameAdapter (g : GpuMemory) (luid : LUID) : bool :=
  (LUID_HighPart (desc_adapter_luid (desc_ g)) =? LUID_HighPart luid) &&
  (LUID_LowPart (desc_adapter_luid (desc_ g)) =? LUID_LowPart luid).

Definition GetQueueReference : GpuMemory -> GpuMemory := upd_desc (set_desc_flag DF_is_queue_referenced true).
Definition PutQueueReference : GpuMemory -> GpuMemory := upd_desc (set_desc_flag DF_is_queue_referenced false).

(** The three-bit counter of imports from the same process. *)
Definition SharedReference (g : GpuMemory) : Z :=
  bf_get DF_is_imported_from_same_process 3 (desc_flags (desc_ g)).
Definition set_SharedReference (n : Z) : GpuMemory -> GpuMemory :=
  upd_desc (fun d => with_flags (bf_set DF_is_imported_from_same_process 3 n (desc_flags d)) d).
Definition IncSharedReference (g : GpuMemory) : GpuMemory := set_SharedReference (SharedReference g + 1) g.
Definition DecSharedReference (g : GpuMemory) : Z * GpuMemory :=
  if SharedReference g =? 0 then (0, g)
  else (SharedReference g - 1, set_SharedReference (SharedReference g - 1) g).
Definition IsSharedFromSameProcess (g : GpuMemory) : bool := 0 <? SharedReference g.

Definition GetAllocationHandle (g : GpuMemory) (i : nat) : option Z :=
  l ← alloc_handles_ptr_ g; l !! i.

(** [alloc_handles_ptr_] set up for the size and cleared. *)
Definition setup_handles (g : GpuMemory) : GpuMemory :=
  let n := CalcChunkNumbers (Size g) in
  with_handles (Some (replicate (Z.to_nat n) 0)) (with_num_allocations n g).

(** [while (offset >= GpuMemoryChunkSize) { offset -= GpuMemoryChunkSize; i += 1; }] *)
Fixpoint skip_loop (fuel : nat) (i : nat) (offset : Z) : nat * Z :=
  match fuel with
  | O => (i, offset)
  | S fuel =>
      if GpuMemoryChunkSize <=? offset then skip_loop fuel (S i) (offset -64 GpuMemoryChunkSize)
      else (i, offset)
  end.

Definition skip_chunks (offset : Z) : nat * Z :=
  skip_loop (Z.to_nat (offset / GpuMemoryChunkSize)) 0 offset.

(** The chunks a run of the entries of [alloc_info] describes, from [size] bytes
    at [addr] and [cpu_addr]. *)
Fixpoint alloc_infos (n : nat) (d : GpuMemoryDesc) (in_cpu : bool) (size addr cpu_addr : Z)
    : list AllocationInfo :=
  match n with
  | O => []
  | S n =>
      let block_size := Z.min size GpuMemoryChunkSize in
      (if in_cpu
       then mkAllocationInfo block_size (desc_domain d) 0 (desc_mem_flags d) (desc_engine_flag d) cpu_addr
       else mkAllocationInfo block_size (desc_domain d) addr (desc_mem_flags d) (desc_engine_flag d) 0)
      :: alloc_infos n d in_cpu (size -64 block_size) (addr +64 block_size)
           (if in_cpu then cpu_addr +64 block_size else cpu_addr)
  end.

Section gpu_memory.
Context {K : Type} `{Kernel K}.

Definition mod_mem (p : Z) (f : GpuMemory -> GpuMemory) : M K unit := g ← get_mem p; set_mem p (f g).

(** ** Mapping *)

Definition map_args (d : WDDMDevice) (addr handle offset size : Z) (write : bool) : MapArgs :=
  mkMapArgs (page_queue_ d) addr handle (offset / 0x1000) (size / 0x1000) write (negb write).

(** One call of [D3DKMTMapGpuVirtualAddress]; a pending one moves the paging fence. *)
Definition map_call (i : nat) (args : MapArgs) : M K ErrorCode :=
  r ← dx (D3DKMTMapGpuVirtualAddress args);
  (if decide (r.1 = NotReady) then UpdatePageFence i r.2 else mret tt) ;;
  mret r.1.

Definition map_ok (code : ErrorCode) : bool := bool_decide (code = NotReady) || ErrorCode_ok code.

(** The mapping loop: the final code and the number of chunks mapped. *)
Fixpoint map_loop (fuel : nat) (g : GpuMemory) (i : nat) (map_addr map_size offset : Z) (done : nat)
    : M K (ErrorCode * nat) :=
  if 0 <? map_size then
    match fuel with
    | O => abort
    | S fuel =>
        let block_size := Z.min map_size GpuMemoryChunkSize in
        d ← get_dev (device_ g);
        handle ← mderef (GetAllocationHandle g i);
        code ← map_call (device_ g) (map_args d map_addr handle offset block_size true);
        if map_ok code
        then map_loop fuel g (S i) (map_addr +64 block_size) (map_size -64 block_size) 0 (S done)
        else mret (code, done)
    end
  else mret (Success, done).

(** Undo the first [n] chunks. *)
Fixpoint unmap_partial (n : nat) (g : GpuMemory) (map_addr map_size offset : Z) : M K unit :=
  match n with
  | O => mret tt
  | S n =>
      let block_size := Z.min map_size GpuMemoryChunkSize in
      d ← get_dev (device_ g);
      map_call (device_ g) (map_args d map_addr 0 offset block_size false) ;;
      unmap_partial n g (map_addr +64 block_size) (map_size -64 block_size) offset
  end.

Definition map_fuel (size : Z) : nat := Z.to_nat (size / GpuMemoryChunkSize + 1).

Definition GpuMemory_MapGpuVirtualAddress (p : Z) (addr size offset : Z) : M K ErrorCode :=
  g ← get_mem p;
  let '(first_chunk, first_chunk_offset) := skip_chunks offset in
  '(code, n) ← map_loop (map_fuel size) g first_chunk addr size first_chunk_offset 0;
  (if ErrorCode_ok code then mret tt else unmap_partial n g addr size first_chunk_offset) ;;
  mret code.

(** The unmapping loop stops at the first code that is neither success nor
    [NotReady], and returns the last code it saw. *)
Fixpoint unmap_loop (fuel : nat) (g : GpuMemory) (i : nat) (map_addr map_size : Z) (code : ErrorCode)
    : M K ErrorCode :=
  if 0 <? map_size then
    match fuel with
    | O => abort
    | S fuel =>
        let block_size := Z.min map_size GpuMemoryChunkSize in
        d ← get_dev (device_ g);
        handle ← mderef (GetAllocationHandle g i);
        code ← map_call (device_ g) (map_args d map_addr handle 0 block_size false);
        if map_ok code
        then unmap_loop fuel g (S i) (map_addr +64 block_size) (map_size -64 block_size) code
        else mret code
    end
  else mret code.

Definition GpuMemory_UnmapGpuVirtualAddress (p : Z) (addr size offset : Z) : M K ErrorCode :=
  g ← get_mem p;
  unmap_loop (map_fuel size) g (skip_chunks offset).1 addr size Success.

(** ** The address range *)

Definition GpuMemory_ReserveGpuVirtualAddress (p : Z) (base_virt_addr size alignment : Z) : M K ErrorCode :=
  g ← get_mem p;
  let d := desc_ g in
  let locked := bit DF_is_locked (desc_flags d) in
  '(status, gpu_virt_addr, mem_fd) ←
    (if (bit DF_is_sysmem_exporter (desc_flags d) || bit DF_is_imported_sys_memfd (desc_flags d))
        && bool_decide (desc_domain d = kSystem) then
       let mfd := if -1 <? mem_fd_ g then mem_fd_ g else -1 in
       '(status, addr, mfd) ← ReserveIPCSysMem (Size g) 0 (desc_alignment d) mfd locked;
       mret (status, addr, if ErrorCode_ok status then mfd else mem_fd_ g)
     else
       '(status, addr) ← Runtime_ReserveGpuVirtualAddress (desc_domain d) base_virt_addr size alignment locked;
       mret (status, addr, mem_fd_ g));
  set_mem p
    (with_mem_fd mem_fd
       (if ErrorCode_ok status then
          upd_desc (fun d => with_cpu_addr (if IsSystem g then gpu_virt_addr else desc_cpu_addr d)
                               (with_gpu_addr gpu_virt_addr d)) g
        else g)) ;;
  mret status.

Definition GpuMemory_FreeGpuVirtualAddress (p : Z) (base_addr size : Z) : M K ErrorCode :=
  g ← get_mem p;
  if -1 <? mem_fd_ g then
    '(code, mfd) ← FreeIPCSysMem (GpuAddress g) (Size g) (mem_fd_ g);
    mod_mem p (with_mem_fd mfd) ;;
    mret code
  else if negb (base_addr =? 0)
  then Runtime_FreeGpuVirtualAddress (desc_domain (desc_ g)) base_addr size
  else mret Success.

(** ** Physical memory *)

Definition CreatePhysicalMemory (p : Z) : M K ErrorCode :=
  g ← get_mem p;
  massert (negb (IsVirtual g) && (0 <? num_allocations_ g)) ;;
  dev ← get_dev (device_ g);
  rt ← get_rt;
  let d := desc_ g in
  let infos := alloc_infos (Z.to_nat (num_allocations_ g)) d (IsUserMemory g || IsSystem g)
                 (desc_size d) (desc_gpu_addr d) (desc_cpu_addr d) in
  let shared :=
    if IsShared g then
      Some (mkSharedHandleInfo (desc_domain d) (desc_adapter_luid d) (desc_client_size d) (desc_size d)
              (desc_flags d) (desc_mem_flags d) (parent_pid rt) (desc_gpu_addr d))
    else None in
  r ← dx (D3DKMTCreateAllocation2 (mkCreateAllocationArgs (DeviceHandle dev) infos shared));
  (if ErrorCode_ok r.1 then
     old ← mderef (alloc_handles_ptr_ g);
     let handles := resize (Z.to_nat (num_allocations_ g)) 0 r.2.2 in
     mod_mem p (fun g => with_resource r.2.1 (with_handles (Some handles) g))
   else mret tt) ;;
  mret r.1.

Definition FreePhysicalMemory (p : Z) : M K ErrorCode :=
  g ← get_mem p;
  match alloc_handles_ptr_ g with
  | None => mret Success
  | Some handles =>
      first ← (if num_allocations_ g =? 1 then mderef (head handles) else mret 1);
      if (num_allocations_ g =? 1) && (first =? 0) then mret Success
      else
        dev ← get_dev (device_ g);
        (* [DestroyAllocation] passes the resource, or the list when there is none *)
        code ← dx_ (D3DKMTDestroyAllocation2 (DeviceHandle dev) (resource_ g)
                      (if resource_ g =? 0 then take (Z.to_nat (num_allocations_ g)) handles else []));
        mod_mem p (with_handles None) ;;
        mret code
  end.

Definition MakeResident (p : Z) : M K ErrorCode :=
  g ← get_mem p;
  dev ← get_dev (device_ g);
  r ← dx (D3DKMTMakeResident (page_queue_ dev)
            (take (Z.to_nat (num_allocations_ g)) (default [] (alloc_handles_ptr_ g))));
  if decide (r.1 = NotReady) then UpdatePageFence (device_ g) r.2 ;; mret Success else mret r.1.

Definition Evict (p : Z) : M K ErrorCode :=
  g ← get_mem p;
  dev ← get_dev (device_ g);
  dx_ (D3DKMTEvict (DeviceHandle dev)
         (take (Z.to_nat (num_allocations_ g)) (default [] (alloc_handles_ptr_ g)))).

(** ** Creation and destruction *)

(** The scope guard of [Init] and [ImportPhysicalHandle]. *)
Definition init_rollback (p : Z) (physical_created : bool) : M K unit :=
  (if physical_created then FreePhysicalMemory p ;; mret tt else mret tt) ;;
  g ← get_mem p;
  GpuMemory_FreeGpuVirtualAddress p (GpuAddress g) (Size g) ;;
  mret tt.

(** Mapping the whole object, making it resident and waiting for the page tables. *)
Definition map_and_wait (p : Z) : M K ErrorCode :=
  g ← get_mem p;
  code ← GpuMemory_MapGpuVirtualAddress p (GpuAddress g) (Size g) 0;
  if negb (ErrorCode_ok code) then mret code
  else
    code ← MakeResident p;
    if negb (ErrorCode_ok code) then mret code
    else
      ok ← WaitOnPagingFenceFromCpu (device_ g);
      mret (if (ok : bool) then code else Unknown).

(** From [CreatePhysicalMemory] to the end of [Init]: the code, and whether the
    physical memory had been created. *)
Definition init_steps (p : Z) : M K (ErrorCode * bool) :=
  code ← CreatePhysicalMemory p;
  if negb (ErrorCode_ok code) then mret (code, false)
  else code ← map_and_wait p; mret (code, true).

Definition guarded_init_steps (p : Z) : M K ErrorCode :=
  '(code, physical_created) ← init_steps p;
  (if ErrorCode_ok code then mret tt else init_rollback p physical_created) ;;
  mret code.

(** The descriptor as [Init] fills it, but for the rounded size. *)
Definition init_desc (luid : LUID) (ci : GpuMemoryCreateInfo) (d : GpuMemoryDesc) : GpuMemoryDesc :=
  let cf pos := bit pos (ci_flags ci) in
  let fl := desc_flags d in
  let fl := bit_set DF_is_virtual (cf CF_virtual_alloc) fl in
  let fl := bit_set DF_is_physical_only (cf CF_physical_only) fl in
  let fl := bit_set DF_is_physical_contiguous (cf CF_physical_contiguous) fl in
  let fl := bit_set DF_is_imported_sys_memfd (cf CF_sysmem_ipc_sig_importer) fl in
  let fl := bit_set DF_is_sysmem_exporter (cf CF_sysmem_ipc_sig_exporter) fl in
  let fl := bit_set DF_is_va_required (cf CF_alloc_va) fl in
  let fl := bit_set DF_is_blit_kernel_object (cf CF_blit_kernel_object) fl in
  let fl := if cf CF_interprocess || bool_decide (ci_domain ci = kLocal)
            then bit_set DF_is_shared true fl else fl in
  let fl := bit_set DF_is_locked (cf CF_locked) fl in
  mkGpuMemoryDesc (ci_domain ci) luid (desc_gpu_addr d) (desc_cpu_addr d) (ci_size ci) (desc_size d)
    (ci_alignment ci) (desc_handle_ape_addr d) fl (ci_mem_flags ci) (ci_engine_flag ci).

(** The object [Init] has prepared when it starts to call the driver. *)
Definition init_object (dev : WDDMDevice) (ci : GpuMemoryCreateInfo) (g : GpuMemory) : GpuMemory :=
  let g := upd_desc (init_desc (GetLuid dev) ci) g in
  let g := upd_desc (with_size (AdjustSize (shared_dev_ dev) (ci_domain ci) (ci_size ci))) g in
  let g := if IsUserMemory g || IsSystem g then upd_desc (with_cpu_addr (ci_user_ptr ci)) g else g in
  setup_handles g.

Definition GpuMemory_Init (p : Z) (ci : GpuMemoryCreateInfo) : M K ErrorCode :=
  g ← get_mem p;
  dev ← get_dev (device_ g);
  set_mem p (init_object dev ci g) ;;
  g ← get_mem p;
  if IsPhysicalOnly g then
    code ← CreatePhysicalMemory p;
    if ErrorCode_ok code then
      '(code, a) ← HandleApertureAlloc (Size g);
      mod_mem p (upd_desc (with_handle_ape_addr a)) ;;
      mret code
    else mret code
  else
    code ← GpuMemory_ReserveGpuVirtualAddress p (ci_va_hint ci) (Size g) (ci_alignment ci);
    if IsVirtual g || negb (ErrorCode_ok code) then mret code
    else guarded_init_steps p.

(** [*dmabuf_fd] and the code. *)
Definition ExportPhysicalHandle (p : Z) (dmabuf_fd flags : Z) : M K (ErrorCode * Z) :=
  g ← get_mem p;
  if -1 <? mem_fd_ g then mret (Success, mem_fd_ g)
  else if IsShared g then
    r ← dx (D3DKMTShareObjects 1 (resource_ g) flags);
    mret (r.1, if ErrorCode_ok r.1 then r.2 else -1)
  else mret (UnSupported, dmabuf_fd).

(** [sizeof(SharedHandleInfo)]: domain, LUID, two sizes, flags, mem_flags, pid, address. *)
Definition sizeof_SharedHandleInfo : Z := 56.

(** The import of an IPC signal's system memory. *)
Definition import_sysmem_desc (luid : LUID) (si : DeviceInfo) (ci : GpuMemoryCreateInfo) (d : GpuMemoryDesc)
    : GpuMemoryDesc :=
  let cf pos := bit pos (ci_flags ci) in
  let fl := desc_flags d in
  let fl := bit_set DF_is_imported_sys_memfd (cf CF_sysmem_ipc_sig_importer) fl in
  let fl := bit_set DF_is_va_required (cf CF_alloc_va) fl in
  let fl := bit_set DF_is_virtual (cf CF_virtual_alloc) fl in
  let fl := bit_set DF_is_physical_only (cf CF_physical_only) fl in
  let fl := bit_set DF_is_physical_contiguous (cf CF_physical_contiguous) fl in
  let fl := bit_set DF_is_locked (cf CF_locked) fl in
  (* [AdjustSize] runs before [domain] is set to [kSystem] *)
  mkGpuMemoryDesc kSystem luid (desc_gpu_addr d) (desc_cpu_addr d) (ci_size ci)
    (AdjustSize si (desc_domain d) (ci_size ci)) 0x1000 (desc_handle_ape_addr d) fl
    (ci_mem_flags ci) (ci_engine_flag ci).

Definition import_sysmem (p : Z) (ci : GpuMemoryCreateInfo) : M K ErrorCode :=
  g ← get_mem p;
  dev ← get_dev (device_ g);
  fd ← kcall_ (sys_dup (ci_dmabuf_fd ci));
  let g := with_mem_fd fd (upd_desc (import_sysmem_desc (GetLuid dev) (shared_dev_ dev) ci) g) in
  set_mem p g ;;
  code ← GpuMemory_ReserveGpuVirtualAddress p (ci_va_hint ci) (Size g) (ci_alignment ci);
  if negb (ErrorCode_ok code) then mret code
  else mod_mem p setup_handles ;; guarded_init_steps p.

(** The import of video memory: the code and [*gpu_addr]. *)
Definition import_vram (p : Z) (ci : GpuMemoryCreateInfo) (gpu_addr : Z) : M K (ErrorCode * Z) :=
  g ← get_mem p;
  dev ← get_dev (device_ g);
  rt ← get_rt;
  q ← dx (D3DKMTQueryResourceInfoFromNtHandle (DeviceHandle dev) (ci_dmabuf_fd ci));
  if negb (ErrorCode_ok q.1) then mret (InvalidParams, gpu_addr)
  else if negb (sizeof_SharedHandleInfo =? qr_PrivateRuntimeDataSize q.2) then mret (UnSupported, gpu_addr)
  else
    let n := qr_NumAllocations q.2 in
    set_mem p (with_handles (Some (replicate (Z.to_nat n) 0)) g) ;;
    o ← dx (D3DKMTOpenResourceFromNtHandle (DeviceHandle dev) (ci_dmabuf_fd ci) n);
    if negb (ErrorCode_ok o.1) then mret (InvalidParams, gpu_addr)
    else
      let info := or_private_data o.2 in
      if (shi_pid info =? parent_pid rt) && bit CF_alloc_va (ci_flags ci) &&
         IsSameAdapter g (shi_adapter_luid info) && negb (shi_gpu_addr info =? 0)
      then mret (SameProcessSameDevice, shi_gpu_addr info)
      else
        let va := bit CF_alloc_va (ci_flags ci) in
        let d := desc_ g in
        let fl := bit_set DF_is_va_required va (shi_flags info) in
        let fl := if va then bit_set DF_is_imported_vram_ipc true fl
                  else bit_set DF_is_imported_vram_vmem true fl in
        let d := mkGpuMemoryDesc (shi_domain info) (shi_adapter_luid info) (desc_gpu_addr d) (desc_cpu_addr d)
                   (shi_client_size info) (shi_size info) (desc_alignment d) (desc_handle_ape_addr d) fl
                   (shi_mem_flags info) (desc_engine_flag d) in
        set_mem p (mkGpuMemory (device_ g) d n (Some (resize (Z.to_nat n) 0 (or_handles o.2)))
                     (or_hResource o.2) (mem_fd_ g)) ;;
        if (va : bool) then
          code ← GpuMemory_ReserveGpuVirtualAddress p (ci_va_hint ci) (shi_size info) (ci_alignment ci);
          mret (code, gpu_addr)
        else
          '(code, a) ← HandleApertureAlloc (shi_size info);
          mod_mem p (upd_desc (with_handle_ape_addr a)) ;;
          mret (code, gpu_addr).

Definition ImportPhysicalHandle (p : Z) (ci : GpuMemoryCreateInfo) (gpu_addr : Z) : M K (ErrorCode * Z) :=
  if ci_dmabuf_fd ci <=? 0 then mret (InvalidParams, gpu_addr)
  else if bit CF_sysmem_ipc_sig_importer (ci_flags ci)
  then code ← import_sysmem p ci; mret (code, gpu_addr)
  else import_vram p ci gpu_addr.

(** [delete mem]: the destructor, then the storage. *)
Definition GpuMemory_delete (p : Z) : M K unit :=
  g ← get_mem p;
  GpuMemory_FreeGpuVirtualAddress p (GpuAddress g) (Size g) ;;
  FreePhysicalMemory p ;;
  (if 0 <? desc_handle_ape_addr (desc_ g) then HandleApertureFree (desc_handle_ape_addr (desc_ g))
   else mret tt) ;;
  delete_mem p.

(** [WDDMDevice::CreateGpuMemory]: the code, the object when there is one, [*gpu_va]. *)
Definition CreateGpuMemory (dev : nat) (ci : GpuMemoryCreateInfo) (gpu_va : Z)
    : M K (ErrorCode * option Z * Z) :=
  uninit ← kcall_ uninitialized_desc;
  mem ← new_mem (GpuMemory_new dev uninit);
  '(ret, gpu_va) ←
    (if 0 <? ci_dmabuf_fd ci then ImportPhysicalHandle mem ci gpu_va
     else code ← GpuMemory_Init mem ci; mret (code, gpu_va));
  if ErrorCode_ok ret then mret (ret, Some mem, gpu_va)
  else GpuMemory_delete mem ;; mret (ret, None, gpu_va).
End gpu_memory.
