(* ===== verification/Demo.v ===== *)
(** * Demo: a concrete environment and world for the witnesses

    [DemoKernel] answers each call that has a status with the next status of a
    script ([STATUS_SUCCESS] once it is used up), hands out fresh handles and
    grants every system call. *)

From Stdlib Require Import String Ascii.
From S2P Require Import Prelude.
From S2P Require Import StdMap.
From S2P Require Import BitField.
From S2P Require Import Utils.
From S2P Require Import VaMgr.
From S2P Require Import SimpleHeap.
From S2P Require Import Status.
From S2P Require Import World.
From S2P Require Import Runtime.
From S2P Require Import Device.
#[local] Open Scope Z_scope.

Record DemoKernel := mkDemoKernel {
  dk_script : list NTSTATUS;
  dk_fresh : Z;
}.

Definition dk_pop (k : DemoKernel) : NTSTATUS * DemoKernel :=
  match dk_script k with
  | [] => (STATUS_SUCCESS, k)
  | s :: l => (s, mkDemoKernel l (dk_fresh k))
  end.
Definition dk_new (k : DemoKernel) : Z * DemoKernel :=
  (dk_fresh k, mkDemoKernel (dk_script k) (dk_fresh k + 1)).

(** A status with a value that uses a fresh number. *)
Definition dk_status {R} (f : Z -> R) (k : DemoKernel) : (NTSTATUS * R) * DemoKernel :=
  let '(s, k) := dk_pop k in let '(n, k) := dk_new k in ((s, f n), k).

Definition demo_luid : LUID := mkLUID 1 2.
Definition demo_shared : SharedHandleInfo :=
  mkSharedHandleInfo kLocal demo_luid 0x1000 0x1000 0 0 100 0x40000000.

Definition demo_info : DeviceInfo :=
  mkDeviceInfo 7 demo_luid (fun _ => 0) (fun _ => false) (fun _ => false) 11 0 0 true
    0x100000000 0 0 0 0 0 0 false 1 1 (fun i => i) false 0 0 0 0x10000 32 4 1 0 true
    "Radeon" 0x11 145 0x744C 32 2500 4 0x300 384 1249 32 2 2 0 1 100000000 7 8 0x8000 0x600000 0x6000000 2.

(** Two processes use the adapter. *)
Definition demo_query {R} (q : device_query R) : R :=
  match q in device_query R return R with
  | QueryVramInfo => mkVramInfo 6 384 24560
  | QueryVramUsage => mkVramUsage 1000 24560
  | QueryRasFeature => mkRasFeature false false false false
  | QueryBdfInfo => mkBdfInfo 0 3 0 0
  | QueryAsicInfo => mkAsicInfo 0x744C 0x1002 0x1EAE 0x7901 0xC8 0x123456789ABCDEF0 "Radeon" 96 0xB0000
  | QueryCacheInfo => mkCacheInfo 1 (mkCacheEntry 32 1 2 2 48 :: repeat (mkCacheEntry 0 0 0 0 0) 9)
  | QueryVBiosInfo => mkVBiosInfo "NAVI31" "2023/01/01 00:00" "113" "022.001" EmptyString
  | QueryPowerInfo => mkPowerInfo 30 800 900 1250 339
  | QueryTempMetric _ _ => 45
  | QueryGpuActivity => mkGpuActivity 7 0 1
  | QueryFwInfo => mkFwInfo (mkFwEntry 7 42 :: repeat (mkFwEntry 0 0) 31) 1
  | QueryClockInfo _ => mkClockInfo 2500 500 2600 0 0
  | QueryPCIeInfo => mkPCIeInfo 16 16000 4 0 16 8000 UINT32_MAX 0 0 0 0 0
  | QueryBoardInfo => mkBoardInfo "Radeon" "AMD"
  | QueryDriverInfo => mkDriverInfo "25.1" "2025/01/01" "AMD"
  | QueryMemoryTotal _ => 0x600000000
  | QueryMemoryUsage _ => 0x3E800000
  | QueryGpuMetricsInfo => mkGpuMetricsInfo 45 50 60 7 UINT32_MAX 30 2500 1200 0 0 900 800 1250
  | EnumGpuProcesses => [mkGpuProcessInfo 100 0x500000; mkGpuProcessInfo 200 0x200000]
  end.

(** One processor with one cache. *)
Definition demo_file (path : string) : option string :=
  if String.eqb path "/proc/cpuinfo" then
    Some (String.concat (String "010"%char EmptyString)
      ["processor : 0"; "vendor_id : AuthenticAMD"; "model name : Ryzen"; "apicid : 2"; EmptyString])%string
  else if String.eqb path "/sys/devices/system/cpu/cpu0/cache/index0/shared_cpu_list" then Some "0"%string
  else if String.eqb path "/sys/devices/system/cpu/cpu0/cache/index0/level" then Some "1"%string
  else if String.eqb path "/sys/devices/system/cpu/cpu0/cache/index0/type" then Some "Data"%string
  else if String.eqb path "/sys/devices/system/cpu/cpu0/cache/index0/size" then Some "32K"%string
  else if String.eqb path "/sys/devices/system/cpu/cpu0/cache/index0/coherency_line_size" then Some "64"%string
  else if String.eqb path "/sys/devices/system/cpu/cpu0/cache/index0/ways_of_associativity" then Some "8"%string
  else if String.eqb path "/sys/devices/system/cpu/cpu0/cache/index0/physical_line_partition" then Some "1"%string
  else if String.eqb path "/sys/devices/system/cpu/cpu0/cache/index0/shared_cpu_map" then Some "1"%string
  else None.
Definition demo_dir (path : string) : option (list string) :=
  if String.eqb path "/sys/devices/system/cpu" then Some ["."; ".."; "cpu0"; "cpufreq"]%string
  else if String.eqb path "/sys/devices/system/cpu/cpu0/cache" then Some ["."; ".."; "index0"]%string
  else None.

#[export] Instance demo_kernel : Kernel DemoKernel := fun R c k =>
  match c in kcall R return R * DemoKernel with
  | D3DKMTMapGpuVirtualAddress _ => dk_status (fun n => n) k
  | D3DKMTCreateAllocation2 args =>
      dk_status (fun n => (n, (fun i => n * 100 + Z.of_nat i) <$> seq 1 (length (ca_info args)))) k
  | D3DKMTDestroyAllocation2 _ _ _ => dk_pop k
  | D3DKMTReserveGpuVirtualAddress args => dk_status (fun _ => rv_MinimumAddress args) k
  | D3DKMTFreeGpuVirtualAddress _ _ _ => dk_pop k
  | D3DKMTMakeResident _ _ => dk_status (fun n => n) k
  | D3DKMTEvict _ _ => dk_pop k
  | D3DKMTShareObjects _ _ _ => dk_status (fun n => n) k
  | D3DKMTQueryResourceInfoFromNtHandle _ _ => dk_status (fun _ => mkQueryResourceInfo 1 56) k
  | D3DKMTOpenResourceFromNtHandle _ _ num =>
      dk_status (fun n => mkOpenResourceResult n ((fun i => n * 100 + i) <$> seqZ 1 num) demo_shared) k
  | D3DKMTWaitForSynchronizationObjectFromCpu _ _ _ _ => dk_pop k
  | D3DKMTWaitForSynchronizationObjectFromGpu _ _ _ => dk_pop k
  | D3DKMTSignalSynchronizationObjectFromGpu _ _ _ => dk_pop k
  | D3DKMTCreatePagingQueue _ => dk_status (fun n => (n, n, n)) k
  | D3DKMTDestroyPagingQueue _ => dk_pop k
  | D3DKMTEscape_PowerOpt _ _ _ => dk_pop k
  | D3DKMTQueryStatistics_Adapter _ => dk_status (fun _ => 1) k
  | D3DKMTQueryStatistics_Segment _ _ => dk_status (fun _ => mkSegmentStatistics 1 false false 0 0) k
  | D3DKMTLock2 _ _ => dk_status (fun n => n) k
  | D3DKMTUnlock2 _ _ => dk_pop k
  | D3DKMTCreateContextVirtual _ _ _ _ _ => dk_status (fun n => n) k
  | D3DKMTDestroyContext _ => dk_pop k
  | D3DKMTCreateSynchronizationObject2 _ => dk_status (fun n => (n, n)) k
  | D3DKMTDestroySynchronizationObject _ => dk_pop k
  | D3DKMTQueryClockCalibration _ _ => dk_status (fun n => (n, n)) k
  | D3DKMTSubmitCommand _ _ _ _ => dk_pop k
  | D3DKMTCreateHwQueue _ _ _ _ => dk_status (fun n => (n, n, n)) k
  | D3DKMTDestroyHwQueue _ => dk_pop k
  | D3DKMTSubmitCommandToHwQueue _ _ _ _ => dk_pop k
  | D3DKMTEnumAdapters2 c => dk_status (fun _ => (1, if c =? 0 then [] else [(5, demo_luid)])) k
  | D3DKMTQueryAdapterInfo_PhysicalAdapterCount _ => dk_status (fun _ => 1) k
  | D3DKMTQueryAdapterInfo_DeviceIds _ _ => dk_status (fun _ => (0x1002, 0x744C)) k
  | D3DKMTCreateDevice _ _ => dk_status (fun n => n) k
  | D3DKMTDestroyDevice _ => dk_pop k
  | ChainContext_Create _ _ => dk_new k
  | ChainContext_QueryAdapterInfo _ => (Success, k)
  | ChainContext_NumChainedGpus _ => (1, k)
  | ChainContext_VendorId _ _ => (0x1002, k)
  | ChainContext_CreateDevice _ _ _ => let '(n, k) := dk_new k in ((n, demo_info), k)
  | ChainContext_delete _ => (tt, k)
  | DeviceContext_IsWddm2Supported _ => (true, k)
  | DeviceContext_Init _ => (Success, k)
  | DeviceContext_delete _ => (tt, k)
  | DeviceContext_Query q _ => ((Success, demo_query q), k)
  | sys_dlopen _ => (77, k)
  | sys_dlsym _ _ => (1, k)
  | sys_dlclose _ => (0, k)
  | sys_dlinfo_linkmap _ => (None, k)
  | sys_dladdr _ => (None, k)
  | sys_dl_iterate_phdr => ([], k)
  | read_c_string _ => (EmptyString, k)
  | sys_cpuid_max _ => (0, k)
  | sys_cpuid _ => (None, k)
  | sys_uname_release => (Some "6.6.87"%string, k)
  | sys_nprocessors => (1, k)
  | sys_read_file path => (demo_file path, k)
  | sys_list_dir path => (demo_dir path, k)
  | sys_mmap addr _ _ flags _ =>
      (Some (if bool_decide (MAP_FIXED ∈ flags) then addr else 0x200000000000), k)
  | sys_munmap _ _ => (0, k)
  | sys_madvise_dontfork _ _ => (0, k)
  | sys_memfd_create _ => dk_new k
  | sys_ftruncate _ _ => (0, k)
  | sys_open _ => (3, k)
  | sys_close _ => (0, k)
  | sys_dup _ => dk_new k
  | sys_fstat_size _ => (0x2000, k)
  | sys_readlink_fd _ => (None, k)
  | sys_readlink _ => (None, k)
  | sys_geteuid => ((1000, 1000), k)
  | sys_sysinfo => ((0, (0x100000000, 0x100000000)), k)
  | sys_sysinfo_units => (Some (0x100000000, 1), k)
  | sys_setenv _ _ => (tt, k)
  | sys_getpid => (100, k)
  | sys_getenv _ => (None, k)
  | sys_page_size => (4096, k)
  | load_u64 _ => (0, k)
  | load_dwords _ n => (repeat 0 (Z.to_nat n), k)
  | store_dwords _ _ => (tt, k)
  | store_u64 _ _ => (tt, k)
  | store_u16 _ _ => (tt, k)
  | atomic_decrement _ => (tt, k)
  | clear_bytes _ _ => (tt, k)
  | hsa_signal_load_relaxed _ => (0, k)
  | hsa_signal_wait_relaxed _ v => (v, k)
  | hsa_signal_store_screlease _ _ => (tt, k)
  | hsa_loader_query_host_address a => ((0, a), k)
  | hsa_system_get_extension_table => (Some 1, k)
  | sleep_us _ => (tt, k)
  | steady_clock_now_ns => (0, k)
  | clock_monotonic_raw => (Some (12, 345), k)
  | clock_monotonic => ((12, 345), k)
  | clock_getres_monotonic _ => (Some (0, 1), k)
  | clock_boottime => ((12, 345), k)
  | clock_getres_boottime => ((0, 1), k)
  | load_thread_stop _ => (false, k)
  | store_thread_stop _ => (tt, k)
  | cond_wait _ => (tt, k)
  | cond_notify _ => (tt, k)
  | thread_join _ => (tt, k)
  | uninitialized_u32 => (0, k)
  | uninitialized_desc => ((kSystem, mkLUID 0 0), k)
  end.

#[export] Instance demo_mmap_fixed : MmapFixed DemoKernel.
Proof. intros addr len prot flags fd k Hf. right. cbn. by rewrite bool_decide_eq_true_2. Qed.

Definition demo_dev : WDDMDevice := mkWDDMDevice 5 demo_info 1 11 12 0x9000 3 0 0 [mkSegmentInfo 0 1 false false 0].

Definition demo_local : VaMgr := VaMgr_new 0x100000000 0x400000000 DEFAULT_GPU_PAGE_SIZE.
Definition demo_system : VaMgr := VaMgr_new 0x1000000000 0x400000000 DEFAULT_GPU_PAGE_SIZE.
Definition demo_aperture : VaMgr := VaMgr_new 0x800000000000 0x800000000000 DEFAULT_GPU_PAGE_SIZE.

(** An open library on one adapter. *)
Definition demo_rt : hsakmtRuntime :=
  mkRuntime 3 100 false 1 3 true 0 0 false 0x80000000 0 1 4096 12 false
    (mkHeapSpace 0x100000000 0x400000000 (Some demo_local))
    (mkHeapSpace 0x1000000000 0x400000000 (Some demo_system))
    (mkHeapSpace 0x800000000000 0x800000000000 (Some demo_aperture)).

Definition demo_world (script : list NTSTATUS) : World DemoKernel :=
  mkWorld (mkDemoKernel script 20) [] demo_rt [demo_dev] ∅ 0x5000 [] SimpleHeap_new 2 true (mkDxcoreLoader 77 ∅).
