(* ===== verification/MapSpec.v ===== *)
(** * MapSpec: mapping a GPU allocation, chunk by chunk

    What [MapGpuVirtualAddress] and [UnmapGpuVirtualAddress] do to the driver,
    whatever it answers: the calls are the chunks of the range in order, a
    failure undoes exactly the chunks mapped before it, and the paging fence
    of the device ends at the largest pending value. *)

From S2P Require Import Prelude.
From S2P Require Import StdMap.
From S2P Require Import BitField.
From S2P Require Import Utils.
From S2P Require Import VaMgr.
From S2P Require Import Status.
From S2P Require Import World.
From S2P Require Import Runtime.
From S2P Require Import Device.
From S2P Require Import GpuMemory.
#[local] Open Scope Z_scope.

(** ** The chunks of a range *)

Definition chunk_count (size : Z) : nat := Z.to_nat ((size + GpuMemoryChunkSize - 1) / GpuMemoryChunkSize).

Fixpoint chunks_n (n : nat) (addr size : Z) : list (Z * Z) :=
  match n with
  | O => []
  | S n => (addr, Z.min size GpuMemoryChunkSize) ::
           chunks_n n (addr + GpuMemoryChunkSize) (size - GpuMemoryChunkSize)
  end.

(** Address and size of each chunk of [addr, addr + size). *)
Definition chunks (addr size : Z) : list (Z * Z) := chunks_n (chunk_count size) addr size.

Lemma GpuMemoryChunkSize_value : GpuMemoryChunkSize = 2 ^ 31.
Proof. reflexivity. Qed.

#[global] Opaque GpuMemoryChunkSize.

Ltac chunk_size := pose proof GpuMemoryChunkSize_value as HC; change (2 ^ 31) with 2147483648 in HC.

Lemma chunk_count_0 size : size <= 0 -> chunk_count size = 0%nat.
Proof.
  intros. unfold chunk_count. chunk_size.
  assert ((size + GpuMemoryChunkSize - 1) / GpuMemoryChunkSize < 1); [|lia].
  apply Z.div_lt_upper_bound; lia.
Qed.

Lemma chunk_count_S size :
  0 < size -> chunk_count size = S (chunk_count (size - GpuMemoryChunkSize)).
Proof.
  intros. unfold chunk_count. chunk_size.
  replace (size + GpuMemoryChunkSize - 1) with (size - GpuMemoryChunkSize + GpuMemoryChunkSize - 1 + 1 * GpuMemoryChunkSize) by lia.
  rewrite Z.div_add by lia. destruct (Z.le_gt_cases size GpuMemoryChunkSize).
  - assert ((size - GpuMemoryChunkSize + GpuMemoryChunkSize - 1) / GpuMemoryChunkSize = 0) as -> by (apply Z.div_small; lia).
    done.
  - assert (0 <= (size - GpuMemoryChunkSize + GpuMemoryChunkSize - 1) / GpuMemoryChunkSize) by (apply Z.div_pos; lia).
    lia.
Qed.

Lemma chunks_cons addr size :
  0 < size -> chunks addr size =
    (addr, Z.min size GpuMemoryChunkSize) :: chunks (addr + GpuMemoryChunkSize) (size - GpuMemoryChunkSize).
Proof. intros. unfold chunks. by rewrite chunk_count_S. Qed.

Lemma chunks_nil addr size : size <= 0 -> chunks addr size = [].
Proof. intros. unfold chunks. by rewrite chunk_count_0. Qed.

Lemma chunks_length addr size : length (chunks addr size) = chunk_count size.
Proof.
  unfold chunks. generalize (chunk_count size) as n. intros n. revert addr size.
  induction n as [|n IH]; intros; simpl; [done|]. by rewrite IH.
Qed.

(** The same equations in the form the loops step: the rest of the range is what
    follows the block just handled. *)
Lemma chunk_count_step size :
  0 < size -> chunk_count size = S (chunk_count (size - Z.min size GpuMemoryChunkSize)).
Proof.
  intros. rewrite chunk_count_S by done. f_equal.
  destruct (Z.le_gt_cases size GpuMemoryChunkSize); [|by rewrite Z.min_r by lia].
  rewrite Z.min_l by lia. by rewrite !chunk_count_0 by lia.
Qed.

Lemma chunks_step addr size :
  0 < size -> chunks addr size =
    (addr, Z.min size GpuMemoryChunkSize)
    :: chunks (addr + Z.min size GpuMemoryChunkSize) (size - Z.min size GpuMemoryChunkSize).
Proof.
  intros. rewrite chunks_cons by done. f_equal.
  destruct (Z.le_gt_cases size GpuMemoryChunkSize); [|by rewrite Z.min_r by lia].
  rewrite Z.min_l by lia. by rewrite !chunks_nil by lia.
Qed.

(** Induction over the chunks of a range. *)
Lemma chunks_ind (P : Z -> Prop) :
  (forall size, size <= 0 -> P size) ->
  (forall size, 0 < size -> P (size - Z.min size GpuMemoryChunkSize) -> P size) -> forall size, P size.
Proof.
  intros H0 HS size. remember (chunk_count size) as n eqn:Hn. revert size Hn.
  induction n as [|n IH]; intros size Hn; destruct (Z.le_gt_cases size 0); auto.
  - by rewrite chunk_count_step in Hn by done.
  - apply HS; [done|]. apply IH. rewrite chunk_count_step in Hn by done. congruence.
Qed.

(** The chunks cover the range without gap or overlap. *)
Fixpoint covers (l : list (Z * Z)) (lo hi : Z) : Prop :=
  match l with
  | [] => lo = hi
  | (a, n) :: l => a = lo /\ 0 < n <= GpuMemoryChunkSize /\ covers l (lo + n) hi
  end.

Lemma chunks_cover addr size : 0 <= size -> covers (chunks addr size) addr (addr + size).
Proof.
  chunk_size. revert addr. induction size as [size ?|size ? IH] using chunks_ind; intros addr Hs.
  { rewrite chunks_nil by lia. simpl. lia. }
  rewrite chunks_step by lia. simpl. split_and!; [done|lia|lia|].
  replace (addr + size) with
    (addr + Z.min size GpuMemoryChunkSize + (size - Z.min size GpuMemoryChunkSize)) by lia.
  apply IH. lia.
Qed.

Lemma CalcChunkNumbers_count size :
  0 <= size -> size + GpuMemoryChunkSize < 2 ^ 64 -> Z.to_nat (CalcChunkNumbers size) = chunk_count size.
Proof.
  chunk_size. intros. unfold CalcChunkNumbers, chunk_count. by rewrite add64_small, sub64_small by lia.
Qed.

(** ** What a run of driver calls changes *)

(** The fence value a call leaves pending. *)
Definition as_fence (e : kevent) : option Z :=
  match e with
  | KEvent c r =>
      match c in kcall R return R -> option Z with
      | D3DKMTMapGpuVirtualAddress _ => fun r => if decide (r.1 = STATUS_PENDING) then Some r.2 else None
      | D3DKMTMakeResident _ _ => fun r => if decide (r.1 = STATUS_PENDING) then Some r.2 else None
      | _ => fun _ => None
      end r
  end.

Definition bump (fences : list Z) (d : WDDMDevice) : WDDMDevice :=
  set_page_fence_value (foldl fence_max (page_fence_value_ d) fences) d.

(** [w'] is [w] after the calls [evs], the paging fence of device [i] at the
    largest value they left pending. *)
Definition runs {K} (i : nat) (w w' : World K) (evs : list kevent) : Prop :=
  frame w w' /\ w_log w' = w_log w ++ evs /\
  w_devs w' = alter (bump (omap as_fence evs)) i (w_devs w).

Lemma bump_nil d : bump [] d = d.
Proof. by destruct d. Qed.

Lemma bump_app l l' d : bump (l ++ l') d = bump l' (bump l d).
Proof. unfold bump. simpl. by rewrite foldl_app. Qed.

Lemma alter_bump_nil i (l : list WDDMDevice) : alter (bump []) i l = l.
Proof. apply list_eq. intros j. destruct (decide (i = j)) as [->|].
  - rewrite list_lookup_alter_eq. by destruct (l !! j) as [d|]; simpl; rewrite ?bump_nil.
  - by rewrite list_lookup_alter_ne.
Qed.

Lemma alter_bump_app i l1 l2 (l : list WDDMDevice) :
  alter (bump (l1 ++ l2)) i l = alter (bump l2) i (alter (bump l1) i l).
Proof.
  apply list_eq. intros j. destruct (decide (i = j)) as [->|].
  - rewrite !list_lookup_alter_eq. destruct (l !! j) as [d|]; simpl; by rewrite ?bump_app.
  - by rewrite !list_lookup_alter_ne.
Qed.

Lemma runs_refl {K} i (w : World K) : runs i w w [].
Proof. split_and!; [done|by rewrite app_nil_r|by rewrite alter_bump_nil]. Qed.

Lemma runs_trans {K} i (w w1 w2 : World K) e1 e2 :
  runs i w w1 e1 -> runs i w1 w2 e2 -> runs i w w2 (e1 ++ e2).
Proof.
  intros (F1 & L1 & D1) (F2 & L2 & D2). split_and!.
  - by transitivity w1.
  - by rewrite L2, L1, <- app_assoc.
  - by rewrite D2, D1, omap_app, alter_bump_app.
Qed.

(** A device after a run: only its fence moved. *)
Lemma runs_dev {K} i (w w' : World K) evs d :
  runs i w w' evs -> w_devs w !! i = Some d ->
  w_devs w' !! i = Some (bump (omap as_fence evs) d).
Proof. intros (_ & _ & ->) Hd. by rewrite list_lookup_alter_eq, Hd. Qed.

Lemma runs_mem {K} i (w w' : World K) evs p : runs i w w' evs -> w_mems w' !! p = w_mems w !! p.
Proof. intros ((_ & -> & _) & _). done. Qed.

Section map.
Context {K : Type} `{Kernel K}.
Implicit Types (w : World K).

Definition map_event (c : MapArgs * (NTSTATUS * Z)) : kevent :=
  KEvent (D3DKMTMapGpuVirtualAddress c.1) c.2.

(** The code a call ends with. *)
Definition call_code (c : MapArgs * (NTSTATUS * Z)) : ErrorCode := TranslateNtStatus c.2.1.

Lemma TranslateNtStatus_NotReady s : TranslateNtStatus s = NotReady <-> s = STATUS_PENDING.
Proof. by destruct s. Qed.

Lemma UpdatePageFence_alter i v w d :
  w_devs w !! i = Some d ->
  UpdatePageFence i v w = Some (tt, set_devs (alter (bump [v]) i (w_devs w)) w).
Proof.
  intros Hd. unfold UpdatePageFence, get_dev, set_dev, mbind, M_bind. rewrite Hd, Hd.
  do 3 f_equal. apply list_eq. intros j. destruct (decide (i = j)) as [->|].
  - rewrite list_lookup_alter_eq, list_lookup_insert_eq, Hd; [done|]. by eapply lookup_lt_Some.
  - by rewrite list_lookup_alter_ne, list_lookup_insert_ne.
Qed.

Lemma map_call_runs i args w d :
  w_devs w !! i = Some d ->
  exists r w', map_call i args w = Some (TranslateNtStatus r.1, w') /\ runs i w w' [map_event (args, r)].
Proof.
  intros Hd. unfold map_call, dx, kcall_, mbind, M_bind, mret, M_ret.
  destruct (kernel_step _ (D3DKMTMapGpuVirtualAddress args) (w_ker w)) as [[s v] k] eqn:E. simpl.
  destruct (decide (TranslateNtStatus s = NotReady)) as [Hp|Hp]; rewrite TranslateNtStatus_NotReady in Hp.
  - erewrite UpdatePageFence_alter by (simpl; done). exists (s, v). eexists. split; [done|].
    split_and!; [done|done|]. simpl. by rewrite decide_True by done.
  - exists (s, v). eexists. split; [done|]. split_and!; [done|done|]. simpl.
    rewrite decide_False by done. simpl. by rewrite alter_bump_nil.
Qed.

(** The arguments of the calls for the chunks [cs], the first of them chunk [i] of
    the allocation, mapped from [off]. *)
Fixpoint chunk_args (write : bool) (pq : Z) (handles : list Z) (i : nat) (off : Z) (cs : list (Z * Z))
    : list MapArgs :=
  match cs with
  | [] => []
  | (a, n) :: cs =>
      mkMapArgs pq a (default 0 (handles !! i)) (off / 0x1000) (n / 0x1000) write (negb write)
      :: chunk_args write pq handles (S i) 0 cs
  end.

(** The arguments of the calls that undo chunks. *)
Definition undo_args (pq off : Z) (c : Z * Z) : MapArgs :=
  mkMapArgs pq c.1 0 (off / 0x1000) (c.2 / 0x1000) false true.

Definition call_ok (c : MapArgs * (NTSTATUS * Z)) : Prop := map_ok (call_code c) = true.

(** The step every chunk loop takes: one call, then the rest of the range. *)
Lemma chunk_step i args w d :
  w_devs w !! i = Some d ->
  exists c w', map_call i args w = Some (call_code c, w') /\ c.1 = args /\
    runs i w w' [map_event c] /\
    exists d', w_devs w' !! i = Some d' /\ page_queue_ d' = page_queue_ d.
Proof.
  intros Hd. destruct (map_call_runs i args w d Hd) as (r & w' & Hrun & Hr).
  exists (args, r), w'. split_and!; [done|done|done|]. eexists. split; [by eapply runs_dev|done].
Qed.

Lemma runs_cons i w w1 w2 e l : runs i w w1 [e] -> runs i w1 w2 l -> runs i w w2 (e :: l).
Proof. apply (runs_trans i w w1 w2 [e] l). Qed.

(** ** The loops *)

Section loops.
Context (g : GpuMemory) (handles : list Z).
Hypothesis Hhandles : alloc_handles_ptr_ g = Some handles.

Lemma chunk_handle i : (i < length handles)%nat -> GetAllocationHandle g i = Some (default 0 (handles !! i)).
Proof using Hhandles.
  intros Hi. unfold GetAllocationHandle. rewrite Hhandles. simpl.
  by destruct (lookup_lt_is_Some_2 handles i Hi) as [h ->].
Qed.

(** Enter an iteration: the device and the handle are there, and the sums of the
    64-bit cursor do not wrap. *)
Ltac enter_chunk Hd :=
  match goal with |- context [0 <? ?n] => destruct (Z.ltb_spec 0 n); [|lia] end;
  erewrite M_bind_step by (unfold get_dev; by rewrite Hd);
  rewrite ?chunk_handle by lia;
  erewrite ?(M_bind_step _ _ _ (mderef _)) by reflexivity;
  rewrite ?add64_small, ?sub64_small by lia.

Lemma map_loop_spec size : forall fuel i addr off done w d,
  w_devs w !! device_ g = Some d -> 0 <= addr -> 0 <= size -> addr + size < 2 ^ 64 ->
  (i + chunk_count size <= length handles)%nat -> (chunk_count size <= fuel)%nat ->
  let spec := chunk_args true (page_queue_ d) handles i off (chunks addr size) in
  (exists calls w', map_loop fuel g i addr size off done w = Some ((Success, (done + chunk_count size)%nat), w') /\
     runs (device_ g) w w' (map_event <$> calls) /\ calls.*1 = spec /\ Forall call_ok calls) \/
  (exists calls c w', map_loop fuel g i addr size off done w = Some ((call_code c, (done + length calls)%nat), w') /\
     runs (device_ g) w w' (map_event <$> (calls ++ [c])) /\ (calls ++ [c]).*1 `prefix_of` spec /\
     Forall call_ok calls /\ ~ call_ok c).
Proof using Hhandles.
  chunk_size.
  induction size as [size Hs|size Hs IH] using chunks_ind; intros fuel i addr off done w d Hd Ha Hs0 Has Hi Hf spec.
  { left. exists [], w. subst spec. rewrite chunks_nil, chunk_count_0, Nat.add_0_r by lia.
    split_and!; [|apply runs_refl|done|done]. destruct fuel; simpl; by destruct (Z.ltb_spec 0 size); [lia|]. }
  rewrite chunk_count_step in * by done. destruct fuel as [|fuel]; [lia|]. cbn [map_loop].
  enter_chunk Hd.
  destruct (chunk_step (device_ g)
    (map_args d addr (default 0 (handles !! i)) off (Z.min size GpuMemoryChunkSize) true) w d Hd)
    as (c & w1 & Hrun & Hc & Hruns & d1 & Hd1 & Hpq).
  rewrite (M_bind_step _ _ _ _ _ _ _ _ Hrun). subst spec. rewrite chunks_step by done. cbn [chunk_args].
  destruct (map_ok (call_code c)) eqn:Hok.
  2:{ right. exists [], c, w1. rewrite Nat.add_0_r. split_and!; [done|done| |done|unfold call_ok; by rewrite Hok].
      simpl. rewrite Hc. eexists. reflexivity. }
  destruct (IH fuel (S i) (addr + Z.min size GpuMemoryChunkSize) 0 (S done) w1 d1 Hd1) as
    [(calls & w2 & Hrun2 & Hr2 & Hargs & Hall)|(calls & b & w2 & Hrun2 & Hr2 & Hargs & Hall & Hbad)]; [lia..| |].
  - left. exists (c :: calls), w2. rewrite Hrun2. split_and!; [do 3 f_equal; lia| | |by constructor].
    + by eapply runs_cons.
    + by rewrite fmap_cons, Hc, Hargs, Hpq.
  - right. exists (c :: calls), b, w2. rewrite Hrun2. split_and!; [do 3 f_equal; simpl; lia| | |by constructor|done].
    + by eapply runs_cons.
    + simpl. rewrite Hc, Hpq in *. by apply prefix_cons.
Qed.

Lemma unmap_partial_spec off size : forall n addr w d,
  w_devs w !! device_ g = Some d -> 0 <= addr -> 0 <= size -> addr + size < 2 ^ 64 ->
  (n <= chunk_count size)%nat ->
  exists calls w', unmap_partial n g addr size off w = Some (tt, w') /\
    runs (device_ g) w w' (map_event <$> calls) /\
    calls.*1 = undo_args (page_queue_ d) off <$> take n (chunks addr size).
Proof.
  chunk_size.
  induction size as [size Hs|size Hs IH] using chunks_ind; intros n addr w d Hd Ha Hs0 Has Hn.
  { rewrite chunk_count_0 in Hn by lia. assert (n = 0%nat) as -> by lia.
    exists [], w. split_and!; [done|apply runs_refl|done]. }
  destruct n as [|n]; [exists [], w; split_and!; [done|apply runs_refl|done]|].
  rewrite chunk_count_step in Hn by done. cbn [unmap_partial].
  erewrite M_bind_step by (unfold get_dev; by rewrite Hd). rewrite add64_small, sub64_small by lia.
  destruct (chunk_step (device_ g) (map_args d addr 0 off (Z.min size GpuMemoryChunkSize) false) w d Hd)
    as (c & w1 & Hrun & Hc & Hruns & d1 & Hd1 & Hpq).
  rewrite (M_bind_step _ _ _ _ _ _ _ _ Hrun).
  destruct (IH n (addr + Z.min size GpuMemoryChunkSize) w1 d1 Hd1) as (calls & w2 & Hrun2 & Hr2 & Hargs); [lia..|].
  exists (c :: calls), w2. split_and!; [done|by eapply runs_cons|].
  rewrite chunks_step by done. cbn [take]. by rewrite !fmap_cons, Hc, Hargs, Hpq.
Qed.

(** The unmapping loop: [code0] is returned when there is nothing to do. *)
Lemma unmap_loop_spec size : forall fuel i addr code0 w d,
  w_devs w !! device_ g = Some d -> 0 <= addr -> 0 <= size -> addr + size < 2 ^ 64 ->
  (i + chunk_count size <= length handles)%nat -> (chunk_count size <= fuel)%nat ->
  let spec := chunk_args false (page_queue_ d) handles i 0 (chunks addr size) in
  exists calls w', unmap_loop fuel g i addr size code0 w =
      Some (from_option call_code code0 (last calls), w') /\
    runs (device_ g) w w' (map_event <$> calls) /\ calls.*1 `prefix_of` spec /\
    (calls.*1 = spec \/ exists pre c, calls = pre ++ [c] /\ ~ call_ok c) /\
    Forall call_ok (removelast calls).
Proof using Hhandles.
  chunk_size.
  induction size as [size Hs|size Hs IH] using chunks_ind; intros fuel i addr code0 w d Hd Ha Hs0 Has Hi Hf spec.
  { exists [], w. subst spec. rewrite chunks_nil by lia.
    split_and!; [|apply runs_refl|done|by left|done]. destruct fuel; simpl; by destruct (Z.ltb_spec 0 size); [lia|]. }
  rewrite chunk_count_step in * by done. destruct fuel as [|fuel]; [lia|]. cbn [unmap_loop].
  enter_chunk Hd.
  destruct (chunk_step (device_ g)
    (map_args d addr (default 0 (handles !! i)) 0 (Z.min size GpuMemoryChunkSize) false) w d Hd)
    as (c & w1 & Hrun & Hc & Hruns & d1 & Hd1 & Hpq).
  rewrite (M_bind_step _ _ _ _ _ _ _ _ Hrun). subst spec. rewrite chunks_step by done. cbn [chunk_args].
  destruct (map_ok (call_code c)) eqn:Hok.
  2:{ exists [c], w1. split_and!; [done|done| | |done].
      - simpl. rewrite Hc. eexists. reflexivity.
      - right. exists [], c. split; [done|]. unfold call_ok. by rewrite Hok. }
  destruct (IH fuel (S i) (addr + Z.min size GpuMemoryChunkSize) (call_code c) w1 d1 Hd1)
    as (calls & w2 & Hrun2 & Hr2 & Hargs & Hend & Hall); [lia..|].
  exists (c :: calls), w2. rewrite Hrun2. rewrite Hpq in *. split_and!.
  - destruct calls as [|x l]; [done|]. rewrite last_cons_cons.
    by destruct (last (x :: l)) eqn:E; [|apply last_None in E].
  - by eapply runs_cons.
  - simpl. rewrite Hc. by apply prefix_cons.
  - destruct Hend as [He|(pre & b & -> & Hb)]; [left; by rewrite fmap_cons, Hc, He|].
    right. by exists (c :: pre), b.
  - destruct calls; [done|]. by constructor.
Qed.
End loops.
End map.

(** ** The member functions *)

Lemma skip_loop_spec fuel i offset :
  0 <= offset < 2 ^ 64 -> (Z.to_nat (offset / GpuMemoryChunkSize) <= fuel)%nat ->
  skip_loop fuel i offset =
    ((i + Z.to_nat (offset / GpuMemoryChunkSize))%nat, offset mod GpuMemoryChunkSize).
Proof.
  chunk_size. revert i offset. induction fuel as [|fuel IH]; intros i offset Ho Hf; simpl.
  - pose proof (Z.div_pos offset GpuMemoryChunkSize ltac:(lia) ltac:(lia)).
    pose proof (Z.div_mod offset GpuMemoryChunkSize ltac:(lia)).
    assert (offset / GpuMemoryChunkSize = 0) as Hz by lia. f_equal; [|lia]. rewrite Hz. lia.
  - case_zbool.
    + assert (offset / GpuMemoryChunkSize = (offset - GpuMemoryChunkSize) / GpuMemoryChunkSize + 1) as Hd.
      { replace offset with (offset - GpuMemoryChunkSize + 1 * GpuMemoryChunkSize) at 1 by lia. apply Z.div_add. lia. }
      pose proof (Z.div_pos (offset - GpuMemoryChunkSize) GpuMemoryChunkSize ltac:(lia) ltac:(lia)).
      rewrite sub64_small, IH by lia. f_equal; [lia|].
      replace offset with (offset - GpuMemoryChunkSize + 1 * GpuMemoryChunkSize) at 2 by lia.
      by rewrite Z.mod_add by lia.
    + by rewrite Z.div_small, Z.mod_small, Nat.add_0_r by lia.
Qed.

Lemma skip_chunks_spec offset :
  0 <= offset < 2 ^ 64 ->
  skip_chunks offset = (Z.to_nat (offset / GpuMemoryChunkSize), offset mod GpuMemoryChunkSize).
Proof. intros. unfold skip_chunks. by rewrite skip_loop_spec. Qed.

Lemma map_fuel_enough size : 0 <= size -> (chunk_count size <= map_fuel size)%nat.
Proof.
  chunk_size. intros. unfold chunk_count, map_fuel.
  assert ((size + GpuMemoryChunkSize - 1) / GpuMemoryChunkSize <= size / GpuMemoryChunkSize + 1); [|lia].
  replace (size / GpuMemoryChunkSize + 1) with ((size + 1 * GpuMemoryChunkSize) / GpuMemoryChunkSize)
    by (rewrite Z.div_add; lia).
  apply Z.div_le_mono; lia.
Qed.

(** What a call to one of the member functions needs: a live object on a device
    of the table, a range that does not wrap and enough chunks. *)
Record mappable {K} (w : World K) (p : Z) (g : GpuMemory) (d : WDDMDevice) (handles : list Z)
    (addr size offset : Z) : Prop := {
  mp_mem : w_mems w !! p = Some g;
  mp_dev : w_devs w !! device_ g = Some d;
  mp_handles : alloc_handles_ptr_ g = Some handles;
  mp_addr : 0 <= addr;
  mp_size : 0 <= size;
  mp_end : addr + size < 2 ^ 64;
  mp_offset : 0 <= offset < 2 ^ 64;
  mp_chunks : (Z.to_nat (offset / GpuMemoryChunkSize) + chunk_count size <= length handles)%nat;
}.

Section members.
Context {K : Type} `{Kernel K}.
Implicit Types (w : World K).

(** The outcome of a mapping: everything mapped, or a failed call after which
    the chunks mapped before it are undone. *)
Lemma MapGpuVirtualAddress_runs w p g d handles addr size offset :
  mappable w p g d handles addr size offset ->
  let first := Z.to_nat (offset / GpuMemoryChunkSize) in
  let off := offset mod GpuMemoryChunkSize in
  let spec := chunk_args true (page_queue_ d) handles first off (chunks addr size) in
  (exists calls w', GpuMemory_MapGpuVirtualAddress p addr size offset w = Some (Success, w') /\
     runs (device_ g) w w' (map_event <$> calls) /\ calls.*1 = spec /\ Forall call_ok calls) \/
  (exists calls c undo w', GpuMemory_MapGpuVirtualAddress p addr size offset w = Some (call_code c, w') /\
     runs (device_ g) w w' (map_event <$> (calls ++ [c]) ++ undo) /\
     (calls ++ [c]).*1 `prefix_of` spec /\ Forall call_ok calls /\ ~ call_ok c /\
     undo.*1 = undo_args (page_queue_ d) off <$> take (length calls) (chunks addr size)).
Proof.
  intros [Hm Hd Hh Ha Hs He Ho Hc] first off spec. unfold GpuMemory_MapGpuVirtualAddress.
  erewrite M_bind_step by (unfold get_mem; by rewrite Hm).
  rewrite skip_chunks_spec by done. fold first off.
  destruct (map_loop_spec g handles Hh size (map_fuel size) first addr off 0 w d Hd) as
    [(calls & w1 & Hrun & Hr & Hargs & Hall)|(calls & c & w1 & Hrun & Hr & Hargs & Hall & Hbad)];
    [lia|lia|lia|done|by apply map_fuel_enough| |].
  - left. exists calls, w1. rewrite (M_bind_step _ _ _ _ _ _ _ _ Hrun). done.
  - right. rewrite (M_bind_step _ _ _ _ _ _ _ _ Hrun).
    assert (length calls <= chunk_count size)%nat.
    { apply prefix_length in Hargs. rewrite length_fmap, length_app in Hargs. simpl in Hargs.
      assert (length (chunk_args true (page_queue_ d) handles first off (chunks addr size)) =
              length (chunks addr size)) as E.
      { generalize (chunks addr size) as l, first as i, off as o. induction l as [|[??] l IH]; intros; simpl; [done|].
        by rewrite IH. }
      rewrite E, chunks_length in Hargs. lia. }
    pose proof (runs_dev _ _ _ _ _ Hr Hd) as Hd1.
    destruct (unmap_partial_spec g off size (length calls) addr w1 _ Hd1) as (undo & w2 & Hrun2 & Hr2 & Hu); [lia..|].
    exists calls, c, undo, w2. split_and!; [|rewrite fmap_app; by eapply runs_trans|done|done|done|done].
    assert (ErrorCode_ok (call_code c) = false) as ->.
    { unfold call_ok, map_ok in Hbad. destruct (ErrorCode_ok (call_code c)); [|done]. by rewrite orb_true_r in Hbad. }
    by rewrite (M_bind_step _ _ _ _ _ _ _ _ Hrun2).
Qed.

Lemma chunk_args_covers write pq handles i off cs lo hi :
  covers cs lo hi -> Forall (fun c => c.2 mod 0x1000 = 0) cs ->
  covers ((fun a => (map_BaseAddress a, map_SizeInPages a * 0x1000)) <$> chunk_args write pq handles i off cs) lo hi.
Proof.
  revert lo i off. induction cs as [|[a n] cs IH]; intros lo i off; simpl; [done|].
  intros (-> & Hn & Hcov) [Hm Hall]%Forall_cons. simpl in Hm.
  assert (n / 0x1000 * 0x1000 = n) as -> by (pose proof (Z.div_mod n 0x1000 ltac:(lia)); lia).
  split_and!; [done|lia|lia|]. by apply IH.
Qed.

Lemma chunks_page_aligned size : forall addr,
  0 <= size -> size mod 0x1000 = 0 -> Forall (fun c => c.2 mod 0x1000 = 0) (chunks addr size).
Proof.
  chunk_size. induction size as [size ?|size ? IH] using chunks_ind; intros addr Hs Hm.
  { rewrite chunks_nil by lia. constructor. }
  assert (Z.min size GpuMemoryChunkSize mod 0x1000 = 0) as Hmin.
  { destruct (Z.le_gt_cases size GpuMemoryChunkSize); [by rewrite Z.min_l by lia|].
    rewrite Z.min_r, HC by lia. done. }
  rewrite chunks_step by done. constructor; [done|]. apply IH; [lia|].
  rewrite Zminus_mod, Hm, Hmin. done.
Qed.
End members.
