(* ===== verification/GpuMemorySpec.v ===== *)
(** * GpuMemorySpec: what mapping and unmapping guarantee

    Whatever the driver answers: a mapping is complete or undone, complete
    mappings tile their range, and the paging fence the library then waits on
    covers every pending update. *)

From S2P Require Import Prelude.
From S2P Require Import StdMap.
From S2P Require Import BitField.
From S2P Require Import Utils.
From S2P Require Import VaMgr.
From S2P Require Import Status.
From S2P Require Import World.
From S2P Require Import Runtime.
From S2P Require Import Device.
From S2P Require Import GpuMemory.
From S2P Require Import Demo.
From S2P Require Import MapSpec.
#[local] Open Scope Z_scope.

Section claims.
Context {K : Type} `{Kernel K}.
Implicit Types (w : World K).

(** C9: [MapGpuVirtualAddress] never runs out of chunks and ends in one of two
    ways, for every answer of the driver: it returns success after exactly one
    accepted call per chunk, in order, with the chunk's handle and offset; or it
    returns the code of the first call the driver rejected, after unmapping
    exactly the chunks accepted before it. Nothing but the log and the device's
    paging fence changes. *)
Theorem GpuMemory_Map_outcome w p g d handles addr size offset :
  mappable w p g d handles addr size offset ->
  let first := Z.to_nat (offset / GpuMemoryChunkSize) in
  let off := offset mod GpuMemoryChunkSize in
  let spec := chunk_args true (page_queue_ d) handles first off (chunks addr size) in
  exists code calls undo w',
    GpuMemory_MapGpuVirtualAddress p addr size offset w = Some (code, w') /\
    runs (device_ g) w w' (map_event <$> calls ++ undo) /\
    ((code = Success /\ calls.*1 = spec /\ Forall call_ok calls /\ undo = []) \/
     (exists accepted c, calls = accepted ++ [c] /\ code = call_code c /\ ~ call_ok c /\
        Forall call_ok accepted /\ calls.*1 `prefix_of` spec /\
        undo.*1 = undo_args (page_queue_ d) off <$> take (length accepted) (chunks addr size))).
Proof.
  intros Hm. destruct (MapGpuVirtualAddress_runs w p g d handles addr size offset Hm) as
    [(calls & w' & ? & ? & ? & ?)|(calls & c & undo & w' & ? & ? & ? & ? & ? & ?)].
  - exists Success, calls, [], w'. rewrite app_nil_r. eauto 10.
  - exists (call_code c), (calls ++ [c]), undo, w'. split_and!; [done|done|]. right. eauto 10.
Qed.

(** C27: When [MapGpuVirtualAddress] succeeds on a page-aligned size, the page
    ranges of its calls tile [addr, addr + size): consecutive, without gap or
    overlap, none larger than a chunk. *)
Theorem GpuMemory_Map_covers w p g d handles addr size offset w' :
  mappable w p g d handles addr size offset -> size mod 0x1000 = 0 ->
  GpuMemory_MapGpuVirtualAddress p addr size offset w = Some (Success, w') ->
  exists evs, w_log w' = w_log w ++ evs /\
    covers ((fun c => (map_BaseAddress c.1, map_SizeInPages c.1 * 0x1000)) <$> map_calls evs) addr (addr + size).
Proof.
  intros Hm Hs Hrun. destruct (MapGpuVirtualAddress_runs w p g d handles addr size offset Hm) as
    [(calls & w1 & Hrun' & (_ & Hl & _) & Hargs & _)|(calls & c & undo & w1 & Hrun' & _ & _ & _ & Hbad & _)];
    rewrite Hrun in Hrun'; [injection Hrun' as <-|injection Hrun' as Hcode <-].
  - exists (map_event <$> calls). split; [done|].
    assert ((fun c => (map_BaseAddress c.1, map_SizeInPages c.1 * 0x1000)) <$> map_calls (map_event <$> calls) =
            (fun a => (map_BaseAddress a, map_SizeInPages a * 0x1000)) <$> calls.*1) as ->.
    { clear. induction calls as [|c calls IH]; [done|]. simpl. by f_equal. }
    rewrite Hargs. apply chunk_args_covers; [by apply chunks_cover, (mp_size _ _ _ _ _ _ _ _ Hm)|].
    apply chunks_page_aligned; [by apply (mp_size _ _ _ _ _ _ _ _ Hm)|done].
  - unfold call_ok, map_ok in Hbad. rewrite <- Hcode in Hbad. done.
Qed.

Lemma foldl_fence_max l : forall v, v <= foldl fence_max v l /\ Forall (fun x => x <= foldl fence_max v l) l.
Proof.
  induction l as [|x l IH]; intros v; simpl; [split; [lia|done]|].
  destruct (IH (fence_max v x)) as [Hle Hall].
  assert (v <= fence_max v x /\ x <= fence_max v x) by (unfold fence_max; case_zbool; lia).
  split; [lia|]. constructor; [lia|done].
Qed.

(** After [MapGpuVirtualAddress], successful or not, the paging fence of the
    device is at least its old value and at least every fence value the driver
    left pending in its calls, so a wait on it covers all of them. *)
Theorem GpuMemory_Map_fence w p g d handles addr size offset :
  mappable w p g d handles addr size offset ->
  exists code evs d' w',
    GpuMemory_MapGpuVirtualAddress p addr size offset w = Some (code, w') /\
    w_log w' = w_log w ++ evs /\ w_devs w' !! device_ g = Some d' /\
    page_fence_value_ d <= page_fence_value_ d' /\
    forall e v, e ∈ evs -> as_fence e = Some v -> v <= page_fence_value_ d'.
Proof.
  intros Hm.
  assert (exists code evs w', GpuMemory_MapGpuVirtualAddress p addr size offset w = Some (code, w') /\
            runs (device_ g) w w' evs) as (code & evs & w' & Hrun & Hr).
  { destruct (MapGpuVirtualAddress_runs w p g d handles addr size offset Hm) as
      [(calls & w' & ? & ? & _)|(calls & c & undo & w' & ? & ? & _)]; eauto. }
  pose proof (runs_dev _ _ _ _ _ Hr (mp_dev _ _ _ _ _ _ _ _ Hm)) as Hd'.
  exists code, evs. eexists. exists w'. split_and!; [done|apply Hr|exact Hd'|apply foldl_fence_max|].
  intros e v He Hf. simpl.
  pose proof (proj2 (foldl_fence_max (omap as_fence evs) (page_fence_value_ d))) as Hall.
  apply (proj1 (Forall_forall _ _) Hall). apply list_elem_of_omap. by exists e.
Qed.

(** [UnmapGpuVirtualAddress] calls the driver once per chunk in order until a
    call is rejected, and returns the code of its last call: a pending last call
    is reported as [NotReady], unlike in [MapGpuVirtualAddress]. *)
Theorem GpuMemory_Unmap_outcome w p g d handles addr size offset :
  mappable w p g d handles addr size offset ->
  let first := Z.to_nat (offset / GpuMemoryChunkSize) in
  let spec := chunk_args false (page_queue_ d) handles first 0 (chunks addr size) in
  exists calls w',
    GpuMemory_UnmapGpuVirtualAddress p addr size offset w =
      Some (from_option call_code Success (last calls), w') /\
    runs (device_ g) w w' (map_event <$> calls) /\ calls.*1 `prefix_of` spec /\
    (calls.*1 = spec \/ exists accepted c, calls = accepted ++ [c] /\ ~ call_ok c) /\
    Forall call_ok (removelast calls).
Proof.
  intros [Hm Hd Hh Ha Hs He Ho Hc] first spec. unfold GpuMemory_UnmapGpuVirtualAddress.
  erewrite M_bind_step by (unfold get_mem; by rewrite Hm).
  rewrite skip_chunks_spec by done. fold first.
  destruct (unmap_loop_spec g handles Hh size (map_fuel size) first addr Success w d Hd)
    as (calls & w' & Hrun & ?); [lia|lia|lia|done|by apply map_fuel_enough|].
  exists calls, w'. done.
Qed.

(** Mapping from an offset inside a chunk overruns the chunk: the first block
    is sized as if it started at the chunk's beginning, so for a size of at least
    one chunk its page range ends [offset] bytes past the end of the 2 GB
    allocation it names. *)
Theorem GpuMemory_Map_offset_overruns w p g d handles addr size offset :
  mappable w p g d handles addr size offset -> GpuMemoryChunkSize <= size ->
  0 < offset mod GpuMemoryChunkSize -> offset mod 0x1000 = 0 ->
  exists code c evs w',
    GpuMemory_MapGpuVirtualAddress p addr size offset w = Some (code, w') /\
    w_log w' = w_log w ++ map_event c :: evs /\
    (map_OffsetInPages c.1 + map_SizeInPages c.1) * 0x1000 =
      GpuMemoryChunkSize + offset mod GpuMemoryChunkSize.
Proof.
  chunk_size. intros Hm Hs Ho Ha.
  assert (exists code calls c undo w', GpuMemory_MapGpuVirtualAddress p addr size offset w = Some (code, w') /\
     w_log w' = w_log w ++ (map_event <$> (c :: calls) ++ undo) /\
     (c :: calls).*1 `prefix_of` chunk_args true (page_queue_ d) handles
       (Z.to_nat (offset / GpuMemoryChunkSize)) (offset mod GpuMemoryChunkSize) (chunks addr size))
    as (code & calls & c & undo & w' & Hrun & Hl & Hp).
  { destruct (MapGpuVirtualAddress_runs w p g d handles addr size offset Hm) as
      [(calls & w' & Hrun & (_ & Hl & _) & Hargs & _)|(calls & c & undo & w' & Hrun & (_ & Hl & _) & Hp & _)].
    - destruct calls as [|c calls].
      { rewrite chunks_step in Hargs by lia. done. }
      exists Success, calls, c, [], w'. rewrite app_nil_r. split_and!; [done|done|by rewrite Hargs].
    - destruct calls as [|c' calls]; [exists (call_code c), [], c, undo, w'|exists (call_code c), (calls ++ [c]), c', undo, w'];
        done. }
  exists code, c. eexists. exists w'. split_and!; [done|exact Hl|].
  rewrite chunks_step in Hp by lia. apply prefix_cons_inv_1 in Hp. rewrite Hp. simpl.
  rewrite Z.min_r by lia. rewrite HC in *.
  assert ((offset mod 2147483648) mod 0x1000 = 0) as Hal.
  { rewrite (Z.mod_eq offset 2147483648), Zminus_mod, Ha by lia.
    replace (2147483648 * (offset / 2147483648)) with (524288 * (offset / 2147483648) * 0x1000) by lia.
    by rewrite Z_mod_mult. }
  pose proof (Z.div_mod (offset mod 2147483648) 0x1000 ltac:(lia)).
  change (2147483648 / 0x1000) with 524288. lia.
Qed.
End claims.

(** ** Witnesses *)

(** An object of 5 GB in three chunks. *)
Definition demo_mem : GpuMemory :=
  mkGpuMemory 0 (mkGpuMemoryDesc kLocal demo_luid 0x100000000 0 0x140000000 0x140000000 0 0 0 0 0)
    3 (Some [101; 102; 103]) 0 (-1).

(** The second mapping call is rejected. *)
Definition demo_map_world : World DemoKernel :=
  set_mems {[ 0x4000 := demo_mem ]} (demo_world [STATUS_PENDING; STATUS_NO_MEMORY]).

Lemma demo_mappable offset size :
  0 <= offset <= GpuMemoryChunkSize -> 0 <= size <= GpuMemoryChunkSize * 2 ->
  mappable demo_map_world 0x4000 demo_mem demo_dev [101; 102; 103] 0x100000000 size offset.
Proof.
  chunk_size. intros. constructor; try done; try lia.
  assert (offset / GpuMemoryChunkSize < 2) by (apply Z.div_lt_upper_bound; lia).
  assert ((size + GpuMemoryChunkSize - 1) / GpuMemoryChunkSize < 3) by (apply Z.div_lt_upper_bound; lia).
  unfold chunk_count. simpl length. lia.
Qed.

Lemma GpuMemory_Map_outcome_witness :
  exists calls undo w',
    GpuMemory_MapGpuVirtualAddress 0x4000 0x100000000 0x100000000 0 demo_map_world = Some (OutOfMemory, w') /\
    w_log w' = (map_event <$> calls ++ undo) /\ length calls = 2%nat /\ length undo = 1%nat.
Proof.
  destruct (GpuMemory_Map_outcome demo_map_world 0x4000 demo_mem demo_dev [101; 102; 103] 0x100000000 0x100000000 0)
    as (code & calls & undo & w' & Hrun & (_ & Hl & _) & [(-> & _)|(acc & c & -> & -> & _ & _ & _ & Hu)]).
  { apply demo_mappable; rewrite GpuMemoryChunkSize_value; lia. }
  { exfalso. vm_compute in Hrun. discriminate. }
  exists (acc ++ [c]), undo, w'.
  assert (length acc = 1%nat) as Ha.
  { assert (length (w_log w') = 3%nat) as L3 by (vm_compute in Hrun; injection Hrun as _ <-; reflexivity).
    apply (f_equal length) in Hu.
    rewrite !length_fmap, length_take, chunks_length in Hu.
    rewrite Hl in L3. simpl in L3. rewrite length_fmap, !length_app in L3. simpl in L3.
    assert (chunk_count 0x100000000 = 2%nat) as E2 by reflexivity. rewrite E2 in Hu. lia. }
  split_and!.
  - rewrite Hrun. vm_compute in Hrun. injection Hrun as -> _. reflexivity.
  - exact Hl.
  - rewrite length_app, Ha. reflexivity.
  - apply (f_equal length) in Hu. rewrite !length_fmap, length_take, chunks_length, Ha in Hu. exact Hu.
Defined.

(** Nothing fails. *)
Definition demo_ok_world : World DemoKernel := set_mems {[ 0x4000 := demo_mem ]} (demo_world [STATUS_PENDING]).

Lemma demo_ok_mappable offset size :
  0 <= offset <= GpuMemoryChunkSize -> 0 <= size <= GpuMemoryChunkSize * 2 ->
  mappable demo_ok_world 0x4000 demo_mem demo_dev [101; 102; 103] 0x100000000 size offset.
Proof. intros Ho Hs. by destruct (demo_mappable offset size Ho Hs). Qed.

Lemma GpuMemory_Map_covers_witness :
  exists w' evs,
    GpuMemory_MapGpuVirtualAddress 0x4000 0x100000000 0x100000000 0 demo_ok_world = Some (Success, w') /\
    covers ((fun c => (map_BaseAddress c.1, map_SizeInPages c.1 * 0x1000)) <$> map_calls evs)
      0x100000000 0x200000000.
Proof.
  eexists.
  destruct (GpuMemory_Map_covers demo_ok_world 0x4000 demo_mem demo_dev [101; 102; 103]
              0x100000000 0x100000000 0 _ ltac:(apply demo_ok_mappable; rewrite GpuMemoryChunkSize_value; lia)
              eq_refl ltac:(vm_compute; reflexivity)) as (evs & _ & Hc).
  exists evs. split; [vm_compute; reflexivity|exact Hc].
Defined.

Lemma GpuMemory_Map_fence_witness :
  exists code d' w',
    GpuMemory_MapGpuVirtualAddress 0x4000 0x100000000 0x100000000 0 demo_ok_world = Some (code, w') /\
    w_devs w' !! 0%nat = Some d' /\ 3 <= page_fence_value_ d'.
Proof.
  destruct (GpuMemory_Map_fence demo_ok_world 0x4000 demo_mem demo_dev [101; 102; 103] 0x100000000 0x100000000 0
              ltac:(apply demo_ok_mappable; rewrite GpuMemoryChunkSize_value; lia))
    as (code & evs & d' & w' & Hrun & _ & Hd & Hle & _).
  exists code, d', w'. split_and!; [exact Hrun|exact Hd|exact Hle].
Defined.

Lemma GpuMemory_Unmap_outcome_witness :
  exists w', GpuMemory_UnmapGpuVirtualAddress 0x4000 0x100000000 0x1000 0 demo_ok_world = Some (NotReady, w').
Proof.
  destruct (GpuMemory_Unmap_outcome demo_ok_world 0x4000 demo_mem demo_dev [101; 102; 103] 0x100000000 0x1000 0
              ltac:(apply demo_ok_mappable; rewrite GpuMemoryChunkSize_value; lia)) as (calls & w' & Hrun & _).
  generalize dependent (from_option call_code Success (last calls)). intros code Hrun.
  exists w'. rewrite Hrun. vm_compute in Hrun. injection Hrun as <- _. reflexivity.
Defined.

Lemma GpuMemory_Map_offset_overruns_witness :
  exists code (c : MapArgs * (NTSTATUS * Z)) w',
    GpuMemory_MapGpuVirtualAddress 0x4000 0x100000000 0x80000000 0x1000 demo_ok_world = Some (code, w') /\
    (map_OffsetInPages c.1 + map_SizeInPages c.1) * 0x1000 = GpuMemoryChunkSize + 0x1000.
Proof.
  destruct (GpuMemory_Map_offset_overruns demo_ok_world 0x4000 demo_mem demo_dev [101; 102; 103]
              0x100000000 0x80000000 0x1000
              ltac:(apply demo_ok_mappable; rewrite GpuMemoryChunkSize_value; lia)
              ltac:(rewrite GpuMemoryChunkSize_value; lia) ltac:(rewrite GpuMemoryChunkSize_value; reflexivity)
              eq_refl) as (code & c & evs & w' & Hrun & _ & Hc).
  exists code, c, w'. split; [exact Hrun|].
  rewrite Hc, GpuMemoryChunkSize_value. reflexivity.
Defined.
