(* ===== verification/CreateSpec.v ===== *)
(** * CreateSpec: creating local memory is all or nothing

    [CreateGpuMemory] on the local heap, for every answer of the driver: on
    success the object owns a fresh block of the heap, on failure the heap has
    the same live blocks as before, the object is gone and every physical
    allocation the driver had granted has been handed back. *)

From S2P Require Import Prelude.
From S2P Require Import StdMap.
From S2P Require Import BitField.
From S2P Require Import Utils.
From S2P Require Import VaMgr.
From S2P Require Import VaMgrSpec.
From S2P Require Import SimpleHeap.
From S2P Require Import Status.
From S2P Require Import World.
From S2P Require Import Runtime.
From S2P Require Import Device.
From S2P Require Import GpuMemory.
From S2P Require Import Demo.
From S2P Require Import MapSpec.
#[local] Open Scope Z_scope.

(** ** Physical allocations in a log *)

(** A granted [D3DKMTCreateAllocation2]: its resource and its handles. *)
Definition as_created (e : kevent) : option (Z * list Z) :=
  match e with
  | KEvent c r =>
      match c in kcall R return R -> option (Z * list Z) with
      | D3DKMTCreateAllocation2 args => fun r =>
          if decide (r.1 = STATUS_SUCCESS) then Some (r.2.1, resize (length (ca_info args)) 0 r.2.2) else None
      | _ => fun _ => None
      end r
  end.

Definition as_destroyed (e : kevent) : option (Z * list Z) :=
  match e with
  | KEvent c r =>
      match c in kcall R return R -> option (Z * list Z) with
      | D3DKMTDestroyAllocation2 _ res hs => fun _ => Some (res, hs)
      | _ => fun _ => None
      end r
  end.

Definition created (l : list kevent) : list (Z * list Z) := omap as_created l.
Definition destroyed (l : list kevent) : list (Z * list Z) := omap as_destroyed l.

(** What the driver is told to destroy for a grant: the resource, or the handles
    when there is no resource. A single chunk with handle 0 is nothing. *)
Definition released (l : list kevent) (c : Z * list Z) : Prop :=
  c.2 = [0] \/ (c.1, if c.1 =? 0 then c.2 else []) ∈ destroyed l.

Definition no_leak (l : list kevent) : Prop := Forall (released l) (created l).

Lemma released_app l1 l2 c : released l1 c \/ released l2 c -> released (l1 ++ l2) c.
Proof. unfold released, destroyed. rewrite omap_app, elem_of_app. naive_solver. Qed.

Lemma no_leak_app l1 l2 : no_leak l1 -> no_leak l2 -> no_leak (l1 ++ l2).
Proof.
  unfold no_leak, created. rewrite omap_app, Forall_app. intros H1 H2.
  split; eapply Forall_impl; eauto using released_app.
Qed.

Lemma no_leak_nil : no_leak [].
Proof. by constructor. Qed.

Lemma no_leak_created l : created l = [] -> no_leak l.
Proof. unfold no_leak. by intros ->. Qed.

Lemma created_maps calls : created (map_event <$> calls) = [].
Proof. induction calls; [done|]. simpl. done. Qed.

(** ** What may change *)

Definition local_mgr {K} (w : World K) : option VaMgr := space_mgr (local_heap (w_rt w)).
Definition local_live {K} (w : World K) : gmap Z Z := from_option allocated ∅ (local_mgr w).

Definition set_local {K} (m : VaMgr) (w : World K) : World K :=
  let s := local_heap (w_rt w) in
  set_rt (rt_local_heap (mkHeapSpace (space_start s) (space_size s) (Some m)) (w_rt w)) w.

(** From [w] to [w'] with the calls [evs]: the objects, the local manager and the
    paging fence of device [i] may differ, nothing else. *)
Record evolves {K} (i : nat) (w w' : World K) (evs : list kevent) : Prop := {
  ev_log : w_log w' = w_log w ++ evs;
  ev_devs : w_devs w' = alter (bump (omap as_fence evs)) i (w_devs w);
  ev_rt : rt_local_heap (local_heap (w_rt w)) (w_rt w') = w_rt w;
  ev_amap : w_amap w' = w_amap w;
  ev_fa : w_fa w' = w_fa w;
  ev_nodes : w_nodes w' = w_nodes w;
  ev_next : w_next w <= w_next w';
}.

Section evolves.
Context {K : Type}.
Implicit Types (w : World K).

Lemma evolves_runs i w w' evs : runs i w w' evs -> evolves i w w' evs.
Proof. intros ((Hrt & ? & Hn & ? & ? & ? & ?) & ? & ?). constructor; try done; [rewrite Hrt; by destruct (w_rt w)|lia]. Qed.

Lemma evolves_trans i w w1 w2 e1 e2 : evolves i w w1 e1 -> evolves i w1 w2 e2 -> evolves i w w2 (e1 ++ e2).
Proof.
  intros [L1 D1 R1 A1 F1 N1 X1] [L2 D2 R2 A2 F2 N2 X2]. constructor.
  - by rewrite L2, L1, <- app_assoc.
  - by rewrite D2, D1, omap_app, alter_bump_app.
  - etransitivity; [|exact R1]. rewrite <- R2. by destruct (w_rt w2).
  - by rewrite A2.
  - by rewrite F2.
  - by rewrite N2.
  - lia.
Qed.

Lemma evolves_refl i w : evolves i w w [].
Proof. apply evolves_runs, runs_refl. Qed.

Lemma evolves_mems i w m : evolves i w (set_mems m w) [].
Proof. destruct (evolves_refl i w). by constructor. Qed.

Lemma evolves_next i w n : w_next w <= n -> evolves i w (set_next n w) [].
Proof. intros. destruct (evolves_refl i w). by constructor. Qed.

Lemma evolves_local i w m : evolves i w (set_local m w) [].
Proof. destruct (evolves_refl i w). constructor; try done; simpl; by destruct (w_rt w). Qed.

Lemma evolves_dev i w w' evs d :
  evolves i w w' evs -> w_devs w !! i = Some d -> w_devs w' !! i = Some (bump (omap as_fence evs) d).
Proof. intros [_ -> _ _ _ _ _] Hd. by rewrite list_lookup_alter_eq, Hd. Qed.

Lemma runs_local i w w' evs : runs i w w' evs -> local_mgr w' = local_mgr w.
Proof. intros ((Hrt & _) & _). unfold local_mgr. by rewrite Hrt. Qed.

Lemma runs_mems i w w' evs : runs i w w' evs -> w_mems w' = w_mems w.
Proof. by intros ((_ & ? & _) & _). Qed.

Context `{Kernel K}.

(** A call that leaves no fence is a run of one event. *)
Lemma kcall_runs {R} (c : kcall R) i w :
  (forall r, as_fence (KEvent c r) = None) ->
  exists r w', kcall_ c w = Some (r, w') /\ runs i w w' [KEvent c r].
Proof.
  intros Hf. unfold kcall_. destruct (kernel_step R c (w_ker w)) as [r k].
  exists r, (log_call k (KEvent c r) w). split; [done|]. split_and!; [done|done|].
  simpl. specialize (Hf r). simpl in Hf.
  rewrite Hf. by rewrite alter_bump_nil.
Qed.

(** ** Following one object *)

(** The object [p] is [g] and the local manager is [m]. *)
Definition holds (p : Z) (g : GpuMemory) (m : VaMgr) w : Prop :=
  w_mems w !! p = Some g /\ is_Some (w_devs w !! device_ g) /\ local_mgr w = Some m.

(** From [w], the object [p] becomes [g] and the local manager [m]. *)
Definition moved (i : nat) (p : Z) w w' (evs : list kevent) (g : GpuMemory) (m : VaMgr) : Prop :=
  evolves i w w' evs /\ w_mems w' = <[p := g]> (w_mems w) /\ local_mgr w' = Some m.

Lemma moved_holds i p w w' evs g0 g m0 m :
  holds p g0 m0 w -> moved i p w w' evs g m -> device_ g = device_ g0 -> holds p g m w'.
Proof.
  intros (Hp & [d Hd] & Hm) (He & Hmem & Hm') Hg. split_and!; [|rewrite Hg|done].
  - rewrite Hmem. apply lookup_insert_eq.
  - rewrite (ev_devs _ _ _ _ He). destruct (decide (i = device_ g0)) as [->|].
    + rewrite list_lookup_alter_eq, Hd. by eexists.
    + rewrite list_lookup_alter_ne by done. by eexists.
Qed.

Lemma moved_trans i p w w1 w2 e1 e2 g1 g2 m1 m2 :
  moved i p w w1 e1 g1 m1 -> moved i p w1 w2 e2 g2 m2 -> moved i p w w2 (e1 ++ e2) g2 m2.
Proof.
  intros (? & E1 & _) (? & E2 & ?). split_and!; [by eapply evolves_trans| |done].
  by rewrite E2, E1, insert_insert_eq.
Qed.

Lemma moved_runs i p w w' evs g m : holds p g m w -> runs i w w' evs -> moved i p w w' evs g m.
Proof.
  intros (Hp & _ & Hm) Hr. split_and!; [by apply evolves_runs| |].
  - rewrite (runs_mems _ _ _ _ Hr). symmetry. by apply insert_id.
  - by rewrite (runs_local _ _ _ _ Hr).
Qed.

Lemma moved_set i p w g g' m : holds p g m w -> moved i p w (set_mems (<[p := g']> (w_mems w)) w) [] g' m.
Proof. intros (_ & _ & Hm). split_and!; [apply evolves_mems|done|done]. Qed.

Lemma moved_local i p w g m m' : holds p g m w -> moved i p w (set_local m' w) [] g m'.
Proof. intros (Hp & _ & _). split_and!; [apply evolves_local|symmetry; by apply insert_id|done]. Qed.

Lemma moved_refl i p w g m : holds p g m w -> moved i p w w [] g m.
Proof. intros. apply moved_runs; [done|apply runs_refl]. Qed.

Lemma get_mem_holds p g m w : holds p g m w -> get_mem p w = Some (g, w).
Proof. intros (Hp & _). unfold get_mem. by rewrite Hp. Qed.

Lemma set_mem_holds p g g' m w : holds p g m w -> set_mem p g' w = Some (tt, set_mems (<[p := g']> (w_mems w)) w).
Proof. intros (Hp & _). unfold set_mem. by rewrite Hp. Qed.

Lemma get_dev_holds p g m w : holds p g m w -> exists d, get_dev (device_ g) w = Some (d, w) /\ w_devs w !! device_ g = Some d.
Proof. intros (_ & [d Hd] & _). exists d. unfold get_dev. by rewrite Hd. Qed.

(** ** The driver calls one by one *)

Lemma dx_runs {R} (c : kcall (NTSTATUS * R)) i w :
  (forall r, as_fence (KEvent c r) = None) ->
  exists r w', dx c w = Some ((TranslateNtStatus r.1, r.2), w') /\ runs i w w' [KEvent c r].
Proof.
  intros Hf. destruct (kcall_runs c i w Hf) as (r & w' & Hrun & ?). exists r, w'. split; [|done].
  unfold dx. by erewrite M_bind_step by exact Hrun.
Qed.

Lemma dx__runs (c : kcall NTSTATUS) i w :
  (forall r, as_fence (KEvent c r) = None) ->
  exists r w', dx_ c w = Some (TranslateNtStatus r, w') /\ runs i w w' [KEvent c r].
Proof.
  intros Hf. destruct (kcall_runs c i w Hf) as (r & w' & Hrun & ?). exists r, w'. split; [|done].
  unfold dx_. by erewrite M_bind_step by exact Hrun.
Qed.

Lemma ErrorCode_ok_status r : ErrorCode_ok (TranslateNtStatus r) = bool_decide (r = STATUS_SUCCESS).
Proof. by destruct r. Qed.

Lemma length_alloc_infos n d in_cpu : forall size addr cpu_addr, length (alloc_infos n d in_cpu size addr cpu_addr) = n.
Proof. induction n as [|n IH]; intros; simpl; by rewrite ?IH. Qed.

(** [CreatePhysicalMemory]: all the handles or none. *)
Lemma CreatePhysicalMemory_moved p g m w hs :
  holds p g m w -> IsVirtual g = false -> 0 < num_allocations_ g -> alloc_handles_ptr_ g = Some hs ->
  exists code w' evs g', CreatePhysicalMemory p w = Some (code, w') /\ moved (device_ g) p w w' evs g' m /\
    omap as_fence evs = [] /\
    ((code = Success /\ exists res hs', length hs' = Z.to_nat (num_allocations_ g) /\
        created evs = [(res, hs')] /\ g' = with_resource res (with_handles (Some hs') g)) \/
     (code <> Success /\ created evs = [] /\ g' = g)).
Proof.
  intros Hh Hv Hn Ha. destruct (get_dev_holds _ _ _ _ Hh) as (d & Hd & _).
  unfold CreatePhysicalMemory. rewrite (M_bind_step _ _ _ _ _ _ _ _ (get_mem_holds _ _ _ _ Hh)).
  rewrite Hv, (proj2 (Z.ltb_lt _ _) Hn). erewrite (M_bind_step _ _ _ (massert _)) by reflexivity.
  rewrite (M_bind_step _ _ _ _ _ _ _ _ Hd). erewrite (M_bind_step _ _ _ get_rt) by reflexivity.
  set (args := mkCreateAllocationArgs _ _ _). cbv zeta.
  destruct (dx_runs (D3DKMTCreateAllocation2 args) (device_ g) w) as (r & w1 & Hrun & Hr); [done|].
  rewrite (M_bind_step _ _ _ _ _ _ _ _ Hrun). cbn [fst snd].
  pose proof (moved_runs _ _ _ _ _ _ _ Hh Hr) as Hmv.
  pose proof (moved_holds _ _ _ _ _ _ _ _ _ Hh Hmv eq_refl) as Hh1.
  rewrite ErrorCode_ok_status. case_bool_decide as Hok.
  - rewrite Ha. exists (TranslateNtStatus r.1). do 3 eexists. split.
    { unfold mod_mem, mderef, mbind, M_bind, mret, M_ret. rewrite (get_mem_holds _ _ _ _ Hh1).
      rewrite (set_mem_holds _ _ _ _ _ Hh1). reflexivity. }
    split; [eapply moved_trans; [exact Hmv|by eapply moved_set]|]. split; [done|]. left.
    rewrite Hok. split; [done|]. do 2 eexists.
    split; [|split; [unfold created; simpl; rewrite decide_True by done; reflexivity|]].
    + by rewrite length_resize, length_alloc_infos.
    + subst args. cbn [ca_info]. by rewrite length_alloc_infos.
  - exists (TranslateNtStatus r.1). do 3 eexists. split; [reflexivity|]. split; [exact Hmv|].
    split; [done|]. right. split_and!; [by destruct r.1|unfold created; simpl|done].
    by rewrite decide_False.
Qed.

(** A computation that leaves the object and the manager alone and creates no
    physical memory. *)
Definition quiet (i : nat) (p : Z) (g : GpuMemory) (m : VaMgr) {A} (c : M K A) : Prop :=
  forall w, holds p g m w ->
    exists x w' evs, c w = Some (x, w') /\ moved i p w w' evs g m /\ created evs = [].

Lemma created_app l1 l2 : created (l1 ++ l2) = created l1 ++ created l2.
Proof. apply omap_app. Qed.

Lemma quiet_ret i p g m {A} (x : A) : quiet i p g m (mret x).
Proof. intros w Hh. exists x, w, []. split_and!; [done|by apply moved_refl..|done]. Qed.

Lemma quiet_bind i p g m {A B} (c : M K A) (f : A -> M K B) :
  quiet i p g m c -> (forall x, quiet i p g m (f x)) -> quiet i p g m (c ≫= f).
Proof.
  intros Hc Hf w Hh. destruct (Hc w Hh) as (x & w1 & e1 & Hr1 & Hm1 & Hc1).
  destruct (Hf x w1) as (y & w2 & e2 & Hr2 & Hm2 & Hc2); [by eapply moved_holds|].
  exists y, w2, (e1 ++ e2). split_and!; [by rewrite (M_bind_step _ _ _ _ _ _ _ _ Hr1)|by eapply moved_trans|].
  by rewrite created_app, Hc1, Hc2.
Qed.

Lemma quiet_get_mem i p g m {B} (f : GpuMemory -> M K B) : quiet i p g m (f g) -> quiet i p g m (get_mem p ≫= f).
Proof.
  intros Hf w Hh. destruct (Hf w Hh) as (y & w' & evs & Hr & ?). exists y, w', evs.
  by rewrite (M_bind_step _ _ _ _ _ _ _ _ (get_mem_holds _ _ _ _ Hh)).
Qed.

Lemma quiet_get_dev p g m {B} (f : WDDMDevice -> M K B) :
  (forall d, quiet (device_ g) p g m (f d)) -> quiet (device_ g) p g m (get_dev (device_ g) ≫= f).
Proof.
  intros Hf w Hh. destruct (get_dev_holds _ _ _ _ Hh) as (d & Hd & _).
  destruct (Hf d w Hh) as (y & w' & evs & Hr & ?). exists y, w', evs.
  by rewrite (M_bind_step _ _ _ _ _ _ _ _ Hd).
Qed.

Lemma quiet_dx_ i p g m (c : kcall NTSTATUS) :
  (forall r, as_fence (KEvent c r) = None) -> (forall r, as_created (KEvent c r) = None) -> quiet i p g m (dx_ c).
Proof.
  intros Hf Hc w Hh. destruct (dx__runs c i w Hf) as (r & w' & Hrun & Hr). do 3 eexists.
  split_and!; [exact Hrun|by apply moved_runs|]. unfold created. simpl. specialize (Hc r). simpl in Hc. by rewrite Hc.
Qed.

Lemma Map_quiet p g m hs size :
  alloc_handles_ptr_ g = Some hs -> 0 <= GpuAddress g -> 0 <= size ->
  GpuAddress g + size < 2 ^ 64 -> (chunk_count size <= length hs)%nat ->
  quiet (device_ g) p g m (GpuMemory_MapGpuVirtualAddress p (GpuAddress g) size 0).
Proof.
  intros Ha H0 Hs He Hc w Hh. destruct (get_dev_holds _ _ _ _ Hh) as (d & _ & Hd).
  assert (mappable w p g d hs (GpuAddress g) size 0) as Hm.
  { pose proof Hh as (Hp & _). by constructor. }
  destruct (MapGpuVirtualAddress_runs _ _ _ _ _ _ _ _ Hm) as
    [(calls & w' & Hrun & Hr & _)|(calls & c & undo & w' & Hrun & Hr & _)];
    do 3 eexists; (split; [exact Hrun|]; split; [by apply moved_runs|apply created_maps]).
Qed.

Lemma MakeResident_quiet p g m : quiet (device_ g) p g m (MakeResident p).
Proof.
  intros w Hh. destruct (get_dev_holds _ _ _ _ Hh) as (d & Hd & Hd').
  unfold MakeResident. rewrite (M_bind_step _ _ _ _ _ _ _ _ (get_mem_holds _ _ _ _ Hh)).
  rewrite (M_bind_step _ _ _ _ _ _ _ _ Hd).
  set (hs := take _ _). unfold dx, kcall_.
  destruct (kernel_step _ (D3DKMTMakeResident (page_queue_ d) hs) (w_ker w)) as [[s v] k] eqn:E.
  unfold mbind, M_bind, mret, M_ret. rewrite E. cbn [fst snd].
  set (e := KEvent (D3DKMTMakeResident (page_queue_ d) hs) (s, v)).
  destruct (decide (TranslateNtStatus s = NotReady)) as [Hp|Hp]; rewrite TranslateNtStatus_NotReady in Hp.
  - erewrite UpdatePageFence_alter by (simpl; exact Hd'). do 2 eexists. exists [e]. split; [reflexivity|].
    split; [|done]. apply moved_runs; [done|]. split_and!; [done|done|]. simpl. by rewrite decide_True.
  - do 2 eexists. exists [e]. split; [reflexivity|]. split; [|done]. apply moved_runs; [done|].
    split_and!; [done|done|]. simpl. rewrite decide_False by done. by rewrite alter_bump_nil.
Qed.

Lemma Wait_quiet p g m : quiet (device_ g) p g m (WaitOnPagingFenceFromCpu (device_ g)).
Proof.
  unfold WaitOnPagingFenceFromCpu, CpuWait. apply quiet_get_dev. intros d. apply quiet_get_dev. intros d'.
  apply quiet_bind; [by apply quiet_dx_|]. intros. apply quiet_ret.
Qed.

Lemma map_and_wait_quiet p g m hs :
  alloc_handles_ptr_ g = Some hs -> 0 <= GpuAddress g -> 0 <= Size g ->
  GpuAddress g + Size g < 2 ^ 64 -> (chunk_count (Size g) <= length hs)%nat ->
  quiet (device_ g) p g m (map_and_wait p).
Proof.
  intros. unfold map_and_wait. apply quiet_get_mem. apply quiet_bind; [by eapply Map_quiet|].
  intros code. destruct (negb _); [apply quiet_ret|]. apply quiet_bind; [apply MakeResident_quiet|].
  intros code'. destruct (negb _); [apply quiet_ret|]. apply quiet_bind; [apply Wait_quiet|].
  intros. apply quiet_ret.
Qed.

(** [FreePhysicalMemory] on an object with its handles tells the driver to destroy
    them, but for a single zero handle. *)
Lemma FreePhysicalMemory_moved p g m w hs :
  holds p g m w -> alloc_handles_ptr_ g = Some hs -> length hs = Z.to_nat (num_allocations_ g) ->
  exists code w' evs g', FreePhysicalMemory p w = Some (code, w') /\
    moved (device_ g) p w w' evs g' m /\ created evs = [] /\ released evs (resource_ g, hs) /\
    (g' = g \/ g' = with_handles None g).
Proof.
  intros Hh Ha Hl. destruct (get_dev_holds _ _ _ _ Hh) as (d & Hd & _).
  unfold FreePhysicalMemory. rewrite (M_bind_step _ _ _ _ _ _ _ _ (get_mem_holds _ _ _ _ Hh)), Ha.
  assert (exists first, (if num_allocations_ g =? 1 then mderef (head hs) else mret 1) w = Some (first, w) /\
      ((num_allocations_ g =? 1) && (first =? 0) = true -> hs = [0])) as (first & Hf & Hz).
  { destruct (Z.eqb_spec (num_allocations_ g) 1) as [E|]; [|by exists 1]. rewrite E in Hl.
    destruct hs as [|x [|]]; try done. exists x. split; [done|]. intros. zbool. by subst. }
  rewrite (M_bind_step _ _ _ _ _ _ _ _ Hf). destruct (_ && _).
  - exists Success, w, [], g. split; [done|]. split; [by apply moved_refl|]. split; [done|].
    split; [left; by apply Hz|by left].
  - rewrite (M_bind_step _ _ _ _ _ _ _ _ Hd). set (c := D3DKMTDestroyAllocation2 _ _ _).
    destruct (dx__runs c (device_ g) w) as (r & w1 & Hrun & Hr); [done|].
    rewrite (M_bind_step _ _ _ _ _ _ _ _ Hrun).
    pose proof (moved_runs _ _ _ _ _ _ _ Hh Hr) as Hmv.
    pose proof (moved_holds _ _ _ _ _ _ _ _ _ Hh Hmv eq_refl) as Hh1.
    unfold mod_mem, mbind, M_bind, mret, M_ret. rewrite (get_mem_holds _ _ _ _ Hh1), (set_mem_holds _ _ _ _ _ Hh1).
    do 4 eexists. split; [reflexivity|]. split; [eapply moved_trans; [exact Hmv|by eapply moved_set]|].
    split; [done|]. split; [right|by right]. unfold c, destroyed. cbn.
    rewrite firstn_all2 by lia. apply list_elem_of_singleton. by destruct (_ =? 0).
Qed.

(** The address range of an object on the local heap. *)
Definition local_free (a : Z) (m : VaMgr) : VaMgr := if a =? 0 then m else VaMgr_Free a m.

Lemma FreeVa_moved p g m w a size :
  holds p g m w -> mem_fd_ g = -1 -> desc_domain (desc_ g) = kLocal ->
  exists code w', GpuMemory_FreeGpuVirtualAddress p a size w = Some (code, w') /\
    moved (device_ g) p w w' [] g (local_free a m).
Proof.
  intros Hh Hfd Hd. unfold GpuMemory_FreeGpuVirtualAddress.
  rewrite (M_bind_step _ _ _ _ _ _ _ _ (get_mem_holds _ _ _ _ Hh)), Hfd. cbn.
  unfold local_free. destruct (Z.eqb_spec a 0).
  - exists Success, w. split; [done|]. by apply moved_refl.
  - do 2 eexists. split; [|by eapply moved_local]. unfold Runtime_FreeGpuVirtualAddress. rewrite Hd, decide_False by done.
    destruct Hh as (_ & _ & Hm). unfold local_mgr in Hm. unfold heap_Free, get_rt, mget, mbind, M_bind, mderef.
    cbn -[VaMgr_Free]. by rewrite Hm.
Qed.

Lemma ReserveVa_moved p g m w lo hi size align :
  holds p g m w -> VaMgr_wf lo hi m -> desc_domain (desc_ g) = kLocal ->
  0 < size -> 0 <= align < 2 ^ 62 ->
  exists code w' g' m', GpuMemory_ReserveGpuVirtualAddress p 0 size align w = Some (code, w') /\
    moved (device_ g) p w w' [] g' m' /\ VaMgr_wf lo hi m' /\
    ((code = Success /\ exists a, g' = upd_desc (with_gpu_addr a) g /\ a <> 0 /\ lo <= a /\ a + size <= hi /\
        spec_alloc lo hi size (reserve_align size align) (allocated m) a (allocated m')) \/
     (code = OutOfGpuMemory /\ g' = g /\ allocated m' = allocated m)).
Proof.
  intros Hh Hwf Hd Hs Ha. unfold GpuMemory_ReserveGpuVirtualAddress.
  rewrite (M_bind_step _ _ _ _ _ _ _ _ (get_mem_holds _ _ _ _ Hh)), Hd.
  rewrite bool_decide_eq_false_2, andb_false_r by done.
  unfold Runtime_ReserveGpuVirtualAddress. rewrite decide_False by done.
  assert (0 <= reserve_align size align < 2 ^ 62) as Hal.
  { by apply reserve_align_bound. }
  destruct (am_alloc_ok (T := VaMgr) lo hi m size (reserve_align size align)) as (a & m' & Hrun & Hwf' & Hspec);
    [exact Hwf|done|done|].
  cbn [am_alloc am_inv am_live VaMgr_AddressManager] in *.
  pose proof Hh as (_ & _ & Hm). unfold local_mgr in Hm.
  pose proof (moved_local (device_ g) _ _ _ _ m' Hh) as Hmv.
  pose proof (moved_holds _ _ _ _ _ _ _ _ _ Hh Hmv eq_refl) as Hh1.
  assert (heap_Alloc local_heap rt_local_heap size (reserve_align size align) 0 w = Some (a, set_local m' w)) as Hal'.
  { unfold heap_Alloc, get_rt, mget, mbind, M_bind, mderef. cbn -[VaMgr_Alloc]. rewrite Hm. cbn -[VaMgr_Alloc]. by rewrite Hrun. }
  destruct (Z.eqb_spec a 0) as [->|Hne].
  - exists OutOfGpuMemory. do 3 eexists. split.
    { unfold mbind, M_bind. rewrite Hal'. cbn -[set_local]. rewrite (set_mem_holds _ _ _ _ _ Hh1). reflexivity. }
    split; [eapply (moved_trans _ _ _ _ _ [] []); [exact Hmv|by eapply moved_set]|]. split; [done|].
    right. split; [done|]. split; [by destruct g|].
    destruct Hspec as [[_ ->]|(? & ? & _)]; [done|]. pose proof (wf_lo _ _ _ Hwf). lia.
  - exists Success. do 3 eexists. split.
    { unfold mbind, M_bind. rewrite Hal'. cbn -[set_local]. rewrite (proj2 (Z.eqb_neq _ _) Hne). cbn -[set_local].
      rewrite (set_mem_holds _ _ _ _ _ Hh1). reflexivity. }
    split; [eapply (moved_trans _ _ _ _ _ [] []); [exact Hmv|by eapply moved_set]|]. split; [done|].
    left. split; [done|]. exists a. split_and!; [|done|..|exact Hspec].
    + unfold upd_desc, IsSystem. rewrite Hd. by destruct g as [? [] ? ? ? ?].
    + destruct Hspec as [[? _]|(? & ? & _)]; [done|lia].
    + destruct Hspec as [[? _]|(? & ? & _)]; [done|lia].
Qed.

(** ** Composition *)

(** What stays true of the object on every path. *)
Record local_object (i : nat) (n : Z) (d : GpuMemoryDesc) (g : GpuMemory) : Prop := {
  lo_device : device_ g = i;
  lo_fd : mem_fd_ g = -1;
  lo_num : num_allocations_ g = n;
  lo_desc : desc_ g = d;
  lo_domain : desc_domain d = kLocal;
  lo_ape : desc_handle_ape_addr d = 0;
  lo_handles hs : alloc_handles_ptr_ g = Some hs -> length hs = Z.to_nat n;
}.

Lemma local_object_handles i n d g res o :
  local_object i n d g -> (forall hs, o = Some hs -> length hs = Z.to_nat n) ->
  local_object i n d (with_resource res (with_handles o g)).
Proof. intros [] Ho. by constructor. Qed.

Lemma local_object_released i n d g g' :
  local_object i n d g -> g' = g \/ g' = with_handles None g -> local_object i n d g'.
Proof. intros [] [->| ->]; by constructor. Qed.

Lemma no_leak_one e1 e2 c : created e1 = [c] -> created e2 = [] -> released e2 c -> no_leak (e1 ++ e2).
Proof.
  unfold no_leak, created. rewrite omap_app. intros -> ->. rewrite app_nil_r. intros.
  apply Forall_singleton, released_app. by right.
Qed.

(** All the physical memory a log granted belongs to the object. *)
Definition owned (l : list kevent) (g : GpuMemory) : Prop :=
  exists hs, alloc_handles_ptr_ g = Some hs /\ created l = [(resource_ g, hs)].

(** The scope guard after the physical memory was created. *)
Lemma rollback_moved i n d p g m w hs :
  holds p g m w -> local_object i n d g -> alloc_handles_ptr_ g = Some hs ->
  exists w' evs g', init_rollback p true w = Some (tt, w') /\
    moved i p w w' evs g' (local_free (desc_gpu_addr d) m) /\ local_object i n d g' /\
    created evs = [] /\ released evs (resource_ g, hs).
Proof.
  intros Hh Hg Ha. pose proof (lo_device _ _ _ _ Hg) as Hi.
  destruct (FreePhysicalMemory_moved p g m w hs Hh Ha) as (c1 & w1 & e1 & g1 & Hr1 & Hm1 & Hc1 & Hrel & Hg1).
  { rewrite (lo_num _ _ _ _ Hg). by apply (lo_handles _ _ _ _ Hg). }
  pose proof (local_object_released _ _ _ _ _ Hg Hg1) as Hg1'.
  pose proof (moved_holds _ _ _ _ _ _ _ _ _ Hh Hm1 ltac:(by destruct Hg1 as [-> | ->])) as Hh1.
  destruct (FreeVa_moved p g1 m w1 (GpuAddress g1) (Size g1) Hh1 (lo_fd _ _ _ _ Hg1')) as (c2 & w2 & Hr2 & Hm2).
  { rewrite (lo_desc _ _ _ _ Hg1'). apply Hg1'. }
  rewrite (lo_device _ _ _ _ Hg1') in Hm2. rewrite Hi in Hm1.
  exists w2, e1, g1. split_and!; [| |done|done|done].
  - unfold init_rollback, mbind, M_bind. rewrite Hr1. cbn. by rewrite (get_mem_holds _ _ _ _ Hh1), Hr2.
  - rewrite <- (lo_desc _ _ _ _ Hg1'). rewrite <- (app_nil_r e1). by eapply moved_trans.
Qed.

Lemma guarded_init_moved i n d p g m w hs :
  holds p g m w -> local_object i n d g -> alloc_handles_ptr_ g = Some hs -> 0 < n ->
  bit DF_is_virtual (desc_flags d) = false ->
  0 <= desc_gpu_addr d -> 0 <= desc_size d -> desc_gpu_addr d + desc_size d < 2 ^ 64 ->
  (chunk_count (desc_size d) <= Z.to_nat n)%nat ->
  exists code w' evs g' m', guarded_init_steps p w = Some (code, w') /\
    moved i p w w' evs g' m' /\ local_object i n d g' /\
    ((code = Success /\ m' = m /\ owned evs g') \/
     (code <> Success /\ m' = local_free (desc_gpu_addr d) m /\ no_leak evs)).
Proof.
  intros Hh Hg Ha Hn Hv H0 Hs He Hc. pose proof Hg as [<- Hfd <- <- Hdom _ _].
  destruct (CreatePhysicalMemory_moved p g m w hs Hh Hv Hn Ha)
    as (c1 & w1 & e1 & g1 & Hr1 & Hm1 & _ & [(-> & res & hs' & Hl & Hc1 & Hg1)|(Hne & Hc1 & ->)]).
  2:{ pose proof (moved_holds _ _ _ _ _ _ _ _ _ Hh Hm1 eq_refl) as Hh1.
      destruct (FreeVa_moved p g m w1 (GpuAddress g) (Size g) Hh1 Hfd Hdom) as (c2 & w2 & Hr2 & Hm2).
      apply (bool_decide_eq_false_2 (c1 = Success)) in Hne as Hok. fold (ErrorCode_ok c1) in Hok.
      exists c1, w2, e1, g. eexists. split.
      { unfold guarded_init_steps, init_steps, init_rollback, mbind, M_bind. rewrite Hr1, Hok.
        cbn -[ErrorCode_ok]. rewrite Hok. cbn. by rewrite (get_mem_holds _ _ _ _ Hh1), Hr2. }
      split; [rewrite <- (app_nil_r e1); by eapply moved_trans|]. split; [done|].
      right. split_and!; [done|done|by apply no_leak_created]. }
  assert (local_object (device_ g) (num_allocations_ g) (desc_ g) g1) as Hg1'.
  { rewrite Hg1. apply local_object_handles; [done|]. by intros ? [= <-]. }
  assert (alloc_handles_ptr_ g1 = Some hs' /\ resource_ g1 = res) as [Ha1 <-] by (by rewrite Hg1).
  clear Hg1. pose proof Hg1' as [Hi1 _ _ Hd1 _ _ _].
  pose proof (moved_holds _ _ _ _ _ _ _ _ _ Hh Hm1 Hi1) as Hh1.
  destruct (map_and_wait_quiet p g1 m hs' Ha1) with (w := w1) as (c2 & w2 & e2 & Hr2 & Hm2 & Hc2);
    [by unfold GpuAddress, Size; rewrite Hd1, ?Hl..|done|].
  rewrite Hi1 in Hm2. pose proof (moved_trans _ _ _ _ _ _ _ _ _ _ _ Hm1 Hm2) as Hm.
  pose proof (moved_holds _ _ _ _ _ _ _ _ _ Hh1 Hm2 eq_refl) as Hh2.
  assert (init_steps p w = Some (c2, true, w2)) as Hrun.
  { unfold init_steps, mbind, M_bind. rewrite Hr1. change (ErrorCode_ok Success) with true. cbn -[map_and_wait]. by rewrite Hr2. }
  unfold guarded_init_steps. rewrite (M_bind_step _ _ _ _ _ _ _ _ Hrun). cbn iota.
  destruct (ErrorCode_ok c2) eqn:Hok.
  { apply ErrorCode_ok_true in Hok as ->. exists Success, w2, (e1 ++ e2), g1, m. split_and!; [done..|].
    left. split_and!; [done..|]. exists hs'. by rewrite created_app, Hc1, Hc2. }
  destruct (rollback_moved _ _ _ _ _ _ _ _ Hh2 Hg1' Ha1) as (w3 & e3 & g3 & Hr3 & Hm3 & Hg3 & Hc3 & Hrel).
  exists c2, w3, ((e1 ++ e2) ++ e3), g3. eexists. split; [by rewrite (M_bind_step _ _ _ _ _ _ _ _ Hr3)|].
  split; [by eapply moved_trans|]. split; [done|]. right. split_and!; [by intros ->|done|].
  eapply no_leak_one; [|exact Hc3|exact Hrel]. by rewrite created_app, Hc1, Hc2.
Qed.

(** ** The object [Init] prepares *)

Section init.
Context (dev : nat) (d : WDDMDevice) (uninit : AllocDomain * LUID) (ci : GpuMemoryCreateInfo).
Hypothesis Hdom : ci_domain ci = kLocal.
Hypothesis Hvirt : bit CF_virtual_alloc (ci_flags ci) = false.
Hypothesis Hphys : bit CF_physical_only (ci_flags ci) = false.

Definition init_size : Z := AdjustSize (shared_dev_ d) kLocal (ci_size ci).

Hypothesis Hsize : 0 < init_size < 2 ^ 63.

Definition fresh_object : GpuMemory := init_object d ci (GpuMemory_new dev uninit).

Lemma fresh_object_shape :
  fresh_object = mkGpuMemory dev (with_size init_size (init_desc (GetLuid d) ci (desc_ (GpuMemory_new dev uninit))))
                   (CalcChunkNumbers init_size) (Some (replicate (chunk_count init_size) 0)) 0 (-1) /\
  local_object dev (CalcChunkNumbers init_size) (desc_ fresh_object) fresh_object /\
  0 < CalcChunkNumbers init_size /\ Z.to_nat (CalcChunkNumbers init_size) = chunk_count init_size.
Proof using Hdom Hsize.
  chunk_size. assert (Z.to_nat (CalcChunkNumbers init_size) = chunk_count init_size) as E.
  { apply CalcChunkNumbers_count; lia. }
  assert (fresh_object = mkGpuMemory dev (with_size init_size (init_desc (GetLuid d) ci (desc_ (GpuMemory_new dev uninit))))
                   (CalcChunkNumbers init_size) (Some (replicate (chunk_count init_size) 0)) 0 (-1)) as Hf.
  { unfold fresh_object, init_object, setup_handles, IsUserMemory, IsSystem, Size, upd_desc. cbn -[CalcChunkNumbers].
    rewrite Hdom. cbn -[CalcChunkNumbers]. rewrite !bool_decide_eq_false_2 by done. cbn -[CalcChunkNumbers]. fold init_size. by rewrite E. }
  assert (0 < CalcChunkNumbers init_size) by (pose proof (chunk_count_S init_size ltac:(lia)); lia).
  split_and!; [done| |done|done]. rewrite Hf. constructor; cbn; try done.
  intros ? [= <-]. by rewrite length_replicate, E.
Qed.

Lemma fresh_object_flags :
  bit DF_is_virtual (desc_flags (desc_ fresh_object)) = false /\
  bit DF_is_physical_only (desc_flags (desc_ fresh_object)) = false /\
  bit DF_is_queue_referenced (desc_flags (desc_ fresh_object)) = false /\
  bit DF_is_imported_vram_ipc (desc_flags (desc_ fresh_object)) = false.
Proof using All.
  rewrite (proj1 fresh_object_shape). unfold init_desc. cbn.
  unfold DF_is_virtual, DF_is_physical_only, DF_is_locked, DF_is_shared, DF_is_blit_kernel_object,
    DF_is_va_required, DF_is_sysmem_exporter, DF_is_imported_sys_memfd, DF_is_physical_contiguous,
    DF_is_queue_referenced, DF_is_imported_vram_ipc.
  by destruct (_ || _); bits.
Qed.
End init.

(** [delete mem] on such an object. *)
Lemma delete_moved i n dd p g m w :
  holds p g m w -> local_object i n dd g ->
  exists w' evs, GpuMemory_delete p w = Some (tt, w') /\ evolves i w w' evs /\
    w_mems w' = delete p (w_mems w) /\ local_mgr w' = Some (local_free (desc_gpu_addr dd) m) /\ created evs = [] /\
    (forall hs, alloc_handles_ptr_ g = Some hs -> released evs (resource_ g, hs)).
Proof.
  intros Hh Hg. pose proof Hg as [Hi Hfd Hn Hd Hdom Hape Hhs]. subst dd.
  destruct (FreeVa_moved p g m w (GpuAddress g) (Size g) Hh Hfd Hdom) as (c1 & w1 & Hr1 & Hm1).
  pose proof (moved_holds _ _ _ _ _ _ _ _ _ Hh Hm1 eq_refl) as Hh1.
  assert (exists c2 w2 e2 g2, FreePhysicalMemory p w1 = Some (c2, w2) /\
            moved i p w1 w2 e2 g2 (local_free (desc_gpu_addr (desc_ g)) m) /\ created e2 = [] /\
            forall hs, alloc_handles_ptr_ g = Some hs -> released e2 (resource_ g, hs))
    as (c2 & w2 & e2 & g2 & Hr2 & Hm2 & Hc2 & Hrel2).
  { destruct (alloc_handles_ptr_ g) as [hs|] eqn:Ha.
    - destruct (FreePhysicalMemory_moved p g _ w1 hs Hh1 Ha) as (c2 & w2 & e2 & g2 & Hr2 & Hm2 & Hc2 & Hrel & _);
        [rewrite Hn; by apply Hhs|]. rewrite Hi in Hm2. exists c2, w2, e2, g2. split_and!; try done.
      by intros ? [= <-].
    - exists Success, w1, [], g. split_and!; [|by apply moved_refl|done|done].
      unfold FreePhysicalMemory. by rewrite (M_bind_step _ _ _ _ _ _ _ _ (get_mem_holds _ _ _ _ Hh1)), Ha. }
  rewrite Hi in Hm1. pose proof (moved_trans _ _ _ _ _ _ _ _ _ _ _ Hm1 Hm2) as (He & Hmem & Hl).
  do 2 eexists. split.
  { unfold GpuMemory_delete, mbind, M_bind. rewrite (get_mem_holds _ _ _ _ Hh), Hr1, Hr2, Hape.
    cbn. unfold delete_mem. rewrite Hmem, lookup_insert_eq. reflexivity. }
  split_and!; [|cbn; by rewrite delete_insert_eq|exact Hl|exact Hc2|exact Hrel2].
  rewrite <- (app_nil_r e2). eapply evolves_trans; [exact He|apply evolves_mems].
Qed.

(** [Init] on a fresh object of the local heap. *)
Lemma Init_moved dev d uninit ci p m w lo hi :
  let g := GpuMemory_new dev uninit in
  let n := init_size d ci in
  holds p g m w -> w_devs w !! dev = Some d -> VaMgr_wf lo hi m ->
  ci_domain ci = kLocal -> bit CF_virtual_alloc (ci_flags ci) = false ->
  bit CF_physical_only (ci_flags ci) = false -> ci_va_hint ci = 0 ->
  0 < n < 2 ^ 63 -> 0 <= ci_alignment ci < 2 ^ 62 ->
  exists code w' evs g' m' k, GpuMemory_Init p ci w = Some (code, w') /\
    moved dev p w w' evs g' m' /\ VaMgr_wf lo hi m' /\ local_object dev k (desc_ g') g' /\
    ((code = Success /\ Size g' = n /\
        spec_alloc lo hi n (reserve_align n (ci_alignment ci)) (allocated m) (GpuAddress g') (allocated m') /\
        GpuAddress g' <> 0 /\ owned evs g' /\
        desc_ g' = with_gpu_addr (GpuAddress g') (desc_ (fresh_object dev d uninit ci))) \/
     (code <> Success /\ allocated m' = allocated m /\ VaMgr_wf lo hi m' /\
        (GpuAddress g' = 0 \/ allocated m' !! GpuAddress g' = None) /\ no_leak evs)).
Proof.
  intros g n Hh Hd Hwf Hdom Hv Hp Hhint Hn Hal.
  destruct (fresh_object_shape dev d uninit ci Hdom Hn) as (Hshape & Hobj & Hk & Hcount).
  destruct (fresh_object_flags dev d uninit ci Hdom Hv Hp Hn) as (Hv' & Hp' & _).
  set (gi := fresh_object dev d uninit ci) in *. set (k := CalcChunkNumbers (init_size d ci)) in *.
  pose proof (moved_set dev _ _ _ gi _ Hh) as Hm0.
  pose proof (moved_holds _ _ _ _ _ _ _ _ _ Hh Hm0 (lo_device _ _ _ _ Hobj)) as Hh0.
  set (w0 := set_mems _ w) in *.
  assert (Size gi = n) as Hsz by (by rewrite Hshape).
  destruct (ReserveVa_moved p gi m w0 lo hi n (ci_alignment ci) Hh0 Hwf (lo_domain _ _ _ _ Hobj) ltac:(lia) Hal)
    as (c1 & w1 & g1 & m1 & Hr1 & Hm1 & Hwf1 & Hcase). rewrite (lo_device _ _ _ _ Hobj) in Hm1.
  pose proof (moved_trans _ _ _ _ _ _ _ _ _ _ _ Hm0 Hm1) as Hm01. cbn in Hm01.
  assert (forall X, GpuMemory_Init p ci w = X <->
    (if IsVirtual gi || negb (ErrorCode_ok c1) then Some (c1, w1) else guarded_init_steps p w1) = X) as Hrun.
  { intros X. unfold GpuMemory_Init. rewrite (M_bind_step _ _ _ _ _ _ _ _ (get_mem_holds _ _ _ _ Hh)).
    cbn [device_ g GpuMemory_new].
    erewrite M_bind_step by (unfold get_dev; by rewrite Hd).
    rewrite (M_bind_step _ _ _ _ _ _ _ _ (set_mem_holds _ _ gi _ _ Hh)). fold w0.
    rewrite (M_bind_step _ _ _ _ _ _ _ _ (get_mem_holds _ _ _ _ Hh0)).
    unfold IsPhysicalOnly, desc_flag. rewrite Hp', Hhint, Hsz, (M_bind_step _ _ _ _ _ _ _ _ Hr1).
    by destruct (_ || _). }
  unfold IsVirtual, desc_flag in Hrun. rewrite Hv' in Hrun. cbn [orb] in Hrun.
  destruct Hcase as [(-> & a & -> & Ha & Hlo & Hhi & Hspec)|(-> & -> & Hsame)].
  2:{ do 5 eexists. exists k. split; [by apply Hrun|]. split; [exact Hm01|]. split_and!; [done|done|].
      right. split_and!; [done..|left; by rewrite Hshape|apply no_leak_nil]. }
  change (ErrorCode_ok Success) with true in Hrun. cbn [negb] in Hrun.
  set (g1 := upd_desc (with_gpu_addr a) gi) in *.
  assert (local_object dev k (desc_ g1) g1) as Hobj1 by (destruct Hobj; by constructor).
  pose proof (wf_lo _ _ _ Hwf). pose proof (wf_hi _ _ _ Hwf).
  pose proof (moved_holds _ _ _ _ _ _ _ _ _ Hh0 Hm1 eq_refl) as Hh1.
  assert (desc_size (desc_ g1) = n) as Hsz1 by exact Hsz.
  assert (alloc_handles_ptr_ g1 = Some (replicate (chunk_count n) 0)) as Ha1 by (unfold g1; by rewrite Hshape).
  assert (0 <= desc_gpu_addr (desc_ g1) /\ 0 <= n /\ desc_gpu_addr (desc_ g1) + n < 2 ^ 64) as (? & ? & ?) by (cbn; lia).
  destruct (guarded_init_moved dev k (desc_ g1) p g1 m1 w1 _ Hh1 Hobj1 Ha1 Hk Hv') as
    (c2 & w2 & e2 & g2 & m2 & Hr2 & Hm2 & Hobj2 & Hc2); [by rewrite ?Hsz1, ?Hcount..|].
  exists c2, w2, e2, g2, m2, k. split; [by apply Hrun|]. split; [by apply (moved_trans _ _ _ _ _ [] _ _ _ _ _ Hm01 Hm2)|].
  pose proof (lo_desc _ _ _ _ Hobj2) as Hd2. unfold Size, GpuAddress. rewrite Hd2. rewrite Hsz1.
  destruct Hc2 as [(-> & -> & Hown)|(Hne & -> & Hleak)].
  - split_and!; [done|exact Hobj2|]. left. done.
  - change (desc_gpu_addr (desc_ g1)) with a. unfold local_free. rewrite (proj2 (Z.eqb_neq _ _) Ha).
    assert (allocated (VaMgr_Free a m1) = allocated m) as Hback by (apply (spec_alloc_free lo hi _ _ _ _ _ Hwf Hwf1 (proj1 Hn) Ha Hspec)).
    pose proof (proj1 (Free_allocated _ _ _ a Hwf1)) as Hfree. unfold spec_free in Hfree.
    pose proof (Free_wf _ _ _ a Hwf1) as Hwf2.
    split_and!; [done|exact Hobj2|]. right.
    split_and!; [done|done|done|right; by rewrite Hfree, lookup_delete_eq|done].
Qed.

(** ** Creation and its inverse *)

Lemma new_object_holds dev (d : WDDMDevice) uninit q w m :
  w_devs w !! dev = Some d -> local_mgr w = Some m -> w_mems w = <[q := GpuMemory_new dev uninit]> (w_mems w) ->
  holds q (GpuMemory_new dev uninit) m w.
Proof.
  intros Hd Hm Hp. split_and!; [rewrite Hp; apply lookup_insert_eq|cbn; by eexists|done].
Qed.
End evolves.

(** A call of [CreateGpuMemory] for [n] bytes of the local heap, whose manager is
    [m] over [lo, hi). *)
Record creatable {K} (w : World K) (dev : nat) (ci : GpuMemoryCreateInfo) (n : Z) (lo hi : Z) (m : VaMgr) : Prop := {
  cr_dev : exists d, w_devs w !! dev = Some d /\ n = init_size d ci;
  cr_mgr : local_mgr w = Some m;
  cr_wf : VaMgr_wf lo hi m;
  cr_new : w_mems w !! w_next w = None;
  cr_domain : ci_domain ci = kLocal;
  cr_fd : ci_dmabuf_fd ci <= 0;
  cr_hint : ci_va_hint ci = 0;
  cr_virtual : bit CF_virtual_alloc (ci_flags ci) = false;
  cr_physical : bit CF_physical_only (ci_flags ci) = false;
  cr_align : 0 <= ci_alignment ci < 2 ^ 62;
  cr_size : 0 < n < 2 ^ 63;
}.

Section creation.
Context {K : Type} `{Kernel K}.
Implicit Types (w : World K).

Lemma CreateGpuMemory_runs w dev ci n lo hi m va :
  creatable w dev ci n lo hi m ->
  exists code o w' evs m', CreateGpuMemory dev ci va w = Some (code, o, va, w') /\
    evolves dev w w' evs /\ w_next w < w_next w' /\ local_mgr w' = Some m' /\ VaMgr_wf lo hi m' /\
    ((code = Success /\ o = Some (w_next w) /\ exists g k,
        w_mems w' = <[w_next w := g]> (w_mems w) /\ local_object dev k (desc_ g) g /\
        Size g = n /\ GpuAddress g <> 0 /\ owned evs g /\
        (IsQueueReferenced g = false /\ desc_flag DF_is_imported_vram_ipc g = false /\ IsVirtual g = false) /\
        spec_alloc lo hi n (reserve_align n (ci_alignment ci)) (allocated m) (GpuAddress g) (allocated m')) \/
     (code <> Success /\ o = None /\ w_mems w' = w_mems w /\ allocated m' = allocated m /\ no_leak evs)).
Proof.
  intros [(d & Hd & ->) Hm Hwf Hnew Hdom Hfd Hhint Hv Hp Hal Hn]. unfold CreateGpuMemory.
  destruct (kcall_runs uninitialized_desc dev w) as (u & w1 & Hr1 & Hrun1); [done|].
  rewrite (M_bind_step _ _ _ _ _ _ _ _ Hr1).
  pose proof (runs_mems _ _ _ _ Hrun1) as Hmem1. pose proof Hrun1 as ((_ & _ & Hnext & _) & _).
  erewrite M_bind_step by reflexivity. rewrite Hnext. set (p := w_next w) in *.
  set (w2 := set_next _ _).
  assert (evolves dev w w2 [KEvent uninitialized_desc u]) as He2.
  { rewrite <- (app_nil_r [_]). eapply evolves_trans; [by apply evolves_runs|].
    eapply (evolves_trans _ _ _ _ [] []); [apply evolves_mems|apply evolves_next; cbn; lia]. }
  assert (w_next w < w_next w2) as Hlt by (cbn; unfold p; lia).
  assert (holds p (GpuMemory_new dev u) m w2) as Hh.
  { apply (new_object_holds _ (bump [] d)); [|by rewrite <- Hm, <- (runs_local _ _ _ _ Hrun1)|].
    - apply (evolves_dev _ _ _ _ _ He2 Hd).
    - cbn. by rewrite insert_insert_eq. }
  assert (w_mems w2 = <[p := GpuMemory_new dev u]> (w_mems w)) as Hmem2 by (cbn; by rewrite Hmem1).
  destruct (Init_moved dev d u ci p m w2 lo hi Hh) as (code & w3 & e3 & g & m3 & k & Hr3 & (He3 & Hmem3 & Hm3) & Hwf3 & Hobj & Hcase);
    [by rewrite (evolves_dev _ _ _ _ _ He2 Hd), bump_nil|done..|].
  rewrite (proj2 (Z.ltb_ge _ _) Hfd).
  assert (w_mems w3 = <[p := g]> (w_mems w)) as Hmem by (by rewrite Hmem3, Hmem2, insert_insert_eq).
  pose proof (evolves_trans _ _ _ _ _ _ He2 He3) as He.
  erewrite (M_bind_step _ _ _ (_ ≫= _)) by (by rewrite (M_bind_step _ _ _ _ _ _ _ _ Hr3)). cbn iota.
  destruct Hcase as [(-> & Hsz & Hspec & Ha & Hown & Hdesc)|(Hne & Hsame & _ & Haddr & Hleak)].
  - exists Success, (Some p), w3. do 2 eexists. split; [reflexivity|].
    split_and!; [exact He|pose proof (ev_next _ _ _ _ He3); lia|exact Hm3|done|]. left. split_and!; [done..|]. exists g, k.
    destruct (fresh_object_flags dev d u ci Hdom Hv Hp Hn) as (Hvirt & _ & Hq & Hi).
    split_and!; try done; unfold IsQueueReferenced, IsVirtual, desc_flag; by rewrite Hdesc.
  - rewrite (bool_decide_eq_false_2 _ Hne : ErrorCode_ok code = false).
    destruct (delete_moved dev k (desc_ g) p g m3 w3) as (w4 & e4 & Hr4 & He4 & Hmem4 & Hm4 & Hc4 & _); [|done|].
    { eapply moved_holds; [exact Hh|by split_and!|apply Hobj]. }
    rewrite (M_bind_step _ _ _ _ _ _ _ _ Hr4). do 5 eexists. split; [reflexivity|].
    split; [by eapply evolves_trans|]. split; [pose proof (ev_next _ _ _ _ He3); pose proof (ev_next _ _ _ _ He4); lia|]. split; [exact Hm4|].
    assert (local_free (desc_gpu_addr (desc_ g)) m3 = m3) as ->.
    { unfold local_free. case_zbool; [done|]. destruct Haddr as [|Hnone]; [done|].
      by apply (Free_allocated _ _ _ _ Hwf3). }
    split; [done|]. right. split_and!; [done|done| |done|].
    + by rewrite Hmem4, Hmem, delete_insert_id.
    + apply no_leak_app; [apply no_leak_app; [by apply no_leak_created|done]|by apply no_leak_created].
Qed.

(** C1: Creating memory on the local heap always returns and is all or nothing,
    for every sequence of answers of the driver. On success the new object owns a
    non-null address range of the size [Init] rounded to, carved out of the heap
    as the abstract allocator promises, and every physical allocation granted. On
    failure there is no object, the live blocks of the heap are what they were,
    and every granted physical allocation has been handed back. *)
Theorem CreateGpuMemory_atomic w dev ci n lo hi m va :
  creatable w dev ci n lo hi m ->
  exists code o w' evs m', CreateGpuMemory dev ci va w = Some (code, o, va, w') /\
    w_log w' = w_log w ++ evs /\ local_mgr w' = Some m' /\ VaMgr_wf lo hi m' /\
    ((code = Success /\ o = Some (w_next w) /\ exists g,
        w_mems w' = <[w_next w := g]> (w_mems w) /\ Size g = n /\ GpuAddress g <> 0 /\ owned evs g /\
        spec_alloc lo hi n (reserve_align n (ci_alignment ci)) (allocated m) (GpuAddress g) (allocated m')) \/
     (code <> Success /\ o = None /\ w_mems w' = w_mems w /\ allocated m' = allocated m /\ no_leak evs)).
Proof.
  intros Hc. destruct (CreateGpuMemory_runs _ _ _ _ _ _ _ va Hc) as
    (code & o & w' & evs & m' & Hrun & He & _ & Hm & Hwf & Hcase).
  exists code, o, w', evs, m'. split_and!; [done|apply He|done|done|].
  destruct Hcase as [(? & ? & g & k & ? & _ & ? & ? & ? & _ & ?)|?]; [left|by right]. split_and!; [done|done|by exists g].
Qed.

(** C13: Deleting an object just created undoes the creation: the objects and the
    live blocks of the heap are those before it, and every physical allocation
    granted in between has been handed back. *)
Theorem Create_delete_roundtrip w dev ci n lo hi m va p va' w1 :
  creatable w dev ci n lo hi m -> CreateGpuMemory dev ci va w = Some (Success, Some p, va', w1) ->
  exists w2 evs m2, GpuMemory_delete p w1 = Some (tt, w2) /\ w_log w2 = w_log w ++ evs /\
    w_mems w2 = w_mems w /\ local_mgr w2 = Some m2 /\ VaMgr_wf lo hi m2 /\ allocated m2 = allocated m /\
    no_leak evs.
Proof.
  intros Hc Hrun. destruct (CreateGpuMemory_runs _ _ _ _ _ _ _ va Hc) as
    (code & o & w' & evs & m' & Hrun' & He & _ & Hm & Hwf & [(-> & -> & g & k & Hmem & Hobj & Hsz & Ha & (hs & Hhs & Hown) & _ & Hspec)|(Hne & _)]);
    rewrite Hrun' in Hrun; [|by injection Hrun]. injection Hrun as <- <- <-.
  destruct Hc as [(d & Hd & _) Hm0 Hwf0 Hnew _ _ _ _ _ _ Hn].
  destruct (delete_moved dev k (desc_ g) (w_next w) g m' w') as (w2 & e2 & Hr2 & He2 & Hmem2 & Hm2 & Hc2 & Hrel); [|done|].
  { split_and!; [rewrite Hmem; apply lookup_insert_eq| |done]. rewrite (lo_device _ _ _ _ Hobj).
    rewrite (evolves_dev _ _ _ _ _ He Hd). by eexists. }
  change (desc_gpu_addr (desc_ g)) with (GpuAddress g) in Hm2. unfold local_free in Hm2.
  rewrite (proj2 (Z.eqb_neq _ _) Ha) in Hm2.
  exists w2, (evs ++ e2). eexists. split_and!; [done|apply (evolves_trans _ _ _ _ _ _ He He2)| |exact Hm2|by apply Free_wf| |].
  - by rewrite Hmem2, Hmem, delete_insert_id.
  - apply (spec_alloc_free lo hi _ _ _ _ _ Hwf0 Hwf (proj1 Hn) Ha Hspec).
  - eapply no_leak_one; [exact Hown|exact Hc2|by apply Hrel].
Qed.
End creation.

(** ** Witnesses *)

(** 4 GB + 4 KB on the local heap: three chunks. *)
Definition demo_create_info : GpuMemoryCreateInfo := mkCreateInfo 0 kLocal 0x100001000 0x10000 0 0 (-1) 0 0.

Lemma demo_creatable script :
  creatable (demo_world script) 0 demo_create_info 0x100001000 0x100000000 0x500000000 demo_local.
Proof.
  constructor; try done; try lia.
  - by exists demo_dev.
  - by apply (VaMgr_new_wf 0x100000000 0x400000000 DEFAULT_GPU_PAGE_SIZE).
Qed.

(** The driver creates the chunks and refuses to map the second one. *)
Definition refused_world : World DemoKernel := demo_world [STATUS_SUCCESS; STATUS_SUCCESS; STATUS_NO_MEMORY].
Definition granted_world : World DemoKernel := demo_world [STATUS_SUCCESS; STATUS_PENDING].

Lemma refused_creatable :
  creatable refused_world 0 demo_create_info 0x100001000 0x100000000 0x500000000 demo_local.
Proof. apply demo_creatable. Qed.

Lemma granted_creatable :
  creatable granted_world 0 demo_create_info 0x100001000 0x100000000 0x500000000 demo_local.
Proof. apply demo_creatable. Qed.

Lemma CreateGpuMemory_atomic_witness :
  exists code w' evs m',
    CreateGpuMemory 0 demo_create_info 0 refused_world = Some (code, None, 0, w') /\
    w_log w' = evs /\ local_mgr w' = Some m' /\ allocated m' = allocated demo_local /\ no_leak evs.
Proof.
  pose proof (CreateGpuMemory_atomic _ _ _ _ _ _ _ 0 refused_creatable) as H.
  destruct H as (code & o & w' & evs & m' & Hrun & Hl & Hm & _ & Hcase).
  destruct Hcase as [(Hc & _)|(_ & Ho & _ & Hsame & Hleak)].
  - exfalso. rewrite Hc in Hrun. vm_compute in Hrun. discriminate Hrun.
  - rewrite Ho in Hrun. exists code, w', evs, m'. split; [exact Hrun|]. split; [exact Hl|]. split; [exact Hm|].
    split; [exact Hsame|exact Hleak].
Defined.

Lemma Create_delete_roundtrip_witness :
  exists w1 w2 m2,
    CreateGpuMemory 0 demo_create_info 0 granted_world = Some (Success, Some 0x5000, 0, w1) /\
    GpuMemory_delete 0x5000 w1 = Some (tt, w2) /\ w_mems w2 = ∅ /\ local_mgr w2 = Some m2 /\
    allocated m2 = allocated demo_local.
Proof.
  destruct (CreateGpuMemory 0 demo_create_info 0 granted_world) as [[r w1]|] eqn:E; [|vm_compute in E; discriminate E].
  assert (r = (Success, Some 0x5000, 0)) as Er by (vm_compute in E; injection E; intros; subst; reflexivity).
  rewrite Er in E.
  pose proof (Create_delete_roundtrip _ _ _ _ _ _ _ _ _ _ _ granted_creatable E) as H.
  destruct H as (w2 & evs & m2 & Hrun & _ & Hmem & Hm & _ & Hsame & _).
  exists w1, w2, m2. split; [rewrite Er; reflexivity|]. split; [exact Hrun|]. split; [exact Hmem|].
  split; [exact Hm|exact Hsame].
Defined.
