(* ===== verification/Memory.v ===== *)
(** * Memory: the exported memory functions (src/memory.cpp, src/libdrm.cpp)

    The allocation map from addresses to [GpuMemory] objects, the allocation
    path with its sub-allocator, release, mapping of user memory, import and
    export. A pointer argument is its address ([0] is [nullptr]); an out
    argument is a component of the result. *)

From Stdlib Require Import String.
From S2P Require Import Prelude.
From S2P Require Import StdMap.
From S2P Require Import BitField.
From S2P Require Import Utils.
From S2P Require Import VaMgr.
From S2P Require Import SimpleHeap.
From S2P Require Import Status.
From S2P Require Import World.
From S2P Require Import Runtime.
From S2P Require Import Device.
From S2P Require Import GpuMemory.
#[local] Open Scope Z_scope.

(** ** Data *)

(** Positions in [HsaMemFlags]. *)
Definition MF_NonPaged : Z := 0.
Definition MF_HostAccess : Z := 6.
Definition MF_NoSubstitute : Z := 7.
Definition MF_Scratch : Z := 9.
Definition MF_ExecuteAccess : Z := 12.
Definition MF_CoarseGrain : Z := 13.
Definition MF_FixedAddress : Z := 15.
Definition MF_Uncached : Z := 17.
Definition MF_NoAddress : Z := 18.
Definition MF_OnlyAddress : Z := 19.
Definition MF_ExtendedCoherent : Z := 20.
Definition MF_GTTAccess : Z := 21.
Definition MF_Contiguous : Z := 22.
Definition MF_ExecuteBlit : Z := 23.

(** [thunk_proxy::MemFlag] *)
Definition kFineGrain : Z := 1.
Definition kKernarg : Z := 2.

(** [HSA_PAGE_SIZE]; the default case asserts. *)
Definition PageSizeFromFlags (pageSizeFlags : Z) : option Z :=
  if pageSizeFlags =? 0 then Some (4 * 1024)
  else if pageSizeFlags =? 1 then Some (64 * 1024)
  else if pageSizeFlags =? 2 then Some (2 * 1024 * 1024)
  else if pageSizeFlags =? 3 then Some (1024 * 1024 * 1024)
  else None.

Definition with_rocr_userdata (x : Z) (a : Allocation) : Allocation :=
  mkAllocation (al_handle a) (al_cpu_addr a) (al_gpu_addr a) (al_size a) (al_userptr a) (al_user_data a)
    (al_size_requested a) (al_node_id a) (al_mem_flags_value a) (al_dmabuf_fd a) x.
Definition with_dmabuf_fd (x : Z) (a : Allocation) : Allocation :=
  mkAllocation (al_handle a) (al_cpu_addr a) (al_gpu_addr a) (al_size a) (al_userptr a) (al_user_data a)
    (al_size_requested a) (al_node_id a) (al_mem_flags_value a) x (al_rocr_userdata a).

(** [BlockAllocator::block_size_], 128 MB *)
Definition block_size_ : Z := 128 * 1024 * 1024.

(** ** The requests of an allocation *)

(** A scratch pool is treated as a reservation of addresses. *)
Definition scratch_flags (flags size : Z) : Z :=
  if bit MF_Scratch flags && bit MF_HostAccess flags && (0x80000000 <? size)
  then bit_set MF_OnlyAddress true flags else flags.

(** Does the request go to system memory? *)
Definition wants_system (rt : hsakmtRuntime) (node flags : Z) : bool :=
  ((node =? 0) && bit MF_HostAccess flags) || negb (zfb_support rt =? 0) || bit MF_GTTAccess flags.

(** VRAM under ZFB mode becomes coarse grained. *)
Definition zfb_flags (rt : hsakmtRuntime) (system : bool) (flags : Z) : Z :=
  if system && negb (zfb_support rt =? 0) && bit MF_NonPaged flags
  then bit_set MF_CoarseGrain true flags else flags.

(** Is the request pure address space, pure storage or contiguous? *)
Definition is_vmm (flags : Z) : bool :=
  bit MF_OnlyAddress flags || bit MF_NoAddress flags || bit MF_Contiguous flags.

(** [create_info], once the flags are final. *)
Definition alloc_create_info (system : bool) (size alignment flags va_hint : Z) : GpuMemoryCreateInfo :=
  let fl := bit_set CF_sysmem_ipc_sig_exporter
              (system && bit MF_NonPaged flags && negb (bit MF_GTTAccess flags)) 0 in
  let fl := bit_set CF_physical_only (bit MF_NoAddress flags) fl in
  let fl := bit_set CF_alloc_va (negb (bit MF_NoAddress flags)) fl in
  let fl := bit_set CF_interprocess (bit MF_NoAddress flags || bit MF_Contiguous flags) fl in
  let fl := bit_set CF_physical_contiguous (bit MF_Contiguous flags) fl in
  let fl := bit_set CF_locked (bit MF_NoSubstitute flags) fl in
  let fl := bit_set CF_virtual_alloc (bit MF_OnlyAddress flags) fl in
  let fl := bit_set CF_blit_kernel_object
              (bit MF_ExecuteBlit flags && bit MF_ExecuteAccess flags && system) fl in
  mkCreateInfo fl (if system && negb (is_vmm flags) then kSystem else kLocal) size alignment
    (Z.lor (if bit MF_CoarseGrain flags then 0 else kFineGrain) (if bit MF_Uncached flags then kKernarg else 0))
    0 (-1) 0 va_hint.

Section memory.
Context {K : Type} `{Kernel K}.

Definition amap_find (a : Z) : M K (option Allocation) := mget (fun w => map_find a (w_amap w)).
Definition amap_set (a : Z) (x : Allocation) : M K unit := mset (fun w => set_amap (map_set a x (w_amap w)) w).
Definition amap_erase (a : Z) : M K unit := mset (fun w => set_amap (map_erase a (w_amap w)) w).
(** [upper_bound(a)] stepped back, [None] at [begin()]. *)
Definition amap_floor (a : Z) : M K (option (Z * Allocation)) := mget (fun w => map_floor a (w_amap w)).

Definition isSystemMemoryAvailable (size : Z) : M K bool :=
  info ← kcall_ sys_sysinfo;
  mret (if negb (info.1 =? 0) then false else size <=? info.2.2).

(** ** Allocation *)

(** Create the object and record it: [None] when no memory was created. *)
Definition create_and_record (dev : nat) (ci : GpuMemoryCreateInfo) (node size flags : Z) : M K (option Z) :=
  '(code, mem, _) ← CreateGpuMemory dev ci 0;
  if ErrorCode_ok code then
    p ← mderef mem;
    g ← get_mem p;
    let a := if bit CF_physical_only (ci_flags ci) || (0 <? ci_dmabuf_fd ci)
             then desc_handle_ape_addr (desc_ g) else GpuAddress g in
    amap_set a (mkAllocation p a a (ci_size ci) false 0 size
                  (if bit MF_GTTAccess flags then 0 else node) flags (-1) 0) ;;
    mret (Some a)
  else mret None.

(** [hsaKmtAllocMemoryAlignInternal] over its two uses of the sub-allocator. The
    in-out argument is [None] for a null [MemoryAddress]. *)
Definition AllocMemoryAlign_with (suballoc : Z -> M K Z) (trim : M K unit)
    (PreferredNode SizeInBytes Alignment MemFlags : Z) (MemoryAddress : option Z) (SkipSubAlloc : bool)
    : M K (HSAKMT_STATUS * Z) :=
  let addr0 := default 0 MemoryAddress in
  CHECK_DXG_OPEN (fun s => (s, addr0))
  (if bool_decide (MemoryAddress = None) then mret (HSAKMT_STATUS_INVALID_PARAMETER, addr0)
   else if bit MF_FixedAddress MemFlags && (addr0 =? 0) then mret (HSAKMT_STATUS_INVALID_PARAMETER, addr0)
   else
     let addr := if bit MF_FixedAddress MemFlags then addr0 else 0 in
     rt ← get_rt;
     let node := if PreferredNode =? 0 then default_node rt else PreferredNode in
     o ← get_wddmdev node;
     match o with
     | None => mret (HSAKMT_STATUS_ERROR, addr)
     | Some dev =>
         let flags := scratch_flags MemFlags SizeInBytes in
         let system := wants_system rt PreferredNode flags in
         refused ← (if system then
                      if max_single_alloc_size rt <? SizeInBytes then mret true
                      else if check_avail_sysram rt then
                        ok ← isSystemMemoryAvailable SizeInBytes; mret (negb ok)
                      else mret false
                    else mret false);
         if (refused : bool) then mret (HSAKMT_STATUS_NO_MEMORY, addr)
         else
           let flags := zfb_flags rt system flags in
           let ci := alloc_create_info system SizeInBytes Alignment flags addr in
           let skip := SkipSubAlloc || is_vmm flags in
           '(sub, addr, trim_safe) ←
             (if negb skip && bool_decide (ci_domain ci = kLocal) then
                real_size ← (if GPU_HUGE_PAGE_SIZE <? ci_size ci
                             then mret (AlignUp64 (ci_size ci) GPU_HUGE_PAGE_SIZE)
                             else pg ← kcall_ sys_page_size; mret (AlignUp64 (ci_size ci) pg));
                if real_size <? block_size_ then
                  a ← suballoc real_size; mret (negb (a =? 0), a, true)
                else mret (false, addr, true)
              else mret (false, addr, false));
           if (sub : bool) then mret (HSAKMT_STATUS_SUCCESS, addr)
           else
             r ← create_and_record dev ci PreferredNode SizeInBytes flags;
             match r with
             | Some a => mret (HSAKMT_STATUS_SUCCESS, a)
             | None =>
                 if (trim_safe : bool) then
                   trim ;;
                   r ← create_and_record dev ci PreferredNode SizeInBytes flags;
                   match r with
                   | Some a => mret (HSAKMT_STATUS_SUCCESS, a)
                   | None => mret (HSAKMT_STATUS_ERROR, addr)
                   end
                 else mret (HSAKMT_STATUS_ERROR, addr)
             end
     end).

(** ** Release *)

(** [hsaKmtFreeMemoryInternal] without the sub-allocator. *)
Definition free_direct (MemoryAddress : Z) : M K HSAKMT_STATUS :=
  o ← amap_find MemoryAddress;
  match o with
  | None => mret HSAKMT_STATUS_ERROR
  | Some al =>
      let p := al_handle al in
      g ← get_mem p;
      if IsQueueReferenced g then mret HSAKMT_STATUS_ERROR
      else
        referenced ← (if desc_flag DF_is_imported_vram_ipc g then
                        let '(n, g') := DecSharedReference g in
                        set_mem p g' ;; mret (negb (n =? 0))
                      else mret false);
        if (referenced : bool) then mret HSAKMT_STATUS_SUCCESS
        else
          (if 0 <=? al_dmabuf_fd al then kcall_ (sys_close (al_dmabuf_fd al)) ≫= (fun _ => mret tt)
           else mret tt) ;;
          amap_erase MemoryAddress ;;
          GpuMemory_delete p ;;
          mret HSAKMT_STATUS_SUCCESS
  end.

Definition FreeMemory_with (subfree : Z -> M K bool) (MemoryAddress : Z) (SkipSubAlloc : bool)
    : M K HSAKMT_STATUS :=
  CHECK_DXG_OPEN id
  (if MemoryAddress =? 0 then mret HSAKMT_STATUS_INVALID_PARAMETER
   else
     freed ← (if SkipSubAlloc then mret false else subfree MemoryAddress);
     if (freed : bool) then mret HSAKMT_STATUS_SUCCESS else free_direct MemoryAddress).

(** ** The sub-allocator's block allocator

    It calls the two functions above with [SkipSubAlloc], which never reaches
    the sub-allocator again. *)

Definition BlockAllocator_flags : Z := bit_set MF_NoSubstitute true (bit_set MF_CoarseGrain true 0).

Definition BlockAllocator_alloc (request_size : Z) : M K (Z * Z) :=
  let allocated_size := AlignUp64 request_size block_size_ in
  '(status, address) ←
    AllocMemoryAlign_with (fun _ => abort) abort 1 allocated_size 0 BlockAllocator_flags (Some 0) true;
  mret (if decide (status = HSAKMT_STATUS_SUCCESS) then address else 0, allocated_size).

Definition BlockAllocator_free (ptr length : Z) : M K unit :=
  FreeMemory_with (fun _ => abort) ptr true ;; mret tt.

#[local] Instance world_block_allocator : BlockAllocator (World K) := {
  ba_alloc n w := '(r, w') ← BlockAllocator_alloc n w; Some (r, w');
  ba_free p n w := '(_, w') ← BlockAllocator_free p n w; Some w';
  ba_block_size := block_size_;
}.

(** [fragment_allocator_.alloc(n)], [.free(p)], [.trim()] and [.block_base(p)]. *)
Definition fa_alloc (n : Z) : M K Z := fun w =>
  '(a, h, w') ← SimpleHeap_alloc n (w_fa w) w; Some (a, set_fa h w').
Definition fa_free (p : Z) : M K bool := fun w =>
  '(b, h, w') ← SimpleHeap_free p (w_fa w) w; Some (b, set_fa h w').
Definition trim_suballocator : M K unit := fun w =>
  '(h, w') ← SimpleHeap_trim (w_fa w) w; Some (tt, set_fa h w').
Definition fa_block_base (p : Z) : M K Z := mget (fun w => SimpleHeap_block_base p (w_fa w)).

Definition hsaKmtAllocMemoryAlignInternal := AllocMemoryAlign_with fa_alloc trim_suballocator.

Definition hsaKmtAllocMemoryAlign (node size alignment flags : Z) (addr : option Z)
    : M K (HSAKMT_STATUS * Z) :=
  rt ← get_rt;
  hsaKmtAllocMemoryAlignInternal node size alignment flags addr (enable_thunk_sub_allocator rt =? 0).

Definition hsaKmtAllocMemory (node size flags : Z) (addr : option Z) : M K (HSAKMT_STATUS * Z) :=
  hsaKmtAllocMemoryAlign node size 0 flags addr.

Definition hsaKmtFreeMemoryInternal := FreeMemory_with fa_free.

Definition hsaKmtFreeMemory (addr size : Z) : M K HSAKMT_STATUS := hsaKmtFreeMemoryInternal addr false.

(** ** References held by queues *)

(** [return HSAKMT_STATUS_ERROR] of a [bool] function is [true]. *)
Definition queue_acquire_buffer (a : Z) : M K bool :=
  if a =? 0 then mret false
  else
    o ← amap_find a;
    match o with
    | None => mret (negb (HSAKMT_STATUS_value HSAKMT_STATUS_ERROR =? 0))
    | Some al => mod_mem (al_handle al) GetQueueReference ;; mret true
    end.

Definition queue_release_buffer (a : Z) : M K bool :=
  if a =? 0 then mret false
  else
    o ← amap_find a;
    match o with
    | None => mret (negb (HSAKMT_STATUS_value HSAKMT_STATUS_ERROR =? 0))
    | Some al => mod_mem (al_handle al) PutQueueReference ;; mret true
    end.

(** [0] is [nullptr]. *)
Definition get_gpu_mem (a : Z) : M K Z :=
  o ← amap_find a; mret (match o with None => 0 | Some al => al_handle al end).

(** ** Queries and registration *)

(** An out argument of type [HSAuint64*]: [None] is a null pointer. *)
Definition hsaKmtAvailableMemory (node : Z) (out : option Z) : M K (HSAKMT_STATUS * option Z) :=
  CHECK_DXG_OPEN (fun s => (s, out))
  (match out with
   | None => mret (HSAKMT_STATUS_INVALID_PARAMETER, out)
   | Some _ =>
       o ← get_wddmdev node;
       match o with
       | None => mret (HSAKMT_STATUS_ERROR, out)
       | Some i => n ← VramAvail i; mret (HSAKMT_STATUS_SUCCESS, Some n)
       end
   end).

Definition hsaKmtRegisterMemoryWithFlags (addr size flags : Z) : M K HSAKMT_STATUS :=
  CHECK_DXG_OPEN id
  (rt ← get_rt;
   mret (if addr =? 0 then HSAKMT_STATUS_INVALID_PARAMETER
         else if bit MF_ExtendedCoherent flags && bit MF_CoarseGrain flags
         then HSAKMT_STATUS_INVALID_PARAMETER
         else if negb (bit MF_HostAccess flags) || bit MF_NonPaged flags then HSAKMT_STATUS_NOT_SUPPORTED
         else if negb (hsakmt_is_dgpu rt) then HSAKMT_STATUS_NOT_SUPPORTED
         else HSAKMT_STATUS_SUCCESS)).

Definition is_ipc_sysmemfd (fd : Z) : M K bool :=
  link ← kcall_ (sys_readlink_fd fd);
  mret (match link with
        | None => false
        | Some s => bool_decide (is_Some (String.index 0 "rocr4wsl_gtt" s))
        end).

Record HsaPointerInfo := mkPointerInfo {
  pi_Type : Z;     (* HSA_POINTER_UNKNOWN 0, ALLOCATED 1, REGISTERED_USER 2, RESERVED_ADDR 5 *)
  pi_Node : Z;
  pi_MemFlags : Z;
  pi_CPUAddress : Z;
  pi_GPUAddress : Z;
  pi_SizeInBytes : Z;
  pi_UserData : Z;
}.

Definition hsaKmtQueryPointerInfo (Pointer : Z) (out : option HsaPointerInfo)
    : M K (HSAKMT_STATUS * option HsaPointerInfo) :=
  CHECK_DXG_OPEN (fun s => (s, out))
  (if (Pointer =? 0) || bool_decide (out = None) then mret (HSAKMT_STATUS_INVALID_PARAMETER, out)
   else
     o ← amap_floor Pointer;
     let found := match o with
                  | Some (k, al) => if Pointer <? k +64 al_size_requested al then Some al else None
                  | None => None
                  end in
     match found with
     | None => mret (HSAKMT_STATUS_ERROR, Some (mkPointerInfo 0 0 0 0 0 0 0))
     | Some al =>
         virtual ← (if al_userptr al then mret false else g ← get_mem (al_handle al); mret (IsVirtual g));
         let ty := if al_userptr al then 2 else if (virtual : bool) then 5 else 1 in
         let size := if al_userptr al then al_size al else if virtual then 0 else al_size_requested al in
         mret (HSAKMT_STATUS_SUCCESS,
               Some (mkPointerInfo ty (al_node_id al) (al_mem_flags_value al) (al_cpu_addr al)
                       (al_gpu_addr al) size (al_rocr_userdata al)))
     end).

Definition hsaKmtSetMemoryUserData (Pointer UserData : Z) : M K HSAKMT_STATUS :=
  CHECK_DXG_OPEN id
  (let aligned_ptr := AlignDown64 Pointer 4096 in
   o ← amap_find aligned_ptr;
   match o with
   | None => mret HSAKMT_STATUS_ERROR
   | Some al => amap_set aligned_ptr (with_rocr_userdata UserData al) ;; mret HSAKMT_STATUS_SUCCESS
   end).

(** ** Mapping to the GPU *)

Definition hsaKmtMapMemoryToGPUNodes (MemoryAddress size : Z) (AlternateVAGPU : option Z) (nodes : list Z)
    : M K (HSAKMT_STATUS * option Z) :=
  CHECK_DXG_OPEN (fun s => (s, AlternateVAGPU))
  (if (MemoryAddress =? 0) || bool_decide (AlternateVAGPU = None) then mret (HSAKMT_STATUS_ERROR, AlternateVAGPU)
   else
     let aligned_ptr := AlignDown64 MemoryAddress 4096 in
     let aligned_size := AlignUp64 (MemoryAddress +64 size) 4096 -64 aligned_ptr in
     blk ← fa_block_base aligned_ptr;
     if negb (blk =? 0) then mret (HSAKMT_STATUS_SUCCESS, AlternateVAGPU)
     else
       o ← amap_find aligned_ptr;
       ipc ← match o with
             | None => mret None
             | Some al =>
                 g ← get_mem (al_handle al);
                 mret (if desc_flag DF_is_imported_vram_ipc g then Some (al_handle al, g) else None)
             end;
       match ipc with
       | Some (p, g) =>
           code ← GpuMemory_MapGpuVirtualAddress p (GpuAddress g) (Size g) 0;
           if negb (ErrorCode_ok code) then mret (HSAKMT_STATUS_ERROR, AlternateVAGPU)
           else
             code ← MakeResident p;
             if negb (ErrorCode_ok code) then mret (HSAKMT_STATUS_ERROR, AlternateVAGPU)
             else
               ok ← WaitOnPagingFenceFromCpu (device_ g);
               mret (if (ok : bool) then HSAKMT_STATUS_SUCCESS else HSAKMT_STATUS_ERROR, AlternateVAGPU)
       | None =>
           let plain := match o with
                        | Some al => if al_userptr al then None else Some al
                        | None => None
                        end in
           match plain with
           | Some al =>
               mret (if size <=? al_size al then (HSAKMT_STATUS_SUCCESS, Some MemoryAddress)
                     else (HSAKMT_STATUS_ERROR, AlternateVAGPU))
           | None =>
               o ← amap_find MemoryAddress;
               let user := match o with
                           | Some al => if al_userptr al && (size <=? al_size al) then Some al else None
                           | None => None
                           end in
               match user with
               | Some al =>
                   mret (HSAKMT_STATUS_SUCCESS,
                         Some (al_gpu_addr al +64 (MemoryAddress -64 al_cpu_addr al)))
               | None =>
                   node ← mderef (head nodes);
                   o ← get_wddmdev node;
                   match o with
                   | None => mret (HSAKMT_STATUS_ERROR, AlternateVAGPU)
                   | Some dev =>
                       '(code, mem, _) ← CreateGpuMemory dev
                          (mkCreateInfo 0 kUserMemory aligned_size 0 0 0 (-1) aligned_ptr 0) 0;
                       if ErrorCode_ok code then
                         p ← mderef mem;
                         g ← get_mem p;
                         let addr := GpuAddress g in
                         amap_set MemoryAddress
                           (mkAllocation p aligned_ptr addr aligned_size true MemoryAddress size 0 0 (-1) 0) ;;
                         amap_set addr
                           (mkAllocation p aligned_ptr addr aligned_size true 0 size 0 0 (-1) 0) ;;
                         mret (HSAKMT_STATUS_SUCCESS, Some (addr +64 (MemoryAddress -64 aligned_ptr)))
                       else mret (HSAKMT_STATUS_ERROR, AlternateVAGPU)
                   end
               end
           end
       end).

Definition hsaKmtMapMemoryToGPU (MemoryAddress size : Z) (AlternateVAGPU : option Z)
    : M K (HSAKMT_STATUS * option Z) :=
  rt ← get_rt; hsaKmtMapMemoryToGPUNodes MemoryAddress size AlternateVAGPU [default_node rt].

Definition hsaKmtUnmapMemoryToGPU (MemoryAddress : Z) : M K HSAKMT_STATUS :=
  CHECK_DXG_OPEN id
  (if MemoryAddress =? 0 then mret HSAKMT_STATUS_SUCCESS
   else
     blk ← fa_block_base MemoryAddress;
     if negb (blk =? 0) then mret HSAKMT_STATUS_SUCCESS
     else
       o ← amap_find MemoryAddress;
       match o with
       | None => mret HSAKMT_STATUS_ERROR
       | Some al =>
           let p := al_handle al in
           g ← get_mem p;
           if IsQueueReferenced g then mret HSAKMT_STATUS_ERROR
           else if desc_flag DF_is_imported_vram_ipc g && negb (IsSharedFromSameProcess g) then
             code ← GpuMemory_UnmapGpuVirtualAddress p (GpuAddress g) (Size g) 0;
             if negb (ErrorCode_ok code) then mret HSAKMT_STATUS_ERROR
             else Evict p ;; mret HSAKMT_STATUS_SUCCESS
           else mret HSAKMT_STATUS_SUCCESS
       end).

(** Deregistering user memory reads the map entry it has just erased. *)
Definition hsaKmtDeregisterMemory (MemoryAddress : Z) : M K HSAKMT_STATUS :=
  CHECK_DXG_OPEN id
  (if MemoryAddress =? 0 then mret HSAKMT_STATUS_INVALID_PARAMETER
   else
     o ← amap_find MemoryAddress;
     match o with
     | None => mret HSAKMT_STATUS_SUCCESS
     | Some al =>
         let p := al_handle al in
         g ← get_mem p;
         last_one ← (if desc_flag DF_is_imported_vram_ipc g then
                       let '(n, g') := DecSharedReference g in
                       set_mem p g' ;; mret (n =? 0)
                     else mret false);
         if (last_one : bool) then
           amap_erase MemoryAddress ;; GpuMemory_delete p ;; mret HSAKMT_STATUS_SUCCESS
         else if al_userptr al then amap_erase MemoryAddress ;; abort
         else mret HSAKMT_STATUS_SUCCESS
     end).

(** ** Export and import *)

(** The result, [*DMABufFd] and [*Offset]; [access] is SHARED_ALLOCATION_ALL_ACCESS. *)
Definition hsaKmtExportDMABufHandle (access : Z) (MemoryAddress fd offset : Z)
    : M K (HSAKMT_STATUS * Z * Z) :=
  CHECK_DXG_OPEN (fun s => (s, fd, offset))
  (o ← amap_floor MemoryAddress;
   match o with
   | None => mret (HSAKMT_STATUS_ERROR, fd, offset)
   | Some (k, al) =>
       let finish (shared : Z) :=
         d ← kcall_ (sys_dup shared);
         mret (HSAKMT_STATUS_SUCCESS, d, MemoryAddress -64 al_gpu_addr al) in
       if al_dmabuf_fd al =? -1 then
         '(code, fd') ← ExportPhysicalHandle (al_handle al) fd access;
         if negb (ErrorCode_ok code) then mret (HSAKMT_STATUS_ERROR, fd', offset)
         else amap_set k (with_dmabuf_fd fd' al) ;; finish fd'
       else finish (al_dmabuf_fd al)
   end).

(** The result and [*GpuMemHandle]. *)
Definition import_dmabuf_fd (fd node : Z) (alloc_va is_ipc_memfd : bool) (handle0 : Z)
    : M K (HSAKMT_STATUS * Z) :=
  CHECK_DXG_OPEN (fun s => (s, handle0))
  (o ← get_wddmdev node;
   rt ← get_rt;
   sysmem ← (if is_ipc_memfd then
               sz ← kcall_ (sys_fstat_size fd);
               let sz := u64 sz in
               mret (if (4096 <=? sz) && (sz <? space_size (system_heap rt)) && (Z.land sz 0xfff =? 0)
                     then Some sz else None)
             else mret None);
   let fl := bit_set CF_sysmem_ipc_sig_importer (bool_decide (is_Some sysmem)) (bit_set CF_alloc_va alloc_va 0) in
   dev ← mderef o;
   '(code, mem, gpu_va) ← CreateGpuMemory dev (mkCreateInfo fl kLocal (default 0 sysmem) 0 0 0 fd 0 0) 0;
   if decide (code = SameProcessSameDevice) then
     o ← amap_find gpu_va;
     match o with
     | None => mret (HSAKMT_STATUS_ERROR, 0)
     | Some al => mod_mem (al_handle al) IncSharedReference ;; mret (HSAKMT_STATUS_SUCCESS, al_handle al)
     end
   else if negb (ErrorCode_ok code) then mret (HSAKMT_STATUS_ERROR, 0)
   else
     p ← mderef mem;
     g ← get_mem p;
     let a := if alloc_va then GpuAddress g else desc_handle_ape_addr (desc_ g) in
     amap_set a (mkAllocation p a a (Size g) false 0 (desc_client_size (desc_ g)) node
                   (desc_flags (desc_ g)) (-1) 0) ;;
     mret (HSAKMT_STATUS_SUCCESS, p)).

Record HsaGraphicsResourceInfo := mkGraphicsResourceInfo {
  gri_MemoryAddress : Z;
  gri_SizeInBytes : Z;
  gri_NodeId : Z;
}.

Definition hsaKmtRegisterGraphicsHandleToNodesExt (handle : Z) (info : HsaGraphicsResourceInfo)
    (nodes : list Z) (requiresVAddr : bool) : M K (HSAKMT_STATUS * HsaGraphicsResourceInfo) :=
  CHECK_DXG_OPEN (fun s => (s, info))
  (let fd := s32 handle in   (* the parameter of both callees is an [int] *)
   ipc ← is_ipc_sysmemfd fd;
   rt ← get_rt;
   if (ipc : bool) then
     mret (HSAKMT_STATUS_SUCCESS,
           mkGraphicsResourceInfo (gri_MemoryAddress info) (gri_SizeInBytes info) (default_node rt))
   else
     let requiresVAddr := if bool_decide (nodes = []) then false else requiresVAddr in
     let node := default (default_node rt) (head nodes) in
     '(ret, p) ← import_dmabuf_fd fd node requiresVAddr false 0;
     if negb (bool_decide (ret = HSAKMT_STATUS_SUCCESS)) then mret (ret, info)
     else
       g ← get_mem p;
       d ← get_dev (device_ g);
       mret (ret, mkGraphicsResourceInfo
                    (if requiresVAddr then GpuAddress g else desc_handle_ape_addr (desc_ g))
                    (desc_client_size (desc_ g)) (node_id_ d))).

Definition hsaKmtRegisterGraphicsHandleToNodes (handle : Z) (info : HsaGraphicsResourceInfo) (nodes : list Z)
    : M K (HSAKMT_STATUS * HsaGraphicsResourceInfo) :=
  hsaKmtRegisterGraphicsHandleToNodesExt handle info nodes false.

(** ** The libdrm shims (libdrm.cpp) *)

Definition hsaKmtGetAMDGPUDeviceHandle (node : Z) : M K (HSAKMT_STATUS * option nat) :=
  CHECK_DXG_OPEN (fun s => (s, None))
  (o ← get_wddmdev node;
   mret (if bool_decide (is_Some o) then HSAKMT_STATUS_SUCCESS else HSAKMT_STATUS_ERROR, o)).

Definition amdgpu_device_get_fd_impl : M K Z := rt ← get_rt; mret (dxg_fd rt).

(** [*cpu], unchanged unless the object is imported system memory. *)
Definition amdgpu_bo_cpu_map_impl (bo cpu : Z) : M K (Z * Z) :=
  g ← get_mem bo;
  mret (0, if desc_flag DF_is_imported_sys_memfd g then desc_cpu_addr (desc_ g) else cpu).

Definition amdgpu_bo_free_impl (bo : Z) : M K Z :=
  g ← get_mem bo;
  let a := if desc_flag DF_is_va_required g then GpuAddress g else desc_handle_ape_addr (desc_ g) in
  ret ← hsaKmtFreeMemory a (Size g);
  mret (if decide (ret = HSAKMT_STATUS_SUCCESS) then 0 else -1).

Inductive amdgpu_bo_handle_type :=
  | amdgpu_bo_handle_type_gem_flink_name | amdgpu_bo_handle_type_kms | amdgpu_bo_handle_type_dma_buf_fd.

(** The result and [buf_handle], [alloc_size] of the output. *)
Definition amdgpu_bo_import_impl (dev : nat) (type : amdgpu_bo_handle_type) (shared_handle : Z)
    : M K (Z * (Z * Z)) :=
  match type with
  | amdgpu_bo_handle_type_dma_buf_fd =>
      d ← get_dev dev;
      let fd := s32 shared_handle in   (* a [uint32_t] passed as an [int] *)
      ipc ← is_ipc_sysmemfd fd;
      '(ret, p) ← import_dmabuf_fd fd (node_id_ d) ipc ipc 0;
      if decide (ret = HSAKMT_STATUS_SUCCESS) then
        g ← get_mem p; mret (0, (p, desc_client_size (desc_ g)))
      else mret (-1, (0, 0))
  | _ => mret (-1, (0, 0))
  end.

Inductive va_ops := AMDGPU_VA_OP_MAP | AMDGPU_VA_OP_UNMAP | AMDGPU_VA_OP_OTHER.

Definition amdgpu_bo_va_op_impl (bo offset size addr : Z) (ops : va_ops) : M K Z :=
  g ← get_mem bo;
  match ops with
  | AMDGPU_VA_OP_MAP =>
      if GpuAddress g =? addr then mret 0
      else if negb (GpuAddress g =? 0) then mret (-1)
      else
        code ← GpuMemory_MapGpuVirtualAddress bo addr size offset;
        if negb (ErrorCode_ok code) then mret (-1)
        else
          code ← MakeResident bo;
          mret (if ErrorCode_ok code then 0 else -1)
  | AMDGPU_VA_OP_UNMAP =>
      code ← GpuMemory_UnmapGpuVirtualAddress bo addr size offset;
      if negb (ErrorCode_ok code) then mret (-1) else Evict bo ;; mret 0
  | AMDGPU_VA_OP_OTHER => mret 0
  end.

(** ** Memory objects by handle *)

Definition of_int (r : Z) : HSAKMT_STATUS := if r =? 0 then HSAKMT_STATUS_SUCCESS else HSAKMT_STATUS_ERROR.

(** On the fields of the descriptor, [fd] an [HSAint32]; any type but the two first is a
    dma-buf. *)
Definition hsaKmtHandleImport (dev : nat) (fd type : Z) : M K (HSAKMT_STATUS * (Z * Z)) :=
  CHECK_DXG_OPEN (fun s => (s, (0, 0)))
  (let type := if type =? 0 then amdgpu_bo_handle_type_gem_flink_name
               else if type =? 1 then amdgpu_bo_handle_type_kms else amdgpu_bo_handle_type_dma_buf_fd in
   '(ret, res) ← amdgpu_bo_import_impl dev type (u32 fd);
   mret (of_int ret, res)).

Definition hsaKmtMemoryVaMap (Handle offset size addr : Z) : M K HSAKMT_STATUS :=
  CHECK_DXG_OPEN id
  (if Handle =? 0 then mret HSAKMT_STATUS_ERROR
   else ret ← amdgpu_bo_va_op_impl Handle offset size addr AMDGPU_VA_OP_MAP; mret (of_int ret)).

Definition hsaKmtMemoryVaUnmap (Handle offset size addr : Z) : M K HSAKMT_STATUS :=
  CHECK_DXG_OPEN id
  (if Handle =? 0 then mret HSAKMT_STATUS_ERROR
   else ret ← amdgpu_bo_va_op_impl Handle offset size addr AMDGPU_VA_OP_UNMAP; mret (of_int ret)).

Definition hsaKmtMemHandleFree (Handle : Z) : M K HSAKMT_STATUS :=
  CHECK_DXG_OPEN id (ret ← amdgpu_bo_free_impl Handle; mret (of_int ret)).

Definition hsaKmtMemoryCpuMap (Handle out : Z) : M K (HSAKMT_STATUS * Z) :=
  CHECK_DXG_OPEN (fun s => (s, out))
  ('(ret, cpu) ← amdgpu_bo_cpu_map_impl Handle out; mret (of_int ret, cpu)).

(** The result, [*fd] and [*cpu_addr]. *)
Definition hsaKmtMemoryGetCpuAddr (Handle fd cpu_addr : Z) : M K (HSAKMT_STATUS * Z * Z) :=
  CHECK_DXG_OPEN (fun s => (s, fd, cpu_addr))
  (fd ← amdgpu_device_get_fd_impl;
   '(ret, cpu) ← amdgpu_bo_cpu_map_impl Handle 0;
   mret (if ret =? 0 then (HSAKMT_STATUS_SUCCESS, fd, cpu) else (HSAKMT_STATUS_ERROR, fd, cpu_addr))).
End memory.
