(* ===== verification/RuntimeSpec.v ===== *)
(** * RuntimeSpec: the address spaces of the runtime object

    The system heap commits what its manager hands out or takes it back; the
    search for the handle aperture ends within its fuel and what it does and
    does not avoid. *)

From Stdlib Require Import String.
From S2P Require Import Prelude.
From S2P Require Import StdMap.
From S2P Require Import BitField.
From S2P Require Import Utils.
From S2P Require Import VaMgr.
From S2P Require Import VaMgrSpec.
From S2P Require Import SimpleHeap.
From S2P Require Import Status.
From S2P Require Import World.
From S2P Require Import Runtime.
From S2P Require Import Device.
From S2P Require Import Demo.
#[local] Open Scope Z_scope.

(** ** The system heap *)

Definition system_mgr {K} (w : World K) : option VaMgr := space_mgr (system_heap (w_rt w)).

Definition set_system {K} (m : VaMgr) (w : World K) : World K :=
  let s := system_heap (w_rt w) in
  set_rt (rt_system_heap (mkHeapSpace (space_start s) (space_size s) (Some m)) (w_rt w)) w.

(** The call [CommitSystemHeapSpace] makes. *)
Definition commit_call (addr size : Z) (lock : bool) : kcall (option Z) :=
  sys_mmap addr size [PROT_READ; PROT_WRITE; PROT_EXEC]
    ([MAP_PRIVATE; MAP_ANONYMOUS; MAP_FIXED; MAP_NORESERVE; MAP_UNINITIALIZED] ++
     (if lock then [MAP_LOCKED] else [])) (-1).

Section system.
Context {K : Type} `{Kernel K} {Hfixed : MmapFixed K}.
Implicit Types (w : World K).

Lemma heap_Alloc_system w m bytes align r m' :
  system_mgr w = Some m -> VaMgr_Alloc bytes align 0 m = Some (r, m') ->
  heap_Alloc system_heap rt_system_heap bytes align 0 w = Some (r, set_system m' w).
Proof.
  intros Hm Hr. unfold system_mgr in Hm. unfold heap_Alloc, get_rt, mget, mbind, M_bind, mderef.
  cbn -[VaMgr_Alloc]. rewrite Hm. cbn -[VaMgr_Alloc]. by rewrite Hr.
Qed.

Lemma heap_Free_system w m a :
  system_mgr w = Some m -> heap_Free system_heap rt_system_heap a w = Some (tt, set_system (VaMgr_Free a m) w).
Proof.
  intros Hm. unfold system_mgr in Hm. unfold heap_Free, get_rt, mget, mbind, M_bind, mderef.
  cbn -[VaMgr_Free]. by rewrite Hm.
Qed.

(** The outcome of a commit, given what mmap(2) promises of fixed mappings. *)
Lemma Commit_runs a size lock w :
  exists ok evs w', CommitSystemHeapSpace a size lock w = Some (ok, w') /\
    w_log w' = w_log w ++ KEvent (commit_call a size lock) (if ok then Some a else None) :: evs /\
    w_rt w' = w_rt w /\ w_devs w' = w_devs w /\ w_mems w' = w_mems w /\ w_amap w' = w_amap w /\ w_fa w' = w_fa w.
Proof using Hfixed.
  unfold CommitSystemHeapSpace. fold (commit_call a size lock).
  pose proof (mmap_fixed a size [PROT_READ; PROT_WRITE; PROT_EXEC]
    ([MAP_PRIVATE; MAP_ANONYMOUS; MAP_FIXED; MAP_NORESERVE; MAP_UNINITIALIZED] ++
     (if lock then [MAP_LOCKED] else [])) (-1) (w_ker w)) as Hf.
  fold (commit_call a size lock) in Hf. unfold kcall_.
  destruct (kernel_step _ (commit_call a size lock) (w_ker w)) as [r k] eqn:E.
  unfold mbind, M_bind. rewrite E. cbn [fst] in Hf.
  destruct Hf as [->| ->]; [apply elem_of_app; left; by apply (list_elem_of_In _ _); simpl; tauto| |].
  - exists false, []. eexists. by split_and!.
  - unfold massert. rewrite Z.eqb_refl.
    destruct (kernel_step _ (sys_madvise_dontfork a size) k) as [r2 k2] eqn:E2. cbn. rewrite E2.
    exists true. do 2 eexists. split; [reflexivity|]. cbn. rewrite <- app_assoc. by split_and!.
Qed.

Lemma system_mgr_rt w w' : w_rt w' = w_rt w -> system_mgr w' = system_mgr w.
Proof. unfold system_mgr. by intros ->. Qed.

(** C26: [ReserveGpuVirtualAddress] on the system heap, whatever the system calls
    answer: it hands out a fresh aligned block and has committed exactly that
    block; or the commit failed and the live blocks are what they were; or the
    heap is exhausted, which does not stop it from asking for a fixed mapping at
    address 0, and the code is [OutOfMemory] only when that mapping succeeds. *)
Theorem Runtime_Reserve_system lo hi m w size align lock :
  system_mgr w = Some m -> VaMgr_wf lo hi m -> 0 < size -> 0 <= align < 2 ^ 62 ->
  exists code a out w' m' ok evs,
    Runtime_ReserveGpuVirtualAddress kSystem 0 size align lock w = Some (code, out, w') /\
    w_log w' = w_log w ++ KEvent (commit_call a size lock) (if ok : bool then Some a else None) :: evs /\
    system_mgr w' = Some m' /\ VaMgr_wf lo hi m' /\
    ((code = Success /\ ok = true /\ a <> 0 /\ out = a /\
        spec_alloc lo hi size (reserve_align size align) (allocated m) a (allocated m')) \/
     (code = SyscallFail /\ ok = false /\ a <> 0 /\ out = 0 /\ allocated m' = allocated m) \/
     (a = 0 /\ out = 0 /\ allocated m' = allocated m /\ code = if ok then OutOfMemory else SyscallFail)).
Proof using Hfixed.
  intros Hm Hwf Hs Ha. unfold Runtime_ReserveGpuVirtualAddress. rewrite decide_True by done.
  pose proof (reserve_align_bound size align Ha) as Hal.
  destruct (am_alloc_ok (T := VaMgr) lo hi m size (reserve_align size align)) as (a & m1 & Hrun & Hwf1 & Hspec);
    [exact Hwf|done|done|]. cbn [am_alloc am_live VaMgr_AddressManager] in Hrun, Hspec.
  pose proof (heap_Alloc_system w m _ _ _ _ Hm Hrun) as Hr1.
  destruct (Commit_runs a size lock (set_system m1 w)) as (ok & evs & w2 & Hr2 & Hlog & Hrt & _).
  pose proof (heap_Free_system w2 m1 a) as Hr3. rewrite (system_mgr_rt _ _ Hrt) in Hr3. specialize (Hr3 eq_refl).
  set (c := if a =? 0 then OutOfMemory else Success).
  assert (Runtime_ReserveGpuVirtualAddress kSystem 0 size align lock w =
    Some (if ok then (c, if ErrorCode_ok c then a else 0, w2)
          else (SyscallFail, 0, set_system (VaMgr_Free a m1) w2))) as Hrun2.
  { unfold Runtime_ReserveGpuVirtualAddress. rewrite decide_True by done. unfold mbind, M_bind. rewrite Hr1.
    cbn -[CommitSystemHeapSpace heap_Free set_system ErrorCode_ok]. rewrite Hr2. destruct ok; [done|]. by rewrite Hr3. }
  unfold Runtime_ReserveGpuVirtualAddress in Hrun2. rewrite decide_True in Hrun2 by done. rewrite Hrun2.
  assert (a <> 0 -> allocated (VaMgr_Free a m1) = allocated m) as Hback.
  { intros Hne. by apply (spec_alloc_free lo hi size (reserve_align size align) m m1 a). }
  assert (a = 0 -> allocated m1 = allocated m /\ VaMgr_Free a m1 = m1) as Hzero.
  { intros ->. destruct Hspec as [[_ ?]|(? & _)]; [|pose proof (wf_lo _ _ _ Hwf); lia].
    split; [done|]. apply (Free_allocated _ _ _ _ Hwf1). destruct (allocated m1 !! 0) eqn:E; [|done].
    pose proof (wf_live_bounds _ _ _ _ _ Hwf1 E). pose proof (wf_lo _ _ _ Hwf). lia. }
  subst c. destruct ok, (Z.eqb_spec a 0) as [E|E].
  - exists OutOfMemory, a, 0, w2, m1, true, evs. destruct (Hzero E).
    split_and!; [done|exact Hlog|by rewrite (system_mgr_rt _ _ Hrt)|done|]. right. right. by split_and!.
  - exists Success, a, a, w2, m1, true, evs.
    split_and!; [done|exact Hlog|by rewrite (system_mgr_rt _ _ Hrt)|done|]. left. by split_and!.
  - exists SyscallFail, a, 0. do 2 eexists. exists false, evs. destruct (Hzero E) as [? Hf]. rewrite Hf.
    split_and!; [done|exact Hlog|reflexivity|done|]. right. right. by split_and!.
  - exists SyscallFail, a, 0. do 2 eexists. exists false, evs.
    split_and!; [done|exact Hlog|reflexivity|by apply Free_wf|]. right. left. split_and!; try done. by apply Hback.
Qed.
End system.

(** ** The handle aperture *)

(** Slots of 2^47 bytes. *)
Definition slot (k : Z) : Z := k * 2 ^ 47.

Definition apertures (d : WDDMDevice) : list (Z * Z) :=
  [(sd_PrivateApertureBase (shared_dev_ d), sd_PrivateApertureSize (shared_dev_ d));
   (sd_SharedApertureBase (shared_dev_ d), sd_SharedApertureSize (shared_dev_ d))].

(** No aperture of the device overlaps [start, start + size), as far as its own end
    and that of the range are below 2^64. *)
Definition avoids (d : WDDMDevice) (start size : Z) : Prop :=
  forall b n, (b, n) ∈ apertures d -> b <> 0 -> 0 <= b -> 0 <= n -> b + n < 2 ^ 64 -> start + size < 2 ^ 64 ->
    block_disjoint b n start size.

Lemma IS_OVERLAPPING_false b n start size :
  0 <= b -> 0 <= n -> b + n < 2 ^ 64 -> 0 <= start -> 0 <= size -> start + size < 2 ^ 64 ->
  IS_OVERLAPPING b n start size = false -> block_disjoint b n start size.
Proof.
  intros. unfold IS_OVERLAPPING, block_disjoint in *. rewrite !add64_small in * by lia.
  destruct (Z.ltb_spec b (start + size)), (Z.ltb_spec start (b + n)); try done; lia.
Qed.

Lemma device_overlaps_avoids d start size :
  0 <= start -> 0 <= size -> device_overlaps d start size = false -> avoids d start size.
Proof.
  intros Hs Hn Ho b n Hin Hb. unfold device_overlaps in Ho. apply orb_false_iff in Ho as [H1 H2].
  apply elem_of_cons in Hin as [Hin|Hin%list_elem_of_singleton]; injection Hin as -> ->; intros.
  - rewrite (proj2 (Z.eqb_neq _ _) Hb) in H1. by apply IS_OVERLAPPING_false.
  - rewrite (proj2 (Z.eqb_neq _ _) Hb) in H2. by apply IS_OVERLAPPING_false.
Qed.

(** Nothing overlaps the last slot: its end wraps around to 0. *)
Lemma device_overlaps_last d :
  0 <= sd_PrivateApertureBase (shared_dev_ d) -> 0 <= sd_SharedApertureBase (shared_dev_ d) ->
  device_overlaps d (slot (2 ^ 17 - 1)) (2 ^ 47) = false.
Proof.
  intros. unfold device_overlaps, IS_OVERLAPPING. change (slot (2 ^ 17 - 1) +64 2 ^ 47) with 0.
  destruct (Z.ltb_spec (sd_PrivateApertureBase (shared_dev_ d)) 0); [lia|].
  destruct (Z.ltb_spec (sd_SharedApertureBase (shared_dev_ d)) 0); [lia|]. cbn. by rewrite !andb_false_r.
Qed.

(** Every adapter is in the table, and the bases are unsigned. *)
Definition adapters_ok {K} (w : World K) : Prop :=
  w_nodes w = Z.of_nat (length (w_devs w)) + 1 /\
  Forall (fun d => 0 <= sd_PrivateApertureBase (shared_dev_ d) /\ 0 <= sd_SharedApertureBase (shared_dev_ d)) (w_devs w).

Section aperture.
Context {K : Type} `{Kernel K}.
Implicit Types (w : World K).

Lemma get_wddmdev_at w (j : nat) d :
  adapters_ok w -> w_devs w !! j = Some d -> get_wddmdev (Z.of_nat j + 1) w = Some (Some j, w).
Proof.
  intros [Hn _] Hd. pose proof (lookup_lt_Some _ _ _ Hd). unfold get_wddmdev.
  destruct (Nat.eqb_spec (length (w_devs w)) 0); [lia|]. rewrite Hn.
  rewrite (proj2 (Z.eqb_neq (Z.of_nat j + 1) 0)), (proj2 (Z.leb_gt (Z.of_nat (length (w_devs w)) + 1) (Z.of_nat j + 1))) by lia.
  cbn. replace (Z.to_nat (Z.of_nat j + 1 - 1)) with j by lia. by rewrite Hd.
Qed.

Lemma aperture_loop_spec w : adapters_ok w ->
  forall fuel (j : nat) k, 1 <= k <= 2 ^ 17 - 1 -> (j <= length (w_devs w))%nat ->
  (Z.to_nat (2 ^ 17 - 1 - k) + (length (w_devs w) - j) < fuel)%nat ->
  exists k', aperture_loop fuel (Z.of_nat j) (Z.of_nat (length (w_devs w))) (slot k) (2 ^ 47) w = Some ((true, slot k'), w) /\
    k <= k' <= 2 ^ 17 - 1 /\
    ((j < length (w_devs w))%nat -> forall d, last (w_devs w) = Some d -> device_overlaps d (slot k') (2 ^ 47) = false).
Proof.
  intros Hok. pose proof Hok as [_ Hpos]. induction fuel as [|fuel IH]; intros j k Hk Hj Hf; [lia|]. cbn [aperture_loop].
  destruct (Z.ltb_spec (Z.of_nat j) (Z.of_nat (length (w_devs w)))) as [Hlt|Hge].
  2:{ exists k. split_and!; [done|lia|lia|lia]. }
  destruct (lookup_lt_is_Some_2 (w_devs w) j ltac:(lia)) as [d Hd].
  rewrite (M_bind_step _ _ _ _ _ _ _ _ (get_wddmdev_at _ _ _ Hok Hd)). cbn iota.
  erewrite M_bind_step by (unfold get_dev; by rewrite Hd).
  pose proof (proj1 (Forall_lookup _ _) Hpos j d Hd) as [Hp Hs].
  destruct (device_overlaps d (slot k) (2 ^ 47)) eqn:Ho.
  - assert (k <> 2 ^ 17 - 1) as Hne.
    { intros ->. rewrite device_overlaps_last in Ho by done. discriminate Ho. }
    assert (slot k +64 Z.shiftl 1 47 = slot (k + 1)) as ->.
    { unfold slot. change (Z.shiftl 1 47) with (2 ^ 47). rewrite add64_small by lia. lia. }
    destruct (IH j (k + 1)) as (k' & Hrun & ? & Hl); [lia|lia|lia|]. exists k'. split_and!; [done|lia|lia|done].
  - replace (Z.of_nat j + 1) with (Z.of_nat (S j)) by lia.
    destruct (IH (S j) k) as (k' & Hrun & ? & Hl); [lia|lia|lia|]. exists k'. split_and!; [done|lia|lia|].
    intros _ d' Hd'. destruct (decide (S j = length (w_devs w))) as [E|E]; [|apply Hl; [lia|done]].
    rewrite last_lookup, <- E in Hd'. cbn in Hd'. rewrite Hd in Hd'. injection Hd' as <-.
    rewrite E in Hrun. destruct fuel; [lia|]. cbn [aperture_loop] in Hrun. rewrite Z.ltb_irrefl in Hrun.
    injection Hrun as Hk'. apply (Z.mul_reg_r _ _ (2 ^ 47)) in Hk'; [|lia]. by subst k'.
Qed.

(** C36: When every adapter is in the table, the search for the handle aperture ends
    within its fuel: it succeeds with a slot of 2^47 bytes at a multiple of 2^47 from 2^47
    on, and the apertures of the last adapter are disjoint from the slot. The comparison
    wraps around modulo 2^64, so this holds of apertures that end below 2^64 and of a slot
    that does: the last slot, whose end is 2^64, is taken without being compared. *)
Theorem InitHandleApertureSpace_avoids w :
  adapters_ok w ->
  exists k w', InitHandleApertureSpace w = Some (true, w') /\ 1 <= k <= 2 ^ 17 - 1 /\
    handle_aperture (w_rt w') = mkHeapSpace (slot k) (2 ^ 47) (space_mgr (handle_aperture (w_rt w))) /\
    forall d, last (w_devs w) = Some d -> avoids d (slot k) (2 ^ 47).
Proof.
  intros Hok. unfold InitHandleApertureSpace. do 2 (erewrite M_bind_step by reflexivity). cbv zeta.
  erewrite M_bind_step by reflexivity.
  change (START_NON_CANONICAL_ADDR <? END_NON_CANONICAL_ADDR -64 1) with true. cbv iota.
  set (w1 := set_rt _ w).
  destruct (aperture_loop_spec w1 Hok (aperture_fuel (Z.of_nat (length (w_devs w)))) 0 1) as (k & Hrun & Hk & Hl).
  { done. } { lia. } { unfold aperture_fuel. cbn [w_devs w1 set_rt]. lia. }
  rewrite (M_bind_step _ _ _ _ _ _ _ _ Hrun : (aperture_loop _ 0 _ START_NON_CANONICAL_ADDR (Z.shiftl 1 47) ≫= _) w1 = _).
  exists k. eexists. split; [reflexivity|]. split; [lia|]. split; [reflexivity|].
  intros d Hd. apply device_overlaps_avoids; [unfold slot; lia|lia|]. apply Hl; [|done].
  cbn. destruct (w_devs w); [done|cbn; lia].
Qed.
End aperture.

(** An adapter with its private aperture in slot [k]. *)
Definition slot_dev (k : Z) : WDDMDevice :=
  mkWDDMDevice 5 (mkDeviceInfo 7 demo_luid (fun _ => 0) (fun _ => false) (fun _ => false) 11 0 0 true
    0x100000000 0 0 (slot k) (2 ^ 47) 0 0 false 1 1 (fun i => i) false 0 0 0 0x10000 32 4 1 0 true
    EmptyString 0 0 0 0 0 0 0 0 0 0 0 0 0 0 0 0 0 0 0 0 0) 1 11 12 0x9000 3 0 0 [].

(** Two adapters, their private apertures in slots 2 and 1. *)
Definition two_adapters : World DemoKernel := set_nodes 3 (set_devs [slot_dev 2; slot_dev 1] (demo_world [])).

(** With several adapters the handle aperture can overlap an aperture of an
    earlier one: moving the start for one adapter does not check the others
    again. Here it ends on the private aperture of the first adapter. *)
Theorem InitHandleApertureSpace_overlaps :
  exists w', InitHandleApertureSpace two_adapters = Some (true, w') /\
    space_start (handle_aperture (w_rt w')) = sd_PrivateApertureBase (shared_dev_ (slot_dev 2)).
Proof. eexists. split; [vm_compute; reflexivity|reflexivity]. Qed.

(** ** Witnesses *)

Lemma Runtime_Reserve_system_witness :
  exists code a out w' m',
    Runtime_ReserveGpuVirtualAddress kSystem 0 0x1000 0x1000 false (demo_world []) = Some (code, out, w') /\
    system_mgr w' = Some m' /\ VaMgr_wf 0x1000000000 0x1400000000 m' /\ (out = a \/ out = 0).
Proof.
  destruct (Runtime_Reserve_system 0x1000000000 0x1400000000 demo_system (demo_world []) 0x1000 0x1000 false)
    as (code & a & out & w' & m' & ok & evs & Hr & _ & Hm & Hwf & Hcase).
  - reflexivity.
  - apply (VaMgr_new_wf 0x1000000000 0x400000000 DEFAULT_GPU_PAGE_SIZE); [lia|lia|lia|]. split; [reflexivity|reflexivity].
  - lia.
  - lia.
  - exists code, a, out, w', m'. split; [exact Hr|]. split; [exact Hm|]. split; [exact Hwf|].
    destruct Hcase as [(_ & _ & _ & E & _)|[(_ & _ & _ & E & _)|(_ & E & _)]]; [left; exact E|right; exact E|right; exact E].
Defined.

(** An adapter whose private aperture is the first slot. *)
Definition first_slot_taken : World DemoKernel := set_devs [slot_dev 1] (demo_world []).

Lemma InitHandleApertureSpace_avoids_witness :
  exists k w', InitHandleApertureSpace first_slot_taken = Some (true, w') /\ k = 2 /\
    space_start (handle_aperture (w_rt w')) = slot k /\ block_disjoint (slot 1) (2 ^ 47) (slot k) (2 ^ 47).
Proof.
  destruct (InitHandleApertureSpace_avoids first_slot_taken) as (k & w' & Hr & Hk & Hh & Hl).
  - split; [reflexivity|]. constructor; [|constructor]. vm_compute. split; discriminate.
  - assert (option_map (fun p => space_start (handle_aperture (w_rt p.2))) (InitHandleApertureSpace first_slot_taken) = Some (slot 2))
      as Hv by (vm_compute; reflexivity).
    rewrite Hr in Hv. cbn [option_map snd] in Hv. rewrite Hh in Hv. injection Hv as Hk2.
    assert (k = 2) as E by (unfold slot in Hk2; lia). exists k, w'. split; [exact Hr|]. split; [exact E|].
    split; [rewrite Hh; reflexivity|].
    apply (Hl (slot_dev 1)); [reflexivity|apply list_elem_of_here|..]; rewrite ?E; unfold slot; vm_compute; try reflexivity; discriminate.
Defined.
