(* ===== verification/OpenCloseSpec.v ===== *)
(** * OpenCloseSpec: opening, closing and forking (hsaKmtOpenKFD, hsaKmtCloseKFD)

    Every history of opens and closes refines a small state machine, whatever open(2)
    and the loader of libdxcore answer; the first open of a forked child starts from a
    fresh runtime; a failed load leaves the number of a closed descriptor behind. *)

From Stdlib Require Import String.
From stdpp Require Import strings.
From S2P Require Import Prelude.
From S2P Require Import StdMap.
From S2P Require Import BitField.
From S2P Require Import Utils.
From S2P Require Import VaMgr.
From S2P Require Import SimpleHeap.
From S2P Require Import Status.
From S2P Require Import World.
From S2P Require Import Loader.
From S2P Require Import Runtime.
From S2P Require Import Device.
From S2P Require Import Demo.
#[local] Open Scope Z_scope.

(** ** What the operating system answers *)

(** getpid(2) answers the same number, open(2) answers -1 or a descriptor, and a
    ROCR_VISIBLE_DEVICES that is set does not make [std::stoi] throw. That open(2)
    succeeds or libdxcore loads is not assumed. *)
Class OneProcess (K : Type) `{Kernel K} (pid : Z) : Prop := {
  op_pid k : (kernel_step _ sys_getpid k).1 = pid;
  op_open path k : -1 <= (kernel_step _ (sys_open path) k).1;
  op_env k s t :
    (kernel_step _ (sys_getenv "ROCR_VISIBLE_DEVICES") k).1 = Some s -> from_first_digit s = Some t -> atoi t < 2 ^ 31;
}.

(** ** Descriptors *)

(** open(2) with its answer, close(2) with its argument. *)
Inductive fd_event := Opened (fd : Z) | Closed (fd : Z).

Definition as_fd (e : kevent) : option fd_event :=
  match e with
  | KEvent c r =>
      match c in kcall R return R -> option fd_event with
      | sys_open _ => fun fd => Some (Opened fd)
      | sys_close fd => fun _ => Some (Closed fd)
      | _ => fun _ => None
      end r
  end.

Definition fdw {K} (w : World K) : list fd_event := omap as_fd (w_log w).

(** The descriptors held after some calls. *)
Fixpoint held (s : gset Z) (evs : list fd_event) : gset Z :=
  match evs with
  | [] => s
  | Opened fd :: evs => held (if fd =? -1 then s else {[fd]} ∪ s) evs
  | Closed fd :: evs => held (s ∖ {[fd]}) evs
  end.

Lemma held_app s evs evs' : held s (evs ++ evs') = held (held s evs) evs'.
Proof. revert s. induction evs as [|[] evs IH]; intros s; cbn; [done|apply IH..]. Qed.

(** ** What a call leaves alone *)

(** The fields that opening and closing are about. *)
Definition kfd_core (r : hsakmtRuntime) : Z * Z * bool * Z * (HeapSpace * HeapSpace * HeapSpace) :=
  (dxg_fd r, parent_pid r, is_forked r, dxg_open_count r, (local_heap r, system_heap r, handle_aperture r)).

(** The devices, the memory objects, the allocations and the number of nodes. *)
Definition same_rest {K} (w w' : World K) : Prop :=
  w_devs w' = w_devs w /\ w_mems w' = w_mems w /\ w_next w' = w_next w /\ w_amap w' = w_amap w /\
  w_nodes w' = w_nodes w.

#[export] Instance same_rest_preorder {K} : PreOrder (@same_rest K).
Proof. split; [by repeat split|]. intros ??? (?&?&?&?&?) (?&?&?&?&?). repeat split; congruence. Qed.

(** Nothing of what this file is about. *)
Definition quiet_step {K} (w w' : World K) : Prop :=
  kfd_core (w_rt w') = kfd_core (w_rt w) /\ same_rest w w' /\ w_fa w' = w_fa w /\ w_loader w' = w_loader w /\
  fdw w' = fdw w /\ dlw w' = dlw w.

#[export] Instance quiet_step_preorder {K} : PreOrder (@quiet_step K).
Proof.
  split; [by repeat split|]. intros w1 w2 w3 (?&?&?&?&?&?) (?&?&?&?&?&?).
  split_and!; try congruence. by etrans.
Qed.

Section quiet.
Context {K : Type} `{Kernel K}.
Implicit Types (w : World K).

(** A call adds its event to the log and changes nothing else. *)
Lemma kcall_logs {R} (c : kcall R) w :
  exists k, kcall_ c w = Some ((kernel_step R c (w_ker w)).1, log_call k (KEvent c (kernel_step R c (w_ker w)).1) w).
Proof. unfold kcall_. destruct (kernel_step R c (w_ker w)) as [r k]. by exists k. Qed.

Lemma fdw_log k e w : fdw (log_call k e w) = fdw w ++ omap as_fd [e].
Proof. unfold fdw. cbn [w_log log_call]. by rewrite omap_app. Qed.

Lemma dlw_log k e w : dlw (log_call k e w) = dlw w + as_dl e.
Proof. unfold dlw. cbn [w_log log_call]. rewrite dl_refs_app. cbn. lia. Qed.

(** A computation that always returns and is quiet. *)
Definition calm {A} (m : M K A) : Prop := forall w, exists x w', m w = Some (x, w') /\ quiet_step w w'.

Lemma calm_ret {A} (x : A) : calm (mret x).
Proof. intros w. by exists x, w. Qed.

Lemma calm_bind {A B} (m : M K A) (f : A -> M K B) : calm m -> (forall x, calm (f x)) -> calm (m ≫= f).
Proof.
  intros Hm Hf w. destruct (Hm w) as (x & w1 & Hr1 & H1). destruct (Hf x w1) as (y & w2 & Hr2 & H2).
  exists y, w2. split; [by rewrite (M_bind_step _ _ _ _ _ _ _ _ Hr1)|by transitivity w1].
Qed.

Definition no_event {R} (c : kcall R) : Prop := forall r, as_fd (KEvent c r) = None /\ as_dl (KEvent c r) = 0.

Lemma quiet_log {R} (c : kcall R) r k w : no_event c -> quiet_step w (log_call k (KEvent c r) w).
Proof.
  intros Hc. destruct (Hc r) as [Hfd Hdl]. split_and!; try done.
  - rewrite fdw_log. cbn [omap list_omap]. by rewrite Hfd, app_nil_r.
  - rewrite dlw_log, Hdl. lia.
Qed.

Lemma calm_kcall {R} (c : kcall R) : no_event c -> calm (kcall_ c).
Proof. intros Hc w. destruct (kcall_logs c w) as [k Hr]. do 2 eexists. split; [exact Hr|by apply quiet_log]. Qed.

Lemma calm_mod_rt f : (forall r, kfd_core (f r) = kfd_core r) -> calm (mod_rt f).
Proof. intros Hf w. do 2 eexists. split; [reflexivity|]. split; [apply Hf|by repeat split]. Qed.

Lemma calm_on_env name (f : string -> hsakmtRuntime -> option hsakmtRuntime) :
  (forall s r k, (kernel_step _ (sys_getenv name) k).1 = Some s -> exists r', f s r = Some r' /\ kfd_core r' = kfd_core r) ->
  calm (on_env name f).
Proof.
  intros Hf w. unfold on_env. destruct (kcall_logs (sys_getenv name) w) as [k Hr].
  rewrite (M_bind_step _ _ _ _ _ _ _ _ Hr). set (w1 := log_call _ _ _) in *.
  assert (quiet_step w w1) as Hq by (by apply quiet_log).
  destruct (kernel_step _ (sys_getenv name) (w_ker w)).1 as [s|] eqn:E.
  - destruct (Hf s (w_rt w1) (w_ker w) E) as (r' & Hf' & Hc). unfold get_rt, mget, mod_rt, mset, mderef, mbind, M_bind.
    rewrite Hf'. do 2 eexists. split; [reflexivity|]. etrans; [exact Hq|]. split; [exact Hc|by repeat split].
  - do 2 eexists. by split.
Qed.

Lemma kept_rest w w' : kept w w' -> w_rt w' = w_rt w /\ same_rest w w' /\ w_fa w' = w_fa w.
Proof. intros (?&?&?&?&?&?&?&?&?). by split_and!. Qed.

(** dlopen and dlclose of the HSA runtime. *)
Lemma loader_init_calm : calm hsakmt_hsa_loader_init.
Proof.
  intros w. unfold hsakmt_hsa_loader_init. destruct (kcall_logs (sys_dlopen "libhsa-runtime64.so") w) as [k Hr].
  rewrite (M_bind_step _ _ _ _ _ _ _ _ Hr). set (h := (kernel_step _ _ _).1) in *. destruct (Z.eqb_spec h 0) as [E|E].
  - do 2 eexists. split; [reflexivity|]. split_and!; try done; [by rewrite fdw_log, app_nil_r|rewrite dlw_log; cbn; rewrite E; cbn; lia].
  - set (w1 := log_call _ _ _). destruct (kcall_logs (sys_dlclose h) w1) as [k2 Hr2]. rewrite (M_bind_step _ _ _ _ _ _ _ _ Hr2).
    do 2 eexists. split; [reflexivity|]. split_and!; try done.
    + rewrite fdw_log. unfold w1. rewrite fdw_log. by rewrite !app_nil_r.
    + rewrite dlw_log. unfold w1. rewrite dlw_log. cbn. rewrite (proj2 (Z.eqb_neq h 0) E). lia.
Qed.

Lemma init_page_size_calm : calm init_page_size.
Proof. unfold init_page_size. apply calm_bind; [by apply calm_kcall|]. intros. by apply calm_mod_rt. Qed.

Context (pid : Z) {Hq : OneProcess K pid}.

Lemma init_vars_calm w : exists w', init_vars_from_env w = Some (HSAKMT_STATUS_SUCCESS, w') /\ quiet_step w w'.
Proof using Hq.
  assert (calm init_vars_from_env) as Hc.
  { unfold init_vars_from_env. repeat (apply calm_bind; [apply calm_on_env|intros ?]); try apply calm_ret.
    6:{ intros s r k E. destruct (from_first_digit s) as [t|] eqn:Et; [|by eexists].
        rewrite (proj2 (Z.ltb_lt _ _) (op_env _ _ _ E Et)). by eexists. }
    all: intros; by eexists. }
  destruct (Hc w) as (st & w' & Hr & H'). exists w'. split; [|done]. rewrite Hr. do 2 f_equal.
  unfold init_vars_from_env in Hr. repeat (apply M_bind_Some in Hr as (? & ? & _ & Hr)). by injection Hr.
Qed.

(** ** The state machine *)

(** The library is closed; closed with the number of a descriptor that is not its own any
    more; or open [n] times. *)
Inductive kfd_state :=
  | KClosed
  | KStale (fd : Z)
  | KOpen (n fd : Z).

Inductive kfd_op := OpOpen | OpClose.

(** One call: the state before, the call, its status, its descriptor events, the state after. *)
Inductive kfd_trans : kfd_state -> kfd_op -> HSAKMT_STATUS -> list fd_event -> kfd_state -> Prop :=
  | open_no_device :
      kfd_trans KClosed OpOpen HSAKMT_STATUS_KERNEL_IO_CHANNEL_NOT_OPENED [Opened (-1)] KClosed
  | open_no_loader fd : 0 <= fd ->
      kfd_trans KClosed OpOpen HSAKMT_STATUS_ERROR [Opened fd; Closed fd] (KStale fd)
  | open_first fd : 0 <= fd ->
      kfd_trans KClosed OpOpen HSAKMT_STATUS_SUCCESS [Opened fd] (KOpen 1 fd)
  | stale_no_loader fd :
      kfd_trans (KStale fd) OpOpen HSAKMT_STATUS_ERROR [Closed (-1)] (KStale fd)
  | stale_open fd :
      kfd_trans (KStale fd) OpOpen HSAKMT_STATUS_SUCCESS [] (KOpen 1 fd)
  | open_again n fd :
      kfd_trans (KOpen n fd) OpOpen HSAKMT_STATUS_KERNEL_ALREADY_OPENED [] (KOpen (n + 1) fd)
  | close_one n fd : n <> 1 ->
      kfd_trans (KOpen n fd) OpClose HSAKMT_STATUS_SUCCESS [] (KOpen (n - 1) fd)
  | close_last fd :
      kfd_trans (KOpen 1 fd) OpClose HSAKMT_STATUS_SUCCESS [Closed fd] KClosed
  | close_idle :
      kfd_trans KClosed OpClose HSAKMT_STATUS_KERNEL_IO_CHANNEL_NOT_OPENED [] KClosed
  | close_stale fd :
      kfd_trans (KStale fd) OpClose HSAKMT_STATUS_KERNEL_IO_CHANNEL_NOT_OPENED [] (KStale fd).

Inductive kfd_runs : kfd_state -> list kfd_op -> list HSAKMT_STATUS -> list fd_event -> kfd_state -> Prop :=
  | runs_nil σ : kfd_runs σ [] [] [] σ
  | runs_cons σ op ops st sts evs evs' σ1 σ2 :
      kfd_trans σ op st evs σ1 -> kfd_runs σ1 ops sts evs' σ2 ->
      kfd_runs σ (op :: ops) (st :: sts) (evs ++ evs') σ2.

Definition kfd_count (σ : kfd_state) : Z := match σ with KOpen n _ => n | _ => 0 end.
Definition kfd_fd (σ : kfd_state) : Z := match σ with KClosed => -1 | KStale fd | KOpen _ fd => fd end.
(** The references to libdxcore. *)
Definition kfd_refs (σ : kfd_state) : Z := match σ with KOpen _ _ => 1 | _ => 0 end.

(** The runtime and the loader are in the state [σ]. *)
Definition in_state (σ : kfd_state) w : Prop :=
  is_forked (w_rt w) = false /\ parent_pid (w_rt w) = pid /\
  dxg_open_count (w_rt w) = kfd_count σ /\ dxg_fd (w_rt w) = kfd_fd σ /\
  match σ with
  | KClosed => True
  | KStale fd => 0 <= fd
  | KOpen n fd => 0 < n /\ 0 <= fd /\ IsLoaded (w_loader w) = true
  end.

Lemma in_state_quiet σ w w' : quiet_step w w' -> in_state σ w -> in_state σ w'.
Proof.
  intros ([= Hf Hp Hk Hc _ _ _] & _ & _ & Hl & _) (H1 & H2 & H3 & H4 & H5). unfold in_state. by rewrite Hk, Hp, Hc, Hf, Hl.
Qed.

(** What a call from [σ] to [σ'] with these events does to the rest. *)
Definition call_effect (σ σ' : kfd_state) (evs : list fd_event) w w' : Prop :=
  in_state σ' w' /\ same_rest w w' /\ fdw w' = fdw w ++ evs /\ dlw w' = dlw w + kfd_refs σ' - kfd_refs σ.

Lemma call_effect_quiet σ σ' evs w w1 w2 : quiet_step w w1 -> call_effect σ σ' evs w1 w2 -> call_effect σ σ' evs w w2.
Proof.
  intros (_ & Hs & _ & _ & Hf & Hd) (Hi & Hs' & Hf' & Hd'). split_and!; [done|by etrans|by rewrite Hf', Hf|by rewrite Hd', Hd].
Qed.

(** ** The loader *)

Lemma fd_kcall {R} (c : kcall R) : (forall r, as_fd (KEvent c r) = None) -> still fdw (kcall_ c).
Proof.
  intros Hc w x w'. unfold kcall_. destruct (kernel_step R c (w_ker w)) as [r k]. intros [= _ <-].
  rewrite fdw_log. cbn [omap list_omap]. by rewrite Hc, app_nil_r.
Qed.

Lemma fd_load_required names l : still fdw (load_required names l).
Proof.
  revert l. induction names as [|name names IH]; intros l; cbn [load_required]; [apply still_ret|].
  apply still_bind; [by apply fd_kcall|]. intros p. case_match; [apply still_ret|apply IH].
Qed.

Lemma fd_load_optional names l : still fdw (load_optional names l).
Proof.
  revert l. induction names as [|name names IH]; intros l; cbn [load_optional]; [apply still_ret|].
  apply still_bind; [by apply fd_kcall|]. intros p. apply IH.
Qed.

Lemma fd_Initialize l : still fdw (Loader_Initialize l).
Proof.
  unfold Loader_Initialize, LoadDxcoreApis. apply still_bind; [by apply fd_kcall|]. intros h.
  case_match; [apply still_ret|]. apply still_bind.
  - case_match; [apply still_ret|]. apply still_bind; [apply fd_load_required|]. intros [ok l'].
    case_match; [apply still_ret|]. apply still_bind; [apply fd_load_optional|]. intros. apply still_ret.
  - intros [ok l']. case_match; [|apply still_ret]. apply still_bind; [by apply fd_kcall|]. intros. apply still_ret.
Qed.

Lemma fd_Shutdown l : still fdw (Loader_Shutdown l).
Proof.
  unfold Loader_Shutdown. case_match; [|apply still_ret]. apply still_bind; [by apply fd_kcall|]. intros. apply still_ret.
Qed.

(** Everything but the loader and its references. *)
Definition loader_step w w' : Prop := w_rt w' = w_rt w /\ same_rest w w' /\ w_fa w' = w_fa w /\ fdw w' = fdw w.

Lemma loader_Initialize w : exists ok w', DxcoreLoader_Initialize w = Some (ok, w') /\ loader_step w w' /\
  dlw w' = dlw w + (if ok then 1 else 0) /\ (ok = true -> IsLoaded (w_loader w') = true).
Proof.
  unfold DxcoreLoader_Initialize. erewrite M_bind_step by reflexivity.
  destruct (Initialize_spec (w_loader w) w) as (ok & l' & w1 & Hr & (Hrt & Hrest & Hfa)%kept_rest & Hok).
  pose proof (fd_Initialize _ _ _ _ Hr) as Hfd. rewrite (M_bind_step _ _ _ _ _ _ _ _ Hr).
  exists ok, (set_loader l' w1). split; [reflexivity|]. split; [by split_and!|]. change (dlw (set_loader l' w1)) with (dlw w1).
  destruct ok; [destruct Hok as (-> & Hh & _)|destruct Hok as (-> & Hh)]; (split; [lia|]); [|done].
  intros _. cbn. unfold IsLoaded. by rewrite (proj2 (Z.eqb_neq _ 0) Hh).
Qed.

Lemma loader_Shutdown w : IsLoaded (w_loader w) = true -> exists w', DxcoreLoader_Shutdown w = Some (tt, w') /\ loader_step w w' /\
  dlw w' = dlw w - 1.
Proof.
  unfold IsLoaded. intros Hl. unfold DxcoreLoader_Shutdown. erewrite M_bind_step by reflexivity.
  destruct (Shutdown_spec (w_loader w) w) as (l' & w1 & Hr & (Hrt & Hrest & Hfa)%kept_rest & _ & Hd).
  pose proof (fd_Shutdown _ _ _ _ Hr) as Hfd. rewrite (M_bind_step _ _ _ _ _ _ _ _ Hr).
  exists (set_loader l' w1). split; [reflexivity|]. split; [by split_and!|]. change (dlw (set_loader l' w1)) with (dlw w1).
  rewrite Hd. by case_match.
Qed.

(** ** The calls *)

Lemma not_forked_step σ w : in_state σ w -> exists w', is_forked_child w = Some (false, w') /\ quiet_step w w'.
Proof using Hq.
  intros (Hk & Hp & _). unfold is_forked_child, get_rt, mget, mbind, M_bind. rewrite Hk.
  destruct (kcall_logs sys_getpid w) as [k Hr]. rewrite Hr, (op_pid (w_ker w)), Hp, Z.eqb_refl.
  eexists. split; [reflexivity|]. by apply quiet_log.
Qed.

(** The rest of [open_counted] once there is a descriptor: the one just opened, or the
    number that was there. *)
Definition open_loading (fd : option Z) : M K HSAKMT_STATUS :=
  ok ← DxcoreLoader_Initialize;
  if negb ok then kcall_ (sys_close (default (-1) fd)) ;; mret HSAKMT_STATUS_ERROR
  else
    hsakmt_hsa_loader_init ;;
    init_page_size ;;
    kcall_ (sys_getenv "HSA_USE_SVM") ;;
    mod_rt (fun r => rt_dxg_open_count 1 (rt_is_svm_api_supported false r)) ;;
    mset (set_atfork true) ;;
    reset_suballocator ;;
    mret HSAKMT_STATUS_SUCCESS.

(** The runtime is the one of [w] but for the fields that opening fills in. *)
Lemma open_loading_spec fd w :
  is_forked (w_rt w) = false -> parent_pid (w_rt w) = pid -> dxg_open_count (w_rt w) = 0 -> 0 <= dxg_fd (w_rt w) ->
  exists st w' evs σ, open_loading fd w = Some (st, w') /\ same_rest w w' /\ in_state σ w' /\ fdw w' = fdw w ++ evs /\
    dlw w' = dlw w + kfd_refs σ /\
    (local_heap (w_rt w'), system_heap (w_rt w'), handle_aperture (w_rt w')) =
      (local_heap (w_rt w), system_heap (w_rt w), handle_aperture (w_rt w)) /\
    ((st = HSAKMT_STATUS_ERROR /\ evs = [Closed (default (-1) fd)] /\ σ = KStale (dxg_fd (w_rt w)) /\ w_fa w' = w_fa w) \/
     (st = HSAKMT_STATUS_SUCCESS /\ evs = [] /\ σ = KOpen 1 (dxg_fd (w_rt w)) /\ w_fa w' = SimpleHeap_new)).
Proof.
  intros Hk Hp Hc Hfd. unfold open_loading.
  destruct (loader_Initialize w) as (ok & w1 & Hr1 & (Hrt1 & Hrest1 & Hfa1 & Hfd1) & Hd1 & Hok).
  rewrite (M_bind_step _ _ _ _ _ _ _ _ Hr1). destruct ok; cbn [negb].
  - destruct (loader_init_calm w1) as (b & w2 & Hr2 & H2). rewrite (M_bind_step _ _ _ _ _ _ _ _ Hr2).
    destruct (init_page_size_calm w2) as ([] & w3 & Hr3 & H3). rewrite (M_bind_step _ _ _ _ _ _ _ _ Hr3).
    destruct (calm_kcall (sys_getenv "HSA_USE_SVM") ltac:(done) w3) as (v & w4 & Hr4 & H4).
    rewrite (M_bind_step _ _ _ _ _ _ _ _ Hr4).
    assert (quiet_step w1 w4) as (Hcore & Hrest & _ & Hl & Hfd4 & Hd4) by (etrans; [exact H2|by etrans]).
    injection Hcore as Hf4 Hp4 Hk4 Hc4 Hh1 Hh2 Hh3. rewrite Hrt1 in *.
    do 2 eexists. exists [], (KOpen 1 (dxg_fd (w_rt w))). split; [reflexivity|].
    split; [etrans; [exact Hrest1|exact Hrest]|]. split.
    { unfold in_state. cbn -[IsLoaded]. rewrite Hl, Hk4, Hp4, Hf4. split_and!; auto; lia. }
    split; [rewrite app_nil_r, <- Hfd1; exact Hfd4|]. split; [transitivity (dlw w4); [reflexivity|by rewrite Hd4, Hd1]|].
    split; [cbn; by rewrite Hh1, Hh2, Hh3|]. right. by split_and!.
  - destruct (kcall_logs (sys_close (default (-1) fd)) w1) as [k2 Hr2]. rewrite (M_bind_step _ _ _ _ _ _ _ _ Hr2).
    do 2 eexists. eexists [_], (KStale (dxg_fd (w_rt w))). split; [reflexivity|].
    unfold in_state. rewrite fdw_log, dlw_log. cbn -[dlw]. rewrite Hrt1, Hfd1.
    split_and!; try done; [lia|left; by split_and!].
Qed.

(** [open_counted] on a runtime that has no descriptor. *)
Lemma open_counted_closed w :
  in_state KClosed w ->
  exists st w' evs σ, open_counted w = Some (st, w') /\ same_rest w w' /\ in_state σ w' /\ fdw w' = fdw w ++ evs /\
    dlw w' = dlw w + kfd_refs σ /\ kfd_trans KClosed OpOpen st evs σ /\
    (local_heap (w_rt w'), system_heap (w_rt w'), handle_aperture (w_rt w')) =
      (local_heap (w_rt w), system_heap (w_rt w), handle_aperture (w_rt w)) /\
    w_fa w' = if decide (st = HSAKMT_STATUS_SUCCESS) then SimpleHeap_new else w_fa w.
Proof using Hq.
  intros Ho. pose proof Ho as (Hk & Hp & Hc & Hf & _). destruct (init_vars_calm w) as (w1 & Hr1 & H1).
  pose proof (in_state_quiet _ _ _ H1 Ho) as (Hk1 & Hp1 & Hc1 & Hf1 & _).
  destruct H1 as (Hcore1 & Hrest1 & Hfa1 & _ & Hfd1 & Hd1). injection Hcore1 as _ _ _ _ Hl1 Hs1 Ha1.
  rewrite <- Hfd1, <- Hd1, <- Hl1, <- Hs1, <- Ha1, <- Hfa1.
  destruct (kcall_logs (sys_open "/dev/dxg") w1) as [k Hr2]. pose proof (op_open "/dev/dxg" (w_ker w1)) as Hpos.
  set (fd := (kernel_step _ (sys_open "/dev/dxg") (w_ker w1)).1) in *. set (w2 := log_call _ _ _) in Hr2.
  assert (open_counted w = if decide (fd = -1) then Some (HSAKMT_STATUS_KERNEL_IO_CHANNEL_NOT_OPENED, w2)
    else open_loading (Some fd) (set_rt (rt_dxg_fd fd (w_rt w2)) w2)) as Hopen.
  { unfold open_counted. erewrite M_bind_step by reflexivity. rewrite Hc. cbn [kfd_count Z.eqb].
    rewrite (M_bind_step _ _ _ _ _ _ _ _ Hr1). cbv beta. rewrite Hf. cbn [kfd_fd Z.ltb Z.compare].
    unfold mbind at 1, M_bind at 1. rewrite (M_bind_step _ _ _ _ _ _ _ _ Hr2). destruct (decide (fd = -1)) as [E|E].
    - rewrite E. reflexivity.
    - rewrite (proj2 (Z.eqb_neq fd (-1)) E). erewrite M_bind_step by reflexivity. cbv beta iota delta [mret M_ret].
      rewrite bool_decide_eq_false_2 by congruence. reflexivity. }
  rewrite Hopen. clear Hopen. destruct (decide (fd = -1)) as [E|E].
  - exists HSAKMT_STATUS_KERNEL_IO_CHANNEL_NOT_OPENED, w2, [Opened (-1)], KClosed.
    split; [done|]. split; [done|]. split; [by split_and!|].
    unfold w2. rewrite fdw_log, dlw_log. cbn -[dlw fdw]. rewrite E.
    split_and!; [done|lia|constructor|done|by rewrite decide_False].
  - set (w3 := set_rt _ _).
    destruct (open_loading_spec (Some fd) w3) as (st & w' & evs & σ & Hr & Hrest & Hin & Hfd & Hd & Hheaps & Hcase);
      [done|done|done|cbn; lia|].
    exists st, w', (Opened fd :: evs), σ. split; [done|]. split; [by etrans; [|exact Hrest]|]. split; [done|].
    assert (fdw w3 = fdw w1 ++ [Opened fd]) as E3 by (unfold w3, w2; exact (fdw_log _ _ _)).
    assert (dlw w3 = dlw w1) as D3 by (change (dlw w3) with (dlw w2); unfold w2; rewrite dlw_log; cbn; lia).
    rewrite Hfd, Hd, E3, D3, <- app_assoc. split; [done|]. split; [done|]. cbn [dxg_fd w_rt set_rt w3 rt_dxg_fd] in Hcase.
    destruct Hcase as [(-> & -> & -> & Hfa)|(-> & -> & -> & Hfa)].
    + split; [by constructor; lia|]. by rewrite decide_False.
    + split; [by constructor; lia|]. by rewrite decide_True.
Qed.

Lemma open_counted_stale fd w :
  in_state (KStale fd) w ->
  exists st w' evs σ, open_counted w = Some (st, w') /\ call_effect (KStale fd) σ evs w w' /\ kfd_trans (KStale fd) OpOpen st evs σ.
Proof using Hq.
  intros Ho. pose proof Ho as (Hk & Hp & Hc & Hf & Hpos). destruct (init_vars_calm w) as (w1 & Hr1 & H1).
  pose proof (in_state_quiet _ _ _ H1 Ho) as (Hk1 & Hp1 & Hc1 & Hf1 & _).
  assert (open_counted w = open_loading None w1) as ->.
  { unfold open_counted. erewrite M_bind_step by reflexivity. rewrite Hc. cbn [kfd_count Z.eqb].
    rewrite (M_bind_step _ _ _ _ _ _ _ _ Hr1). cbv beta. rewrite Hf. cbn [kfd_fd].
    rewrite (proj2 (Z.ltb_ge fd 0) Hpos). erewrite M_bind_step by reflexivity. reflexivity. }
  cbn in Hf1, Hpos. destruct (open_loading_spec None w1) as (st & w' & evs & σ & Hr & Hrest & Hin & Hfd & Hd & _ & Hcase); try done; [lia|].
  exists st, w', evs, σ. split; [done|]. split; [eapply call_effect_quiet; [done|]; split_and!; try done; rewrite Hd; cbn [kfd_refs]; lia|].
  rewrite Hf1 in Hcase. destruct Hcase as [(-> & -> & -> & _)|(-> & -> & -> & _)]; constructor.
Qed.

Lemma open_counted_again n fd w :
  in_state (KOpen n fd) w -> n + 1 < 2 ^ 64 ->
  exists w', open_counted w = Some (HSAKMT_STATUS_KERNEL_ALREADY_OPENED, w') /\
    call_effect (KOpen n fd) (KOpen (n + 1) fd) [] w w' /\ w_fa w' = SimpleHeap_new.
Proof.
  intros (Hk & Hp & Hc & Hf & Hn & Hpos & Hl) Hb. unfold open_counted. erewrite M_bind_step by reflexivity.
  rewrite Hc. cbn [kfd_count]. rewrite (proj2 (Z.eqb_neq n 0)) by lia. eexists. split; [reflexivity|]. split; [|done].
  split; [|split; [by repeat split|split; [by rewrite app_nil_r|change (dlw w = dlw w + 1 - 1); lia]]].
  unfold in_state. cbn -[IsLoaded]. rewrite Hc. cbn [kfd_count]. rewrite add64_small by lia. split_and!; auto; lia.
Qed.

(** In a process that has not forked, opening is counting. *)
Lemma Open_not_forked σ w : in_state σ w ->
  exists w1, hsaKmtOpenKFD w = open_counted w1 /\ quiet_step w w1 /\ in_state σ w1.
Proof using Hq.
  intros Ho. destruct (not_forked_step _ _ Ho) as (w1 & Hr1 & H1). exists w1.
  split; [|split; [done|by eapply in_state_quiet]].
  unfold hsaKmtOpenKFD. rewrite (M_bind_step _ _ _ _ _ _ _ _ Hr1). by erewrite M_bind_step by reflexivity.
Qed.

Lemma Open_step σ w :
  in_state σ w -> kfd_count σ + 1 < 2 ^ 64 ->
  exists st w' evs σ', hsaKmtOpenKFD w = Some (st, w') /\ call_effect σ σ' evs w w' /\ kfd_trans σ OpOpen st evs σ'.
Proof using Hq.
  intros Ho Hb. destruct (Open_not_forked _ _ Ho) as (w1 & -> & H1 & Ho1). destruct σ as [|fd|n fd].
  - destruct (open_counted_closed _ Ho1) as (st & w' & evs & σ & Hr & Hrest & Hin & Hfd & Hd & Htr & _).
    exists st, w', evs, σ. split_and!; [done| |done]. eapply call_effect_quiet; [done|]. split_and!; try done. rewrite Hd. cbn [kfd_refs]. lia.
  - destruct (open_counted_stale _ _ Ho1) as (st & w' & evs & σ & Hr & He & Htr). exists st, w', evs, σ.
    split_and!; [done| |done]. by eapply call_effect_quiet.
  - destruct (open_counted_again _ _ _ Ho1 Hb) as (w' & Hr & He & _). do 4 eexists.
    split_and!; [done| |constructor]. by eapply call_effect_quiet.
Qed.

Lemma Close_step σ w :
  in_state σ w ->
  exists st w' evs σ', hsaKmtCloseKFD w = Some (st, w') /\ call_effect σ σ' evs w w' /\ kfd_trans σ OpClose st evs σ'.
Proof.
  intros Ho. pose proof Ho as (Hk & Hp & Hc & Hf & Hσ). unfold hsaKmtCloseKFD. erewrite M_bind_step by reflexivity.
  rewrite Hc. destruct σ as [|fd|n fd]; cbn [kfd_count].
  1-2: cbn [Z.ltb Z.compare]; do 4 eexists; (split; [reflexivity|]); (split; [|constructor]);
    split_and!; [done|reflexivity|by rewrite app_nil_r|cbn; lia].
  destruct Hσ as (Hn & Hpos & Hl). rewrite (proj2 (Z.ltb_lt 0 n) Hn). cbn iota. erewrite M_bind_step by reflexivity.
  destruct (Z.eqb_spec (n - 1) 0) as [E|E].
  - assert (n = 1) as -> by lia. set (w1 := set_rt _ w). rewrite Hf. cbn [kfd_fd].
    destruct (kcall_logs (sys_close fd) w1) as [k Hr]. set (w2 := log_call _ _ w1) in Hr. set (w3 := set_rt (rt_dxg_fd (-1) (w_rt w2)) w2).
    destruct (loader_Shutdown w3) as (w4 & Hr4 & (Hrt4 & Hrest4 & Hfa4 & Hfd4) & Hd4); [done|].
    exists HSAKMT_STATUS_SUCCESS, w4, [Closed fd], KClosed. split.
    { unfold mbind at 1, M_bind at 1. rewrite (M_bind_step _ _ _ _ _ _ _ _ Hr). erewrite M_bind_step by reflexivity.
      fold w3. by rewrite Hr4. }
    split; [|constructor]. split; [unfold in_state; rewrite Hrt4; by split_and!|]. split; [etrans; [|exact Hrest4]; by repeat split|].
    split; [rewrite Hfd4; exact (fdw_log _ _ _)|]. rewrite Hd4. change (dlw w3) with (dlw w2). unfold w2. rewrite dlw_log.
    change (dlw w1) with (dlw w). cbn. lia.
  - do 4 eexists. split; [reflexivity|]. split; [|apply close_one; lia].
    split; [unfold in_state; cbn -[IsLoaded]; split_and!; auto; lia|].
    split; [by repeat split|]. split; [by rewrite app_nil_r|]. change (dlw w = dlw w + 1 - 1). lia.
Qed.

(** The child's inherited runtime is replaced before the library is opened. *)
Lemma clear_after_fork_runs w :
  exists w', clear_after_fork w = Some (tt, w') /\ in_state KClosed w' /\ w_rt w' = hsakmtRuntime_new pid /\
    w_amap w' = [] /\ w_fa w' = SimpleHeap_new /\ w_devs w' = w_devs w /\ w_mems w' = w_mems w /\ w_nodes w' = w_nodes w /\
    fdw w' = fdw w ++ (if 0 <=? dxg_fd (w_rt w) then [Closed (dxg_fd (w_rt w))] else []) /\ dlw w' = dlw w.
Proof using Hq.
  unfold clear_after_fork, reset_suballocator, clear_allocation_map, get_rt, mod_rt, mget, mset, mbind, M_bind, mret, M_ret.
  cbn -[hsakmtRuntime_new kcall_]. destruct (Z.leb_spec 0 (dxg_fd (w_rt w))).
  - set (w1 := set_amap _ _). destruct (kcall_logs (sys_close (dxg_fd (w_rt w))) w1) as [k Hr]. rewrite Hr.
    cbn -[hsakmtRuntime_new kcall_]. set (w2 := set_rt _ _).
    destruct (kcall_logs sys_getpid w2) as [k2 Hr2]. rewrite Hr2, (op_pid (w_ker w2)).
    eexists. split; [reflexivity|]. split_and!; try done.
    + unfold fdw. cbn. rewrite !omap_app. cbn. by rewrite app_nil_r.
    + unfold dlw. cbn. rewrite !dl_refs_app. cbn. lia.
  - set (w2 := set_amap _ _).
    destruct (kcall_logs sys_getpid w2) as [k2 Hr2]. rewrite Hr2, (op_pid (w_ker w2)).
    eexists. split; [reflexivity|]. split_and!; try done.
    + unfold fdw. cbn. by rewrite !omap_app.
    + unfold dlw. cbn. rewrite !dl_refs_app. cbn. lia.
Qed.

(** ** Histories of calls *)

Definition kfd_step (op : kfd_op) : M K HSAKMT_STATUS :=
  match op with OpOpen => hsaKmtOpenKFD | OpClose => hsaKmtCloseKFD end.

Fixpoint kfd_run (ops : list kfd_op) : M K (list HSAKMT_STATUS) :=
  match ops with
  | [] => mret []
  | op :: ops => st ← kfd_step op; l ← kfd_run ops; mret (st :: l)
  end.

Lemma kfd_run_spec ops : forall σ w,
  in_state σ w -> kfd_count σ + Z.of_nat (length ops) < 2 ^ 64 ->
  exists sts w' evs σ', kfd_run ops w = Some (sts, w') /\ kfd_runs σ ops sts evs σ' /\ call_effect σ σ' evs w w'.
Proof using Hq.
  induction ops as [|op ops IH]; intros σ w Ho Hb; cbn [kfd_run length] in *.
  { exists [], w, [], σ. split; [done|]. split; [constructor|]. split_and!; [done|reflexivity|by rewrite app_nil_r|lia]. }
  assert (exists st w1 evs σ1, kfd_step op w = Some (st, w1) /\ call_effect σ σ1 evs w w1 /\ kfd_trans σ op st evs σ1)
    as (st & w1 & evs & σ1 & Hr1 & (Hi1 & Hs1 & Hf1 & Hd1) & Htr).
  { destruct op; [apply Open_step; [done|lia]|by apply Close_step]. }
  destruct (IH σ1 w1 Hi1) as (sts & w2 & evs2 & σ2 & Hr2 & Hruns & (Hi2 & Hs2 & Hf2 & Hd2)).
  { destruct Htr; cbn in *; lia. }
  exists (st :: sts), w2, (evs ++ evs2), σ2. rewrite (M_bind_step _ _ _ _ _ _ _ _ Hr1), (M_bind_step _ _ _ _ _ _ _ _ Hr2).
  split; [done|]. split; [by econstructor|]. split_and!; [done|by etrans|by rewrite Hf2, Hf1, app_assoc|lia].
Qed.
End quiet.

(** What the machine holds: nothing while it is closed; while it is open its own descriptor,
    or nothing after an [HSAKMT_STATUS_ERROR]. *)
Definition holds (σ : kfd_state) (s : gset Z) : Prop :=
  match σ with KOpen _ fd => s = {[fd]} \/ s = ∅ | _ => s = ∅ end.

Lemma kfd_trans_holds σ op st evs σ' s : kfd_trans σ op st evs σ' -> holds σ s -> holds σ' (held s evs).
Proof.
  intros Htr Hs. destruct Htr; cbn in *; try (destruct (Z.eqb_spec fd (-1)); [lia|]); subst; try done.
  all: first [set_solver|left; set_solver|by right|destruct Hs as [-> | ->]; set_solver].
Qed.

(** Without a failed load the machine never has a stale number, and it holds what it says. *)
Definition holds_own (σ : kfd_state) (s : gset Z) : Prop :=
  match σ with KOpen _ fd => s = {[fd]} | KClosed => s = ∅ | KStale _ => False end.

Lemma kfd_trans_holds_own σ op st evs σ' s :
  kfd_trans σ op st evs σ' -> st <> HSAKMT_STATUS_ERROR -> holds_own σ s -> holds_own σ' (held s evs).
Proof.
  intros Htr Hst Hs. destruct Htr; cbn in *; try (destruct (Z.eqb_spec fd (-1)); [lia|]); subst; try done; set_solver.
Qed.

Lemma kfd_runs_held σ ops sts evs σ' :
  kfd_runs σ ops sts evs σ' -> forall s,
  (holds σ s -> holds σ' (held s evs)) /\
  (HSAKMT_STATUS_ERROR ∉ sts -> holds_own σ s -> holds_own σ' (held s evs)).
Proof.
  induction 1 as [|σ op ops st sts evs evs' σ1 σ2 Htr _ IH]; intros s; [done|]. rewrite held_app. split.
  - intros Hs. by apply IH, (kfd_trans_holds _ _ _ _ _ _ Htr).
  - intros [Hne Hsts]%not_elem_of_cons Hs. apply IH; [done|]. by eapply kfd_trans_holds_own.
Qed.

Section theorems.
Context {K : Type} `{Kernel K} (pid : Z) {Hq : OneProcess K pid}.
Implicit Types (w : World K).

(** C25: Whatever open(2) and the loader of libdxcore answer, every history of opens and
    closes from a closed library runs to its end and refines the state machine
    [kfd_trans], with its statuses and its calls of open and close: the first open opens
    /dev/dxg and loads libdxcore, a nested one counts, the last close gives both back, a
    close too many is refused. The open count, the number of the descriptor and the
    references to libdxcore are those of the machine and the rest of the library is
    untouched. While the library is closed no descriptor is held; while it is open
    exactly its own is, provided no open has failed for want of libdxcore. *)
Theorem KFD_history_refines ops w :
  in_state pid KClosed w -> Z.of_nat (length ops) < 2 ^ 64 ->
  exists sts w' evs σ, kfd_run ops w = Some (sts, w') /\ kfd_runs KClosed ops sts evs σ /\ in_state pid σ w' /\
    fdw w' = fdw w ++ evs /\ dlw w' = dlw w + kfd_refs σ /\ same_rest w w' /\
    holds σ (held ∅ evs) /\ (HSAKMT_STATUS_ERROR ∉ sts -> holds_own σ (held ∅ evs)).
Proof using Hq.
  intros Ho Hb. destruct (kfd_run_spec pid ops KClosed w Ho Hb) as (sts & w' & evs & σ & Hr & Hruns & (Hin & Hrest & Hfd & Hd)).
  destruct (kfd_runs_held _ _ _ _ _ Hruns ∅) as [Hh Hown]. exists sts, w', evs, σ.
  split_and!; try done; [cbn [kfd_refs] in Hd; lia|by apply Hh|intros Hs; by apply Hown].
Qed.

(** Opening an open library again drops the sub-allocator: its fragments and
    cached blocks are forgotten while the memory objects and the allocation map,
    which the live fragments belong to, stay as they are. *)
Theorem OpenKFD_forgets_fragments n fd w :
  in_state pid (KOpen n fd) w -> n + 1 < 2 ^ 64 ->
  exists w', hsaKmtOpenKFD w = Some (HSAKMT_STATUS_KERNEL_ALREADY_OPENED, w') /\
    w_fa w' = SimpleHeap_new /\ w_mems w' = w_mems w /\ w_amap w' = w_amap w.
Proof using Hq.
  intros Ho Hb. destruct (Open_not_forked pid _ w Ho) as (w1 & -> & (_ & (_ & Hm1 & _ & Ha1 & _) & _) & Ho1).
  destruct (open_counted_again pid n fd w1 Ho1 Hb) as (w' & Hr & (_ & (_ & Hm & _ & Ha & _) & _) & Hfa).
  exists w'. split_and!; congruence.
Qed.

(** When libdxcore cannot be loaded the first open fails and closes the
    descriptor it has just opened, but the runtime keeps its number: an open that
    then succeeds takes it for an open descriptor and does not open /dev/dxg again. *)
Theorem OpenKFD_failed_loader w w' :
  in_state pid KClosed w -> hsaKmtOpenKFD w = Some (HSAKMT_STATUS_ERROR, w') ->
  exists fd, 0 <= fd /\ fdw w' = fdw w ++ [Opened fd; Closed fd] /\ dxg_fd (w_rt w') = fd /\
  exists st w'' evs σ, hsaKmtOpenKFD w' = Some (st, w'') /\ fdw w'' = fdw w' ++ evs /\ in_state pid σ w'' /\
    ((st = HSAKMT_STATUS_ERROR /\ evs = [Closed (-1)] /\ σ = KStale fd) \/ (st = HSAKMT_STATUS_SUCCESS /\ evs = [] /\ σ = KOpen 1 fd)).
Proof using Hq.
  intros Ho Hr. destruct (Open_step pid KClosed w Ho) as (st & w1 & evs & σ & Hr1 & (Hin & _ & Hfd & _) & Htr); [done|].
  rewrite Hr in Hr1. injection Hr1 as <- <-. inversion Htr as [|fd Hpos| | | | | | | |]; subst. exists fd.
  split; [done|]. split; [done|]. split; [apply Hin|].
  destruct (Open_step pid (KStale fd) w' Hin) as (st2 & w2 & evs2 & σ2 & Hr2 & (Hin2 & _ & Hfd2 & _) & Htr2); [done|].
  exists st2, w2, evs2, σ2. split_and!; try done. inversion Htr2; subst; [by left|by right].
Qed.

(** The descriptor that the child has from its parent, when there is one. *)
Definition inherited (fd : Z) : list fd_event := if 0 <=? fd then [Closed fd] else [].

(** C35: In a forked child, told by the handler of fork or by its pid, the first open
    starts over, whatever open(2) and the loader answer: the descriptor inherited from the
    parent is closed, the allocation map and the sub-allocator are emptied, the local
    heap, the system heap and the handle aperture are the unset ones of a new runtime,
    and from there it is the first open of a closed library: it ends open once under the
    child's pid, or closed with the status of what failed. The devices and the memory
    objects of the parent are kept, and not deleted. *)
Theorem OpenKFD_in_child w :
  is_forked (w_rt w) = true \/ parent_pid (w_rt w) <> pid ->
  exists st w' evs σ, hsaKmtOpenKFD w = Some (st, w') /\ kfd_trans KClosed OpOpen st evs σ /\ in_state pid σ w' /\
    fdw w' = fdw w ++ inherited (dxg_fd (w_rt w)) ++ evs /\ dlw w' = dlw w + kfd_refs σ /\
    w_amap w' = [] /\ w_fa w' = SimpleHeap_new /\
    local_heap (w_rt w') = mkHeapSpace 0 0 None /\ system_heap (w_rt w') = mkHeapSpace 0 0 None /\
    handle_aperture (w_rt w') = mkHeapSpace 0 0 None /\
    w_devs w' = w_devs w /\ w_mems w' = w_mems w /\ w_nodes w' = w_nodes w.
Proof using Hq.
  intros Hk.
  assert (exists w0, is_forked_child w = Some (true, w0) /\ dxg_fd (w_rt w0) = dxg_fd (w_rt w) /\ fdw w0 = fdw w /\ dlw w0 = dlw w /\
    w_devs w0 = w_devs w /\ w_mems w0 = w_mems w /\ w_nodes w0 = w_nodes w)
    as (w0 & Hr0 & Hfd0 & Hf0 & Hd0 & Hdev0 & Hm0 & Hn0).
  { unfold is_forked_child. destruct (is_forked (w_rt w)) eqn:E.
    { exists w. split; [|done]. erewrite M_bind_step by reflexivity. by rewrite E. }
    destruct Hk as [?|Hk]; [done|]. destruct (kcall_logs sys_getpid w) as [k Hr]. rewrite (op_pid (w_ker w)) in Hr.
    eexists. split; [|split_and!].
    { erewrite M_bind_step by reflexivity. rewrite E, (M_bind_step _ _ _ _ _ _ _ _ Hr), (proj2 (Z.eqb_neq _ _) Hk). reflexivity. }
    all: try reflexivity.
    - unfold fdw. cbn. by rewrite omap_app, app_nil_r.
    - unfold dlw. cbn. rewrite dl_refs_app. cbn. lia. }
  destruct (clear_after_fork_runs pid w0) as (w1 & Hr1 & Ho1 & Hrt1 & Ha1 & Hfa1 & Hdev1 & Hm1 & Hn1 & Hf1 & Hd1).
  destruct (open_counted_closed pid w1 Ho1) as (st & w2 & evs & σ & Hr2 & (Hdev2 & Hm2 & _ & Ha2 & Hn2) & Hin & Hf2 & Hd2 & Htr & Hheaps & Hfa2).
  rewrite Hrt1 in Hheaps. injection Hheaps as Hl Hs Hh. exists st, w2, evs, σ. split.
  { unfold hsaKmtOpenKFD. rewrite (M_bind_step _ _ _ _ _ _ _ _ Hr0), (M_bind_step _ _ _ _ _ _ _ _ Hr1). exact Hr2. }
  split_and!; try done; try congruence.
  - rewrite Hf2, Hf1, Hf0, Hfd0. by rewrite <- app_assoc.
  - rewrite Hfa2. by case_decide.
Qed.
End theorems.

(** ** Witnesses *)

#[export] Instance demo_one_process : OneProcess DemoKernel 100.
Proof. by split; intros. Qed.

(** A closed library. *)
Definition closed_world : World DemoKernel := set_rt (hsakmtRuntime_new 100) (demo_world []).

Lemma KFD_history_refines_witness :
  exists w', kfd_run [OpOpen; OpOpen; OpClose; OpClose; OpClose] closed_world =
      Some ([HSAKMT_STATUS_SUCCESS; HSAKMT_STATUS_KERNEL_ALREADY_OPENED; HSAKMT_STATUS_SUCCESS; HSAKMT_STATUS_SUCCESS;
             HSAKMT_STATUS_KERNEL_IO_CHANNEL_NOT_OPENED], w') /\ fdw w' = [Opened 3; Closed 3].
Proof.
  destruct (KFD_history_refines 100 [OpOpen; OpOpen; OpClose; OpClose; OpClose] closed_world)
    as (sts & w' & evs & σ & Hr & _ & _ & Hf & _); [by repeat split|done|]. exists w'.
  assert (option_map (fun p => (p.1, fdw p.2)) (kfd_run [OpOpen; OpOpen; OpClose; OpClose; OpClose] closed_world) =
    Some ([HSAKMT_STATUS_SUCCESS; HSAKMT_STATUS_KERNEL_ALREADY_OPENED; HSAKMT_STATUS_SUCCESS; HSAKMT_STATUS_SUCCESS;
           HSAKMT_STATUS_KERNEL_IO_CHANNEL_NOT_OPENED], [Opened 3; Closed 3])) as Hv by (vm_compute; reflexivity).
  rewrite Hr in Hv. injection Hv as -> Hfd. split; [exact Hr|exact Hfd].
Defined.

(** An open library with a fragment in its sub-allocator. *)
Definition fragment_world : World DemoKernel :=
  set_fa (mkSimpleHeap [] [(0x100000000, [(0x100000000, ft_used 0x8000000)])] [] 0x8000000 0) (demo_world []).

Lemma OpenKFD_forgets_fragments_witness :
  exists w', hsaKmtOpenKFD fragment_world = Some (HSAKMT_STATUS_KERNEL_ALREADY_OPENED, w') /\ w_fa w' = SimpleHeap_new.
Proof.
  destruct (OpenKFD_forgets_fragments 100 1 3 fragment_world) as (w' & Hr & Hfa & _); [by repeat split|lia|].
  exists w'. split; [exact Hr|exact Hfa].
Defined.

Definition child_world : World DemoKernel := set_rt (rt_is_forked true demo_rt) (demo_world []).

Lemma OpenKFD_in_child_witness :
  exists w', hsaKmtOpenKFD child_world = Some (HSAKMT_STATUS_SUCCESS, w') /\
    fdw w' = [Closed 3; Opened 3] /\ local_heap (w_rt w') = mkHeapSpace 0 0 None.
Proof.
  destruct (OpenKFD_in_child 100 child_world (or_introl eq_refl)) as (st & w' & evs & σ & Hr & _ & _ & _ & _ & _ & _ & Hl & _).
  exists w'.
  assert (option_map (fun p => (p.1, fdw p.2)) (hsaKmtOpenKFD child_world) = Some (HSAKMT_STATUS_SUCCESS, [Closed 3; Opened 3]))
    as Hv by (vm_compute; reflexivity).
  rewrite Hr in Hv. injection Hv as -> Hfd. split_and!; [exact Hr|exact Hfd|exact Hl].
Defined.

(** The same environment without libdxcore. *)
Record NoLoader := mkNoLoader { nl_kernel : DemoKernel }.

#[export] Instance no_loader_kernel : Kernel NoLoader := fun R c k =>
  let '(r, k') := kernel_step R c (nl_kernel k) in
  (match c in kcall R return R -> R with
   | sys_dlopen name => fun h => if String.eqb name "libdxcore.so" then 0 else h
   | _ => fun r => r
   end r, mkNoLoader k').

#[export] Instance no_loader_one_process : OneProcess NoLoader 100.
Proof. by split; intros. Qed.

Definition no_loader_world : World NoLoader :=
  mkWorld (mkNoLoader (mkDemoKernel [] 20)) [] (hsakmtRuntime_new 100) [] ∅ 0x5000 [] SimpleHeap_new 0 true DxcoreLoader_new.

Lemma OpenKFD_failed_loader_witness :
  exists w' fd, hsaKmtOpenKFD no_loader_world = Some (HSAKMT_STATUS_ERROR, w') /\ dxg_fd (w_rt w') = fd /\ 0 <= fd.
Proof.
  assert (option_map fst (hsaKmtOpenKFD no_loader_world) = Some HSAKMT_STATUS_ERROR) as Hv by (vm_compute; reflexivity).
  destruct (hsaKmtOpenKFD no_loader_world) as [[st w']|] eqn:Hr; [|discriminate]. injection Hv as ->.
  destruct (OpenKFD_failed_loader 100 no_loader_world w') as (fd & Hpos & _ & Hf & _); [by repeat split|exact Hr|].
  exists w', fd. by split_and!.
Defined.
