(* ===== verification/MemorySpec.v ===== *)
(** * MemorySpec: the memory calls of the library (src/memory.cpp)

    The guard of a closed library, allocation and release of local memory
    against the allocation map, references held by queues and by importers and the calls
    that respect them. *)

From S2P Require Import Prelude.
From S2P Require Import StdMap.
From S2P Require Import BitField.
From S2P Require Import Utils.
From S2P Require Import VaMgr.
From S2P Require Import VaMgrSpec.
From S2P Require Import SimpleHeap.
From S2P Require Import Status.
From S2P Require Import World.
From S2P Require Import Runtime.
From S2P Require Import Device.
From S2P Require Import GpuMemory.
From S2P Require Import Demo.
From S2P Require Import MapSpec.
From S2P Require Import CreateSpec.
From S2P Require Import Memory.
#[local] Open Scope Z_scope.

(** ** The guard *)

Definition library_closed {K} (w : World K) : Prop :=
  dxg_open_count (w_rt w) = 0 \/ is_forked (w_rt w) = true.

Definition library_open {K} (w : World K) : Prop :=
  dxg_open_count (w_rt w) <> 0 /\ is_forked (w_rt w) = false.

Section guard.
Context {K : Type} `{Kernel K}.
Implicit Types (w : World K).

Lemma CHECK_DXG_OPEN_closed {R} (err : HSAKMT_STATUS -> R) (m : M K R) w :
  library_closed w -> CHECK_DXG_OPEN err m w = Some (err HSAKMT_STATUS_KERNEL_IO_CHANNEL_NOT_OPENED, w).
Proof.
  intros Hc. unfold CHECK_DXG_OPEN. erewrite M_bind_step by reflexivity.
  destruct Hc as [-> | ->]; [done|by rewrite orb_true_r].
Qed.

Lemma CHECK_DXG_OPEN_open {R} (err : HSAKMT_STATUS -> R) (m : M K R) w :
  library_open w -> CHECK_DXG_OPEN err m w = m w.
Proof.
  intros [Hc Hf]. unfold CHECK_DXG_OPEN. erewrite M_bind_step by reflexivity.
  by rewrite (proj2 (Z.eqb_neq _ _) Hc), Hf.
Qed.

(** On a closed library, or in a forked child that has not opened it again,
    every memory call returns [KERNEL_IO_CHANNEL_NOT_OPENED], leaves its out
    arguments alone and has no effect at all: no call leaves the library and no
    state changes. *)
Theorem memory_calls_need_open w node size align flags addr avail ptr info ud gpu nodes fd off access handle ginfo va :
  library_closed w ->
  let st := HSAKMT_STATUS_KERNEL_IO_CHANNEL_NOT_OPENED in
  hsaKmtAllocMemoryAlign node size align flags addr w = Some ((st, default 0 addr), w) /\
  hsaKmtAllocMemory node size flags addr w = Some ((st, default 0 addr), w) /\
  hsaKmtFreeMemory ptr size w = Some (st, w) /\
  hsaKmtAvailableMemory node avail w = Some ((st, avail), w) /\
  hsaKmtRegisterMemoryWithFlags ptr size flags w = Some (st, w) /\
  hsaKmtQueryPointerInfo ptr info w = Some ((st, info), w) /\
  hsaKmtSetMemoryUserData ptr ud w = Some (st, w) /\
  hsaKmtMapMemoryToGPUNodes ptr size gpu nodes w = Some ((st, gpu), w) /\
  hsaKmtMapMemoryToGPU ptr size gpu w = Some ((st, gpu), w) /\
  hsaKmtUnmapMemoryToGPU ptr w = Some (st, w) /\
  hsaKmtDeregisterMemory ptr w = Some (st, w) /\
  hsaKmtExportDMABufHandle access ptr fd off w = Some ((st, fd, off), w) /\
  hsaKmtRegisterGraphicsHandleToNodesExt handle ginfo nodes va w = Some ((st, ginfo), w).
Proof.
  intros Hc st.
  split_and!;
    unfold hsaKmtAllocMemory, hsaKmtAllocMemoryAlign, hsaKmtAllocMemoryAlignInternal, AllocMemoryAlign_with, hsaKmtFreeMemory,
      hsaKmtFreeMemoryInternal, FreeMemory_with, hsaKmtAvailableMemory, hsaKmtRegisterMemoryWithFlags,
      hsaKmtQueryPointerInfo, hsaKmtSetMemoryUserData, hsaKmtMapMemoryToGPU, hsaKmtMapMemoryToGPUNodes,
      hsaKmtUnmapMemoryToGPU, hsaKmtDeregisterMemory, hsaKmtExportDMABufHandle, hsaKmtRegisterGraphicsHandleToNodesExt;
    repeat (erewrite (M_bind_step _ _ _ get_rt) by reflexivity); by apply CHECK_DXG_OPEN_closed.
Qed.
End guard.

(** ** What an allocation asks for *)

Ltac ci_bits :=
  unfold alloc_create_info, CF_virtual_alloc, CF_physical_only, CF_interprocess, CF_locked, CF_physical_contiguous,
    CF_sysmem_ipc_sig_importer, CF_sysmem_ipc_sig_exporter, CF_alloc_va, CF_blit_kernel_object; cbn [ci_flags];
  bits; done.

Lemma ci_virtual system size align flags hint :
  bit CF_virtual_alloc (ci_flags (alloc_create_info system size align flags hint)) = bit MF_OnlyAddress flags.
Proof. ci_bits. Qed.

Lemma ci_physical system size align flags hint :
  bit CF_physical_only (ci_flags (alloc_create_info system size align flags hint)) = bit MF_NoAddress flags.
Proof. ci_bits. Qed.

(** The request [hsaKmtAllocMemory] makes of [CreateGpuMemory], flag by flag:
    system memory exactly when the request is for the host and is neither pure
    address space, pure storage nor contiguous; an address range exactly when
    storage alone was not asked for; fine grain unless coarse grain was asked for. *)
Theorem alloc_request_flags system size align flags hint :
  let ci := alloc_create_info system size align flags hint in
  let cf pos := bit pos (ci_flags ci) in
  let mf pos := bit pos flags in
  (ci_domain ci = kSystem <-> system = true /\ is_vmm flags = false) /\
  (ci_domain ci = kLocal <-> system = false \/ is_vmm flags = true) /\
  cf CF_virtual_alloc = mf MF_OnlyAddress /\
  cf CF_physical_only = mf MF_NoAddress /\
  cf CF_alloc_va = negb (mf MF_NoAddress) /\
  cf CF_interprocess = mf MF_NoAddress || mf MF_Contiguous /\
  cf CF_physical_contiguous = mf MF_Contiguous /\
  cf CF_locked = mf MF_NoSubstitute /\
  cf CF_sysmem_ipc_sig_exporter = system && mf MF_NonPaged && negb (mf MF_GTTAccess) /\
  cf CF_sysmem_ipc_sig_importer = false /\
  cf CF_blit_kernel_object = mf MF_ExecuteBlit && mf MF_ExecuteAccess && system /\
  bit 0 (ci_mem_flags ci) = negb (mf MF_CoarseGrain) /\ bit 1 (ci_mem_flags ci) = mf MF_Uncached.
Proof.
  cbv zeta. split; [|split].
  1,2: cbn [ci_domain alloc_create_info]; destruct system, (is_vmm flags); cbn; intuition congruence.
  repeat split; try ci_bits.
  all: cbn [ci_mem_flags alloc_create_info]; by destruct (bit MF_CoarseGrain flags), (bit MF_Uncached flags).
Qed.

(** ** Allocation and release on the local heap *)

(** A request of [size] bytes that goes straight to the local heap, on adapter
    [dev], for which [Init] rounds to [n] bytes. *)
Record local_request {K} (w : World K) (node size align flags : Z) (dev : nat) (n lo hi : Z) (m : VaMgr) : Prop := {
  lr_open : library_open w;
  lr_direct : enable_thunk_sub_allocator (w_rt w) = 0;
  lr_node : get_wddmdev (if node =? 0 then default_node (w_rt w) else node) w = Some (Some dev, w);
  lr_local : wants_system (w_rt w) node flags = false;
  lr_hint : bit MF_FixedAddress flags = false;
  lr_scratch : bit MF_Scratch flags = false;
  lr_vmm : is_vmm flags = false;
  lr_dev : exists d, w_devs w !! dev = Some d /\ n = AdjustSize (shared_dev_ d) kLocal size;
  lr_mgr : local_mgr w = Some m;
  lr_wf : VaMgr_wf lo hi m;
  lr_new : w_mems w !! w_next w = None;
  lr_align : 0 <= align < 2 ^ 62;
  lr_size : 0 < n < 2 ^ 63;
}.

Section alloc.
Context {K : Type} `{Kernel K}.
Implicit Types (w : World K).

Lemma local_request_creatable w node size align flags dev n lo hi m :
  local_request w node size align flags dev n lo hi m ->
  creatable w dev (alloc_create_info false size align flags 0) n lo hi m.
Proof.
  intros [_ _ _ _ _ _ Hv (d & Hd & ->) ? ? ? ? ?]. unfold is_vmm in Hv. zbool.
  constructor; try done; [by exists d|by rewrite ci_virtual|by rewrite ci_physical].
Qed.

(** The path such a request takes. *)
Lemma AllocMemoryAlign_local w node size align flags addr dev n lo hi m :
  local_request w node size align flags dev n lo hi m ->
  hsaKmtAllocMemoryAlign node size align flags (Some addr) w =
    (r ← create_and_record dev (alloc_create_info false size align flags 0) node size flags;
     mret (match r with Some a => (HSAKMT_STATUS_SUCCESS, a) | None => (HSAKMT_STATUS_ERROR, 0) end)) w.
Proof.
  intros [Ho Hsub Hnode Hsys Hfix Hscr Hv _ _ _ _ _ _].
  unfold hsaKmtAllocMemoryAlign, hsaKmtAllocMemoryAlignInternal, AllocMemoryAlign_with.
  erewrite M_bind_step by reflexivity. rewrite Hsub, (CHECK_DXG_OPEN_open _ _ _ Ho), Hfix. cbn -[mbind].
  erewrite M_bind_step by reflexivity. rewrite (M_bind_step _ _ _ _ _ _ _ _ Hnode).
  unfold scratch_flags. rewrite Hscr. cbn [andb]. rewrite Hsys. erewrite M_bind_step by reflexivity.
  cbn [zfb_flags andb orb negb]. erewrite M_bind_step by reflexivity. cbv beta iota.
  destruct (create_and_record dev (alloc_create_info false size align flags 0) node size flags w) as [[r w1]|] eqn:E.
  - rewrite !(M_bind_step _ _ _ _ _ _ _ _ E). by destruct r.
  - unfold mbind, M_bind. by rewrite E.
Qed.

(** The allocation map is sorted, and its keys inside the heap are live blocks. *)
Definition amap_ok (lo hi : Z) (m : VaMgr) (l : list (Z * Allocation)) : Prop :=
  map_sorted l /\ forall a al, map_find a l = Some al -> lo <= a < hi -> is_Some (allocated m !! a).

Lemma fresh_unmapped lo hi n align m m' l a :
  VaMgr_wf lo hi m -> amap_ok lo hi m l -> 0 < n -> a <> 0 ->
  spec_alloc lo hi n align (allocated m) a (allocated m') -> map_find a l = None /\ lo <= a < hi.
Proof.
  intros Hwf [_ Hl] Hn Ha [[? _]|(? & ? & _ & Hdis & _)]; [done|]. split; [|lia].
  destruct (map_find a l) as [al|] eqn:E; [|done]. destruct (Hl a al E ltac:(lia)) as [x Hx].
  pose proof (wf_live_bounds _ _ _ _ _ Hwf Hx). apply Hdis in Hx as [?|?]; lia.
Qed.

(** An empty sub-allocator frees nothing. *)
Lemma fa_free_empty a w : w_fa w = SimpleHeap_new -> a <> 0 -> fa_free a w = Some (false, set_fa SimpleHeap_new w).
Proof.
  intros Hfa Ha. unfold fa_free, SimpleHeap_free. rewrite Hfa. cbn -[set_fa]. by rewrite (proj2 (Z.eqb_neq _ _) Ha).
Qed.

(** The entry recorded for a local allocation. *)
Definition local_entry (p a node size flags : Z) : Allocation :=
  mkAllocation p a a size false 0 size (if bit MF_GTTAccess flags then 0 else node) flags (-1) 0.

Lemma create_and_record_runs w node size align flags dev n lo hi m :
  local_request w node size align flags dev n lo hi m ->
  let ci := alloc_create_info false size align flags 0 in
  exists r w' evs m', create_and_record dev ci node size flags w = Some (r, w') /\
    evolves dev w (set_amap (w_amap w) w') evs /\ w_next w < w_next w' /\ local_mgr w' = Some m' /\ VaMgr_wf lo hi m' /\
    match r with
    | Some a => exists g k, w_mems w' = <[w_next w := g]> (w_mems w) /\ local_object dev k (desc_ g) g /\
        GpuAddress g = a /\ a <> 0 /\ Size g = n /\ owned evs g /\
        (IsQueueReferenced g = false /\ desc_flag DF_is_imported_vram_ipc g = false /\ IsVirtual g = false) /\
        w_amap w' = map_set a (local_entry (w_next w) a node size flags) (w_amap w) /\
        spec_alloc lo hi n (reserve_align n align) (allocated m) a (allocated m')
    | None => w_mems w' = w_mems w /\ w_amap w' = w_amap w /\ allocated m' = allocated m /\ no_leak evs
    end.
Proof.
  intros Hreq ci. pose proof (local_request_creatable _ _ _ _ _ _ _ _ _ _ Hreq) as Hc. fold ci in Hc.
  destruct (CreateGpuMemory_runs _ _ _ _ _ _ _ 0 Hc) as (code & o & w1 & evs & m1 & Hrun & He & Hnext & Hm1 & Hwf1 & Hcase).
  assert (forall x, evolves dev w (set_amap (w_amap w) (set_amap x w1)) evs) as He' by (intros x; destruct He; by constructor).
  unfold create_and_record. rewrite (M_bind_step _ _ _ _ _ _ _ _ Hrun). cbv beta iota.
  destruct Hcase as [(-> & -> & g & k & Hmem & Hobj & Hsz & Ha & Hown & Hflags & Hspec)|(Hne & -> & Hmem & Hsame & Hleak)].
  - change (ErrorCode_ok Success) with true. cbv iota. erewrite M_bind_step by reflexivity.
    erewrite M_bind_step by (unfold get_mem; by rewrite Hmem, lookup_insert_eq).
    rewrite (cr_physical _ _ _ _ _ _ _ Hc : bit CF_physical_only (ci_flags ci) = false).
    change (0 <? ci_dmabuf_fd ci) with false. cbn [orb].
    exists (Some (GpuAddress g)). do 3 eexists. split; [reflexivity|].
    split_and!; [apply He'|done|done|done|]. exists g, k. split_and!; try done; try apply Hflags.
    cbn. by rewrite (ev_amap _ _ _ _ He).
  - rewrite (bool_decide_eq_false_2 _ Hne : ErrorCode_ok code = false). exists None. do 3 eexists.
    split; [reflexivity|]. split_and!; try done; [|apply He]. specialize (He' (w_amap w)). by destruct w1.
Qed.

(** Allocating local memory without the sub-allocator is all or nothing, for
    every answer of the driver. On success the address returned is a fresh block of
    the heap, unknown to the allocation map before, which now records it with its
    object and the size asked for. On failure the status is an error, the address
    is null, and the objects, the allocation map and the live blocks are those
    before the call, with every granted physical allocation handed back. The
    allocation map keeps naming live blocks only. *)
Theorem hsaKmtAllocMemory_local w node size align flags addr dev n lo hi m :
  local_request w node size align flags dev n lo hi m -> amap_ok lo hi m (w_amap w) ->
  exists st a w' evs m', hsaKmtAllocMemoryAlign node size align flags (Some addr) w = Some ((st, a), w') /\
    w_log w' = w_log w ++ evs /\ local_mgr w' = Some m' /\ VaMgr_wf lo hi m' /\ amap_ok lo hi m' (w_amap w') /\
    ((st = HSAKMT_STATUS_SUCCESS /\ a <> 0 /\ map_find a (w_amap w) = None /\
        w_amap w' = map_set a (local_entry (w_next w) a node size flags) (w_amap w) /\
        spec_alloc lo hi n (reserve_align n align) (allocated m) a (allocated m') /\
        exists g, w_mems w' = <[w_next w := g]> (w_mems w) /\ GpuAddress g = a /\ Size g = n) \/
     (st = HSAKMT_STATUS_ERROR /\ a = 0 /\ w_amap w' = w_amap w /\ w_mems w' = w_mems w /\
        allocated m' = allocated m /\ no_leak evs)).
Proof.
  intros Hreq Hmap. rewrite (AllocMemoryAlign_local _ _ _ _ _ _ _ _ _ _ _ Hreq).
  destruct (create_and_record_runs _ _ _ _ _ _ _ _ _ _ Hreq) as (r & w1 & evs & m1 & Hrun & He & _ & Hm1 & Hwf1 & Hr).
  pose proof (ev_log _ _ _ _ He : w_log w1 = w_log w ++ evs) as Hlog.
  rewrite (M_bind_step _ _ _ _ _ _ _ _ Hrun). pose proof Hmap as [Hsort Hlive].
  destruct r as [a|]; [destruct Hr as (g & k & Hmem & _ & Hga & Ha & Hsz & _ & _ & Hamap & Hspec)|
                       destruct Hr as (Hmem & Hamap & Hsame & Hleak)].
  - destruct (fresh_unmapped lo hi n (reserve_align n align) m m1 _ a (lr_wf _ _ _ _ _ _ _ _ _ _ Hreq) Hmap
                (proj1 (lr_size _ _ _ _ _ _ _ _ _ _ Hreq)) Ha Hspec) as [Hnone Hin].
    exists HSAKMT_STATUS_SUCCESS, a, w1, evs, m1. split; [done|]. split; [done|]. split; [done|]. split; [done|].
    split; [|left; split_and!; try done; by exists g].
    rewrite Hamap. split; [by apply map_set_sorted|]. intros a' al' Hf Hin'.
    destruct Hspec as [[? _]|(_ & _ & _ & _ & ->)]; [done|]. apply lookup_insert_is_Some'.
    destruct (decide (a = a')) as [->|Hne]; [by left|right].
    rewrite map_find_set_other in Hf by done. by eapply Hlive.
  - exists HSAKMT_STATUS_ERROR, 0, w1, evs, m1. split_and!; try done; [unfold amap_ok; by rewrite Hamap, Hsame|by right].
Qed.

Lemma hsaKmtFreeMemory_runs w a size al g i k m :
  library_open w -> w_fa w = SimpleHeap_new -> a <> 0 -> map_find a (w_amap w) = Some al -> al_dmabuf_fd al = -1 ->
  holds (al_handle al) g m w -> local_object i k (desc_ g) g -> GpuAddress g = a ->
  IsQueueReferenced g = false -> desc_flag DF_is_imported_vram_ipc g = false ->
  exists w' evs, hsaKmtFreeMemory a size w = Some (HSAKMT_STATUS_SUCCESS, w') /\
    evolves i (set_amap (map_erase a (w_amap w)) w) w' evs /\ w_mems w' = delete (al_handle al) (w_mems w) /\
    local_mgr w' = Some (VaMgr_Free a m) /\ created evs = [] /\
    (forall hs, alloc_handles_ptr_ g = Some hs -> released evs (resource_ g, hs)).
Proof.
  intros Hopen Hfa Ha Hal Hfd Hh Hobj Hga Hq Hipc.
  unfold hsaKmtFreeMemory, hsaKmtFreeMemoryInternal, FreeMemory_with. rewrite (CHECK_DXG_OPEN_open _ _ _ Hopen).
  rewrite (proj2 (Z.eqb_neq _ _) Ha), (M_bind_step _ _ _ _ _ _ _ _ (fa_free_empty _ _ Hfa Ha)). cbv iota.
  unfold free_direct. assert (set_fa SimpleHeap_new w = w) as -> by (rewrite <- Hfa; by destruct w).
  erewrite M_bind_step by reflexivity. cbv beta. rewrite Hal.
  rewrite (M_bind_step _ _ _ _ _ _ _ _ (get_mem_holds _ _ _ _ Hh)), Hq, Hipc, Hfd.
  erewrite M_bind_step by reflexivity. change (0 <=? -1) with false. cbv iota. erewrite M_bind_step by reflexivity.
  unfold amap_erase. erewrite M_bind_step by reflexivity.
  set (w1 := set_amap (map_erase a (w_amap w)) w).
  destruct (delete_moved i k (desc_ g) (al_handle al) g m w1) as (w2 & evs & Hr & He & Hmem & Hm & Hc & Hrel); [exact Hh|done|].
  rewrite (M_bind_step _ _ _ _ _ _ _ _ Hr). exists w2, evs. split_and!; try done.
  change (desc_gpu_addr (desc_ g)) with (GpuAddress g) in Hm. rewrite Hga in Hm. unfold local_free in Hm.
  by rewrite (proj2 (Z.eqb_neq _ _) Ha) in Hm.
Qed.

(** [hsaKmtFreeMemory] undoes such an allocation: after the two calls the
    objects, the allocation map and the live blocks of the heap are what they were,
    and every physical allocation the driver granted has been handed back. *)
Theorem alloc_free_roundtrip w node size align flags addr dev n lo hi m a w1 size' :
  local_request w node size align flags dev n lo hi m -> amap_ok lo hi m (w_amap w) -> w_fa w = SimpleHeap_new ->
  hsaKmtAllocMemoryAlign node size align flags (Some addr) w = Some ((HSAKMT_STATUS_SUCCESS, a), w1) ->
  exists w2 evs m2, hsaKmtFreeMemory a size' w1 = Some (HSAKMT_STATUS_SUCCESS, w2) /\
    w_log w2 = w_log w ++ evs /\ w_mems w2 = w_mems w /\ w_amap w2 = w_amap w /\
    local_mgr w2 = Some m2 /\ VaMgr_wf lo hi m2 /\ allocated m2 = allocated m /\ no_leak evs.
Proof.
  intros Hreq Hmap Hfa Hrun. rewrite (AllocMemoryAlign_local _ _ _ _ _ _ _ _ _ _ _ Hreq) in Hrun.
  destruct (create_and_record_runs _ _ _ _ _ _ _ _ _ _ Hreq) as (r & w' & evs & m1 & Hrun' & He & _ & Hm1 & Hwf1 & Hr).
  rewrite (M_bind_step _ _ _ _ _ _ _ _ Hrun') in Hrun. destruct r as [b|]; [|discriminate Hrun]. injection Hrun as -> <-.
  destruct Hr as (g & k & Hmem & Hobj & Hga & Ha & Hsz & (hs & Hhs & Hown) & (Hq & Hipc & _) & Hamap & Hspec).
  pose proof (fresh_unmapped lo hi n (reserve_align n align) m m1 _ a (lr_wf _ _ _ _ _ _ _ _ _ _ Hreq) Hmap
                (proj1 (lr_size _ _ _ _ _ _ _ _ _ _ Hreq)) Ha Hspec) as [Hnone _].
  destruct (hsaKmtFreeMemory_runs w' a size' (local_entry (w_next w) a node size flags) g dev k m1)
    as (w2 & e2 & Hr2 & He2 & Hmem2 & Hm2 & Hc2 & Hrel); try done.
  - pose proof (ev_rt _ _ _ _ He : rt_local_heap _ (w_rt w') = _) as Hrt.
    destruct (lr_open _ _ _ _ _ _ _ _ _ _ Hreq) as [Ho Hf]. rewrite <- Hrt in Ho, Hf. by split.
  - pose proof (ev_fa _ _ _ _ He : w_fa w' = w_fa w) as ->. done.
  - by rewrite Hamap, map_find_set_same by (done || exact (proj1 Hmap)).
  - split_and!; [by rewrite Hmem, lookup_insert_eq| |done]. pose proof (ev_devs _ _ _ _ He : w_devs w' = _) as ->.
    rewrite (lo_device _ _ _ _ Hobj), list_lookup_alter_eq. destruct (lr_dev _ _ _ _ _ _ _ _ _ _ Hreq) as (d & -> & _). by eexists.
  - exists w2, (evs ++ e2). eexists. split; [exact Hr2|]. cbn [al_handle local_entry] in Hmem2.
    pose proof (lr_new _ _ _ _ _ _ _ _ _ _ Hreq) as Hnew. split_and!; [| | |exact Hm2|by apply Free_wf| |].
    + rewrite (ev_log _ _ _ _ He2). cbn. by rewrite (ev_log _ _ _ _ He : w_log w' = _), app_assoc.
    + by rewrite Hmem2, Hmem, delete_insert_id.
    + rewrite (ev_amap _ _ _ _ He2). cbn. by rewrite Hamap, map_erase_set by (done || exact (proj1 Hmap)).
    + apply (spec_alloc_free lo hi n (reserve_align n align)); try done; [apply Hreq|apply (lr_size _ _ _ _ _ _ _ _ _ _ Hreq)].
    + eapply no_leak_one; [exact Hown|exact Hc2|by apply Hrel].
Qed.
End alloc.

(** ** References *)

(** The three-bit counter of importers. *)
Lemma SharedReference_range g : 0 <= SharedReference g < 8.
Proof. apply (bf_get_range DF_is_imported_from_same_process 3). lia. Qed.

Lemma SharedReference_set n g : SharedReference (set_SharedReference n g) = n mod 8.
Proof.
  unfold SharedReference, set_SharedReference, upd_desc, with_flags. cbn.
  rewrite bf_get_set_same by (unfold DF_is_imported_from_same_process; lia). by rewrite Z.land_ones by lia.
Qed.

Lemma set_SharedReference_twice n n' g : set_SharedReference n (set_SharedReference n' g) = set_SharedReference n g.
Proof.
  unfold set_SharedReference, upd_desc, with_desc, with_flags. cbn.
  by rewrite bf_set_twice by (unfold DF_is_imported_from_same_process; lia).
Qed.

Lemma set_SharedReference_flag pos n g :
  0 <= pos -> pos < 12 \/ 15 <= pos -> desc_flag pos (set_SharedReference n g) = desc_flag pos g.
Proof.
  intros. unfold desc_flag, set_SharedReference, upd_desc, with_flags. cbn.
  apply bit_bf_set_other; unfold DF_is_imported_from_same_process; lia.
Qed.

(** The counter of same-process importers counts modulo 8 and touches no other
    flag: releasing undoes importing below 7, and the eighth import takes it back
    to 0, where a release no longer counts. *)
Theorem SharedReference_counts g :
  SharedReference (IncSharedReference g) = (SharedReference g + 1) mod 8 /\
  (forall pos, 0 <= pos -> pos < 12 \/ 15 <= pos -> desc_flag pos (IncSharedReference g) = desc_flag pos g) /\
  (SharedReference g < 7 ->
     DecSharedReference (IncSharedReference g) = (SharedReference g, set_SharedReference (SharedReference g) g)) /\
  (SharedReference g = 7 ->
     SharedReference (IncSharedReference g) = 0 /\ DecSharedReference (IncSharedReference g) = (0, IncSharedReference g)).
Proof.
  pose proof (SharedReference_range g) as Hr.
  pose proof (SharedReference_set (SharedReference g + 1) g) as E.
  change (set_SharedReference (SharedReference g + 1) g) with (IncSharedReference g) in E.
  split; [exact E|]. split; [exact (fun pos H0 H1 => set_SharedReference_flag pos _ g H0 H1)|]. split.
  - intros Hlt. unfold DecSharedReference. rewrite E, Z.mod_small by lia.
    rewrite (proj2 (Z.eqb_neq (SharedReference g + 1) 0)) by lia.
    replace (SharedReference g + 1 - 1) with (SharedReference g) by lia.
    exact (f_equal (pair (SharedReference g)) (set_SharedReference_twice (SharedReference g) (SharedReference g + 1) g)).
  - intros E7. rewrite E7 in E. change ((7 + 1) mod 8) with 0 in E. unfold DecSharedReference. rewrite E.
    split; reflexivity.
Qed.

(** A buffer the library knows: its entry and its object. *)
Definition known {K} (w : World K) (a : Z) (al : Allocation) (g : GpuMemory) : Prop :=
  a <> 0 /\ map_find a (w_amap w) = Some al /\ w_mems w !! al_handle al = Some g.

Section references.
Context {K : Type} `{Kernel K}.
Implicit Types (w : World K).

Definition with_object (w : World K) (p : Z) (g : GpuMemory) : World K := set_mems (<[p := g]> (w_mems w)) w.

Lemma mod_mem_known w a al g f : known w a al g -> mod_mem (al_handle al) f w = Some (tt, with_object w (al_handle al) (f g)).
Proof. intros (_ & _ & Hg). unfold mod_mem, get_mem, set_mem, mbind, M_bind. by rewrite Hg, Hg. Qed.

(** An address at which the sub-allocator has a fragment in use. *)
Definition live_fragment (a : Z) (h : SimpleHeap) : bool :=
  match map_floor a (sh_block_list h) with
  | Some (_, fm) => match map_find a fm with Some f => negb (ft_free f) | None => false end
  | None => false
  end.

Lemma fa_free_miss w a : a <> 0 -> live_fragment a (w_fa w) = false -> fa_free a w = Some (false, w).
Proof.
  intros Ha Hl. assert (set_fa (w_fa w) w = w) as Hid by (by destruct w).
  unfold fa_free, SimpleHeap_free. rewrite (proj2 (Z.eqb_neq _ _) Ha). revert Hl. unfold live_fragment.
  destruct (map_floor a (sh_block_list (w_fa w))) as [[blk fm]|]; [|intros _; cbn -[set_fa]; by rewrite Hid].
  destruct (map_find a fm) as [f|]; [|intros _; cbn -[set_fa]; by rewrite Hid].
  destruct (ft_free f); [intros _; cbn -[set_fa]; by rewrite Hid|done].
Qed.

Lemma fa_block_base_miss w a : live_fragment a (w_fa w) = false -> fa_block_base a w = Some (0, w).
Proof.
  intros Hl. unfold fa_block_base, SimpleHeap_block_base, mget. revert Hl. unfold live_fragment.
  destruct (a =? 0), (map_floor a (sh_block_list (w_fa w))) as [[blk fm]|]; try done.
  destruct (map_find a fm) as [f|]; [|done]. by destruct (ft_free f).
Qed.

(** A buffer a queue holds, at an address the sub-allocator has no fragment in use at. *)
Definition queue_held (w : World K) (a : Z) (al : Allocation) (g : GpuMemory) : Prop :=
  library_open w /\ known w a al g /\ IsQueueReferenced g = true /\ live_fragment a (w_fa w) = false.

Lemma FreeMemory_held w a al g skip : queue_held w a al g -> hsaKmtFreeMemoryInternal a skip w = Some (HSAKMT_STATUS_ERROR, w).
Proof.
  intros (Hopen & (Ha & Hf & Hg) & Hq & Hl). unfold hsaKmtFreeMemoryInternal, FreeMemory_with.
  rewrite (CHECK_DXG_OPEN_open id _ w Hopen), (proj2 (Z.eqb_neq _ _) Ha).
  rewrite (M_bind_step _ _ _ _ _ _ false w) by (destruct skip; [done|by apply fa_free_miss]).
  cbv iota. unfold free_direct. erewrite M_bind_step by reflexivity. cbv beta. rewrite Hf.
  erewrite M_bind_step by (unfold get_mem; by rewrite Hg). by rewrite Hq.
Qed.

Lemma UnmapMemory_held w a al g : queue_held w a al g -> hsaKmtUnmapMemoryToGPU a w = Some (HSAKMT_STATUS_ERROR, w).
Proof.
  intros (Hopen & (Ha & Hf & Hg) & Hq & Hl). unfold hsaKmtUnmapMemoryToGPU.
  rewrite (CHECK_DXG_OPEN_open id _ w Hopen), (proj2 (Z.eqb_neq _ _) Ha).
  rewrite (M_bind_step _ _ _ _ _ _ _ _ (fa_block_base_miss _ _ Hl)). cbn [negb Z.eqb]. cbv iota.
  erewrite M_bind_step by reflexivity. cbv beta. rewrite Hf.
  erewrite M_bind_step by (unfold get_mem; by rewrite Hg). by rewrite Hq.
Qed.

(** The address by which the libdrm calls release an object. *)
Definition handle_address (g : GpuMemory) : Z :=
  if desc_flag DF_is_va_required g then GpuAddress g else desc_handle_ape_addr (desc_ g).

Lemma MemHandleFree_held w a al g :
  queue_held w a al g -> handle_address g = a -> hsaKmtMemHandleFree (al_handle al) w = Some (HSAKMT_STATUS_ERROR, w).
Proof.
  intros Hh Hat. pose proof Hh as (Hopen & (Ha & Hf & Hg) & _). unfold hsaKmtMemHandleFree, amdgpu_bo_free_impl.
  rewrite (CHECK_DXG_OPEN_open id _ w Hopen). unfold mbind, M_bind, get_mem at 1. rewrite Hg.
  change (if desc_flag DF_is_va_required g then GpuAddress g else desc_handle_ape_addr (desc_ g)) with (handle_address g).
  rewrite Hat. unfold hsaKmtFreeMemory. by rewrite (FreeMemory_held _ _ _ _ false Hh).
Qed.

(** Deregistering asks for no queue: a buffer of the library's own stays, and the last
    reference to an imported one deletes the object. *)
Lemma Deregister_own w a al g :
  library_open w -> known w a al g -> al_userptr al = false -> desc_flag DF_is_imported_vram_ipc g = false ->
  hsaKmtDeregisterMemory a w = Some (HSAKMT_STATUS_SUCCESS, w).
Proof.
  intros Hopen (Ha & Hf & Hg) Hu Hi. unfold hsaKmtDeregisterMemory. rewrite (CHECK_DXG_OPEN_open id _ w Hopen).
  rewrite (proj2 (Z.eqb_neq _ _) Ha). erewrite M_bind_step by reflexivity. cbv beta. rewrite Hf.
  erewrite M_bind_step by (unfold get_mem; by rewrite Hg). rewrite Hi. erewrite M_bind_step by reflexivity.
  cbv iota. by rewrite Hu.
Qed.

Lemma delete_removes p w u w' : GpuMemory_delete p w = Some (u, w') -> w_mems w' !! p = None.
Proof.
  unfold GpuMemory_delete. rewrite M_bind_Some. intros (g & w1 & _ & Hr). rewrite M_bind_Some in Hr.
  destruct Hr as (? & w2 & _ & Hr). rewrite M_bind_Some in Hr. destruct Hr as (? & w3 & _ & Hr). rewrite M_bind_Some in Hr.
  destruct Hr as (? & w4 & _ & Hr). unfold delete_mem in Hr. case_match; simplify_eq. apply lookup_delete_eq.
Qed.

Lemma Deregister_last w a al g :
  library_open w -> known w a al g -> desc_flag DF_is_imported_vram_ipc g = true -> SharedReference g <= 1 ->
  forall st w', hsaKmtDeregisterMemory a w = Some (st, w') -> w_mems w' !! al_handle al = None.
Proof.
  intros Hopen (Ha & Hf & Hg) Hi Hs st w' Hr. unfold hsaKmtDeregisterMemory in Hr.
  rewrite (CHECK_DXG_OPEN_open id _ w Hopen), (proj2 (Z.eqb_neq _ _) Ha) in Hr.
  erewrite M_bind_step in Hr by reflexivity. cbv beta in Hr. rewrite Hf in Hr.
  erewrite M_bind_step in Hr by (unfold get_mem; by rewrite Hg). rewrite Hi in Hr.
  pose proof (SharedReference_range g) as Hrange.
  assert ((DecSharedReference g).1 = 0) as Hlast.
  { unfold DecSharedReference. destruct (Z.eqb_spec (SharedReference g) 0); cbn; lia. }
  destruct (DecSharedReference g) as [n g']. cbn in Hlast. subst n.
  erewrite M_bind_step in Hr by (erewrite M_bind_step by (unfold set_mem; by rewrite Hg); reflexivity).
  cbn [Z.eqb] in Hr. cbv iota in Hr. erewrite M_bind_step in Hr by reflexivity.
  rewrite M_bind_Some in Hr. destruct Hr as (? & w2 & Hd & Hr). injection Hr as _ <-. by eapply delete_removes.
Qed.

(** What the reference does to the object. *)
Lemma held_flag pos g : 0 <= pos -> pos <> DF_is_queue_referenced -> desc_flag pos (GetQueueReference g) = desc_flag pos g.
Proof. intros. apply bit_set_other; unfold DF_is_queue_referenced in *; lia. Qed.

Lemma held_shared g : SharedReference (GetQueueReference g) = SharedReference g.
Proof. apply bf_get_bit_set_other; unfold DF_is_queue_referenced, DF_is_imported_from_same_process; lia. Qed.

Lemma held_address g : handle_address (GetQueueReference g) = handle_address g.
Proof. unfold handle_address. rewrite held_flag by (unfold DF_is_va_required, DF_is_queue_referenced; lia). done. Qed.

Lemma held_twice g : GetQueueReference (GetQueueReference g) = GetQueueReference g.
Proof.
  unfold GetQueueReference, upd_desc, set_desc_flag, with_desc, with_flags, bit_set. cbn.
  by rewrite bf_set_twice by (unfold DF_is_queue_referenced; lia).
Qed.

Lemma held_back g : IsQueueReferenced g = false -> PutQueueReference (GetQueueReference g) = g.
Proof.
  intros Hq. unfold PutQueueReference, GetQueueReference, upd_desc, set_desc_flag, with_desc, with_flags. cbn.
  rewrite bit_set_back by (done || (unfold DF_is_queue_referenced; lia)). by destruct g as [? [] ? ? ? ?].
Qed.

Lemma acquire_known w a al g : known w a al g ->
  queue_acquire_buffer a w = Some (true, with_object w (al_handle al) (GetQueueReference g)).
Proof.
  intros Hk. pose proof Hk as (Ha & Hf & _). unfold queue_acquire_buffer. rewrite (proj2 (Z.eqb_neq _ _) Ha).
  erewrite M_bind_step by reflexivity. cbv beta. rewrite Hf. by rewrite (M_bind_step _ _ _ _ _ _ _ _ (mod_mem_known _ _ _ _ _ Hk)).
Qed.

Lemma release_known w a al g : known w a al g ->
  queue_release_buffer a w = Some (true, with_object w (al_handle al) (PutQueueReference g)).
Proof.
  intros Hk. pose proof Hk as (Ha & Hf & _). unfold queue_release_buffer. rewrite (proj2 (Z.eqb_neq _ _) Ha).
  erewrite M_bind_step by reflexivity. cbv beta. rewrite Hf. by rewrite (M_bind_step _ _ _ _ _ _ _ _ (mod_mem_known _ _ _ _ _ Hk)).
Qed.

(** C37: A buffer the library knows, at an address the sub-allocator has no fragment in use
    at, once acquired for a queue is refused with an error and no effect by both release
    calls ([hsaKmtFreeMemory] and the internal one, sub-allocator skipped or not), by
    [hsaKmtUnmapMemoryToGPU] and by the release of its handle; deregistering a buffer of the
    library's own answers success and leaves it. Giving the buffer back restores the world
    as it was before the acquisition. The reference is a flag and not a count: a second
    queue that acquires the buffer changes nothing, so one release is enough to give it up.
    [hsaKmtDeregisterMemory] does not ask for it: the last reference to an imported
    buffer deletes the object while the queue holds it. *)
Theorem queue_reference_protects w a al g :
  library_open w -> known w a al g -> IsQueueReferenced g = false -> live_fragment a (w_fa w) = false ->
  exists w1, queue_acquire_buffer a w = Some (true, w1) /\
    (forall size, hsaKmtFreeMemory a size w1 = Some (HSAKMT_STATUS_ERROR, w1)) /\
    (forall skip, hsaKmtFreeMemoryInternal a skip w1 = Some (HSAKMT_STATUS_ERROR, w1)) /\
    hsaKmtUnmapMemoryToGPU a w1 = Some (HSAKMT_STATUS_ERROR, w1) /\
    (handle_address g = a -> hsaKmtMemHandleFree (al_handle al) w1 = Some (HSAKMT_STATUS_ERROR, w1)) /\
    (al_userptr al = false -> desc_flag DF_is_imported_vram_ipc g = false ->
       hsaKmtDeregisterMemory a w1 = Some (HSAKMT_STATUS_SUCCESS, w1)) /\
    (desc_flag DF_is_imported_vram_ipc g = true -> SharedReference g <= 1 ->
       forall st w2, hsaKmtDeregisterMemory a w1 = Some (st, w2) -> w_mems w2 !! al_handle al = None) /\
    queue_acquire_buffer a w1 = Some (true, w1) /\
    queue_release_buffer a w1 = Some (true, w).
Proof.
  intros Hopen Hk Hq Hl. pose proof Hk as (Ha & Hf & Hg). set (g1 := GetQueueReference g).
  exists (with_object w (al_handle al) g1).
  assert (0 <= DF_is_queue_referenced) by (unfold DF_is_queue_referenced; lia).
  assert (known (with_object w (al_handle al) g1) a al g1) as Hk1 by (split_and!; [done|done|apply lookup_insert_eq]).
  assert (queue_held (with_object w (al_handle al) g1) a al g1) as Hheld.
  { split_and!; [done..| |done]. unfold IsQueueReferenced, g1, desc_flag. cbn. by rewrite bit_set_same. }
  split_and!.
  - rewrite acquire_known with (al := al) (g := g) by done. done.
  - intros size. exact (FreeMemory_held _ _ _ _ false Hheld).
  - intros skip. exact (FreeMemory_held _ _ _ _ skip Hheld).
  - exact (UnmapMemory_held _ _ _ _ Hheld).
  - intros Hat. apply (MemHandleFree_held _ a _ g1 Hheld). by rewrite <- Hat, <- (held_address g).
  - intros Hu Hi. apply (Deregister_own _ _ al g1); try done. rewrite <- Hi. by apply held_flag.
  - intros Hi Hs. apply (Deregister_last _ _ al g1); try done; [rewrite <- Hi; by apply held_flag|unfold g1; by rewrite held_shared].
  - rewrite (acquire_known _ _ _ _ Hk1). unfold g1. rewrite held_twice. unfold with_object. cbn. by rewrite insert_insert_eq.
  - rewrite (release_known _ _ _ _ Hk1). unfold g1. rewrite held_back by done. unfold with_object. cbn.
    rewrite insert_insert_eq, insert_id by done. by destruct w.
Qed.

(** Acquiring or releasing an address the library does not know reports
    success: [HSAKMT_STATUS_ERROR] converts to [true]. *)
Theorem queue_acquire_unknown w a :
  a <> 0 -> map_find a (w_amap w) = None ->
  queue_acquire_buffer a w = Some (true, w) /\ queue_release_buffer a w = Some (true, w).
Proof.
  intros Ha Hf. unfold queue_acquire_buffer, queue_release_buffer. rewrite (proj2 (Z.eqb_neq _ _) Ha).
  split; erewrite M_bind_step by reflexivity; cbv beta; by rewrite Hf.
Qed.

(** Deregistering user memory the library mapped is undefined: it reads the map
    entry it has just erased. *)
Theorem DeregisterMemory_userptr w a al g :
  library_open w -> known w a al g -> al_userptr al = true -> desc_flag DF_is_imported_vram_ipc g = false ->
  hsaKmtDeregisterMemory a w = None.
Proof.
  intros Hopen (Ha & Hf & Hg) Hu Hi. unfold hsaKmtDeregisterMemory. rewrite (CHECK_DXG_OPEN_open _ _ _ Hopen).
  rewrite (proj2 (Z.eqb_neq _ _) Ha). erewrite M_bind_step by reflexivity. cbv beta. rewrite Hf.
  erewrite M_bind_step by (unfold get_mem; by rewrite Hg). rewrite Hi. erewrite M_bind_step by reflexivity.
  cbv iota. rewrite Hu. by erewrite M_bind_step by reflexivity.
Qed.
End references.

(** ** Witnesses *)

Definition closed_demo : World DemoKernel := set_rt (hsakmtRuntime_new 100) (demo_world []).

Lemma memory_calls_need_open_witness :
  hsaKmtFreeMemory 0x1000 0 closed_demo = Some (HSAKMT_STATUS_KERNEL_IO_CHANNEL_NOT_OPENED, closed_demo).
Proof.
  apply (memory_calls_need_open closed_demo 0 0 0 0 None None 0x1000 None 0 None [] 0 0 0 0 (mkGraphicsResourceInfo 0 0 0) false).
  left. reflexivity.
Defined.

Lemma demo_request script :
  local_request (demo_world script) 1 0x100001000 0x10000 0 0 0x100001000 0x100000000 0x500000000 demo_local.
Proof.
  constructor; try done; try lia; [by exists demo_dev|].
  by apply (VaMgr_new_wf 0x100000000 0x400000000 DEFAULT_GPU_PAGE_SIZE).
Qed.

Lemma demo_amap_ok : amap_ok 0x100000000 0x500000000 demo_local [].
Proof. by split; [constructor|]. Qed.

Lemma refused_request :
  local_request refused_world 1 0x100001000 0x10000 0 0 0x100001000 0x100000000 0x500000000 demo_local.
Proof. apply demo_request. Qed.

Lemma granted_request :
  local_request granted_world 1 0x100001000 0x10000 0 0 0x100001000 0x100000000 0x500000000 demo_local.
Proof. apply demo_request. Qed.

Lemma hsaKmtAllocMemory_local_witness :
  exists w' m', hsaKmtAllocMemoryAlign 1 0x100001000 0x10000 0 (Some 0) refused_world = Some (HSAKMT_STATUS_ERROR, 0, w') /\
    w_amap w' = [] /\ local_mgr w' = Some m' /\ allocated m' = allocated demo_local.
Proof.
  pose proof (hsaKmtAllocMemory_local _ _ _ _ _ 0 _ _ _ _ _ refused_request demo_amap_ok) as H.
  destruct H as (st & a & w' & evs & m' & Hr & _ & Hm & _ & _ & Hcase).
  destruct Hcase as [(Hst & _)|(Hst & Ha & Hamap & _ & Hsame & _)]; rewrite Hst in Hr.
  - exfalso. vm_compute in Hr. discriminate Hr.
  - rewrite Ha in Hr. exists w', m'. split; [exact Hr|]. split; [exact Hamap|]. split; [exact Hm|exact Hsame].
Defined.

Lemma alloc_free_roundtrip_witness :
  exists a w1 w2, hsaKmtAllocMemoryAlign 1 0x100001000 0x10000 0 (Some 0) granted_world =
      Some (HSAKMT_STATUS_SUCCESS, a, w1) /\
    hsaKmtFreeMemory a 0x100001000 w1 = Some (HSAKMT_STATUS_SUCCESS, w2) /\ w_amap w2 = [] /\ w_mems w2 = ∅.
Proof.
  destruct (hsaKmtAllocMemoryAlign 1 0x100001000 0x10000 0 (Some 0) granted_world) as [[[st a] w1]|] eqn:E;
    [|vm_compute in E; discriminate E].
  assert (st = HSAKMT_STATUS_SUCCESS) as Hst by (vm_compute in E; injection E; intros; subst; reflexivity).
  rewrite Hst in E.
  pose proof (alloc_free_roundtrip _ _ _ _ _ _ _ _ _ _ _ _ _ 0x100001000 granted_request demo_amap_ok eq_refl E) as H.
  destruct H as (w2 & evs & m2 & Hr & _ & Hmem & Hamap & _).
  exists a, w1, w2. split; [rewrite Hst; reflexivity|]. split; [exact Hr|]. split; [exact Hamap|exact Hmem].
Defined.

(** A buffer at 0x100000000 backed by the object at 0x4000, seven times imported. *)
Definition demo_object : GpuMemory :=
  mkGpuMemory 0 (mkGpuMemoryDesc kLocal demo_luid 0x100000000 0 0x1000 0x1000 0 0 0x7000 0 0) 1 (Some [101]) 9 (-1).

Definition demo_entry (userptr : bool) : Allocation := mkAllocation 0x4000 0x100000000 0x100000000 0x1000 userptr 0 0x1000 1 0 (-1) 0.

Definition buffer_world (userptr : bool) : World DemoKernel :=
  set_mems {[ 0x4000 := demo_object ]} (set_amap [(0x100000000, demo_entry userptr)] (demo_world [])).

Lemma demo_known userptr : known (buffer_world userptr) 0x100000000 (demo_entry userptr) demo_object.
Proof. by split_and!. Qed.

Lemma demo_open userptr : library_open (buffer_world userptr).
Proof. by split. Qed.

Lemma SharedReference_counts_witness :
  SharedReference demo_object = 7 /\ SharedReference (IncSharedReference demo_object) = 0.
Proof. split; [reflexivity|apply (SharedReference_counts demo_object); reflexivity]. Defined.

Lemma queue_reference_protects_witness :
  exists w1, queue_acquire_buffer 0x100000000 (buffer_world false) = Some (true, w1) /\
    hsaKmtFreeMemory 0x100000000 0x1000 w1 = Some (HSAKMT_STATUS_ERROR, w1) /\
    hsaKmtFreeMemoryInternal 0x100000000 true w1 = Some (HSAKMT_STATUS_ERROR, w1) /\
    hsaKmtUnmapMemoryToGPU 0x100000000 w1 = Some (HSAKMT_STATUS_ERROR, w1) /\
    hsaKmtDeregisterMemory 0x100000000 w1 = Some (HSAKMT_STATUS_SUCCESS, w1) /\
    queue_release_buffer 0x100000000 w1 = Some (true, buffer_world false).
Proof.
  destruct (queue_reference_protects _ _ _ _ (demo_open false) (demo_known false) eq_refl eq_refl)
    as (w1 & H1 & H2 & H3 & H4 & _ & H6 & _ & _ & H9).
  exists w1. split; [exact H1|]. split; [exact (H2 0x1000)|]. split; [exact (H3 true)|]. split; [exact H4|].
  split; [exact (H6 eq_refl eq_refl)|exact H9].
Defined.

Lemma queue_acquire_unknown_witness :
  queue_acquire_buffer 0x9000 (buffer_world false) = Some (true, buffer_world false) /\
  queue_release_buffer 0x9000 (buffer_world false) = Some (true, buffer_world false).
Proof. apply queue_acquire_unknown; [lia|reflexivity]. Defined.

Lemma DeregisterMemory_userptr_witness : hsaKmtDeregisterMemory 0x100000000 (buffer_world true) = None.
Proof. apply (DeregisterMemory_userptr _ _ _ _ (demo_open true) (demo_known true)); reflexivity. Defined.
