(* ===== verification/MemoryHistory.v ===== *)
(** * MemoryHistory: histories of the memory calls (src/memory.cpp)

    Any sequence of allocations on the local heap, releases, references of queues and
    queries of pointers, on all layers down to the driver, against an abstract memory: a
    finite map of the live buffers. *)

From S2P Require Import Prelude.
From S2P Require Import StdMap.
From S2P Require Import BitField.
From S2P Require Import Utils.
From S2P Require Import VaMgr.
From S2P Require Import VaMgrSpec.
From S2P Require Import SimpleHeap.
From S2P Require Import Status.
From S2P Require Import World.
From S2P Require Import Runtime.
From S2P Require Import Device.
From S2P Require Import GpuMemory.
From S2P Require Import Demo.
From S2P Require Import MapSpec.
From S2P Require Import CreateSpec.
From S2P Require Import Memory.
From S2P Require Import MemorySpec.
#[local] Open Scope Z_scope.

(** ** The abstract memory *)

(** A live buffer: what was asked for, the bytes of its address range, and whether a queue
    holds it. *)
Record buffer := mkBuffer { bu_size : Z; bu_len : Z; bu_node : Z; bu_flags : Z; bu_held : bool }.

Definition bu_hold (h : bool) (b : buffer) : buffer := mkBuffer (bu_size b) (bu_len b) (bu_node b) (bu_flags b) h.

Inductive mem_op :=
  | OpAlloc (node size align flags : Z)
  | OpFree (a : Z)
  | OpAcquire (a : Z)
  | OpRelease (a : Z)
  | OpQuery (ptr : Z).

Inductive mem_result :=
  | ResAlloc (st : HSAKMT_STATUS) (a : Z)
  | ResFree (st : HSAKMT_STATUS)
  | ResQueue (ok : bool)
  | ResQuery (st : HSAKMT_STATUS) (info : option HsaPointerInfo).

(** The buffer at [a] is the one whose bytes asked for contain [ptr]. *)
Definition covers (σ : gmap Z buffer) (ptr a : Z) (b : buffer) : Prop := σ !! a = Some b /\ a <= ptr < a + bu_size b.

Section spec.
Context (lo hi : Z) (len : Z -> Z -> Z).   (* the bytes of the range of [node] and [size] *)

Inductive mem_spec (σ : gmap Z buffer) : mem_op -> mem_result -> gmap Z buffer -> Prop :=
  | spec_allocated node size align flags a :
      a <> 0 -> lo <= a -> a + len node size <= hi ->
      (reserve_align (len node size) align <> 0 -> a mod reserve_align (len node size) align = 0) ->
      (forall a' b, σ !! a' = Some b -> block_disjoint a (len node size) a' (bu_len b)) ->
      mem_spec σ (OpAlloc node size align flags) (ResAlloc HSAKMT_STATUS_SUCCESS a)
        (<[a := mkBuffer size (len node size) node flags false]> σ)
  | spec_refused node size align flags :
      mem_spec σ (OpAlloc node size align flags) (ResAlloc HSAKMT_STATUS_ERROR 0) σ
  | spec_freed a b : a <> 0 -> σ !! a = Some b -> bu_held b = false ->
      mem_spec σ (OpFree a) (ResFree HSAKMT_STATUS_SUCCESS) (delete a σ)
  | spec_held a b : a <> 0 -> σ !! a = Some b -> bu_held b = true -> mem_spec σ (OpFree a) (ResFree HSAKMT_STATUS_ERROR) σ
  | spec_unknown a : a <> 0 -> σ !! a = None -> mem_spec σ (OpFree a) (ResFree HSAKMT_STATUS_ERROR) σ
  | spec_free_null : mem_spec σ (OpFree 0) (ResFree HSAKMT_STATUS_INVALID_PARAMETER) σ
  | spec_acquire a : mem_spec σ (OpAcquire a) (ResQueue (negb (a =? 0))) (if a =? 0 then σ else alter (bu_hold true) a σ)
  | spec_release a : mem_spec σ (OpRelease a) (ResQueue (negb (a =? 0))) (if a =? 0 then σ else alter (bu_hold false) a σ)
  | spec_query ptr a b : ptr <> 0 -> covers σ ptr a b ->
      mem_spec σ (OpQuery ptr)
        (ResQuery HSAKMT_STATUS_SUCCESS (Some (mkPointerInfo 1 (bu_node b) (bu_flags b) a a (bu_size b) 0))) σ
  | spec_query_unknown ptr : ptr <> 0 -> (forall a b, ~ covers σ ptr a b) ->
      mem_spec σ (OpQuery ptr) (ResQuery HSAKMT_STATUS_ERROR (Some (mkPointerInfo 0 0 0 0 0 0 0))) σ
  | spec_query_null : mem_spec σ (OpQuery 0) (ResQuery HSAKMT_STATUS_INVALID_PARAMETER (Some (mkPointerInfo 0 0 0 0 0 0 0))) σ.

Inductive mem_specs (σ : gmap Z buffer) : list mem_op -> list mem_result -> gmap Z buffer -> Prop :=
  | specs_nil : mem_specs σ [] [] σ
  | specs_cons op ops r rs σ1 σ2 : mem_spec σ op r σ1 -> mem_specs σ1 ops rs σ2 -> mem_specs σ (op :: ops) (r :: rs) σ2.
End spec.

(** ** The calls *)

Section history.
Context {K : Type} `{Kernel K}.
Implicit Types (w : World K).

(** The caller's variables hold 0 before each call. *)
Definition do_mem_op (op : mem_op) : M K mem_result :=
  match op with
  | OpAlloc node size align flags => r ← hsaKmtAllocMemoryAlign node size align flags (Some 0); mret (ResAlloc r.1 r.2)
  | OpFree a => st ← hsaKmtFreeMemory a 0; mret (ResFree st)
  | OpAcquire a => ok ← queue_acquire_buffer a; mret (ResQueue ok)
  | OpRelease a => ok ← queue_release_buffer a; mret (ResQueue ok)
  | OpQuery ptr => r ← hsaKmtQueryPointerInfo ptr (Some (mkPointerInfo 0 0 0 0 0 0 0)); mret (ResQuery r.1 r.2)
  end.

Fixpoint do_mem_ops (ops : list mem_op) : M K (list mem_result) :=
  match ops with
  | [] => mret []
  | op :: ops => r ← do_mem_op op; rs ← do_mem_ops ops; mret (r :: rs)
  end.

(** The adapter of a request, and the bytes its address range gets. *)
Definition request_dev (w : World K) (node : Z) : option nat :=
  match get_wddmdev (if node =? 0 then default_node (w_rt w) else node) w with Some (Some dev, _) => Some dev | _ => None end.
Definition request_len (w : World K) (node size : Z) : Z :=
  match request_dev w node ≫= fun dev => w_devs w !! dev with Some d => AdjustSize (shared_dev_ d) kLocal size | None => 0 end.

(** An allocation that goes to the local heap of an adapter there is. *)
Record local_op (w : World K) (node size align flags : Z) : Prop := {
  op_dev : is_Some (request_dev w node);
  op_system : wants_system (w_rt w) node flags = false;
  op_fixed : bit MF_FixedAddress flags = false;
  op_scratch : bit MF_Scratch flags = false;
  op_vmm : is_vmm flags = false;
  op_align : 0 <= align < 2 ^ 62;
  op_len : 0 < request_len w node size < 2 ^ 63;
  op_size : 0 <= size <= request_len w node size;
}.

Definition op_ok (w : World K) (op : mem_op) : Prop :=
  match op with OpAlloc node size align flags => local_op w node size align flags | _ => True end.

(** The library is open, allocates without the sub-allocator, and nothing is allocated. *)
Record mem_start (w : World K) (lo hi : Z) : Prop := {
  ms_open : library_open w;
  ms_direct : enable_thunk_sub_allocator (w_rt w) = 0;
  ms_fa : w_fa w = SimpleHeap_new;
  ms_amap : w_amap w = [];
  ms_mems : w_mems w = ∅;
  ms_mgr : exists m, local_mgr w = Some m /\ VaMgr_wf lo hi m /\ allocated m = ∅;
}.

(** ** The invariant *)

(** What no call of a history changes. *)
Record same_library (w0 w : World K) : Prop := {
  sl_rt : rt_local_heap (local_heap (w_rt w0)) (w_rt w) = w_rt w0;
  sl_devs : shared_dev_ <$> w_devs w = shared_dev_ <$> w_devs w0;
  sl_nodes : w_nodes w = w_nodes w0;
  sl_fa : w_fa w = w_fa w0;
}.

(** The object of the buffer at [a]. *)
Record buffer_object (w : World K) (a : Z) (b : buffer) (g : GpuMemory) : Prop := {
  bo_local : exists dev k, local_object dev k (desc_ g) g /\ is_Some (w_devs w !! dev);
  bo_address : GpuAddress g = a;
  bo_held : IsQueueReferenced g = bu_held b;
  bo_imported : desc_flag DF_is_imported_vram_ipc g = false;
  bo_virtual : IsVirtual g = false;
}.

Definition buffer_entry (p a : Z) (b : buffer) : Allocation := local_entry p a (bu_node b) (bu_size b) (bu_flags b).

(** A grant of the driver that an object owns. *)
Definition owned_by (g : GpuMemory) (c : Z * list Z) : Prop := resource_ g = c.1 /\ alloc_handles_ptr_ g = Some c.2.

(** Every grant in the log was handed back or belongs to an object. *)
Definition accounted (w : World K) (evs : list kevent) : Prop :=
  Forall (fun c => released evs c \/ exists p g, w_mems w !! p = Some g /\ owned_by g c) (created evs).

Record mem_refines (lo hi : Z) (w0 : World K) (σ : gmap Z buffer) (w : World K) : Prop := {
  mr_same : same_library w0 w;
  mr_mgr : exists m, local_mgr w = Some m /\ VaMgr_wf lo hi m /\ allocated m = bu_len <$> σ;
  mr_sorted : map_sorted (w_amap w);
  mr_buffer : forall a b, σ !! a = Some b -> a <> 0 /\ 0 <= bu_size b <= bu_len b /\ bit MF_GTTAccess (bu_flags b) = false /\
    exists p g, map_find a (w_amap w) = Some (buffer_entry p a b) /\ w_mems w !! p = Some g /\ buffer_object w a b g;
  mr_entry : forall a al, map_find a (w_amap w) = Some al -> is_Some (σ !! a);
  mr_object : forall p g, w_mems w !! p = Some g -> p < w_next w /\
    exists al, map_find (GpuAddress g) (w_amap w) = Some al /\ al_handle al = p;
  mr_log : exists evs, w_log w = w_log w0 ++ evs /\ accounted w evs;
}.

Lemma accounted_app w w' evs e : accounted w evs ->
  (forall p g c, w_mems w !! p = Some g -> owned_by g c -> released e c \/ exists p' g', w_mems w' !! p' = Some g' /\ owned_by g' c) ->
  Forall (fun c => released e c \/ exists p g, w_mems w' !! p = Some g /\ owned_by g c) (created e) ->
  accounted w' (evs ++ e).
Proof.
  unfold accounted. rewrite created_app, Forall_app. intros Hold Hmems Hnew. split.
  - eapply Forall_impl; [exact Hold|]. intros c [Hr|(p & g & Hp & Hg)]; [left; apply released_app; by left|].
    destruct (Hmems p g c Hp Hg); [left; apply released_app|]; auto.
  - eapply Forall_impl; [exact Hnew|]. intros c [Hr|?]; [left; apply released_app|]; auto.
Qed.

Lemma same_library_evolves w0 w w' i evs x : same_library w0 w -> evolves i w (set_amap x w') evs -> same_library w0 w'.
Proof.
  intros [Hrt Hdevs Hnodes Hfa] [_ Hd Hr _ Hf Hn _]. cbn in *. split.
  - rewrite <- Hrt, <- Hr. done.
  - rewrite Hd. rewrite <- Hdevs. apply list_eq. intros j. rewrite !list_lookup_fmap.
    destruct (decide (i = j)) as [->|Hij]; [rewrite list_lookup_alter_eq|by rewrite list_lookup_alter_ne].
    by destruct (w_devs w !! j).
  - congruence.
  - congruence.
Qed.

Lemma evolves_devices w w' i evs x dev : evolves i w (set_amap x w') evs -> is_Some (w_devs w !! dev) -> is_Some (w_devs w' !! dev).
Proof.
  intros [_ Hd _ _ _ _ _] Hs. cbn in Hd. rewrite Hd.
  destruct (decide (i = dev)) as [->|Hij]; [by rewrite list_lookup_alter_eq, fmap_is_Some|by rewrite list_lookup_alter_ne].
Qed.

Lemma same_library_device w0 w dev d0 : same_library w0 w -> w_devs w0 !! dev = Some d0 ->
  exists d, w_devs w !! dev = Some d /\ shared_dev_ d = shared_dev_ d0.
Proof.
  intros [_ Hdevs _ _] Hd0. pose proof (f_equal (fun l => l !! dev) Hdevs) as E. cbn in E. rewrite !list_lookup_fmap, Hd0 in E.
  destruct (w_devs w !! dev) as [d|]; [|done]. injection E as E. by exists d.
Qed.

Lemma get_wddmdev_same w0 w n dev : same_library w0 w -> get_wddmdev n w0 = Some (Some dev, w0) -> get_wddmdev n w = Some (Some dev, w).
Proof.
  intros Hs. pose proof (f_equal length (sl_devs _ _ Hs)) as Hl. rewrite !length_fmap in Hl. unfold get_wddmdev.
  rewrite Hl, (sl_nodes _ _ Hs). destruct (_ || _); [done|]. destruct (w_devs w0 !! _) as [d0|] eqn:E; [|done].
  destruct (same_library_device _ _ _ _ Hs E) as (d & -> & _). intros [= <-]. done.
Qed.


(** ** Allocation *)

Section steps.
Context (lo hi : Z) (w0 : World K).
Hypothesis Hopen : library_open w0.
Hypothesis Hdirect : enable_thunk_sub_allocator (w_rt w0) = 0.
Hypothesis Hfa : w_fa w0 = SimpleHeap_new.
#[local] Set Default Proof Using "All".
#[local] Notation refines := (mem_refines lo hi w0).

Lemma same_rt {A} (f : hsakmtRuntime -> A) w : same_library w0 w ->
  (forall h r, f (rt_local_heap h r) = f r) -> f (w_rt w) = f (w_rt w0).
Proof. intros [Hrt _ _ _] Hf. by rewrite <- Hrt, Hf. Qed.

Lemma refines_open σ w : refines σ w -> library_open w.
Proof.
  intros [Hs _ _ _ _ _ _]. unfold library_open.
  by rewrite (same_rt dxg_open_count w Hs), (same_rt is_forked w Hs) by done.
Qed.

Lemma refines_request σ w node size align flags : refines σ w -> local_op w0 node size align flags ->
  exists dev m, local_request w node size align flags dev (request_len w0 node size) lo hi m /\ allocated m = bu_len <$> σ.
Proof.
  intros Hr [[dev Hdev] Hsys Hfix Hscr Hv Hal Hlen _]. pose proof Hr as [Hs (m & Hm & Hwf & Ha) _ _ _ Hobj _].
  exists dev, m. split; [|done].
  assert (get_wddmdev (if node =? 0 then default_node (w_rt w0) else node) w0 = Some (Some dev, w0)) as Hget.
  { unfold request_dev, get_wddmdev in *. destruct (_ || _); [done|]. destruct (w_devs w0 !! _); [|done]. by injection Hdev as ->. }
  assert (exists d0, w_devs w0 !! dev = Some d0) as (d0 & Hd0).
  { unfold request_len in Hlen. rewrite Hdev in Hlen. cbn in Hlen. destruct (w_devs w0 !! dev) as [d0|] eqn:E; [by exists d0|lia]. }
  destruct (same_library_device _ _ _ _ Hs Hd0) as (d & Hd & Hsh).
  split; try done.
  - by eapply refines_open.
  - by rewrite (same_rt enable_thunk_sub_allocator w Hs) by done.
  - rewrite (same_rt default_node w Hs) by done. by eapply get_wddmdev_same.
  - rewrite <- Hsys. unfold wants_system. by rewrite (same_rt zfb_support w Hs) by done.
  - exists d. split; [done|]. unfold request_len. rewrite Hdev. cbn. by rewrite Hd0, Hsh.
  - destruct (w_mems w !! w_next w) as [g|] eqn:E; [|done]. destruct (Hobj _ _ E) as [? _]. lia.
Qed.

Lemma refines_amap σ w m : refines σ w -> allocated m = bu_len <$> σ -> amap_ok lo hi m (w_amap w).
Proof.
  intros [_ _ Hsort _ Hentry _ _] Ha. split; [done|]. intros a al Hf _. rewrite Ha, lookup_fmap, fmap_is_Some. by eapply Hentry.
Qed.

(** An object is the buffer's by its address. *)
Lemma refines_disjoint σ w a b a' b' : refines σ w -> σ !! a = Some b -> σ !! a' = Some b' -> a <> a' ->
  block_disjoint a (bu_len b) a' (bu_len b').
Proof.
  intros [_ (m & _ & Hwf & Hall) _ _ _ _ _] Hb Hb' Hne.
  eapply (wf_live_disjoint lo hi m); [done|rewrite Hall, lookup_fmap, Hb; done|rewrite Hall, lookup_fmap, Hb'; done|done].
Qed.

Lemma buffer_object_world w w' a b g : (forall dev, is_Some (w_devs w !! dev) -> is_Some (w_devs w' !! dev)) ->
  buffer_object w a b g -> buffer_object w' a b g.
Proof. intros Hd [(dev & k & Hl & Hs) ? ? ? ?]. split; try done. exists dev, k. split; [done|by apply Hd]. Qed.

Lemma alloc_step σ w node size align flags : refines σ w -> local_op w0 node size align flags ->
  exists r w' σ', do_mem_op (OpAlloc node size align flags) w = Some (r, w') /\
    mem_spec lo hi (request_len w0) σ (OpAlloc node size align flags) r σ' /\ refines σ' w'.
Proof.
  intros Hr Hop. destruct (refines_request _ _ _ _ _ _ Hr Hop) as (dev & m & Hreq & Hall).
  pose proof (refines_amap _ _ _ Hr Hall) as Hmap. pose proof Hr as [Hs _ Hsort Hbuf Hentry Hobj (evs0 & Hlog & Hacc)].
  destruct (create_and_record_runs _ _ _ _ _ _ _ _ _ _ Hreq) as (r & w' & evs & m' & Hrun & He & Hnext & Hm' & Hwf' & Hres).
  cbn [do_mem_op]. unfold mbind at 1, M_bind at 1. rewrite (AllocMemoryAlign_local _ _ _ _ _ _ _ _ _ _ _ Hreq).
  rewrite (M_bind_step _ _ _ _ _ _ _ _ Hrun).
  pose proof (same_library_evolves _ _ _ _ _ _ Hs He) as Hs'.
  pose proof (fun dev => evolves_devices _ _ _ _ _ dev He) as Hdevs.
  assert (w_log w' = w_log w0 ++ evs0 ++ evs) as Hlog' by (rewrite app_assoc, <- Hlog; exact (ev_log _ _ _ _ He)).
  destruct r as [a|]; cbn.
  - destruct Hres as (g & k & Hmem & Hlocal & Hga & Ha & Hsz & (hs & Hhs & Hown) & (Hq & Hipc & Hvirt) & Hamap & Hspec).
    destruct (fresh_unmapped lo hi _ _ m m' _ a (lr_wf _ _ _ _ _ _ _ _ _ _ Hreq) Hmap
                (proj1 (lr_size _ _ _ _ _ _ _ _ _ _ Hreq)) Ha Hspec) as [Hnone Hin].
    destruct Hspec as [[? _]|(Hlo & Hhi & Hal & Hdis & Hall')]; [done|].
    assert (σ !! a = None) as Hfresh.
    { destruct (σ !! a) as [b|] eqn:E; [|done]. destruct (Hbuf _ _ E) as (_ & _ & _ & p & g' & Hf & _). congruence. }
    exists (ResAlloc HSAKMT_STATUS_SUCCESS a), w', (<[a := mkBuffer size (request_len w0 node size) node flags false]> σ).
    split; [done|]. split.
    { constructor; try done. intros a' b Hb. apply Hdis. by rewrite Hall, lookup_fmap, Hb. }
    split; [done| | | | | |].
    + exists m'. split_and!; [done|done|]. by rewrite Hall', Hall, fmap_insert.
    + rewrite Hamap. by apply map_set_sorted.
    + intros a' b [(<- & <-)|(Hne & Hb)]%lookup_insert_Some.
      * split; [done|]. split; [apply (op_size _ _ _ _ _ Hop)|]. split.
        { cbn. pose proof (op_system _ _ _ _ _ Hop) as Hsys. unfold wants_system in Hsys. by zbool. }
        exists (w_next w), g. rewrite Hamap, map_find_set_same by done. split; [done|]. rewrite Hmem, lookup_insert_eq. split; [done|].
        split; try done. exists dev, k. split; [done|]. apply Hdevs.
        destruct (lr_dev _ _ _ _ _ _ _ _ _ _ Hreq) as (d & -> & _). by eexists.
      * destruct (Hbuf _ _ Hb) as (? & ? & ? & p & g' & Hf & Hg & Ho). split_and!; try done; try lia.
        exists p, g'. rewrite Hamap, map_find_set_other by done. split; [done|].
        destruct (Hobj _ _ Hg) as [Hlt _]. rewrite Hmem, lookup_insert_ne by lia. split; [done|]. by eapply buffer_object_world.
    + intros a' al Hf. destruct (decide (a = a')) as [<-|Hne]; [rewrite lookup_insert_eq; by eexists|].
      rewrite lookup_insert_ne by done. rewrite Hamap, map_find_set_other in Hf by done. by eapply Hentry.
    + intros p g'. rewrite Hmem. intros [(<- & <-)|(Hne & Hg)]%lookup_insert_Some.
      * split; [done|]. rewrite Hga, Hamap, map_find_set_same by done. by eexists.
      * destruct (Hobj _ _ Hg) as (Hlt & al & Hf & Hp). split; [lia|]. exists al. split; [|done].
        rewrite Hamap, map_find_set_other; [done|]. congruence.
    + exists (evs0 ++ evs). split; [done|]. eapply accounted_app; [exact Hacc| |].
      * intros p g' c Hg Ho. right. exists p, g'. destruct (Hobj _ _ Hg) as [Hlt _]. by rewrite Hmem, lookup_insert_ne by lia.
      * rewrite Hown. apply Forall_singleton. right. exists (w_next w), g. by rewrite Hmem, lookup_insert_eq.
  - destruct Hres as (Hmem & Hamap & Hsame & Hleak).
    exists (ResAlloc HSAKMT_STATUS_ERROR 0), w', σ. split; [done|]. split; [constructor|].
    split; [done| | | | | |].
    + exists m'. split_and!; [done|done|congruence].
    + by rewrite Hamap.
    + intros a b Hb. destruct (Hbuf _ _ Hb) as (? & ? & ? & p & g' & Hf & Hg & Ho). split_and!; try done; try lia.
      exists p, g'. rewrite Hamap, Hmem. split_and!; try done. by eapply buffer_object_world.
    + rewrite Hamap. exact Hentry.
    + intros p g Hg. rewrite Hmem in Hg. destruct (Hobj _ _ Hg) as (? & ?). rewrite Hamap. split; [lia|done].
    + exists (evs0 ++ evs). split; [done|]. eapply accounted_app; [exact Hacc| |].
      * intros p g c Hg Ho. right. exists p, g. by rewrite Hmem.
      * eapply Forall_impl; [exact Hleak|]. auto.
Qed.

(** ** Release *)

Lemma refines_unknown σ w a : refines σ w -> σ !! a = None -> map_find a (w_amap w) = None.
Proof.
  intros [_ _ _ _ Hentry _ _] Ha. destruct (map_find a (w_amap w)) as [al|] eqn:E; [|done].
  destruct (Hentry _ _ E) as [b Hb]. congruence.
Qed.

(** What stays of a release that only looks at the entry. *)
Lemma free_looks_up w a o : library_open w -> w_fa w = SimpleHeap_new -> a <> 0 -> map_find a (w_amap w) = o ->
  (forall al, o = Some al -> exists g, w_mems w !! al_handle al = Some g /\ IsQueueReferenced g = true) ->
  hsaKmtFreeMemory a 0 w = Some (HSAKMT_STATUS_ERROR, w).
Proof.
  intros Ho Hf Ha Hfind Hq. unfold hsaKmtFreeMemory, hsaKmtFreeMemoryInternal, FreeMemory_with.
  rewrite (CHECK_DXG_OPEN_open _ _ _ Ho), (proj2 (Z.eqb_neq _ _) Ha), (M_bind_step _ _ _ _ _ _ _ _ (fa_free_empty _ _ Hf Ha)).
  assert (set_fa SimpleHeap_new w = w) as -> by (rewrite <- Hf; by destruct w). cbv iota. unfold free_direct.
  erewrite M_bind_step by reflexivity. cbv beta. rewrite Hfind. destruct o as [al|]; [|done].
  destruct (Hq al eq_refl) as (g & Hg & Hheld). erewrite M_bind_step by (unfold get_mem; by rewrite Hg). by rewrite Hheld.
Qed.

Lemma free_step σ w a : refines σ w ->
  exists r w' σ', do_mem_op (OpFree a) w = Some (r, w') /\ mem_spec lo hi (request_len w0) σ (OpFree a) r σ' /\ refines σ' w'.
Proof.
  intros Hr. pose proof (refines_open _ _ Hr) as Ho. pose proof Hr as [Hs (m & Hm & Hwf & Hall) Hsort Hbuf Hentry Hobj (evs0 & Hlog & Hacc)].
  assert (w_fa w = SimpleHeap_new) as Hf by (by rewrite (sl_fa _ _ Hs)). cbn [do_mem_op]. unfold mbind, M_bind.
  destruct (decide (a = 0)) as [->|Ha].
  { exists (ResFree HSAKMT_STATUS_INVALID_PARAMETER), w, σ. split_and!; [|constructor|done].
    unfold hsaKmtFreeMemory, hsaKmtFreeMemoryInternal, FreeMemory_with. by rewrite (CHECK_DXG_OPEN_open _ _ _ Ho). }
  destruct (σ !! a) as [b|] eqn:Hb.
  2:{ exists (ResFree HSAKMT_STATUS_ERROR), w, σ. split_and!; [|by constructor|done].
      by rewrite (free_looks_up w a None Ho Hf Ha (refines_unknown _ _ _ Hr Hb)). }
  destruct (Hbuf _ _ Hb) as (_ & Hsz & Hgtt & p & g & Hfind & Hg & [(dev & k & Hlocal & Hdev) Hga Hheld Hipc Hvirt]).
  destruct (bu_held b) eqn:Hh.
  { exists (ResFree HSAKMT_STATUS_ERROR), w, σ. split_and!; [|by eapply spec_held|done].
    rewrite (free_looks_up w a _ Ho Hf Ha Hfind); [done|]. intros al [= <-]. by exists g. }
  destruct (hsaKmtFreeMemory_runs w a 0 (buffer_entry p a b) g dev k m) as (w' & evs & Hrun & He & Hmem & Hm' & Hc & Hrel); try done.
  { split_and!; [done| |done]. by rewrite (lo_device _ _ _ _ Hlocal). }
  change (al_handle (buffer_entry p a b)) with p in Hmem.
  exists (ResFree HSAKMT_STATUS_SUCCESS), w', (delete a σ). split; [by rewrite Hrun|]. split; [by econstructor|].
  assert (w_amap w' = map_erase a (w_amap w)) as Hamap by exact (ev_amap _ _ _ _ He).
  assert (evolves dev w (set_amap (w_amap w) w') evs) as He0 by (destruct He; by constructor).
  assert (forall a' b' p' g', σ !! a' = Some b' -> a <> a' -> map_find a' (w_amap w) = Some (buffer_entry p' a' b') ->
    w_mems w !! p' = Some g' -> GpuAddress g' = a' -> p <> p') as Hother by (intros a' b' p' g' _ Hne _ Hg' Hga' Heq; congruence).
  split; [by eapply same_library_evolves| | | | | |].
  - eexists. split; [exact Hm'|]. split; [by apply Free_wf|].
    rewrite (proj1 (Free_allocated _ _ _ a Hwf)), Hall. by rewrite fmap_delete.
  - rewrite Hamap. by apply map_erase_sorted.
  - intros a' b' [Hne Hb']%lookup_delete_Some. destruct (Hbuf _ _ Hb') as (? & ? & ? & p' & g' & Hf' & Hg' & Hbo).
    split_and!; try done; try lia. exists p', g'. rewrite Hamap, map_find_erase_other by done. split; [done|].
    rewrite Hmem, lookup_delete_ne by (eapply Hother; try done; apply Hbo). split; [done|].
    eapply buffer_object_world; [|done]. intros d. by apply (evolves_devices _ _ _ _ _ d He0).
  - intros a' al. rewrite Hamap. destruct (decide (a = a')) as [<-|Hne]; [by rewrite map_find_erase_same|].
    rewrite map_find_erase_other, lookup_delete_ne by done. apply Hentry.
  - intros p' g'. rewrite Hmem. intros [Hne Hg']%lookup_delete_Some. destruct (Hobj _ _ Hg') as (Hlt & al & Hf' & Hp').
    split; [pose proof (ev_next _ _ _ _ He0); cbn in *; lia|]. exists al. split; [|done]. rewrite Hamap, map_find_erase_other; [done|].
    intros Heq. rewrite <- Heq in Hf'. rewrite Hfind in Hf'. injection Hf' as <-. done.
  - exists (evs0 ++ evs). split; [rewrite app_assoc, <- Hlog; exact (ev_log _ _ _ _ He)|]. eapply accounted_app; [exact Hacc| |by rewrite Hc].
    intros p' g' c Hg' [Hres Hhs]. destruct (decide (p = p')) as [<-|Hne].
    + left. assert (g' = g) as -> by congruence. destruct c as [res hs]. cbn in *. subst res. by apply Hrel.
    + right. exists p', g'. by rewrite Hmem, lookup_delete_ne.
Qed.

(** ** References of queues *)

Lemma hold_world σ w a b p g g' h : refines σ w -> σ !! a = Some b -> map_find a (w_amap w) = Some (buffer_entry p a b) ->
  w_mems w !! p = Some g -> buffer_object w a b g ->
  g' = upd_desc (set_desc_flag DF_is_queue_referenced h) g -> refines (alter (bu_hold h) a σ) (with_object w p g').
Proof.
  intros Hr Hb Hfind Hg Hbo ->. pose proof Hr as [Hs (m & Hm & Hwf & Hall) Hsort Hbuf Hentry Hobj (evs0 & Hlog & Hacc)].
  set (g' := upd_desc _ g). pose proof Hbo as [(dev & k & [Hl1 Hl2 Hl3 Hl4 Hl5 Hl6 Hl7] & Hdev) Hga Hheld Hipc Hvirt].
  assert (0 <= DF_is_queue_referenced) by (unfold DF_is_queue_referenced; lia).
  assert (buffer_object w a (bu_hold h b) g') as Hbo'.
  { unfold g', upd_desc, set_desc_flag. split; [by exists dev, k|done| | |]; cbn; unfold IsQueueReferenced, IsVirtual, desc_flag in *; cbn.
    - by rewrite bit_set_same.
    - rewrite bit_set_other; [done|..]; unfold DF_is_imported_vram_ipc, DF_is_queue_referenced; lia.
    - rewrite bit_set_other; [done|..]; unfold DF_is_virtual, DF_is_queue_referenced; lia. }
  split; [by destruct Hs| |done| | | |].
  - exists m. split_and!; [done|done|]. rewrite Hall. apply map_eq. intros j. rewrite !lookup_fmap.
    destruct (decide (a = j)) as [<-|]; [rewrite lookup_alter_eq|by rewrite lookup_alter_ne]. by destruct (σ !! a).
  - intros a' b'. destruct (decide (a = a')) as [<-|Hne].
    + rewrite lookup_alter_eq, Hb. intros [= <-]. destruct (Hbuf _ _ Hb) as (? & ? & ? & _). cbn [bu_size bu_len bu_flags bu_hold]. split_and!; try done; try lia.
      exists p, g'. split_and!; [done|apply lookup_insert_eq|]. by destruct Hbo'.
    + rewrite lookup_alter_ne by done. intros Hb'. destruct (Hbuf _ _ Hb') as (? & ? & ? & p' & g2 & Hf' & Hg' & Hbo2).
      split_and!; try done; try lia. exists p', g2. split; [done|]. split; [|by destruct Hbo2].
      cbn. rewrite lookup_insert_ne; [done|]. intros <-. pose proof (bo_address _ _ _ _ Hbo2). congruence.
  - intros a' al Hf'. destruct (decide (a = a')) as [<-|]; [rewrite lookup_alter_eq, Hb; by eexists|].
    rewrite lookup_alter_ne by done. by eapply Hentry.
  - intros p' g2. cbn. intros [(<- & <-)|(Hne & Hg2)]%lookup_insert_Some; [|by apply Hobj].
    split; [by apply (Hobj _ _ Hg)|]. destruct (Hobj _ _ Hg) as (_ & al & Hal & Hp). by exists al.
  - exists evs0. split; [done|]. eapply Forall_impl; [exact Hacc|]. intros c [Hrl|(p' & g2 & Hg2 & Hoc)]; [by left|right].
    destruct (decide (p = p')) as [<-|Hne]; [|exists p', g2; cbn; by rewrite lookup_insert_ne].
    exists p, g'. cbn. rewrite lookup_insert_eq. split; [done|]. assert (g2 = g) as -> by congruence. exact Hoc.
Qed.

Lemma queue_step σ w a (h : bool) : refines σ w ->
  exists r w' σ', do_mem_op (if h then OpAcquire a else OpRelease a) w = Some (r, w') /\
    mem_spec lo hi (request_len w0) σ (if h then OpAcquire a else OpRelease a) r σ' /\ refines σ' w'.
Proof.
  intros Hr. exists (ResQueue (negb (a =? 0))). set (put := fun g : GpuMemory => upd_desc (set_desc_flag DF_is_queue_referenced h) g).
  assert (exists w', (if h then queue_acquire_buffer a else queue_release_buffer a) w = Some (negb (a =? 0), w') /\
    refines (if a =? 0 then σ else alter (bu_hold h) a σ) w') as (w' & Hrun & Hr').
  { unfold queue_acquire_buffer, queue_release_buffer. destruct (Z.eqb_spec a 0) as [->|Ha]; cbn [negb].
    { exists w. split; [by destruct h|done]. }
    destruct (σ !! a) as [b|] eqn:Hb.
    - destruct (mr_buffer _ _ _ _ _ Hr _ _ Hb) as (_ & _ & _ & p & g & Hf & Hg & Hbo).
      exists (with_object w p (put g)). split; [|by eapply hold_world].
      destruct h; erewrite M_bind_step by reflexivity; cbv beta; rewrite Hf;
        by rewrite (M_bind_step _ _ _ _ _ _ _ _ (mod_mem_known w a (buffer_entry p a b) g _ (conj Ha (conj Hf Hg)))).
    - pose proof (refines_unknown _ _ _ Hr Hb) as Hf. exists w. split.
      + destruct h; erewrite M_bind_step by reflexivity; cbv beta; by rewrite Hf.
      + by rewrite alter_id' by done. }
  exists w'. eexists. split; [|split; [|exact Hr']]; destruct h; cbn [do_mem_op].
  1,2: by rewrite (M_bind_step _ _ _ _ _ _ _ _ Hrun).
  all: constructor.
Qed.

(** ** Queries *)

(** A buffer that covers the pointer is the last one not above it. *)
Lemma covers_floor σ w ptr a b : refines σ w -> covers σ ptr a b ->
  exists p, map_floor ptr (w_amap w) = Some (a, buffer_entry p a b).
Proof.
  intros Hr [Hb Hptr]. pose proof (map_floor_spec ptr _ (mr_sorted _ _ _ _ _ Hr)) as Hfloor.
  destruct (mr_buffer _ _ _ _ _ Hr _ _ Hb) as (_ & Hsz & _ & p & g & Hf & _). exists p.
  destruct (map_floor ptr (w_amap w)) as [[a' al]|]; [|specialize (Hfloor _ _ Hf); lia].
  destruct Hfloor as (Hle & Hf' & Hmax). pose proof (Hmax _ _ Hf ltac:(lia)) as Haa'.
  destruct (decide (a = a')) as [<-|Hne]; [by assert (al = buffer_entry p a b) as -> by congruence|exfalso].
  destruct (mr_entry _ _ _ _ _ Hr _ _ Hf') as [b' Hb']. destruct (mr_buffer _ _ _ _ _ Hr _ _ Hb') as (_ & Hsz' & _).
  destruct (refines_disjoint _ _ _ _ _ _ Hr Hb Hb' Hne); [lia|].
  destruct (mr_mgr _ _ _ _ _ Hr) as (m & _ & Hwf & Hall).
  assert (allocated m !! a' = Some (bu_len b')) as Hl by (by rewrite Hall, lookup_fmap, Hb').
  pose proof (wf_live_bounds _ _ _ _ _ Hwf Hl). lia.
Qed.

Lemma query_step σ w ptr : refines σ w ->
  exists r w' σ', do_mem_op (OpQuery ptr) w = Some (r, w') /\ mem_spec lo hi (request_len w0) σ (OpQuery ptr) r σ' /\ refines σ' w'.
Proof.
  intros Hr. pose proof (refines_open _ _ Hr) as Ho. cbn [do_mem_op]. unfold mbind, M_bind, hsaKmtQueryPointerInfo.
  rewrite (CHECK_DXG_OPEN_open _ _ _ Ho), bool_decide_eq_false_2, orb_false_r by done.
  destruct (Z.eqb_spec ptr 0) as [->|Hp].
  { exists (ResQuery HSAKMT_STATUS_INVALID_PARAMETER (Some (mkPointerInfo 0 0 0 0 0 0 0))), w, σ. split; [done|]. split; [constructor|done]. }
  unfold amap_floor. erewrite M_bind_step by reflexivity. cbv beta.
  pose proof (map_floor_spec ptr _ (mr_sorted _ _ _ _ _ Hr)) as Hfloor.
  assert (forall a b, covers σ ptr a b -> exists p, map_floor ptr (w_amap w) = Some (a, buffer_entry p a b)) as Hcov
    by (intros a b; by apply covers_floor).
  assert (exists w' σ', Some (ResQuery HSAKMT_STATUS_ERROR (Some (mkPointerInfo 0 0 0 0 0 0 0)), w) =
    Some (ResQuery HSAKMT_STATUS_ERROR (Some (mkPointerInfo 0 0 0 0 0 0 0)), w') /\ ((forall a b, ~ covers σ ptr a b) ->
      mem_spec lo hi (request_len w0) σ (OpQuery ptr) (ResQuery HSAKMT_STATUS_ERROR (Some (mkPointerInfo 0 0 0 0 0 0 0))) σ' /\ refines σ' w'))
    as Hno by (exists w, σ; split; [done|]; intros Hn; by split; [constructor|]).
  destruct (map_floor ptr (w_amap w)) as [[a al]|].
  2:{ destruct Hno as (w' & σ' & Hw & Hspec). exists (ResQuery HSAKMT_STATUS_ERROR (Some (mkPointerInfo 0 0 0 0 0 0 0))), w', σ'.
      split; [exact Hw|]. apply Hspec. intros a b Hc. by destruct (Hcov a b Hc). }
  destruct Hfloor as (Hle & Hf & _). destruct (mr_entry _ _ _ _ _ Hr _ _ Hf) as [b Hb].
  destruct (mr_buffer _ _ _ _ _ Hr _ _ Hb) as (Ha & Hsz & Hgtt & p & g & Hf' & Hg & Hbo).
  assert (al = buffer_entry p a b) as -> by congruence. cbn [al_size_requested buffer_entry local_entry].
  destruct (mr_mgr _ _ _ _ _ Hr) as (m & _ & Hwf & Hall).
  assert (allocated m !! a = Some (bu_len b)) as Hl by (by rewrite Hall, lookup_fmap, Hb).
  pose proof (wf_live_bounds _ _ _ _ _ Hwf Hl). pose proof (wf_lo _ _ _ Hwf). pose proof (wf_hi _ _ _ Hwf).
  rewrite add64_small by lia. destruct (Z.ltb_spec ptr (a + bu_size b)) as [Hlt|Hge].
  - cbn [al_userptr al_handle buffer_entry local_entry]. erewrite M_bind_step.
    2:{ erewrite M_bind_step by (unfold get_mem; by rewrite Hg). reflexivity. }
    rewrite (bo_virtual _ _ _ _ Hbo). cbn. rewrite Hgtt.
    do 3 eexists. split; [reflexivity|]. split; [|exact Hr]. by apply (spec_query lo hi _ _ ptr a b).
  - destruct Hno as (w' & σ' & Hw & Hspec). exists (ResQuery HSAKMT_STATUS_ERROR (Some (mkPointerInfo 0 0 0 0 0 0 0))), w', σ'.
    split; [exact Hw|]. apply Hspec. intros a' b' Hc. destruct (Hcov a' b' Hc) as [p' [= -> E]].
    destruct Hc as [Hb' ?]. assert (b' = b) as -> by congruence. lia.
Qed.

(** ** Histories *)

Lemma mem_step σ w op : refines σ w -> op_ok w0 op ->
  exists r w' σ', do_mem_op op w = Some (r, w') /\ mem_spec lo hi (request_len w0) σ op r σ' /\ refines σ' w'.
Proof.
  intros Hr Hop. destruct op as [node size align flags|a|a|a|ptr].
  - by apply alloc_step.
  - by apply free_step.
  - by apply (queue_step σ w a true).
  - by apply (queue_step σ w a false).
  - by apply query_step.
Qed.

Lemma mem_steps ops σ w : refines σ w -> Forall (op_ok w0) ops ->
  exists rs w' σ', do_mem_ops ops w = Some (rs, w') /\ mem_specs lo hi (request_len w0) σ ops rs σ' /\ refines σ' w'.
Proof.
  revert σ w. induction ops as [|op ops IH]; intros σ w Hr Hok.
  - exists [], w, σ. split_and!; [done|constructor|done].
  - apply Forall_cons in Hok as [Hop Hok]. destruct (mem_step σ w op Hr Hop) as (r & w1 & σ1 & Hrun & Hspec & Hr1).
    destruct (IH _ _ Hr1 Hok) as (rs & w2 & σ2 & Hruns & Hspecs & Hr2). exists (r :: rs), w2, σ2. split_and!; [|by econstructor|done].
    cbn [do_mem_ops]. by rewrite (M_bind_step _ _ _ _ _ _ _ _ Hrun), (M_bind_step _ _ _ _ _ _ _ _ Hruns).
Qed.
End steps.

Lemma mem_start_refines lo hi w : mem_start w lo hi -> mem_refines lo hi w ∅ w.
Proof.
  intros [_ _ _ Hamap Hmems (m & Hm & Hwf & Hall)]. split.
  - split; try done. by destruct (w_rt w).
  - exists m. by rewrite fmap_empty.
  - rewrite Hamap. constructor.
  - done.
  - by rewrite Hamap.
  - intros p g. by rewrite Hmems, lookup_empty.
  - exists []. split; [by rewrite app_nil_r|constructor].
Qed.

(** C2: Every history of allocations of local memory, releases, references of queues and
    queries of pointers on an open library runs to its end, whatever the driver answers at
    each of its calls, and refines an abstract memory of disjoint buffers: an allocation
    returns a fresh aligned range or fails without effect, exactly the buffers no queue holds
    can be released, a query finds the buffer around a pointer. The allocation map, the
    objects and the blocks of the heap are those of the live buffers, every physical
    allocation the driver granted was handed back or belongs to one of them, and when all are
    released nothing is left. *)
Theorem memory_history_refines w0 lo hi ops : mem_start w0 lo hi -> Forall (op_ok w0) ops ->
  exists rs w σ evs m, do_mem_ops ops w0 = Some (rs, w) /\ mem_specs lo hi (request_len w0) ∅ ops rs σ /\
    w_log w = w_log w0 ++ evs /\ local_mgr w = Some m /\ VaMgr_wf lo hi m /\ allocated m = bu_len <$> σ /\
    (forall a b, σ !! a = Some b -> exists p g, map_find a (w_amap w) = Some (buffer_entry p a b) /\
       w_mems w !! p = Some g /\ GpuAddress g = a /\ IsQueueReferenced g = bu_held b) /\
    (forall p g, w_mems w !! p = Some g -> is_Some (σ !! GpuAddress g)) /\
    (forall a, is_Some (map_find a (w_amap w)) -> is_Some (σ !! a)) /\
    Forall (fun c => released evs c \/ exists p g, w_mems w !! p = Some g /\ owned_by g c) (created evs) /\
    (σ = ∅ -> w_amap w = [] /\ w_mems w = ∅ /\ no_leak evs).
Proof.
  intros Hstart Hok. destruct (mem_steps lo hi w0 (ms_open _ _ _ Hstart) (ms_direct _ _ _ Hstart) (ms_fa _ _ _ Hstart)
    ops ∅ w0 (mem_start_refines _ _ _ Hstart) Hok) as (rs & w & σ & Hrun & Hspec & [_ (m & Hm & Hwf & Hall) _ Hbuf Hentry Hobj (evs & Hlog & Hacc)]).
  assert (forall p g, w_mems w !! p = Some g -> is_Some (σ !! GpuAddress g)) as Hlive
    by (intros p g (_ & al & Hal & _)%Hobj; by eapply Hentry).
  exists rs, w, σ, evs, m. split_and!; try done.
  - intros a b Hb. destruct (Hbuf _ _ Hb) as (_ & _ & _ & p & g & Hf & Hg & Hbo). exists p, g. split_and!; try done; apply Hbo.
  - intros a [al Hal]. by eapply Hentry.
  - intros ->. assert (w_mems w = ∅) as Hmems.
    { apply map_empty. intros p. destruct (w_mems w !! p) as [g|] eqn:E; [|done]. destruct (Hlive _ _ E) as [? ?]. by rewrite lookup_empty in *. }
    split_and!; [|done|].
    + destruct (w_amap w) as [|[a al] l]; [done|]. destruct (Hentry a al) as [? ?]; [cbn; by rewrite Z.eqb_refl|by rewrite lookup_empty in *].
    + eapply Forall_impl; [exact Hacc|]. intros c [?|(p & g & Hg & _)]; [done|]. by rewrite Hmems, lookup_empty in Hg.
Qed.
End history.

(** ** Witness *)

(** Four gigabytes and a page on the local heap: used by a queue, released, and queried. *)
Definition demo_ops : list mem_op :=
  [OpAlloc 1 0x100001000 0x10000 0; OpAcquire 0x100000000; OpFree 0x100000000; OpQuery 0x180000000; OpRelease 0x100000000;
   OpFree 0x100000000; OpQuery 0x180000000; OpFree 0].

Lemma demo_start script : mem_start (demo_world script) 0x100000000 0x500000000.
Proof.
  split; try done. exists demo_local. split; [done|]. split; [|done].
  by apply (VaMgr_new_wf 0x100000000 0x400000000 DEFAULT_GPU_PAGE_SIZE).
Qed.

Lemma demo_ops_ok script : Forall (op_ok (demo_world script)) demo_ops.
Proof.
  repeat constructor; try done; vm_compute; try done; eexists; reflexivity.
Qed.

Definition demo_results : list mem_result :=
  [ResAlloc HSAKMT_STATUS_SUCCESS 0x100000000; ResQueue true; ResFree HSAKMT_STATUS_ERROR;
   ResQuery HSAKMT_STATUS_SUCCESS (Some (mkPointerInfo 1 1 0 0x100000000 0x100000000 0x100001000 0)); ResQueue true;
   ResFree HSAKMT_STATUS_SUCCESS; ResQuery HSAKMT_STATUS_ERROR (Some (mkPointerInfo 0 0 0 0 0 0 0));
   ResFree HSAKMT_STATUS_INVALID_PARAMETER].

Lemma memory_history_refines_witness :
  exists w σ, do_mem_ops demo_ops granted_world = Some (demo_results, w) /\
    mem_specs 0x100000000 0x500000000 (request_len granted_world) ∅ demo_ops demo_results σ.
Proof.
  destruct (memory_history_refines granted_world _ _ demo_ops (demo_start _) (demo_ops_ok _)) as (rs & w & σ & evs & m & Hrun & Hspec & _).
  assert (rs = demo_results) as E.
  { assert (fst <$> do_mem_ops demo_ops granted_world = Some demo_results) as Hres by (vm_compute; reflexivity).
    rewrite Hrun in Hres. injection Hres as Hres. exact Hres. }
  rewrite E in Hrun, Hspec. exists w, σ. split; [exact Hrun|exact Hspec].
Defined.
