(* ===== verification/Aql.v ===== *)
(** * Aql: the HSA structures the queues read

    The AQL packets of a user queue (hsa.h), the kernel descriptor
    (amd_hsa_kernel_code.h), the signal and the queue object (amd_hsa_signal.h,
    amd_hsa_queue.h), as the library reads them out of memory: lists of 32-bit
    words, each field at its offset in the C structure. *)

From S2P Require Import Prelude.
From S2P Require Import BitField.
#[local] Open Scope Z_scope.

(** ** Fields of a structure held as 32-bit words *)

Definition dword (l : list Z) (i : nat) : Z := default 0 (l !! i).
Definition qword (l : list Z) (i : nat) : Z := dword l i + Z.shiftl (dword l (S i)) 32.
(** The signed reading of a 64-bit word. *)
Definition s64 (x : Z) : Z := if x <? 2 ^ 63 then x else x - 2 ^ 64.

(** ** Packets *)

Definition HSA_PACKET_TYPE_VENDOR_SPECIFIC : Z := 0.
Definition HSA_PACKET_TYPE_INVALID : Z := 1.
Definition HSA_PACKET_TYPE_KERNEL_DISPATCH : Z := 2.
Definition HSA_PACKET_TYPE_BARRIER_AND : Z := 3.
Definition HSA_PACKET_TYPE_BARRIER_OR : Z := 5.

(** The packet type is the low byte of the header. *)
Definition packet_type (header : Z) : Z := bf_get 0 8 header.
Definition packet_barrier (header : Z) : bool := bit 8 header.

Record hsa_kernel_dispatch_packet_t := mkDispatchPacket {
  kd_header : Z;
  kd_setup : Z;
  kd_workgroup_size_x : Z;
  kd_workgroup_size_y : Z;
  kd_workgroup_size_z : Z;
  kd_grid_size_x : Z;
  kd_grid_size_y : Z;
  kd_grid_size_z : Z;
  kd_private_segment_size : Z;
  kd_group_segment_size : Z;
  kd_kernel_object : Z;
  kd_kernarg_address : Z;
  kd_completion_signal : Z;
}.

Definition dispatch_packet_of (l : list Z) : hsa_kernel_dispatch_packet_t :=
  mkDispatchPacket (bf_get 0 16 (dword l 0)) (bf_get 16 16 (dword l 0))
    (bf_get 0 16 (dword l 1)) (bf_get 16 16 (dword l 1)) (bf_get 0 16 (dword l 2))
    (dword l 3) (dword l 4) (dword l 5) (dword l 6) (dword l 7)
    (qword l 8) (qword l 10) (qword l 14).

(** [hsa_barrier_and_packet_t] and [hsa_barrier_or_packet_t] have one layout. *)
Record hsa_barrier_packet_t := mkBarrierPacket {
  ba_header : Z;
  ba_dep_signal : list Z;      (* five handles *)
  ba_completion_signal : Z;
}.

Definition barrier_packet_of (l : list Z) : hsa_barrier_packet_t :=
  mkBarrierPacket (bf_get 0 16 (dword l 0)) (qword l <$> [2; 4; 6; 8; 10]%nat) (qword l 14).

Record amd_aql_pm4_ib := mkAqlPm4Ib {
  ib_header : Z;
  ib_ven_hdr : Z;
  ib_jump_cmd : list Z;        (* four words *)
  ib_completion_signal : Z;
}.

Definition aql_pm4_ib_of (l : list Z) : amd_aql_pm4_ib :=
  mkAqlPm4Ib (bf_get 0 16 (dword l 0)) (bf_get 16 16 (dword l 0)) (dword l <$> [1; 2; 3; 4]%nat) (qword l 14).

(** ** The kernel descriptor *)

Record amd_kernel_code_t := mkKernelCode {
  kc_kernel_code_entry_byte_offset : Z;
  kc_compute_pgm_rsrc1 : Z;
  kc_compute_pgm_rsrc2 : Z;
  kc_kernel_code_properties : Z;
  kc_workitem_private_segment_byte_size : Z;
}.

Definition kernel_code_of (l : list Z) : amd_kernel_code_t :=
  mkKernelCode (s64 (qword l 4)) (dword l 12) (dword l 13) (dword l 14) (dword l 15).

(** Bits of [kernel_code_properties]. *)
Definition KC_ENABLE_SGPR_PRIVATE_SEGMENT_BUFFER : Z := 0.
Definition KC_ENABLE_SGPR_DISPATCH_PTR : Z := 1.
Definition KC_ENABLE_SGPR_QUEUE_PTR : Z := 2.
Definition KC_ENABLE_SGPR_KERNARG_SEGMENT_PTR : Z := 3.
Definition KC_ENABLE_SGPR_DISPATCH_ID : Z := 4.
Definition KC_ENABLE_SGPR_FLAT_SCRATCH_INIT : Z := 5.
Definition KC_ENABLE_SGPR_PRIVATE_SEGMENT_SIZE : Z := 6.
Definition KC_ENABLE_WAVEFRONT_SIZE32 : Z := 10.
(** [AMD_COMPUTE_PGM_RSRC_ONE_PRIV] *)
Definition RSRC1_PRIV : Z := 20.

(** ** Signals and the queue object *)

Definition signal_value_offset : Z := 8.
Definition signal_start_ts_offset : Z := 32.
Definition signal_end_ts_offset : Z := 40.
Definition AMD_SIGNAL_KIND_USER : Z := 1.

Definition read_dispatch_id_offset : Z := 128.
Definition queue_properties_offset : Z := 180.
Definition queue_inactive_signal_offset : Z := 192.
Definition AMD_QUEUE_PROPERTIES_ENABLE_PROFILING : Z := 3.

(** The fields of the library's own [amd_queue_v2_t] that it sets for the kernels. *)
Record amd_queue_v2_t := mkAmdQueue {
  aq_compute_tmpring_size : Z;
  aq_scratch_resource_descriptor : list Z;   (* four words *)
  aq_scratch_backing_memory_location : Z;
  aq_scratch_wave64_lane_byte_size : Z;
}.

Definition amd_queue_of (l : list Z) : amd_queue_v2_t :=
  mkAmdQueue (dword l 35) (dword l <$> [36; 37; 38; 39]%nat) (qword l 40) (dword l 44).
