(* ===== verification/CmdUtil.v ===== *)
(** * CmdUtil: the PM4 packets (src/wddm/cmd_util.cpp, impl/pm4_cmds.h)

    Each packet structure is a record of its 32-bit ordinals, the bit-field views
    written with [bf_set] into a word that starts at 0 ([= {0}]), and a [words]
    function that lays it out as [memcpy] does. A [Build] function returns the
    words it writes; the size it returns is four times their number. *)

From S2P Require Import Prelude.
From S2P Require Import BitField.
From S2P Require Import Utils.
From S2P Require Import Aql.
#[local] Open Scope Z_scope.

(** ** Registers, opcodes and field values *)

Definition mmCOMPUTE_NUM_THREAD_X : Z := 0x2E07.
Definition mmCOMPUTE_PGM_LO : Z := 0x2E0C.
Definition mmCOMPUTE_DISPATCH_SCRATCH_BASE_LO : Z := 0x2E10.
Definition mmCOMPUTE_PGM_RSRC1 : Z := 0x2E12.
Definition mmCOMPUTE_PGM_RSRC3 : Z := 0x2E28.
Definition mmCOMPUTE_RESOURCE_LIMITS : Z := 0x2E15.
Definition mmCOMPUTE_USER_DATA_0 : Z := 0x2E40.
Definition PERSISTENT_SPACE_START : Z := 0x2C00.

Definition IT_DISPATCH_DIRECT : Z := 0x15.
Definition IT_ATOMIC_MEM : Z := 0x1E.
Definition IT_WRITE_DATA : Z := 0x37.
Definition IT_INDIRECT_BUFFER : Z := 0x3F.
Definition IT_COPY_DATA : Z := 0x40.
Definition IT_EVENT_WRITE : Z := 0x46.
Definition IT_ACQUIRE_MEM : Z := 0x58.
Definition IT_SET_SH_REG : Z := 0x76.

Definition event_index__cs_partial_flush : Z := 4.
Definition CS_PARTIAL_FLUSH : Z := 7.
Definition TC_OP_ATOMIC_ADD_RTN_64 : Z := 0x2F.
Definition cache_policy__stream : Z := 1.
Definition cache_policy__bypass : Z := 3.

Definition PM4_TYPE_SHIFT : Z := 30.
Definition PM4_COUNT_SHIFT : Z := 16.
Definition PM4_OPCODE_SHIFT : Z := 8.
Definition PM4_SHADER_TYPE_SHIFT : Z := 1.
Definition PM4_COMPUTE_SHADER : Z := 1.

(** [PM4_TYPE3_HDR], [count] in words, header included. *)
Definition PM4_TYPE3_HDR (opc count : Z) : Z :=
  Z.lor (u32 (Z.lor (Z.lor (Z.shiftl 3 PM4_TYPE_SHIFT) (Z.shiftl (count - 2) PM4_COUNT_SHIFT))
                    (Z.shiftl opc PM4_OPCODE_SHIFT)))
        (Z.shiftl PM4_COMPUTE_SHADER PM4_SHADER_TYPE_SHIFT).

(** ** Packet structures *)

Record PM4_MEC_SET_SH_REG := mkSetShReg { ssr_ordinal1 : Z; ssr_ordinal2 : Z }.
Definition words_SET_SH_REG (p : PM4_MEC_SET_SH_REG) : list Z := [ssr_ordinal1 p; ssr_ordinal2 p].

(** A [T] of [n] words whose first member is [cmd_set_data]. *)
Definition GenerateSetShRegHeader (n : Z) (reg_addr : Z) : PM4_MEC_SET_SH_REG :=
  mkSetShReg (PM4_TYPE3_HDR IT_SET_SH_REG n) (bf_set 0 16 (u32 (reg_addr - PERSISTENT_SPACE_START)) 0).

(** The header word of a [T] of [n] words. *)
Definition GenerateCmdHeader (n : Z) (op_code : Z) : Z := PM4_TYPE3_HDR op_code n.

Record PM4_MEC_DISPATCH_DIRECT := mkDispatchDirect {
  dd_ordinal1 : Z; dd_dim_x : Z; dd_dim_y : Z; dd_dim_z : Z; dd_dispatch_initiator : Z }.
Definition words_DISPATCH_DIRECT (p : PM4_MEC_DISPATCH_DIRECT) : list Z :=
  [dd_ordinal1 p; dd_dim_x p; dd_dim_y p; dd_dim_z p; dd_dispatch_initiator p].

Record PM4_MEC_EVENT_WRITE := mkEventWrite { ew_ordinal1 : Z; ew_ordinal2 : Z }.
Definition words_EVENT_WRITE (p : PM4_MEC_EVENT_WRITE) : list Z := [ew_ordinal1 p; ew_ordinal2 p].

Record PM4_MEC_ATOMIC_MEM := mkAtomicMem {
  am_ordinal1 : Z; am_ordinal2 : Z; am_addr_lo : Z; am_addr_hi : Z; am_src_data_lo : Z; am_src_data_hi : Z;
  am_cmp_data_lo : Z; am_cmp_data_hi : Z; am_ordinal9 : Z }.
Definition words_ATOMIC_MEM (p : PM4_MEC_ATOMIC_MEM) : list Z :=
  [am_ordinal1 p; am_ordinal2 p; am_addr_lo p; am_addr_hi p; am_src_data_lo p; am_src_data_hi p;
   am_cmp_data_lo p; am_cmp_data_hi p; am_ordinal9 p].

(** [write_data_value] is one 64-bit member. *)
Record PM4_MEC_WRITE_DATA := mkWriteData {
  wd_ordinal1 : Z; wd_ordinal2 : Z; wd_ordinal3 : Z; wd_dst_mem_addr_hi : Z; wd_write_data_value : Z }.
Definition words_WRITE_DATA (p : PM4_MEC_WRITE_DATA) : list Z :=
  [wd_ordinal1 p; wd_ordinal2 p; wd_ordinal3 p; wd_dst_mem_addr_hi p;
   LowPart (wd_write_data_value p); HighPart (wd_write_data_value p)].

Record PM4_MEC_COPY_DATA := mkCopyData {
  cd_ordinal1 : Z; cd_ordinal2 : Z; cd_ordinal3 : Z; cd_ordinal4 : Z; cd_ordinal5 : Z; cd_dst_addr_hi : Z }.
Definition words_COPY_DATA (p : PM4_MEC_COPY_DATA) : list Z :=
  [cd_ordinal1 p; cd_ordinal2 p; cd_ordinal3 p; cd_ordinal4 p; cd_ordinal5 p; cd_dst_addr_hi p].

(** [gfx9::PM4_MEC_ACQUIRE_MEM] *)
Record PM4_MEC_ACQUIRE_MEM_9 := mkAcquireMem9 {
  a9_ordinal1 : Z; a9_ordinal2 : Z; a9_coher_size : Z; a9_ordinal4 : Z; a9_coher_base_lo : Z;
  a9_ordinal6 : Z; a9_ordinal7 : Z }.
Definition words_ACQUIRE_MEM_9 (p : PM4_MEC_ACQUIRE_MEM_9) : list Z :=
  [a9_ordinal1 p; a9_ordinal2 p; a9_coher_size p; a9_ordinal4 p; a9_coher_base_lo p; a9_ordinal6 p;
   a9_ordinal7 p].

(** [gfx10::PM4_MEC_ACQUIRE_MEM] *)
Record PM4_MEC_ACQUIRE_MEM_10 := mkAcquireMem10 {
  a10_ordinal1 : Z; a10_reserved1 : Z; a10_coher_size : Z; a10_ordinal4 : Z; a10_coher_base_lo : Z;
  a10_ordinal6 : Z; a10_ordinal7 : Z; a10_ordinal8 : Z }.
Definition words_ACQUIRE_MEM_10 (p : PM4_MEC_ACQUIRE_MEM_10) : list Z :=
  [a10_ordinal1 p; a10_reserved1 p; a10_coher_size p; a10_ordinal4 p; a10_coher_base_lo p; a10_ordinal6 p;
   a10_ordinal7 p; a10_ordinal8 p].

(** ** Sizes, in words *)

Definition dw_COPY_DATA : Z := 6.
Definition dw_Barrier : Z := 2.
Definition dw_WriteData : Z := 6.
Definition dw_AcquireMem_9 : Z := 7.
Definition dw_AcquireMem_10 : Z := 8.
Definition dw_SetScratch : Z := 4.
Definition dw_ComputeShaderParams : Z := 3.
Definition dw_Atomic : Z := 9.
Definition dw_DispatchDirect : Z := 5.
Definition dw_Dispatch : Z := 44.

(** ** The packets the library builds *)

Definition BuildCopyData (pDstAddr dstSel dstCachePolicy srcSel srcCachePolicy countSel wrConfirm : Z) : list Z :=
  let o2 := bf_set 8 4 dstSel 0 in
  let o2 := bf_set 0 4 srcSel o2 in
  let o2 := bf_set 25 2 dstCachePolicy o2 in
  let o2 := bf_set 13 2 srcCachePolicy o2 in
  let o2 := bf_set 16 1 countSel o2 in
  let o2 := bf_set 20 1 wrConfirm o2 in
  let o5 := bf_set 3 29 (Z.shiftr (PtrLow32 pDstAddr) 3) 0 in
  words_COPY_DATA (mkCopyData (GenerateCmdHeader dw_COPY_DATA IT_COPY_DATA) o2 0 0 o5 (PtrHigh32 pDstAddr)).

(** With the default arguments: the GPU clock, 64 bits, to memory through the L2. *)
Definition BuildCopyClock (pDstAddr : Z) : list Z := BuildCopyData pDstAddr 2 1 9 0 1 1.

Definition BuildBarrier (eventIndex eventType : Z) : list Z :=
  words_EVENT_WRITE
    (mkEventWrite (GenerateCmdHeader dw_Barrier IT_EVENT_WRITE) (bf_set 0 6 eventType (bf_set 8 4 eventIndex 0))).

(** With the default arguments. *)
Definition BuildCsBarrier : list Z := BuildBarrier event_index__cs_partial_flush CS_PARTIAL_FLUSH.

Definition BuildWriteData64Command (write_addr write_value : Z) : option (list Z) :=
  check (Z.land write_addr 3 =? 0) ;;
  let o2 := bf_set 20 1 1 0 in      (* wr_confirm: wait_for_write_confirmation *)
  let o2 := bf_set 25 2 3 o2 in     (* cache_policy: bypass *)
  let o2 := bf_set 16 1 0 o2 in     (* addr_incr: increment_address *)
  let o2 := bf_set 8 4 5 o2 in      (* dst_sel: memory *)
  let o3 := bf_set 2 30 (Z.shiftr (PtrLow32 write_addr) 2) 0 in
  Some (words_WRITE_DATA
          (mkWriteData (GenerateCmdHeader dw_WriteData IT_WRITE_DATA) o2 o3 (PtrHigh32 write_addr) write_value)).

(** The words of [gcr_cntl] and [coher_cntl]. *)
Definition coher_cntl : Z := Z.lor (Z.lor (Z.shiftl 1 29) (Z.shiftl 1 27)) (Z.shiftl 1 28).
Definition gcr_cntl : Z := foldr (fun i x => Z.lor (Z.shiftl 1 i) x) 0 [16; 15; 14; 9; 8; 7; 6; 5; 4; 0].

(** The size is not initialised for a [major] below 9. *)
Definition BuildAcquireMem (major : Z) : option (list Z) :=
  if major =? 9 then
    Some (words_ACQUIRE_MEM_9
            (mkAcquireMem9 (GenerateCmdHeader dw_AcquireMem_9 IT_ACQUIRE_MEM) (bf_set 0 31 coher_cntl 0) 0xFFFFFFFF
               (bf_set 0 8 0xFF 0) 0 (bf_set 0 24 0 0) (bf_set 0 16 4 0)))
  else if 10 <=? major then
    Some (words_ACQUIRE_MEM_10
            (mkAcquireMem10 (GenerateCmdHeader dw_AcquireMem_10 IT_ACQUIRE_MEM) 0 0xFFFFFFFF (bf_set 0 8 0xFF 0) 0
               (bf_set 0 24 0 0) (bf_set 0 16 4 0) (bf_set 0 19 gcr_cntl 0)))
  else None.

Definition BuildScratch (pScratchBase : Z) : option (list Z) :=
  lo ← Ptr48Low32 pScratchBase;
  Some (words_SET_SH_REG (GenerateSetShRegHeader dw_SetScratch mmCOMPUTE_DISPATCH_SCRATCH_BASE_LO) ++
        [lo; Ptr48High8 pScratchBase]).

(** [(1 << 31)], as the unsigned word it is stored in. *)
Definition BuildComputeShaderParams : list Z :=
  words_SET_SH_REG (GenerateSetShRegHeader dw_ComputeShaderParams mmCOMPUTE_PGM_RSRC3) ++ [u32 (Z.shiftl 1 31)].

Definition BuildAtomicMem (pAddr atomic cachePolicy srcData : Z) : list Z :=
  words_ATOMIC_MEM
    (mkAtomicMem (GenerateCmdHeader dw_Atomic IT_ATOMIC_MEM) (bf_set 25 2 cachePolicy (bf_set 0 7 atomic 0))
       (PtrLow32 pAddr) (PtrHigh32 pAddr) (LowPart srcData) (HighPart srcData) 0 0 0).

(** ** The dispatch template *)

Record DispatchInfo := mkDispatchInfo {
  di_major : Z;
  di_pPacket : Z;                              (* its address *)
  di_packet : hsa_kernel_dispatch_packet_t;    (* and what is there *)
  di_pEntry : Z;
  di_kernel_object : amd_kernel_code_t;
  di_ldsBlks : Z;
  di_pAmdQueue : Z;                            (* its address *)
  di_amd_queue : amd_queue_v2_t;               (* and what is there *)
  di_wave32 : bool;
  di_srd : Z;
  di_pScratchBase : Z;
  di_scratchSizePerWave : Z;
}.

(** [compute_user_data], [sgpr_no] and the recorded [scratchBaseOffset]s. *)
Record UserData := mkUserData {
  ud_compute_user_data : list Z;
  ud_sgpr_no : nat;
  ud_scratchBaseOffset : list Z;
}.

Definition UserData_new : UserData := mkUserData (repeat 0 16) 0 [].

(** [compute_user_data[sgpr_no++] = v], in the array's bounds. *)
Definition ud_push (v : Z) (u : UserData) : option UserData :=
  check (Z.of_nat (ud_sgpr_no u) <? 16) ;;
  Some (mkUserData (<[ud_sgpr_no u := v]> (ud_compute_user_data u)) (S (ud_sgpr_no u)) (ud_scratchBaseOffset u)).

Definition ud_pushes (vs : list Z) (u : UserData) : option UserData :=
  foldl (fun o v => o ≫= ud_push v) (Some u) vs.

(** [offsetof(DispatchTemplate, compute_user_data_regs.compute_user_data[0])] *)
Definition user_data_offset : Z := 92.

(** [scratchBaseOffset[offsetCnt++] = ...], in the array's bounds. *)
Definition ud_scratch_offset (u : UserData) : option UserData :=
  check (Z.of_nat (length (ud_scratchBaseOffset u)) <? 2) ;;
  Some (mkUserData (ud_compute_user_data u) (ud_sgpr_no u)
          (ud_scratchBaseOffset u ++ [user_data_offset + Z.of_nat (ud_sgpr_no u) * 4])).

(** [if (AMD_HSA_BITS_GET(properties, flag)) f] *)
Definition ud_when (info : DispatchInfo) (flag : Z) (f : UserData -> option UserData) (u : UserData)
    : option UserData :=
  if bit flag (kc_kernel_code_properties (di_kernel_object info)) then f u else Some u.

Definition dispatch_user_data (info : DispatchInfo) : option UserData :=
  let srd i := dword (aq_scratch_resource_descriptor (di_amd_queue info)) i in
  let p := di_packet info in
  u ← ud_when info KC_ENABLE_SGPR_PRIVATE_SEGMENT_BUFFER
        (fun u => check (di_major info <? 11) ;; u ← ud_scratch_offset u;
                  ud_pushes [srd 0%nat; srd 1%nat; srd 2%nat; di_srd info] u) UserData_new;
  u ← ud_when info KC_ENABLE_SGPR_DISPATCH_PTR
        (ud_pushes [PtrLow32 (di_pPacket info); PtrHigh32 (di_pPacket info)]) u;
  u ← ud_when info KC_ENABLE_SGPR_QUEUE_PTR
        (ud_pushes [PtrLow32 (di_pAmdQueue info); PtrHigh32 (di_pAmdQueue info)]) u;
  u ← ud_when info KC_ENABLE_SGPR_KERNARG_SEGMENT_PTR
        (ud_pushes [PtrLow32 (kd_kernarg_address p); PtrHigh32 (kd_kernarg_address p)]) u;
  u ← ud_when info KC_ENABLE_SGPR_DISPATCH_ID (ud_pushes [0; 0]) u;
  u ← ud_when info KC_ENABLE_SGPR_FLAT_SCRATCH_INIT
        (fun u => check (di_major info <? 11) ;; u ← ud_scratch_offset u;
                  ud_pushes [PtrLow32 (di_pScratchBase info); PtrHigh32 (di_pScratchBase info)] u) u;
  u ← ud_when info KC_ENABLE_SGPR_PRIVATE_SEGMENT_SIZE
        (ud_pushes [di_scratchSizePerWave info / (if di_wave32 info then 32 else 64)]) u;
  Some u.

Definition set_sh_regs (reg_addr : Z) (values : list Z) : list Z :=
  words_SET_SH_REG (GenerateSetShRegHeader (2 + Z.of_nat (length values)) reg_addr) ++ values.

(** The words and the offsets of the scratch addresses in them. *)
Definition BuildDispatch (info : DispatchInfo) : option (list Z * list Z) :=
  let p := di_packet info in
  let k := di_kernel_object info in
  pgm_lo ← Ptr48Low32 (di_pEntry info);
  let rsrc1 := if di_major info =? 11 then bit_set RSRC1_PRIV true (kc_compute_pgm_rsrc1 k)
               else kc_compute_pgm_rsrc1 k in
  let rsrc2 := Z.lor (u32 (Z.shiftl (di_ldsBlks info) 15)) (kc_compute_pgm_rsrc2 k) in
  u ← dispatch_user_data info;
  let initiator := Z.lor (Z.lor (Z.shiftl 1 0) (Z.shiftl 1 2)) (Z.shiftl 1 5) in
  let initiator := if di_wave32 info then Z.lor initiator (Z.shiftl 1 15) else initiator in
  Some (set_sh_regs mmCOMPUTE_NUM_THREAD_X [kd_workgroup_size_x p; kd_workgroup_size_y p; kd_workgroup_size_z p] ++
        set_sh_regs mmCOMPUTE_PGM_LO [pgm_lo; Ptr48High8 (di_pEntry info)] ++
        set_sh_regs mmCOMPUTE_PGM_RSRC1 [rsrc1; rsrc2] ++
        set_sh_regs mmCOMPUTE_RESOURCE_LIMITS
          [0x3ff; 0xFFFFFFFF; 0xFFFFFFFF; aq_compute_tmpring_size (di_amd_queue info); 0xFFFFFFFF; 0xFFFFFFFF] ++
        set_sh_regs mmCOMPUTE_USER_DATA_0 (ud_compute_user_data u) ++
        words_DISPATCH_DIRECT
          (mkDispatchDirect (GenerateCmdHeader dw_DispatchDirect IT_DISPATCH_DIRECT)
             (kd_grid_size_x p) (kd_grid_size_y p) (kd_grid_size_z p) initiator),
        ud_scratchBaseOffset u).
