(* ===== verification/CmdUtilSpec.v ===== *)
(** * CmdUtilSpec: what the PM4 words mean

    A reader of PM4 streams, written from the packet layouts alone: it takes the
    packet length from the header and the fields from the words. The theorems say
    that it reads out of each packet the library builds what was put in. *)

From S2P Require Import Prelude.
From S2P Require Import BitField.
From S2P Require Import Utils.
From S2P Require Import Aql.
From S2P Require Import CmdUtil.
#[local] Open Scope Z_scope.

(** ** Reading a stream *)

Inductive command :=
  | SetShRegs (reg : Z) (values : list Z)
  | DispatchDirect (x y z initiator : Z)
  | EventWrite (type index : Z)
  | AtomicMem (op policy addr data : Z)
  | WriteData64 (dst_sel addr data : Z)
  | CopyData (src_sel count_sel addr : Z)
  | AcquireMem.

Definition addr_of (lo hi : Z) : Z := lo + Z.shiftl hi 32.

Definition decode (opcode : Z) (body : list Z) : option command :=
  let w := dword body in
  if opcode =? IT_SET_SH_REG then Some (SetShRegs (bf_get 0 16 (w 0%nat) + PERSISTENT_SPACE_START) (drop 1 body))
  else if opcode =? IT_DISPATCH_DIRECT then Some (DispatchDirect (w 0%nat) (w 1%nat) (w 2%nat) (w 3%nat))
  else if opcode =? IT_EVENT_WRITE then Some (EventWrite (bf_get 0 6 (w 0%nat)) (bf_get 8 4 (w 0%nat)))
  else if opcode =? IT_ATOMIC_MEM then
    Some (AtomicMem (bf_get 0 7 (w 0%nat)) (bf_get 25 2 (w 0%nat)) (addr_of (w 1%nat) (w 2%nat)) (addr_of (w 3%nat) (w 4%nat)))
  else if opcode =? IT_WRITE_DATA then
    Some (WriteData64 (bf_get 8 4 (w 0%nat)) (addr_of (Z.shiftl (bf_get 2 30 (w 1%nat)) 2) (w 2%nat)) (addr_of (w 3%nat) (w 4%nat)))
  else if opcode =? IT_COPY_DATA then
    Some (CopyData (bf_get 0 4 (w 0%nat)) (bf_get 16 1 (w 0%nat)) (addr_of (Z.shiftl (bf_get 3 29 (w 3%nat)) 3) (w 4%nat)))
  else if opcode =? IT_ACQUIRE_MEM then Some AcquireMem
  else None.

(** A type-3 packet: its header counts the words of its body, less one. *)
Definition next_packet (l : list Z) : option (command * list Z) :=
  match l with
  | [] => None
  | h :: l =>
      let n := Z.to_nat (bf_get 16 14 h + 1) in
      check ((bf_get 30 2 h =? 3) && (Z.of_nat n <=? Z.of_nat (length l))) ;;
      c ← decode (bf_get 8 8 h) (take n l);
      Some (c, drop n l)
  end.

Fixpoint read_stream_fuel (fuel : nat) (l : list Z) : option (list command) :=
  match l, fuel with
  | [], _ => Some []
  | _, O => None
  | _, S fuel => '(c, l) ← next_packet l; cons c <$> read_stream_fuel fuel l
  end.

Definition read_stream (l : list Z) : option (list command) := read_stream_fuel (length l) l.

(** The words [l] are the packets [cs], whatever follows them. *)
Definition encodes (l : list Z) (cs : list command) : Prop :=
  forall rest, read_stream (l ++ rest) = app cs <$> read_stream rest.

Lemma next_packet_shrinks l c l' : next_packet l = Some (c, l') -> (length l' < length l)%nat.
Proof.
  destruct l as [|h l]; [done|]. cbn. destruct (_ && _); [|done]. cbn.
  destruct (decode _ _); [|done]. cbn. intros [= _ <-]. rewrite length_drop. lia.
Qed.

Lemma read_stream_fuel_enough n l : (length l <= n)%nat -> read_stream_fuel n l = read_stream l.
Proof.
  unfold read_stream. remember (length l) as m eqn:Em. revert n l Em.
  induction m as [m IH] using lt_wf_ind. intros n l -> Hn.
  destruct l as [|h l]; [by destruct n|]. destruct n as [|n]; [cbn in Hn; lia|].
  cbn [read_stream_fuel length]. destruct (next_packet (h :: l)) as [[c l']|] eqn:E; [|done]. cbn.
  apply next_packet_shrinks in E. cbn in E, Hn.
  rewrite (IH (length l')) by (cbn; lia). by rewrite (IH (length l') ltac:(cbn; lia) (length l)) by lia.
Qed.

Lemma read_stream_step l c l' : next_packet l = Some (c, l') -> read_stream l = cons c <$> read_stream l'.
Proof.
  intros E. pose proof (next_packet_shrinks _ _ _ E) as Hs. unfold read_stream at 1.
  destruct l as [|h l]; [done|]. cbn [read_stream_fuel length]. rewrite E. cbn.
  cbn in Hs. by rewrite read_stream_fuel_enough by lia.
Qed.

Lemma encodes_nil : encodes [] [].
Proof. intros rest. change ([] ++ rest) with rest. by destruct (read_stream rest). Qed.

Lemma encodes_app l1 l2 cs1 cs2 : encodes l1 cs1 -> encodes l2 cs2 -> encodes (l1 ++ l2) (cs1 ++ cs2).
Proof.
  intros H1 H2 rest. rewrite <- app_assoc, H1, H2. destruct (read_stream rest); cbn; [|done].
  by rewrite <- app_assoc.
Qed.

Lemma encodes_read l cs : encodes l cs -> read_stream l = Some cs.
Proof. intros H. specialize (H []). rewrite app_nil_r in H. rewrite H. cbn. by rewrite app_nil_r. Qed.

(** ** Packets *)

Definition header_ok (opc count : Z) : bool :=
  let h := PM4_TYPE3_HDR opc count in
  (bf_get 30 2 h =? 3) && (bf_get 16 14 h =? count - 2) && (bf_get 8 8 h =? opc).

(** A packet whose header says what it should is read as its opcode says. *)
Lemma encodes_packet opc body c :
  header_ok opc (1 + Z.of_nat (length body)) = true -> body <> [] -> decode opc body = Some c ->
  encodes (PM4_TYPE3_HDR opc (1 + Z.of_nat (length body)) :: body) [c].
Proof.
  intros Hh Hne Hd rest. unfold header_ok in Hh. rewrite !andb_true_iff, !Z.eqb_eq in Hh. destruct Hh as [[Ht Hc] Ho].
  assert (0 < length body)%nat by (destruct body; [done|cbn; lia]).
  erewrite read_stream_step; [done|]. cbn [next_packet app]. rewrite Ht, Hc, Ho.
  replace (Z.to_nat (1 + Z.of_nat (length body) - 2 + 1)) with (length body) by lia.
  rewrite take_app_length, drop_app_length. rewrite (proj2 (Z.leb_le _ _)) by (rewrite length_app; lia).
  cbn. by rewrite Hd.
Qed.

(** The words that set registers, for a number of values their header can hold. *)
Lemma encodes_set_sh_regs reg values :
  header_ok IT_SET_SH_REG (2 + Z.of_nat (length values)) = true ->
  PERSISTENT_SPACE_START <= reg < PERSISTENT_SPACE_START + 2 ^ 16 ->
  encodes (set_sh_regs reg values) [SetShRegs reg values].
Proof.
  intros Hh Hr. unfold set_sh_regs, words_SET_SH_REG, GenerateSetShRegHeader. cbn [ssr_ordinal1 ssr_ordinal2 app].
  replace (2 + Z.of_nat (length values)) with (1 + Z.of_nat (length (bf_set 0 16 (u32 (reg - PERSISTENT_SPACE_START)) 0 :: values)))
    in * by (cbn [length]; lia).
  apply encodes_packet; [done|done|]. cbn [decode Z.eqb IT_SET_SH_REG]. unfold decode.
  change (IT_SET_SH_REG =? IT_SET_SH_REG) with true. cbv iota. cbn [dword lookup list_lookup default from_option id drop].
  rewrite bf_get_set_same by lia. rewrite Z.land_ones by lia.
  rewrite wrap_small by (unfold PERSISTENT_SPACE_START in *; lia).
  rewrite Z.mod_small by (unfold PERSISTENT_SPACE_START in *; lia). f_equal. f_equal. lia.
Qed.

(** ** The packets with an address *)

Lemma PtrLow32_High32 p : 0 <= p < 2 ^ 64 -> addr_of (PtrLow32 p) (PtrHigh32 p) = p.
Proof.
  intros Hp. unfold addr_of, PtrLow32, PtrHigh32, wrap. rewrite Z.shiftl_mul_pow2, Z.shiftr_div_pow2 by lia.
  rewrite (Z.mod_small (p / 2 ^ 32)) by (split; [apply Z.div_pos; lia|apply Z.div_lt_upper_bound; lia]).
  pose proof (Z.div_mod p (2 ^ 32) ltac:(lia)). lia.
Qed.

Lemma LowPart_HighPart v : 0 <= v < 2 ^ 64 -> addr_of (LowPart v) (HighPart v) = v.
Proof.
  intros Hv. unfold addr_of. rewrite Z.shiftl_mul_pow2 by lia. pose proof (HighPart_LowPart v Hv). lia.
Qed.

(** An address cut to a field of its high bits comes back without its low bits. *)
Lemma field_of_aligned n w p :
  0 <= n < 32 -> w = 32 - n ->
  Z.shiftl (bf_get n w (bf_set n w (Z.shiftr (PtrLow32 p) n) 0)) n = PtrLow32 p - p mod 2 ^ n.
Proof.
  intros Hn ->. rewrite bf_get_set_same by lia. unfold PtrLow32, wrap.
  assert (0 < 2 ^ n) by (apply Z.pow_pos_nonneg; lia).
  assert (2 ^ n * 2 ^ (32 - n) = 2 ^ 32) as Hpow by (rewrite <- Z.pow_add_r by lia; f_equal; lia).
  rewrite Z.land_ones, Z.shiftr_div_pow2, Z.shiftl_mul_pow2 by lia.
  pose proof (Z.mod_pos_bound p (2 ^ 32) ltac:(lia)) as Hb.
  rewrite (Z.mod_small (p mod 2 ^ 32 / 2 ^ n)).
  - assert (p mod 2 ^ 32 mod 2 ^ n = p mod 2 ^ n).
    { rewrite <- Hpow, Z.rem_mul_r by nia. rewrite Z.mul_comm, Z.mod_add by lia. by apply Z.mod_mod; lia. }
    pose proof (Z.div_mod (p mod 2 ^ 32) (2 ^ n) ltac:(lia)). lia.
  - split; [apply Z.div_pos; lia|]. apply Z.div_lt_upper_bound; [lia|]. lia.
Qed.

(** Read a packet whose opcode and length are known. *)
Ltac read_packet :=
  unfold decode; cbn -[bf_get bf_set addr_of Z.shiftl PtrLow32 PtrHigh32 LowPart HighPart]; f_equal.

Lemma addr_of_sub lo hi x : addr_of (lo - x) hi = addr_of lo hi - x.
Proof. unfold addr_of. lia. Qed.

(** The clock goes to the address less its low three bits. *)
Definition clock_addr (p : Z) : Z := p - p mod 8.

Lemma encodes_CopyClock p : 0 <= p < 2 ^ 64 -> encodes (BuildCopyClock p) [CopyData 9 1 (clock_addr p)].
Proof.
  intros Hp. apply (encodes_packet IT_COPY_DATA [_; _; _; _; _]); [reflexivity|done|]. read_packet.
  rewrite (field_of_aligned 3 29 p), addr_of_sub, PtrLow32_High32 by (done || lia). reflexivity.
Qed.

Lemma encodes_CsBarrier : encodes BuildCsBarrier [EventWrite CS_PARTIAL_FLUSH event_index__cs_partial_flush].
Proof. by apply (encodes_packet IT_EVENT_WRITE [_]). Qed.

Lemma encodes_WriteData64 p v ws :
  0 <= p < 2 ^ 64 -> 0 <= v < 2 ^ 64 -> BuildWriteData64Command p v = Some ws -> encodes ws [WriteData64 5 p v].
Proof.
  intros Hp Hv. unfold BuildWriteData64Command. destruct (Z.eqb_spec (Z.land p 3) 0) as [Ha|]; [|done].
  cbn [mbind option_bind]. intros [= <-].
  apply (encodes_packet IT_WRITE_DATA [_; _; _; _; _]); [reflexivity|done|]. read_packet.
  change 3 with (Z.ones 2) in Ha. rewrite Z.land_ones in Ha by lia.
  change (2 ^ 2) with 4 in *. rewrite (field_of_aligned 2 30 p) by (done || lia). change (2 ^ 2) with 4.
  rewrite Ha, Z.sub_0_r, PtrLow32_High32, LowPart_HighPart by done. reflexivity.
Qed.

Lemma encodes_AtomicMem p op policy v :
  0 <= p < 2 ^ 64 -> 0 <= v < 2 ^ 64 -> 0 <= op < 2 ^ 7 -> 0 <= policy < 2 ^ 2 ->
  encodes (BuildAtomicMem p op policy v) [AtomicMem op policy p v].
Proof.
  intros Hp Hv Ho Hpo. apply (encodes_packet IT_ATOMIC_MEM [_; _; _; _; _; _; _; _]); [reflexivity|done|].
  read_packet. rewrite PtrLow32_High32, LowPart_HighPart by done.
  rewrite (bf_get_set_other 25 2), !bf_get_set_same, !Z.land_ones, !Z.mod_small by lia. reflexivity.
Qed.

Lemma encodes_AcquireMem major ws : BuildAcquireMem major = Some ws -> encodes ws [AcquireMem].
Proof.
  unfold BuildAcquireMem. destruct (major =? 9); [|destruct (10 <=? major); [|done]]; intros [= <-].
  - by apply (encodes_packet IT_ACQUIRE_MEM [_; _; _; _; _; _]).
  - by apply (encodes_packet IT_ACQUIRE_MEM [_; _; _; _; _; _; _]).
Qed.

(** An address of 48 bits, 256-byte aligned, is split over two registers. *)
Definition addr48 (lo hi : Z) : Z := Z.shiftl lo 8 + Z.shiftl hi 40.

Lemma land_shifted_ones p n k :
  0 <= n -> 0 <= k -> Z.land p (Z.shiftl (Z.ones k) n) = Z.shiftl (Z.land (Z.shiftr p n) (Z.ones k)) n.
Proof.
  intros. apply Z.bits_inj'. intros m Hm. rewrite Z.land_spec, !Z.shiftl_spec, Z.land_spec by lia.
  destruct (Z.leb_spec n m).
  - rewrite Z.shiftr_spec by lia. by replace (m - n + n) with m by lia.
  - rewrite !(Z.testbit_neg_r _ (m - n)) by lia. apply andb_false_r.
Qed.

Lemma Ptr48_split p lo :
  Ptr48Low32 p = Some lo -> 0 <= p -> addr48 lo (Ptr48High8 p) = p /\ p mod 256 = 0 /\ p < 2 ^ 48.
Proof.
  unfold Ptr48Low32. destruct (Z.eqb_spec (Z.land p 0xFFFFFFFFFF00) p) as [E|]; [|done].
  cbn [mbind option_bind]. intros [= <-] Hp. unfold Ptr48High8, addr48.
  change 0xFFFFFFFFFF00 with (Z.shiftl (Z.ones 40) 8) in E. change 0xFF0000000000 with (Z.shiftl (Z.ones 8) 40).
  change 0xFFFFFFFFFF with (Z.ones 40). rewrite land_shifted_ones in * by lia.
  rewrite Z.shiftr_shiftl_l by lia. change (40 - 40) with 0. rewrite Z.shiftl_0_r. unfold wrap.
  rewrite !Z.land_ones, !Z.shiftr_div_pow2, !Z.shiftl_mul_pow2 in * by lia. rewrite Zmod_mod.
  pose proof (Z.mod_pos_bound (p / 2 ^ 8) (2 ^ 40) ltac:(lia)).
  assert (p mod 2 ^ 8 = 0) as H8 by (rewrite <- E; apply Z_mod_mult).
  assert (p < 2 ^ 48) as H48 by lia. split_and!; [|exact H8|exact H48].
  pose proof (Z.div_mod p (2 ^ 40) ltac:(lia)) as E40. pose proof (Z.mod_pos_bound p (2 ^ 40) ltac:(lia)).
  rewrite (Z.mod_small (p / 2 ^ 40)) by (split; [apply Z.div_pos|apply Z.div_lt_upper_bound]; lia).
  rewrite (Z.mod_small (p mod 2 ^ 40 / 2 ^ 8)) by (split; [apply Z.div_pos|apply Z.div_lt_upper_bound]; lia).
  assert (p mod 2 ^ 40 mod 2 ^ 8 = 0) as Hm.
  { change (2 ^ 40) with (2 ^ 8 * 2 ^ 32). rewrite Z.rem_mul_r, H8, Z.add_0_l, Z.mul_comm by lia. apply Z_mod_mult. }
  pose proof (Z.div_mod (p mod 2 ^ 40) (2 ^ 8) ltac:(lia)). lia.
Qed.

Lemma Ptr48_ok p :
  0 <= p -> p mod 256 = 0 -> p < 2 ^ 48 -> Z.land p 0xFFFFFFFFFF00 = p.
Proof.
  intros Hp Hm Hb. change 0xFFFFFFFFFF00 with (Z.shiftl (Z.ones 40) 8). rewrite land_shifted_ones by lia.
  rewrite Z.land_ones, Z.shiftr_div_pow2, Z.shiftl_mul_pow2 by lia.
  rewrite Z.mod_small by (split; [apply Z.div_pos|apply Z.div_lt_upper_bound]; lia).
  change 256 with (2 ^ 8) in Hm. pose proof (Z.div_mod p (2 ^ 8) ltac:(lia)). lia.
Qed.

Lemma Ptr48_nonneg p lo : Ptr48Low32 p = Some lo -> 0 <= p.
Proof.
  unfold Ptr48Low32. destruct (Z.eqb_spec (Z.land p 0xFFFFFFFFFF00) p) as [<-|]; [|done].
  intros _. apply Z.land_nonneg. right. lia.
Qed.

Lemma BuildScratch_spec p ws :
  BuildScratch p = Some ws ->
  exists lo hi, encodes ws [SetShRegs mmCOMPUTE_DISPATCH_SCRATCH_BASE_LO [lo; hi]] /\ addr48 lo hi = p.
Proof.
  unfold BuildScratch. destruct (Ptr48Low32 p) as [lo|] eqn:E; [|done]. cbn [mbind option_bind]. intros [= <-].
  exists lo, (Ptr48High8 p). split; [|apply Ptr48_split; [done|by eapply Ptr48_nonneg]].
  apply (encodes_set_sh_regs mmCOMPUTE_DISPATCH_SCRATCH_BASE_LO [lo; Ptr48High8 p]); [reflexivity|].
  unfold mmCOMPUTE_DISPATCH_SCRATCH_BASE_LO, PERSISTENT_SPACE_START. lia.
Qed.

Lemma encodes_ComputeShaderParams : encodes BuildComputeShaderParams [SetShRegs mmCOMPUTE_PGM_RSRC3 [2 ^ 31]].
Proof.
  apply (encodes_set_sh_regs mmCOMPUTE_PGM_RSRC3 [2 ^ 31]); [reflexivity|].
  unfold mmCOMPUTE_PGM_RSRC3, PERSISTENT_SPACE_START. lia.
Qed.

(** ** User registers *)

(** The groups of user registers the descriptor asks for, in the order of their
    flags; a group that names the scratch buffer needs a [major] below 11. *)
Definition user_groups (info : DispatchInfo) : list (Z * bool * list Z) :=
  let srd i := dword (aq_scratch_resource_descriptor (di_amd_queue info)) i in
  let ptr p := [PtrLow32 p; PtrHigh32 p] in
  [(KC_ENABLE_SGPR_PRIVATE_SEGMENT_BUFFER, true, [srd 0%nat; srd 1%nat; srd 2%nat; di_srd info]);
   (KC_ENABLE_SGPR_DISPATCH_PTR, false, ptr (di_pPacket info));
   (KC_ENABLE_SGPR_QUEUE_PTR, false, ptr (di_pAmdQueue info));
   (KC_ENABLE_SGPR_KERNARG_SEGMENT_PTR, false, ptr (kd_kernarg_address (di_packet info)));
   (KC_ENABLE_SGPR_DISPATCH_ID, false, [0; 0]);
   (KC_ENABLE_SGPR_FLAT_SCRATCH_INIT, true, ptr (di_pScratchBase info));
   (KC_ENABLE_SGPR_PRIVATE_SEGMENT_SIZE, false, [di_scratchSizePerWave info / (if di_wave32 info then 32 else 64)])].

Definition asked (info : DispatchInfo) (g : Z * bool * list Z) : bool :=
  bit g.1.1 (kc_kernel_code_properties (di_kernel_object info)).

(** Where the values of the groups that name the scratch buffer start. *)
Fixpoint scratch_positions (n : nat) (l : list (Z * bool * list Z)) : list nat :=
  match l with
  | [] => []
  | (_, s, vs) :: l => (if s : bool then [n] else []) ++ scratch_positions (n + length vs) l
  end.

(** The array after the values [vs]. *)
Definition user_state (vs offs : list Z) : UserData := mkUserData (vs ++ repeat 0 (16 - length vs)) (length vs) offs.

Lemma ud_push_state v vs offs :
  (length vs < 16)%nat -> ud_push v (user_state vs offs) = Some (user_state (vs ++ [v]) offs).
Proof.
  intros Hl. unfold ud_push, user_state. cbn [ud_sgpr_no ud_compute_user_data ud_scratchBaseOffset].
  rewrite (proj2 (Z.ltb_lt _ _)) by lia. cbn [mbind option_bind]. f_equal.
  rewrite length_app. cbn [length]. replace (length vs + 1)%nat with (S (length vs)) by lia. f_equal.
  rewrite insert_app_r_alt by lia. rewrite Nat.sub_diag.
  replace (16 - length vs)%nat with (S (16 - S (length vs))) by lia. cbn. by rewrite <- app_assoc.
Qed.

Lemma ud_pushes_state ws vs offs :
  (length vs + length ws <= 16)%nat -> ud_pushes ws (user_state vs offs) = Some (user_state (vs ++ ws) offs).
Proof.
  unfold ud_pushes. revert vs. induction ws as [|w ws IH]; intros vs Hl; cbn; [by rewrite app_nil_r|].
  cbn in Hl. rewrite ud_push_state by lia. rewrite IH by (rewrite length_app; cbn; lia).
  by rewrite <- app_assoc.
Qed.

Definition run_group (info : DispatchInfo) (g : Z * bool * list Z) : UserData -> option UserData :=
  ud_when info g.1.1 (fun u =>
    u ← (if g.1.2 then (check (di_major info <? 11) ;; ud_scratch_offset u) else Some u); ud_pushes g.2 u).

Fixpoint run_groups (info : DispatchInfo) (l : list (Z * bool * list Z)) (u : UserData) : option UserData :=
  match l with
  | [] => Some u
  | g :: l => u ← run_group info g u; run_groups info l u
  end.

Lemma dispatch_user_data_groups info : dispatch_user_data info = run_groups info (user_groups info) UserData_new.
Proof.
  unfold dispatch_user_data, user_groups, run_groups, run_group. cbn [fst snd].
  destruct (di_major info <? 11); reflexivity.
Qed.

Definition scratch_allowed (info : DispatchInfo) (g : Z * bool * list Z) : bool :=
  negb (asked info g && g.1.2) || (di_major info <? 11).

Definition values_of (info : DispatchInfo) (l : list (Z * bool * list Z)) : list Z :=
  concat (snd <$> filter (fun g => asked info g = true) l).
Definition offsets_of (info : DispatchInfo) (n : nat) (l : list (Z * bool * list Z)) : list Z :=
  (fun k => user_data_offset + Z.of_nat k * 4) <$> scratch_positions n (filter (fun g => asked info g = true) l).

Definition group_words (l : list (Z * bool * list Z)) : nat := length (concat (snd <$> l)).
Definition group_scratches (l : list (Z * bool * list Z)) : nat := length (filter (fun g => g.1.2 = true) l).

Lemma run_groups_spec info l vs offs :
  (length vs + group_words l <= 16)%nat -> (length offs + group_scratches l <= 2)%nat ->
  run_groups info l (user_state vs offs) =
    if forallb (scratch_allowed info) l
    then Some (user_state (vs ++ values_of info l) (offs ++ offsets_of info (length vs) l)) else None.
Proof.
  revert vs offs. induction l as [|[[flag s] ws] l IH]; intros vs offs Hw Hs.
  { cbn. by rewrite !app_nil_r. }
  cbn [run_groups forallb]. unfold values_of, offsets_of. unfold run_group, ud_when, scratch_allowed at 1.
  unfold group_words in Hw. cbn [fmap list_fmap concat snd] in Hw. rewrite length_app in Hw.
  unfold group_scratches in Hs. cbn [fst snd].
  change (bit flag (kc_kernel_code_properties (di_kernel_object info))) with (asked info (flag, s, ws)).
  destruct (asked info (flag, s, ws)) eqn:Ea; cbn [andb negb orb].
  - rewrite !filter_cons_True by done. cbn [fmap list_fmap concat snd scratch_positions].
    destruct s; cbn [negb orb].
    + rewrite filter_cons_True in Hs by done. cbn [length] in Hs.
      destruct (di_major info <? 11); cbn [check mbind option_bind andb]; [|done].
      unfold ud_scratch_offset. cbn [ud_scratchBaseOffset user_state]. rewrite (proj2 (Z.ltb_lt _ _)) by lia.
      cbn [check mbind option_bind ud_compute_user_data ud_sgpr_no user_state].
      change (mkUserData (vs ++ repeat 0 (16 - length vs)) (length vs) ?o) with (user_state vs o).
      rewrite ud_pushes_state by lia. cbn [mbind option_bind]. rewrite IH; [| |].
      * destruct (forallb _ l); [|done]. unfold values_of, offsets_of. by rewrite length_app, fmap_app, <- !app_assoc.
      * unfold group_words. rewrite length_app. lia.
      * unfold group_scratches. rewrite length_app. cbn [length]. lia.
    + rewrite filter_cons_False in Hs by done.
      cbn [mbind option_bind andb app]. rewrite ud_pushes_state by lia. cbn [mbind option_bind]. rewrite IH.
      * destruct (forallb _ l); [|done]. unfold values_of, offsets_of. by rewrite length_app, <- app_assoc.
      * unfold group_words. rewrite length_app. lia.
      * unfold group_scratches. lia.
  - rewrite !filter_cons_False by (rewrite Ea; done). cbn [mbind option_bind andb].
    apply IH; [unfold group_words; lia|]. unfold group_scratches.
    destruct s; [rewrite filter_cons_True in Hs by done|rewrite filter_cons_False in Hs by done]; cbn [length] in Hs; lia.
Qed.

Lemma dispatch_user_data_spec info :
  dispatch_user_data info =
    if forallb (scratch_allowed info) (user_groups info)
    then Some (user_state (values_of info (user_groups info)) (offsets_of info 0 (user_groups info))) else None.
Proof. rewrite dispatch_user_data_groups. apply (run_groups_spec info _ [] []); by apply Nat.leb_le. Qed.

Lemma values_of_bound info : (length (values_of info (user_groups info)) <= 15)%nat.
Proof.
  unfold values_of. assert (forall l, length (concat (snd <$> filter (fun g => asked info g = true) l)) <= group_words l)%nat as H.
  { induction l as [|g l IH]; [done|]. unfold group_words in *. rewrite filter_cons.
    destruct (decide _); cbn [fmap list_fmap concat]; rewrite !length_app; cbn; lia. }
  apply (H (user_groups info)).
Qed.

(** ** The dispatch *)

Definition dispatch_initiator (wave32 : bool) : Z := if wave32 then 0x8025 else 0x25.

Definition dispatch_rsrc1 (info : DispatchInfo) : Z :=
  let r := kc_compute_pgm_rsrc1 (di_kernel_object info) in
  if di_major info =? 11 then bit_set RSRC1_PRIV true r else r.
Definition dispatch_rsrc2 (info : DispatchInfo) : Z :=
  Z.lor (u32 (Z.shiftl (di_ldsBlks info) 15)) (kc_compute_pgm_rsrc2 (di_kernel_object info)).

(** The commands of a dispatch. *)
Definition dispatch_commands (info : DispatchInfo) (pgm_lo : Z) : list command :=
  let p := di_packet info in
  let vs := values_of info (user_groups info) in
  [SetShRegs mmCOMPUTE_NUM_THREAD_X [kd_workgroup_size_x p; kd_workgroup_size_y p; kd_workgroup_size_z p];
   SetShRegs mmCOMPUTE_PGM_LO [pgm_lo; Ptr48High8 (di_pEntry info)];
   SetShRegs mmCOMPUTE_PGM_RSRC1 [dispatch_rsrc1 info; dispatch_rsrc2 info];
   SetShRegs mmCOMPUTE_RESOURCE_LIMITS
     [0x3ff; 0xFFFFFFFF; 0xFFFFFFFF; aq_compute_tmpring_size (di_amd_queue info); 0xFFFFFFFF; 0xFFFFFFFF];
   SetShRegs mmCOMPUTE_USER_DATA_0 (vs ++ repeat 0 (16 - length vs));
   DispatchDirect (kd_grid_size_x p) (kd_grid_size_y p) (kd_grid_size_z p) (dispatch_initiator (di_wave32 info))].

(** The conditions its assertions check. *)
Definition dispatchable (info : DispatchInfo) : Prop :=
  Z.land (di_pEntry info) 0xFFFFFFFFFF00 = di_pEntry info /\ forallb (scratch_allowed info) (user_groups info) = true.

Lemma encodes_Dispatch words :
  encodes (words_DISPATCH_DIRECT (mkDispatchDirect (GenerateCmdHeader dw_DispatchDirect IT_DISPATCH_DIRECT)
             (dword words 0) (dword words 1) (dword words 2) (dword words 3)))
    [DispatchDirect (dword words 0) (dword words 1) (dword words 2) (dword words 3)].
Proof. by apply (encodes_packet IT_DISPATCH_DIRECT [_; _; _; _]). Qed.

Ltac reg_range := cbv [mmCOMPUTE_NUM_THREAD_X mmCOMPUTE_PGM_LO mmCOMPUTE_PGM_RSRC1 mmCOMPUTE_RESOURCE_LIMITS
  mmCOMPUTE_USER_DATA_0 PERSISTENT_SPACE_START]; lia.

Lemma BuildDispatch_runs info :
  dispatchable info ->
  exists pgm_lo ws offs, BuildDispatch info = Some (ws, offs) /\ Ptr48Low32 (di_pEntry info) = Some pgm_lo /\
    length ws = 44%nat /\ encodes ws (dispatch_commands info pgm_lo) /\
    offs = offsets_of info 0 (user_groups info).
Proof.
  intros [He Hs]. unfold BuildDispatch, Ptr48Low32. rewrite (proj2 (Z.eqb_eq _ _) He). cbn [check mbind option_bind].
  rewrite dispatch_user_data_spec, Hs. cbn [mbind option_bind user_state ud_compute_user_data ud_scratchBaseOffset].
  set (vs := values_of info (user_groups info)). set (data := vs ++ repeat 0 (16 - length vs)).
  assert (length data = 16%nat) as Hd.
  { subst data. rewrite length_app, repeat_length. pose proof (values_of_bound info). subst vs. lia. }
  do 3 eexists. split_and!; [reflexivity|reflexivity| | |reflexivity].
  { unfold set_sh_regs, words_SET_SH_REG, words_DISPATCH_DIRECT. rewrite !length_app. cbn [length]. by rewrite Hd. }
  unfold dispatch_commands. fold vs. fold data.
  do 5 (apply (encodes_app _ _ [_]); [apply encodes_set_sh_regs; [by rewrite ?Hd|reg_range]|]).
  replace (dispatch_initiator (di_wave32 info)) with
    (if di_wave32 info then Z.lor (Z.lor (Z.lor (Z.shiftl 1 0) (Z.shiftl 1 2)) (Z.shiftl 1 5)) (Z.shiftl 1 15)
     else Z.lor (Z.lor (Z.shiftl 1 0) (Z.shiftl 1 2)) (Z.shiftl 1 5)) by (by destruct (di_wave32 info)).
  by apply (encodes_packet IT_DISPATCH_DIRECT [_; _; _; _]).
Qed.

Lemma BuildDispatch_None info : ~ dispatchable info -> BuildDispatch info = None.
Proof.
  unfold BuildDispatch, Ptr48Low32, dispatchable. rewrite dispatch_user_data_spec. intros Hd.
  destruct (Z.eqb_spec (Z.land (di_pEntry info) 0xFFFFFFFFFF00) (di_pEntry info)); [|done].
  cbn [check mbind option_bind]. by destruct (forallb _ _); [destruct Hd|].
Qed.

(** [o], an offset in bytes, names the first two words of a group of the scratch buffer. *)
Definition scratch_at (l : list (Z * bool * list Z)) (words : list Z) (k : nat) : Prop :=
  exists g, g ∈ l /\ g.1.2 = true /\ take 2 (drop k words) = take 2 g.2.

Lemma scratch_positions_at l pre tail :
  Forall (fun g => g.1.2 = true -> (2 <= length g.2)%nat) l ->
  Forall (scratch_at l (pre ++ concat (snd <$> l) ++ tail)) (scratch_positions (length pre) l).
Proof.
  revert pre. induction l as [|[[flag s] ws] l IH]; intros pre Hl; [constructor|].
  apply Forall_cons in Hl as [Hg Hl]. cbn [scratch_positions fmap list_fmap concat snd]. apply Forall_app. split.
  - destruct s; [|constructor]. constructor; [|constructor]. exists (flag, true, ws).
    split_and!; [by left|done|]. cbn [snd fst] in *. rewrite drop_app_length, <- app_assoc.
    by rewrite take_app_le by (by apply Hg).
  - rewrite <- app_assoc. specialize (IH (pre ++ ws) Hl). rewrite <- app_assoc, length_app in IH.
    eapply Forall_impl; [exact IH|]. intros k (g & ? & ? & ?). exists g. split_and!; [by right|done|done].
Qed.

Lemma asked_scratch info :
  Forall (fun g => g.1.2 = true -> (2 <= length g.2)%nat) (filter (fun g => asked info g = true) (user_groups info)).
Proof.
  assert (Forall (fun g => g.1.2 = true -> (2 <= length g.2)%nat) (user_groups info)) as H.
  { unfold user_groups. do 7 (apply Forall_cons_2; [cbn; lia|]). by apply Forall_nil_2. }
  rewrite Forall_forall in *. intros g [_ Hg]%list_elem_of_filter. by apply H.
Qed.

Lemma BuildDispatch_offsets info ws offs :
  BuildDispatch info = Some (ws, offs) ->
  Forall (fun o => scratch_at (filter (fun g => asked info g = true) (user_groups info)) ws (Z.to_nat (o / 4))) offs.
Proof.
  unfold BuildDispatch. destruct (Ptr48Low32 (di_pEntry info)) as [lo|]; [|done]. cbn [mbind option_bind].
  rewrite dispatch_user_data_spec. destruct (forallb _ _); [|done]. cbn [mbind option_bind].
  intros E. apply (inj Some), pair_equal_spec in E as [<- <-].
  cbn [user_state ud_compute_user_data ud_scratchBaseOffset]. unfold values_of, offsets_of.
  set (l := filter _ _). apply Forall_fmap. unfold compose.
  assert (Forall (fun g => g.1.2 = true -> (2 <= length g.2)%nat) l) as Hl.
  { apply asked_scratch. }
  match goal with |- context [set_sh_regs ?a ?b ++ set_sh_regs ?c ?d ++ set_sh_regs ?e ?f ++ set_sh_regs ?g ?h ++ set_sh_regs ?i ?j ++ ?k] =>
    replace (set_sh_regs a b ++ set_sh_regs c d ++ set_sh_regs e f ++ set_sh_regs g h ++ set_sh_regs i j ++ k) with
      ((set_sh_regs a b ++ set_sh_regs c d ++ set_sh_regs e f ++ set_sh_regs g h ++ take 2 (set_sh_regs i j)) ++ j ++ k)
      by reflexivity end.
  match goal with |- context [?a ++ (concat (snd <$> l) ++ ?b) ++ ?c] => set (pre := a); set (tail := b ++ c) end.
  pose proof (scratch_positions_at l [] tail Hl) as Hat. cbn [length app] in Hat.
  eapply Forall_impl; [exact Hat|]. intros k (g & Hg & Hs & Ht). exists g. split_and!; [done|done|].
  replace (Z.to_nat ((user_data_offset + Z.of_nat k * 4) / 4)) with (length pre + k)%nat.
  - rewrite <- drop_drop, drop_app_length, <- app_assoc. exact Ht.
  - change user_data_offset with (23 * 4). rewrite <- Z.mul_add_distr_r, Z.div_mul by lia.
    change (length pre) with 23%nat. lia.
Qed.

Lemma scratch_positions_bound l n :
  Forall (fun g => g.1.2 = true -> (2 <= length g.2)%nat) l ->
  Forall (fun k => (n <= k /\ k + 2 <= n + length (concat (snd <$> l)))%nat) (scratch_positions n l).
Proof.
  revert n. induction l as [|[[flag s] ws] l IH]; intros n Hl; [constructor|].
  apply Forall_cons in Hl as [Hg Hl]. cbn [scratch_positions fmap list_fmap concat snd fst] in *.
  rewrite length_app. apply Forall_app. split.
  - destruct s; [|constructor]. constructor; [|constructor]. specialize (Hg eq_refl). lia.
  - eapply Forall_impl; [by apply IH|]. intros k. cbn. lia.
Qed.

(** Each recorded offset has its two words inside the template. *)
Lemma BuildDispatch_offsets_bound info ws offs :
  BuildDispatch info = Some (ws, offs) -> Forall (fun o => 0 <= o /\ o + 8 <= 176) offs.
Proof.
  unfold BuildDispatch. destruct (Ptr48Low32 (di_pEntry info)) as [lo|]; [|done]. cbn [mbind option_bind].
  rewrite dispatch_user_data_spec. destruct (forallb _ _); [|done]. cbn [mbind option_bind].
  intros E. apply (inj Some), pair_equal_spec in E as [_ <-]. cbn [user_state ud_scratchBaseOffset].
  unfold offsets_of. apply Forall_fmap. pose proof (values_of_bound info) as Hv. unfold values_of in Hv.
  eapply Forall_impl; [apply scratch_positions_bound, asked_scratch|].
  intros k. cbn beta. unfold compose, user_data_offset. lia.
Qed.

(** C19: The dispatch template reads back as the commands of the dispatch: the
    workgroup and grid sizes of the packet, the entry point whole over its two
    registers, the resource words of the descriptor with the local memory size, and
    the user registers the descriptor asks for in the order of their flags, the rest
    zero. Each recorded offset names the two words of a scratch address. The
    assertions hold exactly when the entry point is 256-byte aligned below 2^48 and
    no scratch buffer group is asked of a generation from 11 on. *)
Theorem BuildDispatch_commands info :
  0 <= di_pEntry info ->
  match BuildDispatch info with
  | Some (ws, offs) =>
      dispatchable info /\ length ws = 44%nat /\
      (exists pgm_lo, read_stream ws = Some (dispatch_commands info pgm_lo) /\
         addr48 pgm_lo (Ptr48High8 (di_pEntry info)) = di_pEntry info) /\
      Forall (fun o => scratch_at (filter (fun g => asked info g = true) (user_groups info)) ws (Z.to_nat (o / 4))) offs
  | None => ~ dispatchable info
  end.
Proof.
  intros Hp. destruct (decide (dispatchable info)) as [Hd|Hd].
  - destruct (BuildDispatch_runs info Hd) as (lo & ws & offs & Hr & Hlo & Hlen & Henc & _).
    pose proof (BuildDispatch_offsets _ _ _ Hr). rewrite Hr. split_and!; [done|done| |done].
    exists lo. split; [by apply encodes_read|]. by apply Ptr48_split.
  - by rewrite BuildDispatch_None.
Qed.

(** C24: The packets with an address carry it whole: a clock copy to an 8-byte
    aligned address, an atomic to any, a write to a 4-byte aligned one, which the
    assertion demands, and the scratch base, 256-byte aligned below 2^48. *)
Theorem packets_carry_addresses p v op policy :
  0 <= p < 2 ^ 64 -> 0 <= v < 2 ^ 64 -> 0 <= op < 2 ^ 7 -> 0 <= policy < 2 ^ 2 ->
  read_stream (BuildAtomicMem p op policy v) = Some [AtomicMem op policy p v] /\
  (p mod 8 = 0 -> read_stream (BuildCopyClock p) = Some [CopyData 9 1 p]) /\
  match BuildWriteData64Command p v with
  | Some ws => p mod 4 = 0 /\ read_stream ws = Some [WriteData64 5 p v]
  | None => p mod 4 <> 0
  end /\
  match BuildScratch p with
  | Some ws => p mod 256 = 0 /\ p < 2 ^ 48 /\
      exists lo hi, read_stream ws = Some [SetShRegs mmCOMPUTE_DISPATCH_SCRATCH_BASE_LO [lo; hi]] /\ addr48 lo hi = p
  | None => p mod 256 <> 0 \/ 2 ^ 48 <= p
  end.
Proof.
  intros Hp Hv Ho Hpo. split_and!.
  - by apply encodes_read, encodes_AtomicMem.
  - intros Ha. rewrite (encodes_read _ _ (encodes_CopyClock p Hp)). unfold clock_addr. by rewrite Ha, Z.sub_0_r.
  - pose proof (encodes_WriteData64 p v) as Henc. unfold BuildWriteData64Command in *.
    change 3 with (Z.ones 2) in *. rewrite Z.land_ones in * by lia. change (2 ^ 2) with 4 in *.
    destruct (Z.eqb_spec (p mod 4) 0) as [E|E]; cbn [check mbind option_bind] in *; [|exact E].
    split; [exact E|]. by apply encodes_read, Henc.
  - destruct (BuildScratch p) as [ws|] eqn:E.
    + destruct (BuildScratch_spec p ws E) as (lo & hi & Henc & Ha). unfold BuildScratch in E.
      destruct (Ptr48Low32 p) as [lo'|] eqn:E'; [|done]. destruct (Ptr48_split p lo' E') as (_ & ? & ?); [lia|].
      split_and!; [done|done|]. exists lo, hi. split; [by apply encodes_read|exact Ha].
    + unfold BuildScratch, Ptr48Low32 in E. destruct (Z.eqb_spec (Z.land p 0xFFFFFFFFFF00) p) as [|Hne]; [done|].
      destruct (decide (p mod 256 = 0)) as [Hm|]; [|by left]. right. destruct (Z.lt_ge_cases p (2 ^ 48)); [|lia].
      destruct Hne. apply Ptr48_ok; [lia|exact Hm|lia].
Qed.

(** ** Witnesses *)

Definition demo_dispatch (major : Z) : DispatchInfo :=
  mkDispatchInfo major 0x10000 (mkDispatchPacket 0x1502 1 64 1 1 1024 1 1 0 0 0x400000 0x20000 0x30000) 0x400100
    (mkKernelCode 0x100 0xAC 0x8A 0x21 0) 0 0x50000 (mkAmdQueue 0 [1; 2; 3; 4] 0 0) false 4 0x60000 0.

Lemma BuildDispatch_commands_witness :
  exists ws, BuildDispatch (demo_dispatch 10) = Some (ws, [92; 108]) /\ length ws = 44%nat /\
    scratch_at (filter (fun g => asked (demo_dispatch 10) g = true) (user_groups (demo_dispatch 10))) ws 27.
Proof.
  pose proof (BuildDispatch_commands (demo_dispatch 10)) as H.
  destruct (BuildDispatch (demo_dispatch 10)) as [[ws offs]|] eqn:E; [|discriminate E].
  specialize (H ltac:(done)). destruct H as (_ & Hl & _ & Hf).
  assert (offs = [92; 108]) as Ho by (vm_compute in E; injection E; intros; subst; reflexivity).
  rewrite Ho in Hf |- *. exists ws. split; [reflexivity|]. split; [exact Hl|].
  apply Forall_cons in Hf as [_ Hf]. apply Forall_cons in Hf as [Hf _]. exact Hf.
Defined.

Lemma packets_carry_addresses_witness :
  read_stream (BuildAtomicMem 0x123456789ABC TC_OP_ATOMIC_ADD_RTN_64 3 (2 ^ 64 - 1)) =
    Some [AtomicMem 47 3 0x123456789ABC (2 ^ 64 - 1)].
Proof. apply (packets_carry_addresses 0x123456789ABC (2 ^ 64 - 1) 47 3); lia. Defined.
