(* ===== verification/Queue.v ===== *)
(** * Queue: user queues (src/wddm/queue.cpp, impl/wddm/queue.h)

    A compute queue reads AQL packets out of a ring the application writes and
    turns each into PM4 commands in a command buffer of fixed frames, which it
    submits to the device. The ring, the fences and the command buffer are shared
    with the application and the device: reading and writing them are calls of
    Kernel.v, so a run of the queue's thread is a log of loads, stores, waits and
    submissions. The members of the queue object itself are the state of [QM]. *)

From S2P Require Import Prelude.
From S2P Require Import StdMap.
From S2P Require Import BitField.
From S2P Require Import Utils.
From S2P Require Import VaMgr.
From S2P Require Import SimpleHeap.
From S2P Require Import Status.
From S2P Require Import World.
From S2P Require Import Runtime.
From S2P Require Import Device.
From S2P Require Import GpuMemory.
From S2P Require Import Memory.
From S2P Require Import Aql.
From S2P Require Import CmdUtil.
#[local] Open Scope Z_scope.

(** ** Statuses *)

Definition HSA_STATUS_SUCCESS : Z := 0.
Definition HSA_STATUS_ERROR_INVALID_ARGUMENT : Z := 0x1001.
Definition HSA_STATUS_ERROR_INVALID_ALLOCATION : Z := 0x1003.
Definition HSA_STATUS_ERROR_OUT_OF_RESOURCES : Z := 0x1008.
Definition HSA_STATUS_ERROR_INVALID_PACKET_FORMAT : Z := 0x1009.
Definition HSA_STATUS_ERROR_INCOMPATIBLE_ARGUMENTS : Z := 0x100D.
Definition HSA_STATUS_ERROR_INVALID_CODE_OBJECT : Z := 0x1010.
Definition HSA_STATUS_ERROR_EXCEPTION : Z := 0x1016.

(** ** Data *)

Inductive SchedLevel := kLow | kNormal | kHigh.

#[export] Instance SchedLevel_eq_dec : EqDecision SchedLevel.
Proof. solve_decision. Defined.

Definition SchedLevel_value (l : SchedLevel) : Z := match l with kLow => 0 | kNormal => 1 | kHigh => 2 end.

(** [hsa_amd_queue_priority_t] *)
Definition HSA_AMD_QUEUE_PRIORITY_LOW : Z := 0.
Definition HSA_AMD_QUEUE_PRIORITY_HIGH : Z := 2.

Definition ConvertSchedLevel (prio : Z) : SchedLevel :=
  if prio =? HSA_AMD_QUEUE_PRIORITY_LOW then kLow
  else if prio =? HSA_AMD_QUEUE_PRIORITY_HIGH then kHigh else kNormal.

Record WDDMQueue := mkWDDMQueue {
  q_device : nat;
  q_context : Z;
  q_queue : Z;
  q_syncobj : Z;
  q_sync_addr : Z;
  q_cmdbuf : Z;              (* [GpuMemory] object, 0 when there is none *)
  q_cmdbuf_addr : Z;
  q_cmdbuf_size : Z;
  q_queue_mem : Z;
  q_engine : Z;
  q_use_hws : bool;
  q_prio : SchedLevel;
}.

Definition WDDMQueue_new (device : nat) (cmdbuf_addr cmdbuf_size engine : Z) (use_hws : bool) : WDDMQueue :=
  mkWDDMQueue device 0 0 0 0 0 cmdbuf_addr cmdbuf_size 0 engine use_hws kNormal.

Definition with_context (c : Z) (q : WDDMQueue) : WDDMQueue :=
  mkWDDMQueue (q_device q) c (q_queue q) (q_syncobj q) (q_sync_addr q) (q_cmdbuf q) (q_cmdbuf_addr q)
    (q_cmdbuf_size q) (q_queue_mem q) (q_engine q) (q_use_hws q) (q_prio q).
Definition with_sync (h sync addr : Z) (q : WDDMQueue) : WDDMQueue :=
  mkWDDMQueue (q_device q) (q_context q) h sync addr (q_cmdbuf q) (q_cmdbuf_addr q)
    (q_cmdbuf_size q) (q_queue_mem q) (q_engine q) (q_use_hws q) (q_prio q).
Definition with_cmdbuf (p addr : Z) (q : WDDMQueue) : WDDMQueue :=
  mkWDDMQueue (q_device q) (q_context q) (q_queue q) (q_syncobj q) (q_sync_addr q) p addr
    (q_cmdbuf_size q) (q_queue_mem q) (q_engine q) (q_use_hws q) (q_prio q).
Definition with_queue_mem (p h : Z) (q : WDDMQueue) : WDDMQueue :=
  mkWDDMQueue (q_device q) (q_context q) h (q_syncobj q) (q_sync_addr q) (q_cmdbuf q) (q_cmdbuf_addr q)
    (q_cmdbuf_size q) p (q_engine q) (q_use_hws q) (q_prio q).
Definition with_prio (l : SchedLevel) (q : WDDMQueue) : WDDMQueue :=
  mkWDDMQueue (q_device q) (q_context q) (q_queue q) (q_syncobj q) (q_sync_addr q) (q_cmdbuf q) (q_cmdbuf_addr q)
    (q_cmdbuf_size q) (q_queue_mem q) (q_engine q) (q_use_hws q) l.

(** The members of a compute queue that stay as its constructor set them. *)
Record QueueConfig := mkQueueConfig {
  qc_ring : Z;
  qc_ring_size : Z;                  (* in packets *)
  qc_ring_wptr : Z;
  qc_ring_rptr : Z;
  qc_error_code : Z;                 (* 0 when there is none *)
  qc_amd_queue_mem : Z;              (* [GpuMemory] object *)
  qc_amd_queue : Z;                  (* the address of the library's copy *)
  qc_amd_queue_rocr : Z;             (* the address of the application's *)
  qc_cmdbuf_aql_frame_size : Z;
  qc_platform_atomic_support : bool;
  qc_scratch_waves : Z;
}.

(** The members that say how far the command buffer has been filled. *)
Record CmdbufState := mkCmdbufState {
  ib_start_addr : Z;
  ib_size : Z;
  sync_point : Z;
  write_index : Z;                   (* cmdbuf_aql_frame_write_index *)
  needs_barrier : bool;
  ready_to_submit : bool;
  signal_addr_ : Z;                  (* 0 is [NULL] *)
  scratch_base_offsets : list Z;
}.

Record ScratchState := mkScratchState {
  scratch_size_per_wave_ : Z;
  scratch_size_ : Z;
  scratch_base_ : Z;                 (* 0 is [nullptr] *)
  scratch_mem_ : Z;
  amd_queue_ : amd_queue_v2_t;       (* the contents of the library's copy *)
}.

Record ComputeQueue := mkComputeQueue {
  cq_base : WDDMQueue;
  cq_config : QueueConfig;
  cq_cmdbuf : CmdbufState;
  cq_scratch : ScratchState;
}.

Definition set_base (b : WDDMQueue) (q : ComputeQueue) : ComputeQueue :=
  mkComputeQueue b (cq_config q) (cq_cmdbuf q) (cq_scratch q).
Definition set_cmdbuf (c : CmdbufState) (q : ComputeQueue) : ComputeQueue :=
  mkComputeQueue (cq_base q) (cq_config q) c (cq_scratch q).
Definition set_scratch (s : ScratchState) (q : ComputeQueue) : ComputeQueue :=
  mkComputeQueue (cq_base q) (cq_config q) (cq_cmdbuf q) s.

Definition cb_set_ib (start size sync : Z) (c : CmdbufState) : CmdbufState :=
  mkCmdbufState start size sync (write_index c) (needs_barrier c) (ready_to_submit c) (signal_addr_ c)
    (scratch_base_offsets c).
Definition cb_set_filled (size index : Z) (c : CmdbufState) : CmdbufState :=
  mkCmdbufState (ib_start_addr c) size (sync_point c) index (needs_barrier c) (ready_to_submit c) (signal_addr_ c)
    (scratch_base_offsets c).
Definition cb_set_barrier (b : bool) (c : CmdbufState) : CmdbufState :=
  mkCmdbufState (ib_start_addr c) (ib_size c) (sync_point c) (write_index c) b (ready_to_submit c) (signal_addr_ c)
    (scratch_base_offsets c).
Definition cb_set_ready (b : bool) (c : CmdbufState) : CmdbufState :=
  mkCmdbufState (ib_start_addr c) (ib_size c) (sync_point c) (write_index c) (needs_barrier c) b (signal_addr_ c)
    (scratch_base_offsets c).
Definition cb_set_signal (a : Z) (c : CmdbufState) : CmdbufState :=
  mkCmdbufState (ib_start_addr c) (ib_size c) (sync_point c) (write_index c) (needs_barrier c) (ready_to_submit c) a
    (scratch_base_offsets c).
Definition cb_set_offsets (l : list Z) (c : CmdbufState) : CmdbufState :=
  mkCmdbufState (ib_start_addr c) (ib_size c) (sync_point c) (write_index c) (needs_barrier c) (ready_to_submit c)
    (signal_addr_ c) l.

(** ** The monad of a queue's member functions *)

Definition QM (K A : Type) : Type := ComputeQueue -> World K -> option (A * ComputeQueue * World K).

#[export] Instance QM_ret K : MRet (QM K) := fun A x q w => Some (x, q, w).
#[export] Instance QM_bind K : MBind (QM K) := fun A B f m q w =>
  match m q w with
  | Some (x, q', w') => f x q' w'
  | None => None
  end.

Section qprims.
Context {K : Type}.

Definition lift {A} (m : M K A) : QM K A := fun q w =>
  match m w with Some (x, w') => Some (x, q, w') | None => None end.
Definition qget {A} (f : ComputeQueue -> A) : QM K A := fun q w => Some (f q, q, w).
Definition qmod (f : ComputeQueue -> ComputeQueue) : QM K unit := fun q w => Some (tt, f q, w).
Definition qassert (b : bool) : QM K unit := fun q w => if b then Some (tt, q, w) else None.
Definition qopt {A} (o : option A) : QM K A := fun q w => match o with Some x => Some (x, q, w) | None => None end.

Definition mod_cmdbuf (f : CmdbufState -> CmdbufState) : QM K unit := qmod (fun q => set_cmdbuf (f (cq_cmdbuf q)) q).
Definition mod_base (f : WDDMQueue -> WDDMQueue) : QM K unit := qmod (fun q => set_base (f (cq_base q)) q).

Context `{Kernel K}.

Definition qcall {R} (c : kcall R) : QM K R := lift (kcall_ c).

(** Loads, at the width of the type read. *)
Definition load64 (addr : Z) : QM K Z := v ← qcall (load_u64 addr); mret (u64 v).
Definition load_words (addr n : Z) : QM K (list Z) := l ← qcall (load_dwords addr n); mret (u32 <$> l).
Definition load32 (addr : Z) : QM K Z := l ← load_words addr 1; mret (dword l 0).
End qprims.

(** ** The queue of the driver *)

(** [WDDMDevice::AllocUserQueueMemFromUMD] *)
Definition AllocUserQueueMemFromUMD : bool := false.

Section base.
Context {K : Type} `{Kernel K}.

Definition status_of (ok : bool) : Z := if ok then HSA_STATUS_SUCCESS else HSA_STATUS_ERROR.

(** [thunk_proxy::QueueEngine2EngineFlag] is in the binary library. *)
Context (QueueEngine2EngineFlag : Z -> Z).

Definition SwsInit (q : WDDMQueue) : M K (Z * WDDMQueue) :=
  o ← CreateSyncobj (q_device q);
  match o with
  | None => mret (HSA_STATUS_ERROR, q)
  | Some (sync, addr) =>
      let q := with_sync (q_queue q) sync addr q in
      if AllocUserQueueMemFromUMD then
        d ← get_dev (q_device q);
        '(code, mem, _) ← CreateGpuMemory (q_device q)
           (mkCreateInfo 0 kUserQueue (sd_UserQueueSize (shared_dev_ d)) 0 0 (QueueEngine2EngineFlag (q_engine q)) (-1) 0 0) 0;
        if ErrorCode_ok code then
          p ← mderef mem; g ← get_mem p; h ← mderef (GetAllocationHandle g 0);
          mret (HSA_STATUS_SUCCESS, with_queue_mem p h q)
        else DestroySyncobj (q_syncobj q) ;; mret (HSA_STATUS_ERROR, q)
      else mret (HSA_STATUS_SUCCESS, q)
  end.

Definition SwsFini (q : WDDMQueue) : M K Z := DestroySyncobj (q_syncobj q) ;; mret HSA_STATUS_SUCCESS.

Definition SwsSubmit (q : WDDMQueue) (addr size fence : Z) : M K Z :=
  ok ← SubmitToSwQueue (q_context q) (q_queue q) (q_syncobj q) addr size fence; mret (status_of ok).

Definition HwsInit (q : WDDMQueue) : M K (Z * WDDMQueue) :=
  o ← CreateHwQueue (q_device q) (q_context q) (q_engine q) (SchedLevel_value (q_prio q));
  match o with
  | None => mret (HSA_STATUS_ERROR, q)
  | Some (h, sync, addr) => mret (HSA_STATUS_SUCCESS, with_sync h sync addr q)
  end.

Definition HwsFini (q : WDDMQueue) : M K Z := ok ← DestroyHwQueue (q_queue q); mret (status_of ok).

Definition HwsSubmit (q : WDDMQueue) (addr size fence : Z) : M K Z :=
  ok ← SubmitToHwQueue (q_queue q) addr size fence; mret (status_of ok).

Definition SetPriority (priority : Z) (q : WDDMQueue) : M K (Z * WDDMQueue) :=
  if negb (q_use_hws q) then mret (HSA_STATUS_SUCCESS, q)
  else
    let new_prio := ConvertSchedLevel priority in
    if decide (q_prio q = new_prio) then mret (HSA_STATUS_SUCCESS, q)
    else DestroyHwQueue (q_queue q) ;; HwsInit (with_prio new_prio q).

(** [use_hws ? Hws... : Sws...], in the virtual [Init], [Fini] and in [Submit]. *)
Definition queue_init (q : WDDMQueue) : M K (Z * WDDMQueue) := if q_use_hws q then HwsInit q else SwsInit q.
Definition queue_fini (q : WDDMQueue) : M K Z := if q_use_hws q then HwsFini q else SwsFini q.
Definition queue_submit (q : WDDMQueue) (addr size fence : Z) : M K Z :=
  if q_use_hws q then HwsSubmit q addr size fence else SwsSubmit q addr size fence.

(** [CreateQueue]: the context, the command buffer unless the queue has one, and the
    virtual [Init]. [delete] of a null pointer does nothing. *)
Definition CreateQueue (init : WDDMQueue -> M K (Z * WDDMQueue)) (q : WDDMQueue) : M K (bool * WDDMQueue) :=
  o ← CreateContext (q_device q) (q_engine q);
  match o with
  | None => mret (false, q)
  | Some context =>
      let q := with_context context q in
      '(ok, gpu_mem, q) ←
        (if q_cmdbuf_addr q =? 0 then
           '(code, mem, _) ← CreateGpuMemory (q_device q) (mkCreateInfo 0 kSystem (q_cmdbuf_size q) 0 0 0 (-1) 0 0) 0;
           if ErrorCode_ok code then
             p ← mderef mem; g ← get_mem p; mret (true, Some p, with_cmdbuf p (GpuAddress g) q)
           else mret (false, None, q)
         else mret (true, None, q));
      if (ok : bool) then
        '(st, q) ← init q;
        if st =? HSA_STATUS_SUCCESS then mret (true, q)
        else
          match gpu_mem with Some p => GpuMemory_delete p | None => mret tt end ;;
          DestroyContext (q_context q) ;; mret (false, q)
      else DestroyContext (q_context q) ;; mret (false, q)
  end.

Definition DestroyQueue (fini : WDDMQueue -> M K Z) (q : WDDMQueue) : M K unit :=
  fini q ;;
  (if q_cmdbuf q =? 0 then mret tt else GpuMemory_delete (q_cmdbuf q)) ;;
  DestroyContext (q_context q) ;; mret tt.
End base.

(** ** Command buffers *)

(** [cmdbuf_aql_frame_num_] *)
Definition AqlFrameNum : Z := 0x1000.

(** [InitCmdbufInfo]: the frame and buffer sizes, [frame0] what the member held. *)
Definition InitCmdbufInfo_sizes (major frame0 : Z) : Z * Z :=
  let frame := if major =? 9 then u32 (2 * (4 * dw_AcquireMem_9))
               else if 10 <=? major then u32 (2 * (4 * dw_AcquireMem_10)) else frame0 in
  let frame := if 11 <=? major then u32 (frame + 4 * dw_SetScratch + 4 * dw_ComputeShaderParams) else frame in
  let frame := u32 (frame + (4 * dw_COPY_DATA * 2 + 4 * dw_Barrier * 2 + 4 * dw_Dispatch + 4 * dw_Atomic * 2)) in
  let frame := AlignUp 32 (u32 (frame + 128)) 0x10 in
  (frame, AlignUp 32 (u32 (AqlFrameNum * frame)) 0x1000).

Definition LdsBlocks (pkt : hsa_kernel_dispatch_packet_t) : Z := u32 (u32 (kd_group_segment_size pkt + 512) - 1) / 512.

(** ** Scratch memory *)

Definition SQ_SEL_X : Z := 4.
Definition SQ_SEL_Y : Z := 5.
Definition SQ_SEL_Z : Z := 6.
Definition SQ_SEL_W : Z := 7.
Definition BUF_NUM_FORMAT_UINT : Z := 4.
Definition BUF_DATA_FORMAT_32 : Z := 4.
Definition BUF_FORMAT_32_UINT : Z := 0x14.
Definition SQ_RSRC_BUF : Z := 0.

(** A word written field by field: position, width and value of each. *)
Definition fields (l : list (Z * Z * Z)) (x : Z) : Z := foldl (fun x f => bf_set f.1.1 f.1.2 f.2 x) x l.

Definition srd_word1 (major scratch_base word : Z) : Z :=
  if major <? 11 then
    fields [(0, 16, Z.shiftr scratch_base 32); (16, 14, 0); (30, 1, 0); (31, 1, 1)] word
  else fields [(0, 16, Z.shiftr scratch_base 32); (16, 14, 0); (30, 2, 1)] word.

Definition srd_dst_sel : list (Z * Z * Z) := [(0, 3, SQ_SEL_X); (3, 3, SQ_SEL_Y); (6, 3, SQ_SEL_Z); (9, 3, SQ_SEL_W)].

Definition srd_word3 (major word : Z) : Z :=
  if major <? 10 then
    fields (srd_dst_sel ++
      [(12, 3, BUF_NUM_FORMAT_UINT); (15, 4, BUF_DATA_FORMAT_32); (19, 2, 1); (21, 2, 3); (23, 1, 1); (24, 1, 0);
       (25, 1, 0); (26, 1, 0); (27, 3, 0); (30, 2, SQ_RSRC_BUF)]) word
  else if major =? 10 then
    fields (srd_dst_sel ++
      [(12, 7, BUF_FORMAT_32_UINT); (19, 2, 0); (21, 2, 0); (23, 1, 1); (24, 1, 1); (25, 3, 0); (28, 2, 2);
       (30, 2, SQ_RSRC_BUF)]) word
  else if major =? 11 then
    fields (srd_dst_sel ++
      [(12, 6, BUF_FORMAT_32_UINT); (18, 3, 0); (21, 2, 0); (23, 1, 1); (24, 4, 0); (28, 2, 2); (30, 2, SQ_RSRC_BUF)]) word
  else
    fields (srd_dst_sel ++
      [(12, 6, BUF_FORMAT_32_UINT); (18, 3, 0); (21, 2, 0); (23, 1, 1); (24, 1, 0); (25, 1, 0); (26, 2, 0); (28, 2, 2);
       (30, 2, SQ_RSRC_BUF)]) word.

(** The bits of [COMPUTE_TMPRING_SIZE] between its fields keep what was there. *)
Definition tmpring_size (major size_per_wave waves shader_engines word : Z) : Z :=
  if major <? 11 then fields [(12, 13, size_per_wave / 1024); (0, 12, waves)] word
  else if major =? 11 then fields [(12, 15, Z.shiftr size_per_wave 8); (0, 12, waves / shader_engines)] word
  else fields [(12, 18, Z.shiftr size_per_wave 8); (0, 12, waves / shader_engines)] 0.

(** [SQ_BUF_RSRC_WORD3_GFX10], [_GFX11] and [_GFX12] have [INDEX_STRIDE] in one place. *)
Definition UpdateIndexStride (major srd : Z) (wave32 : bool) : option Z :=
  check (major <? 13) ;;
  Some (if (major =? 10) || (major =? 11) || (major =? 12) then bf_set 21 2 (if wave32 then 2 else 3) srd else srd).

Section compute.
Context {K : Type} `{Kernel K}.
Context (QueueEngine2EngineFlag : Z -> Z).

Definition queue_dev : QM K WDDMDevice := b ← qget cq_base; lift (get_dev (q_device b)).
Definition Major : QM K Z := d ← queue_dev; mret (sd_Major (shared_dev_ d)).

(** ** Errors *)

(** [QueueErrors] *)
Definition QueueErrors : list (Z * Z) :=
  [(2, HSA_STATUS_ERROR_INCOMPATIBLE_ARGUMENTS); (4, HSA_STATUS_ERROR_INVALID_ALLOCATION);
   (8, HSA_STATUS_ERROR_INVALID_CODE_OBJECT); (32, HSA_STATUS_ERROR_INVALID_PACKET_FORMAT);
   (64, HSA_STATUS_ERROR_INVALID_ARGUMENT); (0x80000000, HSA_STATUS_ERROR_EXCEPTION)].

Definition queue_error_value (status : Z) : Z :=
  default (-1) (fst <$> head (filter (fun e => e.2 = status) QueueErrors)).

Definition HandleError (status : Z) : QM K unit :=
  c ← qget cq_config;
  sig ← load64 (qc_amd_queue_rocr c + queue_inactive_signal_offset);
  let val := queue_error_value status in
  (if sig =? 0 then mret tt else qcall (hsa_signal_store_screlease sig val)) ;;
  (if qc_error_code c =? 0 then mret tt else qcall (store_u64 (qc_error_code c) (u64 val))).

(** ** Scratch memory *)

Definition InitScratchSRD : QM K unit :=
  d ← queue_dev;
  c ← qget cq_config;
  s ← qget cq_scratch;
  let major := sd_Major (shared_dev_ d) in
  let base := scratch_base_ s in
  u1 ← qcall uninitialized_u32;
  u3 ← qcall uninitialized_u32;
  ut ← qcall uninitialized_u32;
  qassert ((major <? 11) || negb (sd_NumShaderEngine (shared_dev_ d) =? 0)) ;;
  qmod (set_scratch (mkScratchState (scratch_size_per_wave_ s) (scratch_size_ s) base (scratch_mem_ s)
    (mkAmdQueue
       (tmpring_size major (scratch_size_per_wave_ s) (qc_scratch_waves c) (sd_NumShaderEngine (shared_dev_ d)) (u32 ut))
       [u32 base; srd_word1 major base (u32 u1); scratch_size_ s; srd_word3 major (u32 u3)]
       base (scratch_size_per_wave_ s / 64)))).

(** The request for scratch memory and for the command buffers: no flags. *)
Definition plain_create_info (domain : AllocDomain) (size : Z) : GpuMemoryCreateInfo :=
  mkCreateInfo 0 domain size 0 0 0 (-1) 0 0.

Definition UpdateScratch (private_segment_size : Z) (wave32 : bool) : QM K bool :=
  b ← qget cq_base;
  c ← qget cq_config;
  s ← qget cq_scratch;
  let wavefront := if wave32 then 32 else 64 in
  let private_segment_size := AlignUp 32 private_segment_size (1024 / wavefront) in
  let per_wave := u32 (private_segment_size * wavefront) in
  let scratch_size := u32 (per_wave * qc_scratch_waves c) in
  (if UINT32_MAX <? per_wave * qc_scratch_waves c then HandleError HSA_STATUS_ERROR_INVALID_ARGUMENT else mret tt) ;;
  if scratch_size <=? scratch_size_ s then mret true
  else
    '(code, mem, _) ← lift (CreateGpuMemory (q_device b) (plain_create_info kLocal scratch_size) 0);
    if ErrorCode_ok code then
      (if scratch_base_ s =? 0 then mret tt else lift (GpuMemory_delete (scratch_mem_ s))) ;;
      p ← lift (mderef mem);
      g ← lift (get_mem p);
      qmod (set_scratch (mkScratchState per_wave scratch_size (GpuAddress g) p (amd_queue_ s))) ;;
      InitScratchSRD ;;
      mret true
    else mret false.

(** Write the scratch address into the packets that need it. *)
Fixpoint relocate_loop (major base addr : Z) (offsets : list Z) : QM K unit :=
  match offsets with
  | [] => mret tt
  | o :: offsets =>
      (if 11 <=? major then
         lo ← qopt (Ptr48Low32 base); qcall (store_dwords (addr + o) [lo; Ptr48High8 base])
       else
         qcall (store_dwords (addr + o) [PtrLow32 base]) ;;
         hi ← load32 (addr + o + 4);
         qcall (store_dwords (addr + o + 4) [Z.lor (Z.land hi 0xffff0000) (PtrHigh32 base)])) ;;
      relocate_loop major base addr offsets
  end.

Definition RelocateCmdbufScratchBase (addr : Z) : QM K unit :=
  cb ← qget cq_cmdbuf;
  s ← qget cq_scratch;
  major ← Major;
  relocate_loop major (scratch_base_ s) addr (scratch_base_offsets cb) ;;
  mod_cmdbuf (cb_set_offsets []).

Definition AppendCmdbufSratchBaseOffset (offset : Z) : QM K unit :=
  mod_cmdbuf (fun cb => cb_set_offsets (scratch_base_offsets cb ++ [offset]) cb).

(** ** Submission *)

Definition ComputeQueue_Init (b : WDDMQueue) : M K (Z * WDDMQueue) := queue_init QueueEngine2EngineFlag b.

Definition PreSubmit : QM K Z :=
  b ← qget cq_base;
  ok ← lift (WaitPagingFence (q_device b) (q_context b));
  if (ok : bool) then
    cb ← qget cq_cmdbuf; RelocateCmdbufScratchBase (ib_start_addr cb) ;; mret HSA_STATUS_SUCCESS
  else mret HSA_STATUS_ERROR.

Definition EndSubmit : QM K Z :=
  b ← qget cq_base;
  c ← qget cq_config;
  mod_cmdbuf (fun cb =>
    cb_set_ib (q_cmdbuf_addr b +64 (write_index cb mod AqlFrameNum) *64 qc_cmdbuf_aql_frame_size c) 0 (write_index cb) cb) ;;
  mret HSA_STATUS_SUCCESS.

Definition Submit : QM K Z :=
  st ← PreSubmit;
  if negb (st =? 0) then mret HSA_STATUS_ERROR
  else
    b ← qget cq_base;
    cb ← qget cq_cmdbuf;
    st ← lift (queue_submit b (ib_start_addr cb) (ib_size cb) (write_index cb));
    if negb (st =? 0) then mret HSA_STATUS_ERROR
    else
      st ← EndSubmit;
      mret (if negb (st =? 0) then HSA_STATUS_ERROR else HSA_STATUS_SUCCESS).

(** ** From AQL to PM4 *)

Definition packet_addr : QM K Z :=
  c ← qget cq_config;
  cb ← qget cq_cmdbuf;
  qassert (negb (qc_ring_size c =? 0)) ;;
  mret (qc_ring c + (write_index cb mod qc_ring_size c) * 64).

Definition packet_header : QM K Z := a ← packet_addr; l ← load_words a 1; mret (packet_type (bf_get 0 16 (dword l 0))).

Definition IsInvalidPacket : QM K bool := t ← packet_header; mret (t =? HSA_PACKET_TYPE_INVALID).

Definition EnableProfiling : QM K bool :=
  c ← qget cq_config; v ← load32 (qc_amd_queue_rocr c + queue_properties_offset);
  mret (bit AMD_QUEUE_PROPERTIES_ENABLE_PROFILING v).

(** [i += BuildX(cpu + i)], [i] a [uint32_t]. *)
Definition emit (cpu i : Z) (words : list Z) : QM K Z :=
  qcall (store_dwords (cpu + i) words) ;; mret (u32 (i + 4 * Z.of_nat (length words))).

Definition emit_opt (cpu i : Z) (words : option (list Z)) : QM K Z := ws ← qopt words; emit cpu i ws.
Definition emit_if (b : bool) (cpu i : Z) (words : list Z) : QM K Z := if b then emit cpu i words else mret i.

Definition emit_acquire (cpu i major : Z) : QM K Z := emit_opt cpu i (BuildAcquireMem major).

(** [assert(signal->kind == AMD_SIGNAL_KIND_USER)] *)
Definition check_signal (signal : Z) : QM K unit := kind ← load64 signal; qassert (kind =? AMD_SIGNAL_KIND_USER).

(** Decrement the signal's value on the device, or leave it to the host. *)
Definition emit_signal (cpu i signal : Z) : QM K Z :=
  c ← qget cq_config;
  let signal_addr := u64 (signal + signal_value_offset) in
  if qc_platform_atomic_support c then
    emit cpu i (BuildAtomicMem signal_addr TC_OP_ATOMIC_ADD_RTN_64 cache_policy__bypass UINT64_MAX)
  else mod_cmdbuf (cb_set_signal signal_addr) ;; mret i.

(** The packet that moves the ring's read pointer, then the common tail. *)
Definition finish_packet (cpu i packet : Z) : QM K Z :=
  c ← qget cq_config;
  cb ← qget cq_cmdbuf;
  i ← (if qc_platform_atomic_support c then
         emit cpu i (BuildAtomicMem (qc_ring_rptr c) TC_OP_ATOMIC_ADD_RTN_64 cache_policy__stream 1)
       else emit_opt cpu i (BuildWriteData64Command (qc_ring_rptr c) (write_index cb +64 1)));
  if qc_cmdbuf_aql_frame_size c <? i -64 ib_size cb then mret HSA_STATUS_ERROR_OUT_OF_RESOURCES
  else
    mod_cmdbuf (cb_set_filled i (write_index cb +64 1)) ;;
    qcall (store_u16 packet HSA_PACKET_TYPE_INVALID) ;;
    mret HSA_STATUS_SUCCESS.

(** 0 when the address is unknown. *)
Definition GetKernelObjAddr (addr : Z) : QM K Z :=
  code ← lift (get_gpu_mem addr);
  blit ← (if code =? 0 then mret None
          else g ← lift (get_mem code);
               mret (if desc_flag DF_is_blit_kernel_object g then Some (GpuAddress g) else None));
  match blit with
  | Some a => mret a
  | None =>
      r ← qcall (hsa_loader_query_host_address addr);
      mret (if r.1 =? HSA_STATUS_SUCCESS then u64 r.2 else 0)
  end.

Definition scratch_lo_offset : Z := 8.

(** The start time, the barrier, the cache flush and the scratch registers. *)
Definition dispatch_prologue (cpu i major : Z) (p : hsa_kernel_dispatch_packet_t) : QM K Z :=
  cb ← qget cq_cmdbuf;
  let signal := kd_completion_signal p in
  profiling ← (if signal =? 0 then mret false else EnableProfiling);
  i ← emit_if profiling cpu i (BuildCopyClock (u64 (signal + signal_start_ts_offset)));
  i ← emit_if (packet_barrier (kd_header p) && needs_barrier cb) cpu i BuildCsBarrier;
  i ← emit_acquire cpu i major;
  if 11 <=? major then
    s ← qget cq_scratch;
    AppendCmdbufSratchBaseOffset (i + scratch_lo_offset) ;;
    i ← emit_opt cpu i (BuildScratch (scratch_base_ s));
    emit cpu i BuildComputeShaderParams
  else mret i.

Definition dispatch_info (major packet : Z) (p : hsa_kernel_dispatch_packet_t) (entry : Z)
    (kernel_object : amd_kernel_code_t) (wave32 : bool) (srd : Z) (c : QueueConfig) (s : ScratchState) : DispatchInfo :=
  mkDispatchInfo major packet p entry kernel_object (LdsBlocks p) (qc_amd_queue c) (amd_queue_ s) wave32 srd
    (scratch_base_ s) (scratch_size_per_wave_ s).

(** The dispatch template and the places of the scratch address in it. *)
Definition emit_dispatch (cpu i : Z) (info : DispatchInfo) : QM K Z :=
  '(words, offsets) ← qopt (BuildDispatch info);
  i' ← emit cpu i words;
  mod_cmdbuf (fun cb => cb_set_offsets (scratch_base_offsets cb ++ ((fun o => i + o) <$> offsets)) cb) ;;
  mret i'.

(** The end of the kernel, its time, the cache flush and the signal. *)
Definition dispatch_completion (cpu i major signal : Z) : QM K Z :=
  if signal =? 0 then mret i
  else
    i ← emit_if true cpu i BuildCsBarrier;
    profiling ← EnableProfiling;
    i ← emit_if profiling cpu i (BuildCopyClock (u64 (signal + signal_end_ts_offset)));
    i ← emit_acquire cpu i major;
    check_signal signal ;;
    emit_signal cpu i signal.

Definition KernelDispatchAqlToPm4 (cpu packet : Z) : QM K Z :=
  l ← load_words packet 16;
  let p := dispatch_packet_of l in
  if (1024 <? kd_workgroup_size_x p) || (1024 <? kd_workgroup_size_y p) || (1024 <? kd_workgroup_size_z p)
  then mret HSA_STATUS_ERROR_INVALID_ARGUMENT
  else
  major ← Major;
  cb ← qget cq_cmdbuf;
  let i := u32 (ib_size cb) in
  ka ← GetKernelObjAddr (kd_kernel_object p);
  if ka =? 0 then mret HSA_STATUS_ERROR_INVALID_CODE_OBJECT
  else
  kl ← load_words ka 64;
  let kernel_object := kernel_code_of kl in
  let entry := u64 (kd_kernel_object p + kc_kernel_code_entry_byte_offset kernel_object) in
  qassert (entry mod 256 =? 0) ;;
  d ← queue_dev;
  if (kd_setup p =? 0) || (3 <? kd_setup p) then mret HSA_STATUS_ERROR_INCOMPATIBLE_ARGUMENTS
  else if sd_LdsSize (shared_dev_ d) <? kd_group_segment_size p then mret HSA_STATUS_ERROR_INVALID_ALLOCATION
  else if 128 <? LdsBlocks p then mret HSA_STATUS_ERROR_INVALID_ARGUMENT
  else
  let wave32 := bit KC_ENABLE_WAVEFRONT_SIZE32 (kc_kernel_code_properties kernel_object) in
  qassert (kc_workitem_private_segment_byte_size kernel_object <=? kd_private_segment_size p) ;;
  UpdateScratch (kd_private_segment_size p) wave32 ;;
  i ← dispatch_prologue cpu i major p;
  s ← qget cq_scratch;
  c ← qget cq_config;
  srd ← qopt (UpdateIndexStride major (dword (aq_scratch_resource_descriptor (amd_queue_ s)) 3) wave32);
  i ← emit_dispatch cpu i (dispatch_info major packet p entry kernel_object wave32 srd c s);
  mod_cmdbuf (cb_set_barrier (kd_completion_signal p =? 0)) ;;
  i ← dispatch_completion cpu i major (kd_completion_signal p);
  finish_packet cpu i packet.

(** Poll the signals every 20 microseconds until one is 0; [None]: not yet, after
    [fuel] rounds. *)
Fixpoint any_signal (sigs : list Z) : QM K bool :=
  match sigs with
  | [] => mret false
  | s :: sigs => v ← qcall (hsa_signal_load_relaxed s); if v =? 0 then mret true else any_signal sigs
  end.

Fixpoint wait_any_signal (fuel : nat) (sigs : list Z) : QM K (option unit) :=
  match fuel with
  | O => mret None
  | S fuel =>
      done ← any_signal sigs;
      if (done : bool) then mret (Some tt) else qcall (sleep_us 20) ;; wait_any_signal fuel sigs
  end.

Fixpoint wait_all_signals (sigs : list Z) : QM K unit :=
  match sigs with
  | [] => mret tt
  | s :: sigs => v ← qcall (hsa_signal_wait_relaxed s 0); qassert (v =? 0) ;; wait_all_signals sigs
  end.

(** [None]: still waiting. *)
Definition BarrierGenericAqlToPm4 (fuel : nat) (cpu packet : Z) (is_or : bool) : QM K (option Z) :=
  l ← load_words packet 16;
  let p := barrier_packet_of l in
  let sigs := filter (fun s => s <> 0) (ba_dep_signal p) in
  waited ← (if is_or then (if decide (sigs = []) then mret (Some tt) else wait_any_signal fuel sigs)
            else wait_all_signals sigs ;; mret (Some tt));
  match waited with
  | None => mret None
  | Some _ =>
      major ← Major;
      cb ← qget cq_cmdbuf;
      let i := u32 (ib_size cb) in
      let signal := ba_completion_signal p in
      i ← (if signal =? 0 then mret i
           else
             check_signal signal ;;
             profiling ← EnableProfiling;
             i ← emit_if profiling cpu i (BuildCopyClock (u64 (signal + signal_start_ts_offset)));
             i ← emit_if (needs_barrier cb) cpu i BuildCsBarrier;
             mod_cmdbuf (cb_set_barrier false) ;;
             profiling ← EnableProfiling;
             i ← emit_if profiling cpu i (BuildCopyClock (u64 (signal + signal_end_ts_offset)));
             i ← emit_acquire cpu i major;
             emit_signal cpu i signal);
      st ← finish_packet cpu i packet; mret (Some st)
  end.

Definition AMD_AQL_FORMAT_PM4_IB : Z := 1.

Definition VendorSpecificAqlToPm4 (cpu packet : Z) : QM K Z :=
  l ← load_words packet 16;
  let p := aql_pm4_ib_of l in
  let jump i := dword (ib_jump_cmd p) i in
  qassert (ib_ven_hdr p =? AMD_AQL_FORMAT_PM4_IB) ;;
  qassert (Z.land (Z.shiftr (jump 0%nat) PM4_OPCODE_SHIFT) 0xff =? IT_INDIRECT_BUFFER) ;;
  let pm4_addr := Z.lor (Z.shiftl (jump 2%nat) 32) (Z.ldiff (jump 1%nat) 3) in
  let pm4_size := Z.land (jump 3%nat) 0xfffff in
  let signal := ib_completion_signal p in
  cb ← qget cq_cmdbuf;
  let i := u32 (ib_size cb) in
  rt ← lift get_rt;
  i ← (if negb (vendor_packet_process rt =? 0) then
         major ← Major;
         words ← load_words pm4_addr pm4_size;
         qcall (store_dwords (cpu + i) words) ;;
         let i := u32 (i + pm4_size * 4) in
         if signal =? 0 then mret i
         else
           check_signal signal ;;
           profiling ← EnableProfiling;
           i ← emit_if profiling cpu i (BuildCopyClock (u64 (signal + signal_start_ts_offset)));
           i ← emit cpu i BuildCsBarrier;
           profiling ← EnableProfiling;
           i ← emit_if profiling cpu i (BuildCopyClock (u64 (signal + signal_end_ts_offset)));
           i ← emit_acquire cpu i major;
           emit_signal cpu i signal
       else
         (if signal =? 0 then mret tt else qcall (hsa_signal_store_screlease signal 0)) ;; mret i);
  finish_packet cpu i packet.

(** The statuses of the barrier and vendor packets are not looked at. [None]: still
    waiting for the dependencies of a barrier. *)
Definition SwitchAql2PM4 (fuel : nat) : QM K (option Z) :=
  packet ← packet_addr;
  header ← packet_header;
  cb ← qget cq_cmdbuf;
  let cpu := ib_start_addr cb in
  let ready := mod_cmdbuf (cb_set_ready true) ;; mret (Some HSA_STATUS_SUCCESS) in
  if header =? HSA_PACKET_TYPE_KERNEL_DISPATCH then
    ret ← KernelDispatchAqlToPm4 cpu packet;
    if negb (ret =? HSA_STATUS_SUCCESS) then mret (Some ret)
    else
      l ← load_words packet 16;
      cb ← qget cq_cmdbuf;
      b ← qget cq_base;
      if negb (qword l 14 =? 0) || (write_index cb mod AqlFrameNum =? 0) then ready
      else
        sync ← load64 (q_sync_addr b);
        if sync =? sync_point cb then ready else mret (Some HSA_STATUS_SUCCESS)
  else if header =? HSA_PACKET_TYPE_BARRIER_AND then
    o ← BarrierGenericAqlToPm4 fuel cpu packet false; match o with None => mret None | Some _ => ready end
  else if header =? HSA_PACKET_TYPE_BARRIER_OR then
    o ← BarrierGenericAqlToPm4 fuel cpu packet true; match o with None => mret None | Some _ => ready end
  else if header =? HSA_PACKET_TYPE_VENDOR_SPECIFIC then VendorSpecificAqlToPm4 cpu packet ;; ready
  else if header =? HSA_PACKET_TYPE_INVALID then qassert false ;; mret (Some HSA_STATUS_SUCCESS)
  else mret (Some HSA_STATUS_ERROR_INVALID_PACKET_FORMAT).

(** ** The worker *)

Definition CpuWait_queue (value : Z) : QM K bool :=
  b ← qget cq_base; lift (CpuWait (q_device b) [q_syncobj b] [value] false).

(** What an iteration of [Process] ends with. *)
Inductive progress :=
  | Continue                     (* go round again *)
  | Return (status : Z)
  | Waiting.                     (* still in the wait of a barrier *)

(** The body of the loop of [Process]. *)
Definition Process_body (fuel : nat) : QM K progress :=
  b ← qget cq_base;
  cb ← qget cq_cmdbuf;
  sync ← load64 (q_sync_addr b);
  ok ← (if sync +64 AqlFrameNum <=? write_index cb
        then CpuWait_queue (write_index cb -64 AqlFrameNum +64 1) else mret true);
  if negb ok then mret (Return HSA_STATUS_ERROR)
  else
  o ← SwitchAql2PM4 fuel;
  match o with
  | None => mret Waiting
  | Some ret =>
      if negb (ret =? HSA_STATUS_SUCCESS) then mret (Return ret)
      else
      cb ← qget cq_cmdbuf;
      if negb (ready_to_submit cb) then mret Continue
      else
      ret ← Submit;
      if negb (ret =? HSA_STATUS_SUCCESS) then mret (Return ret)
      else
      c ← qget cq_config;
      cb ← qget cq_cmdbuf;
      ok ← (if negb (qc_platform_atomic_support c) && negb (signal_addr_ cb =? 0) then
              ok ← CpuWait_queue (write_index cb);
              (if (ok : bool) then qcall (atomic_decrement (signal_addr_ cb)) ;; mod_cmdbuf (cb_set_signal 0) else mret tt) ;;
              mret ok
            else mret true);
      if negb ok then mret (Return HSA_STATUS_ERROR)
      else mod_cmdbuf (cb_set_ready false) ;; mret Continue
  end.

(** The condition of the loop. *)
Definition Process_more : QM K bool :=
  c ← qget cq_config;
  cb ← qget cq_cmdbuf;
  w ← load64 (qc_ring_wptr c);
  if write_index cb <? w then invalid ← IsInvalidPacket; mret (negb invalid) else mret false.

(** [n] rounds at most; [Continue]: not finished by then. *)
Fixpoint Process (fuel n : nat) : QM K progress :=
  match n with
  | O => mret Continue
  | S n =>
      more ← Process_more;
      if (more : bool) then
        r ← Process_body fuel;
        match r with Continue => Process fuel n | _ => mret r end
      else mret (Return HSA_STATUS_SUCCESS)
  end.
End compute.
