(* ===== verification/QueueThread.v ===== *)
(** * QueueThread: the life of a compute queue (src/wddm/queue.cpp)

    Construction, the worker thread [AqlToPm4Thread], the doorbell and destruction.
    The worker is a loop of rounds over the members of the queue and three locals;
    [self] names the queue to the calls on its lock and condition variable. *)

From S2P Require Import Prelude.
From S2P Require Import StdMap.
From S2P Require Import BitField.
From S2P Require Import Utils.
From S2P Require Import Status.
From S2P Require Import World.
From S2P Require Import Runtime.
From S2P Require Import Device.
From S2P Require Import GpuMemory.
From S2P Require Import Memory.
From S2P Require Import Aql.
From S2P Require Import Queue.
#[local] Open Scope Z_scope.

Section thread.
Context {K : Type} `{Kernel K}.

(** ** The worker *)

Record ThreadState := mkThreadState {
  ts_start_time : Z;             (* in nanoseconds *)
  ts_current_position : Z;
  ts_sleep : bool;
}.

(** [kMaxElapsed] *)
Definition kMaxElapsed : Z := 2000 * 1000000.

Inductive thread_step :=
  | Again (s : ThreadState)      (* go round the loop *)
  | Exit
  | Processing.                  (* the fuel of [Process] ran out *)

(** [Process] when there is a packet, else the clock that lets the thread sleep. *)
Definition thread_process (fuel n : nat) (s : ThreadState) : QM K thread_step :=
  invalid ← IsInvalidPacket;
  if negb invalid then
    r ← Process fuel n;
    match r with
    | Return status =>
        if negb (status =? HSA_STATUS_SUCCESS) then HandleError status ;; mret Exit
        else mret (Again (mkThreadState (ts_start_time s) (ts_current_position s) false))
    | _ => mret Processing
    end
  else
    cb ← qget cq_cmdbuf;
    time ← qcall steady_clock_now_ns;
    mret (Again (if ts_current_position s =? write_index cb then
                   mkThreadState (ts_start_time s) (ts_current_position s)
                     (if kMaxElapsed <? time - ts_start_time s then true else ts_sleep s)
                 else mkThreadState time (write_index cb) false)).

(** The wait, under the lock. *)
Definition thread_wait (self : Z) (s : ThreadState) : QM K thread_step :=
  c ← qget cq_config;
  wptr ← load64 (qc_ring_wptr c);
  rptr ← load64 (qc_ring_rptr c);
  if (rptr <? wptr) && negb (ts_sleep s) then mret (Again s)
  else
    wptr ← load64 (qc_ring_wptr c);
    rptr ← load64 (qc_ring_rptr c);
    idle ← (if wptr <=? rptr then mret true else if ts_sleep s then IsInvalidPacket else mret false);
    if (idle : bool) then
      stop ← qcall (load_thread_stop self);
      if (stop : bool) then mret Exit else qcall (cond_wait self) ;; mret (Again s)
    else mret (Again s).

Definition thread_round (self : Z) (fuel n : nat) (s : ThreadState) : QM K thread_step :=
  r ← thread_process fuel n s;
  match r with Again s => thread_wait self s | _ => mret r end.

Fixpoint thread_rounds (self : Z) (fuel n m : nat) (s : ThreadState) : QM K thread_step :=
  match m with
  | O => mret (Again s)
  | S m => r ← thread_round self fuel n s; match r with Again s => thread_rounds self fuel n m s | _ => mret r end
  end.

(** [m] rounds of the thread at most. *)
Definition AqlToPm4Thread (self : Z) (fuel n m : nat) : QM K thread_step :=
  cb ← qget cq_cmdbuf;
  start ← qcall steady_clock_now_ns;
  thread_rounds self fuel n m (mkThreadState start (write_index cb) false).

(** The mutex is taken and released, so that a worker between its test and its wait
    is woken. *)
Definition RingDoorbell (self : Z) : M K unit := kcall_ (cond_notify self).

(** ** Construction and destruction *)

Context (QueueEngine2EngineFlag : Z -> Z).

(** [Init] sets [ib_start_addr], [cmdbuf_aql_frame_size] and
    [platform_atomic_support_] from the command buffer and the device. *)
Definition ComputeQueue_build (d : WDDMDevice) (device : nat)
    (ring ring_size ring_wptr ring_rptr error_addr cmdbuf_size engine : Z) (use_hws : bool) : M K ComputeQueue :=
  let sd := shared_dev_ d in
  let scratch_waves := u32 (sd_MaxScratchSlotsPerCu sd * sd_ComputeUnitCount sd) in
  '(ret, base) ← CreateQueue (ComputeQueue_Init QueueEngine2EngineFlag) (WDDMQueue_new device 0 cmdbuf_size engine use_hws);
  massert ret ;;
  rt ← get_rt;
  '(code, mem, _) ← CreateGpuMemory device (plain_create_info kSystem (page_size rt)) 0;
  massert (ErrorCode_ok code) ;;
  p ← mderef mem;
  g ← get_mem p;
  words ← kcall_ (load_dwords (GpuAddress g) 45);
  mret (mkComputeQueue base
    (mkQueueConfig ring ring_size ring_wptr ring_rptr error_addr p (GpuAddress g)
       (u64 (ring_rptr - read_dispatch_id_offset)) (cmdbuf_aql_frame_size_ d) (sd_SupportPlatformAtomic sd) scratch_waves)
    (mkCmdbufState (q_cmdbuf_addr base) 0 0 0 true false 0 [])
    (mkScratchState 0 0 0 0 (amd_queue_of (u32 <$> words)))).

Definition ComputeQueue_new (device : nat) (ring ring_size ring_wptr ring_rptr error_addr cmdbuf_size engine : Z)
    (use_hws : bool) : M K ComputeQueue :=
  d ← get_dev device;
  ComputeQueue_build d device ring ring_size ring_wptr ring_rptr error_addr cmdbuf_size engine use_hws.

(** The thread is stopped and joined first. *)
Definition ComputeQueue_delete (self : Z) (q : ComputeQueue) : M K unit :=
  kcall_ (store_thread_stop self) ;;
  kcall_ (cond_notify self) ;;
  kcall_ (thread_join self) ;;
  DestroyQueue queue_fini (cq_base q) ;;
  (if scratch_base_ (cq_scratch q) =? 0 then mret tt else GpuMemory_delete (scratch_mem_ (cq_scratch q))) ;;
  GpuMemory_delete (qc_amd_queue_mem (cq_config q)).
End thread.
