(* ===== verification/Sdma.v ===== *)
(** * Sdma: the SDMA queue (src/wddm/queue.cpp, impl/wddm/queue.h)

    The application writes SDMA packets into the queue's buffer, moves [wptr_next_] and
    rings the doorbell; each ring queues the range of bytes since the last one, and a
    worker thread takes the ranges, waits on the host for the polls a range starts
    with, and submits it. [wptr_next_] is written by the application through the
    pointer it was given, so the members are explicit and the doorbell is split at the
    points where that can happen. *)

From S2P Require Import Prelude.
From S2P Require Import StdMap.
From S2P Require Import BitField.
From S2P Require Import Utils.
From S2P Require Import Status.
From S2P Require Import World.
From S2P Require Import Runtime.
From S2P Require Import Device.
From S2P Require Import GpuMemory.
From S2P Require Import Memory.
From S2P Require Import Aql.
From S2P Require Import Queue.
#[local] Open Scope Z_scope.

Record SDMAQueue := mkSDMAQueue {
  sq_base : WDDMQueue;
  wptr_next_ : Z;
  wptr_pre_ : Z;
  rptr_next : Z;
  wptr_queue_ : list (Z * Z);
  sq_ib_size : Z;
  sq_ib_start_addr : Z;
}.

Definition sq_set_wptr_next (v : Z) (q : SDMAQueue) : SDMAQueue :=
  mkSDMAQueue (sq_base q) v (wptr_pre_ q) (rptr_next q) (wptr_queue_ q) (sq_ib_size q) (sq_ib_start_addr q).
Definition sq_set_wptr_pre (v : Z) (q : SDMAQueue) : SDMAQueue :=
  mkSDMAQueue (sq_base q) (wptr_next_ q) v (rptr_next q) (wptr_queue_ q) (sq_ib_size q) (sq_ib_start_addr q).
Definition sq_set_wptr_queue (l : list (Z * Z)) (q : SDMAQueue) : SDMAQueue :=
  mkSDMAQueue (sq_base q) (wptr_next_ q) (wptr_pre_ q) (rptr_next q) l (sq_ib_size q) (sq_ib_start_addr q).
Definition sq_set_ib (start size rptr : Z) (q : SDMAQueue) : SDMAQueue :=
  mkSDMAQueue (sq_base q) (wptr_next_ q) (wptr_pre_ q) rptr (wptr_queue_ q) size start.

(** ** The doorbell *)

(** Under the lock: queue the range. *)
Definition RingDoorbell_push (q : SDMAQueue) : SDMAQueue :=
  sq_set_wptr_queue (wptr_queue_ q ++ [(wptr_pre_ q, wptr_next_ q)]) q.
(** After it: remember how far. *)
Definition RingDoorbell_update (q : SDMAQueue) : SDMAQueue := sq_set_wptr_pre (wptr_next_ q) q.

Definition SDMA_RingDoorbell (q : SDMAQueue) : SDMAQueue := RingDoorbell_update (RingDoorbell_push q).

(** Under the lock: [pendings.swap(wptr_queue_)]. *)
Definition take_pendings (q : SDMAQueue) : list (Z * Z) * SDMAQueue := (wptr_queue_ q, sq_set_wptr_queue [] q).

(** ** The packets the host polls *)

Definition SDMA_OP_POLL_REGMEM : Z := 8.
(** [sizeof(SDMA_PKT_POLL_REGMEM)] *)
Definition POLL_REGMEM_SIZE : Z := 24.

Record SDMA_PKT_POLL_REGMEM := mkPollRegmem {
  pr_op : Z;
  pr_func : Z;
  pr_mem_poll : Z;
  pr_addr_31_0 : Z;
  pr_addr_63_32 : Z;
  pr_value : Z;
}.

Definition poll_packet_of (l : list Z) : SDMA_PKT_POLL_REGMEM :=
  mkPollRegmem (bf_get 0 8 (dword l 0)) (bf_get 28 3 (dword l 0)) (bf_get 31 1 (dword l 0))
    (dword l 1) (dword l 2) (dword l 3).

Definition IsPollPacket (p : SDMA_PKT_POLL_REGMEM) : bool :=
  (pr_op p =? SDMA_OP_POLL_REGMEM) && (pr_mem_poll p =? 1) && (pr_func p =? 3).

Definition poll_addr (p : SDMA_PKT_POLL_REGMEM) : Z := Z.lor (pr_addr_31_0 p) (Z.shiftl (pr_addr_63_32 p) 32).

(** What a poll packet and the one after it wait for: the two halves of a 64-bit
    signal value make one wait, high half first. *)
Definition poll_of (p next : SDMA_PKT_POLL_REGMEM) : Z * Z * Z :=
  if IsPollPacket next && (u64 (poll_addr next + 4) =? poll_addr p)
  then (poll_addr next, Z.lor (pr_value next) (Z.shiftl (pr_value p) 32), 2)
  else (poll_addr p, pr_value p, 1).

(** [cmdbuf_size] is the size of the ring, a power of two. *)
Definition WrapIntoRocrRing (q : SDMAQueue) (idx : Z) : Z := u32 (Z.land idx (u32 (q_cmdbuf_size (sq_base q) - 1))).

Section sdma.
Context {K : Type} `{Kernel K}.

Definition load_poll (addr : Z) : M K SDMA_PKT_POLL_REGMEM :=
  l ← kcall_ (load_dwords addr 6); mret (poll_packet_of (u32 <$> l)).

(** The loop over the poll packets at [poll_pkt]; [false] when the fuel ran out. *)
Fixpoint poll_loop (fuel : nat) (poll_pkt : Z) : M K bool :=
  match fuel with
  | O => mret false
  | S fuel =>
      p ← load_poll poll_pkt;
      if negb (IsPollPacket p) then mret true
      else
        next ← load_poll (poll_pkt + POLL_REGMEM_SIZE);
        let '(addr, val, skip) := poll_of p next in
        value ← kcall_ (hsa_signal_wait_relaxed (u64 (addr - signal_value_offset)) val);
        massert (u64 value =? val) ;;
        kcall_ (clear_bytes poll_pkt (skip * POLL_REGMEM_SIZE)) ;;
        poll_loop fuel (poll_pkt + skip * POLL_REGMEM_SIZE)
  end.

(** ** Submission *)

Definition PreparePacket (offset size : Z) (q : SDMAQueue) : SDMAQueue :=
  sq_set_ib (u64 (q_cmdbuf_addr (sq_base q) + offset)) size (rptr_next q +64 size) q.

Definition SDMA_Submit (q : SDMAQueue) : M K Z :=
  ok ← WaitPagingFence (q_device (sq_base q)) (q_context (sq_base q));
  if negb ok then mret HSA_STATUS_ERROR
  else
    ret ← queue_submit (sq_base q) (sq_ib_start_addr q) (sq_ib_size q) (rptr_next q);
    mret (if negb (ret =? 0) then HSA_STATUS_ERROR else HSA_STATUS_SUCCESS).

(** One range of [pendings]. The result of [Submit] is not looked at; [None]: still
    polling. *)
Definition process_pending (fuel : nat) (range : Z * Z) (q : SDMAQueue) : M K (option SDMAQueue) :=
  let '(start, end_) := range in
  polled ← poll_loop fuel (u64 (q_cmdbuf_addr (sq_base q) + WrapIntoRocrRing q start));
  if (polled : bool) then
    let q := PreparePacket (WrapIntoRocrRing q start) (end_ -64 start) q in
    SDMA_Submit q ;; mret (Some q)
  else mret None.

(** ** Construction and destruction *)

Context (QueueEngine2EngineFlag : Z -> Z).

(** [Init] clears the buffer. *)
Definition SDMA_Init (b : WDDMQueue) : M K (Z * WDDMQueue) :=
  '(ret, b) ← queue_init QueueEngine2EngineFlag b;
  if negb (ret =? 0) then mret (ret, b)
  else kcall_ (clear_bytes (q_cmdbuf_addr b) (q_cmdbuf_size b)) ;; mret (ret, b).

(** The size is cut to the 32 bits of [cmdbuf_size]. *)
Definition SDMAQueue_new (device : nat) (ring cmdbuf_size engine : Z) (use_hws : bool) : M K SDMAQueue :=
  '(ret, base) ← CreateQueue SDMA_Init (WDDMQueue_new device ring (u32 cmdbuf_size) engine use_hws);
  massert ret ;;
  mret (mkSDMAQueue base 0 0 0 [] 0 0).

Definition SDMAQueue_delete (self : Z) (q : SDMAQueue) : M K unit :=
  kcall_ (store_thread_stop self) ;;
  kcall_ (cond_notify self) ;;
  kcall_ (thread_join self) ;;
  DestroyQueue queue_fini (sq_base q).

(** [WaitQueue] *)
Definition WaitQueue (q : SDMAQueue) : M K bool :=
  CpuWait (q_device (sq_base q)) [q_syncobj (sq_base q)] [rptr_next q] false.
End sdma.

(** ** The queue and its users *)

(** The submissions to the hardware queue [h] in a log: address, length and fence. *)
Definition as_submit_to (h : Z) (e : kevent) : option (Z * Z * Z) :=
  match e with
  | KEvent c r =>
      match c in kcall R return R -> option (Z * Z * Z) with
      | D3DKMTSubmitCommandToHwQueue queue fence addr len => fun _ => if queue =? h then Some (addr, len, fence) else None
      | _ => fun _ => None
      end r
  end.
Definition submits_to (h : Z) (evs : list kevent) : list (Z * Z * Z) := omap (as_submit_to h) evs.

(** Where the worker is: waiting for a range, with ranges taken, or stopped. *)
Inductive sdma_pc :=
  | Idle
  | Working (pendings : list (Z * Z))
  | Stopped.

(** The application, the thread that rings the doorbell and the worker share the
    queue; [st_ringing] is between the two halves of the doorbell, and [st_rings] are the
    ranges the doorbells have queued so far. Doorbells are rung by one thread at a time. *)
Record SdmaState (K : Type) := mkSdmaState {
  st_queue : SDMAQueue;
  st_ringing : bool;
  st_pc : sdma_pc;
  st_rings : list (Z * Z);
  st_world : World K;
}.
#[global] Arguments mkSdmaState {K}.
#[global] Arguments st_queue {K}.
#[global] Arguments st_ringing {K}.
#[global] Arguments st_pc {K}.
#[global] Arguments st_rings {K}.
#[global] Arguments st_world {K}.

Inductive sdma_step {K} `{Kernel K} : SdmaState K -> SdmaState K -> Prop :=
  (* the application moves the write pointer forward, at any time *)
  | step_write q b pc rs w v : wptr_next_ q <= v ->
      sdma_step (mkSdmaState q b pc rs w) (mkSdmaState (sq_set_wptr_next v q) b pc rs w)
  (* the two reads of the write pointer in the doorbell *)
  | step_push q pc rs w :
      sdma_step (mkSdmaState q false pc rs w)
        (mkSdmaState (RingDoorbell_push q) true pc (rs ++ [(wptr_pre_ q, wptr_next_ q)]) w)
  | step_update q pc rs w :
      sdma_step (mkSdmaState q true pc rs w) (mkSdmaState (RingDoorbell_update q) false pc rs w)
  (* the worker *)
  | step_take q b rs w : wptr_queue_ q <> [] ->
      sdma_step (mkSdmaState q b Idle rs w) (mkSdmaState (take_pendings q).2 b (Working (take_pendings q).1) rs w)
  | step_stop q b rs w : sdma_step (mkSdmaState q b Idle rs w) (mkSdmaState q b Stopped rs w)
  | step_process fuel q b rs w range l q' w' : process_pending fuel range q w = Some (Some q', w') ->
      sdma_step (mkSdmaState q b (Working (range :: l)) rs w) (mkSdmaState q' b (Working l) rs w')
  | step_done q b rs w : sdma_step (mkSdmaState q b (Working []) rs w) (mkSdmaState q b Idle rs w)
  (* anyone else moves the world on, without submissions to this queue *)
  | step_other q b pc rs w w' evs : w_log w' = w_log w ++ evs -> submits_to (q_queue (sq_base q)) evs = [] ->
      sdma_step (mkSdmaState q b pc rs w) (mkSdmaState q b pc rs w').
