(* ===== verification/QueueNew.v ===== *)
(** * QueueNew: what the constructors of the queues leave

    The members a queue keeps from its constructor through [CreateQueue] and the virtual
    [Init], whatever the kernel answers. *)

From S2P Require Import Prelude.
From S2P Require Import StdMap.
From S2P Require Import BitField.
From S2P Require Import Utils.
From S2P Require Import Status.
From S2P Require Import World.
From S2P Require Import Runtime.
From S2P Require Import Device.
From S2P Require Import GpuMemory.
From S2P Require Import Memory.
From S2P Require Import Aql.
From S2P Require Import Queue.
From S2P Require Import QueueThread.
From S2P Require Import Sdma.
#[local] Open Scope Z_scope.

(** The members given to the constructor; the buffer only when one is given. *)
Definition same_queue (q q' : WDDMQueue) : Prop :=
  q_device q' = q_device q /\ q_use_hws q' = q_use_hws q /\ q_engine q' = q_engine q /\
  q_cmdbuf_size q' = q_cmdbuf_size q /\ (q_cmdbuf_addr q <> 0 -> q_cmdbuf_addr q' = q_cmdbuf_addr q).

#[export] Instance same_queue_preorder : PreOrder same_queue.
Proof.
  split; [by repeat split|]. intros q1 q2 q3 (?&?&?&?&Ha1) (?&?&?&?&Ha2). repeat split; try congruence.
  intros Ha. rewrite Ha2; [by apply Ha1|by rewrite Ha1].
Qed.

Lemma same_queue_cmdbuf p a q : q_cmdbuf_addr q = 0 -> same_queue q (with_cmdbuf p a q).
Proof. intros Ha. by repeat split. Qed.

Section new.
Context {K : Type} `{Kernel K}.
Context (QueueEngine2EngineFlag : Z -> Z).

Definition keeps {A} (q : WDDMQueue) (m : M K (A * WDDMQueue)) : Prop := returns (fun r => same_queue q r.2) m.

Lemma queue_init_same q : keeps q (queue_init QueueEngine2EngineFlag q).
Proof. unfold keeps, queue_init, HwsInit, SwsInit. returns; by repeat split. Qed.

Lemma ComputeQueue_Init_same q : keeps q (ComputeQueue_Init QueueEngine2EngineFlag q).
Proof. apply queue_init_same. Qed.

Lemma SDMA_Init_same q : keeps q (SDMA_Init QueueEngine2EngineFlag q).
Proof. eapply returns_bind; [apply queue_init_same|]. intros [ret b] Hb. returns; done. Qed.

Lemma CreateQueue_same init q : (forall q, keeps q (init q)) -> keeps q (CreateQueue init q).
Proof.
  intros Hinit. unfold keeps, CreateQueue. apply returns_any. intros [context|]; [|by apply returns_ret].
  apply (returns_bind (fun r => same_queue q r.2)).
  - destruct (Z.eqb_spec (q_cmdbuf_addr (with_context context q)) 0) as [Ha|Ha]; returns; by repeat split.
  - intros [[ok mem] q1] Hq1. cbn [snd] in Hq1. destruct ok; [|returns; done].
    eapply returns_bind; [apply Hinit|]. intros [st q2] Hq2. returns; cbn [snd] in *; by etrans.
Qed.

(** A queue with nothing taken up yet. *)
Definition fresh (q : ComputeQueue) : Prop :=
  cq_cmdbuf q = mkCmdbufState (q_cmdbuf_addr (cq_base q)) 0 0 0 true false 0 [].

(** A new compute queue is fresh, on the device and the ring it is given. *)
Definition new_compute device d ring ring_size wptr rptr size engine hws (q : ComputeQueue) : Prop :=
  fresh q /\ same_queue (WDDMQueue_new device 0 size engine hws) (cq_base q) /\
  qc_ring (cq_config q) = ring /\ qc_ring_size (cq_config q) = ring_size /\
  qc_ring_wptr (cq_config q) = wptr /\ qc_ring_rptr (cq_config q) = rptr /\
  qc_cmdbuf_aql_frame_size (cq_config q) = cmdbuf_aql_frame_size_ d.

Lemma ComputeQueue_new_fresh device ring ring_size wptr rptr err size engine hws w q w' d :
  w_devs w !! device = Some d ->
  ComputeQueue_new QueueEngine2EngineFlag device ring ring_size wptr rptr err size engine hws w = Some (q, w') ->
  new_compute device d ring ring_size wptr rptr size engine hws q.
Proof.
  intros Hd. unfold ComputeQueue_new. rewrite (M_bind_step _ _ _ _ _ _ d w) by (unfold get_dev; by rewrite Hd).
  assert (returns (new_compute device d ring ring_size wptr rptr size engine hws)
    (ComputeQueue_build QueueEngine2EngineFlag d device ring ring_size wptr rptr err size engine hws)) as Hr; [|apply Hr].
  eapply returns_bind; [apply CreateQueue_same, ComputeQueue_Init_same|]. intros [ret base] Hb. returns. by split_and!.
Qed.

(** A new SDMA queue has nothing to submit and submits from the ring it is given. *)
Definition new_sdma device ring size engine hws (q : SDMAQueue) : Prop :=
  q = mkSDMAQueue (sq_base q) 0 0 0 [] 0 0 /\ same_queue (WDDMQueue_new device ring (u32 size) engine hws) (sq_base q).

Lemma SDMAQueue_new_fresh device ring size engine hws :
  returns (new_sdma device ring size engine hws) (SDMAQueue_new (K := K) QueueEngine2EngineFlag device ring size engine hws).
Proof.
  eapply returns_bind; [apply CreateQueue_same, SDMA_Init_same|]. intros [ret base] Hb. returns. by split.
Qed.
End new.
