(* ===== verification/QueueApi.v ===== *)
(** * QueueApi: the queue entry points (src/queues.cpp)

    A queue id is the address of the queue object. The objects are a table the entry
    points pass on, next to the state of the library; an id that is not in it is the
    use of a dangling pointer. *)

From S2P Require Import Prelude.
From S2P Require Import StdMap.
From S2P Require Import BitField.
From S2P Require Import Utils.
From S2P Require Import Status.
From S2P Require Import World.
From S2P Require Import Runtime.
From S2P Require Import Device.
From S2P Require Import GpuMemory.
From S2P Require Import Memory.
From S2P Require Import Aql.
From S2P Require Import Queue.
From S2P Require Import QueueThread.
From S2P Require Import Sdma.
#[local] Open Scope Z_scope.

(** ** Data *)

Definition HSA_QUEUE_SDMA : Z := 2.
Definition HSA_QUEUE_SDMA_BY_ENG_ID : Z := 6.
Definition HSA_QUEUE_COMPUTE_AQL : Z := 21.
Definition HSA_QUEUE_PRIORITY_MINIMUM : Z := -3.
Definition HSA_QUEUE_PRIORITY_MAXIMUM : Z := 3.

(** A pointer to memory, or to a member of a queue object. *)
Inductive queue_ptr :=
  | PAddr (a : Z)
  | PDoorbell (queue : Z)
  | PWptrNext (queue : Z).

Record HsaQueueResource := mkQueueResource {
  QueueId : Z;
  Queue_DoorBell_aql : queue_ptr;
  Queue_write_ptr_aql : queue_ptr;
  Queue_read_ptr_aql : queue_ptr;
  ErrorReason : Z;
}.

Inductive QueueObj :=
  | ComputeObj (q : ComputeQueue)
  | SdmaObj (q : SDMAQueue).

Record Queues := mkQueues {
  qs_objs : gmap Z QueueObj;
  qs_next : Z;                   (* the next pointer [new] returns *)
}.

Definition qs_add (o : QueueObj) (s : Queues) : Queues := mkQueues (<[qs_next s := o]> (qs_objs s)) (qs_next s + 1).

(** The versions [gfxv] of [HSA_GET_GFX_VERSION_FULL] with 1.5 times the registers. *)
Definition get_vgpr_size_per_cu (gfxv : Z) : Z :=
  if (gfxv =? 0x1100) || (gfxv =? 0x1101) || (gfxv =? 0x1151) || (gfxv =? 0x1200) || (gfxv =? 0x1201)
  then 0x60000 else 0x40000.

(** [GetHsaQueueAddr] *)
Definition GetHsaQueueAddr (o : QueueObj) : Z :=
  match o with
  | ComputeObj q => qc_ring (cq_config q)
  | SdmaObj q => q_cmdbuf_addr (sq_base q)
  end.

Definition priority_ok (p : Z) : bool := (HSA_QUEUE_PRIORITY_MINIMUM <=? p) && (p <=? HSA_QUEUE_PRIORITY_MAXIMUM).

Section api.
Context {K : Type} `{Kernel K}.
Context (QueueEngine2EngineFlag : Z -> Z).

Definition ptr_addr (p : queue_ptr) : M K Z := match p with PAddr a => mret a | _ => abort end.

(** ** Creation *)

Definition create_compute (i : nat) (d : WDDMDevice) (addr size : Z) (res : HsaQueueResource) (s : Queues)
    : M K (HsaQueueResource * Queues) :=
  massert (ErrorReason res =? 0) ;;
  let engine := sd_ComputeEngine (shared_dev_ d) in
  wptr ← ptr_addr (Queue_write_ptr_aql res);
  rptr ← ptr_addr (Queue_read_ptr_aql res);
  q ← ComputeQueue_new QueueEngine2EngineFlag i addr (size / 64) wptr rptr (ErrorReason res)
        (cmdbuf_size_ d) engine (sd_IsHwsEnabled (shared_dev_ d) engine);
  mret (mkQueueResource (qs_next s) (PDoorbell (qs_next s)) (Queue_write_ptr_aql res) (Queue_read_ptr_aql res)
          (ErrorReason res), qs_add (ComputeObj q) s).

(** The engine asked for is not looked at. *)
Definition create_sdma (i : nat) (d : WDDMDevice) (addr size : Z) (res : HsaQueueResource) (s : Queues)
    : M K (HsaQueueResource * Queues) :=
  massert (0 <? sd_NumSdmaEngines (shared_dev_ d)) ;;
  let engine := sd_SdmaEngine (shared_dev_ d) 0 in
  q ← SDMAQueue_new QueueEngine2EngineFlag i addr size engine (sd_IsHwsEnabled (shared_dev_ d) engine);
  mret (mkQueueResource (qs_next s) (PDoorbell (qs_next s)) (PWptrNext (qs_next s))
          (PAddr (q_sync_addr (sq_base q))) (ErrorReason res), qs_add (SdmaObj q) s).

Definition hsaKmtCreateQueueV2 (NodeId Type_ Priority QueueAddress QueueSizeInBytes MetaDataPrefetchSizeInBytes Event : Z)
    (res : HsaQueueResource) (s : Queues) : M K (HSAKMT_STATUS * HsaQueueResource * Queues) :=
  CHECK_DXG_OPEN (fun e => (e, res, s))
  (massert (Event =? 0) ;;
   if negb (priority_ok Priority) then mret (HSAKMT_STATUS_INVALID_PARAMETER, res, s)
   else if negb (MetaDataPrefetchSizeInBytes =? 0) then mret (HSAKMT_STATUS_INVALID_PARAMETER, res, s)
   else
   o ← get_wddmdev NodeId;
   i ← mderef o;
   d ← get_dev i;
   ok ← queue_acquire_buffer QueueAddress;
   if negb ok then mret (HSAKMT_STATUS_INVALID_PARAMETER, res, s)
   else
   '(res, s) ←
     (if Type_ =? HSA_QUEUE_COMPUTE_AQL then create_compute i d QueueAddress QueueSizeInBytes res s
      else if (Type_ =? HSA_QUEUE_SDMA) || (Type_ =? HSA_QUEUE_SDMA_BY_ENG_ID)
      then create_sdma i d QueueAddress QueueSizeInBytes res s
      else abort);
   mret (HSAKMT_STATUS_SUCCESS, res, s)).

Definition hsaKmtCreateQueueExt (NodeId Type_ Priority QueueAddress QueueSizeInBytes Event : Z) (res : HsaQueueResource)
    (s : Queues) : M K (HSAKMT_STATUS * HsaQueueResource * Queues) :=
  hsaKmtCreateQueueV2 NodeId Type_ Priority QueueAddress QueueSizeInBytes 0 Event res s.

Definition hsaKmtCreateQueue (NodeId Type_ Priority QueueAddress QueueSizeInBytes Event : Z) (res : HsaQueueResource)
    (s : Queues) : M K (HSAKMT_STATUS * HsaQueueResource * Queues) :=
  if Type_ =? HSA_QUEUE_SDMA_BY_ENG_ID then mret (HSAKMT_STATUS_ERROR, res, s)
  else hsaKmtCreateQueueExt NodeId Type_ Priority QueueAddress QueueSizeInBytes Event res s.

(** ** The other entry points *)

(** Neither the size nor the priority is changed. *)
Definition hsaKmtUpdateQueue (QueueId_ Priority : Z) : M K HSAKMT_STATUS :=
  CHECK_DXG_OPEN id
  (if negb (priority_ok Priority) then mret HSAKMT_STATUS_INVALID_PARAMETER
   else if QueueId_ =? 0 then mret HSAKMT_STATUS_INVALID_PARAMETER
   else mret HSAKMT_STATUS_SUCCESS).

(** [delete queue_] through the virtual destructor. *)
Definition queue_delete (id : Z) (o : QueueObj) : M K unit :=
  match o with ComputeObj q => ComputeQueue_delete id q | SdmaObj q => SDMAQueue_delete id q end.

(** The object is used before the test of the pointer. *)
Definition hsaKmtDestroyQueue (QueueId_ : Z) (s : Queues) : M K (HSAKMT_STATUS * Queues) :=
  CHECK_DXG_OPEN (fun e => (e, s))
  (o ← mderef (qs_objs s !! QueueId_);
   let addr := GetHsaQueueAddr o in
   if QueueId_ =? 0 then mret (HSAKMT_STATUS_INVALID_PARAMETER, s)
   else
     queue_delete QueueId_ o ;;
     queue_release_buffer addr ;;
     mret (HSAKMT_STATUS_SUCCESS, mkQueues (delete QueueId_ (qs_objs s)) (qs_next s))).

(** Not implemented: the mask is checked for its form. *)
Definition hsaKmtSetQueueCUMask (QueueId_ CUMaskCount QueueCUMask : Z) : M K HSAKMT_STATUS :=
  CHECK_DXG_OPEN id
  (if QueueId_ =? 0 then mret HSAKMT_STATUS_INVALID_PARAMETER
   else if (CUMaskCount =? 0) || (QueueCUMask =? 0) || negb (CUMaskCount mod 32 =? 0)
   then mret HSAKMT_STATUS_INVALID_PARAMETER
   else mret HSAKMT_STATUS_SUCCESS).

(** The asserts fail: not implemented. *)
Definition hsaKmtGetQueueInfo (QueueInfo : Z) : M K HSAKMT_STATUS :=
  CHECK_DXG_OPEN id
  (if QueueInfo =? 0 then mret HSAKMT_STATUS_INVALID_PARAMETER else abort).

Definition hsaKmtSetTrapHandler : M K HSAKMT_STATUS := CHECK_DXG_OPEN id (mret HSAKMT_STATUS_SUCCESS).

Definition hsaKmtAllocQueueGWS (QueueId_ : Z) : M K HSAKMT_STATUS :=
  CHECK_DXG_OPEN id (if QueueId_ =? 0 then mret HSAKMT_STATUS_INVALID_PARAMETER else abort).

Definition hsaKmtQueueRingDoorbell (QueueId_ : Z) (s : Queues) : M K (HSAKMT_STATUS * Queues) :=
  CHECK_DXG_OPEN (fun e => (e, s))
  (if QueueId_ =? 0 then mret (HSAKMT_STATUS_INVALID_PARAMETER, s)
   else
     o ← mderef (qs_objs s !! QueueId_);
     match o with
     | ComputeObj q => RingDoorbell QueueId_ ;; mret (HSAKMT_STATUS_SUCCESS, s)
     | SdmaObj q =>
         kcall_ (cond_notify QueueId_) ;;
         mret (HSAKMT_STATUS_SUCCESS, mkQueues (<[QueueId_ := SdmaObj (SDMA_RingDoorbell q)]> (qs_objs s)) (qs_next s))
     end).
End api.
