(* ===== verification/Sysfs.v ===== *)
(** * Sysfs: the text files of the operating system (src/topology.cpp)

    The parsing behind the topology: the scans of single numbers, words and sizes from
    sysfs, the masks of processors that share a cache, and /proc/cpuinfo. *)

From Stdlib Require Import String Ascii QArith Qround DecimalString.
From S2P Require Import CString.
From S2P Require Import Prelude.
From S2P Require Import StdMap.
From S2P Require Import BitField.
From S2P Require Import Status.
From S2P Require Import World.
From S2P Require Import Runtime.
#[local] Open Scope Z_scope.

(** ** Strings *)

Definition to_decimal (n : Z) : string := NilZero.string_of_int (Z.to_int n).

Fixpoint str_drop (n : nat) (s : string) : string :=
  match n, s with
  | S n, String _ s => str_drop n s
  | _, _ => s
  end.
Fixpoint str_take (n : nat) (s : string) : string :=
  match n, s with
  | S n, String c s => String c (str_take n s)
  | _, _ => EmptyString
  end.

(** [std::getline] until it fails: what follows the last newline only if not empty. *)
Fixpoint split_lines (acc s : string) : list string :=
  match s with
  | EmptyString => if String.eqb acc EmptyString then [] else [acc]
  | String c s => if Ascii.eqb c "010" then acc :: split_lines EmptyString s else split_lines (acc ++ String c EmptyString) s
  end.

(** [strtok(_, ",")] until it returns null. *)
Fixpoint tokens (acc s : string) : list string :=
  match s with
  | EmptyString => if String.eqb acc EmptyString then [] else [acc]
  | String c s =>
      if Ascii.eqb c "," then (if String.eqb acc EmptyString then tokens EmptyString s else acc :: tokens EmptyString s)
      else tokens (acc ++ String c EmptyString) s
  end.

Fixpoint find_char (c : ascii) (s : string) : option nat :=
  match s with
  | EmptyString => None
  | String d s => if Ascii.eqb c d then Some O else S <$> find_char c s
  end.

(** [line.substr(line.find(':') + 2)]: [find] may return [npos], and [substr] throws
    past the end. *)
Definition after_colon (line : string) : option string :=
  let pos := match find_char ":" line with Some i => (i + 2)%nat | None => 1%nat end in
  if (pos <=? String.length line)%nat then Some (str_drop pos line) else None.

(** Digits and what follows them: the number, and whether there was one. *)
Fixpoint scan_digits (acc : Z) (s : string) : Z * string :=
  match s with
  | String c s' =>
      if is_digit c then scan_digits (10 * acc + (Z.of_nat (nat_of_ascii c) - 48)) s' else (acc, s)
  | EmptyString => (acc, s)
  end.
Definition starts_with_digit (s : string) : bool :=
  match s with String c _ => is_digit c | EmptyString => false end.
Definition scan_sign (s : string) : bool * string :=
  match s with
  | String "-" s' => (true, s')
  | String "+" s' => (false, s')
  | _ => (false, s)
  end.

(** The conversion [%u] of scanf: [strtoul] cut to 32 bits. *)
Definition scan_u (s : string) : option (Z * string) :=
  let '(neg, s) := scan_sign (skip_space s) in
  if starts_with_digit s then
    let '(n, s) := scan_digits 0 s in
    let n := Z.min n UINT64_MAX in
    Some (u32 (if neg then - n else n), s)
  else None.

(** The conversion [%s]. *)
Fixpoint scan_word (s : string) : string :=
  match s with
  | String c s' => if is_space c then EmptyString else String c (scan_word s')
  | EmptyString => EmptyString
  end.
Definition scan_s (s : string) : option string :=
  let t := scan_word (skip_space s) in if String.eqb t EmptyString then None else Some t.

(** [std::stoi]: throws without a number, or out of the range of [int]. *)
Definition stoi (s : string) : option Z :=
  let '(neg, s) := scan_sign (skip_space s) in
  if starts_with_digit s then
    let n := (scan_digits 0 s).1 in
    let n := if neg then - n else n in
    if (- 2 ^ 31 <=? n) && (n <? 2 ^ 31) then Some n else None
  else None.

(** [std::stod] on a decimal fraction, as a rational; these files have no exponents. *)
Definition stod (s : string) : option Q :=
  let '(neg, s) := scan_sign (skip_space s) in
  let '(whole, rest) := scan_digits 0 s in
  let '(frac, rest') := match rest with String "." r => scan_digits 0 r | _ => (0, rest) end in
  let places := match rest with String "." r => (String.length r - String.length rest')%nat | _ => O end in
  if starts_with_digit s || negb (Nat.eqb places 0) then
    let den := 10 ^ Z.of_nat places in
    let n := whole * den + frac in
    Some (Qmake (if neg then - n else n) (Z.to_pos den))
  else None.

Definition hex_digit (c : ascii) : option Z :=
  let n := Z.of_nat (nat_of_ascii c) in
  if (48 <=? n) && (n <=? 57) then Some (n - 48)
  else if (97 <=? n) && (n <=? 102) then Some (n - 87)
  else if (65 <=? n) && (n <=? 70) then Some (n - 55)
  else None.
Fixpoint hex_digits (acc : Z) (s : string) : Z :=
  match s with
  | String c s => match hex_digit c with Some d => hex_digits (16 * acc + d) s | None => acc end
  | EmptyString => acc
  end.
(** [strtol(s, NULL, 16)] on a string without sign or prefix. *)
Definition strtol16 (s : string) : Z := Z.min (hex_digits 0 (skip_space s)) (2 ^ 63 - 1).

(** ** Files with one value *)

(** What [pr_err] and the status report is not looked at by the callers: the value read,
    [None] when there is none and the caller's variable keeps what it held. *)
Definition parse_dec (file : option string) : option Z := s ← file; fst <$> scan_u s.

Definition parse_str (file : option string) : option string := s ← file; scan_s s.

(** A unit that is not known leaves the number alone. *)
Definition parse_size (file : option string) : option Z :=
  s ← file;
  '(n, rest) ← scan_u s;
  Some (match rest with
        | String "K" _ => u32 (Z.shiftl n 10)
        | String "M" _ => u32 (Z.shiftl n 20)
        | String "G" _ => u32 (Z.shiftl n 30)
        | _ => n
        end).

(** ** Processors *)

Record proc_cpuinfo := mkProcCpuinfo {
  apicid : Z;
  model_name : string;     (* at most [HSA_PUBLIC_NAME_SIZE] characters *)
}.

Definition HSA_PUBLIC_NAME_SIZE : Z := 64.
Definition HSA_CPU_SIBLINGS : Z := 256.

Definition GENUINE_INTEL : Z := 0.
Definition AUTHENTIC_AMD : Z := 1.
Definition IBM_POWER : Z := 2.

Definition supported_processor_vendor_name : list string := ["GenuineIntel"; "AuthenticAMD"; EmptyString]%string.

Fixpoint search_vendor (i : Z) (names : list string) (name : string) : Z :=
  match names with
  | [] => -1
  | v :: names =>
      if String.eqb name v then i
      else if String.eqb name "POWER9, altivec supported" then IBM_POWER
      else search_vendor (i + 1) names name
  end.
Definition topology_search_processor_vendor (name : string) : Z := search_vendor 0 supported_processor_vendor_name name.

(** What the lines of /proc/cpuinfo fill in. *)
Record CpuScan := mkCpuScan {
  cs_cpuinfo : list proc_cpuinfo;
  cs_proc : Z;
  cs_vendor : Z;
  cs_freq_max : Q;
}.

Definition cs_update (f : proc_cpuinfo -> proc_cpuinfo) (s : CpuScan) : option CpuScan :=
  (* [cpuinfo\[proc\]] is not checked *)
  c ← cs_cpuinfo s !! Z.to_nat (cs_proc s);
  Some (mkCpuScan (<[Z.to_nat (cs_proc s) := f c]> (cs_cpuinfo s)) (cs_proc s) (cs_vendor s) (cs_freq_max s)).

(** One line; [Some (true, s)] is the early return on a processor with no place. [None]
    is an exception. *)
Definition cpuinfo_line (has_max_freq : bool) (line : string) (s : CpuScan) : option (bool * CpuScan) :=
  if String.eqb (str_take 9 line) "processor" then
    v ← after_colon line; n ← stoi v;
    let proc := u32 n in
    Some (Z.of_nat (length (cs_cpuinfo s)) <=? proc, mkCpuScan (cs_cpuinfo s) proc (cs_vendor s) (cs_freq_max s))
  else if String.eqb (str_take 9 line) "vendor_id" && (cs_vendor s =? -1) then
    v ← after_colon line;
    Some (false, mkCpuScan (cs_cpuinfo s) (cs_proc s) (topology_search_processor_vendor v) (cs_freq_max s))
  else if String.eqb (str_take 10 line) "model name" then
    v ← after_colon line;
    s ← cs_update (fun c => mkProcCpuinfo (apicid c) (str_take (Z.to_nat HSA_PUBLIC_NAME_SIZE) v)) s;
    Some (false, s)
  else if String.eqb (str_take 6 line) "apicid" then
    v ← after_colon line; n ← stoi v;
    s ← cs_update (fun c => mkProcCpuinfo (u32 n) (model_name c)) s;
    Some (false, s)
  else if negb has_max_freq && String.eqb (str_take 7 line) "cpu MHz" then
    v ← after_colon line; f ← stod v;
    Some (false, mkCpuScan (cs_cpuinfo s) (cs_proc s) (cs_vendor s) (if Qle_bool f (cs_freq_max s) then cs_freq_max s else f))
  else Some (false, s).

Fixpoint cpuinfo_lines (has_max_freq : bool) (lines : list string) (s : CpuScan) : option (bool * CpuScan) :=
  match lines with
  | [] => Some (false, s)
  | line :: lines =>
      '(full, s) ← cpuinfo_line has_max_freq line s;
      if (full : bool) then Some (true, s) else cpuinfo_lines has_max_freq lines s
  end.

(** ** Caches *)

Record HsaCacheType := mkCacheType {
  ct_Data : bool;
  ct_Instruction : bool;
  ct_CPU : bool;
  ct_HSACU : bool;
}.

Record HsaCacheProperties := mkCacheProperties {
  ProcessorIdLow : Z;
  CacheLevel : Z;
  CacheSize : Z;
  CacheLineSize : Z;
  CacheLinesPerTag : Z;
  CacheAssociativity : Z;
  CacheType : HsaCacheType;
  SiblingMap : list Z;
}.

Definition cache_zero : HsaCacheProperties :=
  mkCacheProperties 0 0 0 0 0 0 (mkCacheType false false false false) (repeat 0 (Z.to_nat HSA_CPU_SIBLINGS)).

(** The processors of one word of the mask; a processor /proc/cpuinfo has no entry for is
    read all the same. *)
Fixpoint mask_bits (bits : list Z) (mask first : Z) (cpuinfo : list proc_cpuinfo) (map : list Z) : option (list Z) :=
  match bits with
  | [] => Some map
  | bit :: bits =>
      if Z.testbit mask bit then
        c ← cpuinfo !! Z.to_nat (first + bit);
        mask_bits bits mask first cpuinfo
          (if HSA_CPU_SIBLINGS <=? apicid c then map else <[Z.to_nat (apicid c) := 1]> map)
      else mask_bits bits mask first cpuinfo map
  end.

Fixpoint mask_words (num_hexs : nat) (words : list string) (cpuinfo : list proc_cpuinfo) (map : list Z) : option (list Z) :=
  match num_hexs with
  | O => Some map
  | S num_hexs =>
      match words with
      | [] => None     (* [strtol(NULL)] *)
      | x :: words =>
          map ← mask_bits (seqZ 0 32) (u32 (strtol16 x)) (Z.of_nat num_hexs * 32) cpuinfo map;
          mask_words num_hexs words cpuinfo map
      end
  end.

(** [cpumap_to_cpu_ci]: the sibling map, from ["...X3,X2,X1"]. *)
Definition cpumap_to_cpu_ci (shared_cpu_map : string) (cpuinfo : list proc_cpuinfo) (map : list Z) : option (list Z) :=
  mask_words ((String.length shared_cpu_map + 8) / 9) (tokens EmptyString shared_cpu_map) cpuinfo map.

Section sysfs.
Context {K : Type} `{Kernel K}.

(** The entries of a directory whose names start with [prefix]. *)
Definition num_subdirs (dirpath prefix : string) : M K Z :=
  o ← kcall_ (sys_list_dir dirpath);
  mret (match o with
        | None => 0
        | Some l => Z.of_nat (length (filter (fun n =>
            negb (String.eqb n ".") && negb (String.eqb n "..") &&
            String.eqb (str_take (String.length prefix) n) prefix) l))
        end).

(** [snprintf(path, 256, "%s/index%d/...", prefix, idx)] *)
Definition cache_path (prefix : string) (idx : Z) (name : string) : string :=
  str_take 255 (prefix ++ "/index" ++ to_decimal idx ++ "/" ++ name)%string.

Definition read_dec (path : string) (old : Z) : M K Z := f ← kcall_ (sys_read_file path); mret (default old (parse_dec f)).
Definition read_size (path : string) (old : Z) : M K Z := f ← kcall_ (sys_read_file path); mret (default old (parse_size f)).
(** Into [char str\[256\]]. *)
Definition read_str (path old : string) : M K string :=
  f ← kcall_ (sys_read_file path);
  match parse_str f with
  | None => mret old
  | Some s => massert (String.length s <=? 255)%nat ;; mret s
  end.

(** A cache of the processor [proc]: its size, lines and siblings. [id] is its
    processor id. *)
Definition read_cache (prefix : string) (idx id : Z) (cpuinfo : list proc_cpuinfo) : M K HsaCacheProperties :=
  level ← read_dec (cache_path prefix idx "level") 0;
  str ← read_str (cache_path prefix idx "type") EmptyString;
  let unified := String.eqb str "Unified" in
  let ty := mkCacheType (String.eqb str "Data" || unified) (String.eqb str "Instruction" || unified) true false in
  size ← read_size (cache_path prefix idx "size") 0;
  line ← read_dec (cache_path prefix idx "coherency_line_size") 0;
  assoc ← read_dec (cache_path prefix idx "ways_of_associativity") 0;
  tag ← read_dec (cache_path prefix idx "physical_line_partition") 0;
  str ← read_str (cache_path prefix idx "shared_cpu_map") str;
  map ← mderef (cpumap_to_cpu_ci str cpuinfo (repeat 0 (Z.to_nat HSA_CPU_SIBLINGS)));
  mret (mkCacheProperties id level size line tag assoc ty map).

(** The loop of [get_cpu_cache_info] over the indices: a cache is listed with the first
    processor that shares it. [n] keeps what the last read left. *)
Fixpoint cache_indices (ids : list Z) (prefix : string) (cpuinfo : list proc_cpuinfo) (is_power9 : bool) (proc n : Z)
    (cache : list HsaCacheProperties) : M K (list HsaCacheProperties) :=
  match ids with
  | [] => mret cache
  | idx :: ids =>
      if is_power9 then
        if negb (Z.land proc 3 =? 0) then cache_indices ids prefix cpuinfo is_power9 proc n cache
        else c ← read_cache prefix idx 0 cpuinfo; cache_indices ids prefix cpuinfo is_power9 proc n (cache ++ [c])
      else
        n ← read_dec (cache_path prefix idx "shared_cpu_list") n;
        if negb (proc =? n) then cache_indices ids prefix cpuinfo is_power9 proc n cache
        else
          p ← mderef (cpuinfo !! Z.to_nat proc);
          c ← read_cache prefix idx (apicid p) cpuinfo;
          cache_indices ids prefix cpuinfo is_power9 proc n (cache ++ [c])
  end.

Definition is_power9 (vendor : Z) (cpuinfo : list proc_cpuinfo) : M K bool :=
  if vendor =? IBM_POWER then c ← mderef (head cpuinfo); mret (String.eqb (model_name c) "POWER9") else mret false.

(** The caches with those of a processor added, and how many were. *)
Definition get_cpu_cache_info (prefix : string) (vendor : Z) (cpuinfo : list proc_cpuinfo) (num_caches proc : Z)
    (cache : list HsaCacheProperties) : M K (Z * list HsaCacheProperties) :=
  power9 ← is_power9 vendor cpuinfo;
  n ← kcall_ uninitialized_u32;
  cache' ← cache_indices (seqZ 0 num_caches) prefix cpuinfo power9 proc n cache;
  mret (Z.of_nat (length cache') - Z.of_nat (length cache), cache').

Definition MAXPATHSIZE : nat := 545.

(** The loop over the entries [cpuY] of a node's directory: the caches counted, the
    caches, and whether it went to the end. *)
Fixpoint cpu_dirs (names : list string) (node_dir : string) (vendor : Z) (cpuinfo : list proc_cpuinfo) (cnt : Z)
    (cache : list HsaCacheProperties) : M K (bool * Z * list HsaCacheProperties) :=
  match names with
  | [] => mret (true, cnt, cache)
  | name :: names =>
      if negb (String.eqb (str_take 3 name) "cpu") || negb (starts_with_digit (str_drop 3 name))
      then cpu_dirs names node_dir vendor cpuinfo cnt cache
      else if (String.length node_dir + String.length name + 8 <? MAXPATHSIZE)%nat then
        let path := (node_dir ++ "/" ++ name ++ "/cache")%string in
        num ← num_subdirs path "index";
        '(k, cache) ← get_cpu_cache_info path vendor cpuinfo num (atoi (str_drop 3 name)) cache;
        cpu_dirs names node_dir vendor cpuinfo (cnt + k) cache
      else mret (false, cnt, cache)
  end.

(** [topology_get_cpu_cache_props]: the status, the caches, and [NumCaches] when it is
    set. *)
Definition topology_get_cpu_cache_props (node vendor : Z) (cpuinfo : list proc_cpuinfo) (cache : list HsaCacheProperties)
    : M K (HSAKMT_STATUS * list HsaCacheProperties * option Z) :=
  power9 ← is_power9 vendor cpuinfo;
  let node_real := if (power9 : bool) then node * 8 else node in
  let node_dir := ("/sys/devices/system/node/node" ++ to_decimal node_real)%string in
  max_cpus ← num_subdirs node_dir "cpu";
  dir ← (if 0 <? max_cpus then mret (Some node_dir)
         else if negb (node =? 0) then mret None
         else
           let node_dir := "/sys/devices/system/cpu"%string in
           max_cpus ← num_subdirs node_dir "cpu";
           mret (if 0 <? max_cpus then Some node_dir else None));
  match dir with
  | None => mret (HSAKMT_STATUS_ERROR, cache, None)
  | Some node_dir =>
      o ← kcall_ (sys_list_dir node_dir);
      names ← mderef o;
      '(done, cnt, cache) ← cpu_dirs names node_dir vendor cpuinfo 0 cache;
      if (done : bool) then
        massert (cnt =? Z.of_nat (length cache)) ;;
        mret (HSAKMT_STATUS_SUCCESS, cache, Some cnt)
      else mret (HSAKMT_STATUS_SUCCESS, cache, None)
  end.

(** [topology_parse_cpuinfo]: what it leaves in [cpuinfo], the vendor and the frequency.
    Its status is not looked at. *)
Definition topology_parse_cpuinfo (num_procs vendor : Z) (freq_max : Q) : M K (list proc_cpuinfo * Z * Q) :=
  let cpuinfo := repeat (mkProcCpuinfo 0 EmptyString) (Z.to_nat num_procs) in
  max ← kcall_ (sys_read_file "/sys/devices/system/cpu/cpu0/cpufreq/cpuinfo_max_freq");
  freq ← (match max with
          | None => mret freq_max
          | Some s =>
              (* the first line; the kilohertz in whole megahertz *)
              f ← mderef (stod (default EmptyString (head (split_lines EmptyString s))));
              mret (inject_Z (Qfloor (Qdiv f (inject_Z 1000))))
          end);
  file ← kcall_ (sys_read_file "/proc/cpuinfo");
  match file with
  | None => mret (cpuinfo, vendor, freq)
  | Some s =>
      '(full, c) ← mderef (cpuinfo_lines (bool_decide (is_Some max)) (split_lines EmptyString s)
                             (mkCpuScan cpuinfo 0 vendor freq));
      mret (cs_cpuinfo c, if negb full && (cs_vendor c <? 0) then GENUINE_INTEL else cs_vendor c, cs_freq_max c)
  end.
End sysfs.
