(* ===== verification/Platform.v ===== *)
(** * Platform: the adapters of the machine (shared/src/platform.cpp, lda_chain.cpp, device.cpp, utils.cpp)

    The platform asks the driver for its adapters, keeps those with supported devices as
    chains, and lists the devices of every chain. A chain owns a device handle of the
    driver and a context of the proxy library, a device a context of its own. Chains and
    devices are objects with a lifetime, kept by pointer; a use of one that is deleted is
    undefined. *)

From Stdlib Require Import String.
From S2P Require Import Prelude.
From S2P Require Import StdMap.
From S2P Require Import BitField.
From S2P Require Import Status.
From S2P Require Import World.
From S2P Require Import Runtime.
From S2P Require Import Device.
From S2P Require Import Queue.
#[local] Open Scope Z_scope.

(** ** Data *)

Definition MaxDevices : Z := 16.
Definition MaxGpusPerChain : Z := 4.
Definition AMD_VENDOR_ID : Z := 0x1022.
Definition ATI_VENDOR_ID : Z := 0x1002.
Definition intelVendorId : Z := 0x8086.

(** [device_id], [major], [minor] and [stepping]. *)
Definition kGfxipTable : list (Z * Z * Z * Z) :=
  [(0x7448, 11, 0, 0); (0x744C, 11, 0, 0); (0x745E, 11, 0, 0); (0x7449, 11, 0, 0); (0x744a, 11, 0, 0);
   (0x744b, 11, 0, 0); (0x7470, 11, 0, 1); (0x7480, 11, 0, 2); (0x747E, 11, 0, 1); (0x7590, 12, 0, 0);
   (0x7550, 12, 0, 1); (0x7551, 12, 0, 1); (0x150E, 11, 5, 0); (0x1586, 11, 5, 1); (0x1114, 11, 5, 2);
   (0x1900, 11, 0, 3)].

Definition QueryAdapterSupported (device_id : Z) : bool :=
  existsb (fun e => let '(id, _, _, _) := e in device_id =? id) kGfxipTable.

Record LdaChain := mkLdaChain {
  chain_ctx_ : Z;
  lc_adapter_luid_ : LUID;
  adapter_handle_ : Z;
  device_handle_ : Z;
  chained_devices_ : list Z;      (* 0 is [nullptr] *)
}.

(** [Device] of the shared layer, with the answers of its context. *)
Record SharedDevice := mkSharedDevice {
  device_ctx_ : Z;
  lda_chain_ : Z;
  chain_index_ : Z;
  sv_info : DeviceInfo;
}.

Record Platform := mkPlatform {
  lda_chain_list_ : list Z;       (* the first [lda_chain_count_] entries *)
  devices_ : list Z;
  pl_chains : gmap Z LdaChain;    (* the live [LdaChain] objects *)
  pl_devices : gmap Z SharedDevice;
  pl_next : Z;
}.

Definition Platform_new (next : Z) : Platform := mkPlatform [] [] ∅ ∅ next.

Definition pl_set_lists (chains devices : list Z) (p : Platform) : Platform :=
  mkPlatform chains devices (pl_chains p) (pl_devices p) (pl_next p).
Definition pl_set_chains (m : gmap Z LdaChain) (p : Platform) : Platform :=
  mkPlatform (lda_chain_list_ p) (devices_ p) m (pl_devices p) (pl_next p).
Definition pl_set_devices (m : gmap Z SharedDevice) (p : Platform) : Platform :=
  mkPlatform (lda_chain_list_ p) (devices_ p) (pl_chains p) m (pl_next p).
Definition pl_new_chain (c : LdaChain) (p : Platform) : Platform :=
  mkPlatform (lda_chain_list_ p) (devices_ p) (<[pl_next p := c]> (pl_chains p)) (pl_devices p) (pl_next p + 1).
Definition pl_new_device (d : SharedDevice) (p : Platform) : Platform :=
  mkPlatform (lda_chain_list_ p) (devices_ p) (pl_chains p) (<[pl_next p := d]> (pl_devices p)) (pl_next p + 1).

Definition lc_set_handle (h : Z) (c : LdaChain) : LdaChain :=
  mkLdaChain (chain_ctx_ c) (lc_adapter_luid_ c) (adapter_handle_ c) h (chained_devices_ c).
Definition lc_set_chained (i p : Z) (c : LdaChain) : LdaChain :=
  mkLdaChain (chain_ctx_ c) (lc_adapter_luid_ c) (adapter_handle_ c) (device_handle_ c)
    (<[Z.to_nat i := p]> (chained_devices_ c)).

Section platform.
Context {K : Type} `{Kernel K}.

Definition get_chain (p : Platform) (c : Z) : M K LdaChain := mderef (pl_chains p !! c).
Definition get_shared (p : Platform) (d : Z) : M K SharedDevice := mderef (pl_devices p !! d).

(** ** Destruction *)

(** [~Device] *)
Definition Device_delete (d : Z) (p : Platform) : M K Platform :=
  s ← get_shared p d;
  kcall_ (DeviceContext_delete (device_ctx_ s)) ;;
  mret (pl_set_devices (delete d (pl_devices p)) p).

(** [~LdaChain]: its context goes last. *)
Definition LdaChain_delete (c : Z) (p : Platform) : M K Platform :=
  l ← get_chain p c;
  dx_ (D3DKMTDestroyDevice (device_handle_ l)) ;;
  kcall_ (ChainContext_delete (chain_ctx_ l)) ;;
  mret (pl_set_chains (delete c (pl_chains p)) p).

Fixpoint delete_all (del : Z -> Platform -> M K Platform) (l : list Z) (p : Platform) : M K Platform :=
  match l with
  | [] => mret p
  | x :: l => p ← del x p; delete_all del l p
  end.

Definition TearDownDevices (p : Platform) : M K Platform :=
  p ← delete_all Device_delete (devices_ p) p;
  mret (pl_set_lists (lda_chain_list_ p) [] p).

Definition Platform_Destroy (p : Platform) : M K Platform :=
  p ← TearDownDevices p;
  p ← delete_all LdaChain_delete (lda_chain_list_ p) p;
  mret (pl_set_lists [] (devices_ p) p).

(** ** Enumeration *)

(** [Device::Create]: the code and the device. *)
Definition Device_Create (chain chainIndex : Z) (p : Platform) : M K (ErrorCode * Z * Platform) :=
  l ← get_chain p chain;
  '(dctx, info) ← kcall_ (ChainContext_CreateDevice (chain_ctx_ l) (device_handle_ l) chainIndex);
  if dctx =? 0 then mret (InitializationFailed, 0, p)
  else
    ok ← kcall_ (DeviceContext_IsWddm2Supported dctx);
    if negb ok then kcall_ (DeviceContext_delete dctx) ;; mret (InitializationFailed, 0, p)
    else mret (Success, pl_next p, pl_new_device (mkSharedDevice dctx chain chainIndex info) p).

(** One device of a chain. The result of [Device::Init] is not looked at.
    [chained_devices_] has [MaxGpusPerChain] places. *)
Definition query_gpu (chain chain_index : Z) (p : Platform) : M K (ErrorCode * Platform) :=
  l ← get_chain p chain;
  vendor ← kcall_ (ChainContext_VendorId (chain_ctx_ l) chain_index);
  if vendor =? ATI_VENDOR_ID then
    massert (chain_index <? MaxGpusPerChain) ;;
    '(code, d, p) ← Device_Create chain chain_index p;
    if ErrorCode_ok code then
      let p := pl_set_chains (alter (lc_set_chained chain_index d) chain (pl_chains p)) p in
      let p := pl_set_lists (lda_chain_list_ p) (devices_ p ++ [d]) p in
      s ← get_shared p d;
      kcall_ (DeviceContext_Init (device_ctx_ s)) ;;
      mret (code, p)
    else mret (code, p)
  else mret (UnSupported, p).

(** The loop over them, from [chain_index] on. *)
Fixpoint query_linked (fuel : nat) (chain chain_index : Z) (code : ErrorCode) (p : Platform) : M K (ErrorCode * Platform) :=
  l ← get_chain p chain;
  n ← kcall_ (ChainContext_NumChainedGpus (chain_ctx_ l));
  if (chain_index <? n) && ErrorCode_ok code then
    match fuel with
    | O => abort
    | S fuel =>
        if MaxDevices <=? Z.of_nat (length (devices_ p)) then mret (InitializationFailed, p)
        else
          '(code, p) ← query_gpu chain chain_index p;
          query_linked fuel chain (chain_index + 1) code p
    end
  else mret (code, p).

(** A fifth device of a chain has no place, so five rounds are enough. *)
Definition QueryLinkedGpusInChain (chain : Z) (disableGpuTimeout : bool) (p : Platform) : M K (ErrorCode * Platform) :=
  l ← get_chain p chain;
  r ← dx (D3DKMTCreateDevice (adapter_handle_ l) disableGpuTimeout);
  if negb (ErrorCode_ok r.1) then mret (r.1, p)
  else
    let p := pl_set_chains (alter (lc_set_handle r.2) chain (pl_chains p)) p in
    qaiCode ← kcall_ (ChainContext_QueryAdapterInfo (chain_ctx_ l));
    if negb (ErrorCode_ok qaiCode) then mret (qaiCode, p)
    else query_linked 5 chain 0 Success p.

(** Are all [Count] devices of an adapter ones the library knows? *)
Fixpoint check_devices (ids : list Z) (adapter : Z) : M K ErrorCode :=
  match ids with
  | [] => mret Success
  | i :: ids =>
      r ← dx (D3DKMTQueryAdapterInfo_DeviceIds adapter i);
      if negb (ErrorCode_ok r.1) then mret r.1
      else
        let '(vendorId, deviceId) := r.2 in
        if negb (vendorId =? AMD_VENDOR_ID) && negb (vendorId =? ATI_VENDOR_ID) && negb (vendorId =? intelVendorId)
        then mret IncompatibleDevice
        else if ((vendorId =? AMD_VENDOR_ID) || (vendorId =? ATI_VENDOR_ID)) && negb (QueryAdapterSupported deviceId)
        then mret IncompatibleDevice
        else check_devices ids adapter
  end.

Definition queryLinkedDevicesInLdaChain (adapter : Z) (luid : LUID) (p : Platform) : M K (ErrorCode * Platform) :=
  r ← dx (D3DKMTQueryAdapterInfo_PhysicalAdapterCount adapter);
  code ← (if ErrorCode_ok r.1 then check_devices (seqZ 0 r.2) adapter else mret r.1);
  if negb (ErrorCode_ok code) then mret (code, p)
  else if MaxDevices <=? Z.of_nat (length (lda_chain_list_ p)) then mret (InitializationFailed, p)
  else
    ctx ← kcall_ (ChainContext_Create adapter luid);
    if ctx =? 0 then mret (InitializationFailed, p)
    else
      let chain := pl_next p in
      let p := pl_new_chain (mkLdaChain ctx luid adapter 0 (repeat 0 (Z.to_nat MaxGpusPerChain))) p in
      '(code, p) ← QueryLinkedGpusInChain chain false p;
      if ErrorCode_ok code then mret (code, pl_set_lists (lda_chain_list_ p ++ [chain]) (devices_ p) p)
      else p ← LdaChain_delete chain p; mret (code, p).

(** The loop over the adapters; the code is the last one's. *)
Fixpoint query_adapters (infos : list (option (Z * LUID))) (code : ErrorCode) (p : Platform) : M K (ErrorCode * Platform) :=
  match infos with
  | [] => mret (code, p)
  | o :: infos =>
      '(adapter, luid) ← mderef o;
      '(code, p) ← queryLinkedDevicesInLdaChain adapter luid p;
      query_adapters infos code p
  end.

(** [infos] has as many entries as the first call reports; those the second does not
    write are 0. *)
Definition reQueryDevices (p : Platform) : M K (ErrorCode * Platform) :=
  r ← dx (D3DKMTEnumAdapters2 0);
  if negb (ErrorCode_ok r.1) then mret (r.1, p)
  else
    let n := Z.to_nat r.2.1 in
    r ← dx (D3DKMTEnumAdapters2 r.2.1);
    if negb (ErrorCode_ok r.1) then mret (r.1, p)
    else
      let infos := take n (r.2.2 ++ repeat (0, mkLUID 0 0) n) in
      '(code, p) ← query_adapters ((fun i => infos !! Z.to_nat i) <$> seqZ 0 r.2.1) Success p;
      mret (if 0 <? Z.of_nat (length (lda_chain_list_ p)) then Success else code, p).

Definition ReEnumerateDevices (p : Platform) : M K (ErrorCode * Platform) :=
  p ← Platform_Destroy p;
  '(code, p) ← reQueryDevices p;
  if ErrorCode_ok code then mret (code, p) else p ← Platform_Destroy p; mret (code, p).

(** The code and [devices], left alone on failure. *)
Definition EnumerateDevices (devices : list Z) (p : Platform) : M K (ErrorCode * list Z * Platform) :=
  '(code, p) ← ReEnumerateDevices p;
  mret (code, if ErrorCode_ok code then devices_ p else devices, p).

(** ** The WDDM devices *)

(** What an uninitialised member of a new device holds. *)
Definition garbage : M K Z := kcall_ uninitialized_u32.

(** The constructor of [WDDMDevice], which then is the last of the table. *)
Definition WDDMDevice_new (info : DeviceInfo) (adapter node_id : Z) : M K unit :=
  queue ← garbage; sync ← garbage; addr ← garbage; value ← garbage; frame0 ← garbage;
  w ← mget w_devs;
  mset (set_devs (w ++ [mkWDDMDevice adapter info node_id queue sync addr value 0 frame0 []])) ;;
  let i := length w in
  SetPowerOptimization i false ;;
  CreatePagingQueue i ;;
  d ← get_dev i;
  (let '(frame, size) := InitCmdbufInfo_sizes (sd_Major info) (cmdbuf_aql_frame_size_ d) in
   set_dev i (set_cmdbuf_info size frame d)) ;;
  QuerySegmentInfo i ;;
  mret tt.

(** [~WDDMDevice] *)
Definition WDDMDevice_delete (i : nat) : M K unit :=
  DestroyPagingQueue i ;; SetPowerOptimization i true.

Fixpoint create_devices (l : list Z) (p : Platform) : M K unit :=
  match l with
  | [] => mret tt
  | d :: l =>
      s ← get_shared p d;
      c ← get_chain p (lda_chain_ s);
      n ← get_num_wddmdev;
      WDDMDevice_new (sv_info s) (adapter_handle_ c) (n + 1) ;;
      create_devices l p
  end.

(** Always [STATUS_SUCCESS]. *)
Definition WDDMCreateDevices (p : Platform) : M K Platform :=
  '(code, shared_devices, p) ← EnumerateDevices [] p;
  if negb (ErrorCode_ok code) && bool_decide (shared_devices = []) then mret p
  else create_devices shared_devices p ;; mret p.

Fixpoint delete_devices (l : list nat) : M K unit :=
  match l with [] => mret tt | i :: l => WDDMDevice_delete i ;; delete_devices l end.

(** No device ever has this index: [MaxDevices]. *)
Definition deleted_device : nat := 16.

Definition on_deleted_device (g : GpuMemory) : GpuMemory :=
  mkGpuMemory deleted_device (desc_ g) (num_allocations_ g) (alloc_handles_ptr_ g) (resource_ g) (mem_fd_ g).

(** [for (auto device : wdevices_) delete device; wdevices_.clear()]. A memory object
    that is still there is left with a pointer to a device that is gone. *)
Definition delete_wdevices : M K unit :=
  l ← mget w_devs;
  delete_devices (seq 0 (length l)) ;;
  mset (set_devs []) ;;
  mset (fun w => set_mems (on_deleted_device <$> w_mems w) w).
End platform.
