(* ===== verification/Smi.v ===== *)
(** * Smi: the AMD SMI library (amdsmi/src/amd_smi/amd_smi.cc)

    Initialisation by reference count on top of the loader and the platform, the handles,
    and the queries of a device. A handle is the pointer of a chain or a device, 0 is
    [nullptr]; an output parameter is the object it points to before and after the call,
    [None] for [nullptr]. *)

From Stdlib Require Import String Ascii.
From S2P Require Import Prelude.
From S2P Require Import CString.
From S2P Require Import BitField.
From S2P Require Import Status.
From S2P Require Import SmiStatus.
From S2P Require Import SmiTypes.
From S2P Require Import World.
From S2P Require Import Loader.
From S2P Require Import Platform.
From S2P Require Import Uuid.
#[local] Open Scope Z_scope.

(** The globals of the library. *)
Record Smi := mkSmi {
  init_ref_count : Z;
  sm_loader : DxcoreLoader;
  sm_platform : Platform;
}.

Definition Smi_new (next : Z) : Smi := mkSmi 0 DxcoreLoader_new (Platform_new next).

Definition INT_MAX : Z := 2 ^ 31 - 1.

(** [dst\[0..\]] overwritten with [new]. *)
Definition write_list {A} (new dst : list A) : option (list A) :=
  if (length new <=? length dst)%nat then Some (new ++ drop (length new) dst) else None.

Section smi.
Context {K : Type} `{Kernel K}.

(** ** Initialisation *)

(** [Platform::Init] *)
Definition Platform_Init (p : Platform) : M K (ErrorCode * Platform) := ReEnumerateDevices p.

Definition amdsmi_init (s : Smi) : M K (amdsmi_status_t * Smi) :=
  if 0 <? init_ref_count s then
    massert (init_ref_count s <? INT_MAX) ;;
    mret (AMDSMI_STATUS_SUCCESS, mkSmi (init_ref_count s + 1) (sm_loader s) (sm_platform s))
  else
    '(ok, loader) ← Loader_Initialize (sm_loader s);
    if negb ok then mret (AMDSMI_STATUS_INIT_ERROR, mkSmi (init_ref_count s) loader (sm_platform s))
    else
      '(code, p) ← Platform_Init (sm_platform s);
      mret (translateCodeToSmiStatus code,
            mkSmi (if ErrorCode_ok code then init_ref_count s + 1 else init_ref_count s) loader p).

Definition amdsmi_shut_down (s : Smi) : M K (amdsmi_status_t * Smi) :=
  if init_ref_count s =? 0 then mret (AMDSMI_STATUS_SUCCESS, s)
  else
    let n := init_ref_count s - 1 in
    if 0 <? n then mret (AMDSMI_STATUS_SUCCESS, mkSmi n (sm_loader s) (sm_platform s))
    else
      p ← Platform_Destroy (sm_platform s);
      loader ← Loader_Shutdown (sm_loader s);
      mret (AMDSMI_STATUS_SUCCESS, mkSmi n loader p).

(** ** Guards shared by the queries *)

Abbreviation smi_result T := (M K (amdsmi_status_t * T)).

Definition fails {T} (st : amdsmi_status_t) (out : T) : smi_result T := mret (st, out).

(** [AMDSMI_CHECK_INIT()] *)
Definition AMDSMI_CHECK_INIT {T} (s : Smi) (out : T) (m : smi_result T) : smi_result T :=
  if init_ref_count s =? 0 then fails AMDSMI_STATUS_NOT_INIT out else m.

(** [if (out == nullptr) return AMDSMI_STATUS_INVAL;] *)
Definition nonnull {T} (out : option T) (f : T -> smi_result (option T)) : smi_result (option T) :=
  match out with None => fails AMDSMI_STATUS_INVAL None | Some x => f x end.

(** The device behind a handle. *)
Definition device_of {T} (s : Smi) (handle : Z) (null : smi_result T) (f : SharedDevice -> smi_result T) : smi_result T :=
  if handle =? 0 then null else d ← get_shared (sm_platform s) handle; f d.

(** [auto code = device->Query...(&x); if (code != ErrorCode::Success) return translate...;] *)
Definition query {R T} (d : SharedDevice) (q : device_query R) (out : T) (f : R -> smi_result T) : smi_result T :=
  r ← kcall_ (DeviceContext_Query q (device_ctx_ d));
  if ErrorCode_ok r.1 then f r.2 else fails (translateCodeToSmiStatus r.1) out.

Definition succeeds {T} (out : T) : smi_result T := mret (AMDSMI_STATUS_SUCCESS, out).

(** The common case: initialised, an object to fill in, a device, its answer. *)
Definition query_into {R T} (s : Smi) (handle : Z) (out : option T) (q : device_query R) (before : T -> T) (f : R -> T -> T)
    : smi_result (option T) :=
  AMDSMI_CHECK_INIT s out (nonnull out (fun x =>
    device_of s handle (fails AMDSMI_STATUS_INVAL out) (fun d =>
      query d q (Some (before x)) (fun r => succeeds (Some (f r x)))))).

(** ** Sockets and processors *)

(** [*socket_count] and the array after the call. *)
Definition amdsmi_get_socket_handles (s : Smi) (socket_count : option Z) (socket_handles : option (list Z))
    : M K (amdsmi_status_t * option Z * option (list Z)) :=
  if init_ref_count s =? 0 then mret (AMDSMI_STATUS_NOT_INIT, socket_count, socket_handles)
  else match socket_count with
  | None => mret (AMDSMI_STATUS_INVAL, socket_count, socket_handles)
  | Some count =>
      let socket_size := Z.of_nat (length (lda_chain_list_ (sm_platform s))) in
      match socket_handles with
      | None => mret (AMDSMI_STATUS_SUCCESS, Some socket_size, None)
      | Some dst =>
          let n := if socket_size <=? count then socket_size else count in
          dst ← mderef (write_list (take (Z.to_nat n) (lda_chain_list_ (sm_platform s))) dst);
          mret (AMDSMI_STATUS_SUCCESS, Some n, Some dst)
      end
  end.

Definition amdsmi_get_socket_info (s : Smi) (socket_handle : Z) (len : nat) (name : option buffer)
    : smi_result (option buffer) :=
  AMDSMI_CHECK_INIT s name (
    if (socket_handle =? 0) || bool_decide (name = None) then fails AMDSMI_STATUS_INVAL name
    else b ← mderef (name ≫= memset0 len); succeeds (Some b)).

(** [chained_devices_\[0..n-1\]] *)
Fixpoint chained (n : nat) (l : LdaChain) : option (list Z) :=
  match n with
  | O => Some []
  | S n => ds ← chained n l; d ← chained_devices_ l !! n; Some (ds ++ [d])
  end.

Definition amdsmi_get_processor_handles (s : Smi) (socket_handle : Z) (processor_count : option Z) (processor_handles : option (list Z))
    : M K (amdsmi_status_t * option Z * option (list Z)) :=
  if init_ref_count s =? 0 then mret (AMDSMI_STATUS_NOT_INIT, processor_count, processor_handles)
  else match processor_count with
  | None => mret (AMDSMI_STATUS_INVAL, processor_count, processor_handles)
  | Some count =>
      if socket_handle =? 0 then mret (AMDSMI_STATUS_INVAL, processor_count, processor_handles)
      else
        lda_chain ← get_chain (sm_platform s) socket_handle;
        device_count ← kcall_ (ChainContext_NumChainedGpus (chain_ctx_ lda_chain));
        match processor_handles with
        | None => mret (AMDSMI_STATUS_SUCCESS, Some device_count, None)
        | Some dst =>
            let n := if device_count <=? count then device_count else count in
            ds ← mderef (chained (Z.to_nat n) lda_chain);
            dst ← mderef (write_list ds dst);
            mret (AMDSMI_STATUS_SUCCESS, Some n, Some dst)
        end
  end.

(** The handle is compared with the devices, not followed. *)
Definition amdsmi_get_processor_type (s : Smi) (processor_handle : Z) (processor_type : option processor_type_t)
    : smi_result (option processor_type_t) :=
  AMDSMI_CHECK_INIT s processor_type (nonnull processor_type (fun _ =>
    succeeds (Some (if bool_decide (processor_handle ∈ devices_ (sm_platform s))
                then AMDSMI_PROCESSOR_TYPE_AMD_GPU else AMDSMI_PROCESSOR_TYPE_UNKNOWN)))).

(** ** Addresses *)

(** Assigning the members of [BdfInfo] to the bit fields. *)
Definition bdf_of (bi : BdfInfo) : amdsmi_bdf_t :=
  mkBdf (wrap 3 (bi_function_number bi)) (wrap 5 (bi_device_number bi)) (wrap 8 (bi_bus_number bi)) (wrap 48 (bi_domain_number bi)).

Definition amdsmi_get_gpu_device_bdf (s : Smi) (processor_handle : Z) (bdf : option amdsmi_bdf_t) : smi_result (option amdsmi_bdf_t) :=
  AMDSMI_CHECK_INIT s bdf (nonnull bdf (fun _ =>
    let bdf := Some bdf_zero in
    device_of s processor_handle (fails AMDSMI_STATUS_NOT_FOUND bdf) (fun d =>
      query d QueryBdfInfo bdf (fun bi => succeeds (Some (bdf_of bi)))))).

Definition bdf_id (bi : BdfInfo) : Z :=
  Z.lor (Z.lor (Z.lor (Z.shiftl (Z.land (bi_domain_number bi) 0xFFFFFFFF) 32)
    (Z.shiftl (Z.land (bi_bus_number bi) 0xFF) 8)) (Z.shiftl (Z.land (bi_device_number bi) 0x1F) 3))
    (Z.land (bi_function_number bi) 0x7).

Definition amdsmi_get_gpu_bdf_id (s : Smi) (processor_handle : Z) (bdfid : option Z) : smi_result (option Z) :=
  query_into s processor_handle bdfid QueryBdfInfo id (fun bi _ => bdf_id bi).

Definition bdf_matches (bdf : amdsmi_bdf_t) (bi : BdfInfo) : bool :=
  (bus_number bdf =? bi_bus_number bi) && (device_number bdf =? bi_device_number bi) &&
  (domain_number bdf =? bi_domain_number bi) && (function_number bdf =? bi_function_number bi).

(** The loop over the devices. *)
Fixpoint find_bdf (p : Platform) (devices : list Z) (bdf : amdsmi_bdf_t) (processor_handle : Z) : smi_result Z :=
  match devices with
  | [] => fails AMDSMI_STATUS_NOT_FOUND processor_handle
  | pdev :: devices =>
      if pdev =? 0 then fails AMDSMI_STATUS_API_FAILED processor_handle
      else
        d ← get_shared p pdev;
        r ← kcall_ (DeviceContext_Query QueryBdfInfo (device_ctx_ d));
        if negb (ErrorCode_ok r.1) then find_bdf p devices bdf processor_handle
        else if bdf_matches bdf r.2 then succeeds pdev
        else find_bdf p devices bdf processor_handle
  end.

Definition amdsmi_get_processor_handle_from_bdf (s : Smi) (bdf : amdsmi_bdf_t) (processor_handle : option Z) : smi_result (option Z) :=
  AMDSMI_CHECK_INIT s processor_handle (nonnull processor_handle (fun h =>
    r ← find_bdf (sm_platform s) (devices_ (sm_platform s)) bdf h;
    mret (r.1, Some r.2))).
End smi.
