(* ===== verification/SmiQuery.v ===== *)
(** * SmiQuery: what AMD SMI says of a device (amdsmi/src/amd_smi/amd_smi.cc)

    Identity, firmware, memory, sensors, clocks and the PCI link. Each asks the driver
    once and copies the answer into the caller's structure. *)

From Stdlib Require Import String Ascii.
From S2P Require Import Prelude.
From S2P Require Import CString.
From S2P Require Import BitField.
From S2P Require Import Status.
From S2P Require Import SmiStatus.
From S2P Require Import SmiTypes.
From S2P Require Import World.
From S2P Require Import Loader.
From S2P Require Import Platform.
From S2P Require Import Uuid.
From S2P Require Import Smi.
#[local] Open Scope Z_scope.

Definition max_text (s : string) : string := array_text AMDSMI_MAX_STRING_LENGTH s.

(** The loop that copies [n] entries of a fixed array into another: [f] of each entry at its
    place. *)
Fixpoint copy_entries {A B} (f : A -> B -> B) (n : nat) (src : list A) (dst : list B) : option (list B) :=
  match n with
  | O => Some dst
  | S n =>
      dst ← copy_entries f n src dst;
      x ← src !! n; y ← dst !! n; Some (<[n := f x y]> dst)
  end.

Definition cache_of (e : CacheEntry) (c : smi_cache) : smi_cache :=
  mkSmiCache (ce_cache_properties e) (ce_cache_size_kb e) (ce_cache_level e) (ce_max_num_cu_shared e) (ce_num_cache_instance e).

(** [VIDEO_MEMORY_TYPE] to [amdsmi_vram_type_t]. *)
Definition vram_type_of (raw : Z) : amdsmi_vram_type_t :=
  if raw =? 1 then AMDSMI_VRAM_TYPE_DDR2
  else if raw =? 2 then AMDSMI_VRAM_TYPE_GDDR5
  else if raw =? 3 then AMDSMI_VRAM_TYPE_DDR3
  else if raw =? 4 then AMDSMI_VRAM_TYPE_DDR4
  else if raw =? 5 then AMDSMI_VRAM_TYPE_HBM
  else if raw =? 6 then AMDSMI_VRAM_TYPE_GDDR6
  else if raw =? 7 then AMDSMI_VRAM_TYPE_LPDDR4
  else if raw =? 8 then AMDSMI_VRAM_TYPE_DDR5
  else if raw =? 9 then AMDSMI_VRAM_TYPE_LPDDR5
  else AMDSMI_VRAM_TYPE_UNKNOWN.

(** [to16]: saturation, with [UINT32_MAX] for a sensor that is not there. *)
Definition to16 (v : Z) : Z := if v =? UINT32_MAX then 0 else if UINT16_MAX <? v then UINT16_MAX else v.

Definition gpu_metrics_of (m : GpuMetricsInfo) : amdsmi_gpu_metrics_t :=
  let gfxclk := to16 (gm_current_gfxclk m) in
  let socclk := to16 (gm_current_socclk m) in
  mkSmiGpuMetrics (to16 (gm_temperature_edge m)) (to16 (gm_temperature_hotspot m)) (to16 (gm_temperature_mem m))
    (to16 (gm_average_gfx_activity m)) (to16 (gm_average_umc_activity m)) (to16 (gm_current_socket_power m))
    gfxclk socclk (to16 (gm_current_fan_speed m))
    (to16 (gm_voltage_soc m)) (to16 (gm_voltage_gfx m)) (to16 (gm_voltage_mem m))
    (<[O := gfxclk]> (sg_current_gfxclks gpu_metrics_zero)) (<[O := socclk]> (sg_current_socclks gpu_metrics_zero)).

(** The table of one or two speeds and widths: [n] and the two arrays. *)
Definition bandwidth_entries (pi : PCIeInfo) : nat * list Z * list Z :=
  let zeros := repeat 0 AMDSMI_MAX_NUM_FREQUENCIES in
  let '(n, freqs, lanes) :=
    if 0 <? px_max_pcie_speed pi
    then (1%nat, <[O := px_max_pcie_speed pi *64 1000000]> zeros, <[O := px_max_pcie_width pi]> zeros)
    else (O, zeros, zeros) in
  if (0 <? px_pcie_speed pi) && negb (px_pcie_speed pi =? px_max_pcie_speed pi)
  then (S n, <[n := px_pcie_speed pi *64 1000000]> freqs, <[n := px_pcie_width pi]> lanes)
  else (n, freqs, lanes).

(** The value of a utilization counter. *)
Definition utilization_value (activity : GpuActivity) (type : Z) : Z :=
  if (type =? 0) || (type =? 100) then ga_gfx_activity activity
  else if (type =? 1) || (type =? 101) then ga_umc_activity activity
  else if (type =? 2) || (type =? 102) then ga_mm_activity activity
  else 0.

Section query.
Context {K : Type} `{Kernel K}.
Abbreviation smi_result T := (M K (amdsmi_status_t * T)).

(** ** Identity *)

(** [uuid_length] is only read. *)
Definition amdsmi_get_gpu_device_uuid (s : Smi) (processor_handle : Z) (uuid_length : option Z) (uuid : option buffer)
    : smi_result (option buffer) :=
  AMDSMI_CHECK_INIT s uuid (
    match uuid_length with
    | None => fails AMDSMI_STATUS_INVAL uuid
    | Some len =>
        if bool_decide (uuid = None) || (len <? AMDSMI_GPU_UUID_SIZE) then fails AMDSMI_STATUS_INVAL uuid
        else
          device_of s processor_handle (fails AMDSMI_STATUS_INVAL uuid) (fun d =>
            query d QueryAsicInfo uuid (fun asic_info =>
              b ← mderef (uuid ≫= fun b => amdsmi_uuid_gen b (as_asic_serial asic_info) (u16 (as_device_id asic_info)) 0xFF);
              succeeds (Some b)))
    end).

Definition amdsmi_get_gpu_id (s : Smi) (h : Z) (id : option Z) : smi_result (option Z) :=
  query_into s h id QueryAsicInfo (fun x => x) (fun info _ => u16 (as_device_id info)).
Definition amdsmi_get_gpu_revision (s : Smi) (h : Z) (revision : option Z) : smi_result (option Z) :=
  query_into s h revision QueryAsicInfo (fun x => x) (fun info _ => u16 (as_rev_id info)).
Definition amdsmi_get_gpu_subsystem_id (s : Smi) (h : Z) (id : option Z) : smi_result (option Z) :=
  query_into s h id QueryAsicInfo (fun x => x) (fun info _ => u16 (as_subsystem_id info)).

Definition amdsmi_get_gpu_board_info (s : Smi) (h : Z) (board_info : option amdsmi_board_info_t) : smi_result (option amdsmi_board_info_t) :=
  query_into s h board_info QueryBoardInfo (fun x => x) (fun bi _ =>
    mkSmiBoardInfo EmptyString EmptyString EmptyString (max_text (bo_product_name bi)) (max_text (bo_manufacturer_name bi))).

(** The texts are copied into arrays nobody has cleared; [market_name] is not terminated
    when it has 255 characters or more. *)
Definition asic_texts (ai : AsicInfo) (info : amdsmi_asic_info_t) : option (buffer * buffer * buffer) :=
  serial ← snprintf AMDSMI_MAX_STRING_LENGTH (print_x 16 (as_asic_serial ai)) (sa_asic_serial info);
  market ← strncpy (as_market_name ai) (AMDSMI_MAX_STRING_LENGTH - 1) (sa_market_name info);
  vendor ← write_at 0 [NUL] (sa_vendor_name info);
  vendor ← (if as_vendor_id ai =? 0x1002
            then strncpy "Advanced Micro Devices Inc. [AMD/ATI]" (AMDSMI_MAX_STRING_LENGTH - 1) vendor else Some vendor);
  Some (serial, market, vendor).

Definition amdsmi_get_gpu_asic_info (s : Smi) (h : Z) (info : option amdsmi_asic_info_t) : smi_result (option amdsmi_asic_info_t) :=
  AMDSMI_CHECK_INIT s info (nonnull info (fun x =>
    device_of s h (fails AMDSMI_STATUS_INVAL info) (fun d =>
      query d QueryAsicInfo info (fun ai =>
        '(serial, market, vendor) ← mderef (asic_texts ai x);
        succeeds (Some (mkSmiAsicInfo market (as_vendor_id ai) vendor (as_subvendor_id ai) (as_device_id ai) (as_rev_id ai)
          serial 0 (as_num_of_compute_units ai) (as_target_graphics_version ai) (as_subsystem_id ai) 0)))))).

Definition amdsmi_get_gpu_subsystem_name (s : Smi) (h : Z) (name : option buffer) (len : nat) : smi_result (option buffer) :=
  AMDSMI_CHECK_INIT s name (
    if bool_decide (name = None) || (len =? 0)%nat then fails AMDSMI_STATUS_INVAL name
    else
      device_of s h (fails AMDSMI_STATUS_INVAL name) (fun d =>
        query d QueryAsicInfo name (fun ai =>
          b ← mderef (b ← name; b ← strncpy (as_market_name ai) (len - 1) b; write_at (len - 1) [NUL] b);
          succeeds (Some b)))).

Definition amdsmi_vendor_text : string := "Advanced Micro Devices, Inc. [AMD/ATI]".

Definition amdsmi_get_gpu_vendor_name (s : Smi) (h : Z) (name : option buffer) (len : nat) : smi_result (option buffer) :=
  AMDSMI_CHECK_INIT s name (
    if (h =? 0) || bool_decide (name = None) then fails AMDSMI_STATUS_INVAL name
    else b ← mderef (name ≫= strncpy amdsmi_vendor_text len); succeeds (Some b)).

Definition amdsmi_get_gpu_vbios_info (s : Smi) (h : Z) (info : option amdsmi_vbios_info_t) : smi_result (option amdsmi_vbios_info_t) :=
  AMDSMI_CHECK_INIT s info (nonnull info (fun _ =>
    device_of s h (fails AMDSMI_STATUS_INVAL info) (fun d =>
      query d QueryVBiosInfo (Some (mkSmiVbios EmptyString EmptyString EmptyString EmptyString)) (fun vi =>
        succeeds (Some (mkSmiVbios (max_text (vb_name vi)) (max_text (vb_build_date vi)) (max_text (vb_part_number vi))
          (max_text (vb_version vi)))))))).

(** Cleared before the handle is looked at. *)
Definition amdsmi_get_gpu_driver_info (s : Smi) (h : Z) (info : option amdsmi_driver_info_t) : smi_result (option amdsmi_driver_info_t) :=
  AMDSMI_CHECK_INIT s info (nonnull info (fun _ =>
    let info := Some (mkSmiDriverInfo EmptyString EmptyString EmptyString) in
    device_of s h (fails AMDSMI_STATUS_INVAL info) (fun d =>
      query d QueryDriverInfo info (fun di =>
        succeeds (Some (mkSmiDriverInfo (max_text (dr_driver_version di)) (max_text (dr_driver_date di)) (max_text (dr_driver_name di)))))))).

(** ** Caches and firmware *)

Definition cache_info_zero : amdsmi_gpu_cache_info_t := mkSmiCacheInfo 0 (repeat (mkSmiCache 0 0 0 0 0) AMDSMI_MAX_CACHE_TYPES).

Definition amdsmi_get_gpu_cache_info (s : Smi) (h : Z) (info : option amdsmi_gpu_cache_info_t) : smi_result (option amdsmi_gpu_cache_info_t) :=
  AMDSMI_CHECK_INIT s info (nonnull info (fun _ =>
    device_of s h (fails AMDSMI_STATUS_INVAL info) (fun d =>
      query d QueryCacheInfo info (fun ci =>
        cache ← mderef (copy_entries cache_of (Z.to_nat (ca_num_cache_types ci)) (ca_cache ci) (sc_cache cache_info_zero));
        succeeds (Some (mkSmiCacheInfo (ca_num_cache_types ci) cache)))))).

(** Every entry starts as [AMDSMI_FW_ID__MAX]. *)
Definition fw_info_zero : amdsmi_fw_info_t :=
  mkSmiFwInfo 0 (repeat (mkFwInfoList AMDSMI_FW_ID__MAX 0) (Z.to_nat AMDSMI_FW_ID__MAX)).

Definition fw_of (e : FwEntry) (l : fw_info_list) : fw_info_list := mkFwInfoList (fe_fw_id e) (fe_fw_version e).

Definition amdsmi_get_fw_info (s : Smi) (h : Z) (info : option amdsmi_fw_info_t) : smi_result (option amdsmi_fw_info_t) :=
  AMDSMI_CHECK_INIT s info (nonnull info (fun _ =>
    let info := Some fw_info_zero in
    device_of s h (fails AMDSMI_STATUS_INVAL info) (fun d =>
      query d QueryFwInfo info (fun fw =>
        l ← mderef (copy_entries fw_of (Z.to_nat (fw_num_fw_info fw)) (fw_entries fw) (sf_fw_info_list fw_info_zero));
        succeeds (Some (mkSmiFwInfo (u8 (fw_num_fw_info fw)) l)))))).

(** ** Memory *)

Definition amdsmi_get_gpu_vram_usage (s : Smi) (h : Z) (info : option amdsmi_vram_usage_t) : smi_result (option amdsmi_vram_usage_t) :=
  AMDSMI_CHECK_INIT s info (nonnull info (fun _ =>
    device_of s h (fails AMDSMI_STATUS_NOT_FOUND info) (fun d =>
      query d QueryVramUsage (Some (mkSmiVramUsage 0 0)) (fun usage =>
        succeeds (Some (mkSmiVramUsage (u32 (vram_total_mb usage)) (u32 (vram_used_mb usage)))))))).

Definition amdsmi_get_gpu_vram_info (s : Smi) (h : Z) (info : option amdsmi_vram_info_t) : smi_result (option amdsmi_vram_info_t) :=
  AMDSMI_CHECK_INIT s info (nonnull info (fun _ =>
    device_of s h (fails AMDSMI_STATUS_INVAL info) (fun d =>
      query d QueryVramInfo (Some (mkSmiVramInfo AMDSMI_VRAM_TYPE_UNKNOWN 0 0 0)) (fun raw =>
        succeeds (Some (mkSmiVramInfo (vram_type_of (vi_vram_type raw)) (vi_vram_size_mb raw) (vi_vram_bit_width raw) UINT64_MAX)))))).

Definition memory_query (s : Smi) (h mem_type : Z) (q : device_query Z) (out : option Z) : smi_result (option Z) :=
  AMDSMI_CHECK_INIT s out (nonnull out (fun _ =>
    if (mem_type <? AMDSMI_MEM_TYPE_FIRST) || (AMDSMI_MEM_TYPE_LAST <? mem_type) then fails AMDSMI_STATUS_INVAL out
    else device_of s h (fails AMDSMI_STATUS_INVAL out) (fun d => query d q out (fun n => succeeds (Some n))))).

Definition amdsmi_get_gpu_memory_total (s : Smi) (h mem_type : Z) (total : option Z) : smi_result (option Z) :=
  memory_query s h mem_type (QueryMemoryTotal mem_type) total.
Definition amdsmi_get_gpu_memory_usage (s : Smi) (h mem_type : Z) (used : option Z) : smi_result (option Z) :=
  memory_query s h mem_type (QueryMemoryUsage mem_type) used.
End query.
