(* ===== verification/SmiSensor.v ===== *)
(** * SmiSensor: readings of AMD SMI (amdsmi/src/amd_smi/amd_smi.cc)

    Temperature, fans, voltage, power, clocks, activity, metrics and the PCI link. The
    fan speeds, the PCI bandwidth and the voltage do not ask whether the library is
    initialised. *)

From Stdlib Require Import String.
From S2P Require Import Prelude.
From S2P Require Import BitField.
From S2P Require Import Status.
From S2P Require Import SmiStatus.
From S2P Require Import SmiTypes.
From S2P Require Import World.
From S2P Require Import Platform.
From S2P Require Import Smi.
From S2P Require Import SmiQuery.
#[local] Open Scope Z_scope.

(** ** Answers as the structures of the caller *)

Definition power_cap_of (pi : PowerInfo) : amdsmi_power_cap_info_t := mkSmiPowerCap (pi_power_limit pi) (pi_power_limit pi).

(** Every member at the limit of its type. *)
Definition power_info_limits : amdsmi_power_info_t :=
  mkSmiPowerInfo UINT64_MAX UINT32_MAX UINT32_MAX UINT64_MAX UINT64_MAX UINT64_MAX UINT32_MAX.

Definition power_info_of (pi : PowerInfo) : amdsmi_power_info_t :=
  mkSmiPowerInfo (pi_current_socket_power pi) (pi_current_socket_power pi) (sp_average_socket_power power_info_limits)
    (pi_gfx_voltage pi) (pi_soc_voltage pi) (pi_mem_voltage pi) (pi_power_limit pi).

Definition pcie_info_zero : amdsmi_pcie_info_t := mkSmiPcieInfo 0 0 0 0 0 0 0 0 0 0 0 0.
Definition pcie_info_of (p : PCIeInfo) : amdsmi_pcie_info_t :=
  mkSmiPcieInfo (px_max_pcie_width p) (px_max_pcie_speed p) (px_pcie_interface_version p) (px_slot_type p)
    (px_pcie_width p) (px_pcie_speed p) (px_pcie_bandwidth p) (px_pcie_replay_count p) (px_pcie_l0_to_recovery_count p)
    (px_pcie_replay_roll_over_count p) (px_pcie_nak_sent_count p) (px_pcie_nak_received_count p).

Definition clk_info_zero : amdsmi_clk_info_t := mkSmiClkInfo 0 0 0 0 0.
Definition clk_info_of (ci : ClockInfo) : amdsmi_clk_info_t :=
  mkSmiClkInfo (ci_clk ci) (ci_min_clk ci) (ci_max_clk ci) (ci_clk_locked ci) (ci_clk_deep_sleep ci).

Definition engine_usage_of (a : GpuActivity) : amdsmi_engine_usage_t :=
  mkSmiEngineUsage (ga_gfx_activity a) (ga_umc_activity a) (ga_mm_activity a).

(** One current clock, in Hz. *)
Definition frequencies_of (ci : ClockInfo) : amdsmi_frequencies_t :=
  mkFrequencies false 1 0 (<[O := ci_clk ci *64 1000000]> (frequency frequencies_zero)).

(** A percentage as a PWM value. *)
Definition pwm (percent : Z) : Z := Z.quot (percent * 255) 100.

Definition header_1_3 : amd_metrics_table_header_t := mkMetricsHeader 0x78 1 3.

(** What [clock_gettime] says, in microseconds. *)
Definition microseconds (ts : Z * Z) : Z := u64 ts.1 *64 1000000 +64 u64 ts.2 / 1000.

Section sensor.
Context {K : Type} `{Kernel K}.
Abbreviation smi_result T := (M K (amdsmi_status_t * T)).

Definition amdsmi_get_temp_metric (s : Smi) (h sensor_type metric : Z) (temperature : option Z) : smi_result (option Z) :=
  query_into s h temperature (QueryTempMetric sensor_type metric) (fun x => x) (fun t _ => t).

(** ** Without [AMDSMI_CHECK_INIT] *)

(** [UINT32_MAX] says that there is no such sensor. *)
Definition metric_value (s : Smi) (h : Z) (sensor : GpuMetricsInfo -> Z) (value : Z -> Z) (out : option Z) : smi_result (option Z) :=
  nonnull out (fun _ => device_of s h (fails AMDSMI_STATUS_INVAL out) (fun d =>
    query d QueryGpuMetricsInfo out (fun m =>
      if sensor m =? UINT32_MAX then fails AMDSMI_STATUS_NOT_SUPPORTED out else succeeds (Some (value (sensor m)))))).

Definition amdsmi_get_gpu_fan_rpms (s : Smi) (h : Z) (speed : option Z) : smi_result (option Z) :=
  metric_value s h gm_current_fan_speed (fun v => v) speed.

Definition amdsmi_get_gpu_fan_speed (s : Smi) (h : Z) (speed : option Z) : smi_result (option Z) :=
  metric_value s h gm_current_fan_speed_percent pwm speed.

Definition amdsmi_get_gpu_volt_metric (s : Smi) (h sensor_type metric : Z) (voltage : option Z) : smi_result (option Z) :=
  if negb (metric =? AMDSMI_VOLT_CURRENT) then fails AMDSMI_STATUS_NOT_SUPPORTED voltage
  else if negb (sensor_type =? AMDSMI_VOLT_TYPE_VDDGFX) then fails AMDSMI_STATUS_NOT_SUPPORTED voltage
  else metric_value s h gm_voltage_gfx (fun v => v) voltage.

Definition amdsmi_get_gpu_fan_speed_max (max_speed : option Z) : smi_result (option Z) :=
  nonnull max_speed (fun _ => succeeds (Some 255)).

(** Without an entry the structure is left cleared. *)
Definition bandwidth_of (pi : PCIeInfo) : amdsmi_status_t * amdsmi_pcie_bandwidth_t :=
  let '(n, freqs, lanes) := bandwidth_entries pi in
  if (n =? 0)%nat then (AMDSMI_STATUS_NOT_SUPPORTED, mkPcieBandwidth (mkFrequencies false 0 0 freqs) lanes)
  else
    (AMDSMI_STATUS_SUCCESS,
     mkPcieBandwidth
       (mkFrequencies false (Z.of_nat n)
          (if (0 <? px_pcie_speed pi) && negb (px_pcie_speed pi =? px_max_pcie_speed pi) then 1 else 0) freqs)
       lanes).

Definition amdsmi_get_gpu_pci_bandwidth (s : Smi) (h : Z) (bandwidth : option amdsmi_pcie_bandwidth_t)
    : smi_result (option amdsmi_pcie_bandwidth_t) :=
  nonnull bandwidth (fun _ => device_of s h (fails AMDSMI_STATUS_INVAL bandwidth) (fun d =>
    query d QueryPCIeInfo bandwidth (fun pi => let '(st, b) := bandwidth_of pi in mret (st, Some b)))).

(** ** Metrics and power *)

(** [nullptr] is supported. *)
Definition amdsmi_get_gpu_metrics_header_info (s : Smi) (header_value : option amd_metrics_table_header_t)
    : smi_result (option amd_metrics_table_header_t) :=
  AMDSMI_CHECK_INIT s header_value (succeeds ((fun _ => header_1_3) <$> header_value)).

(** Cleared before the handle is looked at. *)
Definition amdsmi_get_gpu_metrics_info (s : Smi) (h : Z) (pgpu_metrics : option amdsmi_gpu_metrics_t)
    : smi_result (option amdsmi_gpu_metrics_t) :=
  AMDSMI_CHECK_INIT s pgpu_metrics (nonnull pgpu_metrics (fun _ =>
    let out := Some gpu_metrics_zero in
    device_of s h (fails AMDSMI_STATUS_INVAL out) (fun d =>
      query d QueryGpuMetricsInfo out (fun m => succeeds (Some (gpu_metrics_of m)))))).

Definition amdsmi_get_power_cap_info (s : Smi) (h : Z) (info : option amdsmi_power_cap_info_t)
    : smi_result (option amdsmi_power_cap_info_t) :=
  query_into s h info QueryPowerInfo (fun _ => mkSmiPowerCap 0 0) (fun pi _ => power_cap_of pi).

Definition amdsmi_get_power_info (s : Smi) (h : Z) (info : option amdsmi_power_info_t) : smi_result (option amdsmi_power_info_t) :=
  query_into s h info QueryPowerInfo (fun _ => power_info_limits) (fun pi _ => power_info_of pi).

(** ** Clocks *)

(** The type of clock is looked at before the pointer. *)
Definition amdsmi_get_clk_freq (s : Smi) (h clk_type : Z) (f : option amdsmi_frequencies_t) : smi_result (option amdsmi_frequencies_t) :=
  AMDSMI_CHECK_INIT s f (
    if (clk_type =? AMDSMI_CLK_TYPE_SYS) || (clk_type =? AMDSMI_CLK_TYPE_MEM) then
      let internal_clk := if clk_type =? AMDSMI_CLK_TYPE_SYS then 0 else 4 in
      nonnull f (fun _ => device_of s h (fails AMDSMI_STATUS_INVAL f) (fun d =>
        query d (QueryClockInfo internal_clk) f (fun ci =>
          if (ci_clk ci =? 0) && (ci_min_clk ci =? 0) && (ci_max_clk ci =? 0) then fails AMDSMI_STATUS_NOT_SUPPORTED f
          else succeeds (Some (frequencies_of ci)))))
    else fails AMDSMI_STATUS_NOT_SUPPORTED f).

Definition amdsmi_get_clock_info (s : Smi) (h clk_type : Z) (info : option amdsmi_clk_info_t) : smi_result (option amdsmi_clk_info_t) :=
  AMDSMI_CHECK_INIT s info (nonnull info (fun _ =>
    let info := Some clk_info_zero in
    if AMDSMI_CLK_TYPE__MAX <? clk_type then fails AMDSMI_STATUS_INVAL info
    else device_of s h (fails AMDSMI_STATUS_INVAL info) (fun d =>
      query d (QueryClockInfo clk_type) info (fun ci => succeeds (Some (clk_info_of ci)))))).

(** ** The PCI link *)

Definition amdsmi_get_gpu_pci_replay_counter (s : Smi) (h : Z) (counter : option Z) : smi_result (option Z) :=
  query_into s h counter QueryPCIeInfo (fun x => x) (fun pi _ => px_pcie_replay_count pi).

Definition amdsmi_get_pcie_info (s : Smi) (h : Z) (info : option amdsmi_pcie_info_t) : smi_result (option amdsmi_pcie_info_t) :=
  AMDSMI_CHECK_INIT s info (nonnull info (fun _ =>
    let info := Some pcie_info_zero in
    device_of s h (fails AMDSMI_STATUS_INVAL info) (fun d =>
      query d QueryPCIeInfo info (fun pcie => succeeds (Some (pcie_info_of pcie)))))).

(** ** Activity *)

Definition amdsmi_get_gpu_busy_percent (s : Smi) (h : Z) (gpu_busy_percent : option Z) : smi_result (option Z) :=
  query_into s h gpu_busy_percent QueryGpuActivity (fun x => x) (fun a _ => ga_gfx_activity a).

Definition amdsmi_get_gpu_activity (s : Smi) (h : Z) (info : option amdsmi_engine_usage_t) : smi_result (option amdsmi_engine_usage_t) :=
  query_into s h info QueryGpuActivity (fun x => x) (fun a _ => engine_usage_of a).

Definition count_of (activity : GpuActivity) (c : amdsmi_utilization_counter_t) : amdsmi_utilization_counter_t :=
  mkUtilizationCounter (uc_type c) (utilization_value activity (uc_type c)) 0.

(** The loop over the first [count] counters. *)
Fixpoint fill_counters (activity : GpuActivity) (count : nat) (l : list amdsmi_utilization_counter_t)
    : option (list amdsmi_utilization_counter_t) :=
  match count, l with
  | O, _ => Some l
  | S _, [] => None
  | S count, c :: l => cons (count_of activity c) <$> fill_counters activity count l
  end.

Definition amdsmi_get_utilization_count (s : Smi) (h : Z) (utilization_counters : option (list amdsmi_utilization_counter_t))
    (count : Z) (timestamp : option Z) : smi_result (option (list amdsmi_utilization_counter_t) * option Z) :=
  let out := (utilization_counters, timestamp) in
  AMDSMI_CHECK_INIT s out (
    match utilization_counters, timestamp with
    | Some counters, Some _ =>
        device_of s h (fails AMDSMI_STATUS_INVAL out) (fun d =>
          query d QueryGpuActivity out (fun activity =>
            ts ← kcall_ clock_monotonic;
            counters ← mderef (fill_counters activity (Z.to_nat count) counters);
            succeeds (Some counters, Some (microseconds ts))))
    | _, _ => fails AMDSMI_STATUS_INVAL out
    end).
End sensor.

(** The numbers of the version come from a generated file. *)
Definition amdsmi_get_lib_version (generated : amdsmi_version_t) (version : option amdsmi_version_t)
    : amdsmi_status_t * option amdsmi_version_t :=
  match version with
  | None => (AMDSMI_STATUS_INVAL, None)
  | Some _ => (AMDSMI_STATUS_SUCCESS, Some generated)
  end.
