(* ===== verification/SmiProcess.v ===== *)
(** * SmiProcess: the processes AMD SMI lists (amdsmi/src/amd_smi/amd_smi.cc)

    The processes of one device, with their names, and the processes of all devices: the
    table, one process, the devices of a process. A table of processes is filled up to the
    size its caller gives. *)

From Stdlib Require Import String Ascii.
From S2P Require Import Prelude.
From S2P Require Import CString.
From S2P Require Import BitField.
From S2P Require Import Status.
From S2P Require Import SmiStatus.
From S2P Require Import SmiTypes.
From S2P Require Import World.
From S2P Require Import Sysfs.
From S2P Require Import Platform.
From S2P Require Import Smi.
From S2P Require Import SmiQuery.
#[local] Open Scope Z_scope.

Definition PATH_MAX : nat := 4096.
Definition MiB : Z := 1024 * 1024.

(** The part after the last [/]. *)
Fixpoint basename (acc s : string) : string :=
  match s with
  | EmptyString => acc
  | String c s' => if Ascii.eqb c "/" then basename s' s' else basename acc s'
  end.

(** The name from what [readlink] says of [/proc/<pid>/exe], if it says something. *)
Definition process_name (exe : option string) : string :=
  match exe with
  | Some (String _ _ as path) =>
      let exe_real := String.substring 0 (PATH_MAX - 1) path in
      array_text AMDSMI_MAX_STRING_LENGTH (basename exe_real exe_real)
  | _ => "N/A"
  end.

Definition proc_info (gp : GpuProcessInfo) (exe : option string) : amdsmi_proc_info_t :=
  mkProcInfo (process_name exe) (win_pid gp) (vram_usage_bytes gp) UINT64_MAX UINT64_MAX UINT64_MAX UINT64_MAX
    (vram_usage_bytes gp) UINT32_MAX UINT32_MAX UINT64_MAX.

Definition exe_path (pid : Z) : string := ("/proc/" ++ to_decimal pid ++ "/exe")%string.

(** [pid_vram_map\[pid\] += bytes] *)
Definition add_process (m : gmap Z Z) (gp : GpuProcessInfo) : gmap Z Z :=
  <[win_pid gp := default 0 (m !! win_pid gp) +64 vram_usage_bytes gp]> m.

Definition process_info (pid vram_bytes : Z) : amdsmi_process_info_t := mkProcessInfo pid (vram_bytes / MiB) 0 0 0.

(** The accumulation of one process: the bytes and whether it was found. *)
Definition add_matching (pid : Z) (acc : Z * bool) (gp : GpuProcessInfo) : Z * bool :=
  if win_pid gp =? pid then (acc.1 +64 vram_usage_bytes gp, true) else acc.

Section process.
Context {K : Type} `{Kernel K}.
Abbreviation smi_result T := (M K (amdsmi_status_t * T)).

(** ** The processes of one device *)

(** The loop over the processes: the entries written. *)
Fixpoint proc_entries (gplist : list GpuProcessInfo) (room : nat) : M K (list amdsmi_proc_info_t) :=
  match room, gplist with
  | S room, gp :: gplist =>
      exe ← kcall_ (sys_readlink (exe_path (win_pid gp)));
      rest ← proc_entries gplist room;
      mret (proc_info gp exe :: rest)
  | _, _ => mret []
  end.

Definition amdsmi_get_gpu_process_list (s : Smi) (h : Z) (max_processes : option Z) (out : option (list amdsmi_proc_info_t))
    : smi_result (option Z * option (list amdsmi_proc_info_t)) :=
  let same := (max_processes, out) in
  AMDSMI_CHECK_INIT s same (
    match max_processes with
    | None => fails AMDSMI_STATUS_INVAL same
    | Some original_max =>
        device_of s h (fails AMDSMI_STATUS_INVAL same) (fun d =>
          r ← kcall_ (DeviceContext_Query EnumGpuProcesses (device_ctx_ d));
          match r.1 with
          | UnSupported => succeeds (Some 0, out)
          | Success =>
              let gplist := r.2 in
              let total := u32 (Z.of_nat (length gplist)) in
              match out with
              | Some dst =>
                  if original_max =? 0 then succeeds (Some total, out)
                  else
                    written ← proc_entries gplist (Z.to_nat original_max);
                    dst ← mderef (write_list written dst);
                    mret (if total <=? original_max then AMDSMI_STATUS_SUCCESS else AMDSMI_STATUS_OUT_OF_RESOURCES,
                          (Some total, Some dst))
              | None => succeeds (Some total, out)
              end
          | ec => fails (translateCodeToSmiStatus ec) same
          end)
    end).

(** ** The processes of all devices *)

(** The loop over the devices; one that does not answer is passed over. *)
Fixpoint each_device {A} (p : Platform) (body : Z -> list GpuProcessInfo -> A -> A) (i : Z) (devices : list Z) (acc : A) : M K A :=
  match devices with
  | [] => mret acc
  | h :: devices =>
      d ← get_shared p h;
      r ← kcall_ (DeviceContext_Query EnumGpuProcesses (device_ctx_ d));
      each_device p body (i + 1) devices (if ErrorCode_ok r.1 then body i r.2 acc else acc)
  end.

Definition all_devices {A} (s : Smi) (body : Z -> list GpuProcessInfo -> A -> A) (acc : A) : M K A :=
  each_device (sm_platform s) body 0 (devices_ (sm_platform s)) acc.

Definition pid_vram_map (s : Smi) : M K (gmap Z Z) := all_devices s (fun _ gplist m => fold_left add_process gplist m) ∅.

(** A table of the caller that has room for [count], and the count after the call. *)
Definition fill_table {A} (items : list A) (count : Z) (out : option (list A)) : smi_result (option Z * option (list A)) :=
  let total := u32 (Z.of_nat (length items)) in
  match out with
  | None => succeeds (Some total, None)
  | Some dst => dst ← mderef (write_list (take (Z.to_nat count) items) dst); succeeds (Some total, Some dst)
  end.

Section iteration.
(** The order in which the iterators of [std::unordered_map] visit a map. *)
Variable iteration : gmap Z Z -> list (Z * Z).

Definition amdsmi_get_gpu_compute_process_info (s : Smi) (procs : option (list amdsmi_process_info_t)) (num_items : option Z)
    : smi_result (option Z * option (list amdsmi_process_info_t)) :=
  let same := (num_items, procs) in
  AMDSMI_CHECK_INIT s same (
    match num_items with
    | None => fails AMDSMI_STATUS_INVAL same
    | Some count =>
        m ← pid_vram_map s;
        fill_table ((fun e => process_info e.1 e.2) <$> iteration m) count procs
    end).
End iteration.

Definition amdsmi_get_gpu_compute_process_info_by_pid (s : Smi) (pid : Z) (proc : option amdsmi_process_info_t)
    : smi_result (option amdsmi_process_info_t) :=
  AMDSMI_CHECK_INIT s proc (nonnull proc (fun _ =>
    '(total_vram, found) ← all_devices s (fun _ gplist acc => fold_left (add_matching pid) gplist acc) (0, false);
    if negb found then fails AMDSMI_STATUS_NOT_FOUND proc else succeeds (Some (process_info pid total_vram)))).

Definition add_device (pid i : Z) (gplist : list GpuProcessInfo) (matching_devs : list Z) : list Z :=
  if existsb (fun gp => win_pid gp =? pid) gplist then matching_devs ++ [u32 i] else matching_devs.

Definition amdsmi_get_gpu_compute_process_gpus (s : Smi) (pid : Z) (dv_indices : option (list Z)) (num_devices : option Z)
    : smi_result (option Z * option (list Z)) :=
  let same := (num_devices, dv_indices) in
  AMDSMI_CHECK_INIT s same (
    match num_devices with
    | None => fails AMDSMI_STATUS_INVAL same
    | Some count =>
        matching_devs ← all_devices s (add_device pid) [];
        fill_table matching_devs count dv_indices
    end).
End process.
