(* ===== verification/SmiUtils.v ===== *)
(** * SmiUtils: the helpers of AMD SMI (amdsmi/src/amd_smi/amd_smi_utils.cc, amd_smi_common.cc)

    Strings, files with one value, PCI addresses, and the numbering of the devices over
    all sockets. An exception that leaves a function is [None]. *)

From Stdlib Require Import String Ascii.
From S2P Require Import Prelude.
From S2P Require Import CString.
From S2P Require Import BitField.
From S2P Require Import Status.
From S2P Require Import SmiStatus.
From S2P Require Import SmiTypes.
From S2P Require Import World.
From S2P Require Import Runtime.
From S2P Require Import Sysfs.
From S2P Require Import Platform.
From S2P Require Import Smi.
From S2P Require Import SmiQuery.
#[local] Open Scope Z_scope.

(** ** Strings *)

(** The white space at the start. *)
Definition leftTrim (s : string) : string := skip_space s.

(** The white space at the end. *)
Definition rightTrim (s : string) : string := drop_space s.

Fixpoint removeNewLines (s : string) : string :=
  match s with
  | EmptyString => EmptyString
  | String c s => if Ascii.eqb c "010" then removeNewLines s else String c (removeNewLines s)
  end.

Definition trim (s : string) : string := leftTrim (rightTrim (removeNewLines s)).

(** [s.erase(i, n)] *)
Definition erase (i n : nat) (s : string) : string := (str_take i s ++ str_drop (i + n) s)%string.

(** The loop of [removeString], [None] without enough rounds. *)
Fixpoint removeString (fuel : nat) (modifiedStr removeMe : string) : option string :=
  match String.index 0 removeMe modifiedStr with
  | None => Some modifiedStr
  | Some i =>
      match fuel with
      | O => None
      | S fuel => removeString fuel (erase i (String.length removeMe) modifiedStr) removeMe
      end
  end.

(** [newString] is copied after [len] characters of [buffer] are cleared; [len - 1] has 32
    bits. *)
Definition smi_clear_char_and_reinitialize (b : buffer) (len : Z) (newString : string) : option (amdsmi_status_t * buffer) :=
  b ← memset0 (Z.to_nat len) b;
  let copy_len := Nat.min (Z.to_nat (u32 (len - 1))) (String.length newString) in
  b ← write_at 0 (take copy_len (chars newString)) b;
  b ← write_at copy_len [NUL] b;
  Some (AMDSMI_STATUS_SUCCESS, b).

(** The loop of [split_string] on what is left of the line. *)
Fixpoint split_from (fuel : nat) (rest : string) (delim : ascii) (out : list string) : option (list string) :=
  match rest with
  | EmptyString => Some out
  | _ =>
      match fuel with
      | O => None
      | S fuel =>
          let pos := default (String.length rest) (find_char delim rest) in
          let token := trim (str_take pos rest) in
          split_from fuel (str_drop (pos + 1) rest) delim (if String.eqb token EmptyString then out else out ++ [token])
      end
  end.
Definition split_string (line : string) (delim : ascii) : option (list string) :=
  split_from (String.length line) line delim [].

(** ** Numbers *)

Definition limit (w : Z) : Z := 2 ^ w - 1.
Definition is_std_num_limit (w v : Z) : bool := v =? limit w.

(** The limit of [U], of [wu] bits, becomes the limit of [T], of [wt] bits. *)
Definition translate_umax_or_assign_value (wt wu source_value target_value : Z) : Z :=
  if is_std_num_limit wu source_value then limit wt else wrap wt target_value.

(** [std::stoull(s, nullptr, 10)] with its exceptions caught: 0. *)
Definition stoull_or_0 (s : string) : Z :=
  let '(neg, s) := scan_sign (skip_space s) in
  if starts_with_digit s then
    let n := (scan_digits 0 s).1 in
    if n <=? UINT64_MAX then u64 (if neg then - n else n) else 0
  else 0.

Definition parse_bdfid (bdfid : Z) : Z * Z * Z * Z :=
  (Z.land (Z.shiftr bdfid 32) 0xffffffff, Z.land (Z.shiftr bdfid 8) 0xff, Z.land (Z.shiftr bdfid 3) 0x1f, Z.land bdfid 0x7).

Definition vram_type_map : list (Z * amdsmi_vram_type_t) :=
  [(0, AMDSMI_VRAM_TYPE_UNKNOWN); (1, AMDSMI_VRAM_TYPE_GDDR1); (2, AMDSMI_VRAM_TYPE_DDR2); (3, AMDSMI_VRAM_TYPE_GDDR3);
   (4, AMDSMI_VRAM_TYPE_GDDR4); (5, AMDSMI_VRAM_TYPE_GDDR5); (6, AMDSMI_VRAM_TYPE_HBM); (7, AMDSMI_VRAM_TYPE_DDR3);
   (8, AMDSMI_VRAM_TYPE_DDR4); (9, AMDSMI_VRAM_TYPE_GDDR6); (10, AMDSMI_VRAM_TYPE_DDR5); (11, AMDSMI_VRAM_TYPE_LPDDR4);
   (12, AMDSMI_VRAM_TYPE_LPDDR5); (13, AMDSMI_VRAM_TYPE_HBM3E)].

Definition vram_type_value (type : Z) : amdsmi_vram_type_t :=
  match List.find (fun e => e.1 =? type) vram_type_map with Some e => e.2 | None => AMDSMI_VRAM_TYPE_UNKNOWN end.

(** [ostream_joiner]: what an assignment writes and leaves. *)
Record ostream_joiner := mkJoiner { m_is_first : bool; m_value_count : Z }.
Definition kMAX_VALUES_PER_LINE : Z := 9.
Definition joiner_new : ostream_joiner := mkJoiner true 0.
Definition joiner_assign (delimiter value : string) (j : ostream_joiner) : string * ostream_joiner :=
  let text := if m_is_first j then EmptyString else delimiter in
  let n := u32 (m_value_count j + 1) in
  if n mod kMAX_VALUES_PER_LINE =? 0 then ((text ++ String "010" value)%string, mkJoiner false 0)
  else ((text ++ value)%string, mkJoiner false n).

Section utils.
Context {K : Type} `{Kernel K}.
Abbreviation smi_result T := (M K (amdsmi_status_t * T)).

(** ** Files and the environment *)

Definition smi_brcm_get_value_u32 (folder file_name : string) : M K (option Z) :=
  file ← kcall_ (sys_read_file (folder ++ "/" ++ file_name));
  mret (match file with
        | None => Some 0xFFFF
        | Some text => u32 <$> stoi (default EmptyString (head (split_lines EmptyString text)))
        end).

(** The lines before the first empty one, without their ends. *)
Fixpoint lines_until_empty (lines : list string) : string :=
  match lines with
  | [] => EmptyString
  | line :: lines => if String.eqb line EmptyString then EmptyString else (line ++ lines_until_empty lines)%string
  end.

Definition smi_brcm_get_value_string (folder file_name : string) : M K string :=
  file ← kcall_ (sys_read_file (folder ++ "/" ++ file_name));
  mret (match file with None => "N/A"%string | Some text => lines_until_empty (split_lines EmptyString text) end).

Definition read_env_ms (name : string) (def : Z) : M K Z :=
  s ← kcall_ (sys_getenv name);
  mret (match s with Some s => match stoi s with Some n => Z.max 0 n | None => def end | None => def end).

Definition is_vm_guest : M K bool :=
  infile ← kcall_ (sys_read_file "/proc/cpuinfo");
  mret (match infile with
        | None => false
        | Some text => existsb (fun line => match String.index 0 "hypervisor" line with Some _ => true | None => false end)
                         (split_lines EmptyString text)
        end).

Definition is_sudo_user : M K bool :=
  '(myUID, myPrivledges) ← kcall_ sys_geteuid;
  mret ((myUID =? myPrivledges) && (myPrivledges =? 0)).

Definition board_info_zero : amdsmi_board_info_t := mkSmiBoardInfo EmptyString EmptyString EmptyString EmptyString EmptyString.

Definition get_product_serial_number (s : Smi) (processor_handle : Z) : M K Z :=
  '(status, info) ← amdsmi_get_gpu_board_info s processor_handle (Some board_info_zero);
  let serial := sb_product_serial (default board_info_zero info) in
  mret (if negb (bool_decide (status = AMDSMI_STATUS_SUCCESS)) then 0
        else if String.eqb serial EmptyString then 0
        else stoull_or_0 serial).

(** ** The numbering of the devices *)

(** [data()] of a vector: an empty one has no array. *)
Definition data (l : list Z) : option (list Z) := match l with [] => None | _ => Some l end.

(** The two calls for the sockets: the status, their number, the vector. *)
Definition socket_vector (s : Smi) : M K (amdsmi_status_t * Z * list Z) :=
  '(ret, socket_count, _) ← amdsmi_get_socket_handles s (Some 0) None;
  let n := default 0 socket_count in
  if negb (bool_decide (ret = AMDSMI_STATUS_SUCCESS)) then mret (ret, n, [])
  else
    let sockets := repeat 0 (Z.to_nat n) in
    '(ret, socket_count, out) ← amdsmi_get_socket_handles s (Some n) (data sockets);
    mret (ret, default 0 socket_count, default sockets out).

Definition processor_count (s : Smi) (socket : Z) : M K Z :=
  '(_, count, _) ← amdsmi_get_processor_handles s socket (Some 0) None; mret (default 0 count).

(** The two calls for the processors of a socket, whose status is not looked at. *)
Definition processor_vector (s : Smi) (socket : Z) : M K (Z * list Z) :=
  n ← processor_count s socket;
  let handles := repeat 0 (Z.to_nat n) in
  '(_, count, out) ← amdsmi_get_processor_handles s socket (Some n) (data handles);
  mret (default 0 count, default handles out).

(** The inner loop: [inl] is a hit, [inr] the index after the socket. *)
Fixpoint scan_handles {A} (hit : Z -> Z -> option A) (n : nat) (handles : list Z) (current_device_index : Z) : option (A + Z) :=
  match n, handles with
  | O, _ => Some (inr current_device_index)
  | S _, [] => None
  | S n, h :: handles =>
      match hit current_device_index h with
      | Some r => Some (inl r)
      | None => scan_handles hit n handles (u32 (current_device_index + 1))
      end
  end.

(** The loop over the sockets. *)
Fixpoint scan_sockets {A} (s : Smi) (hit : Z -> Z -> option A) (n : nat) (sockets : list Z) (current_device_index : Z) : M K (option A) :=
  match n, sockets with
  | O, _ => mret None
  | S _, [] => abort
  | S n, socket :: sockets =>
      '(device_count, handles) ← processor_vector s socket;
      r ← mderef (scan_handles hit (Z.to_nat device_count) handles current_device_index);
      match r with inl x => mret (Some x) | inr i => scan_sockets s hit n sockets i end
  end.

Definition find_device {A} (s : Smi) (hit : Z -> Z -> option A) (out : A) : smi_result A :=
  '(ret, socket_count, sockets) ← socket_vector s;
  if negb (bool_decide (ret = AMDSMI_STATUS_SUCCESS)) then fails ret out
  else
    r ← scan_sockets s hit (Z.to_nat socket_count) sockets 0;
    match r with Some x => succeeds x | None => fails AMDSMI_STATUS_API_FAILED out end.

Definition smi_amdgpu_get_device_index (s : Smi) (processor_handle : Z) (device_index : option Z) : smi_result (option Z) :=
  nonnull device_index (fun _ =>
    r ← find_device s (fun i h => if h =? processor_handle then Some i else None) UINT32_MAX;
    mret (r.1, Some r.2)).

Definition smi_amdgpu_get_processor_handle_by_index (s : Smi) (device_index : Z) (processor_handle : option Z) : smi_result (option Z) :=
  nonnull processor_handle (fun old =>
    r ← find_device s (fun i h => if i =? device_index then Some h else None) old;
    mret (r.1, Some r.2)).

Fixpoint count_devices (s : Smi) (n : nat) (sockets : list Z) (device_num : Z) : M K Z :=
  match n, sockets with
  | O, _ => mret device_num
  | S _, [] => abort
  | S n, socket :: sockets => c ← processor_count s socket; count_devices s n sockets (u32 (device_num + c))
  end.

Definition smi_amdgpu_get_device_count (s : Smi) (total_num_devices : option Z) : smi_result (option Z) :=
  nonnull total_num_devices (fun _ =>
    '(ret, socket_count, sockets) ← socket_vector s;
    if negb (bool_decide (ret = AMDSMI_STATUS_SUCCESS)) then fails ret (Some 0)
    else n ← count_devices s (Z.to_nat socket_count) sockets 0; succeeds (Some n)).
End utils.
