(* ===== verification/SmiStubs.v ===== *)
(** * SmiStubs: what AMD SMI does not support here (amdsmi/src/amd_smi/amd_smi.cc)

    The entry points without an implementation. They look at some of their pointers, clear
    a count here and there, and never ask whether the library is initialised. *)

From Stdlib Require Import String.
From S2P Require Import Prelude.
From S2P Require Import SmiStatus.
From S2P Require Import World.
From S2P Require Import Platform.
From S2P Require Import Smi.
#[local] Open Scope Z_scope.

(** What is looked at first. *)
Inductive guard :=
  | Unguarded
  | Pointers (n : nat)    (* [n] pointers, none of them [nullptr] *)
  | Text                  (* a buffer and its length, not 0 *)
  | Count                 (* a pointer to a count, which is set to 0 *)
  | Counts (n : nat)      (* [n] pointers; the counts behind those that are not [nullptr] are set to 0 *)
  | Stats.                (* a count, and a table unless the count is 0 *)

(** The call on the pointers that are looked at and the length of a buffer. *)
Definition stub_call (g : guard) (ptrs : list (option Z)) (len : Z) : amdsmi_status_t * list (option Z) :=
  match g, ptrs with
  | Unguarded, _ => (AMDSMI_STATUS_NOT_SUPPORTED, ptrs)
  | Pointers n, _ =>
      (if forallb (fun p => match p with Some _ => true | None => false end) (take n ptrs)
       then AMDSMI_STATUS_NOT_SUPPORTED else AMDSMI_STATUS_INVAL, ptrs)
  | Text, p :: _ => (if bool_decide (p = None) || (len =? 0) then AMDSMI_STATUS_INVAL else AMDSMI_STATUS_NOT_SUPPORTED, ptrs)
  | Count, p :: ptrs' =>
      match p with
      | None => (AMDSMI_STATUS_INVAL, ptrs)
      | Some _ => (AMDSMI_STATUS_NOT_SUPPORTED, Some 0 :: ptrs')
      end
  | Counts n, _ => (AMDSMI_STATUS_NOT_SUPPORTED, ((fun p : option Z => (fun _ => 0) <$> p) <$> take n ptrs) ++ drop n ptrs)
  | Stats, num :: stats :: _ =>
      match num with
      | None => (AMDSMI_STATUS_INVAL, ptrs)
      | Some n => (if bool_decide (stats = None) && (0 <? n) then AMDSMI_STATUS_INVAL else AMDSMI_STATUS_NOT_SUPPORTED, ptrs)
      end
  | _, _ => (AMDSMI_STATUS_INVAL, ptrs)
  end.

#[local] Open Scope string_scope.

Definition stubs_processor_info : list (string * guard) :=
  [("amdsmi_get_processor_info", Pointers 1)].

Definition stubs_processor_handles : list (string * guard) :=
  [("amdsmi_get_nic_processor_handles", Count); ("amdsmi_get_switch_processor_handles", Count);
   ("amdsmi_get_node_handle", Pointers 1); ("amdsmi_get_processor_count_from_handles", Counts 3);
   ("amdsmi_get_processor_handles_by_type", Counts 1)].

Definition stubs_nic : list (string * guard) :=
  [("amdsmi_get_ainic_info", Pointers 1); ("amdsmi_get_nic_asic_info", Pointers 1);
   ("amdsmi_get_nic_bus_info", Pointers 1); ("amdsmi_get_nic_driver_info", Pointers 1);
   ("amdsmi_get_nic_numa_info", Pointers 1); ("amdsmi_get_nic_port_info", Pointers 1);
   ("amdsmi_get_nic_rdma_dev_info", Pointers 1); ("amdsmi_get_nic_info", Pointers 1);
   ("amdsmi_get_nic_temp_info", Pointers 1); ("amdsmi_get_nic_power_info", Pointers 1);
   ("amdsmi_get_nic_device_info", Pointers 1); ("amdsmi_get_nic_metrics_info", Pointers 1);
   ("amdsmi_get_switch_device_bdf", Pointers 1); ("amdsmi_get_switch_link_info", Pointers 1);
   ("amdsmi_get_switch_power_info", Pointers 1); ("amdsmi_get_switch_device_info", Pointers 1);
   ("amdsmi_get_switch_metrics_info", Pointers 1); ("amdsmi_get_nic_fw_info", Pointers 1);
   ("amdsmi_get_nic_rdma_port_statistics", Stats)].

Definition stubs_enumeration : list (string * guard) :=
  [("amdsmi_get_gpu_enumeration_info", Pointers 1)].

Definition stubs_npm : list (string * guard) :=
  [("amdsmi_get_npm_info", Pointers 1)].

Definition stubs_violation : list (string * guard) :=
  [("amdsmi_get_violation_status", Pointers 1)].

Definition stubs_fan_control : list (string * guard) :=
  [("amdsmi_reset_gpu_fan", Unguarded); ("amdsmi_set_gpu_fan_speed", Unguarded)].

Definition stubs_xgmi_kfd : list (string * guard) :=
  [("amdsmi_get_gpu_xgmi_link_status", Pointers 1); ("amdsmi_get_gpu_kfd_info", Pointers 1)].

Definition stubs_vram_vendor : list (string * guard) :=
  [("amdsmi_get_gpu_vram_vendor", Text)].

Definition stubs_events_topology_partitions : list (string * guard) :=
  [("amdsmi_init_gpu_event_notification", Unguarded); ("amdsmi_set_gpu_event_notification_mask", Unguarded);
   ("amdsmi_get_gpu_event_notification", Unguarded); ("amdsmi_stop_gpu_event_notification", Unguarded);
   ("amdsmi_gpu_counter_group_supported", Unguarded); ("amdsmi_gpu_create_counter", Unguarded);
   ("amdsmi_gpu_destroy_counter", Unguarded); ("amdsmi_gpu_control_counter", Unguarded);
   ("amdsmi_gpu_read_counter", Unguarded); ("amdsmi_get_gpu_available_counters", Unguarded);
   ("amdsmi_topo_get_numa_node_number", Unguarded); ("amdsmi_topo_get_link_weight", Unguarded);
   ("amdsmi_get_minmax_bandwidth_between_processors", Unguarded); ("amdsmi_get_link_metrics", Pointers 1);
   ("amdsmi_topo_get_link_type", Unguarded); ("amdsmi_is_P2P_accessible", Unguarded);
   ("amdsmi_topo_get_p2p_status", Unguarded); ("amdsmi_get_gpu_compute_partition", Text);
   ("amdsmi_set_gpu_compute_partition", Unguarded); ("amdsmi_get_gpu_memory_partition", Text);
   ("amdsmi_set_gpu_memory_partition", Unguarded); ("amdsmi_get_gpu_memory_partition_config", Pointers 1)].

Definition stubs_accelerator_xgmi : list (string * guard) :=
  [("amdsmi_get_gpu_accelerator_partition_profile_config", Pointers 1);
   ("amdsmi_get_gpu_accelerator_partition_profile", Pointers 2);
   ("amdsmi_set_gpu_accelerator_partition_profile", Unguarded); ("amdsmi_get_xgmi_info", Pointers 1);
   ("amdsmi_gpu_xgmi_error_status", Unguarded); ("amdsmi_reset_gpu_xgmi_error", Unguarded)].

Definition stubs_ecc : list (string * guard) :=
  [("amdsmi_get_gpu_ecc_count", Unguarded); ("amdsmi_get_gpu_ecc_enabled", Unguarded);
   ("amdsmi_get_gpu_ecc_status", Unguarded)].

Definition stubs_partition_metrics : list (string * guard) :=
  [("amdsmi_get_gpu_partition_metrics_info", Unguarded)].

Definition stubs_pm_metrics : list (string * guard) :=
  [("amdsmi_get_gpu_pm_metrics_info", Unguarded); ("amdsmi_get_gpu_reg_table_info", Unguarded)].

Definition stubs_power_control : list (string * guard) :=
  [("amdsmi_set_power_cap", Unguarded); ("amdsmi_get_supported_power_cap", Unguarded);
   ("amdsmi_get_gpu_power_profile_presets", Unguarded); ("amdsmi_set_gpu_perf_determinism_mode", Unguarded);
   ("amdsmi_set_gpu_power_profile", Unguarded); ("amdsmi_get_gpu_perf_level", Unguarded);
   ("amdsmi_set_gpu_perf_level", Unguarded); ("amdsmi_set_gpu_pci_bandwidth", Unguarded)].

Definition stubs_clock_policies : list (string * guard) :=
  [("amdsmi_set_clk_freq", Unguarded); ("amdsmi_set_soc_pstate", Unguarded); ("amdsmi_get_soc_pstate", Unguarded);
   ("amdsmi_set_xgmi_plpd", Unguarded); ("amdsmi_get_xgmi_plpd", Unguarded);
   ("amdsmi_get_gpu_process_isolation", Unguarded); ("amdsmi_set_gpu_process_isolation", Unguarded);
   ("amdsmi_clean_gpu_local_data", Unguarded); ("amdsmi_get_gpu_memory_reserved_pages", Unguarded)].

Definition stubs_overdrive : list (string * guard) :=
  [("amdsmi_get_gpu_overdrive_level", Unguarded); ("amdsmi_get_gpu_mem_overdrive_level", Unguarded);
   ("amdsmi_set_gpu_overdrive_level", Unguarded)].

Definition stubs_throughput_od : list (string * guard) :=
  [("amdsmi_get_gpu_pci_throughput", Pointers 3); ("amdsmi_get_gpu_od_volt_info", Unguarded);
   ("amdsmi_get_gpu_od_volt_curve_regions", Unguarded)].

Definition stubs_clock_control_reset : list (string * guard) :=
  [("amdsmi_set_gpu_od_clk_info", Unguarded); ("amdsmi_set_gpu_od_volt_info", Unguarded);
   ("amdsmi_set_gpu_clk_range", Unguarded); ("amdsmi_set_gpu_clk_limit", Unguarded); ("amdsmi_reset_gpu", Unguarded);
   ("amdsmi_gpu_driver_reload", Unguarded)].

Definition stubs_energy : list (string * guard) :=
  [("amdsmi_get_energy_count", Pointers 3)].

Definition stubs_affinity : list (string * guard) :=
  [("amdsmi_get_gpu_topo_numa_affinity", Unguarded); ("amdsmi_get_gpu_topo_cpu_affinity", Unguarded);
   ("amdsmi_get_nic_gpu_topo_info", Unguarded); ("amdsmi_get_root_switch", Unguarded);
   ("amdsmi_get_nic_topo_numa_affinity", Unguarded); ("amdsmi_get_nic_topo_cpu_affinity", Unguarded);
   ("amdsmi_get_switch_topo_numa_affinity", Unguarded); ("amdsmi_get_switch_topo_cpu_affinity", Unguarded)].

Definition stubs_power_management : list (string * guard) :=
  [("amdsmi_is_gpu_power_management_enabled", Unguarded)].

Definition stubs_ras : list (string * guard) :=
  [("amdsmi_get_gpu_ras_block_features_enabled", Unguarded); ("amdsmi_get_gpu_bad_page_info", Unguarded);
   ("amdsmi_get_gpu_bad_page_threshold", Unguarded); ("amdsmi_gpu_validate_ras_eeprom", Unguarded);
   ("amdsmi_get_gpu_ras_feature_info", Unguarded); ("amdsmi_get_gpu_total_ecc_count", Unguarded);
   ("amdsmi_get_gpu_cper_entries", Unguarded); ("amdsmi_get_afids_from_cper", Unguarded)].

Definition stubs_nic_uuid : list (string * guard) :=
  [("amdsmi_get_nic_device_uuid", Unguarded); ("amdsmi_get_switch_device_uuid", Unguarded)].

Definition stubs_xcd : list (string * guard) :=
  [("amdsmi_get_gpu_xcd_counter", Pointers 1)].

Definition stubs_links_cpu : list (string * guard) :=
  [("amdsmi_get_link_topology_nearest", Unguarded); ("amdsmi_get_gpu_virtualization_mode", Unguarded);
   ("amdsmi_get_gpu_ptl_state", Unguarded); ("amdsmi_set_gpu_ptl_state", Unguarded);
   ("amdsmi_get_gpu_ptl_formats", Unguarded); ("amdsmi_set_gpu_ptl_formats", Unguarded);
   ("amdsmi_get_cpu_affinity_with_scope", Unguarded); ("amdsmi_get_threads_per_core", Unguarded);
   ("amdsmi_get_cpu_hsmp_proto_ver", Unguarded); ("amdsmi_get_cpu_hsmp_driver_version", Unguarded);
   ("amdsmi_get_cpu_smu_fw_version", Unguarded); ("amdsmi_get_cpu_core_energy", Unguarded);
   ("amdsmi_get_cpu_socket_energy", Unguarded); ("amdsmi_get_cpu_prochot_status", Unguarded);
   ("amdsmi_get_cpu_fclk_mclk", Unguarded); ("amdsmi_get_cpu_cclk_limit", Unguarded);
   ("amdsmi_get_cpu_socket_current_active_freq_limit", Unguarded); ("amdsmi_get_cpu_socket_freq_range", Unguarded);
   ("amdsmi_get_cpu_core_current_freq_limit", Unguarded); ("amdsmi_get_cpu_socket_power", Unguarded);
   ("amdsmi_get_cpu_socket_power_cap", Unguarded); ("amdsmi_get_cpu_socket_power_cap_max", Unguarded);
   ("amdsmi_get_cpu_pwr_svi_telemetry_all_rails", Unguarded); ("amdsmi_set_cpu_socket_power_cap", Unguarded);
   ("amdsmi_set_cpu_pwr_efficiency_mode", Unguarded); ("amdsmi_get_cpu_core_boostlimit", Unguarded);
   ("amdsmi_get_cpu_socket_c0_residency", Unguarded); ("amdsmi_set_cpu_core_boostlimit", Unguarded);
   ("amdsmi_set_cpu_socket_boostlimit", Unguarded); ("amdsmi_get_cpu_ddr_bw", Unguarded);
   ("amdsmi_get_cpu_socket_temperature", Unguarded); ("amdsmi_get_cpu_dimm_temp_range_and_refresh_rate", Unguarded)].

Definition stubs_cpu : list (string * guard) :=
  [("amdsmi_get_cpu_dimm_power_consumption", Unguarded); ("amdsmi_get_cpu_dimm_thermal_sensor", Unguarded);
   ("amdsmi_set_cpu_xgmi_width", Unguarded); ("amdsmi_set_cpu_gmi3_link_width_range", Unguarded);
   ("amdsmi_cpu_apb_enable", Unguarded); ("amdsmi_cpu_apb_disable", Unguarded);
   ("amdsmi_set_cpu_socket_lclk_dpm_level", Unguarded); ("amdsmi_get_cpu_socket_lclk_dpm_level", Unguarded);
   ("amdsmi_set_cpu_pcie_link_rate", Unguarded); ("amdsmi_set_cpu_df_pstate_range", Unguarded);
   ("amdsmi_get_cpu_current_io_bandwidth", Unguarded); ("amdsmi_get_cpu_current_xgmi_bw", Unguarded);
   ("amdsmi_get_hsmp_metrics_table_version", Unguarded); ("amdsmi_get_hsmp_metrics_table", Unguarded);
   ("amdsmi_first_online_core_on_cpu_socket", Unguarded); ("amdsmi_get_cpu_family", Unguarded);
   ("amdsmi_get_cpu_model", Unguarded); ("amdsmi_get_cpu_model_name", Unguarded);
   ("amdsmi_get_cpu_cores_per_socket", Unguarded); ("amdsmi_get_cpu_socket_count", Unguarded);
   ("amdsmi_get_cpu_handles", Unguarded); ("amdsmi_get_cpucore_handles", Unguarded);
   ("amdsmi_get_esmi_err_msg", Unguarded); ("amdsmi_set_cpu_rail_isofreq_policy", Unguarded);
   ("amdsmi_get_cpu_rail_isofreq_policy", Unguarded); ("amdsmi_set_dfc_ctrl", Unguarded);
   ("amdsmi_get_dfc_ctrl", Unguarded)].

Definition all_stubs : list (string * guard) :=
  stubs_processor_info ++ stubs_processor_handles ++ stubs_nic ++ stubs_enumeration ++ stubs_npm ++
  stubs_violation ++ stubs_fan_control ++ stubs_xgmi_kfd ++ stubs_vram_vendor ++
  stubs_events_topology_partitions ++ stubs_accelerator_xgmi ++ stubs_ecc ++ stubs_partition_metrics ++
  stubs_pm_metrics ++ stubs_power_control ++ stubs_clock_policies ++ stubs_overdrive ++ stubs_throughput_od ++
  stubs_clock_control_reset ++ stubs_energy ++ stubs_affinity ++ stubs_power_management ++ stubs_ras ++
  stubs_nic_uuid ++ stubs_xcd ++ stubs_links_cpu ++ stubs_cpu.

#[local] Open Scope Z_scope.

Definition stub_of (name : string) : guard :=
  match List.find (fun e => String.eqb e.1 name) all_stubs with Some e => e.2 | None => Unguarded end.

(** The one that asks. *)
Definition amdsmi_set_gpu_memory_partition_mode (s : Smi) : amdsmi_status_t :=
  if init_ref_count s =? 0 then AMDSMI_STATUS_NOT_INIT else (stub_call (stub_of "amdsmi_set_gpu_memory_partition") [] 0).1.

(** None of them ever succeeds, and what they write is 0. *)
Lemma stub_never_succeeds g ptrs len :
  ((stub_call g ptrs len).1 = AMDSMI_STATUS_NOT_SUPPORTED \/ (stub_call g ptrs len).1 = AMDSMI_STATUS_INVAL) /\
  Forall2 (fun p p' => p' = p \/ is_Some p /\ p' = Some 0) ptrs (stub_call g ptrs len).2.
Proof.
  assert (forall l : list (option Z), Forall2 (fun p p' => p' = p \/ is_Some p /\ p' = Some 0) l l) as Hrefl.
  { intros l. induction l; constructor; auto. }
  destruct g as [|n| | |n|]; cbn.
  - auto.
  - split; [case_match; auto|done].
  - destruct ptrs as [|p ptrs]; cbn; [auto|]. split; [case_match; auto|apply Hrefl].
  - destruct ptrs as [|[x|] ptrs]; cbn; auto.
  - split; [auto|]. rewrite <-(take_drop n ptrs) at 1. apply Forall2_app; [|apply Hrefl].
    apply Forall2_fmap_r. induction (take n ptrs) as [|[x|] l IH]; constructor; try done; [right; eauto|by left].
  - destruct ptrs as [|[x|] [|q ptrs]]; cbn; auto. split; [case_match; auto|apply Hrefl].
Qed.

Lemma stubs_distinct : length all_stubs = 176%nat /\ NoDup (fst <$> all_stubs).
Proof. split; [reflexivity|]. by apply (bool_decide_unpack _); vm_compute. Qed.
