(* ===== verification/Topology.v ===== *)
(** * Topology: the nodes of the machine (src/topology.cpp)

    Node 0 is the processor, node [n] the [n]-th adapter. A snapshot reads the properties
    of every node with its memory banks, its caches and its links, once per acquisition of
    the system properties; the getters copy from it. The state next to the library's is
    [Topology]: the snapshot, what /proc/cpuinfo said, and the platform. *)

From Stdlib Require Import String Ascii QArith Qround.
From S2P Require Import Prelude.
From S2P Require Import StdMap.
From S2P Require Import BitField.
From S2P Require Import Utils.
From S2P Require Import Status.
From S2P Require Import World.
From S2P Require Import Runtime.
From S2P Require Import Device.
From S2P Require Import Memory.
From S2P Require Import Queue.
From S2P Require Import QueueThread.
From S2P Require Import Sdma.
From S2P Require Import QueueApi.
From S2P Require Import Sysfs.
From S2P Require Import Platform.
#[local] Open Scope Z_scope.

(** ** Data *)

Definition NUM_OF_IGPU_HEAPS : Z := 3.
Definition NUM_OF_DGPU_HEAPS : Z := 3.
Definition SGPR_SIZE_PER_CU : Z := 0x4000.
Definition INVALID_NODEID : Z := 0xFFFFFFFF.

(** [HSA_CAPABILITY], the fields that are set; [HSAMMUPresent] and [SVMAPISupported] stay 0. *)
Record HSA_CAPABILITY := mkCapability {
  cap_ASICRevision : Z;
  cap_WatchPointsTotalBits : Z;
  cap_DoorbellType : Z;
}.
Definition capability_zero : HSA_CAPABILITY := mkCapability 0 0 0.

Record HSA_ENGINE_ID := mkEngineId {
  eng_uCode : Z;
  eng_Major : Z;
  eng_Minor : Z;
  eng_Stepping : Z;
}.
Definition engine_zero : HSA_ENGINE_ID := mkEngineId 0 0 0 0.

(** [HsaNodeProperties]: the fields that are set, all within the first 368 bytes; the
    others are always 0. The names are the characters before the terminator. *)
Record HsaNodeProperties := mkNodeProperties {
  NumCPUCores : Z;
  NumFComputeCores : Z;
  NumMemoryBanks : Z;
  NumCaches : Z;
  NumIOLinks : Z;
  CComputeIdLo : Z;
  FComputeIdLo : Z;
  Capability : HSA_CAPABILITY;
  MaxWavesPerSIMD : Z;
  LDSSizeInKB : Z;
  GDSSizeInKB : Z;
  np_WaveFrontSize : Z;
  NumShaderBanks : Z;
  NumArrays : Z;
  NumCUPerArray : Z;
  NumSIMDPerCU : Z;
  MaxSlotsScratchCU : Z;
  EngineId : HSA_ENGINE_ID;
  OverrideEngineId : HSA_ENGINE_ID;
  VendorId : Z;
  np_DeviceId : Z;
  LocationId : Z;
  LocalMemSize : Z;
  MaxEngineClockMhzFCompute : Z;
  MaxEngineClockMhzCCompute : Z;
  DrmRenderMinor : Z;
  MarketingName : list Z;
  AMDName : list Z;
  uCodeSDMA : Z;
  DebugProperties : Z;
  HiveID : Z;
  NumSdmaEngines : Z;
  NumSdmaXgmiEngines : Z;
  NumSdmaQueuesPerEngine : Z;
  np_NumCpQueues : Z;
  NumGws : Z;
  Integrated : Z;
  np_Domain : Z;
  UniqueID : Z;
  VGPRSizePerCU : Z;
  SGPRSizePerCU : Z;
  NumXcc : Z;
  KFDGpuID : Z;
  FamilyID : Z;
}.

Definition np_zero : HsaNodeProperties :=
  mkNodeProperties 0 0 0 0 0 0 0 capability_zero 0 0 0 0 0 0 0 0 0 engine_zero engine_zero 0 0 0 0 0 0 0 [] [] 0 0 0 0 0 0 0
    0 0 0 0 0 0 0 0 0.

Definition np_set_NumCaches (v : Z) (p : HsaNodeProperties) : HsaNodeProperties :=
  mkNodeProperties (NumCPUCores p) (NumFComputeCores p) (NumMemoryBanks p) v (NumIOLinks p) (CComputeIdLo p) (FComputeIdLo
    p) (Capability p) (MaxWavesPerSIMD p) (LDSSizeInKB p) (GDSSizeInKB p) (np_WaveFrontSize p)
    (NumShaderBanks p) (NumArrays p) (NumCUPerArray p) (NumSIMDPerCU p) (MaxSlotsScratchCU p) (EngineId p)
    (OverrideEngineId p) (VendorId p) (np_DeviceId p) (LocationId p) (LocalMemSize p)
    (MaxEngineClockMhzFCompute p) (MaxEngineClockMhzCCompute p) (DrmRenderMinor p) (MarketingName p) (AMDName
    p) (uCodeSDMA p) (DebugProperties p) (HiveID p) (NumSdmaEngines p) (NumSdmaXgmiEngines p)
    (NumSdmaQueuesPerEngine p) (np_NumCpQueues p) (NumGws p) (Integrated p) (np_Domain p) (UniqueID p)
    (VGPRSizePerCU p) (SGPRSizePerCU p) (NumXcc p) (KFDGpuID p) (FamilyID p).
Definition np_set_NumIOLinks (v : Z) (p : HsaNodeProperties) : HsaNodeProperties :=
  mkNodeProperties (NumCPUCores p) (NumFComputeCores p) (NumMemoryBanks p) (NumCaches p) v (CComputeIdLo p) (FComputeIdLo p)
    (Capability p) (MaxWavesPerSIMD p) (LDSSizeInKB p) (GDSSizeInKB p) (np_WaveFrontSize p) (NumShaderBanks
    p) (NumArrays p) (NumCUPerArray p) (NumSIMDPerCU p) (MaxSlotsScratchCU p) (EngineId p) (OverrideEngineId
    p) (VendorId p) (np_DeviceId p) (LocationId p) (LocalMemSize p) (MaxEngineClockMhzFCompute p)
    (MaxEngineClockMhzCCompute p) (DrmRenderMinor p) (MarketingName p) (AMDName p) (uCodeSDMA p)
    (DebugProperties p) (HiveID p) (NumSdmaEngines p) (NumSdmaXgmiEngines p) (NumSdmaQueuesPerEngine p)
    (np_NumCpQueues p) (NumGws p) (Integrated p) (np_Domain p) (UniqueID p) (VGPRSizePerCU p) (SGPRSizePerCU
    p) (NumXcc p) (KFDGpuID p) (FamilyID p).
Definition np_set_NumMemoryBanks (v : Z) (p : HsaNodeProperties) : HsaNodeProperties :=
  mkNodeProperties (NumCPUCores p) (NumFComputeCores p) v (NumCaches p) (NumIOLinks p) (CComputeIdLo p) (FComputeIdLo p)
    (Capability p) (MaxWavesPerSIMD p) (LDSSizeInKB p) (GDSSizeInKB p) (np_WaveFrontSize p) (NumShaderBanks
    p) (NumArrays p) (NumCUPerArray p) (NumSIMDPerCU p) (MaxSlotsScratchCU p) (EngineId p) (OverrideEngineId
    p) (VendorId p) (np_DeviceId p) (LocationId p) (LocalMemSize p) (MaxEngineClockMhzFCompute p)
    (MaxEngineClockMhzCCompute p) (DrmRenderMinor p) (MarketingName p) (AMDName p) (uCodeSDMA p)
    (DebugProperties p) (HiveID p) (NumSdmaEngines p) (NumSdmaXgmiEngines p) (NumSdmaQueuesPerEngine p)
    (np_NumCpQueues p) (NumGws p) (Integrated p) (np_Domain p) (UniqueID p) (VGPRSizePerCU p) (SGPRSizePerCU
    p) (NumXcc p) (KFDGpuID p) (FamilyID p).
Definition np_set_MarketingName (v : list Z) (p : HsaNodeProperties) : HsaNodeProperties :=
  mkNodeProperties (NumCPUCores p) (NumFComputeCores p) (NumMemoryBanks p) (NumCaches p) (NumIOLinks p) (CComputeIdLo p)
    (FComputeIdLo p) (Capability p) (MaxWavesPerSIMD p) (LDSSizeInKB p) (GDSSizeInKB p) (np_WaveFrontSize p)
    (NumShaderBanks p) (NumArrays p) (NumCUPerArray p) (NumSIMDPerCU p) (MaxSlotsScratchCU p) (EngineId p)
    (OverrideEngineId p) (VendorId p) (np_DeviceId p) (LocationId p) (LocalMemSize p)
    (MaxEngineClockMhzFCompute p) (MaxEngineClockMhzCCompute p) (DrmRenderMinor p) v (AMDName p) (uCodeSDMA
    p) (DebugProperties p) (HiveID p) (NumSdmaEngines p) (NumSdmaXgmiEngines p) (NumSdmaQueuesPerEngine p)
    (np_NumCpQueues p) (NumGws p) (Integrated p) (np_Domain p) (UniqueID p) (VGPRSizePerCU p) (SGPRSizePerCU
    p) (NumXcc p) (KFDGpuID p) (FamilyID p).
Definition np_set_AMDName (v : list Z) (p : HsaNodeProperties) : HsaNodeProperties :=
  mkNodeProperties (NumCPUCores p) (NumFComputeCores p) (NumMemoryBanks p) (NumCaches p) (NumIOLinks p) (CComputeIdLo p)
    (FComputeIdLo p) (Capability p) (MaxWavesPerSIMD p) (LDSSizeInKB p) (GDSSizeInKB p) (np_WaveFrontSize p)
    (NumShaderBanks p) (NumArrays p) (NumCUPerArray p) (NumSIMDPerCU p) (MaxSlotsScratchCU p) (EngineId p)
    (OverrideEngineId p) (VendorId p) (np_DeviceId p) (LocationId p) (LocalMemSize p)
    (MaxEngineClockMhzFCompute p) (MaxEngineClockMhzCCompute p) (DrmRenderMinor p) (MarketingName p) v
    (uCodeSDMA p) (DebugProperties p) (HiveID p) (NumSdmaEngines p) (NumSdmaXgmiEngines p)
    (NumSdmaQueuesPerEngine p) (np_NumCpQueues p) (NumGws p) (Integrated p) (np_Domain p) (UniqueID p)
    (VGPRSizePerCU p) (SGPRSizePerCU p) (NumXcc p) (KFDGpuID p) (FamilyID p).

(** The first [size] bytes of [src] over [dst]: the fields that end within them. *)
Definition copy_node_props (size : Z) (src dst : HsaNodeProperties) : HsaNodeProperties :=
  let sel {A} (end_ : Z) (f : HsaNodeProperties -> A) := if end_ <=? size then f src else f dst in
  mkNodeProperties (sel 4 NumCPUCores) (sel 8 NumFComputeCores) (sel 16 NumMemoryBanks) (sel 20 NumCaches) (sel 24
    NumIOLinks) (sel 28 CComputeIdLo) (sel 32 FComputeIdLo) (sel 36 Capability) (sel 44 MaxWavesPerSIMD) (sel
    48 LDSSizeInKB) (sel 52 GDSSizeInKB) (sel 56 np_WaveFrontSize) (sel 60 NumShaderBanks) (sel 64 NumArrays)
    (sel 68 NumCUPerArray) (sel 72 NumSIMDPerCU) (sel 76 MaxSlotsScratchCU) (sel 80 EngineId) (sel 84
    OverrideEngineId) (sel 86 VendorId) (sel 88 np_DeviceId) (sel 92 LocationId) (sel 100 LocalMemSize) (sel
    104 MaxEngineClockMhzFCompute) (sel 108 MaxEngineClockMhzCCompute) (sel 112 DrmRenderMinor) (sel 240
    MarketingName) (sel 304 AMDName) (sel 308 uCodeSDMA) (sel 316 DebugProperties) (sel 324 HiveID) (sel 328
    NumSdmaEngines) (sel 332 NumSdmaXgmiEngines) (sel 333 NumSdmaQueuesPerEngine) (sel 334 np_NumCpQueues)
    (sel 335 NumGws) (sel 336 Integrated) (sel 340 np_Domain) (sel 348 UniqueID) (sel 352 VGPRSizePerCU) (sel
    356 SGPRSizePerCU) (sel 360 NumXcc) (sel 364 KFDGpuID) (sel 368 FamilyID).

Definition HSA_HEAPTYPE_SYSTEM : Z := 0.
Definition HSA_HEAPTYPE_FRAME_BUFFER_PUBLIC : Z := 1.
Definition HSA_HEAPTYPE_FRAME_BUFFER_PRIVATE : Z := 2.
Definition HSA_HEAPTYPE_GPU_LDS : Z := 4.
Definition HSA_HEAPTYPE_GPU_SCRATCH : Z := 5.

Record HsaMemoryProperties := mkMemoryProperties {
  HeapType : Z;
  SizeInBytes : Z;
  mem_Width : Z;
  MemoryClockMax : Z;
  VirtualBaseAddress : Z;
}.
Definition mem_zero : HsaMemoryProperties := mkMemoryProperties 0 0 0 0 0.

Definition HSA_IOLINKTYPE_UNDEFINED : Z := 0.
Definition HSA_IOLINKTYPE_PCIEXPRESS : Z := 2.
Definition HSA_IOLINK_TYPE_QPI_1_1 : Z := 5.

Record HsaIoLinkProperties := mkIoLinkProperties {
  IoLinkType : Z;
  NodeFrom : Z;
  NodeTo : Z;
  Weight : Z;
  link_Override : bool;
  link_NonCoherent : bool;
  link_NoAtomics : bool;          (* both widths *)
}.
Definition link_zero : HsaIoLinkProperties := mkIoLinkProperties 0 0 0 0 false false false.

Record node_props_t := mkNodePropsT {
  np_node : HsaNodeProperties;
  np_mem : list HsaMemoryProperties;
  np_cache : list HsaCacheProperties;
  np_link : list HsaIoLinkProperties;
}.
Definition node_props_zero : node_props_t := mkNodePropsT np_zero [] [] [].

(** [_topology_props] without the devices, which are the library's, and with the
    platform. [g_system] holds [NumNodes], the one field that is not 0. *)
Record Topology := mkTopology {
  g_system : option Z;
  g_props : list node_props_t;
  processor_vendor : Z;
  freq_max_ : Q;
  platform_ : Platform;
}.

Definition Topology_new (p : Platform) : Topology := mkTopology None [] (-1) 0 p.

Definition tp_set_props (l : list node_props_t) (t : Topology) : Topology :=
  mkTopology (g_system t) l (processor_vendor t) (freq_max_ t) (platform_ t).
Definition tp_set_system (s : option Z) (t : Topology) : Topology :=
  mkTopology s (g_props t) (processor_vendor t) (freq_max_ t) (platform_ t).
Definition tp_set_cpu (v : Z) (f : Q) (t : Topology) : Topology :=
  mkTopology (g_system t) (g_props t) v f (platform_ t).
Definition tp_set_platform (p : Platform) (t : Topology) : Topology :=
  mkTopology (g_system t) (g_props t) (processor_vendor t) (freq_max_ t) p.

(** [std::vector::resize] *)
Definition resize {A} (n : Z) (x : A) (l : list A) : list A := take (Z.to_nat n) (l ++ repeat x (Z.to_nat n - length l)).

(** ** Names *)

(** A [char] is signed; the conversion to 16 bits extends it. *)
Definition utf16_of (c : ascii) : Z := let n := Z.of_nat (nat_of_ascii c) in if n <? 128 then n else u16 (n - 256).
Fixpoint utf16 (s : string) : list Z := match s with String c s => utf16_of c :: utf16 s | EmptyString => [] end.
Fixpoint bytes_of (s : string) : list Z := match s with String c s => Z.of_nat (nat_of_ascii c) :: bytes_of s | EmptyString => [] end.

Definition hex_char (d : Z) : Z := if d <? 10 then 48 + d else 87 + d.
(** The hexadecimal digits of [n], lowest first, at most [fuel] of them. *)
Fixpoint hex_rev (fuel : nat) (n : Z) : list Z :=
  match fuel with
  | O => []
  | S fuel => if n =? 0 then [] else hex_char (n mod 16) :: hex_rev fuel (n / 16)
  end.
Definition hex06 (n : Z) : list Z := let l := hex_rev 16 n in repeat 48 (6 - length l) ++ reverse l.

Definition HSA_GET_GFX_VERSION_FULL (e : HSA_ENGINE_ID) : Z :=
  Z.lor (Z.lor (Z.shiftl (eng_Major e) 16) (Z.shiftl (eng_Minor e) 8)) (eng_Stepping e).

(** ["GFX%06x"] *)
Definition amd_name (e : HSA_ENGINE_ID) : list Z := [71; 70; 88] ++ hex06 (HSA_GET_GFX_VERSION_FULL e).

(** [topology_get_cpu_model_name] on the first processor with the node's id; its status
    is not looked at. *)
Fixpoint topology_get_cpu_model_name (cpuinfo : list proc_cpuinfo) (p : HsaNodeProperties) : HsaNodeProperties :=
  match cpuinfo with
  | [] => p
  | c :: cpuinfo =>
      if CComputeIdLo p =? apicid c then
        let p := if np_DeviceId p =? 0 then np_set_AMDName (bytes_of (model_name c)) p else p in
        np_set_MarketingName (utf16 (str_take 63 (model_name c))) p
      else topology_get_cpu_model_name cpuinfo p
  end.

(** [sscanf(envvar, "%u.%u.%u%c", ...) == 3] *)
Definition scan_dot (s : string) : option string := match s with String "." s => Some s | _ => None end.
Definition scan_version (s : string) : option (Z * Z * Z) :=
  '(major, s) ← scan_u s; s ← scan_dot s;
  '(minor, s) ← scan_u s; s ← scan_dot s;
  '(step, s) ← scan_u s;
  match s with EmptyString => Some (major, minor, step) | _ => None end.

(** ** The properties of a node *)

(** The fields of an adapter's node before the override of the version. *)
Definition gpu_node_props (sd : DeviceInfo) (node_id mhz : Z) : HsaNodeProperties :=
  mkNodeProperties 0 (u32 (sd_SimdPerCu sd * sd_ComputeUnitCount sd)) 1 3 1 0 0 (mkCapability (sd_AsicRevision sd mod 2 ^ 4)
    (Z.log2 (sd_WatchPointsNum sd) mod 2 ^ 4) 0) (sd_WavePerCu sd / sd_SimdPerCu sd) (sd_LdsSize sd / 1024) 0
    (sd_WavefrontSize sd) (sd_NumShaderEngine sd) (sd_ShaderArrayPerShaderEngine sd) (sd_ComputeUnitCount sd
    / sd_ShaderArrayPerShaderEngine sd) (sd_SimdPerCu sd) (sd_MaxScratchSlotsPerCu sd) (mkEngineId
    (sd_MecFwVersion sd mod 2 ^ 10) 0 0 0) engine_zero 0x1002 (u16 (sd_DeviceId sd)) (sd_PciBusAddr sd) 0
    (sd_MaxEngineClockMhz sd) mhz node_id (utf16 (str_take 63 (sd_ProductName sd))) [] (sd_SdmaFwVersion sd
    mod 2 ^ 10) 0 0 (sd_NumSdmaEngines sd) 0 6 (u8 (sd_NumCpQueues sd)) 0 0 (sd_Domain sd) (sd_Uuid sd) 0 0 1
    (sd_DeviceId sd) (sd_Family sd).

(** And after it. *)
Definition gpu_node_props_done (sd : DeviceInfo) (o : option HSA_ENGINE_ID) (p : HsaNodeProperties) : HsaNodeProperties :=
  let c := Capability p in
  let e := mkEngineId (eng_uCode (EngineId p)) (sd_Major sd mod 2 ^ 6) (sd_Minor sd mod 2 ^ 8) (sd_Stepping sd mod 2 ^ 8) in
  mkNodeProperties (NumCPUCores p) (NumFComputeCores p) (NumMemoryBanks p) (NumCaches p) (NumIOLinks p) (CComputeIdLo p)
    (FComputeIdLo p) (mkCapability (cap_ASICRevision c) (cap_WatchPointsTotalBits c) 2) (MaxWavesPerSIMD p)
    (LDSSizeInKB p) (GDSSizeInKB p) (np_WaveFrontSize p) (NumShaderBanks p) (NumArrays p) (NumCUPerArray p)
    (NumSIMDPerCU p) (MaxSlotsScratchCU p) e (default engine_zero o) (VendorId p) (np_DeviceId p) (LocationId
    p) (LocalMemSize p) (MaxEngineClockMhzFCompute p) (MaxEngineClockMhzCCompute p) (DrmRenderMinor p)
    (MarketingName p) (amd_name e) (uCodeSDMA p) (DebugProperties p) (HiveID p) (NumSdmaEngines p)
    (NumSdmaXgmiEngines p) (NumSdmaQueuesPerEngine p) (np_NumCpQueues p) (NumGws p) (Integrated p) (np_Domain
    p) (UniqueID p) (get_vgpr_size_per_cu (HSA_GET_GFX_VERSION_FULL e)) SGPR_SIZE_PER_CU (NumXcc p) (KFDGpuID
    p) (FamilyID p).

(** ** The monad: the topology next to the library *)

Definition TM (K A : Type) : Type := Topology -> World K -> option (A * Topology * World K).

#[export] Instance TM_ret K : MRet (TM K) := fun A x t w => Some (x, t, w).
#[export] Instance TM_bind K : MBind (TM K) := fun A B f m t w =>
  match m t w with
  | Some (x, t', w') => f x t' w'
  | None => None
  end.

Section topology.
Context {K : Type} `{Kernel K}.

Definition tlift {A} (m : M K A) : TM K A := fun t w =>
  match m w with Some (x, w') => Some (x, t, w') | None => None end.
Definition tget {A} (f : Topology -> A) : TM K A := fun t w => Some (f t, t, w).
Definition tmod (f : Topology -> Topology) : TM K unit := fun t w => Some (tt, f t, w).
(** [g_props\[i\]], which is not checked. *)
Definition get_props (i : Z) : TM K node_props_t := l ← tget g_props; tlift (mderef (l !! Z.to_nat i)).

(** [topology_map_node_id]: the device, [None] for [nullptr] with [HSAKMT_STATUS_ERROR]. *)
Definition topology_map_node_id (node_id : Z) : M K (option WDDMDevice) :=
  o ← get_wddmdev node_id;
  match o with None => mret None | Some i => d ← get_dev i; mret (Some d) end.

(** The override of the version: [None] when it is invalid. *)
Definition override_engine (env : option string) : option (option HSA_ENGINE_ID) :=
  match env with
  | None => Some None
  | Some s =>
      '(major, minor, step) ← scan_version s;
      if (63 <? major) || (255 <? minor) || (255 <? step) then None else Some (Some (mkEngineId 0 major minor step))
  end.

(** The status and the properties, as far as they were set. Divisions by zero and the
    logarithm of 0 are undefined. *)
Definition topology_sysfs_get_node_props (node_id mhz : Z) : M K (HSAKMT_STATUS * HsaNodeProperties) :=
  if node_id =? 0 then
    n ← kcall_ sys_nprocessors;
    mret (HSAKMT_STATUS_SUCCESS, mkNodeProperties n 0 1 0 0 0 0 capability_zero 0 0 0 0 0 0 0 0 0
            engine_zero engine_zero 0 0 0 0 0 mhz 0 [] [] 0 0 0 0 0 0 0 0 0 0 0 0 0 0 0 0)
  else
    o ← topology_map_node_id node_id;
    match o with
    | None =>
        mret (HSAKMT_STATUS_ERROR, mkNodeProperties 0 0 0 0 0 0 0 capability_zero 0 0 0 0 0 0 0 0 0
            engine_zero engine_zero 0 0 0 0 0 mhz 0 [] [] 0 0 0 0 0 0 0 0 0 0 0 0 0 0 0 0)
    | Some d =>
        let sd := shared_dev_ d in
        massert (negb (sd_WatchPointsNum sd =? 0) && negb (sd_SimdPerCu sd =? 0) &&
                 negb (sd_ShaderArrayPerShaderEngine sd =? 0)) ;;
        let p := gpu_node_props sd node_id mhz in
        env ← kcall_ (sys_getenv "HSA_OVERRIDE_GFX_VERSION");
        match override_engine env with
        | None => mret (HSAKMT_STATUS_ERROR, p)
        | Some o =>
            let p := gpu_node_props_done sd o p in
            massert ((NumFComputeCores p =? 0) || negb (eng_Major (EngineId p) =? 0)) ;;
            mret (HSAKMT_STATUS_SUCCESS, p)
        end
    end.

Definition topology_setup_is_dgpu_param (p : HsaNodeProperties) : M K unit :=
  if (NumCPUCores p =? 0) && negb (NumFComputeCores p =? 0) then mod_rt (rt_hsakmt_is_dgpu true) else mret tt.

(** [sysinfo]'s result is not looked at. *)
Definition topology_sysfs_get_mem_props (node_id : Z) : M K (HSAKMT_STATUS * HsaMemoryProperties) :=
  if node_id =? 0 then
    info ← kcall_ sys_sysinfo;
    let totalram := info.2.1 in
    mod_rt (rt_max_single_alloc_size (totalram -64 Z.shiftr totalram 4)) ;;
    mret (HSAKMT_STATUS_SUCCESS, mkMemoryProperties HSA_HEAPTYPE_SYSTEM totalram 64 2133 0)
  else
    o ← topology_map_node_id node_id;
    match o with
    | None => mret (HSAKMT_STATUS_ERROR, mem_zero)
    | Some d =>
        let sd := shared_dev_ d in
        mret (HSAKMT_STATUS_SUCCESS,
          mkMemoryProperties HSA_HEAPTYPE_FRAME_BUFFER_PRIVATE
            (if sd_IsDgpu sd then LocalHeapSize d else LocalHeapSize d +64 sd_NonLocalHeapSize sd)
            (sd_MemoryBusWidth sd) (sd_MaxMemoryClockMhz sd) 0)
    end.

(** The device is used without a test. *)
Definition topology_sysfs_get_iolink_props (node_id : Z) : M K HsaIoLinkProperties :=
  o ← topology_map_node_id node_id;
  d ← mderef o;
  mret (mkIoLinkProperties HSA_IOLINKTYPE_PCIEXPRESS node_id 0 20 true true (negb (sd_SupportPlatformAtomic (shared_dev_ d)))).

(** The caches of an adapter, over those that were there. *)
Definition gpu_cache (level size : Z) (c : HsaCacheProperties) : HsaCacheProperties :=
  let ty := CacheType c in
  mkCacheProperties (ProcessorIdLow c) level size (CacheLineSize c) (CacheLinesPerTag c) (CacheAssociativity c)
    (mkCacheType true (ct_Instruction ty) (ct_CPU ty) true) (SiblingMap c).
Definition gpu_caches (n : Z) (sd : DeviceInfo) (l : list HsaCacheProperties) : option (list HsaCacheProperties) :=
  match resize n cache_zero l with
  | c1 :: c2 :: c3 :: l =>
      Some (gpu_cache 1 (sd_L1CacheSize sd / 1024) c1 :: gpu_cache 2 (sd_L2CacheSize sd / 1024) c2 ::
            gpu_cache 3 (sd_L3CacheSize sd / 1024) c3 :: l)
  | _ => None
  end.

(** The caches of a node and its properties. *)
Definition node_caches (i vendor : Z) (cpuinfo : list proc_cpuinfo) (dev : option WDDMDevice) (t : node_props_t)
    : M K (HSAKMT_STATUS * node_props_t) :=
  let p := np_node t in
  if negb (NumCaches p =? 0) then
    d ← mderef dev;
    l ← mderef (gpu_caches (NumCaches p) (shared_dev_ d) (np_cache t));
    mret (HSAKMT_STATUS_SUCCESS, mkNodePropsT p (np_mem t) l (np_link t))
  else if KFDGpuID p =? 0 then
    '(ret, l, n) ← topology_get_cpu_cache_props i vendor cpuinfo (np_cache t);
    mret (ret, mkNodePropsT (match n with Some n => np_set_NumCaches n p | None => p end) (np_mem t) l (np_link t))
  else mret (HSAKMT_STATUS_SUCCESS, t).

(** The memory banks [mem_ids] of a node into [mem]. *)
Fixpoint node_banks (mem_ids : list Z) (i : Z) (mem : list HsaMemoryProperties) : M K (HSAKMT_STATUS * list HsaMemoryProperties) :=
  match mem_ids with
  | [] => mret (HSAKMT_STATUS_SUCCESS, mem)
  | m :: mem_ids =>
      '(ret, b) ← topology_sysfs_get_mem_props i;
      let mem := <[Z.to_nat m := b]> mem in
      if decide (ret = HSAKMT_STATUS_SUCCESS) then node_banks mem_ids i mem else mret (ret, mem)
  end.

(** The loop over the [n] links sysfs names for a node: those that find a place. *)
Fixpoint node_links (n : nat) (i link_id : Z) (link : list HsaIoLinkProperties) : M K (Z * list HsaIoLinkProperties) :=
  match n with
  | O => mret (link_id, link)
  | S n =>
      if link_id <? Z.of_nat (length link) then
        l ← topology_sysfs_get_iolink_props i;
        node_links n i (link_id + 1) (<[Z.to_nat link_id := l]> link)
      else mret (link_id, link)
  end.

(** One node of a snapshot: the status and what it leaves of the node's properties.
    There are no peer-to-peer links: [num_p2pLinks] is always 0. *)
Definition snapshot_node (NumNodes vendor mhz : Z) (cpuinfo : list proc_cpuinfo) (i : Z) (t : node_props_t)
    : M K (HSAKMT_STATUS * node_props_t) :=
  dev ← topology_map_node_id i;
  '(ret, p) ← topology_sysfs_get_node_props i mhz;
  if negb (bool_decide (ret = HSAKMT_STATUS_SUCCESS)) then mret (ret, mkNodePropsT p (np_mem t) (np_cache t) (np_link t))
  else
  topology_setup_is_dgpu_param p ;;
  let p := if negb (NumCPUCores p =? 0) then topology_get_cpu_model_name cpuinfo p else p in
  '(ret, mem) ← (if NumMemoryBanks p =? 0 then mret (HSAKMT_STATUS_SUCCESS, np_mem t)
                 else node_banks (seqZ 0 (NumMemoryBanks p)) i (resize (NumMemoryBanks p) mem_zero (np_mem t)));
  let t := mkNodePropsT p mem (np_cache t) (np_link t) in
  if negb (bool_decide (ret = HSAKMT_STATUS_SUCCESS)) then mret (ret, t)
  else
  '(ret, t) ← node_caches i vendor cpuinfo dev t;
  if negb (bool_decide (ret = HSAKMT_STATUS_SUCCESS)) then mret (ret, t)
  else
  let link := resize (NumNodes - 1) link_zero (np_link t) in
  let num_ioLinks := NumIOLinks (np_node t) in
  if num_ioLinks =? 0 then mret (ret, mkNodePropsT (np_node t) (np_mem t) (np_cache t) link)
  else
    '(link_id, link) ← node_links (Z.to_nat num_ioLinks) i 0 link;
    mret (ret, mkNodePropsT (np_set_NumIOLinks link_id (np_node t)) (np_mem t) (np_cache t) link).

Fixpoint snapshot_nodes (ids : list Z) (NumNodes mhz : Z) (cpuinfo : list proc_cpuinfo) : TM K HSAKMT_STATUS :=
  match ids with
  | [] => mret HSAKMT_STATUS_SUCCESS
  | i :: ids =>
      t ← get_props i;
      vendor ← tget processor_vendor;
      '(ret, t) ← tlift (snapshot_node NumNodes vendor mhz cpuinfo i t);
      tmod (fun T => tp_set_props (<[Z.to_nat i := t]> (g_props T)) T) ;;
      if decide (ret = HSAKMT_STATUS_SUCCESS) then snapshot_nodes ids NumNodes mhz cpuinfo else mret ret
  end.
End topology.

(** ** Links *)

(** The first [NumIOLinks] entries are read without a check of the vector's length. *)
Fixpoint find_link (n : nat) (i : nat) (l : list HsaIoLinkProperties) (f : HsaIoLinkProperties -> bool)
    : option (option HsaIoLinkProperties) :=
  match n with
  | O => Some None
  | S n => p ← l !! i; if f p then Some (Some p) else find_link n (S i) l f
  end.

Definition num_links (t : node_props_t) : nat := Z.to_nat (NumIOLinks (np_node t)).

(** The processor a GPU is linked to, -1 when there is none. *)
Definition gpu_get_direct_link_cpu (gpu_node : Z) (l : list node_props_t) : option Z :=
  t ← l !! Z.to_nat gpu_node;
  if (KFDGpuID (np_node t) =? 0) || bool_decide (np_link t = []) || (NumIOLinks (np_node t) =? 0) then Some (-1)
  else
    o ← find_link (num_links t) 0 (np_link t) (fun p => (IoLinkType p =? HSA_IOLINKTYPE_PCIEXPRESS) && (Weight p <=? 20));
    Some (match o with Some p => NodeTo p | None => -1 end).

(** The weight and type of the link, or the status. *)
Definition get_direct_iolink_info (node1 node2 : Z) (l : list node_props_t) : option (HSAKMT_STATUS + Z * Z) :=
  t ← l !! Z.to_nat node1;
  if bool_decide (np_link t = []) then Some (inl HSAKMT_STATUS_INVALID_NODE_UNIT)
  else
    o ← find_link (num_links t) 0 (np_link t) (fun p => NodeTo p =? node2);
    Some (match o with Some p => inr (Weight p, IoLinkType p) | None => inl HSAKMT_STATUS_INVALID_PARAMETER end).

(** Use the information of a link, or return the status. *)
Definition with_link (o : option (HSAKMT_STATUS + Z * Z)) (f : Z -> Z -> option (HSAKMT_STATUS * Z * Z))
    (type : Z) : option (HSAKMT_STATUS * Z * Z) :=
  x ← o; match x with inl e => Some (e, 0, type) | inr (w, ty) => f w ty end.

(** Is bank [i] or a later one of the [n] banks CPU visible? *)
Fixpoint large_bar (n : nat) (i : nat) (mem : list HsaMemoryProperties) : option bool :=
  match n with
  | O => Some false
  | S n => m ← mem !! i; if HeapType m =? HSA_HEAPTYPE_FRAME_BUFFER_PUBLIC then Some true else large_bar n (S i) mem
  end.

(** [get_indirect_iolink_info]: the status, the weight and the type. *)
Definition get_indirect_iolink_info (node1 node2 : Z) (l : list node_props_t) : option (HSAKMT_STATUS * Z * Z) :=
  let undefined e := Some (e, 0, HSA_IOLINKTYPE_UNDEFINED) in
  if node1 =? node2 then undefined HSAKMT_STATUS_INVALID_PARAMETER
  else
  t1 ← l !! Z.to_nat node1; t2 ← l !! Z.to_nat node2;
  let p1 := np_node t1 in let p2 := np_node t2 in
  if (KFDGpuID p1 =? 0) && (KFDGpuID p2 =? 0) then undefined HSAKMT_STATUS_INVALID_NODE_UNIT
  else if negb (HiveID p1 =? 0) && negb (HiveID p2 =? 0) && (HiveID p1 =? HiveID p2) then undefined HSAKMT_STATUS_INVALID_PARAMETER
  else
  dir_cpu1 ← (if negb (KFDGpuID p1 =? 0) then gpu_get_direct_link_cpu node1 l else Some (-1));
  dir_cpu2 ← (if negb (KFDGpuID p2 =? 0) then gpu_get_direct_link_cpu node2 l else Some (-1));
  if (dir_cpu1 <? 0) && (dir_cpu2 <? 0) then undefined HSAKMT_STATUS_ERROR
  else
  bar ← (if negb (KFDGpuID p2 =? 0) then large_bar (Z.to_nat (NumMemoryBanks p2)) 0 (np_mem t2) else Some true);
  if negb bar then undefined HSAKMT_STATUS_ERROR
  else
  let undef := HSA_IOLINKTYPE_UNDEFINED in
  let done w ty := Some (HSAKMT_STATUS_SUCCESS, u32 w, ty) in
  if 0 <=? dir_cpu1 then
    with_link (get_direct_iolink_info node1 dir_cpu1 l) (fun w1 _ =>
      if 0 <=? dir_cpu2 then
        if dir_cpu1 =? dir_cpu2 then
          with_link (get_direct_iolink_info dir_cpu1 node2 l) (fun w2 ty => done (w1 + w2) ty) undef
        else
          with_link (get_direct_iolink_info dir_cpu1 dir_cpu2 l) (fun w2 ty =>
            if (ty =? HSA_IOLINK_TYPE_QPI_1_1) && (20 <? w2) then Some (HSAKMT_STATUS_NOT_SUPPORTED, 0, ty)
            else with_link (get_direct_iolink_info dir_cpu2 node2 l) (fun w3 _ => done (w1 + w2 + w3) ty) ty) undef
      else with_link (get_direct_iolink_info dir_cpu1 node2 l) (fun w2 ty => done (w1 + w2) ty) undef) undef
  else
    with_link (get_direct_iolink_info node1 dir_cpu2 l) (fun w2 ty =>
      with_link (get_direct_iolink_info dir_cpu2 node2 l) (fun w3 _ => done (w2 + w3) ty) ty) undef.

(** [topology_get_free_io_link_slot_for_node] and [topology_add_io_link_for_node]: the
    nodes with the link, unchanged when there is no place. *)
Definition topology_add_io_link_for_node (NumNodes node_from ty node_to weight : Z) (l : list node_props_t)
    : option (list node_props_t) :=
  t ← l !! Z.to_nat node_from;
  if (NumNodes <=? node_from) || bool_decide (np_link t = []) || (NumNodes - 1 <=? NumIOLinks (np_node t)) then Some l
  else
    p ← np_link t !! num_links t;
    let p := mkIoLinkProperties ty node_from node_to weight (link_Override p) (link_NonCoherent p) (link_NoAtomics p) in
    Some (<[Z.to_nat node_from :=
            mkNodePropsT (np_set_NumIOLinks (u32 (NumIOLinks (np_node t) + 1)) (np_node t)) (np_mem t) (np_cache t)
              (<[num_links t := p]> (np_link t))]> l).

(** One direction: a weight of 0 means there is no indirect link. *)
Definition add_indirect_link (NumNodes i j : Z) (l : list node_props_t) : option (list node_props_t) :=
  '(_, weight, ty) ← get_indirect_iolink_info i j l;
  if weight =? 0 then Some l else topology_add_io_link_for_node NumNodes i ty j weight l.

Fixpoint indirect_links (pairs : list (Z * Z)) (NumNodes : Z) (l : list node_props_t) : option (list node_props_t) :=
  match pairs with
  | [] => Some l
  | (i, j) :: pairs =>
      l ← add_indirect_link NumNodes i j l; l ← add_indirect_link NumNodes j i l; indirect_links pairs NumNodes l
  end.

(** The pairs [i < j < NumNodes] in the order of the loops. *)
Definition node_pairs (NumNodes : Z) : list (Z * Z) :=
  i ← seqZ 0 (NumNodes - 1); j ← seqZ (i + 1) (NumNodes - i - 1); [(i, j)].

Definition topology_create_indirect_gpu_links (NumNodes : Z) (l : list node_props_t) : option (list node_props_t) :=
  indirect_links (node_pairs NumNodes) NumNodes l.

Section api.
Context {K : Type} `{Kernel K}.

(** ** The snapshot *)

(** [topology_sysfs_get_system_props]: the status and [NumNodes]. *)
Definition topology_sysfs_get_system_props : TM K (HSAKMT_STATUS * Z) :=
  tlift HeapFini ;;
  tlift delete_wdevices ;;
  p ← tget platform_;
  p ← tlift (Platform_Destroy p);
  p ← tlift (WDDMCreateDevices p);
  tmod (tp_set_platform p) ;;
  num_adapters ← tlift get_num_wddmdev;
  if num_adapters =? 0 then mret (HSAKMT_STATUS_ERROR, 0)
  else
    tlift (mset (set_nodes (num_adapters + 1))) ;;
    tlift HeapInit ;;
    tlift (mod_rt (fun r => if num_adapters <? default_node r then rt_default_node num_adapters r else r)) ;;
    mret (HSAKMT_STATUS_SUCCESS, num_adapters + 1).

Definition topology_take_snapshot : TM K HSAKMT_STATUS :=
  num_procs ← tlift (kcall_ sys_nprocessors);
  vendor ← tget processor_vendor;
  freq ← tget freq_max_;
  '(cpuinfo, vendor, freq) ← tlift (topology_parse_cpuinfo num_procs vendor freq);
  tmod (tp_set_cpu vendor freq) ;;
  '(ret, NumNodes) ← topology_sysfs_get_system_props;
  if negb (bool_decide (ret = HSAKMT_STATUS_SUCCESS)) then mret ret
  else
  tmod (fun T => tp_set_props (resize NumNodes node_props_zero (g_props T)) T) ;;
  ret ← snapshot_nodes (seqZ 0 NumNodes) NumNodes (u32 (Qfloor freq)) cpuinfo;
  if negb (bool_decide (ret = HSAKMT_STATUS_SUCCESS)) then mret ret
  else
  l ← tget g_props;
  l ← tlift (mderef (topology_create_indirect_gpu_links NumNodes l));
  tmod (tp_set_props l) ;;
  tmod (tp_set_system (Some NumNodes)) ;;
  mret HSAKMT_STATUS_SUCCESS.

(** The devices go, [num_sysfs_nodes] stays. *)
Definition topology_drop_snapshot : TM K unit :=
  tmod (fun T => tp_set_system None (tp_set_props [] T)) ;;
  tlift trim_suballocator ;;
  tlift delete_wdevices ;;
  p ← tget platform_;
  p ← tlift (Platform_Destroy p);
  tmod (tp_set_platform p).

(** [CHECK_DXG_OPEN] here *)
Definition T_CHECK_DXG_OPEN {R} (err : HSAKMT_STATUS -> R) (m : TM K R) : TM K R :=
  rt ← tlift get_rt;
  if (dxg_open_count rt =? 0) || is_forked rt then mret (err HSAKMT_STATUS_KERNEL_IO_CHANNEL_NOT_OPENED) else m.

(** The status and [SystemProperties->NumNodes], [None] for the null pointer. *)
Definition hsaKmtAcquireSystemProperties (SystemProperties : option Z) : TM K (HSAKMT_STATUS * option Z) :=
  T_CHECK_DXG_OPEN (fun e => (e, SystemProperties))
  (match SystemProperties with
   | None => mret (HSAKMT_STATUS_INVALID_PARAMETER, None)
   | Some _ =>
       s ← tget g_system;
       match s with
       | Some n => mret (HSAKMT_STATUS_SUCCESS, Some n)
       | None =>
           err ← topology_take_snapshot;
           if negb (bool_decide (err = HSAKMT_STATUS_SUCCESS)) then mret (err, SystemProperties)
           else s ← tget g_system; n ← tlift (mderef s); mret (HSAKMT_STATUS_SUCCESS, Some n)
       end
   end).

(** The library need not be open. *)
Definition hsaKmtReleaseSystemProperties : TM K HSAKMT_STATUS := topology_drop_snapshot ;; mret HSAKMT_STATUS_SUCCESS.

(** ** Looking nodes up *)

Definition no_node (T : Topology) (NodeId : Z) : bool :=
  match g_system T with None => true | Some n => bool_decide (g_props T = []) || (n <=? NodeId) end.

(** The status and the GPU id. *)
Definition validate_nodeid (nodeid : Z) : TM K (HSAKMT_STATUS * Z) :=
  bad ← tget (fun T => no_node T nodeid);
  if (bad : bool) then mret (HSAKMT_STATUS_INVALID_NODE_UNIT, 0)
  else t ← get_props nodeid; mret (HSAKMT_STATUS_SUCCESS, KFDGpuID (np_node t)).

(** The nodes before [NumNodes] in order, [None] past the end of the vector. *)
Fixpoint find_node (ids : list Z) (gpu_id : Z) (l : list node_props_t) : option (option (Z * node_props_t)) :=
  match ids with
  | [] => Some None
  | i :: ids =>
      t ← l !! Z.to_nat i;
      if KFDGpuID (np_node t) =? gpu_id then Some (Some (i, t)) else find_node ids gpu_id l
  end.

(** [g_system] is not tested. *)
Definition gpuid_to_nodeid (gpu_id : Z) : TM K (HSAKMT_STATUS * Z) :=
  s ← tget g_system; n ← tlift (mderef s);
  l ← tget g_props;
  o ← tlift (mderef (find_node (seqZ 0 n) gpu_id l));
  mret (match o with Some (i, _) => (HSAKMT_STATUS_SUCCESS, i) | None => (HSAKMT_STATUS_INVALID_NODE_UNIT, 0) end).

(** The status and the ids; what the caller gets on an error is a pointer to freed memory. *)
Fixpoint validate_nodes (NodeArray : list Z) : TM K (HSAKMT_STATUS * list Z) :=
  match NodeArray with
  | [] => mret (HSAKMT_STATUS_SUCCESS, [])
  | n :: NodeArray =>
      '(ret, id) ← validate_nodeid n;
      if negb (bool_decide (ret = HSAKMT_STATUS_SUCCESS)) then mret (ret, [])
      else '(ret, l) ← validate_nodes NodeArray; mret (ret, id :: l)
  end.
Definition validate_nodeid_array (NodeArray : list Z) : TM K (HSAKMT_STATUS * list Z) :=
  if bool_decide (NodeArray = []) then mret (HSAKMT_STATUS_INVALID_PARAMETER, []) else validate_nodes NodeArray.

Definition get_device_id_by_node_id (node_id : Z) : TM K Z :=
  bad ← tget (fun T => no_node T node_id);
  if (bad : bool) then mret 0 else t ← get_props node_id; mret (np_DeviceId (np_node t)).

(** [HSAMMUPresent] is never set. *)
Definition prefer_ats (node_id : Z) : TM K bool := get_props node_id ;; mret false.

Definition get_device_id_by_gpu_id (gpu_id : Z) : TM K Z :=
  s ← tget g_system; l ← tget g_props;
  match s with
  | None => mret 0
  | Some n =>
      if bool_decide (l = []) then mret 0
      else
        o ← tlift (mderef (find_node (seqZ 0 n) gpu_id l));
        mret (match o with Some (_, t) => np_DeviceId (np_node t) | None => 0 end)
  end.

Fixpoint sum_banks (n : nat) (i : nat) (mem : list HsaMemoryProperties) (size : Z) : option Z :=
  match n with O => Some size | S n => m ← mem !! i; sum_banks n (S i) mem (size +64 SizeInBytes m) end.

Definition get_direct_link_cpu (gpu_node : Z) : TM K Z :=
  l ← tget g_props;
  cpu_id ← tlift (mderef (gpu_get_direct_link_cpu gpu_node l));
  if cpu_id =? -1 then mret INVALID_NODEID
  else
    t ← get_props cpu_id;
    tlift (massert (negb (bool_decide (np_mem t = [])))) ;;
    size ← tlift (mderef (sum_banks (Z.to_nat (NumMemoryBanks (np_node t))) 0 (np_mem t) 0));
    mret (if size =? 0 then INVALID_NODEID else u32 cpu_id).

(** ** The getters *)

(** [detected_abi] is [detected_abi_.SizeOfHsaNodeProperties], 0 before [DxgAbiCheck]. *)
Definition copy_size (detected_abi : Z) : Z := if 0 <? detected_abi then Z.min detected_abi 392 else 368.

Definition topology_get_node_props (detected_abi NodeId : Z) (dst : HsaNodeProperties) : TM K (HSAKMT_STATUS * HsaNodeProperties) :=
  bad ← tget (fun T => no_node T NodeId);
  if (bad : bool) then mret (HSAKMT_STATUS_ERROR, dst)
  else t ← get_props NodeId; mret (HSAKMT_STATUS_SUCCESS, copy_node_props (copy_size detected_abi) (np_node t) dst).

Definition hsaKmtGetNodeProperties (detected_abi NodeId : Z) (NodeProperties : option HsaNodeProperties)
    : TM K (HSAKMT_STATUS * option HsaNodeProperties) :=
  match NodeProperties with
  | None => mret (HSAKMT_STATUS_INVALID_PARAMETER, None)
  | Some dst =>
      T_CHECK_DXG_OPEN (fun e => (e, NodeProperties))
      ('(err, gpu_id) ← validate_nodeid NodeId;
       if negb (bool_decide (err = HSAKMT_STATUS_SUCCESS)) then mret (err, NodeProperties)
       else
       '(err, p) ← topology_get_node_props detected_abi NodeId dst;
       if negb (bool_decide (err = HSAKMT_STATUS_SUCCESS)) then mret (err, Some p)
       else mret (err, Some (if gpu_id =? 0 then p
                             else np_set_NumMemoryBanks (u32 (NumMemoryBanks p +
                               (if Integrated p =? 0 then NUM_OF_DGPU_HEAPS else NUM_OF_IGPU_HEAPS))) p)))
  end.

Definition hsaKmtGetNodeWallclockFrequency (NodeId : Z) (Frequency : option Z) : TM K (HSAKMT_STATUS * option Z) :=
  match Frequency with
  | None => mret (HSAKMT_STATUS_INVALID_PARAMETER, None)
  | Some _ =>
      T_CHECK_DXG_OPEN (fun e => (e, Frequency))
      (o ← tlift (topology_map_node_id NodeId);
       mret (match o with
             | None => (HSAKMT_STATUS_INVALID_NODE_UNIT, Frequency)
             | Some d => (HSAKMT_STATUS_SUCCESS, Some (sd_GpuCounterFrequency (shared_dev_ d)))
             end))
  end.

(** The first [n] of the node's banks; the vector is not empty when one is read. *)
Definition copy_banks (n : Z) (t : node_props_t) : option (list HsaMemoryProperties) :=
  if n <=? 0 then Some []
  else if (Z.of_nat (length (np_mem t)) <? n) then None
  else Some (take (Z.to_nat n) (np_mem t)).

(** The status and the [NumBanks] entries. The node is not validated. *)
Definition hsaKmtGetNodeMemoryProperties (NodeId NumBanks : Z) (MemoryProperties : option (list HsaMemoryProperties))
    : TM K (HSAKMT_STATUS * option (list HsaMemoryProperties)) :=
  match MemoryProperties with
  | None => mret (HSAKMT_STATUS_INVALID_PARAMETER, None)
  | Some _ =>
      T_CHECK_DXG_OPEN (fun e => (e, MemoryProperties))
      (t ← get_props NodeId;
       banks ← tlift (mderef (copy_banks (Z.min (NumMemoryBanks (np_node t)) NumBanks) t));
       o ← tlift (topology_map_node_id NodeId);
       let all := match o with
                  | None => banks
                  | Some d =>
                      let sd := shared_dev_ d in
                      banks ++ [mkMemoryProperties HSA_HEAPTYPE_GPU_LDS (u32 (LDSSizeInKB (np_node t) * 1024)) 0 0 (sd_SharedApertureBase sd);
                                mkMemoryProperties HSA_HEAPTYPE_GPU_SCRATCH (sd_PrivateApertureSize sd) 0 0 (sd_PrivateApertureBase sd)]
                  end in
       mret (HSAKMT_STATUS_SUCCESS, Some (resize NumBanks mem_zero all)))
  end.

(** The status and the entries over those of the caller. *)
Definition hsaKmtGetNodeCacheProperties (NodeId NumCaches_ : Z) (CacheProperties : option (list HsaCacheProperties))
    : TM K (HSAKMT_STATUS * option (list HsaCacheProperties)) :=
  match CacheProperties with
  | None => mret (HSAKMT_STATUS_INVALID_PARAMETER, None)
  | Some dst =>
      T_CHECK_DXG_OPEN (fun e => (e, CacheProperties))
      (s ← tget g_system;
       if match s with None => true | Some n => n <=? NodeId end
       then mret (HSAKMT_STATUS_INVALID_NODE_UNIT, CacheProperties)
       else
       t ← get_props NodeId;
       if NumCaches (np_node t) <? NumCaches_ then mret (HSAKMT_STATUS_INVALID_PARAMETER, CacheProperties)
       else
         tlift (massert (NumCaches_ <=? Z.of_nat (length (np_cache t)))) ;;
         mret (HSAKMT_STATUS_SUCCESS, Some (take (Z.to_nat NumCaches_) (np_cache t) ++ drop (Z.to_nat NumCaches_) dst)))
  end.

(** The [memcpy] reads past the vector when there are fewer links. *)
Definition topology_get_iolink_props (NodeId NumIoLinks : Z) (dst : list HsaIoLinkProperties)
    : TM K (HSAKMT_STATUS * list HsaIoLinkProperties) :=
  bad ← tget (fun T => no_node T NodeId);
  if (bad : bool) then mret (HSAKMT_STATUS_ERROR, dst)
  else
    t ← get_props NodeId;
    tlift (massert (NumIoLinks <=? Z.of_nat (length (np_link t)))) ;;
    mret (HSAKMT_STATUS_SUCCESS, take (Z.to_nat NumIoLinks) (np_link t) ++ drop (Z.to_nat NumIoLinks) dst).

Definition hsaKmtGetNodeIoLinkProperties (NodeId NumIoLinks : Z) (IoLinkProperties : option (list HsaIoLinkProperties))
    : TM K (HSAKMT_STATUS * option (list HsaIoLinkProperties)) :=
  match IoLinkProperties with
  | None => mret (HSAKMT_STATUS_INVALID_PARAMETER, None)
  | Some dst =>
      T_CHECK_DXG_OPEN (fun e => (e, IoLinkProperties))
      (s ← tget g_system;
       if match s with None => true | Some n => n <=? NodeId end
       then mret (HSAKMT_STATUS_INVALID_NODE_UNIT, IoLinkProperties)
       else
       t ← get_props NodeId;
       if NumIOLinks (np_node t) <? NumIoLinks then mret (HSAKMT_STATUS_INVALID_PARAMETER, IoLinkProperties)
       else
         tlift (massert (negb (bool_decide (np_link t = [])))) ;;
         '(err, l) ← topology_get_iolink_props NodeId NumIoLinks dst;
         mret (err, Some l))
  end.
End api.
