(* ===== verification/QueueLog.v ===== *)
(** * QueueLog: reading the log of a queue's thread

    The stores and submissions of a log, what the calls of the lower layers leave
    alone ([calmM]), and the rules to reason about a member function of a queue:
    [qspec] bounds every run by the events it adds to the log. *)

From S2P Require Import Prelude.
From S2P Require Import StdMap.
From S2P Require Import BitField.
From S2P Require Import Utils.
From S2P Require Import Status.
From S2P Require Import World.
From S2P Require Import Runtime.
From S2P Require Import Device.
From S2P Require Import GpuMemory.
From S2P Require Import Memory.
From S2P Require Import Aql.
From S2P Require Import CmdUtil.
From S2P Require Import CmdUtilSpec.
From S2P Require Import Queue.
#[local] Open Scope Z_scope.

(** ** Events *)

(** A store of words into shared memory. *)
Definition as_store (e : kevent) : option (Z * list Z) :=
  match e with
  | KEvent c r =>
      match c in kcall R return R -> option (Z * list Z) with
      | store_dwords a ws => fun _ => Some (a, ws)
      | _ => fun _ => None
      end r
  end.

(** A submission to a hardware queue: address, length and fence value. *)
Definition as_submit (e : kevent) : option (Z * Z * Z) :=
  match e with
  | KEvent c r =>
      match c in kcall R return R -> option (Z * Z * Z) with
      | D3DKMTSubmitCommandToHwQueue _ fence addr len => fun _ => Some (addr, len, fence)
      | _ => fun _ => None
      end r
  end.

Definition stores (evs : list kevent) : list (Z * list Z) := omap as_store evs.
Definition submits (evs : list kevent) : list (Z * Z * Z) := omap as_submit evs.

Lemma stores_app l l' : stores (l ++ l') = stores l ++ stores l'.
Proof. apply omap_app. Qed.
Lemma submits_app l l' : submits (l ++ l') = submits l ++ submits l'.
Proof. apply omap_app. Qed.

(** Neither. *)
Definition silent (evs : list kevent) : Prop := stores evs = [] /\ submits evs = [].

Lemma silent_nil : silent [].
Proof. done. Qed.
Lemma silent_app l l' : silent l -> silent l' -> silent (l ++ l').
Proof. intros [] []. split; rewrite ?stores_app, ?submits_app; by apply app_nil. Qed.
#[export] Hint Resolve silent_nil silent_app : dxg.

Definition silent_call {R} (c : kcall R) : bool :=
  match c with store_dwords _ _ | D3DKMTSubmitCommandToHwQueue _ _ _ _ => false | _ => true end.

Lemma silent_one {R} (c : kcall R) r : silent_call c = true -> silent [KEvent c r].
Proof. by destruct c. Qed.

(** ** What the lower layers leave alone *)

(** The adapters' properties and the settings a queue reads. *)
Definition queue_env {K} (w : World K) : list DeviceInfo * Z := (shared_dev_ <$> w_devs w, vendor_packet_process (w_rt w)).

Section calm.
Context {K : Type} `{Kernel K}.

(** [m] keeps the environment of queues and neither stores nor submits. *)
Definition calmM {A} (m : M K A) : Prop := forall w x w', m w = Some (x, w') ->
  queue_env w' = queue_env w /\ exists evs, w_log w' = w_log w ++ evs /\ silent evs.

Lemma calmM_refl (w w' : World K) :
  queue_env w' = queue_env w -> w_log w' = w_log w ->
  queue_env w' = queue_env w /\ exists evs, w_log w' = w_log w ++ evs /\ silent evs.
Proof. intros He Hl. split; [done|]. exists []. by rewrite Hl, app_nil_r. Qed.

Lemma calmM_ret {A} (x : A) : calmM (mret x).
Proof. intros w y w' [= <- <-]. by apply calmM_refl. Qed.

Lemma calmM_bind {A B} (m : M K A) (f : A -> M K B) : calmM m -> (forall x, calmM (f x)) -> calmM (m ≫= f).
Proof.
  intros Hm Hf w y w2 (x & w1 & H1 & H2)%M_bind_Some.
  destruct (Hm _ _ _ H1) as (He1 & evs1 & Hl1 & Hs1). destruct (Hf _ _ _ _ H2) as (He2 & evs2 & Hl2 & Hs2).
  split; [congruence|]. exists (evs1 ++ evs2). split; [by rewrite Hl2, Hl1, app_assoc|auto with dxg].
Qed.

Lemma calmM_kcall {R} (c : kcall R) : silent_call c = true -> calmM (kcall_ c).
Proof.
  intros Hc w x w'. unfold kcall_. destruct (kernel_step R c (w_ker w)) as [r k]. intros [= <- <-].
  split; [done|]. exists [KEvent c r]. split; [done|by apply silent_one].
Qed.

Lemma calmM_mset f :
  (forall w, queue_env (f w) = queue_env w) -> (forall w, w_log (f w) = w_log w) -> calmM (mset f).
Proof. intros He Hl w x w' [= <- <-]. by apply calmM_refl. Qed.

Lemma calmM_mget {A} (f : World K -> A) : calmM (mget f).
Proof. intros w x w' [= <- <-]. by apply calmM_refl. Qed.
Lemma calmM_mderef {A} (o : option A) : calmM (mderef o).
Proof. destruct o; [apply calmM_ret|by intros w x w']. Qed.
Lemma calmM_abort {A} : calmM (@abort K A).
Proof. by intros w x w'. Qed.
Lemma calmM_massert b : calmM (massert b).
Proof. destruct b; intros w x w'; [intros [= <- <-]; by apply calmM_refl|done]. Qed.
Lemma calmM_get_dev i : calmM (get_dev i).
Proof. intros w x w'. unfold get_dev. case_match; [|done]. intros [= <- <-]. by apply calmM_refl. Qed.
Lemma calmM_get_mem p : calmM (get_mem p).
Proof. intros w x w'. unfold get_mem. case_match; [|done]. intros [= <- <-]. by apply calmM_refl. Qed.
Lemma calmM_set_mem p g : calmM (set_mem p g).
Proof. intros w x w'. unfold set_mem. case_match; [|done]. intros [= <- <-]. by apply calmM_refl. Qed.
Lemma calmM_new_mem g : calmM (new_mem g).
Proof. intros w x w' [= <- <-]. by apply calmM_refl. Qed.
Lemma calmM_delete_mem p : calmM (delete_mem p).
Proof. intros w x w'. unfold delete_mem. case_match; [|done]. intros [= <- <-]. by apply calmM_refl. Qed.

Lemma calmM_UpdatePageFence i v : calmM (UpdatePageFence i v).
Proof.
  intros w x w'. unfold UpdatePageFence, get_dev, set_dev, mbind, M_bind. destruct (w_devs w !! i) as [d|] eqn:E; [|done].
  rewrite E. intros [= <- <-]. apply calmM_refl; [|done]. unfold queue_env. cbn. f_equal.
  rewrite list_fmap_insert. cbn. apply list_insert_id. by rewrite list_lookup_fmap, E.
Qed.
End calm.

Create HintDb calm.
#[export] Hint Resolve calmM_ret calmM_mget calmM_mderef calmM_abort calmM_massert calmM_get_dev calmM_get_mem
  calmM_set_mem calmM_new_mem calmM_delete_mem calmM_UpdatePageFence : calm.
#[export] Hint Extern 1 (calmM (kcall_ _)) => by apply calmM_kcall : calm.
#[export] Hint Extern 1 (calmM (mset _)) => by apply calmM_mset : calm.

(** Follow the structure of a function of the lower layers. *)
Ltac calm :=
  repeat match goal with
  | |- calmM (_ ≫= _) => apply calmM_bind; [|intros ?]
  | |- calmM (match _ with _ => _ end) => case_match
  | |- calmM (dx _) => unfold dx
  | |- calmM (dx_ _) => unfold dx_
  | |- calmM _ => solve [auto with calm]
  end.

Section layers.
Context {K : Type} `{Kernel K}.

Lemma CommitSystemHeapSpace_calm a n b : calmM (K := K) (CommitSystemHeapSpace a n b).
Proof. unfold CommitSystemHeapSpace. calm. Qed.
Lemma DecommitSystemHeapSpace_calm a n : calmM (K := K) (DecommitSystemHeapSpace a n).
Proof. unfold DecommitSystemHeapSpace. calm. Qed.

Lemma heap_Alloc_calm get put a b c :
  (forall s r, vendor_packet_process (put s r) = vendor_packet_process r) -> calmM (K := K) (heap_Alloc get put a b c).
Proof.
  intros Hp. unfold heap_Alloc, get_rt, mod_rt. calm. apply calmM_mset; [|done]. intros w. unfold queue_env. cbn.
  by rewrite Hp.
Qed.
Lemma heap_Free_calm get put a :
  (forall s r, vendor_packet_process (put s r) = vendor_packet_process r) -> calmM (K := K) (heap_Free get put a).
Proof.
  intros Hp. unfold heap_Free, get_rt, mod_rt. calm. apply calmM_mset; [|done]. intros w. unfold queue_env. cbn.
  by rewrite Hp.
Qed.
End layers.
#[export] Hint Resolve CommitSystemHeapSpace_calm DecommitSystemHeapSpace_calm : calm.
#[export] Hint Extern 1 (calmM (heap_Alloc _ _ _ _ _)) => by apply heap_Alloc_calm : calm.
#[export] Hint Extern 1 (calmM (heap_Free _ _ _)) => by apply heap_Free_calm : calm.

Section layers2.
Context {K : Type} `{Kernel K}.

Lemma Runtime_Reserve_calm d a n al l : calmM (K := K) (Runtime_ReserveGpuVirtualAddress d a n al l).
Proof. unfold Runtime_ReserveGpuVirtualAddress. calm. Qed.
Lemma Runtime_Free_calm d a n : calmM (K := K) (Runtime_FreeGpuVirtualAddress d a n).
Proof. unfold Runtime_FreeGpuVirtualAddress. calm. Qed.
Lemma ReserveIPCSysMem_calm n o a f l : calmM (K := K) (ReserveIPCSysMem n o a f l).
Proof. unfold ReserveIPCSysMem, CommitSystemHeapSpaceIPC. calm. Qed.
Lemma FreeIPCSysMem_calm a n f : calmM (K := K) (FreeIPCSysMem a n f).
Proof. unfold FreeIPCSysMem, DecommitSystemHeapSpaceIPC. calm. Qed.
Lemma HandleApertureAlloc_calm n : calmM (K := K) (HandleApertureAlloc n).
Proof. unfold HandleApertureAlloc. calm. Qed.
Lemma HandleApertureFree_calm n : calmM (K := K) (HandleApertureFree n).
Proof. unfold HandleApertureFree. calm. Qed.
Lemma CpuWait_calm i o v b : calmM (K := K) (CpuWait i o v b).
Proof. unfold CpuWait. calm. Qed.
Lemma GpuWait_calm i c o v : calmM (K := K) (GpuWait i c o v).
Proof. unfold GpuWait. calm. Qed.
Lemma mod_mem_calm p f : calmM (K := K) (mod_mem p f).
Proof. unfold mod_mem. calm. Qed.
Lemma map_call_calm i a : calmM (K := K) (map_call i a).
Proof. unfold map_call. calm. Qed.
End layers2.
#[export] Hint Resolve Runtime_Reserve_calm Runtime_Free_calm ReserveIPCSysMem_calm FreeIPCSysMem_calm
  HandleApertureAlloc_calm HandleApertureFree_calm CpuWait_calm GpuWait_calm mod_mem_calm map_call_calm : calm.

Section layers3.
Context {K : Type} `{Kernel K}.

Lemma map_loop_calm n g i a s o k : calmM (K := K) (map_loop n g i a s o k).
Proof. revert i a s o k. induction n as [|n IH]; intros; cbn [map_loop]; calm; apply IH. Qed.
Lemma unmap_partial_calm n g a s o : calmM (K := K) (unmap_partial n g a s o).
Proof. revert a s. induction n as [|n IH]; intros; cbn [unmap_partial]; calm; apply IH. Qed.
Lemma Map_calm p a n o : calmM (K := K) (GpuMemory_MapGpuVirtualAddress p a n o).
Proof.
  unfold GpuMemory_MapGpuVirtualAddress. calm; [apply map_loop_calm|]. calm. apply unmap_partial_calm.
Qed.
Lemma GpuReserve_calm p a n al : calmM (K := K) (GpuMemory_ReserveGpuVirtualAddress p a n al).
Proof. unfold GpuMemory_ReserveGpuVirtualAddress. calm. Qed.
Lemma GpuFree_calm p a n : calmM (K := K) (GpuMemory_FreeGpuVirtualAddress p a n).
Proof. unfold GpuMemory_FreeGpuVirtualAddress. calm. Qed.
Lemma CreatePhysical_calm p : calmM (K := K) (CreatePhysicalMemory p).
Proof. unfold CreatePhysicalMemory, get_rt. calm. Qed.
Lemma FreePhysical_calm p : calmM (K := K) (FreePhysicalMemory p).
Proof. unfold FreePhysicalMemory. calm. Qed.
Lemma MakeResident_calm p : calmM (K := K) (MakeResident p).
Proof. unfold MakeResident. calm. Qed.
End layers3.
#[export] Hint Resolve Map_calm GpuReserve_calm GpuFree_calm CreatePhysical_calm FreePhysical_calm MakeResident_calm : calm.

Section layers4.
Context {K : Type} `{Kernel K}.

Lemma guarded_calm p : calmM (K := K) (guarded_init_steps p).
Proof. unfold guarded_init_steps, init_steps, map_and_wait, WaitOnPagingFenceFromCpu, init_rollback. calm. Qed.
Lemma Init_calm p ci : calmM (K := K) (GpuMemory_Init p ci).
Proof. pose proof (guarded_calm p). unfold GpuMemory_Init. calm. Qed.
Lemma Import_calm p ci a : calmM (K := K) (ImportPhysicalHandle p ci a).
Proof. pose proof (guarded_calm p). unfold ImportPhysicalHandle, import_sysmem, import_vram, get_rt. calm. Qed.
Lemma delete_calm p : calmM (K := K) (GpuMemory_delete p).
Proof. unfold GpuMemory_delete. calm. Qed.
Lemma CreateGpuMemory_calm i ci a : calmM (K := K) (CreateGpuMemory i ci a).
Proof. pose proof Init_calm. pose proof Import_calm. pose proof delete_calm. unfold CreateGpuMemory. calm. Qed.
Lemma get_gpu_mem_calm a : calmM (K := K) (get_gpu_mem a).
Proof. unfold get_gpu_mem, amap_find. calm. Qed.
Lemma WaitPagingFence_calm i c : calmM (K := K) (WaitPagingFence i c).
Proof. unfold WaitPagingFence. calm. Qed.
End layers4.
#[export] Hint Resolve delete_calm CreateGpuMemory_calm get_gpu_mem_calm WaitPagingFence_calm : calm.

(** ** Runs of a queue's member functions *)

Section qspec.
Context {K : Type} `{Kernel K}.
Context (E : list DeviceInfo * Z).

(** Every run of [m] from [q] in the environment [E] ends with a result, a queue and
    events that satisfy [Post]. *)
Definition qspec {A} (m : QM K A) (q : ComputeQueue) (Post : A -> ComputeQueue -> list kevent -> Prop) : Prop :=
  forall w x q' w', queue_env w = E -> m q w = Some (x, q', w') ->
    queue_env w' = E /\ exists evs, w_log w' = w_log w ++ evs /\ Post x q' evs.

Lemma qspec_ret {A} (x : A) q (Post : A -> ComputeQueue -> list kevent -> Prop) : Post x q [] -> qspec (mret x) q Post.
Proof. intros Hp w y q' w' He [= <- <- <-]. split; [done|]. exists []. by rewrite app_nil_r. Qed.

Lemma qspec_bind {A B} (m : QM K A) (f : A -> QM K B) q P Q :
  qspec m q P -> (forall x q1 e1, P x q1 e1 -> qspec (f x) q1 (fun y q2 e2 => Q y q2 (e1 ++ e2))) -> qspec (m ≫= f) q Q.
Proof.
  intros Hm Hf w y q2 w2 He. unfold mbind, QM_bind. destruct (m q w) as [[[x q1] w1]|] eqn:E1; [|done]. intros E2.
  destruct (Hm _ _ _ _ He E1) as (He1 & e1 & Hl1 & HP).
  destruct (Hf _ _ _ HP _ _ _ _ He1 E2) as (He2 & e2 & Hl2 & HQ).
  split; [done|]. exists (e1 ++ e2). by rewrite Hl2, Hl1, app_assoc.
Qed.

Lemma qspec_mono {A} (m : QM K A) q (P Q : A -> ComputeQueue -> list kevent -> Prop) :
  qspec m q P -> (forall x q' evs, P x q' evs -> Q x q' evs) -> qspec m q Q.
Proof.
  intros Hm Hi w x q' w' He Hr. destruct (Hm _ _ _ _ He Hr) as (? & evs & ? & ?). split; [done|]. exists evs. auto.
Qed.

(** Nothing but the result, silently. *)
Definition nop {A} (P : A -> Prop) (q : ComputeQueue) : A -> ComputeQueue -> list kevent -> Prop :=
  fun x q' evs => q' = q /\ silent evs /\ P x.

Lemma qspec_nop_bind {A B} (m : QM K A) (f : A -> QM K B) q P (Q : B -> ComputeQueue -> list kevent -> Prop) :
  qspec m q (nop P q) -> (forall x e1, silent e1 -> P x -> qspec (f x) q (fun y q2 e2 => Q y q2 (e1 ++ e2))) ->
  qspec (m ≫= f) q Q.
Proof. intros Hm Hf. eapply qspec_bind; [exact Hm|]. intros x q1 e1 (-> & Hs & Hx). by apply Hf. Qed.

Lemma qspec_get {A} (f : ComputeQueue -> A) q : qspec (qget f) q (fun x q' evs => x = f q /\ q' = q /\ evs = []).
Proof. intros w x q' w' He [= <- <- <-]. split; [done|]. exists []. by rewrite app_nil_r. Qed.

Lemma qspec_get_bind {A B} (f : ComputeQueue -> A) (k : A -> QM K B) q Q : qspec (k (f q)) q Q -> qspec (qget f ≫= k) q Q.
Proof. done. Qed.
Lemma qspec_mod_bind {B} f (k : unit -> QM K B) q Q : qspec (k tt) (f q) Q -> qspec (qmod f ≫= k) q Q.
Proof. done. Qed.
Lemma qspec_ret_bind {A B} (x : A) (k : A -> QM K B) q Q : qspec (k x) q Q -> qspec (mret x ≫= k) q Q.
Proof. done. Qed.
Lemma qspec_assert_bind {B} b (k : unit -> QM K B) q Q :
  (b = true -> qspec (k tt) q Q) -> qspec (qassert b ≫= k) q Q.
Proof. intros Hk w x q' w' He. destruct b; [by apply Hk|done]. Qed.
Lemma qspec_opt_bind {A B} (o : option A) (k : A -> QM K B) q Q :
  (forall x, o = Some x -> qspec (k x) q Q) -> qspec (qopt o ≫= k) q Q.
Proof. intros Hk w x q' w' He. destruct o; [by apply Hk|done]. Qed.

Lemma qspec_lift {A} (m : M K A) q : calmM m -> qspec (lift m) q (nop (fun _ => True) q).
Proof.
  intros Hm w x q' w' He. unfold lift. destruct (m w) as [[y w1]|] eqn:Er; [|done]. intros [= <- <- <-].
  destruct (Hm _ _ _ Er) as (He1 & evs & Hl & Hs). split; [congruence|]. by exists evs.
Qed.

Lemma qspec_call {R} (c : kcall R) q : qspec (qcall c) q (fun r q' evs => q' = q /\ evs = [KEvent c r]).
Proof.
  intros w x q' w' He. unfold qcall, lift, kcall_. destruct (kernel_step R c (w_ker w)) as [r k]. intros [= <- <- <-].
  split; [done|]. by exists [KEvent c r].
Qed.

Lemma qspec_silent_call {R} (c : kcall R) q : silent_call c = true -> qspec (qcall c) q (nop (fun _ => True) q).
Proof. intros Hc. eapply qspec_mono; [apply qspec_call|]. intros r q' evs [-> ->]. split_and!; [done|by apply silent_one|done]. Qed.

Lemma qspec_nop_ret {A} (x : A) (P : A -> Prop) q : P x -> qspec (mret x) q (nop P q).
Proof. intros. apply qspec_ret. by split_and!. Qed.

Lemma qspec_nop_seq {A B} (m : QM K A) (f : A -> QM K B) q P R :
  qspec m q (nop P q) -> (forall x, P x -> qspec (f x) q (nop R q)) -> qspec (m ≫= f) q (nop R q).
Proof.
  intros Hm Hf. eapply qspec_nop_bind; [exact Hm|]. intros x e1 Hs Hx. eapply qspec_mono; [by apply Hf|].
  intros y q2 e2 (-> & Hs2 & Hy). split_and!; auto with dxg.
Qed.

(** The loads and waits of a queue are silent. *)
Lemma load64_nop a q : qspec (load64 a) q (nop (fun v => 0 <= v < 2 ^ 64) q).
Proof. eapply qspec_nop_seq; [by apply qspec_silent_call|]. intros. apply qspec_nop_ret, wrap_range. lia. Qed.
Lemma load_words_nop a n q : qspec (load_words a n) q (nop (fun l => Forall (fun v => 0 <= v < 2 ^ 32) l) q).
Proof.
  eapply qspec_nop_seq; [by apply qspec_silent_call|]. intros l _. apply qspec_nop_ret, Forall_fmap, Forall_true.
  intros. apply wrap_range. lia.
Qed.
Lemma load32_nop a q : qspec (load32 a) q (nop (fun _ => True) q).
Proof. eapply qspec_nop_seq; [apply load_words_nop|]. intros. by apply qspec_nop_ret. Qed.
Lemma EnableProfiling_nop q : qspec EnableProfiling q (nop (fun _ => True) q).
Proof. apply qspec_get_bind. eapply qspec_nop_seq; [apply load32_nop|]. intros. by apply qspec_nop_ret. Qed.
Lemma check_signal_nop s q : qspec (check_signal s) q (nop (fun _ => True) q).
Proof.
  eapply qspec_nop_seq; [apply load64_nop|]. intros k _ w x q' w' He. destruct (k =? _); [|done].
  by apply (qspec_nop_ret tt (fun _ => True)).
Qed.

Lemma queue_dev_nop q :
  qspec queue_dev q (nop (fun d => E.1 !! q_device (cq_base q) = Some (shared_dev_ d)) q).
Proof.
  intros w x q' w' He. unfold queue_dev, qget, mbind, QM_bind, lift, get_dev.
  destruct (w_devs w !! q_device (cq_base q)) as [d|] eqn:Ed; [|done]. intros [= <- <- <-].
  split; [done|]. exists []. rewrite app_nil_r. split_and!; try done. rewrite <- He.
  unfold queue_env. cbn [fst]. by rewrite list_lookup_fmap, Ed.
Qed.

Lemma Major_nop q :
  qspec Major q (nop (fun m => exists s, E.1 !! q_device (cq_base q) = Some s /\ m = sd_Major s) q).
Proof. eapply qspec_nop_seq; [apply queue_dev_nop|]. intros d Hd. apply qspec_nop_ret. by exists (shared_dev_ d). Qed.

Lemma HandleError_nop st q : qspec (HandleError st) q (nop (fun _ => True) q).
Proof.
  apply qspec_get_bind. eapply qspec_nop_seq; [apply load64_nop|]. intros sig _. eapply qspec_nop_seq.
  - destruct (sig =? 0); [by apply (qspec_nop_ret tt (fun _ => True))|by apply qspec_silent_call].
  - intros _ _. destruct (_ =? 0); [by apply qspec_nop_ret|by apply qspec_silent_call].
Qed.

Lemma GetKernelObjAddr_nop a q : qspec (GetKernelObjAddr a) q (nop (fun _ => True) q).
Proof.
  eapply qspec_nop_seq; [apply qspec_lift; auto with calm|]. intros code _.
  eapply (qspec_nop_seq _ _ _ (fun _ => True)).
  - destruct (code =? 0); [by apply qspec_nop_ret|].
    eapply qspec_nop_seq; [apply qspec_lift; auto with calm|]. intros. by apply qspec_nop_ret.
  - intros [b|] _; [by apply qspec_nop_ret|]. eapply qspec_nop_seq; [by apply qspec_silent_call|]. intros. by apply qspec_nop_ret.
Qed.

Lemma any_signal_nop l q : qspec (any_signal l) q (nop (fun _ => True) q).
Proof.
  induction l as [|s l IH]; [by apply qspec_nop_ret|]. cbn [any_signal].
  eapply qspec_nop_seq; [by apply qspec_silent_call|]. intros v _. destruct (v =? 0); [by apply qspec_nop_ret|done].
Qed.
Lemma wait_any_nop n l q : qspec (wait_any_signal n l) q (nop (fun _ => True) q).
Proof.
  induction n as [|n IH]; [by apply qspec_nop_ret|]. cbn [wait_any_signal].
  eapply qspec_nop_seq; [apply any_signal_nop|]. intros [|] _; [by apply qspec_nop_ret|].
  eapply qspec_nop_seq; [by apply qspec_silent_call|]. done.
Qed.
Lemma wait_all_nop l q : qspec (wait_all_signals l) q (nop (fun _ => True) q).
Proof.
  induction l as [|s l IH]; [by apply qspec_nop_ret|]. cbn [wait_all_signals].
  eapply qspec_nop_seq; [by apply qspec_silent_call|]. intros v _. by apply qspec_assert_bind.
Qed.

Lemma packet_addr_nop q :
  qspec packet_addr q
    (nop (fun a => a = qc_ring (cq_config q) + (write_index (cq_cmdbuf q) mod qc_ring_size (cq_config q)) * 64) q).
Proof. do 2 apply qspec_get_bind. apply qspec_assert_bind. intros _. by apply qspec_nop_ret. Qed.
Lemma packet_header_nop q : qspec packet_header q (nop (fun _ => True) q).
Proof.
  eapply qspec_nop_seq; [apply packet_addr_nop|]. intros a _.
  eapply qspec_nop_seq; [apply load_words_nop|]. intros. by apply qspec_nop_ret.
Qed.
Lemma IsInvalidPacket_nop q : qspec IsInvalidPacket q (nop (fun _ => True) q).
Proof. eapply qspec_nop_seq; [apply packet_header_nop|]. intros. by apply qspec_nop_ret. Qed.

(** Scratch memory is renewed silently. *)
Definition new_scratch {A} (q : ComputeQueue) : A -> ComputeQueue -> list kevent -> Prop :=
  fun _ q' evs => (exists s, q' = set_scratch s q) /\ silent evs.

Lemma set_scratch_scratch q : q = set_scratch (cq_scratch q) q.
Proof. by destruct q. Qed.

Lemma InitScratchSRD_spec q : qspec InitScratchSRD q (new_scratch q).
Proof.
  eapply qspec_nop_bind; [apply queue_dev_nop|]. intros d e1 H1 _. do 2 apply qspec_get_bind.
  eapply qspec_nop_bind; [by apply qspec_silent_call|]. intros u1 e2 H2 _.
  eapply qspec_nop_bind; [by apply qspec_silent_call|]. intros u3 e3 H3 _.
  eapply qspec_nop_bind; [by apply qspec_silent_call|]. intros ut e4 H4 _.
  apply qspec_assert_bind. intros _ w x q' w' He [= <- <- <-]. split; [done|]. exists []. rewrite !app_nil_r.
  split; [done|]. split; [eauto|auto with dxg].
Qed.

Lemma UpdateScratch_spec n wave32 q : qspec (UpdateScratch n wave32) q (new_scratch q).
Proof.
  unfold UpdateScratch. do 3 apply qspec_get_bind. eapply (qspec_nop_bind _ _ _ (fun _ => True)).
  { destruct (UINT32_MAX <? _); [apply HandleError_nop|by apply qspec_nop_ret]. }
  intros _ e1 H1 _. destruct (_ <=? _).
  { apply qspec_ret. rewrite app_nil_r. split; [|done]. eexists. apply set_scratch_scratch. }
  eapply qspec_nop_bind; [apply qspec_lift; auto with calm|]. intros [[code mem] va] e2 H2 _.
  destruct (ErrorCode_ok code).
  - eapply (qspec_nop_bind _ _ _ (fun _ => True)).
    { destruct (_ =? 0); [by apply qspec_nop_ret|apply qspec_lift; auto with calm]. }
    intros _ e3 H3 _. eapply qspec_nop_bind; [apply qspec_lift; auto with calm|]. intros p e4 H4 _.
    eapply qspec_nop_bind; [apply qspec_lift; auto with calm|]. intros g e5 H5 _. apply qspec_mod_bind.
    eapply qspec_bind; [apply InitScratchSRD_spec|]. intros _ q1 e6 [[s ->] H6].
    apply qspec_ret. split; [by exists s|]. rewrite app_nil_r. auto 8 with dxg.
  - apply qspec_ret. rewrite app_nil_r. split; [eexists; apply set_scratch_scratch|auto with dxg].
Qed.
End qspec.
