(* ===== verification/QueueDemo.v ===== *)
(** * QueueDemo: a device with memory, for the witnesses of the queues

    [MemKernel] is the environment of Demo.v with memory of 32-bit words behind the
    loads and stores, and a device that is done with a submission at once: the fence
    of the queue, mapped at the number that is its handle, then has the value submitted. *)

From S2P Require Import Prelude.
From S2P Require Import StdMap.
From S2P Require Import BitField.
From S2P Require Import Utils.
From S2P Require Import Status.
From S2P Require Import SimpleHeap.
From S2P Require Import World.
From S2P Require Import Runtime.
From S2P Require Import Device.
From S2P Require Import Demo.
From S2P Require Import Aql.
From S2P Require Import CmdUtil.
From S2P Require Import Queue.
#[local] Open Scope Z_scope.

Record MemKernel := mkMemKernel {
  mk_demo : DemoKernel;
  mk_words : gmap Z Z;           (* by address; 0 where nothing was stored *)
}.

Definition mk_load (a : Z) (k : MemKernel) : Z := default 0 (mk_words k !! a).
Definition mk_store (a v : Z) (k : MemKernel) : MemKernel := mkMemKernel (mk_demo k) (<[a := v]> (mk_words k)).
Fixpoint mk_stores (a : Z) (ws : list Z) (k : MemKernel) : MemKernel :=
  match ws with [] => k | w :: ws => mk_stores (a + 4) ws (mk_store a w k) end.
Definition mk_load64 (a : Z) (k : MemKernel) : Z := mk_load a k + Z.shiftl (mk_load (a + 4) k) 32.

#[export] Instance mem_kernel : Kernel MemKernel := fun R c k =>
  match c in kcall R return R * MemKernel with
  | load_u64 a => (mk_load64 a k, k)
  | load_dwords a n => ((fun i => mk_load (a + 4 * i) k) <$> seqZ 0 n, k)
  | store_dwords a ws => (tt, mk_stores a ws k)
  | store_u64 a v => (tt, mk_stores a [u32 v; Z.shiftr v 32] k)
  | store_u16 a v => (tt, mk_store a (bf_set 0 16 v (mk_load a k)) k)
  | D3DKMTSubmitCommandToHwQueue queue fence _ _ => (STATUS_SUCCESS, mk_stores queue [u32 fence; Z.shiftr fence 32] k)
  | c => let '(r, d) := kernel_step _ c (mk_demo k) in (r, mkMemKernel d (mk_words k))
  end.

(** ** A queue and its ring *)

Definition demo_base : WDDMQueue := mkWDDMQueue 0 0x30 0x7000 0x32 0x7000 0x33 0x100000 0x1000000 0 0 true kNormal.

Definition demo_config : QueueConfig :=
  mkQueueConfig 0x10000 16 0x8000 0x8008 0 0x34 0x9000 0xA000 544 true 64.

Definition demo_queue : ComputeQueue :=
  mkComputeQueue demo_base demo_config (mkCmdbufState 0x100000 0 0 0 true false 0 [])
    (mkScratchState 0 0 0 0 (mkAmdQueue 0 [0; 0; 0; 0] 0 0)).

(** A kernel dispatch of one workgroup of 64, with a barrier bit, of the kernel at
    0x20000. *)
Definition demo_packet : list Z := [0x00011502; 0x00010040; 0x00000001; 64; 1; 1; 0; 0; 0x20000; 0; 0x50000; 0; 0; 0; 0; 0].
(** Its descriptor: entry at 0x100, the dispatch and kernarg pointers in registers. *)
Definition demo_code : list Z := repeat 0 4 ++ [0x100; 0] ++ repeat 0 6 ++ [0xAC; 0x8A; 0x0A; 0].

Definition demo_memory : MemKernel :=
  mk_stores 0x8000 [2] (mk_stores 0x20000 demo_code
    (mk_stores 0x10000 (demo_packet ++ demo_packet) (mkMemKernel (mkDemoKernel [] 20) ∅))).

Definition queue_world (k : MemKernel) : World MemKernel :=
  mkWorld k [] demo_rt [demo_dev] ∅ 0x5000 [] SimpleHeap_new 2 true DxcoreLoader_new.
