(* ===== verification/QueueSpec.v ===== *)
(** * QueueSpec: what the worker of a compute queue does

    The frames of the command buffer hold what the worker stores, a kernel dispatch
    is turned into the commands it stands for, and what has been submitted is not
    overwritten before the device is done with it. *)

From S2P Require Import Prelude.
From S2P Require Import StdMap.
From S2P Require Import BitField.
From S2P Require Import Utils.
From S2P Require Import Status.
From S2P Require Import World.
From S2P Require Import Runtime.
From S2P Require Import Device.
From S2P Require Import GpuMemory.
From S2P Require Import Memory.
From S2P Require Import Aql.
From S2P Require Import CmdUtil.
From S2P Require Import CmdUtilSpec.
From S2P Require Import Queue.
From S2P Require Import QueueLog.
#[local] Open Scope Z_scope.

(** ** Emitted words *)

Definition bytes (ws : list Z) : Z := 4 * Z.of_nat (length ws).

Lemma bytes_app l l' : bytes (l ++ l') = bytes l + bytes l'.
Proof. unfold bytes. rewrite length_app. lia. Qed.
Lemma bytes_pos l : 0 <= bytes l.
Proof. unfold bytes. lia. Qed.

(** The stores [l] lay words one after the other from [a]. *)
Fixpoint contiguous (a : Z) (l : list (Z * list Z)) : Prop :=
  match l with
  | [] => True
  | (b, ws) :: l => b = a /\ contiguous (a + bytes ws) l
  end.

Definition stored_words (evs : list kevent) : list Z := concat (snd <$> stores evs).

Lemma contiguous_app a l l' :
  contiguous a (l ++ l') <-> contiguous a l /\ contiguous (a + bytes (concat (snd <$> l))) l'.
Proof.
  revert a. induction l as [|[b ws] l IH]; intros a; cbn [app contiguous fmap list_fmap concat snd].
  - unfold bytes. cbn. rewrite Z.add_0_r. tauto.
  - rewrite IH, bytes_app, Z.add_assoc. tauto.
Qed.

Lemma stored_words_app e e' : stored_words (e ++ e') = stored_words e ++ stored_words e'.
Proof. unfold stored_words. by rewrite stores_app, fmap_app, concat_app. Qed.

(** The events store [n] bytes of packets from [a] and submit nothing. *)
Definition emitted (a n : Z) (evs : list kevent) (cs : list command) : Prop :=
  contiguous a (stores evs) /\ bytes (stored_words evs) = n /\ submits evs = [] /\ encodes (stored_words evs) cs.

Lemma emitted_silent a evs : silent evs -> emitted a 0 evs [].
Proof. intros [Hs Hu]. unfold emitted, stored_words. rewrite Hs. split_and!; try done. apply encodes_nil. Qed.

Lemma emitted_app a n n' e e' c c' :
  emitted a n e c -> emitted (a + n) n' e' c' -> emitted a (n + n') (e ++ e') (c ++ c').
Proof.
  intros (H1 & H2 & H3 & H4) (H1' & H2' & H3' & H4'). unfold emitted.
  rewrite stores_app, submits_app, stored_words_app, bytes_app, contiguous_app, H3, H3', H2, H2'.
  unfold stored_words in H2. rewrite H2. split_and!; try done. by apply encodes_app.
Qed.

Lemma emitted_seq a b n n' e e' c c' :
  emitted a n e c -> emitted b n' e' c' -> b = a + n -> emitted a (n + n') (e ++ e') (c ++ c').
Proof. intros H H' ->. by apply emitted_app. Qed.

Lemma emitted_silent_l a n e e' c : silent e -> emitted a n e' c -> emitted a n (e ++ e') c.
Proof. intros Hs He. apply (emitted_app a 0 n e e' [] c); [by apply emitted_silent|by rewrite Z.add_0_r]. Qed.

Lemma emitted_silent_r a n e e' c : silent e' -> emitted a n e c -> emitted a n (e ++ e') c.
Proof.
  intros Hs He. rewrite <- (app_nil_r c), <- (Z.add_0_r n). apply emitted_app; [done|]. by apply emitted_silent.
Qed.

Lemma emitted_store a ws cs r : encodes ws cs -> emitted a (bytes ws) [KEvent (store_dwords a ws) r] cs.
Proof.
  intros Hc. unfold emitted, stored_words. cbn. rewrite app_nil_r. by split_and!.
Qed.

Section emit.
Context {K : Type} `{Kernel K} (E : list DeviceInfo * Z).
Notation qspec := (qspec E).

(** The result [i'] of an emitter at [cpu + i]. *)
Definition emits (cpu i n : Z) (cs : list command) (q : ComputeQueue) : Z -> ComputeQueue -> list kevent -> Prop :=
  fun i' q' evs => i' = i + n /\ q' = q /\ emitted (cpu + i) n evs cs.

Lemma emit_spec cpu i n ws cs q :
  encodes ws cs -> bytes ws = n -> 0 <= i -> i + n < 2 ^ 32 -> qspec (emit cpu i ws) q (emits cpu i n cs q).
Proof.
  intros Hc <- Hi Hb. eapply qspec_bind; [apply qspec_call|]. intros r q1 e1 [-> ->]. apply qspec_ret.
  rewrite app_nil_r. pose proof (bytes_pos ws). split_and!; [|done|by apply emitted_store].
  unfold bytes in *. apply wrap_small. lia.
Qed.

Lemma emit_if_spec b cpu i n ws cs q :
  encodes ws cs -> bytes ws = n -> 0 <= i -> i + n < 2 ^ 32 ->
  qspec (emit_if b cpu i ws) q (emits cpu i (if b then n else 0) (if b then cs else []) q).
Proof.
  intros Hc Hn Hi Hb. destruct b; [by apply emit_spec|]. apply qspec_ret. split_and!; [lia|done|].
  by apply emitted_silent.
Qed.

(** ** The packets *)

Definition clock_bytes : Z := 24.
Definition barrier_bytes : Z := 8.
Definition acquire_bytes (major : Z) : Z := if major =? 9 then 28 else 32.
Definition acquire_limit : Z := 32.

Lemma emit_acquire_spec cpu i major q :
  0 <= i -> i + acquire_limit < 2 ^ 32 ->
  qspec (emit_acquire cpu i major) q (emits cpu i (acquire_bytes major) [AcquireMem] q).
Proof.
  intros Hi Hb. apply qspec_opt_bind. intros ws Hw. pose proof (encodes_AcquireMem _ _ Hw) as Hc.
  unfold acquire_limit in *. revert Hw. unfold BuildAcquireMem, acquire_bytes. destruct (major =? 9).
  - intros [= <-]. apply emit_spec; [done|done|done|lia].
  - destruct (10 <=? major); [|done]. intros [= <-]. apply emit_spec; [done|done|done|lia].
Qed.

Lemma emit_clock_spec b cpu i p q :
  0 <= i -> i + clock_bytes < 2 ^ 32 ->
  qspec (emit_if b cpu i (BuildCopyClock (u64 p))) q
    (emits cpu i (if b then clock_bytes else 0) (if b then [CopyData 9 1 (clock_addr (u64 p))] else []) q).
Proof.
  intros Hi Hb. apply (emit_if_spec b cpu i clock_bytes); [|done|done|done].
  apply encodes_CopyClock, wrap_range. lia.
Qed.

Definition CsBarrier : command := EventWrite CS_PARTIAL_FLUSH event_index__cs_partial_flush.

Lemma emit_barrier_spec b cpu i q :
  0 <= i -> i + barrier_bytes < 2 ^ 32 ->
  qspec (emit_if b cpu i BuildCsBarrier) q (emits cpu i (if b then barrier_bytes else 0) (if b then [CsBarrier] else []) q).
Proof. intros. apply (emit_if_spec b cpu i barrier_bytes); [apply encodes_CsBarrier|done|done|done]. Qed.

(** The decrement of the signal: a packet when the device can do it, else a note. *)
Definition signal_command (signal : Z) : command :=
  AtomicMem TC_OP_ATOMIC_ADD_RTN_64 cache_policy__bypass (u64 (signal + signal_value_offset)) UINT64_MAX.

Definition note_signal (atomic : bool) (signal : Z) (q : ComputeQueue) : ComputeQueue :=
  if atomic then q else set_cmdbuf (cb_set_signal (u64 (signal + signal_value_offset)) (cq_cmdbuf q)) q.

Lemma emit_signal_spec cpu i signal q :
  0 <= i -> i + 36 < 2 ^ 32 ->
  let atomic := qc_platform_atomic_support (cq_config q) in
  qspec (emit_signal cpu i signal) q (fun i' q' evs =>
    i' = i + (if atomic then 36 else 0) /\ q' = note_signal atomic signal q /\
    emitted (cpu + i) (if atomic then 36 else 0) evs (if atomic then [signal_command signal] else [])).
Proof.
  intros Hi Hb atomic. apply qspec_get_bind. cbv zeta. fold atomic. destruct atomic.
  - apply emit_spec; [|done|done|done].
    apply encodes_AtomicMem; [apply wrap_range; lia|unfold UINT64_MAX; lia|unfold TC_OP_ATOMIC_ADD_RTN_64; lia|
      unfold cache_policy__bypass; lia].
  - apply qspec_mod_bind, qspec_ret. split_and!; [lia|done|]. by apply emitted_silent.
Qed.

(** The packet that moves the read pointer of the ring past packet [w]. *)
Definition rptr_command (atomic : bool) (rptr w : Z) : command :=
  if atomic then AtomicMem TC_OP_ATOMIC_ADD_RTN_64 cache_policy__stream rptr 1 else WriteData64 5 rptr (w + 1).
Definition rptr_bytes (atomic : bool) : Z := if atomic then 36 else 24.

(** The queue once a packet of [n] bytes has been taken up. *)
Definition filled (n : Z) (q : ComputeQueue) : ComputeQueue :=
  set_cmdbuf (cb_set_filled (ib_size (cq_cmdbuf q) + n) (write_index (cq_cmdbuf q) + 1) (cq_cmdbuf q)) q.

(** What the proofs assume of the queue's constants: frames that hold a dispatch
    (see [InitCmdbufInfo_enough]), 2^12 of them within 32 bits, and an address for the
    read pointer. *)
Definition dispatch_limit : Z := 404.

Record config_ok (c : QueueConfig) : Prop := {
  frame_bound : dispatch_limit <= qc_cmdbuf_aql_frame_size c < 2 ^ 16;
  rptr_bound : 0 <= qc_ring_rptr c < 2 ^ 64;
}.

(** [finish_packet] after [m] bytes of a packet that leave room for its own. *)
Lemma finish_packet_spec cpu packet m q :
  let c := cq_config q in
  let cb := cq_cmdbuf q in
  config_ok c -> 0 <= m -> m + 36 <= qc_cmdbuf_aql_frame_size c -> 0 <= ib_size cb -> ib_size cb + 2 ^ 16 < 2 ^ 32 ->
  0 <= write_index cb < 2 ^ 64 - 1 ->
  let n := rptr_bytes (qc_platform_atomic_support c) in
  qspec (finish_packet cpu (ib_size cb + m) packet) q (fun st q' evs =>
    st = HSA_STATUS_SUCCESS /\ q' = filled (m + n) q /\
    emitted (cpu + (ib_size cb + m)) n evs [rptr_command (qc_platform_atomic_support c) (qc_ring_rptr c) (write_index cb)]).
Proof.
  intros c cb [[Hf1 Hf2] Hr] Hm Hmf Hi Hi2 Hw n.
  assert (write_index cb +64 1 = write_index cb + 1) as Hw1 by (apply wrap_small; lia).
  do 2 apply qspec_get_bind. fold c cb. eapply (qspec_bind _ _ _ _ (emits cpu (ib_size cb + m) n
    [rptr_command (qc_platform_atomic_support c) (qc_ring_rptr c) (write_index cb)] q)).
  { subst n. unfold rptr_command, rptr_bytes. destruct (qc_platform_atomic_support c).
    - apply emit_spec; [|done|lia|lia].
      apply encodes_AtomicMem; [done|lia|unfold TC_OP_ATOMIC_ADD_RTN_64; lia|unfold cache_policy__stream; lia].
    - apply qspec_opt_bind. intros ws Hws. rewrite Hw1 in Hws. apply emit_spec; [|..|lia|lia].
      + by apply (encodes_WriteData64 (qc_ring_rptr c) (write_index cb + 1)); [|lia|].
      + revert Hws. unfold BuildWriteData64Command. destruct (_ =? 0); [|done]. by intros [= <-]. }
  intros i q1 e1 (-> & -> & He). assert (0 <= n <= 36) by (subst n; unfold rptr_bytes; case_match; lia).
  replace (ib_size cb + m + n -64 ib_size cb) with (m + n) by (unfold sub64; rewrite u64_small; lia).
  rewrite (proj2 (Z.ltb_ge _ _)) by lia. apply qspec_mod_bind. rewrite Hw1.
  eapply qspec_nop_bind; [by apply qspec_silent_call|]. intros _ e2 H2 _. apply qspec_ret.
  split_and!; [done| |rewrite app_nil_r; by apply emitted_silent_r].
  unfold filled. fold cb. by rewrite Z.add_assoc.
Qed.
(** ** A kernel dispatch *)

Definition add_offsets (l : list Z) (q : ComputeQueue) : ComputeQueue :=
  set_cmdbuf (cb_set_offsets (scratch_base_offsets (cq_cmdbuf q) ++ l) (cq_cmdbuf q)) q.

Definition offsets_within (lo hi : Z) (l : list Z) : Prop := Forall (fun o => lo <= o /\ o + 8 <= hi) l.

Lemma add_offsets_nil q : q = add_offsets [] q.
Proof. destruct q as [? ? [] ?]. unfold add_offsets, set_cmdbuf, cb_set_offsets. cbn. by rewrite app_nil_r. Qed.

Definition clock (b : bool) (a : Z) : list command := if b then [CopyData 9 1 (clock_addr (u64 a))] else [].

(** The commands before the dispatch proper. *)
Definition prologue_commands (major : Z) (p : hsa_kernel_dispatch_packet_t) (needs : bool) (base : Z)
    (cs : list command) : Prop :=
  exists prof lo hi,
    (prof = true -> kd_completion_signal p <> 0) /\ (11 <= major -> addr48 lo hi = base) /\
    cs = clock prof (kd_completion_signal p + signal_start_ts_offset) ++
         (if packet_barrier (kd_header p) && needs then [CsBarrier] else []) ++ [AcquireMem] ++
         (if 11 <=? major then [SetShRegs mmCOMPUTE_DISPATCH_SCRATCH_BASE_LO [lo; hi]; SetShRegs mmCOMPUTE_PGM_RSRC3 [2 ^ 31]]
          else []).

Lemma acquire_bytes_bound major : 28 <= acquire_bytes major <= 32.
Proof. unfold acquire_bytes. case_match; lia. Qed.

(** The scratch registers, from generation 11 on: the address, which is noted for
    [RelocateCmdbufScratchBase], and the shader parameters. *)
Definition scratch_prologue (cpu i base : Z) : QM K Z :=
  AppendCmdbufSratchBaseOffset (i + scratch_lo_offset) ;;
  i ← emit_opt cpu i (BuildScratch base);
  emit cpu i BuildComputeShaderParams.

Lemma scratch_prologue_spec cpu i base q :
  0 <= i -> i + 28 < 2 ^ 32 ->
  qspec (scratch_prologue cpu i base) q (fun i' q' evs =>
    i' = i + 28 /\ q' = add_offsets [i + scratch_lo_offset] q /\
    exists lo hi, addr48 lo hi = base /\
      emitted (cpu + i) 28 evs
        [SetShRegs mmCOMPUTE_DISPATCH_SCRATCH_BASE_LO [lo; hi]; SetShRegs mmCOMPUTE_PGM_RSRC3 [2 ^ 31]]).
Proof.
  intros Hi Hb. apply qspec_mod_bind.
  eapply (qspec_bind _ _ _ _ (fun i' q' evs => exists lo hi, addr48 lo hi = base /\
    emits cpu i 16 [SetShRegs mmCOMPUTE_DISPATCH_SCRATCH_BASE_LO [lo; hi]] _ i' q' evs)).
  - apply qspec_opt_bind. intros ws Hws. destruct (BuildScratch_spec _ _ Hws) as (lo & hi & Hc & Ha).
    eapply qspec_mono; [apply emit_spec; [exact Hc| |done|]|intros; by exists lo, hi]; [|lia].
    revert Hws. unfold BuildScratch. destruct (Ptr48Low32 base); [|done]. by intros [= <-].
  - intros i1 q1 e1 (lo & hi & Ha & -> & -> & H1).
    eapply qspec_mono; [apply (emit_spec cpu (i + 16) 12); [apply encodes_ComputeShaderParams|done|lia|lia]|].
    intros i2 q2 e2 (-> & -> & H2). split_and!; [lia|done|]. exists lo, hi. split; [done|].
    apply (emitted_seq _ _ 16 12 _ _ _ _ H1 H2). lia.
Qed.

Lemma offsets_within_one lo hi o : lo <= o -> o + 8 <= hi -> offsets_within lo hi [o].
Proof. by repeat constructor. Qed.

Lemma prologue_spec cpu i major p q :
  0 <= i -> i + 2 ^ 16 < 2 ^ 32 ->
  qspec (dispatch_prologue cpu i major p) q (fun i' q' evs => exists n l cs,
    i' = i + n /\ 0 <= n <= 92 /\ q' = add_offsets l q /\ offsets_within i (i + n) l /\
    emitted (cpu + i) n evs cs /\ prologue_commands major p (needs_barrier (cq_cmdbuf q)) (scratch_base_ (cq_scratch q)) cs).
Proof.
  intros Hi Hb. unfold dispatch_prologue. apply qspec_get_bind.
  eapply (qspec_nop_bind _ _ _ _ (fun b => b = true -> kd_completion_signal p <> 0)).
  { destruct (Z.eqb_spec (kd_completion_signal p) 0); [by apply qspec_nop_ret|].
    eapply qspec_mono; [apply EnableProfiling_nop|]. by intros b q' evs (-> & ? & _). }
  intros prof e0 H0 Hprof. eapply qspec_bind; [apply emit_clock_spec; unfold clock_bytes; lia|].
  intros i1 q1 e1 (-> & -> & H1). set (n1 := if prof then clock_bytes else 0) in *.
  assert (0 <= n1 <= 24) as Hn1 by (subst n1; unfold clock_bytes; destruct prof; lia).
  set (bar := packet_barrier (kd_header p) && needs_barrier (cq_cmdbuf q)).
  eapply qspec_bind; [apply emit_barrier_spec; unfold barrier_bytes; lia|].
  intros i2 q2 e2 (-> & -> & H2). set (n2 := if bar then barrier_bytes else 0) in *.
  assert (0 <= n2 <= 8) as Hn2 by (subst n2; unfold barrier_bytes; destruct bar; lia).
  eapply qspec_bind; [apply emit_acquire_spec; unfold acquire_limit; lia|].
  intros i3 q3 e3 (-> & -> & H3). pose proof (acquire_bytes_bound major) as Hn3. set (n3 := acquire_bytes major) in *.
  pose proof (emitted_seq _ _ _ _ _ _ _ _ H1 (emitted_seq _ _ _ _ _ _ _ _ H2 H3 ltac:(lia)) ltac:(lia)) as H123.
  apply (emitted_silent_l _ _ _ _ _ H0) in H123. destruct (Z.leb_spec 11 major) as [Hm|Hm].
  - apply qspec_get_bind. eapply qspec_mono; [apply scratch_prologue_spec; lia|].
    intros i' q' e4 (-> & -> & lo & hi & Ha & H4).
    exists (n1 + (n2 + n3) + 28), [i + n1 + n2 + n3 + scratch_lo_offset]. eexists.
    split_and!; [lia|lia|lia|done|by apply offsets_within_one; unfold scratch_lo_offset; lia| |].
    + replace (e0 ++ e1 ++ e2 ++ e3 ++ e4) with ((e0 ++ e1 ++ e2 ++ e3) ++ e4) by (by rewrite <- !app_assoc).
      apply (emitted_seq _ _ _ _ _ _ _ _ H123 H4). lia.
    + exists prof, lo, hi. split_and!; [done|done|]. by rewrite (proj2 (Z.leb_le _ _) Hm), <- !app_assoc.
  - apply qspec_ret. exists (n1 + (n2 + n3)), []. eexists.
    split_and!; [lia|lia|lia|apply add_offsets_nil|constructor| |].
    + rewrite app_nil_r. exact H123.
    + exists prof, 0, 0. split_and!; [done|lia|]. rewrite (proj2 (Z.leb_gt _ _) Hm). by rewrite app_nil_r.
Qed.

Lemma emit_dispatch_spec cpu i info q :
  0 <= i -> i + 176 < 2 ^ 32 ->
  qspec (emit_dispatch cpu i info) q (fun i' q' evs => exists l lo,
    i' = i + 176 /\ q' = add_offsets l q /\ offsets_within i (i + 176) l /\ dispatchable info /\
    Ptr48Low32 (di_pEntry info) = Some lo /\ emitted (cpu + i) 176 evs (dispatch_commands info lo)).
Proof.
  intros Hi Hb. apply qspec_opt_bind. intros [ws offs] Hr. cbn beta iota.
  pose proof (BuildDispatch_offsets_bound _ _ _ Hr) as Ho. destruct (decide (dispatchable info)) as [Hd|Hd].
  - destruct (BuildDispatch_runs info Hd) as (lo & ws' & offs' & Hr' & Hlo & Hlen & Hc & _).
    rewrite Hr in Hr'. injection Hr' as <- <-.
    eapply qspec_bind; [apply (emit_spec cpu i 176); [exact Hc|unfold bytes; by rewrite Hlen|done|done]|].
    intros i1 q1 e1 (-> & -> & H1). apply qspec_mod_bind, qspec_ret. rewrite app_nil_r. exists ((fun o => i + o) <$> offs), lo.
    split_and!; try done. unfold offsets_within. apply Forall_fmap. eapply Forall_impl; [exact Ho|].
    intros o. unfold compose. lia.
  - pose proof (BuildDispatch_None info Hd). congruence.
Qed.

(** The commands after it, for a packet that has a signal. *)
Definition completion_commands (prof atomic : bool) (signal : Z) : list command :=
  if signal =? 0 then []
  else [CsBarrier] ++ clock prof (signal + signal_end_ts_offset) ++ [AcquireMem] ++
       (if atomic then [signal_command signal] else []).

Definition signalled (signal : Z) (q : ComputeQueue) : ComputeQueue :=
  if signal =? 0 then q else note_signal (qc_platform_atomic_support (cq_config q)) signal q.

Lemma completion_spec cpu i major signal q :
  0 <= i -> i + 2 ^ 16 < 2 ^ 32 ->
  qspec (dispatch_completion cpu i major signal) q (fun i' q' evs => exists n prof,
    i' = i + n /\ 0 <= n <= 100 /\ q' = signalled signal q /\
    emitted (cpu + i) n evs (completion_commands prof (qc_platform_atomic_support (cq_config q)) signal)).
Proof.
  intros Hi Hb. unfold dispatch_completion, completion_commands, signalled. destruct (signal =? 0).
  - apply qspec_ret. exists 0, false. split_and!; [lia|lia|lia|done|by apply emitted_silent].
  - set (atomic := qc_platform_atomic_support (cq_config q)).
    eapply qspec_bind; [apply (emit_barrier_spec true); unfold barrier_bytes; lia|].
    intros i1 q1 e1 (-> & -> & H1). unfold barrier_bytes in *.
    eapply qspec_nop_bind; [apply EnableProfiling_nop|]. intros prof e0 H0 _.
    eapply qspec_bind; [apply emit_clock_spec; unfold clock_bytes; lia|].
    intros i2 q2 e2 (-> & -> & H2). set (n2 := if prof then clock_bytes else 0) in *.
    assert (0 <= n2 <= 24) as Hn2 by (subst n2; unfold clock_bytes; destruct prof; lia).
    eapply qspec_bind; [apply emit_acquire_spec; unfold acquire_limit; lia|].
    intros i3 q3 e3 (-> & -> & H3). pose proof (acquire_bytes_bound major) as Hn3. set (n3 := acquire_bytes major) in *.
    eapply qspec_nop_bind; [apply check_signal_nop|]. intros _ e4 H4 _.
    eapply qspec_mono; [apply emit_signal_spec; lia|]. fold atomic. intros i5 q5 e5 (-> & -> & H5).
    set (n5 := if atomic then 36 else 0) in *. assert (0 <= n5 <= 36) as Hn5 by (subst n5; destruct atomic; lia).
    exists (8 + (n2 + (n3 + n5))), prof. split_and!; [lia|lia|lia|done|].
    pose proof (emitted_seq _ _ _ _ _ _ _ _ H3 (emitted_silent_l _ _ _ _ _ H4 H5) ltac:(lia)) as H35.
    pose proof (emitted_seq _ _ _ _ _ _ _ _ H2 H35 ltac:(lia)) as H25. apply (emitted_silent_l _ _ _ _ _ H0) in H25.
    apply (emitted_seq _ _ _ _ _ _ _ _ H1 H25). lia.
Qed.

(** The words [l] were read at [a]. *)
Definition loaded (evs : list kevent) (a n : Z) (l : list Z) : Prop :=
  exists r, KEvent (load_dwords a n) r ∈ evs /\ l = u32 <$> r.

Lemma load_words_loaded a n q : qspec (load_words a n) q (fun l q' evs => q' = q /\ silent evs /\ loaded evs a n l).
Proof.
  eapply qspec_bind; [apply qspec_call|]. intros r q1 e1 [-> ->]. apply qspec_ret. rewrite app_nil_r.
  split_and!; [done|by apply silent_one|]. exists r. split; [by left|done].
Qed.

Lemma loaded_app_l e e' a n l : loaded e a n l -> loaded (e ++ e') a n l.
Proof. intros (r & ? & ?). exists r. split; [|done]. apply elem_of_app. by left. Qed.
Lemma loaded_app_r e e' a n l : loaded e' a n l -> loaded (e ++ e') a n l.
Proof. intros (r & ? & ?). exists r. split; [|done]. apply elem_of_app. by right. Qed.

(** A packet of [n] bytes has been added to what the queue will submit, with [l] the
    places of the scratch address in it. *)
Record advanced (n : Z) (l : list Z) (q q' : ComputeQueue) : Prop := {
  adv_base : cq_base q' = cq_base q;
  adv_config : cq_config q' = cq_config q;
  adv_start : ib_start_addr (cq_cmdbuf q') = ib_start_addr (cq_cmdbuf q);
  adv_size : ib_size (cq_cmdbuf q') = ib_size (cq_cmdbuf q) + n;
  adv_sync : sync_point (cq_cmdbuf q') = sync_point (cq_cmdbuf q);
  adv_index : write_index (cq_cmdbuf q') = write_index (cq_cmdbuf q) + 1;
  adv_ready : ready_to_submit (cq_cmdbuf q') = ready_to_submit (cq_cmdbuf q);
  adv_offsets : scratch_base_offsets (cq_cmdbuf q') = scratch_base_offsets (cq_cmdbuf q) ++ l;
}.

(** The commands of a kernel dispatch. *)
Definition kernel_dispatch_commands (info : DispatchInfo) (needs atomic : bool) (rptr w : Z) (cs : list command) : Prop :=
  let p := di_packet info in
  exists pro lo prof,
    prologue_commands (di_major info) p needs (di_pScratchBase info) pro /\
    Ptr48Low32 (di_pEntry info) = Some lo /\
    cs = pro ++ dispatch_commands info lo ++ completion_commands prof atomic (kd_completion_signal p) ++
         [rptr_command atomic rptr w].

(** Why a dispatch is refused, in the order of the checks: its workgroup is too large,
    its kernel is not [found], its dimensions are wrong, or it asks for more local
    memory than there is or than the hardware counts. *)
Definition dispatch_check (lds_size : Z) (p : hsa_kernel_dispatch_packet_t) (found : bool) : option Z :=
  if (1024 <? kd_workgroup_size_x p) || (1024 <? kd_workgroup_size_y p) || (1024 <? kd_workgroup_size_z p)
  then Some HSA_STATUS_ERROR_INVALID_ARGUMENT
  else if negb found then Some HSA_STATUS_ERROR_INVALID_CODE_OBJECT
  else if (kd_setup p =? 0) || (3 <? kd_setup p) then Some HSA_STATUS_ERROR_INCOMPATIBLE_ARGUMENTS
  else if lds_size <? kd_group_segment_size p then Some HSA_STATUS_ERROR_INVALID_ALLOCATION
  else if 128 <? LdsBlocks p then Some HSA_STATUS_ERROR_INVALID_ARGUMENT
  else None.

Lemma dispatch_check_error lds p found st : dispatch_check lds p found = Some st -> st <> HSA_STATUS_SUCCESS.
Proof. unfold dispatch_check. repeat case_match; by intros [= <-]. Qed.

(** The part of [KernelDispatchAqlToPm4] that writes the frame. *)
Definition dispatch_frame (cpu packet i : Z) (p : hsa_kernel_dispatch_packet_t) (major entry : Z)
    (ko : amd_kernel_code_t) (wave32 : bool) : QM K Z :=
  i ← dispatch_prologue cpu i major p;
  s ← qget cq_scratch;
  c ← qget cq_config;
  srd ← qopt (UpdateIndexStride major (dword (aq_scratch_resource_descriptor (amd_queue_ s)) 3) wave32);
  i ← emit_dispatch cpu i (dispatch_info major packet p entry ko wave32 srd c s);
  mod_cmdbuf (cb_set_barrier (kd_completion_signal p =? 0)) ;;
  i ← dispatch_completion cpu i major (kd_completion_signal p);
  finish_packet cpu i packet.

(** A queue with room for another frame. *)
Record has_room (q : ComputeQueue) : Prop := {
  room_config : config_ok (cq_config q);
  room_size : 0 <= ib_size (cq_cmdbuf q) /\ ib_size (cq_cmdbuf q) + 2 ^ 17 < 2 ^ 32;
  room_index : 0 <= write_index (cq_cmdbuf q) < 2 ^ 64 - 1;
}.

Lemma dispatch_frame_spec cpu packet p major entry ko wave32 q :
  has_room q ->
  qspec (dispatch_frame cpu packet (u32 (ib_size (cq_cmdbuf q))) p major entry ko wave32) q (fun st q' evs =>
    exists n l srd cs, st = HSA_STATUS_SUCCESS /\ 0 <= n <= dispatch_limit /\ advanced n l q q' /\
      offsets_within (ib_size (cq_cmdbuf q)) (ib_size (cq_cmdbuf q) + n) l /\
      needs_barrier (cq_cmdbuf q') = (kd_completion_signal p =? 0) /\ cq_scratch q' = cq_scratch q /\
      emitted (cpu + ib_size (cq_cmdbuf q)) n evs cs /\
      let s := cq_scratch q in
      UpdateIndexStride major (dword (aq_scratch_resource_descriptor (amd_queue_ s)) 3) wave32 = Some srd /\
      let info := dispatch_info major packet p entry ko wave32 srd (cq_config q) s in
      dispatchable info /\
      kernel_dispatch_commands info (needs_barrier (cq_cmdbuf q)) (qc_platform_atomic_support (cq_config q))
        (qc_ring_rptr (cq_config q)) (write_index (cq_cmdbuf q)) cs).
Proof.
  intros [Hc [Hs Hs'] Hw]. unfold dispatch_frame, dispatch_limit.
  set (i := ib_size (cq_cmdbuf q)) in *. rewrite u32_small by lia.
  eapply qspec_bind; [apply prologue_spec; lia|].
  intros i1 q1 e1 (n1 & l1 & c1 & -> & Hn1 & -> & Hl1 & H1 & Hc1). do 2 apply qspec_get_bind.
  apply qspec_opt_bind. intros srd Hsrd. eapply qspec_bind; [apply emit_dispatch_spec; lia|].
  intros i2 q2 e2 (l2 & lo & -> & -> & Hl2 & Hd & Hlo & H2). apply qspec_mod_bind.
  eapply qspec_bind; [apply completion_spec; lia|]. intros i3 q3 e3 (n3 & prof & -> & Hn3 & Hq3 & H3).
  match type of Hq3 with _ = signalled _ ?q0 => set (q2 := q0) in * end.
  assert (cq_config q3 = cq_config q /\ cq_base q3 = cq_base q /\ cq_scratch q3 = cq_scratch q /\
          scratch_base_offsets (cq_cmdbuf q3) = (scratch_base_offsets (cq_cmdbuf q) ++ l1) ++ l2 /\
          needs_barrier (cq_cmdbuf q3) = (kd_completion_signal p =? 0) /\
          ib_start_addr (cq_cmdbuf q3) = ib_start_addr (cq_cmdbuf q) /\ ib_size (cq_cmdbuf q3) = i /\
          sync_point (cq_cmdbuf q3) = sync_point (cq_cmdbuf q) /\ write_index (cq_cmdbuf q3) = write_index (cq_cmdbuf q) /\
          ready_to_submit (cq_cmdbuf q3) = ready_to_submit (cq_cmdbuf q)) as (E1 & E2 & E3 & E4 & E5 & E6 & E7 & E8 & E9 & E10).
  { rewrite Hq3. unfold signalled, note_signal. destruct (kd_completion_signal p =? 0) eqn:Es; [|destruct (qc_platform_atomic_support _)];
      cbn; rewrite ?Es; done. }
  clear Hq3. assert (dispatch_limit <= qc_cmdbuf_aql_frame_size (cq_config q)) as Hf by apply Hc.
  unfold dispatch_limit in Hf. replace (i + n1 + 176 + n3) with (ib_size (cq_cmdbuf q3) + (n1 + 176 + n3)) by lia.
  eapply qspec_mono; [apply finish_packet_spec; rewrite ?E1, ?E7, ?E9; (done || lia)|].
  intros st q' e4 (-> & -> & H4). rewrite E1, E7, E9 in *. change (cq_config q2) with (cq_config q) in *.
  set (atomic := qc_platform_atomic_support (cq_config q)) in *.
  assert (0 <= rptr_bytes atomic <= 36) by (unfold rptr_bytes; destruct atomic; lia).
  exists (n1 + 176 + n3 + rptr_bytes atomic), (l1 ++ l2), srd. eexists.
  split_and!; [done|lia|lia| | | |done| |exact Hsrd|exact Hd|].
  - split; cbn; rewrite ?E7, ?E9; try done. by rewrite E4, <- app_assoc.
  - apply Forall_app. split; (eapply Forall_impl; [eassumption|]); cbn; lia.
  - done.
  - pose proof (emitted_seq _ _ _ _ _ _ _ _ H3 H4 ltac:(lia)) as H34.
    pose proof (emitted_seq _ _ _ _ _ _ _ _ H2 H34 ltac:(lia)) as H24.
    pose proof (emitted_seq _ _ _ _ _ _ _ _ H1 H24 ltac:(lia)) as H14.
    replace (n1 + 176 + n3 + rptr_bytes atomic) with (n1 + (176 + (n3 + rptr_bytes atomic))) by lia. exact H14.
  - exists c1, lo, prof. done.
Qed.

(** What a kernel dispatch that is accepted does: its frame holds the commands that
    the packet and the kernel's descriptor, read at [ka], stand for. *)
Definition dispatched (major cpu packet ka : Z) (p : hsa_kernel_dispatch_packet_t) (q q' : ComputeQueue)
    (evs : list kevent) : Prop :=
  exists kw srd n l cs,
    let ko := kernel_code_of kw in
    let wave32 := bit KC_ENABLE_WAVEFRONT_SIZE32 (kc_kernel_code_properties ko) in
    let entry := u64 (kd_kernel_object p + kc_kernel_code_entry_byte_offset ko) in
    let info := dispatch_info major packet p entry ko wave32 srd (cq_config q) (cq_scratch q') in
    loaded evs ka 64 kw /\
    kc_workitem_private_segment_byte_size ko <= kd_private_segment_size p /\
    0 <= n <= dispatch_limit /\ advanced n l q q' /\
    offsets_within (ib_size (cq_cmdbuf q)) (ib_size (cq_cmdbuf q) + n) l /\
    needs_barrier (cq_cmdbuf q') = (kd_completion_signal p =? 0) /\
    emitted (cpu + ib_size (cq_cmdbuf q)) n evs cs /\
    dispatchable info /\
    kernel_dispatch_commands info (needs_barrier (cq_cmdbuf q)) (qc_platform_atomic_support (cq_config q))
      (qc_ring_rptr (cq_config q)) (write_index (cq_cmdbuf q)) cs.

Lemma has_room_scratch s q : has_room q -> has_room (set_scratch s q).
Proof. by intros [? ? ?]. Qed.

Lemma advanced_scratch n l s q q' : advanced n l (set_scratch s q) q' -> advanced n l q q'.
Proof. by intros []. Qed.

(** A dispatch is refused, with nothing done, or its frame written. *)
Definition dispatch_outcome (d : DeviceInfo) (cpu packet : Z) (q : ComputeQueue) (st : Z) (q' : ComputeQueue)
    (evs : list kevent) : Prop :=
  exists words ka, loaded evs packet 16 words /\
    let p := dispatch_packet_of words in
    match dispatch_check (sd_LdsSize d) p (negb (ka =? 0)) with
    | Some e => st = e /\ q' = q /\ silent evs
    | None => st = HSA_STATUS_SUCCESS /\ dispatched (sd_Major d) cpu packet ka p q q' evs
    end.

Lemma refused d cpu packet q words ka st evs :
  loaded evs packet 16 words -> silent evs ->
  dispatch_check (sd_LdsSize d) (dispatch_packet_of words) (negb (ka =? 0)) = Some st ->
  dispatch_outcome d cpu packet q st q evs.
Proof. intros Hl Hs Hc. exists words, ka. split; [done|]. cbv zeta. by rewrite Hc. Qed.

#[local] Ltac refuse words ka :=
  apply qspec_ret, (refused _ _ _ _ words ka);
    [by apply loaded_app_l|auto 10 with dxg|unfold dispatch_check].

Lemma KernelDispatch_spec d cpu packet q :
  has_room q -> E.1 !! q_device (cq_base q) = Some d ->
  qspec (KernelDispatchAqlToPm4 cpu packet) q (dispatch_outcome d cpu packet q).
Proof.
  intros Hr Hd. unfold KernelDispatchAqlToPm4.
  eapply qspec_bind; [apply load_words_loaded|]. intros pw q1 e1 (-> & S1 & L1). cbv zeta.
  destruct (_ || _) eqn:Ewg; [refuse pw 0; by rewrite Ewg|].
  eapply qspec_nop_bind; [apply Major_nop|]. intros major e2 S2 (d1 & Hd1 & ->). assert (d1 = d) as -> by congruence.
  apply qspec_get_bind. eapply qspec_nop_bind; [apply GetKernelObjAddr_nop|]. intros ka e3 S3 _.
  destruct (ka =? 0) eqn:Eka; [refuse pw ka; by rewrite Ewg, Eka|].
  eapply qspec_bind; [apply load_words_loaded|]. intros kw q4 e4 (-> & S4 & L4). apply qspec_assert_bind. intros _.
  eapply qspec_nop_bind; [apply queue_dev_nop|]. intros d' e5 S5 Hd'. assert (shared_dev_ d' = d) as -> by congruence.
  destruct ((_ =? 0) || _) eqn:Esetup; [refuse pw ka; by rewrite Ewg, Eka, Esetup|].
  destruct (sd_LdsSize d <? _) eqn:Elds; [refuse pw ka; by rewrite Ewg, Eka, Esetup, Elds|].
  destruct (128 <? _) eqn:Eblk; [refuse pw ka; by rewrite Ewg, Eka, Esetup, Elds, Eblk|].
  assert (dispatch_check (sd_LdsSize d) (dispatch_packet_of pw) (negb (ka =? 0)) = None) as Hcheck
    by (unfold dispatch_check; by rewrite Ewg, Eka, Esetup, Elds, Eblk).
  apply qspec_assert_bind. intros Hpriv%Z.leb_le.
  eapply qspec_bind; [apply UpdateScratch_spec|]. intros _ q6 e6 [[s ->] S6].
  eapply qspec_mono; [apply (dispatch_frame_spec cpu packet _ _ _ _ _ (set_scratch s q)); by apply has_room_scratch|].
  intros st q' e7 (n & l & srd & cs & -> & Hn & Hadv & Hl & Hb & Hs & He & Hsrd & Hdis & Hcs).
  exists pw, ka. split; [by apply loaded_app_l|]. cbv zeta. rewrite Hcheck. split; [done|].
  exists kw, srd, n, l, cs. cbv zeta in *. rewrite Hs. cbn [cq_scratch set_scratch cq_config cq_cmdbuf] in *.
  split; [do 3 apply loaded_app_r; by apply loaded_app_l|]. do 2 (split; [done|]).
  split; [by apply (advanced_scratch _ _ s)|]. do 2 (split; [done|]). split; [|by split].
  do 6 (apply emitted_silent_l; [done|]). exact He.
Qed.

(** ** Barriers and vendor packets *)

(** The commands of a barrier that has a signal. *)
Definition barrier_commands (prof prof' needs atomic : bool) (signal : Z) : list command :=
  clock prof (signal + signal_start_ts_offset) ++ (if needs then [CsBarrier] else []) ++
  clock prof' (signal + signal_end_ts_offset) ++ [AcquireMem] ++ (if atomic then [signal_command signal] else []).

(** The part of [BarrierGenericAqlToPm4] that follows the check of the signal. *)
Definition barrier_body (cpu i major signal : Z) (needs : bool) : QM K Z :=
  profiling ← EnableProfiling;
  i ← emit_if profiling cpu i (BuildCopyClock (u64 (signal + signal_start_ts_offset)));
  i ← emit_if needs cpu i BuildCsBarrier;
  mod_cmdbuf (cb_set_barrier false) ;;
  profiling ← EnableProfiling;
  i ← emit_if profiling cpu i (BuildCopyClock (u64 (signal + signal_end_ts_offset)));
  i ← emit_acquire cpu i major;
  emit_signal cpu i signal.

Lemma barrier_body_spec cpu i major signal needs q :
  0 <= i -> i + 2 ^ 16 < 2 ^ 32 ->
  let atomic := qc_platform_atomic_support (cq_config q) in
  qspec (barrier_body cpu i major signal needs) q (fun i' q' evs => exists n prof prof',
    i' = i + n /\ 0 <= n <= 124 /\
    q' = note_signal atomic signal (set_cmdbuf (cb_set_barrier false (cq_cmdbuf q)) q) /\
    emitted (cpu + i) n evs (barrier_commands prof prof' needs atomic signal)).
Proof.
  intros Hi Hb atomic. eapply qspec_nop_bind; [apply EnableProfiling_nop|]. intros prof e0 H0 _.
  eapply qspec_bind; [apply emit_clock_spec; unfold clock_bytes; lia|].
  intros i1 q1 e1 (-> & -> & H1). set (n1 := if prof then clock_bytes else 0) in *.
  assert (0 <= n1 <= 24) as Hn1 by (subst n1; unfold clock_bytes; destruct prof; lia).
  eapply qspec_bind; [apply emit_barrier_spec; unfold barrier_bytes; lia|].
  intros i2 q2 e2 (-> & -> & H2). set (n2 := if needs then barrier_bytes else 0) in *.
  assert (0 <= n2 <= 8) as Hn2 by (subst n2; unfold barrier_bytes; destruct needs; lia).
  apply qspec_mod_bind. eapply qspec_nop_bind; [apply EnableProfiling_nop|]. intros prof' e3 H3 _.
  eapply qspec_bind; [apply emit_clock_spec; unfold clock_bytes; lia|].
  intros i4 q4 e4 (-> & -> & H4). set (n4 := if prof' then clock_bytes else 0) in *.
  assert (0 <= n4 <= 24) as Hn4 by (subst n4; unfold clock_bytes; destruct prof'; lia).
  eapply qspec_bind; [apply emit_acquire_spec; unfold acquire_limit; lia|].
  intros i5 q5 e5 (-> & -> & H5). pose proof (acquire_bytes_bound major) as Hn5. set (n5 := acquire_bytes major) in *.
  eapply qspec_mono; [apply emit_signal_spec; lia|]. cbn [cq_config set_cmdbuf]. fold atomic. intros i6 q6 e6 (-> & -> & H6).
  set (n6 := if atomic then 36 else 0) in *. assert (0 <= n6 <= 36) as Hn6 by (subst n6; destruct atomic; lia).
  exists (n1 + (n2 + (n4 + (n5 + n6)))), prof, prof'. split_and!; [lia|lia|lia|done|].
  pose proof (emitted_seq _ _ _ _ _ _ _ _ H5 H6 ltac:(lia)) as H56.
  pose proof (emitted_seq _ _ _ _ _ _ _ _ H4 H56 ltac:(lia)) as H46. apply (emitted_silent_l _ _ _ _ _ H3) in H46.
  pose proof (emitted_seq _ _ _ _ _ _ _ _ H2 H46 ltac:(lia)) as H26.
  pose proof (emitted_seq _ _ _ _ _ _ _ _ H1 H26 ltac:(lia)) as H16. by apply (emitted_silent_l _ _ _ _ _ H0) in H16.
Qed.

(** A packet whose commands are [body cs]'s and then the move of the read pointer. *)
Definition taken (cpu : Z) (q q' : ComputeQueue) (evs : list kevent) (body : list command -> Prop) : Prop :=
  exists n cs, 0 <= n <= dispatch_limit /\ advanced n [] q q' /\ cq_scratch q' = cq_scratch q /\
    emitted (cpu + ib_size (cq_cmdbuf q)) n evs
      (cs ++ [rptr_command (qc_platform_atomic_support (cq_config q)) (qc_ring_rptr (cq_config q)) (write_index (cq_cmdbuf q))]) /\
    body cs.

(** [finish_packet] at the end of such a packet; [q1] differs from [q] in flags only. *)
Lemma finish_taken cpu packet m q q1 e1 cs (body : list command -> Prop) :
  has_room q -> 0 <= m <= 124 -> advanced 0 [] q (filled 0 q1) -> cq_scratch q1 = cq_scratch q ->
  emitted (cpu + ib_size (cq_cmdbuf q)) m e1 cs -> body cs ->
  qspec (finish_packet cpu (ib_size (cq_cmdbuf q) + m) packet) q1 (fun st q' e2 =>
    st = HSA_STATUS_SUCCESS /\ needs_barrier (cq_cmdbuf q') = needs_barrier (cq_cmdbuf q1) /\
    taken cpu q q' (e1 ++ e2) body).
Proof.
  intros [Hc [Hs Hs'] Hw] Hm [E1 E2 E3 E4 E5 E6 E7 E8] Esc He Hbody. cbn in E1, E2, E3, E4, E5, E6, E7, E8.
  assert (ib_size (cq_cmdbuf q1) = ib_size (cq_cmdbuf q)) as E4' by lia.
  assert (write_index (cq_cmdbuf q1) = write_index (cq_cmdbuf q)) as E6' by lia.
  assert (dispatch_limit <= qc_cmdbuf_aql_frame_size (cq_config q)) as Hf by apply Hc. unfold dispatch_limit in Hf.
  rewrite <- E4'. eapply qspec_mono; [apply finish_packet_spec; rewrite ?E2, ?E4', ?E6'; (done || lia)|].
  intros st q' e2 (-> & -> & H2). split; [done|]. split; [done|]. rewrite E2, E4', E6' in *.
  set (atomic := qc_platform_atomic_support (cq_config q)) in *.
  assert (0 <= rptr_bytes atomic <= 36) by (unfold rptr_bytes; destruct atomic; lia).
  exists (m + rptr_bytes atomic), cs. unfold dispatch_limit. split_and!; [lia|lia| |done| |done].
  - split; cbn; rewrite ?E4', ?E6'; done.
  - apply (emitted_seq _ _ _ _ _ _ _ _ He H2). lia.
Qed.

Lemma advanced_refl q : advanced 0 [] q (filled 0 q).
Proof. split; cbn; rewrite ?app_nil_r; done || lia. Qed.

Lemma advanced_note atomic signal q :
  advanced 0 [] q (filled 0 (note_signal atomic signal (set_cmdbuf (cb_set_barrier false (cq_cmdbuf q)) q))).
Proof. destruct atomic; split; cbn; rewrite ?app_nil_r; done || lia. Qed.

Lemma advanced_signal atomic signal q : advanced 0 [] q (filled 0 (note_signal atomic signal q)).
Proof. destruct atomic; split; cbn; rewrite ?app_nil_r; done || lia. Qed.

Lemma taken_silent_l cpu q q' e e' body : silent e -> taken cpu q q' e' body -> taken cpu q q' (e ++ e') body.
Proof.
  intros Hs (n & cs & Hn & Ha & Hc & He & Hb). exists n, cs. repeat (split; [done|]). split; [|done]. by apply emitted_silent_l.
Qed.

Definition maybe_barrier_commands (needs atomic : bool) (signal : Z) (cs : list command) : Prop :=
  if signal =? 0 then cs = [] else exists prof prof', cs = barrier_commands prof prof' needs atomic signal.

Lemma BarrierGeneric_spec fuel cpu packet is_or q :
  has_room q ->
  qspec (BarrierGenericAqlToPm4 fuel cpu packet is_or) q (fun o q' evs =>
    (o = None /\ q' = q /\ silent evs) \/
    (exists words, let p := barrier_packet_of words in let signal := ba_completion_signal p in
       o = Some HSA_STATUS_SUCCESS /\ loaded evs packet 16 words /\
       needs_barrier (cq_cmdbuf q') = (if signal =? 0 then needs_barrier (cq_cmdbuf q) else false) /\
       taken cpu q q' evs
         (maybe_barrier_commands (needs_barrier (cq_cmdbuf q)) (qc_platform_atomic_support (cq_config q)) signal))).
Proof.
  intros Hr. unfold BarrierGenericAqlToPm4. pose proof (room_size _ Hr) as [Hs Hs'].
  eapply qspec_bind; [apply load_words_loaded|]. intros words q1 e1 (-> & S1 & L1). cbv zeta.
  eapply (qspec_nop_bind _ _ _ _ (fun _ => True)).
  { destruct is_or.
    - destruct (decide _); [by apply qspec_nop_ret|]. eapply qspec_mono; [apply wait_any_nop|]. intros o q' e (-> & ? & _). done.
    - eapply qspec_nop_seq; [apply wait_all_nop|]. intros _ _. by apply qspec_nop_ret. }
  intros [[]|] e2 S2 _; [|apply qspec_ret; left; split_and!; auto with dxg].
  eapply qspec_nop_bind; [apply Major_nop|]. intros major e3 S3 _. apply qspec_get_bind. rewrite u32_small by lia.
  set (p := barrier_packet_of words) in *. set (signal := ba_completion_signal p) in *.
  eapply (qspec_bind _ _ _ _ (fun i' q' evs => exists m cs, i' = ib_size (cq_cmdbuf q) + m /\ 0 <= m <= 124 /\
    advanced 0 [] q (filled 0 q') /\ cq_scratch q' = cq_scratch q /\
    needs_barrier (cq_cmdbuf q') = (if signal =? 0 then needs_barrier (cq_cmdbuf q) else false) /\
    emitted (cpu + ib_size (cq_cmdbuf q)) m evs cs /\
    maybe_barrier_commands (needs_barrier (cq_cmdbuf q)) (qc_platform_atomic_support (cq_config q)) signal cs)).
  - unfold maybe_barrier_commands. destruct (signal =? 0).
    + apply qspec_ret. exists 0, []. split_and!; try done; try lia; [apply advanced_refl|by apply emitted_silent].
    + eapply qspec_nop_bind; [apply check_signal_nop|]. intros _ e4 S4 _.
      eapply qspec_mono; [apply barrier_body_spec; lia|]. intros i' q' e5 (m & prof & prof' & -> & Hm & -> & H5).
      exists m. eexists. split_and!; [done|lia|lia|apply advanced_note|by destruct (qc_platform_atomic_support _)|
        by destruct (qc_platform_atomic_support _)|by apply emitted_silent_l|]. by exists prof, prof'.
  - intros i' q' e4 (m & cs & -> & Hm & Hadv & Hsc & Hb & H4 & Hcs).
    eapply qspec_bind; [eapply finish_taken; [exact Hr|exact Hm|exact Hadv|exact Hsc|exact H4|exact Hcs]|].
    intros st q5 e5 (-> & Hb' & Ht). apply qspec_ret. right. exists words. fold p. fold signal.
    split_and!; [done|by apply loaded_app_l|by rewrite Hb'|]. rewrite app_nil_r. by do 3 (apply taken_silent_l; [done|]).
Qed.

Lemma get_rt_nop q :
  qspec (lift (K := K) get_rt) q (nop (fun rt => vendor_packet_process rt = E.2) q).
Proof.
  intros w rt q' w' He [= <- <- <-]. split; [done|]. exists []. rewrite app_nil_r. split_and!; try done. by rewrite <- He.
Qed.

(** Unless the vendor packets are to be processed, one only moves the read pointer. *)
Lemma VendorSpecific_skip cpu packet q :
  has_room q -> E.2 = 0 ->
  qspec (VendorSpecificAqlToPm4 cpu packet) q (fun st q' evs =>
    st = HSA_STATUS_SUCCESS /\ taken cpu q q' evs (fun cs => cs = [])).
Proof.
  intros Hr Hv. unfold VendorSpecificAqlToPm4. pose proof (room_size _ Hr) as [Hs Hs'].
  eapply qspec_bind; [apply load_words_loaded|]. intros words q1 e1 (-> & S1 & L1). cbv zeta.
  do 2 (apply qspec_assert_bind; intros _). apply qspec_get_bind. rewrite (u32_small (ib_size (cq_cmdbuf q))) by lia.
  eapply (qspec_nop_bind _ _ _ _ (fun rt => vendor_packet_process rt = E.2)); [apply get_rt_nop|].
  intros rt e2 S2 ->. rewrite Hv. cbn [negb Z.eqb].
  eapply (qspec_bind _ _ _ _ (fun i' q' evs => i' = ib_size (cq_cmdbuf q) /\ q' = q /\ silent evs)).
  - eapply (qspec_nop_bind _ _ _ _ (fun _ => True)).
    + destruct (_ =? 0); [by apply qspec_nop_ret|by apply qspec_silent_call].
    + intros _ e S _. apply qspec_ret. by rewrite app_nil_r.
  - intros i q2 e3 (-> & -> & S3). rewrite <- (Z.add_0_r (ib_size _)).
    eapply qspec_mono; [eapply (finish_taken cpu packet 0 q q [] [] (fun cs => cs = []));
      [done|lia|apply advanced_refl|done|by apply emitted_silent|done]|].
    intros st q' e4 (-> & _ & Ht). split; [done|]. by do 3 (apply taken_silent_l; [done|]).
Qed.
End emit.
