(* ===== verification/QueueProcess.v ===== *)
(** * QueueProcess: what the worker of a compute queue submits

    [Process] fills the frames of the command buffer from the packets of the ring and
    submits what it has filled. The theorem of this file says what one can rely on
    over any number of its rounds: the submissions follow each other frame by frame,
    each within one lap of the buffer, the fence value of each being the number of
    packets up to it; and no word is stored where a submission the device may still be
    reading lies, which is what the wait on the fence is for. *)

From S2P Require Import Prelude.
From S2P Require Import StdMap.
From S2P Require Import BitField.
From S2P Require Import Utils.
From S2P Require Import Status.
From S2P Require Import World.
From S2P Require Import Runtime.
From S2P Require Import Device.
From S2P Require Import GpuMemory.
From S2P Require Import Memory.
From S2P Require Import Aql.
From S2P Require Import CmdUtil.
From S2P Require Import CmdUtilSpec.
From S2P Require Import Queue.
From S2P Require Import QueueThread.
From S2P Require Import QueueNew.
From S2P Require Import Demo.
From S2P Require Import SimpleHeap.
From S2P Require Import QueueLog.
From S2P Require Import QueueDemo.
From S2P Require Import QueueSpec.
#[local] Open Scope Z_scope.

(** ** Submissions *)

Section chain.
Context (base F : Z).

(** Packets [s] to [f - 1] lie in one lap of the buffer. *)
Definition in_lap (s f : Z) : Prop := s mod AqlFrameNum + (f - s) <= AqlFrameNum.

Definition frame_addr (s : Z) : Z := base + (s mod AqlFrameNum) * F.

(** The submissions take the packets from [s] to [e - 1] in turn. *)
Fixpoint chain (s : Z) (subs : list (Z * Z * Z)) (e : Z) : Prop :=
  match subs with
  | [] => s = e
  | (a, len, f) :: subs => (s < f /\ in_lap s f /\ a = frame_addr s /\ 0 <= len <= (f - s) * F) /\ chain f subs e
  end.

Lemma chain_snoc s subs e len f :
  chain s subs e -> e < f -> in_lap e f -> 0 <= len <= (f - e) * F -> chain s (subs ++ [(frame_addr e, len, f)]) f.
Proof.
  revert s. induction subs as [|[[a l] g] subs IH]; intros s; cbn [chain app]; [by intros ->|].
  intros [Hg Hc] ???. split; [done|]. by apply IH.
Qed.

Lemma chain_le s subs e : chain s subs e -> s <= e.
Proof.
  revert s. induction subs as [|[[a l] g] subs IH]; intros s; cbn [chain]; [lia|]. intros [(? & _) Hc%IH]. lia.
Qed.

Definition fences (subs : list (Z * Z * Z)) : list Z := (fun x => x.2) <$> subs.

Lemma chain_fence_ge s subs e f : chain s subs e -> f ∈ fences subs -> s <= f.
Proof.
  revert s. induction subs as [|[[a l] g] subs IH]; intros s; cbn [chain fences fmap list_fmap]; [by intros _ []%elem_of_nil|].
  intros [(? & _) Hc] [->|Hin]%elem_of_cons; [cbn; lia|]. specialize (IH g Hc Hin). lia.
Qed.

(** What is not done yet starts where the last thing done ends, or later. *)
Lemma chain_pending s subs e done a len f :
  chain s subs e -> done <= s \/ done ∈ fences subs -> (a, len, f) ∈ subs -> done < f ->
  exists s', done <= s' < f /\ f <= e /\ in_lap s' f /\ a = frame_addr s' /\ len <= (f - s') * F.
Proof.
  revert s. induction subs as [|[[b l] g] subs IH]; intros s; [by intros _ _ []%elem_of_nil|].
  intros [(Hsg & Hlap & Ha & Hl) Hc] Hd Hin Hf. pose proof (chain_le _ _ _ Hc).
  apply elem_of_cons in Hin as [[= -> -> ->]|Hin].
  - exists s. split_and!; try done; try lia.
    destruct Hd as [|[->|Hd]%elem_of_cons]; [lia|cbn in Hf; lia|].
    pose proof (chain_fence_ge _ _ _ _ Hc Hd). lia.
  - apply (IH g); try done. destruct Hd as [|[->|Hd]%elem_of_cons]; [left; lia|left; cbn; lia|by right].
Qed.

(** Frames of the last lap's worth of packets lie apart. *)
Lemma laps_apart s' f s w :
  w - AqlFrameNum + 1 <= s' -> s' < f -> f <= s -> s <= w -> in_lap s' f -> in_lap s (w + 1) ->
  s' mod AqlFrameNum + (f - s') <= s mod AqlFrameNum \/ s mod AqlFrameNum + (w + 1 - s) <= s' mod AqlFrameNum.
Proof.
  unfold in_lap. intros. assert (0 < AqlFrameNum) as HN by done.
  pose proof (Z.div_mod s' AqlFrameNum ltac:(lia)) as E'. pose proof (Z.div_mod s AqlFrameNum ltac:(lia)) as E.
  pose proof (Z.mod_pos_bound s' AqlFrameNum HN). pose proof (Z.mod_pos_bound s AqlFrameNum HN).
  set (b := s' / AqlFrameNum) in *. set (a := s / AqlFrameNum) in *. unfold AqlFrameNum in *.
  destruct (Z.lt_trichotomy b a) as [|[->|]]; [|lia|lia]. right. assert (b = a - 1) as -> by lia. lia.
Qed.

Definition apart (a n a' n' : Z) : Prop := a + n <= a' \/ a' + n' <= a.

(** With all packets but the last lap's known to be done, the frames from [s] to the
    one of packet [w] are free of what is pending. *)
Lemma pending_apart s0 subs s done a len f w lo n :
  0 <= F -> chain s0 subs s -> done <= s0 \/ done ∈ fences subs -> (a, len, f) ∈ subs -> done < f ->
  w - AqlFrameNum + 1 <= done -> s <= w -> in_lap s (w + 1) ->
  frame_addr s <= lo -> lo + n <= frame_addr s + (w + 1 - s) * F -> apart lo n a len.
Proof.
  intros HF Hc Hd Hin Hf Hdone Hw Hlap Hlo Hn.
  destruct (chain_pending _ _ _ _ _ _ _ Hc Hd Hin Hf) as (s' & Hs' & Hfs & Hlap' & -> & Hlen).
  unfold apart, frame_addr in *. destruct (laps_apart s' f s w) as [Hle|Hle]; try done; try lia.
  - right. apply (Z.mul_le_mono_nonneg_r _ _ F) in Hle; [|done]. lia.
  - left. apply (Z.mul_le_mono_nonneg_r _ _ F) in Hle; [|done]. lia.
Qed.
End chain.

(** ** Knowing how far the device is *)

(** A value the queue's fence is known to have reached: one read from where it is
    mapped, or waited for with success. *)
Definition as_fence (addr sync : Z) (e : kevent) : option Z :=
  match e with
  | KEvent c r =>
      match c in kcall R return R -> option Z with
      | load_u64 a => fun r => if a =? addr then Some (u64 r) else None
      | D3DKMTWaitForSynchronizationObjectFromCpu _ [o] [v] _ => fun r =>
          if (o =? sync) && ErrorCode_ok (TranslateNtStatus r) then Some v else None
      | _ => fun _ => None
      end r
  end.

Section safety.
Context (addr sync base F s0 : Z).

Definition reached (evs : list kevent) : list Z := omap (as_fence addr sync) evs.

(** [done], a value the fence may have after the log [evs]: that of a submission, or
    what it was at first, and nothing above it has been seen. *)
Definition may_be_done (evs : list kevent) (done : Z) : Prop :=
  (done <= s0 \/ done ∈ fences (submits evs)) /\ Forall (fun v => v <= done) (reached evs).

(** A store after the log [old] lies in the buffer and apart from every submission
    that may still be pending. *)
Definition store_safe (old : list kevent) (x : Z * list Z) : Prop :=
  (base <= x.1 /\ x.1 + bytes x.2 <= base + AqlFrameNum * F) /\
  forall done, may_be_done old done ->
    Forall (fun s => done < s.2 -> apart x.1 (bytes x.2) s.1.1 s.1.2) (submits old).

(** So does each store of [evs], after [old] and what comes before it in [evs]. *)
Fixpoint safe (old evs : list kevent) : Prop :=
  match evs with
  | [] => True
  | e :: evs => from_option (store_safe old) True (as_store e) /\ safe (old ++ [e]) evs
  end.

Lemma safe_app old e e' : safe old e -> safe (old ++ e) e' -> safe old (e ++ e').
Proof.
  revert old. induction e as [|x e IH]; intros old; cbn [safe app]; [by rewrite app_nil_r|].
  intros [Hx He] He'. split; [done|]. apply IH; [done|]. by rewrite <- app_assoc.
Qed.

Lemma no_stores_safe old evs : stores evs = [] -> safe old evs.
Proof.
  revert old. induction evs as [|x evs IH]; intros old; cbn [safe stores omap list_omap]; [done|].
  destruct (as_store x); [done|]. intros Hs. split; [done|]. by apply IH.
Qed.

Lemma reached_app e e' : reached (e ++ e') = reached e ++ reached e'.
Proof. apply omap_app. Qed.

Definition within (lo hi : Z) (evs : list kevent) : Prop :=
  Forall (fun x => lo <= x.1 /\ x.1 + bytes x.2 <= hi) (stores evs).

(** Stores to the frames from [s] to the one of packet [w], once [w] has been seen to
    be less than a lap ahead of the device. *)
Lemma round_safe old evs s w :
  0 <= F -> chain base F s0 (submits old) s -> s <= w -> in_lap s (w + 1) ->
  Exists (fun v => w - AqlFrameNum + 1 <= v) (reached old) ->
  submits evs = [] -> within (frame_addr base F s) (frame_addr base F s + (w + 1 - s) * F) evs -> safe old evs.
Proof.
  intros HF. revert old. induction evs as [|x evs IH]; intros old Hc Hw Hlap Hr Hu Hin; [done|].
  unfold submits in Hu. unfold within, stores in Hin. cbn [omap list_omap] in Hu, Hin.
  destruct (as_submit x) eqn:Eu; [done|]. cbn [safe]. split.
  - destruct (as_store x) as [[a ws]|] eqn:Ex; [|done]. apply Forall_cons in Hin as [[Hlo Hhi] _]. cbn [fst snd] in *.
    split; cbn [fst snd].
    + unfold frame_addr, in_lap in *. pose proof (Z.mod_pos_bound s AqlFrameNum ltac:(done)).
      pose proof (Z.mul_le_mono_nonneg_r _ _ F HF Hlap). nia.
    + intros done [Hd Hseen]. apply Forall_forall. intros [[b len] f] Hs Hf. cbn [fst snd] in *.
      eapply pending_apart; try done. rewrite Exists_exists in Hr. destruct Hr as (v & Hv & Hv').
      rewrite Forall_forall in Hseen. specialize (Hseen v Hv). lia.
  - assert (submits (old ++ [x]) = submits old) as Es.
    { rewrite submits_app. unfold submits at 2. cbn. by rewrite Eu, app_nil_r. }
    apply IH; try done.
    + by rewrite Es.
    + rewrite reached_app. apply Exists_app. by left.
    + destruct (as_store x); [by apply Forall_cons in Hin as [_ Hin]|done].
Qed.
End safety.

(** ** One round *)

Section process.
Context {K : Type} `{Kernel K} (E : list DeviceInfo * Z).
Notation qspec := (qspec E).

Lemma emitted_within a n evs cs : emitted a n evs cs -> within a (a + n) evs.
Proof.
  intros (Hc & Hn & _ & _). unfold within, stored_words in *. revert a n Hc Hn.
  induction (stores evs) as [|[b ws] l IH]; intros a n; cbn; [by constructor|].
  intros [-> Hc] <-. rewrite bytes_app. pose proof (bytes_pos ws). pose proof (bytes_pos (concat (snd <$> l))).
  constructor; [cbn; lia|]. rewrite Z.add_assoc. eapply Forall_impl; [by apply (IH (a + bytes ws))|]. cbn. intros. lia.
Qed.

Lemma within_app lo hi e e' : within lo hi (e ++ e') <-> within lo hi e /\ within lo hi e'.
Proof. unfold within. by rewrite stores_app, Forall_app. Qed.

Lemma within_silent lo hi e : silent e -> within lo hi e.
Proof. intros [Hs _]. unfold within. rewrite Hs. constructor. Qed.

Lemma within_mono lo hi lo' hi' e : within lo hi e -> lo' <= lo -> hi <= hi' -> within lo' hi' e.
Proof. intros Hw ??. eapply Forall_impl; [exact Hw|]. cbn. intros. lia. Qed.

(** The queue with one more packet taken up, ready to be submitted or not: a packet
    that is not submitted at once is not the last of a lap. *)
Definition took (q q' : ComputeQueue) (evs : list kevent) : Prop :=
  exists n l q1, 0 <= n <= dispatch_limit /\ advanced n l q q1 /\
    offsets_within (ib_size (cq_cmdbuf q)) (ib_size (cq_cmdbuf q) + n) l /\
    submits evs = [] /\
    within (ib_start_addr (cq_cmdbuf q) + ib_size (cq_cmdbuf q)) (ib_start_addr (cq_cmdbuf q) + ib_size (cq_cmdbuf q) + n) evs /\
    (q' = set_cmdbuf (cb_set_ready true (cq_cmdbuf q1)) q1 \/
     q' = q1 /\ write_index (cq_cmdbuf q1) mod AqlFrameNum <> 0).

Definition switched (q : ComputeQueue) (o : option Z) (q' : ComputeQueue) (evs : list kevent) : Prop :=
  match o with
  | None => q' = q /\ silent evs
  | Some st => if decide (st = HSA_STATUS_SUCCESS) then took q q' evs else q' = q /\ silent evs
  end.

Lemma took_silent_l q q' e e' : silent e -> took q q' e' -> took q q' (e ++ e').
Proof.
  intros [Hs Hu] (n & l & q1 & Hn & Ha & Ho & Hu' & Hw & Hq). exists n, l, q1. repeat (split; [done|]).
  split; [by rewrite submits_app, Hu|]. split; [|done]. apply within_app. split; [|done]. by apply within_silent.
Qed.

Lemma switched_silent_l q o q' e e' : silent e -> switched q o q' e' -> switched q o q' (e ++ e').
Proof.
  intros Hs. unfold switched. destruct o; [case_decide; [by apply took_silent_l|]|]; intros [? ?]; auto with dxg.
Qed.

(** The end of a packet that is to be submitted. *)
Lemma ready_spec q q1 n l evs :
  0 <= n <= dispatch_limit -> advanced n l q q1 ->
  offsets_within (ib_size (cq_cmdbuf q)) (ib_size (cq_cmdbuf q) + n) l -> submits evs = [] ->
  within (ib_start_addr (cq_cmdbuf q) + ib_size (cq_cmdbuf q)) (ib_start_addr (cq_cmdbuf q) + ib_size (cq_cmdbuf q) + n) evs ->
  qspec (mod_cmdbuf (K := K) (cb_set_ready true) ;; mret (Some HSA_STATUS_SUCCESS)) q1
    (fun o q' e => switched q o q' (evs ++ e)).
Proof.
  intros. apply qspec_mod_bind, qspec_ret. unfold switched. rewrite decide_True, app_nil_r by done.
  exists n, l, q1. repeat (split; [done|]). by left.
Qed.

Lemma taken_ready cpu q q1 evs body :
  cpu = ib_start_addr (cq_cmdbuf q) -> taken cpu q q1 evs body ->
  qspec (mod_cmdbuf (K := K) (cb_set_ready true) ;; mret (Some HSA_STATUS_SUCCESS)) q1
    (fun o q' e => switched q o q' (evs ++ e)).
Proof.
  intros -> (n & cs & Hn & Ha & _ & He & _). eapply ready_spec; try done; [by constructor|by apply He|].
  by eapply emitted_within.
Qed.

Lemma Switch_spec fuel d q :
  has_room q -> E.1 !! q_device (cq_base q) = Some d -> E.2 = 0 -> qspec (SwitchAql2PM4 fuel) q (switched q).
Proof.
  intros Hr Hdev Hv. unfold SwitchAql2PM4.
  eapply qspec_nop_bind; [apply packet_addr_nop|]. intros packet e1 S1 _.
  eapply qspec_nop_bind; [apply packet_header_nop|]. intros header e2 S2 _. apply qspec_get_bind. cbv zeta.
  eapply qspec_mono; [|intros o q' e Hs; do 2 (apply switched_silent_l; [done|]); exact Hs]. cbv beta.
  destruct (header =? HSA_PACKET_TYPE_KERNEL_DISPATCH).
  { eapply qspec_bind; [by apply (KernelDispatch_spec E d)|]. intros st q3 e3 (words & ka & _ & Ho). cbv zeta in Ho.
    destruct (dispatch_check _ _ _) as [e|] eqn:Hcheck; [destruct Ho as (-> & -> & S3)|destruct Ho as (-> & Hd)].
    - pose proof (dispatch_check_error _ _ _ _ Hcheck) as Hne.
      rewrite (proj2 (Z.eqb_neq _ _) Hne). apply qspec_ret. rewrite app_nil_r. unfold switched. by rewrite decide_False.
    - destruct Hd as (kw & srd & n & l & cs & _ & _ & Hn & Ha & Ho & _ & He & _).
      pose proof (emitted_within _ _ _ _ He) as Hw. destruct He as (_ & _ & Hu & _).
      eapply qspec_nop_bind; [apply load_words_nop|]. intros words' e4 S4 _. do 2 apply qspec_get_bind.
      destruct (negb _ || (_ =? 0)) eqn:Eready.
      + eapply qspec_mono; [by eapply (ready_spec q q3 n l (e3 ++ e4)); try done; rewrite ?submits_app, ?Hu;
          [apply S4|apply within_app; split; [|apply within_silent]]|]. intros o q' e He. cbv beta in He. by rewrite <- app_assoc in He.
      + apply orb_false_iff in Eready as [_ Hmod%Z.eqb_neq].
        eapply qspec_nop_bind; [apply load64_nop|]. intros sync e5 S5 _.
        assert (submits (e3 ++ e4 ++ e5) = []) as Hu'.
        { rewrite !submits_app, Hu. destruct S4 as [_ ->], S5 as [_ ->]. done. }
        assert (within (ib_start_addr (cq_cmdbuf q) + ib_size (cq_cmdbuf q))
          (ib_start_addr (cq_cmdbuf q) + ib_size (cq_cmdbuf q) + n) (e3 ++ e4 ++ e5)) as Hw'.
        { rewrite !within_app. split_and!; [done|by apply within_silent..]. }
        destruct (sync =? _).
        * eapply qspec_mono; [by eapply (ready_spec q q3 n l (e3 ++ e4 ++ e5))|].
          intros o q' e He. cbv beta in He. by rewrite <- !app_assoc in He.
        * apply qspec_ret. rewrite app_nil_r. unfold switched. rewrite decide_True by done.
          exists n, l, q3. repeat (split; [done|]). by right. }
  assert (forall is_or, qspec (o ← BarrierGenericAqlToPm4 fuel (ib_start_addr (cq_cmdbuf q)) packet is_or;
    match o with None => mret None | Some _ => mod_cmdbuf (cb_set_ready true) ;; mret (Some HSA_STATUS_SUCCESS) end)
    q (switched q)) as Hbarrier.
  { intros is_or. eapply qspec_bind; [by apply BarrierGeneric_spec|].
    intros o q3 e3 [(-> & -> & S3)|(words & -> & _ & _ & Ht)]; [apply qspec_ret; by rewrite app_nil_r|].
    by eapply taken_ready. }
  destruct (header =? HSA_PACKET_TYPE_BARRIER_AND); [apply Hbarrier|].
  destruct (header =? HSA_PACKET_TYPE_BARRIER_OR); [apply Hbarrier|].
  destruct (header =? HSA_PACKET_TYPE_VENDOR_SPECIFIC).
  { eapply qspec_bind; [by apply VendorSpecific_skip|]. intros st q3 e3 [-> Ht]. by eapply taken_ready. }
  destruct (header =? HSA_PACKET_TYPE_INVALID); [by apply qspec_assert_bind|].
  apply qspec_ret. by unfold switched.
Qed.

(** ** Submitting *)

(** The stores of [evs] are within [lo, hi) and it submits nothing. *)
Definition fills (lo hi : Z) (evs : list kevent) : Prop := submits evs = [] /\ within lo hi evs.

Lemma fills_silent lo hi e : silent e -> fills lo hi e.
Proof. intros Hs. split; [apply Hs|by apply within_silent]. Qed.
Lemma fills_app lo hi e e' : fills lo hi e -> fills lo hi e' -> fills lo hi (e ++ e').
Proof. intros [] []. split; [rewrite submits_app; by apply app_nil|by apply within_app]. Qed.

Lemma store_fills a ws q lo hi :
  lo <= a -> a + bytes ws <= hi -> qspec (qcall (store_dwords a ws)) q (fun _ q' e => q' = q /\ fills lo hi e).
Proof.
  intros. eapply qspec_mono; [apply qspec_call|]. intros r q' e [-> ->]. split; [done|]. split; [done|].
  by apply Forall_singleton.
Qed.

Lemma relocate_loop_spec major base addr size l q :
  offsets_within 0 size l ->
  qspec (relocate_loop major base addr l) q (fun _ q' e => q' = q /\ fills addr (addr + size) e).
Proof.
  induction l as [|o l IH]; intros Ho; cbn [relocate_loop].
  { apply qspec_ret. split; [done|]. by apply fills_silent. }
  apply Forall_cons in Ho as [[Hlo Hhi] Ho].
  eapply (qspec_bind _ _ _ _ (fun _ q' e => q' = q /\ fills addr (addr + size) e)).
  - destruct (11 <=? major).
    + apply qspec_opt_bind. intros lo _. apply store_fills; unfold bytes; cbn [length]; lia.
    + eapply qspec_bind; [apply (store_fills _ _ _ addr (addr + size)); unfold bytes; cbn [length]; lia|].
      intros _ q1 e1 [-> F1].
      eapply qspec_nop_bind; [apply load32_nop|]. intros hi e2 S2 _.
      eapply qspec_mono; [apply (store_fills _ _ _ addr (addr + size)); unfold bytes; cbn [length]; lia|].
      intros _ q3 e3 [-> F3]. split; [done|]. by apply fills_app, fills_app; [|apply fills_silent|].
  - intros _ q1 e1 [-> F1]. eapply qspec_mono; [by apply IH|]. intros _ q2 e2 [-> F2]. split; [done|]. by apply fills_app.
Qed.

(** The queue after a submission. *)
Definition submitted (q : ComputeQueue) : ComputeQueue :=
  let cb := cq_cmdbuf q in
  set_cmdbuf (cb_set_ib (q_cmdbuf_addr (cq_base q) +64 (write_index cb mod AqlFrameNum) *64
      qc_cmdbuf_aql_frame_size (cq_config q)) 0 (write_index cb) (cb_set_offsets [] cb)) q.

Lemma PreSubmit_spec q :
  let cb := cq_cmdbuf q in
  offsets_within 0 (ib_size cb) (scratch_base_offsets cb) ->
  qspec PreSubmit q (fun st q' e => fills (ib_start_addr cb) (ib_start_addr cb + ib_size cb) e /\
    (st = HSA_STATUS_SUCCESS -> q' = set_cmdbuf (cb_set_offsets [] cb) q)).
Proof.
  intros cb Ho. apply qspec_get_bind. eapply qspec_nop_bind; [apply qspec_lift; auto with calm|].
  intros [] e1 S1 _; [|apply qspec_ret; split; [apply fills_silent; auto with dxg|done]].
  apply qspec_get_bind. fold cb.
  eapply (qspec_bind _ _ _ _ (fun _ q' e => q' = set_cmdbuf (cb_set_offsets [] cb) q /\
    fills (ib_start_addr cb) (ib_start_addr cb + ib_size cb) e)).
  - do 2 apply qspec_get_bind. eapply qspec_nop_bind; [apply Major_nop|]. intros major e2 S2 _.
    eapply qspec_bind; [by apply relocate_loop_spec|]. intros _ q3 e3 [-> F3].
    intros w x q' w' He [= <- <- <-]. split; [done|]. exists []. rewrite !app_nil_r. split; [done|]. split; [done|].
    apply fills_app; [by apply fills_silent|done].
  - intros _ q2 e2 [-> F2]. apply qspec_ret. rewrite app_nil_r. split; [|done].
    by apply fills_app; [apply fills_silent|].
Qed.

Lemma HwsSubmit_spec b addr size fence q :
  qspec (lift (HwsSubmit b addr size fence)) q (fun _ q' e => q' = q /\ stores e = [] /\ submits e = [(addr, size, fence)]).
Proof.
  unfold HwsSubmit, SubmitToHwQueue, dx_. intros w x q' w' He. unfold lift, mbind, M_bind, kcall_.
  destruct (kernel_step _ _ _) as [r k]. intros [= <- <- <-]. split; [done|]. eexists. by split.
Qed.

Lemma Submit_spec q :
  let cb := cq_cmdbuf q in
  q_use_hws (cq_base q) = true -> offsets_within 0 (ib_size cb) (scratch_base_offsets cb) ->
  qspec Submit q (fun st q' evs => exists e1 e2, evs = e1 ++ e2 /\
    fills (ib_start_addr cb) (ib_start_addr cb + ib_size cb) e1 /\ stores e2 = [] /\
    (submits e2 = [] \/ submits e2 = [(ib_start_addr cb, ib_size cb, write_index cb)]) /\
    (st = HSA_STATUS_SUCCESS ->
       q' = submitted q /\ submits e2 = [(ib_start_addr cb, ib_size cb, write_index cb)])).
Proof.
  intros cb Hhws Ho. eapply qspec_bind; [by apply PreSubmit_spec|]. intros st q1 e1 [F1 Hq1]. fold cb in F1, Hq1.
  destruct (Z.eqb_spec st 0) as [->|Hst]; cbn [negb].
  2: { apply qspec_ret. exists e1, []. rewrite app_nil_r. do 3 (split; [done|]). split; [by left|done]. }
  rewrite (Hq1 eq_refl). clear Hq1 q1. do 2 apply qspec_get_bind. cbn [cq_cmdbuf set_cmdbuf cq_base cb_set_offsets ib_start_addr ib_size write_index].
  unfold queue_submit. rewrite Hhws. eapply qspec_bind; [apply HwsSubmit_spec|]. intros st q2 e2 (-> & S2 & U2).
  destruct (Z.eqb_spec st 0) as [->|Hst]; cbn [negb].
  2: { apply qspec_ret. exists e1, e2. rewrite app_nil_r. do 3 (split; [done|]). split; [by right|done]. }
  intros w x q' w' He [= <- <- <-]. split; [done|]. exists []. rewrite !app_nil_r. split; [done|]. exists e1, e2.
  do 3 (split; [done|]). split; [by right|done].
Qed.

(** ** The invariant *)

(** The constants of the queue and its buffer, with packet [s0] the first. *)
Context (b : WDDMQueue) (c : QueueConfig) (s0 : Z).

Notation F := (qc_cmdbuf_aql_frame_size c).
Notation base := (q_cmdbuf_addr b).

(** Hardware queues, and a buffer that ends below 2^64. *)
Record buffer_ok : Prop := {
  bo_config : config_ok c;
  bo_hws : q_use_hws b = true;
  bo_base : 0 <= base /\ base + AqlFrameNum * F < 2 ^ 64;
  bo_first : 0 <= s0;
}.

(** The device is there, and vendor packets are skipped. *)
Definition environment_ok : Prop := is_Some (E.1 !! q_device b) /\ E.2 = 0.

(** Between two rounds, after the log [old]. *)
Record running (old : list kevent) (q : ComputeQueue) : Prop := {
  run_base : cq_base q = b;
  run_config : cq_config q = c;
  run_order : s0 <= sync_point (cq_cmdbuf q) <= write_index (cq_cmdbuf q);
  run_lap : in_lap (sync_point (cq_cmdbuf q)) (write_index (cq_cmdbuf q) + 1);
  run_start : ib_start_addr (cq_cmdbuf q) = frame_addr base F (sync_point (cq_cmdbuf q));
  run_size : 0 <= ib_size (cq_cmdbuf q) <= (write_index (cq_cmdbuf q) - sync_point (cq_cmdbuf q)) * F;
  run_offsets : offsets_within 0 (ib_size (cq_cmdbuf q)) (scratch_base_offsets (cq_cmdbuf q));
  run_ready : ready_to_submit (cq_cmdbuf q) = false;
  run_chain : chain base F s0 (submits old) (sync_point (cq_cmdbuf q));
}.

Notation reached := (reached (q_sync_addr b) (q_syncobj b)).

Lemma load64_reached q : qspec (load64 (q_sync_addr b)) q (fun v q' e => q' = q /\ silent e /\ 0 <= v < 2 ^ 64 /\ reached e = [v]).
Proof.
  eapply qspec_bind; [apply qspec_call|]. intros r q1 e1 [-> ->]. apply qspec_ret. rewrite app_nil_r.
  split_and!; try done; try (apply wrap_range; lia). unfold QueueProcess.reached. cbn. by rewrite Z.eqb_refl.
Qed.

Lemma CpuWait_reached v q :
  cq_base q = b -> qspec (CpuWait_queue v) q (fun ok q' e => q' = q /\ silent e /\ (ok = true -> reached e = [v])).
Proof.
  intros Hb w x q' w' He. unfold CpuWait_queue, qget, CpuWait, dx_, get_dev, lift, mbind, QM_bind, M_bind, kcall_.
  rewrite Hb. destruct (w_devs w !! q_device b) as [d|]; [|done]. destruct (kernel_step _ _ _) as [r k].
  intros [= <- <- <-]. split; [done|]. eexists. split; [done|]. split_and!; [done|done|].
  intros Hok. unfold QueueProcess.reached. cbn. by rewrite Z.eqb_refl, Hok.
Qed.

(** The wait at the start of a round. *)
Definition round_wait (w sync : Z) : QM K bool :=
  if sync +64 AqlFrameNum <=? w then CpuWait_queue (w -64 AqlFrameNum +64 1) else mret true.

Lemma round_wait_spec w sync q old :
  cq_base q = b -> 0 <= w < 2 ^ 63 -> 0 <= sync < 2 ^ 64 -> reached old = [sync] ->
  qspec (round_wait w sync) q (fun ok q' e => q' = q /\ silent e /\
    (ok = true -> Exists (fun v => w - AqlFrameNum + 1 <= v) (reached (old ++ e)))).
Proof.
  intros Hb Hw Hs Hr. unfold round_wait, add64, sub64. destruct (Z.leb_spec (u64 (sync + AqlFrameNum)) w) as [Hle|Hlt].
  - eapply qspec_mono; [by apply CpuWait_reached|]. intros ok q' e (-> & S & Hok). split_and!; [done|done|].
    intros Ht. rewrite reached_app, (Hok Ht), Hr. right. left. unfold AqlFrameNum, wrap in *.
    Z.div_mod_to_equations. lia.
  - apply qspec_ret. split_and!; [done|done|]. intros _. rewrite app_nil_r, Hr. left. unfold AqlFrameNum, wrap in *.
    Z.div_mod_to_equations. lia.
Qed.

Notation safe := (safe (q_sync_addr b) (q_syncobj b) base F s0).
Notation chain := (chain base F s0).

(** What a round does to the log: safe stores, and at most one submission, which takes
    up where the last left off. *)
Definition sound (old evs : list kevent) (w : Z) : Prop :=
  safe old evs /\ exists s, s <= w /\ chain (submits (old ++ evs)) s.

Definition round_post (old : list kevent) (q : ComputeQueue) (r : progress) (q' : ComputeQueue) (evs : list kevent) : Prop :=
  sound old evs (write_index (cq_cmdbuf q) + 1) /\
  match r with
  | Continue => running (old ++ evs) q' /\ write_index (cq_cmdbuf q') = write_index (cq_cmdbuf q) + 1
  | Return st => st <> HSA_STATUS_SUCCESS
  | Waiting => running (old ++ evs) q'
  end.

Lemma running_silent old q e : silent e -> running old q -> running (old ++ e) q.
Proof. intros [_ Hu] []. split; try done. by rewrite submits_app, Hu, app_nil_r. Qed.

Lemma silent_sound old q e : silent e -> running old q -> sound old e (write_index (cq_cmdbuf q) + 1).
Proof.
  intros [Hs Hu] Hr. split; [by apply no_stores_safe|]. exists (sync_point (cq_cmdbuf q)).
  split; [pose proof (run_order _ _ Hr); lia|]. rewrite submits_app, Hu, app_nil_r. apply Hr.
Qed.

Lemma running_room old q : buffer_ok -> running old q -> write_index (cq_cmdbuf q) < 2 ^ 63 -> has_room q.
Proof.
  intros [Hc _ [Hb Hb'] H0] Hr Hw. pose proof (run_order _ _ Hr) as Ho. pose proof (run_size _ _ Hr) as Hs.
  pose proof (run_lap _ _ Hr) as Hl. unfold in_lap in Hl. rewrite <- (run_config _ _ Hr) in *.
  destruct Hc as [[Hf1 Hf2] Hrp]. unfold dispatch_limit, AqlFrameNum in *.
  pose proof (Z.mod_pos_bound (sync_point (cq_cmdbuf q)) 0x1000 ltac:(done)).
  split; [by split|split; [lia|nia]|lia].
Qed.

(** The state once a packet has been taken up, before it is known whether to submit. *)
Record filling (old : list kevent) (s w : Z) (q : ComputeQueue) : Prop := {
  fil_base : cq_base q = b;
  fil_config : cq_config q = c;
  fil_sync : sync_point (cq_cmdbuf q) = s;
  fil_index : write_index (cq_cmdbuf q) = w;
  fil_order : s0 <= s < w;
  fil_lap : in_lap s w;
  fil_start : ib_start_addr (cq_cmdbuf q) = frame_addr base F s;
  fil_size : 0 <= ib_size (cq_cmdbuf q) <= (w - s) * F;
  fil_offsets : offsets_within 0 (ib_size (cq_cmdbuf q)) (scratch_base_offsets (cq_cmdbuf q));
  fil_chain : chain (submits old) s;
}.

Lemma advanced_filling old q q' n l :
  buffer_ok -> running old q -> 0 <= n <= dispatch_limit -> advanced n l q q' ->
  offsets_within (ib_size (cq_cmdbuf q)) (ib_size (cq_cmdbuf q) + n) l ->
  filling old (sync_point (cq_cmdbuf q)) (write_index (cq_cmdbuf q) + 1) q'.
Proof.
  intros Hbo [R1 R2 R3 R4 R5 R6 R7 R8 R9] Hn [A1 A2 A3 A4 A5 A6 A7 A8] Ho.
  destruct (bo_config Hbo) as [[Hf1 Hf2] _]. split; try congruence; try lia; try done.
  rewrite A4, A8. apply Forall_app. split; (eapply Forall_impl; [eassumption|]); cbn; lia.
Qed.

(** A packet that does not end a lap can wait. *)
Lemma filling_running old s w q :
  filling old s w q -> ready_to_submit (cq_cmdbuf q) = false -> w mod AqlFrameNum <> 0 -> running old q.
Proof.
  intros [F1 F2 F3 F4 F5 F6 F7 F8 F9 F10] Hr Hm. split; rewrite ?F3, ?F4; try done; [lia|].
  unfold in_lap in *. destruct (decide (s mod AqlFrameNum + (w - s) = AqlFrameNum)) as [Heq|]; [|lia].
  destruct Hm. pose proof (Z.div_mod s AqlFrameNum ltac:(done)) as Hd.
  replace w with ((s / AqlFrameNum + 1) * AqlFrameNum) by lia. by apply Z_mod_mult.
Qed.

Lemma frame_addr_next w :
  buffer_ok -> 0 <= w -> base +64 (w mod AqlFrameNum) *64 F = frame_addr base F w.
Proof.
  intros [[[Hf1 Hf2] _] _ [Hb Hb'] _] Hw. pose proof (Z.mod_pos_bound w AqlFrameNum ltac:(done)).
  unfold frame_addr, dispatch_limit, AqlFrameNum in *.
  rewrite mul64_small by nia. apply add64_small. nia.
Qed.

Definition unready (q : ComputeQueue) : ComputeQueue := set_cmdbuf (cb_set_ready false (cq_cmdbuf q)) q.
Definition unsignalled (q : ComputeQueue) : ComputeQueue := set_cmdbuf (cb_set_signal 0 (cq_cmdbuf q)) q.

Lemma submitted_running old s w q e :
  buffer_ok -> filling old s w q -> submits e = [(ib_start_addr (cq_cmdbuf q), ib_size (cq_cmdbuf q), w)] ->
  running (old ++ e) (unready (submitted q)).
Proof.
  intros Hbo [F1 F2 F3 F4 F5 F6 F7 F8 F9 F10] Hu. pose proof (bo_first Hbo). destruct (bo_config Hbo) as [[Hf1 Hf2] _].
  split; cbn; rewrite ?F1, ?F2, ?F4; try done; try lia.
  - unfold in_lap. pose proof (Z.mod_pos_bound w AqlFrameNum ltac:(done)). lia.
  - apply frame_addr_next; [done|lia].
  - constructor.
  - rewrite submits_app, Hu, F7. eapply chain_snoc; try done; lia.
Qed.

Lemma submit_step old s w q :
  buffer_ok -> filling old s w q ->
  qspec Submit q (fun st q' e => exists e1 e2, e = e1 ++ e2 /\
    fills (frame_addr base F s) (frame_addr base F s + (w - s) * F) e1 /\ stores e2 = [] /\
    (exists s', s' <= w /\ chain (submits (old ++ e)) s') /\
    (st = HSA_STATUS_SUCCESS -> q' = submitted q /\ running (old ++ e) (unready (submitted q)))).
Proof.
  intros Hbo Hf. pose proof Hf as [F1 F2 F3 F4 F5 F6 F7 F8 F9 F10].
  eapply qspec_mono; [apply Submit_spec; [rewrite F1; apply Hbo|done]|].
  intros st q' e (e1 & e2 & -> & [U1 W1] & S2 & U2 & Hok). exists e1, e2.
  assert (submits (e1 ++ e2) = submits e2) as Hu by (by rewrite submits_app, U1).
  split; [done|]. split; [split; [done|eapply within_mono; [exact W1| |]; lia]|]. split; [done|]. rewrite F4 in *. split.
  - rewrite submits_app, Hu. destruct U2 as [-> | ->].
    + rewrite app_nil_r. exists s. split; [lia|done].
    + exists w. split; [lia|]. rewrite F7. eapply chain_snoc; try done; lia.
  - intros Hst. destruct (Hok Hst) as [-> He2]. split; [done|].
    apply (submitted_running old s w); try done. by rewrite Hu.
Qed.

(** After a submission: the host decrements the signal when the device cannot. *)
Definition after_submit : QM K progress :=
  c ← qget cq_config;
  cb ← qget cq_cmdbuf;
  ok ← (if negb (qc_platform_atomic_support c) && negb (signal_addr_ cb =? 0) then
          ok ← CpuWait_queue (write_index cb);
          (if (ok : bool) then qcall (atomic_decrement (signal_addr_ cb)) ;; mod_cmdbuf (cb_set_signal 0) else mret tt) ;;
          mret ok
        else mret true);
  if negb ok then mret (Return HSA_STATUS_ERROR)
  else mod_cmdbuf (cb_set_ready false) ;; mret Continue.

Lemma CpuWait_queue_nop v q : qspec (CpuWait_queue v) q (nop (fun _ => True) q).
Proof. apply qspec_get_bind, qspec_lift. auto with calm. Qed.

Lemma after_submit_spec q :
  qspec after_submit q (fun r q' e => silent e /\
    match r with
    | Continue => q' = unready q \/ q' = unready (unsignalled q)
    | Return st => st <> HSA_STATUS_SUCCESS
    | Waiting => False
    end).
Proof.
  do 2 apply qspec_get_bind.
  eapply (qspec_bind _ _ _ _ (fun ok q' e => silent e /\ (ok = true -> q' = q \/ q' = unsignalled q))).
  - destruct (_ && _); [|apply qspec_ret; auto with dxg].
    eapply qspec_nop_bind; [apply CpuWait_queue_nop|]. intros ok e1 S1 _.
    eapply (qspec_bind _ _ _ _ (fun _ q' e => silent e /\ (ok = true -> q' = unsignalled q))).
    + destruct ok; [|by apply qspec_ret]. eapply qspec_nop_bind; [by apply qspec_silent_call|]. intros _ e2 S2 _.
      intros w x q' w' He [= <- <- <-]. split; [done|]. exists []. rewrite !app_nil_r. split; [done|]. by split.
    + intros _ q2 e2 [S2 Hq2]. apply qspec_ret. rewrite app_nil_r. split; [auto with dxg|]. intros Hok. right. auto.
  - intros ok q1 e1 [S1 Hq1]. destruct ok; cbn [negb].
    + apply qspec_mod_bind, qspec_ret. rewrite app_nil_r. split; [done|]. destruct (Hq1 eq_refl) as [-> | ->]; auto.
    + apply qspec_ret. rewrite app_nil_r. by split.
Qed.

Lemma running_unsignalled old q : running old (unready q) -> running old (unready (unsignalled q)).
Proof. by intros []. Qed.

(** Once the wait is over, what fills the frames up to packet [w]'s is safe, and what
    follows it stores nothing. *)
Lemma fills_safe old pre e1 e2 s w :
  buffer_ok -> chain (submits old) s -> s <= w -> in_lap s (w + 1) -> silent pre ->
  Exists (fun v => w - AqlFrameNum + 1 <= v) (reached pre) ->
  fills (frame_addr base F s) (frame_addr base F s + (w + 1 - s) * F) e1 -> stores e2 = [] ->
  safe old (pre ++ e1 ++ e2).
Proof.
  intros Hbo Hc Hw Hlap [Sp Up] Hr [U1 W1] S2. destruct (bo_config Hbo) as [[Hf1 Hf2] _]. unfold dispatch_limit in *.
  apply safe_app; [by apply no_stores_safe|]. apply safe_app; [|by apply no_stores_safe].
  refine (round_safe _ _ _ _ _ _ _ s w _ _ Hw Hlap _ U1 W1); [lia| |].
  - by rewrite submits_app, Up, app_nil_r.
  - rewrite reached_app. apply Exists_app. by right.
Qed.

Lemma took_filling old q q' e :
  buffer_ok -> running old q -> took q q' e ->
  let s := sync_point (cq_cmdbuf q) in let w := write_index (cq_cmdbuf q) + 1 in
  filling old s w q' /\ fills (frame_addr base F s) (frame_addr base F s + (w - s) * F) e /\
  (ready_to_submit (cq_cmdbuf q') = false -> running old q' /\ write_index (cq_cmdbuf q') = w).
Proof.
  intros Hbo Hr (n & l & q1 & Hn & Ha & Ho & Hu & Hw & Hq) s w. pose proof (advanced_filling _ _ _ _ _ Hbo Hr Hn Ha Ho) as Hf.
  destruct (bo_config Hbo) as [[Hf1 Hf2] _]. fold s w in Hf.
  assert (filling old s w q') as Hf' by (destruct Hq as [-> | [-> _]]; [|done]; by destruct Hf).
  split; [done|]. split.
  - split; [done|]. rewrite (run_start _ _ Hr) in Hw. fold s in Hw.
    pose proof (run_size _ _ Hr) as [Hs1 Hs2]. fold s in Hs1, Hs2. eapply within_mono; [exact Hw|lia|].
    subst w. unfold dispatch_limit in *. nia.
  - destruct Hq as [-> | [-> Hm]]; [done|]. intros Hready. split; [|by apply (fil_index _ _ _ _ Hf)].
    apply (filling_running _ s w); [done|done|]. by rewrite <- (fil_index _ _ _ _ Hf).
Qed.

Lemma Process_body_spec fuel old q :
  buffer_ok -> environment_ok -> running old q -> write_index (cq_cmdbuf q) < 2 ^ 63 ->
  qspec (Process_body fuel) q (round_post old q).
Proof.
  intros Hbo [[d Hd] Hv] Hr Hw. pose proof (running_room _ _ Hbo Hr Hw) as Hroom. pose proof (run_order _ _ Hr) as Hord.
  pose proof (bo_first Hbo) as Hs0. unfold Process_body. do 2 apply qspec_get_bind. rewrite (run_base _ _ Hr).
  eapply qspec_bind; [apply load64_reached|]. intros sync q1 e1 (-> & S1 & Hsync & R1).
  eapply qspec_bind; [apply (round_wait_spec (write_index (cq_cmdbuf q)) sync q e1); [apply Hr|lia|done|done]|].
  intros ok q2 e2 (-> & S2 & R2). destruct ok; cbn [negb].
  2: { apply qspec_ret. rewrite app_nil_r. split; [|done]. apply silent_sound; auto with dxg. }
  specialize (R2 eq_refl). set (pre := e1 ++ e2) in *. assert (silent pre) as Sp by (subst pre; auto with dxg).
  set (s := sync_point (cq_cmdbuf q)) in *. set (w := write_index (cq_cmdbuf q)) in *.
  eapply qspec_bind; [apply (Switch_spec fuel d); rewrite ?(run_base _ _ Hr); done|]. intros o q3 e3 Hsw.
  destruct o as [st|]; [|destruct Hsw as [-> S3]; apply qspec_ret; rewrite app_nil_r; split;
    [apply silent_sound; auto with dxg|apply running_silent; auto with dxg]].
  unfold switched in Hsw. case_decide as Hst.
  2: { destruct Hsw as [-> S3]. rewrite (proj2 (Z.eqb_neq _ _) Hst). apply qspec_ret. rewrite app_nil_r.
       split; [apply silent_sound; auto with dxg|done]. }
  subst st. cbn [negb Z.eqb HSA_STATUS_SUCCESS]. apply qspec_get_bind.
  destruct (took_filling _ _ _ _ Hbo Hr Hsw) as (Hf & F3 & Hwait). fold s w in Hf, F3, Hwait.
  pose proof (run_lap _ _ Hr) as Hlap. pose proof (run_chain _ _ Hr) as Hc. fold s w in Hlap, Hc, Hord.
  replace (w + 1 - s) with (w + 1 - s) in F3 by done.
  assert (submits (old ++ pre ++ e3) = submits old) as Hu3.
  { destruct F3 as [U3 _], Sp as [_ Up]. by rewrite !submits_app, Up, U3, !app_nil_r. }
  assert (forall e, stores e = [] -> safe old (e1 ++ e2 ++ e3 ++ e)) as Hsafe3.
  { intros e Se. rewrite (app_assoc e1). fold pre. eapply (fills_safe old pre e3 e s w); try done. lia. }
  destruct (ready_to_submit (cq_cmdbuf q3)) eqn:Eready; cbn [negb].
  2: { destruct (Hwait eq_refl) as [Hrun Hix]. apply qspec_ret. rewrite app_nil_r. split; [split|split; [|done]].
       - rewrite <- (app_nil_r e3). by apply Hsafe3.
       - exists s. split; [fold w; lia|]. rewrite (app_assoc e1). fold pre. by rewrite Hu3.
       - rewrite (app_assoc e1). fold pre. destruct Hrun. by split; rewrite ?Hu3. }
  assert (filling (old ++ pre ++ e3) s (w + 1) q3) as Hf3 by (destruct Hf; by split; rewrite ?Hu3).
  eapply qspec_bind; [by apply (submit_step (old ++ pre ++ e3) s (w + 1))|].
  intros st q4 e4 (f4 & g4 & -> & F4 & S4 & Hc4 & Hok).
  assert (forall e, stores e = [] -> safe old (e1 ++ e2 ++ e3 ++ (f4 ++ g4) ++ e)) as Hsafe4.
  { intros e Se. rewrite (app_assoc e1). fold pre. rewrite <- (app_assoc f4), (app_assoc e3).
    eapply (fills_safe old pre (e3 ++ f4) (g4 ++ e) s w); try done; [lia|by apply fills_app|].
    rewrite stores_app. by apply app_nil. }
  assert (old ++ e1 ++ e2 ++ e3 ++ (f4 ++ g4) = (old ++ pre ++ e3) ++ f4 ++ g4) as Hlog by (subst pre; by rewrite <- !app_assoc).
  destruct (Z.eqb_spec st HSA_STATUS_SUCCESS) as [->|Hst]; cbn [negb].
  2: { apply qspec_ret. rewrite app_nil_r. split; [split|done].
       - specialize (Hsafe4 []). rewrite app_nil_r in Hsafe4. by apply Hsafe4.
       - fold w. by rewrite Hlog. }
  destruct (Hok eq_refl) as [-> Hrun]. eapply qspec_mono; [apply after_submit_spec|].
  intros r q5 e5 [S5 Hq5].
  assert (old ++ e1 ++ e2 ++ e3 ++ (f4 ++ g4) ++ e5 = ((old ++ pre ++ e3) ++ f4 ++ g4) ++ e5) as Hlog5
    by (subst pre; by rewrite <- !app_assoc).
  split; [split; [apply Hsafe4, S5|]|].
  - fold w. rewrite Hlog5, submits_app. destruct S5 as [_ ->]. by rewrite app_nil_r.
  - destruct r as [|st|]; [|done|done]. rewrite Hlog5.
    assert (write_index (cq_cmdbuf q3) = w + 1) as Hix by apply Hf.
    destruct Hq5 as [-> | ->]; (split; [apply running_silent; [done|]|exact Hix]); [done|by apply running_unsignalled].
Qed.

(** ** Any number of rounds *)

Lemma Process_more_nop q : qspec Process_more q (nop (fun _ => True) q).
Proof.
  do 2 apply qspec_get_bind. eapply qspec_nop_seq; [apply load64_nop|]. intros w _. destruct (_ <? _); [|by apply qspec_nop_ret].
  eapply qspec_nop_seq; [apply IsInvalidPacket_nop|]. intros. by apply qspec_nop_ret.
Qed.

Lemma sound_silent_l old e e' w :
  silent e -> sound (old ++ e) e' w -> sound old (e ++ e') w.
Proof.
  intros [Hs _] [Hsafe Hc]. split; [|by rewrite app_assoc]. apply safe_app; [by apply no_stores_safe|done].
Qed.

Lemma Process_spec fuel n old q :
  buffer_ok -> environment_ok -> running old q -> write_index (cq_cmdbuf q) + Z.of_nat n <= 2 ^ 63 ->
  qspec (Process fuel n) q (fun r q' e =>
    sound old e (write_index (cq_cmdbuf q) + Z.of_nat n) /\
    match r with
    | Continue => running (old ++ e) q' /\ write_index (cq_cmdbuf q') = write_index (cq_cmdbuf q) + Z.of_nat n
    | Return st => st = HSA_STATUS_SUCCESS ->
        running (old ++ e) q' /\ write_index (cq_cmdbuf q') <= write_index (cq_cmdbuf q) + Z.of_nat n
    | Waiting => running (old ++ e) q'
    end).
Proof.
  intros Hbo Hv. revert old q. induction n as [|n IH]; intros old q Hr Hw; cbn [Process].
  - apply qspec_ret. rewrite app_nil_r, Z.add_0_r. split; [|done].
    split; [done|]. exists (sync_point (cq_cmdbuf q)). rewrite app_nil_r. split; [pose proof (run_order _ _ Hr); lia|apply Hr].
  - eapply qspec_nop_bind; [apply Process_more_nop|]. intros more e1 S1 _. destruct more.
    2: { apply qspec_ret. rewrite app_nil_r. split; [|intros _; split; [by apply running_silent|lia]].
         destruct (silent_sound _ _ _ S1 Hr) as [? (s & ? & ?)]. split; [done|]. exists s. split; [lia|done]. }
    eapply qspec_bind; [apply Process_body_spec with (old := old ++ e1); try done; [by apply running_silent|lia]|].
    intros r q2 e2 [Hs2 Hr2]. destruct r as [|st|].
    + destruct Hr2 as [Hrun Hix]. eapply qspec_mono; [apply (IH ((old ++ e1) ++ e2)); [done|lia]|].
      intros r q3 e3 [[Hs3 Hc3] Hr3]. split; [|rewrite !app_assoc; replace (write_index (cq_cmdbuf q) + Z.of_nat (S n)) with
        (write_index (cq_cmdbuf q2) + Z.of_nat n) by lia; exact Hr3].
      apply sound_silent_l; [done|]. split; [by apply safe_app; [apply Hs2|]|]. rewrite app_assoc.
      destruct Hc3 as (s & ? & ?). exists s. split; [lia|done].
    + apply qspec_ret. rewrite app_nil_r. split; [|done]. apply sound_silent_l; [done|].
      destruct Hs2 as [? (s & ? & ?)]. split; [done|]. exists s. split; [lia|done].
    + apply qspec_ret. rewrite app_nil_r. split; [|by rewrite app_assoc]. apply sound_silent_l; [done|].
      destruct Hs2 as [? (s & ? & ?)]. split; [done|]. exists s. split; [lia|done].
Qed.

(** ** The worker thread *)

(** What the thread has done to the log: safe stores, and submissions in turn. *)
Definition thread_sound (old evs : list kevent) : Prop := safe old evs /\ exists s, chain (submits (old ++ evs)) s.

Lemma thread_sound_nil old q : running old q -> thread_sound old [].
Proof. intros Hr. split; [done|]. exists (sync_point (cq_cmdbuf q)). rewrite app_nil_r. apply Hr. Qed.

Lemma thread_sound_app old e e' : safe old e -> thread_sound (old ++ e) e' -> thread_sound old (e ++ e').
Proof. intros Hs [Hs' Hc]. split; [by apply safe_app|by rewrite app_assoc]. Qed.

Lemma thread_sound_silent old e e' : thread_sound old e -> silent e' -> thread_sound old (e ++ e').
Proof.
  intros [Hs (s & Hc)] [S U]. split; [apply safe_app; [done|by apply no_stores_safe]|].
  exists s. by rewrite app_assoc, submits_app, U, app_nil_r.
Qed.

Definition step_post (old : list kevent) (bound : Z) (r : thread_step) (q' : ComputeQueue) (evs : list kevent) : Prop :=
  thread_sound old evs /\
  match r with Again _ => running (old ++ evs) q' /\ write_index (cq_cmdbuf q') <= bound | _ => True end.

Lemma thread_process_spec fuel n s old q :
  buffer_ok -> environment_ok -> running old q -> write_index (cq_cmdbuf q) + Z.of_nat n <= 2 ^ 63 ->
  qspec (thread_process fuel n s) q (step_post old (write_index (cq_cmdbuf q) + Z.of_nat n)).
Proof.
  intros Hbo Hv Hr Hw. eapply qspec_nop_bind; [apply IsInvalidPacket_nop|]. intros invalid e1 S1 _.
  pose proof (running_silent _ _ _ S1 Hr) as Hr1. destruct invalid; cbn [negb].
  - apply qspec_get_bind. eapply qspec_nop_bind; [by apply qspec_silent_call|]. intros time e2 S2 _. apply qspec_ret.
    rewrite app_nil_r. assert (silent (e1 ++ e2)) as S12 by auto with dxg. split.
    + apply (thread_sound_silent old [] (e1 ++ e2)); [by eapply thread_sound_nil|done].
    + split; [by apply running_silent|lia].
  - eapply qspec_bind; [by apply (Process_spec fuel n (old ++ e1))|]. intros r q2 e2 [[Hs2 Hc2] Hr2].
    assert (thread_sound old (e1 ++ e2)) as Hsound.
    { apply thread_sound_app; [apply no_stores_safe, S1|]. split; [done|]. destruct Hc2 as (x & _ & Hx). by exists x. }
    destruct r as [|st|]; [apply qspec_ret; rewrite app_nil_r; by split| |apply qspec_ret; rewrite app_nil_r; by split].
    destruct (Z.eqb_spec st HSA_STATUS_SUCCESS) as [->|Hst]; cbn [negb].
    + apply qspec_ret. rewrite app_nil_r. split; [done|]. rewrite app_assoc. by apply Hr2.
    + eapply qspec_nop_bind; [apply HandleError_nop|]. intros _ e3 S3 _. apply qspec_ret. rewrite app_nil_r.
      split; [|done]. rewrite app_assoc. by apply thread_sound_silent.
Qed.

Lemma thread_wait_nop self s q : qspec (thread_wait self s) q (nop (fun _ => True) q).
Proof.
  apply qspec_get_bind. do 2 (eapply qspec_nop_seq; [apply load64_nop|]; intros ? _).
  destruct (_ && _); [by apply qspec_nop_ret|].
  do 2 (eapply qspec_nop_seq; [apply load64_nop|]; intros ? _).
  eapply (qspec_nop_seq _ _ _ _ (fun _ => True)).
  - destruct (_ <=? _); [by apply qspec_nop_ret|]. destruct (ts_sleep s); [apply IsInvalidPacket_nop|by apply qspec_nop_ret].
  - intros idle _. destruct idle; [|by apply qspec_nop_ret].
    eapply qspec_nop_seq; [by apply qspec_silent_call|]. intros stop _. destruct stop; [by apply qspec_nop_ret|].
    eapply qspec_nop_seq; [by apply qspec_silent_call|]. intros. by apply qspec_nop_ret.
Qed.

Lemma thread_rounds_spec self fuel n m s old q :
  buffer_ok -> environment_ok -> running old q -> write_index (cq_cmdbuf q) + Z.of_nat (m * n) <= 2 ^ 63 ->
  qspec (thread_rounds self fuel n m s) q (fun r q' evs => thread_sound old evs).
Proof.
  intros Hbo Hv. revert s old q. induction m as [|m IH]; intros s old q Hr Hw; cbn [thread_rounds].
  { apply qspec_ret. by eapply thread_sound_nil. }
  eapply (qspec_bind _ _ _ _ (step_post old (write_index (cq_cmdbuf q) + Z.of_nat n))).
  - eapply qspec_bind; [apply thread_process_spec; try done; lia|]. intros r q1 e1 [Hs1 Hr1].
    destruct r as [s1| |]; [|apply qspec_ret; rewrite app_nil_r; by split|apply qspec_ret; rewrite app_nil_r; by split].
    eapply qspec_mono; [apply thread_wait_nop|]. intros r q2 e2 (-> & S2 & _).
    split; [by apply thread_sound_silent|]. destruct r; [|done|done]. destruct Hr1 as [Hr1 Hle]. split; [|done].
    rewrite app_assoc. by apply running_silent.
  - intros r q1 e1 [Hs1 Hr1]. destruct r as [s1| |];
      [|apply qspec_ret; by rewrite app_nil_r|apply qspec_ret; by rewrite app_nil_r].
    destruct Hr1 as [Hr1 Hle]. eapply qspec_mono; [apply (IH s1 (old ++ e1)); [done|lia]|].
    intros r q2 e2 Hs2. apply thread_sound_app; [apply Hs1|done].
Qed.
End process.

(** ** Properties *)

(** [InitCmdbufInfo] on the generations that have packets: a frame holds the longest
    dispatch, and the command buffer 2^12 frames. *)
Lemma InitCmdbufInfo_enough major frame0 :
  9 <= major ->
  let '(frame, size) := InitCmdbufInfo_sizes major frame0 in
  dispatch_limit <= frame < 2 ^ 16 /\ AqlFrameNum * frame = size /\ size < 2 ^ 32.
Proof.
  intros Hm. unfold InitCmdbufInfo_sizes. destruct (Z.eqb_spec major 9) as [->|].
  - vm_compute. repeat split; discriminate.
  - rewrite (proj2 (Z.leb_le 10 major)) by lia. destruct (11 <=? major); vm_compute; repeat split; discriminate.
Qed.



(** ** Witnesses *)

Definition demo_frame : Z := (InitCmdbufInfo_sizes 11 0).1.
Definition demo_queue_dev : WDDMDevice :=
  mkWDDMDevice 5 demo_info 1 11 12 0x9000 3 (InitCmdbufInfo_sizes 11 0).2 demo_frame [mkSegmentInfo 0 1 false false 0].
Definition demo_queue_world : World MemKernel :=
  mkWorld demo_memory [] demo_rt [demo_queue_dev] ∅ 0x5000 [] SimpleHeap_new 2 true DxcoreLoader_new.

(** The queue of the demonstration, and its thread for three rounds. *)
Definition demo_new : option (ComputeQueue * World MemKernel) :=
  ComputeQueue_new (fun _ => 0) 0 0x10000 16 0x8000 0x8080 0 (cmdbuf_size_ demo_queue_dev) 0 true demo_queue_world.
Definition demo_thread : option (thread_step * ComputeQueue * World MemKernel) :=
  match demo_new with Some (q, w) => AqlToPm4Thread 1 1 4 3 q w | None => None end.


Lemma demo_has_room : has_room demo_queue.
Proof. split; [split; unfold dispatch_limit; cbn; lia|cbn; lia|cbn; lia]. Qed.

