(* ===== verification/SdmaSpec.v ===== *)
(** * SdmaSpec: the ranges of an SDMA queue

    Every range a doorbell queues is processed once and in order, and what is submitted
    is exactly the processed ranges whose paging fence was reached, each with the bytes
    processed so far as its fence value. The ranges are contiguous, and the fence values
    the write pointers, when the application does not write between the two reads of
    the write pointer in a doorbell. *)

From stdpp Require Import relations.
From S2P Require Import Prelude.
From S2P Require Import StdMap.
From S2P Require Import BitField.
From S2P Require Import Utils.
From S2P Require Import Status.
From S2P Require Import SimpleHeap.
From S2P Require Import World.
From S2P Require Import Runtime.
From S2P Require Import Device.
From S2P Require Import GpuMemory.
From S2P Require Import Memory.
From S2P Require Import Aql.
From S2P Require Import Queue.
From S2P Require Import Sdma.
From S2P Require Import QueueLog.
From S2P Require Import Demo.
From S2P Require Import QueueDemo.
#[local] Open Scope Z_scope.

(** ** Ranges *)

(** [l] leads from [s] to [e] in order and without overlap, without a gap when [tight]. *)
Fixpoint chain (tight : bool) (s : Z) (l : list (Z * Z)) (e : Z) : Prop :=
  let follows x y := if tight then x = y else x <= y in
  match l with
  | [] => follows s e
  | (a, b) :: l => follows s a /\ a <= b /\ chain tight b l e
  end.

Lemma rings_chain_snoc tight s l m e : chain tight s l m -> m <= e -> chain tight s (l ++ [(m, e)]) e.
Proof.
  revert s. induction l as [|[a b] l IH]; intros s; cbn [chain app].
  - intros ? ?. split_and!; [done|done|by destruct tight].
  - intros (? & ? & ?) ?. split_and!; try done. by apply IH.
Qed.

Lemma chain_weaken s l m e : chain false s l m -> m <= e -> chain false s l e.
Proof. revert s. induction l as [|[a b] l IH]; intros s; cbn [chain]; [lia|]. intros (? & ? & ?) ?. by auto. Qed.

Lemma rings_chain_le tight s l e : chain tight s l e -> s <= e.
Proof.
  revert s. induction l as [|[a b] l IH]; intros s; cbn [chain]; [destruct tight; lia|].
  intros (Hf & ? & ?%IH). destruct tight; lia.
Qed.

Lemma chain_app tight s l l' e : chain tight s (l ++ l') e -> exists m, chain tight s l m /\ chain tight m l' e.
Proof.
  revert s. induction l as [|[a b] l IH]; intros s; cbn [chain app].
  - exists s. split; [by destruct tight|done].
  - intros (? & ? & (m & ? & ?)%IH). exists m. by split_and!.
Qed.

(** The bytes of the ranges. *)
Definition total (l : list (Z * Z)) : Z := fold_right (fun r n => r.2 - r.1 + n) 0 l.

Lemma total_app l l' : total (l ++ l') = total l + total l'.
Proof. unfold total. induction l as [|r l IH]; cbn; [done|]. lia. Qed.

Lemma total_chain tight s l e : chain tight s l e -> 0 <= total l <= e - s /\ (tight = true -> total l = e - s).
Proof.
  revert s. induction l as [|[a b] l IH]; intros s; cbn [chain total fold_right]; [destruct tight; lia|].
  intros (Hf & ? & Hc). destruct (IH _ Hc) as [? Ht]. unfold total in *. cbn [fst snd].
  destruct tight; [specialize (Ht eq_refl)|]; (split; [lia|]); [lia|done].
Qed.

(** The submissions of the processed ranges, [true] those that were submitted: the place in
    the ring of [size] bytes at [base], the length, and as fence the bytes processed, from [f] on. *)
Fixpoint submissions (base size f : Z) (done : list (Z * Z * bool)) : list (Z * Z * Z) :=
  match done with
  | [] => []
  | ((a, b), ok) :: done =>
      (if ok : bool then [(base + a mod size, b - a, f + (b - a))] else []) ++ submissions base size (f + (b - a)) done
  end.

Lemma submissions_snoc base size f l a b ok :
  submissions base size f (l ++ [((a, b), ok)]) =
    submissions base size f l ++ (if ok then [(base + a mod size, b - a, f + total l.*1 + (b - a))] else []).
Proof.
  revert f. induction l as [|[[x y] o] l IH]; intros f; cbn [submissions app].
  - rewrite app_nil_r. cbn. by rewrite Z.add_0_r.
  - rewrite IH, <- app_assoc. cbn. do 2 f_equal. destruct ok; [|done]. do 2 f_equal. unfold total. cbn. lia.
Qed.

(** The same with the end of the range as fence. *)
Definition submissions_to_end (base size : Z) (done : list (Z * Z * bool)) : list (Z * Z * Z) :=
  '((a, b), ok) ← done; if ok : bool then [(base + a mod size, b - a, b)] else [].

Lemma submissions_tight base size f done e :
  chain true f done.*1 e -> submissions base size f done = submissions_to_end base size done.
Proof.
  revert f. induction done as [|[[a b] ok] done IH]; intros f; cbn [submissions fmap list_fmap chain fst]; [done|].
  intros (-> & ? & Hc). replace (a + (b - a)) with b by lia. rewrite (IH _ Hc). by destruct ok.
Qed.

(** ** One range *)

Section sdma.
Context {K : Type} `{Kernel K}.

Lemma poll_loop_calm fuel a : calmM (K := K) (poll_loop fuel a).
Proof.
  revert a. induction fuel as [|fuel IH]; intros a; cbn [poll_loop]; unfold load_poll; calm.
Qed.

Lemma submits_to_silent h evs : silent evs -> submits_to h evs = [].
Proof.
  intros [_ Hu]. induction evs as [|[R c r] evs IH]; [done|]. unfold submits in Hu. unfold submits_to. cbn in *.
  by destruct c; cbn in *; try apply IH.
Qed.

Lemma submits_to_app h e e' : submits_to h (e ++ e') = submits_to h e ++ submits_to h e'.
Proof. apply omap_app. Qed.

Lemma process_pending_spec fuel start end_ q w q' w' :
  q_use_hws (sq_base q) = true ->
  process_pending fuel (start, end_) q w = Some (Some q', w') ->
  q' = PreparePacket (WrapIntoRocrRing q start) (end_ -64 start) q /\
  exists evs (ok : bool), w_log w' = w_log w ++ evs /\
    submits_to (q_queue (sq_base q)) evs =
      if ok then [(u64 (q_cmdbuf_addr (sq_base q) + WrapIntoRocrRing q start), end_ -64 start, rptr_next q')] else [].
Proof.
  intros Hhws. unfold process_pending. set (qp := PreparePacket _ _ q). intros (polled & w1 & H1 & H2)%M_bind_Some.
  destruct (poll_loop_calm _ _ _ _ _ H1) as (_ & e1 & Hl1 & S1). destruct polled; [|done].
  apply M_bind_Some in H2 as (st & w2 & H2 & [= <- <-]). split; [done|]. revert H2. unfold SDMA_Submit.
  intros (ok & w3 & H3 & H2)%M_bind_Some. destruct (WaitPagingFence_calm _ _ _ _ _ H3) as (_ & e3 & Hl3 & S3).
  destruct ok; cbn [negb] in H2.
  - unfold queue_submit, HwsSubmit, SubmitToHwQueue, dx_ in H2. change (sq_base qp) with (sq_base q) in H2. rewrite Hhws in H2.
    unfold mbind, M_bind, kcall_ in H2. destruct (kernel_step _ _ _) as [r k]. injection H2 as _ <-. cbn [w_log log_call].
    rewrite Hl3, Hl1, <- !app_assoc. eexists _, true. split; [done|].
    rewrite !submits_to_app, !submits_to_silent by done. cbn. by rewrite Z.eqb_refl.
  - injection H2 as _ <-. rewrite Hl3, Hl1, <- app_assoc. eexists _, false. split; [done|]. apply submits_to_silent; auto with dxg.
Qed.
End sdma.

(** ** All the ranges *)

(** A ring of a power of two of bytes below 2^32 that ends below 2^64, on hardware
    scheduling. *)
Record ring_ok (b : WDDMQueue) : Prop := {
  ring_hws : q_use_hws b = true;
  ring_size : exists k, 0 <= k < 32 /\ q_cmdbuf_size b = 2 ^ k;
  ring_place : 0 <= q_cmdbuf_addr b /\ q_cmdbuf_addr b + q_cmdbuf_size b < 2 ^ 64;
}.

Lemma WrapIntoRocrRing_mod q idx : ring_ok (sq_base q) -> 0 <= idx -> WrapIntoRocrRing q idx = idx mod q_cmdbuf_size (sq_base q).
Proof.
  unfold WrapIntoRocrRing. intros [_ (k & Hk & ->) _] Hi.
  pose proof (Z.pow_pos_nonneg 2 k ltac:(lia) ltac:(lia)). pose proof (Z.pow_lt_mono_r 2 k 32 ltac:(lia) ltac:(lia) ltac:(lia)).
  rewrite (u32_small (2 ^ k - 1)) by lia. rewrite Z.sub_1_r, <- Z.ones_equiv, Z.land_ones by lia.
  apply u32_small. pose proof (Z.mod_pos_bound idx (2 ^ k) ltac:(lia)). lia.
Qed.

(** What has been taken and not yet submitted, then what is queued. *)
Definition waiting (pc : sdma_pc) (q : SDMAQueue) : list (Z * Z) :=
  match pc with Working l => l | _ => [] end ++ wptr_queue_ q.

(** How far the queued ranges go: in the middle of a doorbell, to where it rings. *)
Definition rung (q : SDMAQueue) (ringing : bool) : Z := if ringing then wptr_next_ q else wptr_pre_ q.

(** With [b] the members that do not change, [old] what was submitted before and [done]
    the ranges processed. *)
Record sdma_inv {K} (tight : bool) (b : WDDMQueue) (old : list (Z * Z * Z)) (done : list (Z * Z * bool)) (s : SdmaState K) : Prop := {
  si_base : sq_base (st_queue s) = b;
  si_next : rung (st_queue s) (st_ringing s) <= wptr_next_ (st_queue s);
  si_rings : done.*1 ++ waiting (st_pc s) (st_queue s) = st_rings s;
  si_chain : chain tight 0 (st_rings s) (rung (st_queue s) (st_ringing s));
  si_rptr : rptr_next (st_queue s) = total done.*1;
  si_submitted : submits_to (q_queue b) (w_log (st_world s)) =
    old ++ submissions (q_cmdbuf_addr b) (q_cmdbuf_size b) 0 done;
}.

(** A step; with [tight], the application does not write while a doorbell is rung. *)
Definition step_of {K} `{Kernel K} (tight : bool) (s s' : SdmaState K) : Prop :=
  sdma_step s s' /\ (tight = true -> st_ringing s = true -> wptr_next_ (st_queue s') = wptr_next_ (st_queue s)).

(** The worker processes the first range that waits. *)
Lemma process_inv {K} `{Kernel K} tight b old done fuel q r rs w range l q' w' :
  ring_ok b -> sdma_inv tight b old done (mkSdmaState q r (Working (range :: l)) rs w) -> wptr_next_ q < 2 ^ 64 ->
  process_pending fuel range q w = Some (Some q', w') ->
  exists ok, sdma_inv tight b old (done ++ [(range, ok)]) (mkSdmaState q' r (Working l) rs w').
Proof.
  intros Hb [I1 I2 I3 I4 I5 I6] Hlt Hrun. destruct range as [start end_]. cbn [st_queue st_ringing st_pc st_rings st_world] in *. subst b.
  destruct (process_pending_spec _ _ _ _ _ _ _ (ring_hws _ Hb) Hrun) as (-> & evs & ok & Hl & He). exists ok.
  assert (exists m, chain tight 0 done.*1 m /\ m <= start <= end_ /\ end_ <= rung q r) as (m & Hm & Hse & Hend).
  { rewrite <- I3 in I4. destruct (chain_app _ _ _ _ _ I4) as (m & Hm & Hw). exists m. split; [done|].
    unfold waiting in Hw. cbn in Hw. destruct Hw as (Hf & ? & ?%rings_chain_le). destruct tight; lia. }
  destruct (total_chain _ _ _ _ Hm) as [Htot _].
  assert (end_ -64 start = end_ - start) as Esize by (apply wrap_small; lia). rewrite Esize in *.
  assert (rptr_next (PreparePacket (WrapIntoRocrRing q start) (end_ - start) q) = total done.*1 + (end_ - start)) as Er.
  { cbn. unfold add64. rewrite I5, u64_small by lia. lia. }
  rewrite Er, (WrapIntoRocrRing_mod q) in He by (done || lia). pose proof (ring_place _ Hb) as [Hp1 Hp2].
  destruct (ring_size _ Hb) as (k & Hk & Hsz).
  assert (0 < q_cmdbuf_size (sq_base q)) as Hpos by (rewrite Hsz; apply Z.pow_pos_nonneg; lia).
  pose proof (Z.mod_pos_bound start _ Hpos). rewrite u64_small in He by lia.
  split; cbn [st_queue st_ringing st_pc st_rings st_world sq_base PreparePacket sq_set_ib].
  - done.
  - exact I2.
  - rewrite fmap_app, <- I3, <- app_assoc. done.
  - exact I4.
  - rewrite fmap_app, total_app. change (rptr_next _) with (rptr_next (PreparePacket (WrapIntoRocrRing q start) (end_ - start) q)).
    rewrite Er. cbn. lia.
  - rewrite Hl, submits_to_app, I6, He, submissions_snoc, Z.add_0_l. by rewrite app_assoc.
Qed.

Lemma sdma_inv_step {K} `{Kernel K} tight b old done (s s' : SdmaState K) :
  ring_ok b -> sdma_inv tight b old done s -> step_of tight s s' -> wptr_next_ (st_queue s') < 2 ^ 64 ->
  exists done', sdma_inv tight b old done' s'.
Proof.
  intros Hb I [Hstep Hquiet] Hlt.
  destruct Hstep as [q r pc rs w v Hv|q pc rs w|q pc rs w|q r rs w Hne|q r rs w|fuel q r rs w range l q' w' Hrun|q r rs w|q r pc rs w w' evs Hl He].
  6:{ assert (wptr_next_ q < 2 ^ 64) as Hq.
      { cbn in Hlt. destruct range as [start end_]. revert Hlt Hrun. unfold process_pending.
        intros Hlt (polled & w1 & _ & H2)%M_bind_Some. destruct polled; [|done].
        apply M_bind_Some in H2 as (st & w2 & _ & [= <- _]). exact Hlt. }
      destruct (process_inv _ _ _ _ _ _ _ _ _ _ _ _ _ Hb I Hq Hrun) as [ok I']. by eexists. }
  all: exists done; destruct I as [I1 I2 I3 I4 I5 I6]; cbn [st_queue st_ringing st_pc st_rings st_world] in *; split;
    cbn [st_queue st_ringing st_pc st_rings st_world]; try done.
  - unfold rung in *. destruct r; cbn in *; lia.
  - unfold rung in *. destruct r; [|exact I4]. destruct tight; [by rewrite Hquiet|]. eapply chain_weaken; [exact I4|done].
  - rewrite <- I3. unfold waiting. cbn. by rewrite !app_assoc.
  - cbn. apply rings_chain_snoc; [exact I4|exact I2].
  - rewrite <- I3. unfold waiting. cbn. by rewrite app_nil_r.
  - subst b. by rewrite Hl, submits_to_app, He, app_nil_r.
Qed.

Lemma sdma_step_wptr {K} `{Kernel K} (s s' : SdmaState K) :
  sdma_step s s' -> wptr_next_ (st_queue s) <= wptr_next_ (st_queue s').
Proof.
  destruct 1 as [| | | | |fuel q b rs w range l q' w' Hrun| |]; cbn; try lia. revert Hrun. destruct range as [start end_].
  unfold process_pending. intros (polled & w1 & _ & H2)%M_bind_Some. destruct polled; [|done].
  apply M_bind_Some in H2 as (st & w2 & _ & [= <- _]). cbn. lia.
Qed.

(** The bytes the application writes between the two reads of a doorbell are in no range:
    the next doorbell starts behind them. *)
Lemma doorbell_race q v v' :
  let q1 := RingDoorbell_update (sq_set_wptr_next v (RingDoorbell_push q)) in
  wptr_queue_ (RingDoorbell_push (sq_set_wptr_next v' q1)) =
    wptr_queue_ q ++ [(wptr_pre_ q, wptr_next_ q); (v, v')].
Proof. cbn. by rewrite <- app_assoc. Qed.

(** The state of a queue just built. *)
Definition sdma_start {K} (q : SDMAQueue) (w : World K) : SdmaState K := mkSdmaState q false Idle [] w.


(** A queue with a ring of 4096 bytes at 0x40000, on which 64 bytes are rung, taken and
    processed. *)
Definition demo_sdma : option (SDMAQueue * World MemKernel) :=
  SDMAQueue_new (fun _ => 0) 0 0x40000 0x1000 0 true (queue_world demo_memory).
Definition demo_taken (q : SDMAQueue) : SDMAQueue := (take_pendings (SDMA_RingDoorbell (sq_set_wptr_next 64 q))).2.
Definition demo_sdma_run : option (option SDMAQueue * World MemKernel) :=
  match demo_sdma with Some (q, w) => process_pending 1 (0, 64) (demo_taken q) w | None => None end.

