(* ===== verification/QueueApiSpec.v ===== *)
(** * QueueApiSpec: what creating and ringing a queue promise

    Every outcome of [hsaKmtCreateQueueV2], and the handle it returns. *)

From S2P Require Import Prelude.
From S2P Require Import StdMap.
From S2P Require Import BitField.
From S2P Require Import Utils.
From S2P Require Import Status.
From S2P Require Import World.
From S2P Require Import Runtime.
From S2P Require Import Device.
From S2P Require Import GpuMemory.
From S2P Require Import Demo.
From S2P Require Import Memory.
From S2P Require Import MemorySpec.
From S2P Require Import Aql.
From S2P Require Import Queue.
From S2P Require Import QueueThread.
From S2P Require Import Sdma.
From S2P Require Import QueueNew.
From S2P Require Import QueueApi.
From S2P Require Import QueueDemo.
#[local] Open Scope Z_scope.

(** The arguments [hsaKmtCreateQueueV2] refuses with [INVALID_PARAMETER]. *)
Definition refused (Priority QueueAddress MetaDataPrefetchSizeInBytes : Z) : Prop :=
  ~ (-3 <= Priority <= 3) \/ MetaDataPrefetchSizeInBytes <> 0 \/ QueueAddress = 0.

(** The object of a type of queue, and the pointers its creator gets. *)
Definition created (d : WDDMDevice) (i : nat) (Type_ QueueAddress QueueSizeInBytes id : Z) (res res' : HsaQueueResource)
    (o : QueueObj) : Prop :=
  let sd := shared_dev_ d in
  QueueId res' = id /\ Queue_DoorBell_aql res' = PDoorbell id /\ ErrorReason res' = ErrorReason res /\
  GetHsaQueueAddr o = QueueAddress /\
  match o with
  | ComputeObj q =>
      exists wptr rptr, Type_ = HSA_QUEUE_COMPUTE_AQL /\
      Queue_write_ptr_aql res = PAddr wptr /\ Queue_read_ptr_aql res = PAddr rptr /\
      Queue_write_ptr_aql res' = PAddr wptr /\ Queue_read_ptr_aql res' = PAddr rptr /\
      new_compute i d QueueAddress (QueueSizeInBytes / 64) wptr rptr (cmdbuf_size_ d) (sd_ComputeEngine sd)
        (sd_IsHwsEnabled sd (sd_ComputeEngine sd)) q
  | SdmaObj q =>
      (Type_ = HSA_QUEUE_SDMA \/ Type_ = HSA_QUEUE_SDMA_BY_ENG_ID) /\
      Queue_write_ptr_aql res' = PWptrNext id /\ Queue_read_ptr_aql res' = PAddr (q_sync_addr (sq_base q)) /\
      new_sdma i QueueAddress QueueSizeInBytes (sd_SdmaEngine sd 0) (sd_IsHwsEnabled sd (sd_SdmaEngine sd 0)) q
  end.

Section api.
Context {K : Type} `{Kernel K}.
Context (flag : Z -> Z).
Implicit Types (w : World K).

Lemma priority_ok_spec p : reflect (-3 <= p <= 3) (priority_ok p).
Proof. unfold priority_ok, HSA_QUEUE_PRIORITY_MINIMUM, HSA_QUEUE_PRIORITY_MAXIMUM. apply iff_reflect. rewrite andb_true_iff, !Z.leb_le. lia. Qed.

Lemma massert_Some b w w1 : @massert K b w = Some (tt, w1) -> b = true /\ w1 = w.
Proof. unfold massert. destruct b; [by intros [= <-]|done]. Qed.

Lemma queue_acquire_frame a w ok w1 : queue_acquire_buffer a w = Some (ok, w1) ->
  w_devs w1 = w_devs w /\ if ok then a <> 0 else a = 0 /\ w1 = w.
Proof.
  unfold queue_acquire_buffer. destruct (Z.eqb_spec a 0) as [->|Ha]; [by intros [= <- <-]|].
  intros (o & w2 & H2 & H3)%M_bind_Some. injection H2 as <- <-. destruct (map_find a (w_amap w)) as [al|]; [|by injection H3 as <- <-].
  apply M_bind_Some in H3 as ([] & w3 & H3 & [= <- <-]). split; [|done].
  revert H3. unfold mod_mem. intros (g & w4 & H4 & H5)%M_bind_Some. unfold get_mem in H4. destruct (w_mems w !! _); [|done].
  injection H4 as <- <-. unfold set_mem in H5. destruct (w_mems w !! _); [|done]. by injection H5 as <-.
Qed.

Lemma create_compute_spec i d addr size res s w r w' :
  w_devs w !! i = Some d -> create_compute flag i d addr size res s w = Some (r, w') ->
  exists o, r.2 = qs_add o s /\ created d i HSA_QUEUE_COMPUTE_AQL addr size (qs_next s) res r.1 o.
Proof.
  intros Hd ([] & w1 & [_ ->]%massert_Some & H1)%M_bind_Some.
  apply M_bind_Some in H1 as (wptr & w2 & Hw & H1). apply M_bind_Some in H1 as (rptr & w3 & Hr & H1).
  destruct (Queue_write_ptr_aql res) as [?| |] eqn:Ew; [|done|done]. injection Hw as <- <-.
  destruct (Queue_read_ptr_aql res) as [?| |] eqn:Er; [|done|done]. injection Hr as <- <-.
  apply M_bind_Some in H1 as (q & w4 & Hq & [= <- <-]). exists (ComputeObj q). split; [done|].
  pose proof (ComputeQueue_new_fresh _ _ _ _ _ _ _ _ _ _ _ _ _ _ Hd Hq) as Hn.
  do 3 (split; [done|]). split; [apply Hn|]. exists a, a0. by split_and!.
Qed.

Lemma create_sdma_spec i d ty addr size res s w r w' :
  ty = HSA_QUEUE_SDMA \/ ty = HSA_QUEUE_SDMA_BY_ENG_ID -> addr <> 0 ->
  create_sdma flag i d addr size res s w = Some (r, w') ->
  exists o, r.2 = qs_add o s /\ created d i ty addr size (qs_next s) res r.1 o.
Proof.
  intros Hty Ha ([] & w1 & [_ ->]%massert_Some & H1)%M_bind_Some.
  apply M_bind_Some in H1 as (q & w4 & Hq & [= <- <-]). exists (SdmaObj q). split; [done|].
  pose proof (SDMAQueue_new_fresh _ _ _ _ _ _ _ _ _ Hq) as Hn.
  do 3 (split; [done|]). split; [by apply Hn|]. by split_and!.
Qed.
End api.

(** C20: Creating a queue on an open library, in any run: exactly the refused arguments are
    reported as invalid parameters, with the resource, the queues and the process
    untouched; otherwise it succeeds, and the one new object is the queue of the type
    asked for, idle and on the ring given, under the handle returned. A compute queue
    keeps the caller's pointers; an SDMA queue gives out its own write pointer and its
    progress fence as the read pointer. *)
Theorem CreateQueue_outcome {K} `{Kernel K} flag node ty prio addr size meta event res s w st res' s' w' :
  library_open w -> hsaKmtCreateQueueV2 flag node ty prio addr size meta event res s w = Some (st, res', s', w') ->
  st = HSAKMT_STATUS_INVALID_PARAMETER /\ refused prio addr meta /\ res' = res /\ s' = s /\ w' = w \/
  st = HSAKMT_STATUS_SUCCESS /\ ~ refused prio addr meta /\
    exists i d o, get_wddmdev node w = Some (Some i, w) /\ w_devs w !! i = Some d /\
      s' = qs_add o s /\ created d i ty addr size (qs_next s) res res' o.
Proof.
  intros Hopen. unfold hsaKmtCreateQueueV2, refused. rewrite (CHECK_DXG_OPEN_open _ _ _ Hopen).
  intros ([] & w1 & [_ ->]%massert_Some & H1)%M_bind_Some.
  destruct (priority_ok_spec prio) as [Hp|Hp]; cbn [negb] in H1; [|injection H1 as <- <- <- <-; left; by auto].
  destruct (Z.eqb_spec meta 0) as [->|Hm]; cbn [negb] in H1; [|injection H1 as <- <- <- <-; left; by auto].
  apply M_bind_Some in H1 as (o & w1 & Hget & H1). apply M_bind_Some in H1 as (i & w2 & Hi & H1).
  assert (w1 = w) as -> by (revert Hget; unfold get_wddmdev; repeat case_match; congruence).
  destruct o as [i'|]; [|done]. injection Hi as -> <-.
  apply M_bind_Some in H1 as (d & w3 & Hd & H1). unfold get_dev in Hd.
  destruct (w_devs w !! i) as [d'|] eqn:Ed; [|done]. injection Hd as -> <-.
  apply M_bind_Some in H1 as (ok & w4 & [Hdevs Hok]%queue_acquire_frame & H1).
  destruct ok; cbn [negb] in H1; [|destruct Hok as [-> ->]; injection H1 as <- <- <- <-; left; by auto].
  right. apply M_bind_Some in H1 as ([res1 s1] & w5 & H1 & [= <- <- <- <-]). split; [done|]. split; [lia|].
  assert (exists o, s1 = qs_add o s /\ created d i ty addr size (qs_next s) res res1 o) as (o & ? & ?).
  { destruct (Z.eqb_spec ty HSA_QUEUE_COMPUTE_AQL) as [->|Hc].
    - rewrite <-Hdevs in Ed. exact (create_compute_spec _ _ _ _ _ _ _ _ _ _ Ed H1).
    - destruct (_ || _) eqn:Et; [|done]. apply orb_prop in Et. rewrite !Z.eqb_eq in Et.
      exact (create_sdma_spec _ _ _ _ _ _ _ _ _ _ _ Et Hok H1). }
  by exists i, d, o.
Qed.

(** ** Witness *)

(** An SDMA queue on a ring of 4096 bytes at 0x40000, from node 1. *)
Definition demo_resource : HsaQueueResource := mkQueueResource 0 (PAddr 0) (PAddr 0x8000) (PAddr 0x8080) 0.
Definition no_queues : Queues := mkQueues ∅ 0x7000.

Lemma CreateQueue_outcome_witness :
  exists res' s' w' d o,
    hsaKmtCreateQueueV2 (fun _ => 0) 1 2 0 0x40000 4096 0 0 demo_resource no_queues (queue_world demo_memory) =
      Some (HSAKMT_STATUS_SUCCESS, res', s', w') /\
    s' = qs_add o no_queues /\ created d 0 2 0x40000 4096 0x7000 demo_resource res' o.
Proof.
  destruct (hsaKmtCreateQueueV2 (fun _ => 0) 1 2 0 0x40000 4096 0 0 demo_resource no_queues (queue_world demo_memory))
    as [[[[st res'] s'] w']|] eqn:E; [|vm_compute in E; discriminate E].
  assert (library_open (queue_world demo_memory)) as Ho by (split; [discriminate|reflexivity]).
  destruct (CreateQueue_outcome (fun _ => 0) 1 2 0 0x40000 4096 0 0 demo_resource no_queues
    (queue_world demo_memory) st res' s' w' Ho E) as [(_ & Hr & _)|(-> & _ & i & d & o & Hi & Hd & Hs & Hc)].
  - exfalso. unfold refused in Hr. lia.
  - assert (i = 0%nat) as -> by (vm_compute in Hi; injection Hi; auto). exists res', s', w', d, o. split_and!; [done|exact Hs|exact Hc].
Defined.
