(* ===== verification/TopologySpec.v ===== *)
(** * TopologySpec: what a snapshot of the nodes promises

    The shape of every node after a successful acquisition, that no indirect links are
    ever added, and that the getters then return. *)

From Stdlib Require Import String Ascii QArith Qround.
From S2P Require Import Prelude.
From S2P Require Import StdMap.
From S2P Require Import BitField.
From S2P Require Import Utils.
From S2P Require Import Status.
From S2P Require Import World.
From S2P Require Import Runtime.
From S2P Require Import Device.
From S2P Require Import Memory.
From S2P Require Import MemorySpec.
From S2P Require Import Demo.
From S2P Require Import Queue.
From S2P Require Import QueueThread.
From S2P Require Import Sdma.
From S2P Require Import QueueApi.
From S2P Require Import SimpleHeap.
From S2P Require Import Sysfs.
From S2P Require Import Platform.
From S2P Require Import Topology.
#[local] Open Scope Z_scope.

(** ** The view of the nodes *)

Definition node_view {K} (w : World K) : list WDDMDevice * Z := (w_devs w, w_nodes w).

Section still.
Context {K : Type} `{Kernel K}.
#[local] Notation quiet := (still (node_view (K := K))).

Lemma get_wddmdev_still n : quiet (get_wddmdev n).
Proof. intros w x w'. unfold get_wddmdev. case_match; [by intros [= <- <-]|]. case_match; [|done]. by intros [= <- <-]. Qed.
Lemma map_node_still n : quiet (topology_map_node_id n).
Proof. apply still_bind; [apply get_wddmdev_still|intros ?]. still. Qed.
#[local] Hint Resolve get_wddmdev_still map_node_still : still.

Lemma mod_rt_still f : quiet (mod_rt f).
Proof. unfold mod_rt. still. Qed.
#[local] Hint Resolve mod_rt_still : still.

Lemma read_cache_still prefix idx id cpuinfo : quiet (read_cache prefix idx id cpuinfo).
Proof. unfold read_cache, read_dec, read_size, read_str. still. Qed.
Lemma cache_indices_still ids prefix cpuinfo p9 proc : forall n cache, quiet (cache_indices ids prefix cpuinfo p9 proc n cache).
Proof.
  pose proof read_cache_still. induction ids as [|idx ids IH]; intros n cache; cbn [cache_indices]; unfold read_dec; still.
Qed.
Lemma is_power9_still vendor cpuinfo : quiet (is_power9 vendor cpuinfo).
Proof. unfold is_power9. still. Qed.
#[local] Hint Resolve cache_indices_still is_power9_still : still.
Lemma num_subdirs_still d p : quiet (num_subdirs d p).
Proof. unfold num_subdirs. still. Qed.
#[local] Hint Resolve num_subdirs_still : still.
Lemma get_cpu_cache_info_still prefix vendor cpuinfo n proc cache : quiet (get_cpu_cache_info prefix vendor cpuinfo n proc cache).
Proof. unfold get_cpu_cache_info. still. Qed.
#[local] Hint Resolve get_cpu_cache_info_still : still.
Lemma cpu_dirs_still names dir vendor cpuinfo : forall cnt cache, quiet (cpu_dirs names dir vendor cpuinfo cnt cache).
Proof. induction names as [|name names IH]; intros cnt cache; cbn [cpu_dirs]; still. Qed.
#[local] Hint Resolve cpu_dirs_still : still.
Lemma cpu_cache_props_still node vendor cpuinfo cache : quiet (topology_get_cpu_cache_props node vendor cpuinfo cache).
Proof. unfold topology_get_cpu_cache_props. still. Qed.
#[local] Hint Resolve cpu_cache_props_still : still.

Lemma node_props_still i mhz : quiet (topology_sysfs_get_node_props i mhz).
Proof. unfold topology_sysfs_get_node_props. still. Qed.
Lemma mem_props_still i : quiet (topology_sysfs_get_mem_props i).
Proof. unfold topology_sysfs_get_mem_props. still. Qed.
Lemma iolink_props_still i : quiet (topology_sysfs_get_iolink_props i).
Proof. unfold topology_sysfs_get_iolink_props. still. Qed.
Lemma dgpu_still p : quiet (topology_setup_is_dgpu_param p).
Proof. unfold topology_setup_is_dgpu_param. still. Qed.
#[local] Hint Resolve node_props_still mem_props_still iolink_props_still dgpu_still : still.
Lemma node_banks_still ids i : forall mem, quiet (node_banks ids i mem).
Proof. induction ids as [|m ids IH]; intros mem; cbn [node_banks]; still. Qed.
Lemma node_links_still n i : forall id link, quiet (node_links n i id link).
Proof. induction n as [|n IH]; intros id link; cbn [node_links]; still. Qed.
Lemma node_caches_still i vendor cpuinfo dev t : quiet (node_caches i vendor cpuinfo dev t).
Proof. unfold node_caches. still. Qed.
#[local] Hint Resolve node_banks_still node_links_still node_caches_still : still.
Lemma snapshot_node_still N vendor mhz cpuinfo i t : quiet (snapshot_node N vendor mhz cpuinfo i t).
Proof. unfold snapshot_node. still. Qed.

(** Reserving the heaps does not touch the devices either. *)
Lemma wddmdev_still n : quiet (wddmdev n).
Proof. unfold wddmdev. still. Qed.
#[local] Hint Resolve wddmdev_still : still.
Lemma reserve_on_adapters_still js ptr size sz : forall base local cnt, quiet (reserve_on_adapters js ptr size sz base local cnt).
Proof. induction js as [|j js IH]; intros base local cnt; cbn [reserve_on_adapters]; still. Qed.
#[local] Hint Resolve reserve_on_adapters_still : still.
Lemma svm_attempts_still fuel size sz : forall base va, quiet (svm_attempts fuel size sz base va).
Proof. induction fuel as [|fuel IH]; intros base va; cbn [svm_attempts]; unfold get_num_wddmdev; still. Qed.
Lemma munmap_all_still l size : quiet (munmap_all l size).
Proof. induction l as [|a l IH]; cbn [munmap_all]; still. Qed.
#[local] Hint Resolve svm_attempts_still munmap_all_still : still.
Lemma ReserveSvmSpace_still size align : quiet (ReserveSvmSpace size align).
Proof. unfold ReserveSvmSpace. still. Qed.
#[local] Hint Resolve ReserveSvmSpace_still : still.
Lemma total_local_size_still js : forall acc, quiet (total_local_size js acc).
Proof. induction js as [|j js IH]; intros acc; cbn [total_local_size]; still. Qed.
#[local] Hint Resolve total_local_size_still : still.
Lemma aperture_loop_still fuel n size : forall j start, quiet (aperture_loop fuel j n start size).
Proof. induction fuel as [|fuel IH]; intros j start; cbn [aperture_loop]; still. Qed.
#[local] Hint Resolve aperture_loop_still : still.
Lemma HeapInit_still : quiet HeapInit.
Proof.
  unfold HeapInit, ReserveLocalHeapSpace, ReserveSystemHeapSpace, InitHandleApertureSpace, InitLocalHeapMgr, InitSystemHeapMgr,
    InitHandleApertureMgr, get_rt, get_num_wddmdev. still.
Qed.
End still.

(** ** The shape of a node *)

(** Node 0: the memory of the machine, the caches that were found, no link. *)
Record cpu_node (N : Z) (t : node_props_t) : Prop := {
  cn_gpu : KFDGpuID (np_node t) = 0;
  cn_banks : NumMemoryBanks (np_node t) = 1;
  cn_mem : exists size, np_mem t = [mkMemoryProperties HSA_HEAPTYPE_SYSTEM size 64 2133 0];
  cn_caches : NumCaches (np_node t) <= Z.of_nat (length (np_cache t));
  cn_links : NumIOLinks (np_node t) = 0;
  cn_link : Z.of_nat (length (np_link t)) = N - 1;
}.

(** The memory an adapter's node shows. *)
Definition gpu_bank (d : WDDMDevice) : HsaMemoryProperties :=
  let sd := shared_dev_ d in
  mkMemoryProperties HSA_HEAPTYPE_FRAME_BUFFER_PRIVATE
    (if sd_IsDgpu sd then LocalHeapSize d else LocalHeapSize d +64 sd_NonLocalHeapSize sd)
    (sd_MemoryBusWidth sd) (sd_MaxMemoryClockMhz sd) 0.

(** Its link to the processor. *)
Definition gpu_link (i : Z) (d : WDDMDevice) : HsaIoLinkProperties :=
  mkIoLinkProperties HSA_IOLINKTYPE_PCIEXPRESS i 0 20 true true (negb (sd_SupportPlatformAtomic (shared_dev_ d))).

(** Node [i] of the adapter [d]: its properties, one bank that the processor does not
    see, three caches, one link to the processor. *)
Record gpu_node (N i : Z) (d : WDDMDevice) (t : node_props_t) : Prop := {
  gn_node : exists mhz o, np_node t = np_set_NumIOLinks 1 (gpu_node_props_done (shared_dev_ d) o (gpu_node_props (shared_dev_ d) i mhz));
  gn_mem : np_mem t = [gpu_bank d];
  gn_cache : (fun c => (CacheLevel c, CacheSize c)) <$> np_cache t =
    [(1, sd_L1CacheSize (shared_dev_ d) / 1024); (2, sd_L2CacheSize (shared_dev_ d) / 1024); (3, sd_L3CacheSize (shared_dev_ d) / 1024)];
  gn_link : exists rest, np_link t = gpu_link i d :: rest;
  gn_link_length : Z.of_nat (length (np_link t)) = N - 1;
}.

(** A node of a snapshot of [devs]. *)
Definition node_ok (devs : list WDDMDevice) (i : Z) (t : node_props_t) : Prop :=
  let N := Z.of_nat (length devs) + 1 in
  i = 0 /\ cpu_node N t \/ 0 < i /\ exists d, devs !! Z.to_nat (i - 1) = Some d /\ gpu_node N i d t.

Definition well_formed (devs : list WDDMDevice) (l : list node_props_t) : Prop :=
  Z.of_nat (length l) = Z.of_nat (length devs) + 1 /\ forall i t, l !! Z.to_nat i = Some t -> 0 <= i -> node_ok devs i t.

Lemma length_resize {A} n (x : A) l : length (resize n x l) = Z.to_nat n.
Proof. unfold resize. rewrite length_take, length_app, repeat_length. lia. Qed.

Section node.
Context {K : Type} `{Kernel K}.

(** A world with the devices of the snapshot. *)
Definition snap_world (devs : list WDDMDevice) (w : World K) : Prop :=
  devs <> [] /\ node_view w = (devs, Z.of_nat (length devs) + 1).

Lemma map_node_spec devs w i o w' : snap_world devs w -> topology_map_node_id i w = Some (o, w') ->
  w' = w /\ (i = 0 -> o = None) /\ (0 < i < Z.of_nat (length devs) + 1 -> exists d, o = Some d /\ devs !! Z.to_nat (i - 1) = Some d).
Proof.
  intros [Hne [= Hd Hn]] (j & w1 & H1 & H2)%M_bind_Some. revert H1. unfold get_wddmdev. rewrite Hd, Hn.
  destruct (Nat.eqb_spec (length devs) 0) as [E|E]; [by destruct devs|]. cbn [orb].
  destruct (Z.eqb_spec i 0) as [->|Hi]; cbn [orb].
  { intros [= <- <-]. injection H2 as <- <-. split_and!; [done|done|lia]. }
  destruct (Z.leb_spec (Z.of_nat (length devs) + 1) i).
  { intros [= <- <-]. injection H2 as <- <-. split_and!; [done|done|lia]. }
  destruct (devs !! Z.to_nat (i - 1)) as [d|] eqn:Ei; [|done]. intros [= <- <-].
  apply M_bind_Some in H2 as (d' & w2 & H2 & [= <- <-]). unfold get_dev in H2. rewrite Hd, Ei in H2. injection H2 as <- <-.
  split_and!; [done|done|]. intros _. by exists d.
Qed.

Lemma node_props_spec devs w i mhz st p w' : snap_world devs w -> 0 <= i < Z.of_nat (length devs) + 1 ->
  topology_sysfs_get_node_props i mhz w = Some (st, p, w') -> st = HSAKMT_STATUS_SUCCESS ->
  (i = 0 -> KFDGpuID p = 0 /\ NumMemoryBanks p = 1 /\ NumCaches p = 0 /\ NumIOLinks p = 0) /\
  (0 < i -> exists d o, devs !! Z.to_nat (i - 1) = Some d /\ p = gpu_node_props_done (shared_dev_ d) o (gpu_node_props (shared_dev_ d) i mhz)).
Proof.
  intros Hw Hi Hrun ->. unfold topology_sysfs_get_node_props in Hrun.
  destruct (Z.eqb_spec i 0) as [->|Hne].
  { apply M_bind_Some in Hrun as (n & w1 & _ & [= <- _]). split; [done|lia]. }
  split; [done|]. intros _. apply M_bind_Some in Hrun as (o & w1 & H1 & Hrun).
  destruct (map_node_spec _ _ _ _ _ Hw H1) as (-> & _ & Hsome). destruct Hsome as (d & -> & Hd); [lia|].
  apply M_bind_Some in Hrun as (_ & w2 & _ & Hrun). apply M_bind_Some in Hrun as (env & w3 & _ & Hrun).
  destruct (override_engine env) as [o|]; [|done]. apply M_bind_Some in Hrun as (_ & w4 & _ & [= <- _]). by exists d, o.
Qed.

Lemma mem_props_spec devs w i st b w' : snap_world devs w -> 0 <= i < Z.of_nat (length devs) + 1 ->
  topology_sysfs_get_mem_props i w = Some (st, b, w') ->
  st = HSAKMT_STATUS_SUCCESS /\ (i = 0 -> exists size, b = mkMemoryProperties HSA_HEAPTYPE_SYSTEM size 64 2133 0) /\
  (0 < i -> exists d, devs !! Z.to_nat (i - 1) = Some d /\ b = gpu_bank d).
Proof.
  intros Hw Hi Hrun. unfold topology_sysfs_get_mem_props in Hrun. destruct (Z.eqb_spec i 0) as [->|Hne].
  { apply M_bind_Some in Hrun as (info & w1 & _ & Hrun). apply M_bind_Some in Hrun as (_ & w2 & _ & [= <- <- _]).
    split_and!; [done|by eexists|lia]. }
  apply M_bind_Some in Hrun as (o & w1 & H1 & Hrun). destruct (map_node_spec _ _ _ _ _ Hw H1) as (-> & _ & Hsome).
  destruct Hsome as (d & -> & Hd); [lia|]. injection Hrun as <- <- _. split_and!; [done|done|by exists d].
Qed.

Lemma snap_world_still {A} devs (m : M K A) w x w' : still node_view m -> m w = Some (x, w') -> snap_world devs w -> snap_world devs w'.
Proof. intros Hm Hrun [Hne Hv]. split; [done|]. by rewrite (Hm _ _ _ Hrun). Qed.

Lemma node_caches_spec i vendor cpuinfo dev t w st t' w' :
  node_caches i vendor cpuinfo dev t w = Some (st, t', w') -> st = HSAKMT_STATUS_SUCCESS -> NumCaches (np_node t) = 0 \/ NumCaches (np_node t) = 3 ->
  np_mem t' = np_mem t /\ np_link t' = np_link t /\
  ((exists d, dev = Some d /\ NumCaches (np_node t) = 3 /\ np_node t' = np_node t /\ (fun c => (CacheLevel c, CacheSize c)) <$> np_cache t' =
     [(1, sd_L1CacheSize (shared_dev_ d) / 1024); (2, sd_L2CacheSize (shared_dev_ d) / 1024); (3, sd_L3CacheSize (shared_dev_ d) / 1024)]) \/
   NumCaches (np_node t) = 0 /\ (exists n, np_node t' = np_set_NumCaches n (np_node t) /\ n <= Z.of_nat (length (np_cache t')))).
Proof.
  intros Hrun -> Hn. unfold node_caches in Hrun. destruct (Z.eqb_spec (NumCaches (np_node t)) 0) as [E|E]; cbn [negb] in Hrun.
  - destruct (KFDGpuID (np_node t) =? 0).
    + apply M_bind_Some in Hrun as ([[ret l] n] & w1 & H1 & Hrun). injection Hrun as -> <- _. cbn [np_mem np_link np_node np_cache].
      split_and!; [done..|]. right. split; [done|]. destruct n as [n|].
      * exists n. split; [done|]. unfold topology_get_cpu_cache_props in H1.
        apply M_bind_Some in H1 as (p9 & w2 & _ & H1). apply M_bind_Some in H1 as (m & w3 & _ & H1).
        apply M_bind_Some in H1 as (dir & w4 & _ & H1). destruct dir as [dir|]; [|done].
        apply M_bind_Some in H1 as (o & w5 & _ & H1). apply M_bind_Some in H1 as (names & w6 & _ & H1).
        apply M_bind_Some in H1 as ([[fin cnt] cache] & w7 & _ & H1). destruct fin; [|done].
        apply M_bind_Some in H1 as (u8 & w8 & H8 & Hret). injection Hret as <- <- _. unfold massert in H8.
        destruct (Z.eqb_spec cnt (Z.of_nat (length cache))); [lia|done].
      * exists 0. split; [by destruct t as [[] ? ? ?]; cbn in *; subst|]. lia.
    + injection Hrun as <- _. split_and!; [done..|]. right. split; [done|]. exists 0. split; [by destruct t as [[] ? ? ?]; cbn in *; subst|lia].
  - destruct Hn as [?|Hn]; [done|]. apply M_bind_Some in Hrun as (d & w1 & H1 & Hrun). destruct dev as [d'|]; [|done].
    injection H1 as -> <-. apply M_bind_Some in Hrun as (l & w2 & H2 & Hrun). injection Hrun as <- _. cbn [np_mem np_link np_node np_cache].
    split_and!; [done..|]. left. exists d. split_and!; [done..|].
    revert H2. unfold gpu_caches. pose proof (length_resize (NumCaches (np_node t)) cache_zero (np_cache t)) as Hl. rewrite Hn in *.
    destruct (resize 3 cache_zero (np_cache t)) as [|c1 [|c2 [|c3 [|]]]]; try done. by intros [= <- <-].
Qed.

Lemma node_links_one devs w i link id link' w' : snap_world devs w -> 0 < i < Z.of_nat (length devs) + 1 -> link <> [] ->
  node_links 1 i 0 link w = Some (id, link', w') ->
  id = 1 /\ exists d rest, devs !! Z.to_nat (i - 1) = Some d /\ link' = gpu_link i d :: rest /\ length link' = length link.
Proof.
  intros Hw Hi Hne Hrun. cbn [node_links] in Hrun. destruct link as [|l0 link]; [done|].
  destruct (Z.ltb_spec 0 (Z.of_nat (length (l0 :: link)))) as [_|Hl]; [|cbn in Hl; lia].
  apply M_bind_Some in Hrun as (l & w1 & H1 & [= <- <- _]). split; [done|].
  apply M_bind_Some in H1 as (o & w2 & H2 & H1). destruct (map_node_spec _ _ _ _ _ Hw H2) as (-> & _ & Hsome).
  destruct Hsome as (d & -> & Hd); [lia|]. apply M_bind_Some in H1 as (d' & w3 & [= <- <-] & [= <- _]).
  exists d, link. by split_and!.
Qed.
End node.

Section snapshot.
Context {K : Type} `{Kernel K}.

Lemma cpu_model_name_keeps cpuinfo p :
  let p' := topology_get_cpu_model_name cpuinfo p in
  KFDGpuID p' = KFDGpuID p /\ NumMemoryBanks p' = NumMemoryBanks p /\ NumCaches p' = NumCaches p /\ NumIOLinks p' = NumIOLinks p.
Proof.
  induction cpuinfo as [|c l IH]; [done|]. cbn [topology_get_cpu_model_name]. case_match; [|exact IH]. by case_match.
Qed.

Lemma node_banks_one devs w i st mem m0 w' : snap_world devs w -> 0 <= i < Z.of_nat (length devs) + 1 ->
  node_banks [0] i [m0] w = Some (st, mem, w') ->
  st = HSAKMT_STATUS_SUCCESS /\ (i = 0 -> exists size, mem = [mkMemoryProperties HSA_HEAPTYPE_SYSTEM size 64 2133 0]) /\
  (0 < i -> exists d, devs !! Z.to_nat (i - 1) = Some d /\ mem = [gpu_bank d]).
Proof.
  intros Hw Hi Hrun. cbn [node_banks] in Hrun. apply M_bind_Some in Hrun as ([ret b] & w1 & H1 & Hrun).
  destruct (mem_props_spec _ _ _ _ _ _ Hw Hi H1) as (-> & Hc & Hg). rewrite decide_True in Hrun by done.
  injection Hrun as <- <- _. split_and!; [done|..].
  - intros Hi0. destruct (Hc Hi0) as [size ->]. by exists size.
  - intros Hi0. destruct (Hg Hi0) as (d & Hd & ->). by exists d.
Qed.

Lemma resize_one {A} (x : A) l : exists y, resize 1 x l = [y].
Proof. pose proof (length_resize 1 x l) as Hl. destruct (resize 1 x l) as [|y [|]]; [done|by exists y|done]. Qed.

Lemma snapshot_node_spec devs w vendor mhz cpuinfo i t t' w' : snap_world devs w -> 0 <= i < Z.of_nat (length devs) + 1 ->
  snapshot_node (Z.of_nat (length devs) + 1) vendor mhz cpuinfo i t w = Some (HSAKMT_STATUS_SUCCESS, t', w') ->
  node_ok devs i t'.
Proof.
  intros Hw Hi Hrun. unfold snapshot_node in Hrun.
  apply M_bind_Some in Hrun as (dev & w1 & Hmap & Hrun). destruct (map_node_spec _ _ _ _ _ Hw Hmap) as (-> & Hdev0 & Hdev).
  apply M_bind_Some in Hrun as ([ret p] & w2 & Hp & Hrun). case_bool_decide as Hret; [|by injection Hrun as ->].
  destruct (node_props_spec _ _ _ _ _ _ _ Hw Hi Hp Hret) as [Hp0 Hp1]. cbn [negb] in Hrun.
  pose proof (snap_world_still _ _ _ _ _ (node_props_still _ _) Hp Hw) as Hw2.
  apply M_bind_Some in Hrun as (u & w3 & Hdg & Hrun). pose proof (snap_world_still _ _ _ _ _ (dgpu_still _) Hdg Hw2) as Hw3.
  set (p' := if negb (NumCPUCores p =? 0) then topology_get_cpu_model_name cpuinfo p else p) in Hrun.
  assert (NumMemoryBanks p' = 1 /\ (NumCaches p' = 0 \/ NumCaches p' = 3) /\ (i = 0 -> KFDGpuID p' = 0 /\ NumIOLinks p' = 0) /\
    (0 < i -> NumCaches p' = 3 /\ NumIOLinks p' = 1 /\ exists d o, devs !! Z.to_nat (i - 1) = Some d /\
       p' = gpu_node_props_done (shared_dev_ d) o (gpu_node_props (shared_dev_ d) i mhz))) as (Hbanks & Hcaches & H0 & H1).
  { destruct (Z.eqb_spec i 0) as [->|Hne].
    - destruct (Hp0 eq_refl) as (E1 & E2 & E3 & E4). unfold p'. pose proof (cpu_model_name_keeps cpuinfo p) as (F1 & F2 & F3 & F4).
      destruct (negb _); [rewrite F1, F2, F3, F4|]; (split_and!; [done|by left|done|lia]).
    - destruct Hp1 as (d & o & Hd & ->); [lia|]. unfold p'. cbn [NumCPUCores gpu_node_props_done gpu_node_props Z.eqb negb].
      split_and!; [done|by right|done|]. intros _. split_and!; [done|done|by exists d, o]. }
  clearbody p'. rewrite Hbanks in Hrun. cbn [Z.eqb] in Hrun. destruct (resize_one mem_zero (np_mem t)) as [m0 Hm0]. rewrite Hm0 in Hrun.
  apply M_bind_Some in Hrun as ([ret2 mem] & w4 & Hmem & Hrun). change (seqZ 0 1) with [0] in Hmem.
  destruct (node_banks_one _ _ _ _ _ _ _ Hw3 Hi Hmem) as (-> & Hm & Hmg). cbn [negb bool_decide decide] in Hrun.
  pose proof (snap_world_still _ _ _ _ _ (node_banks_still _ _ _) Hmem Hw3) as Hw4.
  rewrite bool_decide_eq_true_2 in Hrun by done. cbn [negb] in Hrun.
  apply M_bind_Some in Hrun as ([ret3 t3] & w5 & Hc & Hrun). case_bool_decide as Hret3; [|by injection Hrun as ->].
  destruct (node_caches_spec _ _ _ _ _ _ _ _ _ Hc Hret3 Hcaches) as (Hmem3 & Hlink3 & Hcase). cbn [np_mem np_link np_node] in Hmem3, Hlink3, Hcase.
  pose proof (snap_world_still _ _ _ _ _ (node_caches_still _ _ _ _ _) Hc Hw4) as Hw5. cbn [negb] in Hrun.
  pose proof (length_resize (Z.of_nat (length devs) + 1 - 1) link_zero (np_link t3)) as Hlen.
  destruct Hw as [Hne _]. assert (0 < length devs)%nat as Hpos by (destruct devs; [done|cbn; lia]).
  destruct (Z.eqb_spec i 0) as [->|Hi0].
  - left. split; [done|]. destruct (H0 eq_refl) as [Hgpu Hio]. destruct (Hm eq_refl) as [size Hsize].
    destruct Hcase as [(d & Hd & _)|(Hnc & n & Hn3 & Hle)]; [by rewrite Hdev0 in Hd|].
    rewrite Hn3 in Hrun. cbn [NumIOLinks np_set_NumCaches] in Hrun. rewrite Hio in Hrun. cbn [Z.eqb] in Hrun. injection Hrun as _ <- _.
    split; cbn [np_node np_mem np_cache np_link]; rewrite ?Hn3; cbn; try done; [exists size; congruence|rewrite Hlen; lia].
  - right. split; [lia|]. destruct H1 as (Hnc & Hio & d & o & Hd & Hp'); [lia|]. destruct (Hmg ltac:(lia)) as (d2 & Hd2 & Hmem2).
    destruct Hdev as (d3 & -> & Hd3); [lia|]. exists d. split; [done|].
    destruct Hcase as [(d4 & Hd4 & _ & Hn3 & Hcs)|(Hnc' & _)]; [|congruence].
    rewrite Hn3, Hio in Hrun. cbn [Z.eqb Z.to_nat] in Hrun. apply M_bind_Some in Hrun as ([id link] & w6 & Hl & Hrun).
    injection Hrun as _ <- _. change (Pos.to_nat 1) with 1%nat in Hl.
    assert (0 < i < Z.of_nat (length devs) + 1) as Hi' by lia.
    assert (resize (Z.of_nat (length devs) + 1 - 1) link_zero (np_link t3) <> []) as Hlne.
    { intros E. rewrite E in Hlen. cbn [length] in Hlen. lia. }
    destruct (node_links_one devs _ _ _ _ _ _ Hw5 Hi' Hlne Hl)
      as (-> & d5 & rest & Hd5 & Hlink & Hll).
    assert (d2 = d /\ d3 = d /\ d4 = d /\ d5 = d) as (-> & -> & -> & ->) by (split_and!; congruence).
    split; cbn [np_node np_mem np_cache np_link].
    + exists mhz, o. by rewrite Hp'.
    + congruence.
    + done.
    + by exists rest.
    + rewrite Hll, Hlen. lia.
Qed.

Lemma TM_bind_Some {A B} (m : TM K A) (f : A -> TM K B) T w y T2 w2 :
  (m ≫= f) T w = Some (y, T2, w2) <-> exists x T1 w1, m T w = Some (x, T1, w1) /\ f x T1 w1 = Some (y, T2, w2).
Proof. unfold mbind, TM_bind. destruct (m T w) as [[[x T1] w1]|]; naive_solver. Qed.

Lemma tlift_Some {A} (m : M K A) T w x T' w' : tlift m T w = Some (x, T', w') <-> T' = T /\ m w = Some (x, w').
Proof. unfold tlift. destruct (m w) as [[y w1]|]; naive_solver. Qed.

(** The nodes [ids] are read one by one. *)
Lemma snapshot_nodes_spec devs mhz cpuinfo ids : forall T w T' w', snap_world devs w -> NoDup ids ->
  (forall i, i ∈ ids -> 0 <= i < Z.of_nat (length devs) + 1) ->
  snapshot_nodes ids (Z.of_nat (length devs) + 1) mhz cpuinfo T w = Some (HSAKMT_STATUS_SUCCESS, T', w') ->
  snap_world devs w' /\ w_devs w' = w_devs w /\ length (g_props T') = length (g_props T) /\
  (forall i t, 0 <= i -> i ∉ ids -> g_props T' !! Z.to_nat i = Some t -> g_props T !! Z.to_nat i = Some t) /\
  (forall i t, i ∈ ids -> g_props T' !! Z.to_nat i = Some t -> node_ok devs i t).
Proof.
  induction ids as [|i ids IH]; intros T w T' w' Hw Hnd Hr Hrun; cbn [snapshot_nodes] in Hrun.
  { injection Hrun as <- <-. split_and!; try done. by intros i t []%elem_of_nil. }
  apply TM_bind_Some in Hrun as (t & T1 & w1 & H1 & Hrun). apply TM_bind_Some in Hrun as (v & T2 & w2 & [= <- <- <-] & Hrun).
  apply TM_bind_Some in H1 as (l & T3 & w3 & [= <- <- <-] & [-> H1]%tlift_Some).
  unfold mderef in H1. destruct (g_props T !! Z.to_nat i) as [t0|] eqn:Ei; [|done]. injection H1 as -> <-.
  apply TM_bind_Some in Hrun as ([ret t1] & T4 & w4 & [-> Hsn]%tlift_Some & Hrun).
  apply TM_bind_Some in Hrun as (u & T5 & w5 & H5 & Hrun). injection H5 as <- <- <-.
  destruct (decide (ret = HSAKMT_STATUS_SUCCESS)) as [->|]; [|by injection Hrun as ->].
  pose proof (snapshot_node_spec _ _ _ _ _ _ _ _ _ Hw (Hr i ltac:(left)) Hsn) as Hok.
  pose proof (snapshot_node_still _ _ _ _ _ _ _ _ _ Hsn) as Hst.
  apply NoDup_cons in Hnd as [Hni Hnd].
  destruct (IH _ _ _ _ (snap_world_still _ _ _ _ _ (snapshot_node_still _ _ _ _ _ _) Hsn Hw) Hnd
    (fun j Hj => Hr j (list_elem_of_further _ _ _ Hj)) Hrun) as (Hw' & Hdevs & Hlen & Hout & Hin).
  cbn [tp_set_props g_props] in Hlen, Hout. rewrite length_insert in Hlen.
  assert (0 <= i) as Hi by (destruct (Hr i); [left|lia]).
  split; [done|]. split; [injection Hst; congruence|]. split; [done|]. split.
  - intros j t' Hj [Hne Hnj]%not_elem_of_cons Ht. specialize (Hout j t' Hj Hnj Ht). rewrite list_lookup_insert_ne in Hout; [done|lia].
  - intros j t' [->|Hj]%elem_of_cons Ht; [|by apply Hin]. specialize (Hout i t' Hi Hni Ht).
    rewrite list_lookup_insert_eq in Hout by (by apply lookup_lt_Some in Ei). by injection Hout as <-.
Qed.
End snapshot.

(** ** Links *)

Lemma node_ok_at devs l i : well_formed devs l -> 0 <= i < Z.of_nat (length devs) + 1 -> exists t, l !! Z.to_nat i = Some t /\ node_ok devs i t.
Proof.
  intros [Hlen Hok] Hi. destruct (lookup_lt_is_Some_2 l (Z.to_nat i)) as [t Ht]; [lia|]. exists t. split; [done|]. apply Hok; [done|lia].
Qed.

(** The processor of an adapter is node 0. *)
Lemma direct_link_cpu devs l i t : devs <> [] -> l !! Z.to_nat i = Some t -> node_ok devs i t -> KFDGpuID (np_node t) <> 0 ->
  gpu_get_direct_link_cpu i l = Some 0.
Proof.
  intros Hne Ht [[-> Hc]|[Hi (d & Hd & Hg)]] Hid; [by destruct (cn_gpu _ _ Hc)|].
  unfold gpu_get_direct_link_cpu. rewrite Ht. cbn [mbind option_bind]. rewrite (proj2 (Z.eqb_neq _ _) Hid).
  destruct Hg as [(mhz & o & Hn) _ _ (rest & Hl) _]. rewrite Hl, bool_decide_eq_false_2 by done. cbn [orb].
  unfold num_links. rewrite Hn. reflexivity.
Qed.

Lemma indirect_weightless devs l i j : devs <> [] -> well_formed devs l -> i <> j ->
  0 <= i < Z.of_nat (length devs) + 1 -> 0 <= j < Z.of_nat (length devs) + 1 ->
  exists st ty, get_indirect_iolink_info i j l = Some (st, 0, ty).
Proof.
  intros Hne Hwf Hij Hi Hj. destruct (node_ok_at _ _ i Hwf Hi) as (t1 & Ht1 & Hok1). destruct (node_ok_at _ _ j Hwf Hj) as (t2 & Ht2 & Hok2).
  unfold get_indirect_iolink_info. rewrite (proj2 (Z.eqb_neq _ _) Hij), Ht1, Ht2. cbn [mbind option_bind].
  destruct (Z.eqb_spec (KFDGpuID (np_node t1)) 0) as [E1|E1], (Z.eqb_spec (KFDGpuID (np_node t2)) 0) as [E2|E2]; cbn [andb negb].
  - by eexists _, _.
  - case_match; [by eexists _, _|]. rewrite (direct_link_cpu _ _ _ _ Hne Ht2 Hok2 E2). cbn.
    destruct Hok2 as [[-> Hc]|[Hj' (d & Hd & Hg)]]; [by destruct (cn_gpu _ _ Hc)|]. destruct Hg as [(mhz & o & Hn) Hm _ _ _].
    rewrite Hm. rewrite Hn. cbn. by eexists _, _.
  - case_match; [by eexists _, _|]. rewrite (direct_link_cpu _ _ _ _ Hne Ht1 Hok1 E1). cbn.
    destruct Hok1 as [[-> Hc]|[Hi' (d & Hd & Hg)]]; [by destruct (cn_gpu _ _ Hc)|]. destruct Hg as [(mhz & o & Hn) _ _ (rest & Hl) _].
    destruct (node_ok_at _ _ 0 Hwf) as (t0 & Ht0 & [[_ Hc]|[? _]]); [lia| |lia].
    unfold get_direct_iolink_info. rewrite Ht1, Ht0. cbn [mbind option_bind].
    rewrite Hl, bool_decide_eq_false_2 by done. unfold num_links. rewrite Hn, (cn_links _ _ Hc). cbn.
    case_bool_decide; by eexists _, _.
  - case_match; [by eexists _, _|]. rewrite (direct_link_cpu _ _ _ _ Hne Ht1 Hok1 E1), (direct_link_cpu _ _ _ _ Hne Ht2 Hok2 E2). cbn.
    destruct Hok2 as [[-> Hc]|[Hj' (d & Hd & Hg)]]; [by destruct (cn_gpu _ _ Hc)|]. destruct Hg as [(mhz & o & Hn) Hm _ _ _].
    rewrite Hm. rewrite Hn. cbn. by eexists _, _.
Qed.

Lemma indirect_links_none devs l pairs : devs <> [] -> well_formed devs l ->
  Forall (fun '(i, j) => i <> j /\ 0 <= i < Z.of_nat (length devs) + 1 /\ 0 <= j < Z.of_nat (length devs) + 1) pairs ->
  indirect_links pairs (Z.of_nat (length devs) + 1) l = Some l.
Proof.
  intros Hne Hwf. induction 1 as [|[i j] pairs (Hij & Hi & Hj) _ IH]; [done|]. cbn [indirect_links]. unfold add_indirect_link.
  destruct (indirect_weightless _ _ i j Hne Hwf Hij Hi Hj) as (st & ty & ->). cbn.
  destruct (indirect_weightless _ _ j i Hne Hwf (not_eq_sym Hij) Hj Hi) as (st' & ty' & ->). cbn. exact IH.
Qed.

Lemma node_pairs_ok N : Forall (fun '(i, j) => i <> j /\ 0 <= i < N /\ 0 <= j < N) (node_pairs N).
Proof.
  apply Forall_forall. intros [i j] Hin. unfold node_pairs in Hin.
  apply list_elem_of_bind in Hin as (i' & Hin & Hi). apply list_elem_of_bind in Hin as (j' & Hin & Hj).
  apply list_elem_of_singleton in Hin as [= <- <-]. apply elem_of_seqZ in Hi, Hj. lia.
Qed.

(** On the nodes of any snapshot, adding the indirect links between adapters is the
    identity: no adapter shows memory the processor can see, and node 0 has no link of
    its own. *)
Theorem indirect_links_identity devs l :
  devs <> [] -> well_formed devs l -> topology_create_indirect_gpu_links (Z.of_nat (length devs) + 1) l = Some l.
Proof. intros Hne Hwf. apply (indirect_links_none _ _ _ Hne Hwf), node_pairs_ok. Qed.

(** ** The acquisition *)

Section acquire.
Context {K : Type} `{Kernel K}.

Lemma T_CHECK_open {R} (err : HSAKMT_STATUS -> R) (m : TM K R) T w : library_open w -> T_CHECK_DXG_OPEN err m T w = m T w.
Proof.
  intros [Hc Hf]. unfold T_CHECK_DXG_OPEN. change (tlift get_rt) with (fun (T : Topology) (w : World K) => Some (w_rt w, T, w)).
  unfold mbind, TM_bind. by rewrite (proj2 (Z.eqb_neq _ _) Hc), Hf.
Qed.

(** The system properties: as many nodes as devices, and one. *)
Lemma system_props_spec T w st N T' w' :
  topology_sysfs_get_system_props T w = Some (st, N, T', w') -> st = HSAKMT_STATUS_SUCCESS ->
  g_props T' = g_props T /\ snap_world (w_devs w') w' /\ N = Z.of_nat (length (w_devs w')) + 1.
Proof.
  intros Hrun ->. unfold topology_sysfs_get_system_props in Hrun.
  apply TM_bind_Some in Hrun as (? & T1 & w1 & [-> _]%tlift_Some & Hrun).
  apply TM_bind_Some in Hrun as (? & T2 & w2 & [-> _]%tlift_Some & Hrun).
  apply TM_bind_Some in Hrun as (p & T3 & w3 & Hp & Hrun). injection Hp as <- <- <-.
  apply TM_bind_Some in Hrun as (? & T4 & w4 & [-> _]%tlift_Some & Hrun).
  apply TM_bind_Some in Hrun as (p & T5 & w5 & [-> _]%tlift_Some & Hrun).
  apply TM_bind_Some in Hrun as (? & T6 & w6 & Hs & Hrun). injection Hs as _ <- <-.
  apply TM_bind_Some in Hrun as (n & T7 & w7 & [-> Hn]%tlift_Some & Hrun). injection Hn as <- <-.
  destruct (Z.eqb_spec (Z.of_nat (length (w_devs w5))) 0) as [|Hne]; [by injection Hrun|].
  apply TM_bind_Some in Hrun as (? & T8 & w8 & [-> Hn]%tlift_Some & Hrun). injection Hn as _ <-.
  apply TM_bind_Some in Hrun as (? & T9 & w9 & [-> Hi]%tlift_Some & Hrun).
  pose proof (HeapInit_still _ _ _ Hi) as Hv. apply TM_bind_Some in Hrun as (? & T10 & w10 & [-> Hd]%tlift_Some & Hrun).
  pose proof (mod_rt_still _ _ _ _ Hd) as Hv2. injection Hrun as <- <- <-.
  rewrite Hv in Hv2. cbn in Hv2. split; [done|]. injection Hv2 as Hv2 Hv3. rewrite Hv2.
  split; [|done]. split; [by intros E; rewrite E in Hne|]. unfold node_view. by rewrite Hv2, Hv3.
Qed.

Lemma take_snapshot_spec T w T' w' : topology_take_snapshot T w = Some (HSAKMT_STATUS_SUCCESS, T', w') ->
  snap_world (w_devs w') w' /\ g_system T' = Some (Z.of_nat (length (w_devs w')) + 1) /\ well_formed (w_devs w') (g_props T').
Proof.
  intros Hrun. unfold topology_take_snapshot in Hrun.
  apply TM_bind_Some in Hrun as (n & T1 & w1 & [-> _]%tlift_Some & Hrun).
  apply TM_bind_Some in Hrun as (v & T2 & w2 & Hv & Hrun). injection Hv as <- <- <-.
  apply TM_bind_Some in Hrun as (f & T3 & w3 & Hf & Hrun). injection Hf as <- <- <-.
  apply TM_bind_Some in Hrun as ([[cpuinfo v'] f'] & T4 & w4 & [-> _]%tlift_Some & Hrun).
  apply TM_bind_Some in Hrun as (? & T5 & w5 & Hs & Hrun). injection Hs as _ <- <-.
  apply TM_bind_Some in Hrun as ([ret N] & T6 & w6 & Hs & Hrun). case_bool_decide as Hret; [|by injection Hrun as ->].
  destruct (system_props_spec _ _ _ _ _ _ Hs Hret) as (_ & Hw & ->). cbn [negb] in Hrun.
  apply TM_bind_Some in Hrun as (? & T7 & w7 & Hr & Hrun). injection Hr as _ <- <-.
  apply TM_bind_Some in Hrun as (ret2 & T8 & w8 & Hn & Hrun). case_bool_decide as Hret2; [|by injection Hrun as ->].
  subst ret2. set (devs := w_devs w6) in *.
  assert (forall i, i ∈ seqZ 0 (Z.of_nat (length devs) + 1) -> 0 <= i < Z.of_nat (length devs) + 1) as Hids.
  { intros i Hi%elem_of_seqZ. lia. }
  destruct (snapshot_nodes_spec devs _ _ _ _ _ _ _ Hw (NoDup_seqZ _ _) Hids Hn) as (Hw8 & Hd8 & Hlen & _ & Hok).
  cbn [tp_set_props g_props negb] in Hlen, Hrun. rewrite length_resize in Hlen.
  assert (well_formed devs (g_props T8)) as Hwf.
  { split; [lia|]. intros i t Ht Hi. apply Hok; [|done]. apply elem_of_seqZ. apply lookup_lt_Some in Ht. lia. }
  apply TM_bind_Some in Hrun as (l & T9 & w9 & Hl & Hrun). injection Hl as <- <- <-.
  apply TM_bind_Some in Hrun as (l & T10 & w10 & [-> Hl]%tlift_Some & Hrun).
  unfold topology_create_indirect_gpu_links in Hl.
  rewrite (indirect_links_none _ _ _ (proj1 Hw) Hwf (node_pairs_ok _)) in Hl. injection Hl as <- <-.
  apply TM_bind_Some in Hrun as (? & T11 & w11 & Hp & Hrun). injection Hp as _ <- <-.
  apply TM_bind_Some in Hrun as (? & T12 & w12 & Hp & Hrun). injection Hp as _ <- <-. injection Hrun as <- <-.
  rewrite Hd8. fold devs. by split_and!.
Qed.
End acquire.

(** C22: A successful acquisition of the system properties, whatever was there before and
    whatever the system answers, leaves a well-formed snapshot: one node more than
    devices, the processor as node 0 and each adapter as the node of its number, every
    count of banks, caches and links backed by that many entries, an adapter's node the
    image of its device, linked to node 0 only. *)
Theorem acquire_well_formed {K} `{Kernel K} x T w N T' w' :
  library_open w -> g_system T = None ->
  hsaKmtAcquireSystemProperties (Some x) T w = Some (HSAKMT_STATUS_SUCCESS, N, T', w') ->
  let devs := w_devs w' in
  N = Some (Z.of_nat (length devs) + 1) /\ g_system T' = N /\ snap_world devs w' /\ well_formed devs (g_props T').
Proof.
  intros Ho Hs Hrun. unfold hsaKmtAcquireSystemProperties in Hrun. rewrite (T_CHECK_open _ _ _ _ Ho) in Hrun.
  apply TM_bind_Some in Hrun as (s & T1 & w1 & H1 & Hrun). injection H1 as <- <- <-. rewrite Hs in Hrun.
  apply TM_bind_Some in Hrun as (err & T2 & w2 & H2 & Hrun). case_bool_decide as Herr; [|by injection Hrun as ->]. subst err.
  destruct (take_snapshot_spec _ _ _ _ H2) as (Hw & Hsys & Hwf). cbn [negb] in Hrun.
  apply TM_bind_Some in Hrun as (s & T3 & w3 & H3 & Hrun). injection H3 as <- <- <-. rewrite Hsys in Hrun.
  apply TM_bind_Some in Hrun as (n & T4 & w4 & [-> H4]%tlift_Some & Hrun). injection H4 as <- <-. injection Hrun as <- <- <-.
  by split_and!.
Qed.

(** ** The getters *)

(** The two memory banks the library adds to an adapter's node. *)
Definition lds_bank (d : WDDMDevice) : HsaMemoryProperties :=
  mkMemoryProperties HSA_HEAPTYPE_GPU_LDS (u32 (sd_LdsSize (shared_dev_ d) / 1024 * 1024)) 0 0 (sd_SharedApertureBase (shared_dev_ d)).
Definition scratch_bank (d : WDDMDevice) : HsaMemoryProperties :=
  mkMemoryProperties HSA_HEAPTYPE_GPU_SCRATCH (sd_PrivateApertureSize (shared_dev_ d)) 0 0 (sd_PrivateApertureBase (shared_dev_ d)).

Section getters.
Context {K : Type} `{Kernel K}.

(** A library with a snapshot of the devices [devs]. *)
Record acquired (devs : list WDDMDevice) (T : Topology) (w : World K) : Prop := {
  ac_open : library_open w;
  ac_world : snap_world devs w;
  ac_system : g_system T = Some (Z.of_nat (length devs) + 1);
  ac_nodes : well_formed devs (g_props T);
}.

Lemma acquired_node devs T w i d : acquired devs T w -> 0 < i -> devs !! Z.to_nat (i - 1) = Some d ->
  i < Z.of_nat (length devs) + 1 /\ no_node T i = false /\
  exists t, g_props T !! Z.to_nat i = Some t /\ gpu_node (Z.of_nat (length devs) + 1) i d t.
Proof.
  intros Ha Hi Hd. pose proof (lookup_lt_Some _ _ _ Hd) as Hlt. assert (i < Z.of_nat (length devs) + 1) as Hlt' by lia.
  split; [done|]. destruct (node_ok_at _ _ i (ac_nodes _ _ _ Ha)) as (t & Ht & Hok); [lia|]. split.
  - unfold no_node. rewrite (ac_system _ _ _ Ha), bool_decide_eq_false_2 by (intros E; by rewrite E in Ht).
    apply Z.leb_gt. done.
  - exists t. split; [done|]. destruct Hok as [[-> _]|[_ (d' & Hd' & Hg)]]; [lia|]. by simplify_eq.
Qed.

Lemma get_props_at T w i t : g_props T !! Z.to_nat i = Some t -> get_props (K := K) i T w = Some (t, T, w).
Proof. intros Ht. unfold get_props, tget, tlift, mbind, TM_bind. by rewrite Ht. Qed.

Lemma map_node_at devs w i d : snap_world devs w -> 0 < i -> devs !! Z.to_nat (i - 1) = Some d ->
  topology_map_node_id (K := K) i w = Some (Some d, w).
Proof.
  intros [Hne [= Hd Hn]] Hi Hl. pose proof (lookup_lt_Some _ _ _ Hl) as Hlt. unfold topology_map_node_id, mbind, M_bind, get_wddmdev.
  rewrite Hd, Hn, Hl. destruct (Nat.eqb_spec (length devs) 0); [by destruct devs|]. rewrite (proj2 (Z.eqb_neq i 0)) by lia.
  rewrite (proj2 (Z.leb_gt _ _)) by lia. cbn [orb]. unfold get_dev. by rewrite Hd, Hl.
Qed.

Lemma TM_bind_step {A B} (m : TM K A) (f : A -> TM K B) T w x T1 w1 : m T w = Some (x, T1, w1) -> (m ≫= f) T w = f x T1 w1.
Proof. unfold mbind, TM_bind. by intros ->. Qed.
(** An adapter's node, and the steps of the getters on it. *)
Context (devs : list WDDMDevice) (T : Topology) (w : World K) (i : Z) (d : WDDMDevice).
Context (Ha : acquired devs T w) (Hi : 0 < i) (Hd : devs !! Z.to_nat (i - 1) = Some d).

Lemma acquired_props : exists t, get_props (K := K) i T w = Some (t, T, w) /\ gpu_node (Z.of_nat (length devs) + 1) i d t.
Proof using Ha Hi Hd. destruct (acquired_node _ _ _ _ _ Ha Hi Hd) as (_ & _ & t & Ht & Hg). exists t. split; [by apply get_props_at|done]. Qed.

Lemma acquired_system : (match g_system T with None => true | Some n => n <=? i end) = false.
Proof using Ha Hi Hd. rewrite (ac_system _ _ _ Ha). apply Z.leb_gt. by destruct (acquired_node _ _ _ _ _ Ha Hi Hd). Qed.

Lemma acquired_known : no_node T i = false.
Proof using Ha Hi Hd. by destruct (acquired_node _ _ _ _ _ Ha Hi Hd) as (_ & Hno & _). Qed.

Lemma node_properties_at abi dst : sd_DeviceId (shared_dev_ d) <> 0 -> abi <= 0 \/ 368 <= abi ->
  exists p, hsaKmtGetNodeProperties abi i (Some dst) T w = Some (HSAKMT_STATUS_SUCCESS, Some p, T, w) /\
     KFDGpuID p = sd_DeviceId (shared_dev_ d) /\ NumMemoryBanks p = 4 /\ NumCaches p = 3 /\ NumIOLinks p = 1.
Proof using Ha Hi Hd.
  intros Hid Habi. destruct acquired_props as (t & Hgp & [(mhz & o & Hnode) _ _ _ _]).
  unfold hsaKmtGetNodeProperties. rewrite (T_CHECK_open _ _ _ _ (ac_open _ _ _ Ha)). unfold validate_nodeid, topology_get_node_props.
  eexists. split.
  { erewrite TM_bind_step by (erewrite TM_bind_step by reflexivity; cbv beta; rewrite acquired_known; erewrite TM_bind_step by exact Hgp; reflexivity).
    cbv beta iota. rewrite bool_decide_eq_true_2 by done. cbn [negb].
    erewrite TM_bind_step by (erewrite TM_bind_step by reflexivity; cbv beta; rewrite acquired_known; erewrite TM_bind_step by exact Hgp; reflexivity).
    cbv beta iota. rewrite bool_decide_eq_true_2 by done. cbn [negb]. reflexivity. }
  rewrite Hnode. cbn [KFDGpuID np_set_NumIOLinks gpu_node_props_done gpu_node_props]. rewrite (proj2 (Z.eqb_neq _ _) Hid).
  assert (368 <= copy_size abi) as Hcs by (unfold copy_size; destruct (Z.ltb_spec 0 abi); lia).
  cbn [KFDGpuID NumMemoryBanks NumCaches NumIOLinks Integrated copy_node_props np_set_NumMemoryBanks np_set_NumIOLinks
       gpu_node_props_done gpu_node_props].
  rewrite !(proj2 (Z.leb_le _ _)) by lia. by split_and!.
Qed.

Lemma memory_properties_at n mem : 0 <= n ->
  hsaKmtGetNodeMemoryProperties i n (Some mem) T w =
    Some (HSAKMT_STATUS_SUCCESS, Some (resize n mem_zero [gpu_bank d; lds_bank d; scratch_bank d]), T, w).
Proof using Ha Hi Hd.
  intros Hn. destruct acquired_props as (t & Hgp & [(mhz & o & Hnode) Hmem _ _ _]).
  unfold hsaKmtGetNodeMemoryProperties. rewrite (T_CHECK_open _ _ _ _ (ac_open _ _ _ Ha)). erewrite TM_bind_step by exact Hgp.
  assert (copy_banks (Z.min (NumMemoryBanks (np_node t)) n) t = Some (take (Z.to_nat (Z.min 1 n)) [gpu_bank d])) as Hcb.
  { unfold copy_banks. rewrite Hnode, Hmem. cbn [NumMemoryBanks np_set_NumIOLinks gpu_node_props_done gpu_node_props].
    destruct (Z.eq_dec n 0) as [->|]; [done|]. by replace (Z.min 1 n) with 1 by lia. }
  erewrite TM_bind_step by (unfold tlift; rewrite Hcb; reflexivity).
  erewrite TM_bind_step by (unfold tlift; rewrite (map_node_at _ _ _ _ (ac_world _ _ _ Ha) Hi Hd); reflexivity).
  unfold mret, TM_ret. rewrite Hnode. cbn [LDSSizeInKB np_set_NumIOLinks gpu_node_props_done gpu_node_props].
  fold (lds_bank d) (scratch_bank d). destruct (Z.eq_dec n 0) as [->|]; [done|]. by replace (Z.min 1 n) with 1 by lia.
Qed.

Lemma cache_properties_at n cache :
  exists l, hsaKmtGetNodeCacheProperties i n (Some cache) T w = Some (if n <=? 3
      then (HSAKMT_STATUS_SUCCESS, Some (take (Z.to_nat n) l ++ drop (Z.to_nat n) cache))
      else (HSAKMT_STATUS_INVALID_PARAMETER, Some cache), T, w) /\
    (fun c => (CacheLevel c, CacheSize c)) <$> l = [(1, sd_L1CacheSize (shared_dev_ d) / 1024);
      (2, sd_L2CacheSize (shared_dev_ d) / 1024); (3, sd_L3CacheSize (shared_dev_ d) / 1024)].
Proof using Ha Hi Hd.
  destruct acquired_props as (t & Hgp & [(mhz & o & Hnode) _ Hcache _ _]). exists (np_cache t). split; [|done].
  unfold hsaKmtGetNodeCacheProperties. rewrite (T_CHECK_open _ _ _ _ (ac_open _ _ _ Ha)).
  erewrite TM_bind_step by reflexivity. cbv beta. rewrite acquired_system. erewrite TM_bind_step by exact Hgp.
  replace (NumCaches (np_node t)) with 3 by (by rewrite Hnode). rewrite Z.ltb_antisym. destruct (Z.leb_spec n 3); cbn [negb]; [|done].
  erewrite TM_bind_step; [reflexivity|]. unfold tlift, massert.
  rewrite (proj2 (Z.leb_le _ _)); [done|]. apply (f_equal length) in Hcache. rewrite length_fmap in Hcache. cbn in Hcache. lia.
Qed.

Lemma link_properties_at n link : 0 <= n ->
  hsaKmtGetNodeIoLinkProperties i n (Some link) T w = Some (if n <=? 1
      then (HSAKMT_STATUS_SUCCESS, Some (take (Z.to_nat n) [gpu_link i d] ++ drop (Z.to_nat n) link))
      else (HSAKMT_STATUS_INVALID_PARAMETER, Some link), T, w).
Proof using Ha Hi Hd.
  intros Hn. destruct acquired_props as (t & Hgp & [(mhz & o & Hnode) _ _ (rest & Hlink) _]).
  unfold hsaKmtGetNodeIoLinkProperties. rewrite (T_CHECK_open _ _ _ _ (ac_open _ _ _ Ha)).
  erewrite TM_bind_step by reflexivity. cbv beta. rewrite acquired_system. erewrite TM_bind_step by exact Hgp.
  replace (NumIOLinks (np_node t)) with 1 by (by rewrite Hnode). rewrite Z.ltb_antisym.
  destruct (Z.leb_spec n 1) as [Hle|]; cbn [negb]; [|done].
  erewrite TM_bind_step by (unfold tlift, massert; rewrite bool_decide_eq_false_2 by (by rewrite Hlink); reflexivity).
  assert (n <=? Z.of_nat (length (np_link t)) = true) as Hnl by (apply Z.leb_le; rewrite Hlink; cbn [length]; lia).
  unfold topology_get_iolink_props.
  erewrite TM_bind_step by (erewrite TM_bind_step by reflexivity; cbv beta; rewrite acquired_known; erewrite TM_bind_step by exact Hgp;
    erewrite TM_bind_step by (unfold tlift, massert; rewrite Hnl; reflexivity); reflexivity).
  unfold mret, TM_ret. rewrite Hlink. assert (n = 0 \/ n = 1) as [-> | ->] by lia; done.
Qed.
End getters.

(** C23: After an acquisition, the getters on an adapter's node return what its device
    says, for any number of entries asked: its banks, three caches and one link, more
    caches or links than there are being refused. But the node counts four banks, and
    only three are filled in: the fourth reads as a bank of system memory of size 0. *)
Theorem adapter_getters {K} `{Kernel K} devs T (w : World K) i d abi dst n mem cache link :
  acquired devs T w -> 0 < i -> devs !! Z.to_nat (i - 1) = Some d -> sd_DeviceId (shared_dev_ d) <> 0 ->
  abi <= 0 \/ 368 <= abi -> 0 <= n ->
  (exists p, hsaKmtGetNodeProperties abi i (Some dst) T w = Some (HSAKMT_STATUS_SUCCESS, Some p, T, w) /\
     KFDGpuID p = sd_DeviceId (shared_dev_ d) /\ NumMemoryBanks p = 4 /\ NumCaches p = 3 /\ NumIOLinks p = 1) /\
  hsaKmtGetNodeMemoryProperties i n (Some mem) T w =
    Some (HSAKMT_STATUS_SUCCESS, Some (resize n mem_zero [gpu_bank d; lds_bank d; scratch_bank d]), T, w) /\
  (exists l, hsaKmtGetNodeCacheProperties i n (Some cache) T w = Some (if n <=? 3
      then (HSAKMT_STATUS_SUCCESS, Some (take (Z.to_nat n) l ++ drop (Z.to_nat n) cache))
      else (HSAKMT_STATUS_INVALID_PARAMETER, Some cache), T, w) /\
    (fun c => (CacheLevel c, CacheSize c)) <$> l = [(1, sd_L1CacheSize (shared_dev_ d) / 1024);
      (2, sd_L2CacheSize (shared_dev_ d) / 1024); (3, sd_L3CacheSize (shared_dev_ d) / 1024)]) /\
  hsaKmtGetNodeIoLinkProperties i n (Some link) T w = Some (if n <=? 1
      then (HSAKMT_STATUS_SUCCESS, Some (take (Z.to_nat n) [gpu_link i d] ++ drop (Z.to_nat n) link))
      else (HSAKMT_STATUS_INVALID_PARAMETER, Some link), T, w).
Proof.
  intros Ha Hi Hd Hid Habi Hn. split; [by apply (node_properties_at devs)|]. split; [by apply (memory_properties_at devs)|].
  split; [by apply (cache_properties_at devs)|by apply (link_properties_at devs)].
Qed.

(** ** The registers *)

(** The size of the vector registers is the same 256 KB for every device of a
    graphics generation from 1 on: the versions with more, 0x1100 for gfx1100, are
    compared with a number that has the generation in its third byte. *)
Theorem vgpr_size_constant sd o i mhz :
  1 <= sd_Major sd < 2 ^ 6 -> VGPRSizePerCU (gpu_node_props_done sd o (gpu_node_props sd i mhz)) = 0x40000.
Proof.
  intros Hm. cbn [VGPRSizePerCU gpu_node_props_done gpu_node_props]. unfold get_vgpr_size_per_cu, HSA_GET_GFX_VERSION_FULL.
  cbn [eng_Major eng_Minor eng_Stepping]. rewrite (Z.mod_small (sd_Major sd)) by lia.
  set (b := Z.shiftl (sd_Minor sd mod 2 ^ 8) 8). set (c := sd_Stepping sd mod 2 ^ 8).
  assert (0 <= b) as Hb by (apply Z.shiftl_nonneg, Z.mod_pos_bound; lia).
  assert (0 <= c) as Hc by (apply Z.mod_pos_bound; lia).
  assert (0 <= Z.shiftl (sd_Major sd) 16) as Ha by (apply Z.shiftl_nonneg; lia).
  set (v := Z.lor _ _). assert (2 ^ 16 <= v) as Hv.
  { apply Z.log2_le_pow2; [|unfold v; rewrite !Z.log2_lor by (rewrite ?Z.lor_nonneg; lia)].
    - assert (v <> 0); [|assert (0 <= v) by (unfold v; rewrite !Z.lor_nonneg; lia); lia].
      unfold v. rewrite !Z.lor_eq_0_iff, Z.shiftl_mul_pow2 by lia. lia.
    - rewrite Z.log2_shiftl by lia. pose proof (Z.log2_nonneg (sd_Major sd)). lia. }
  clearbody v. change (2 ^ 16) with 65536 in Hv. rewrite !(proj2 (Z.eqb_neq _ _)) by lia. done.
Qed.

(** ** A second attempt *)

(** The demonstration's environment with an override of the version that does not parse. *)
Record BadOverride := mkBadOverride { bo_kernel : DemoKernel }.

#[export] Instance bad_override_kernel : Kernel BadOverride := fun R c k =>
  let '(r, k') := kernel_step R c (bo_kernel k) in
  (match c in kcall R return R -> R with
   | sys_getenv name => fun r => if String.eqb name "HSA_OVERRIDE_GFX_VERSION" then Some "11"%string else r
   | _ => fun r => r
   end r, mkBadOverride k').

Definition bad_override_world : World BadOverride :=
  mkWorld (mkBadOverride (mkDemoKernel [] 20)) [] demo_rt [] ∅ 0x5000 [] SimpleHeap_new 0 true DxcoreLoader_new.

(** After a snapshot that fails on an adapter, here on the override of the version,
    the caches of the processor stay behind; the next attempt adds to them and fails the
    assertion on their number. *)
Theorem acquire_again_aborts :
  exists T w, hsaKmtAcquireSystemProperties (Some 0) (Topology_new (Platform_new 1)) bad_override_world =
      Some (HSAKMT_STATUS_ERROR, Some 0, T, w) /\
    length (g_props T) = 2%nat /\ hsaKmtAcquireSystemProperties (Some 0) T w = None.
Proof.
  destruct (hsaKmtAcquireSystemProperties (Some 0) (Topology_new (Platform_new 1)) bad_override_world) as [[[[st N] T] w]|] eqn:E;
    [|vm_compute in E; discriminate E].
  vm_compute in E. injection E as <- <- <- <-. eexists _, _. split; [reflexivity|]. split; vm_compute; reflexivity.
Qed.

(** ** Witnesses *)

Definition no_devices : World DemoKernel := set_devs [] (set_nodes 0 (demo_world [])).
Definition demo_topology : Topology := Topology_new (Platform_new 1).
#[local] Notation demo_snapshot := (topology_take_snapshot demo_topology no_devices).

Lemma demo_snapshot_ok :
  exists T w d, demo_snapshot = Some (HSAKMT_STATUS_SUCCESS, T, w) /\ acquired [d] T w /\ shared_dev_ d = demo_info.
Proof.
  assert ((fun x => (x.1.1, shared_dev_ <$> w_devs x.2, dxg_open_count (w_rt x.2), is_forked (w_rt x.2))) <$> demo_snapshot =
    Some (HSAKMT_STATUS_SUCCESS, [demo_info], 1, false)) as Hs by (vm_compute; reflexivity).
  destruct demo_snapshot as [[[st T] w]|] eqn:E; [|discriminate Hs]. cbn [fmap option_fmap option_map fst snd] in Hs.
  injection Hs as -> Hd Hc Hf. destruct (take_snapshot_spec _ _ _ _ E) as (Hw & Hsys & Hwf). clear E.
  destruct (w_devs w) as [|d [|]] eqn:Ed; [discriminate Hd| |discriminate Hd]. exists T, w, d. split; [reflexivity|].
  split; [|injection Hd as Hd; exact Hd].
  split; [split; [rewrite Hc; discriminate|exact Hf]|exact Hw|exact Hsys|exact Hwf].
Qed.

Lemma indirect_links_identity_witness :
  exists T w d, demo_snapshot = Some (HSAKMT_STATUS_SUCCESS, T, w) /\ topology_create_indirect_gpu_links 2 (g_props T) = Some (g_props T) /\
    shared_dev_ d = demo_info /\ w_devs w = [d].
Proof.
  destruct demo_snapshot_ok as (T & w & d & Hs & Ha & Hd). exists T, w, d. split; [exact Hs|]. split; [|split; [exact Hd|]].
  - apply (indirect_links_identity [d] (g_props T)); [discriminate|apply (ac_nodes _ _ _ Ha)].
  - destruct (ac_world _ _ _ Ha) as [_ Hv]. injection Hv as Hv _. exact Hv.
Defined.

Lemma acquire_well_formed_witness :
  match hsaKmtAcquireSystemProperties (Some 0) demo_topology no_devices with
  | Some (st, N, T, w) => st = HSAKMT_STATUS_SUCCESS /\ N = Some 2 /\ well_formed (w_devs w) (g_props T)
  | None => False
  end.
Proof.
  assert ((fun x => (x.1.1, length (w_devs x.2))) <$> hsaKmtAcquireSystemProperties (Some 0) demo_topology no_devices =
    Some (HSAKMT_STATUS_SUCCESS, Some 2, 1%nat)) as Hs by (vm_compute; reflexivity).
  destruct (hsaKmtAcquireSystemProperties (Some 0) demo_topology no_devices) as [[[[st N] T] w]|] eqn:E; [|discriminate Hs].
  cbn [fmap option_fmap option_map fst snd] in Hs. injection Hs as -> -> _.
  split; [reflexivity|]. split; [reflexivity|].
  refine (proj2 (proj2 (proj2 (acquire_well_formed 0 demo_topology no_devices (Some 2) T w _ _ E)))).
  - split; [discriminate|reflexivity].
  - reflexivity.
Defined.

Lemma adapter_getters_witness :
  exists T w d, demo_snapshot = Some (HSAKMT_STATUS_SUCCESS, T, w) /\
    hsaKmtGetNodeMemoryProperties 1 4 (Some []) T w =
      Some (HSAKMT_STATUS_SUCCESS, Some [gpu_bank d; lds_bank d; scratch_bank d; mem_zero], T, w).
Proof.
  destruct demo_snapshot_ok as (T & w & d & Hs & Ha & Hd). exists T, w, d. split; [exact Hs|].
  refine (proj1 (proj2 (adapter_getters [d] T w 1 d 0 np_zero 4 [] [] [] Ha _ _ _ _ _))).
  - lia.
  - reflexivity.
  - rewrite Hd. discriminate.
  - lia.
  - lia.
Defined.

Lemma vgpr_size_constant_witness :
  1 <= sd_Major demo_info < 2 ^ 6 /\ VGPRSizePerCU (gpu_node_props_done demo_info None (gpu_node_props demo_info 1 0)) = 0x40000.
Proof.
  assert (1 <= sd_Major demo_info < 2 ^ 6) as Hm by (cbn; lia). split; [exact Hm|]. exact (vgpr_size_constant demo_info None 1 0 Hm).
Defined.
