(* ===== verification/PlatformSpec.v ===== *)
(** * PlatformSpec: enumerating the adapters never uses an object that is gone

    A driver that first reports no adapter at all and then, a call later, some makes the
    enumeration dereference a null pointer; otherwise it goes through. With chains of one
    device, which is what drivers outside linked-adapter mode report, every device that is
    listed keeps its chain; with longer chains only the devices themselves are sure to be there. *)

From Stdlib Require Import String.
From S2P Require Import Prelude.
From S2P Require Import StdMap.
From S2P Require Import BitField.
From S2P Require Import Status.
From S2P Require Import World.
From S2P Require Import Runtime.
From S2P Require Import Device.
From S2P Require Import SimpleHeap.
From S2P Require Import Demo.
From S2P Require Import Queue.
From S2P Require Import Platform.
#[local] Open Scope Z_scope.

(** ** The environment *)

(** What the documentation of [D3DKMTEnumAdapters2] says: a count, and on success no more
    entries than there was room for. *)
Class EnumAdaptersOk (K : Type) `{Kernel K} : Prop := {
  enum_count : forall n k, 0 <= (kernel_step _ (D3DKMTEnumAdapters2 n) k).1.2.1;
  enum_bounded : forall n k, 0 < n -> ErrorCode_ok (TranslateNtStatus (kernel_step _ (D3DKMTEnumAdapters2 n) k).1.1) = true ->
    (kernel_step _ (D3DKMTEnumAdapters2 n) k).1.2.1 <= n;
}.

(** Between the two calls the first adapters appear: the first reports none, so the second
    passes no room and reports their number. *)
Definition adapters_appear {K} `{Kernel K} (k : K) : bool :=
  let '(r1, k1) := kernel_step _ (D3DKMTEnumAdapters2 0) k in
  let '(r2, _) := kernel_step _ (D3DKMTEnumAdapters2 0) k1 in
  ErrorCode_ok (TranslateNtStatus r1.1) && (r1.2.1 =? 0) && ErrorCode_ok (TranslateNtStatus r2.1) && (0 <? r2.2.1).

(** The devices of a chain: at most the four a chain has places for, or, [unlinked], without
    linked adapters, one. *)
Class GpuChains (K : Type) `{Kernel K} (unlinked : bool) : Prop :=
  gpus_bound : forall ctx k, (kernel_step _ (ChainContext_NumChainedGpus ctx) k).1 <= if unlinked then 1 else MaxGpusPerChain.

(** ** The objects *)

Definition live_device (unlinked : bool) (chains : list Z) (p : Platform) (d : Z) : Prop :=
  exists s, pl_devices p !! d = Some s /\ (unlinked = true -> lda_chain_ s ∈ chains).
Definition live_chain (p : Platform) (c : Z) : Prop := is_Some (pl_chains p !! c).

(** Every device that is listed is there and, [unlinked], its chain is listed or [extra];
    every chain that is listed is there. *)
Record platform_with (unlinked : bool) (extra : list Z) (p : Platform) : Prop := {
  pw_devices : Forall (live_device unlinked (lda_chain_list_ p ++ extra) p) (devices_ p);
  pw_chains : Forall (live_chain p) (lda_chain_list_ p ++ extra);
  pw_nodup : NoDup (devices_ p) /\ NoDup (lda_chain_list_ p ++ extra);
  pw_fresh : forall k, is_Some (pl_chains p !! k) \/ is_Some (pl_devices p !! k) -> k < pl_next p;
  pw_bounds : Z.of_nat (length (devices_ p)) <= MaxDevices /\ Z.of_nat (length (lda_chain_list_ p)) <= MaxDevices;
}.
(** With linked adapters or not, and without. *)
Abbreviation platform_ok := (platform_with false []).
Abbreviation platform_unlinked := (platform_with true []).

(** ** Runs that only call out *)

Section gives.
Context {K : Type} `{Kernel K}.

(** All of the world but the environment and the log. *)
Definition lib (w : World K) :=
  (w_rt w, w_devs w, w_mems w, (w_next w, w_amap w, w_fa w, w_nodes w, w_atfork w, w_loader w)).

(** [m] returns from every world, leaves the library alone, and its result satisfies [Q]. *)
Definition gives {A} (Q : A -> Prop) (m : M K A) : Prop :=
  forall w, exists x w', m w = Some (x, w') /\ lib w' = lib w /\ Q x.

Lemma gives_ret {A} (Q : A -> Prop) x : Q x -> gives Q (mret x).
Proof. intros HQ w. by exists x, w. Qed.
Lemma gives_bind {A B} (P : A -> Prop) (Q : B -> Prop) (m : M K A) (f : A -> M K B) :
  gives P m -> (forall x, P x -> gives Q (f x)) -> gives Q (m ≫= f).
Proof.
  intros Hm Hf w. destruct (Hm w) as (x & w1 & H1 & Hl1 & HP). destruct (Hf x HP w1) as (y & w2 & H2 & Hl2 & HQ).
  exists y, w2. rewrite (M_bind_step _ _ _ _ _ _ _ _ H1), H2. split_and!; [done|congruence|done].
Qed.
Lemma gives_mono {A} (P Q : A -> Prop) (m : M K A) : gives P m -> (forall x, P x -> Q x) -> gives Q m.
Proof. intros Hm HPQ w. destruct (Hm w) as (x & w1 & ? & ? & ?). exists x, w1. auto. Qed.
Lemma gives_kcall {R} (c : kcall R) : gives (fun r => exists k, r = (kernel_step _ c k).1) (kcall_ c).
Proof.
  intros w. unfold kcall_. destruct (kernel_step R c (w_ker w)) as [r k] eqn:E. eexists _, _. split; [done|].
  split; [done|]. exists (w_ker w). by rewrite E.
Qed.
Lemma gives_call {R B} (Q : B -> Prop) (c : kcall R) (f : R -> M K B) : (forall r, gives Q (f r)) -> gives Q (kcall_ c ≫= f).
Proof. intros Hf. eapply gives_bind; [apply gives_kcall|]. intros r _. apply Hf. Qed.
Lemma gives_dx {R} (c : kcall (NTSTATUS * R)) :
  gives (fun r => exists k, r = (TranslateNtStatus (kernel_step _ c k).1.1, (kernel_step _ c k).1.2)) (dx c).
Proof. eapply gives_bind; [apply gives_kcall|]. intros r [k ->]. apply gives_ret. by exists k. Qed.
Lemma gives_dx_ (c : kcall NTSTATUS) : gives (fun _ => True) (dx_ c).
Proof. apply gives_call. intros r. by apply gives_ret. Qed.
Lemma gives_deref {A B} (Q : B -> Prop) (o : option A) x (f : A -> M K B) : o = Some x -> gives Q (f x) -> gives Q (mderef o ≫= f).
Proof. intros -> Hf w. destruct (Hf w) as (y & w1 & H1 & ?). by exists y, w1. Qed.
End gives.

Section destroy.
Context {K : Type} `{Kernel K}.

(** What a run of deletions leaves: less of the objects, the lists as they were. *)
Definition shrunk (p p' : Platform) : Prop :=
  lda_chain_list_ p' = lda_chain_list_ p /\ devices_ p' = devices_ p /\ pl_next p' = pl_next p /\
  pl_chains p' ⊆ pl_chains p /\ pl_devices p' ⊆ pl_devices p.

Lemma delete_all_gives (del : Z -> Platform -> M K Platform) (live : Platform -> Z -> Prop) (same : Platform -> Platform -> Prop) l :
  (forall p, same p p) -> (forall p q r, same p q -> same q r -> same p r) ->
  (forall x p, live p x -> gives (fun p' => same p p' /\ forall y, y <> x -> live p y -> live p' y) (del x p)) ->
  forall p, NoDup l -> Forall (live p) l -> gives (same p) (delete_all del l p).
Proof.
  intros Hrefl Htrans Hdel. induction l as [|x l IH]; intros p Hnd Hlive; cbn [delete_all]; [by apply gives_ret|].
  apply NoDup_cons in Hnd as [Hx Hnd]. apply Forall_cons in Hlive as [Hlx Hlive].
  eapply gives_bind; [by apply Hdel|]. intros p' [Hs Hk]. eapply gives_mono; [apply IH; [done|]|intros p2; by apply Htrans].
  apply Forall_forall. intros y Hy. rewrite Forall_forall in Hlive. apply Hk; [by intros ->|by apply Hlive].
Qed.

Definition kept_chains (p p' : Platform) : Prop := shrunk p p' /\ pl_chains p' = pl_chains p.

Lemma shrunk_refl p : shrunk p p. Proof. by repeat split. Qed.
Lemma shrunk_trans p q r : shrunk p q -> shrunk q r -> shrunk p r.
Proof. intros (?&?&?&?&?) (?&?&?&?&?). repeat split; try congruence; by etrans. Qed.

Lemma Device_delete_gives d p : is_Some (pl_devices p !! d) ->
  gives (fun p' => kept_chains p p' /\ forall y, y <> d -> is_Some (pl_devices p !! y) -> is_Some (pl_devices p' !! y)) (Device_delete d p).
Proof.
  intros [s Hs]. unfold Device_delete, get_shared. eapply gives_deref; [done|]. apply gives_call. intros _. apply gives_ret.
  split; [split; [|done]; repeat split; cbn; [done|apply delete_subseteq]|]. intros y Hy Hl. cbn. by rewrite lookup_delete_ne.
Qed.

Lemma LdaChain_delete_gives c p : live_chain p c ->
  gives (fun p' => p' = pl_set_chains (delete c (pl_chains p)) p) (LdaChain_delete c p).
Proof.
  intros [l Hl]. unfold LdaChain_delete, get_chain. eapply gives_deref; [done|]. eapply gives_bind; [apply gives_dx_|]. intros _ _.
  apply gives_call. intros _. by apply gives_ret.
Qed.

Lemma Destroy_gives b p : platform_with b [] p ->
  gives (fun p' => platform_with b [] p' /\ devices_ p' = [] /\ lda_chain_list_ p' = []) (Platform_Destroy p).
Proof.
  intros [Hd Hc [Hnd Hnc] Hf _]. rewrite app_nil_r in Hc, Hnc. unfold Platform_Destroy, TearDownDevices.
  eapply (gives_bind (fun p' => kept_chains (pl_set_lists (lda_chain_list_ p) [] p) p')).
  { eapply gives_bind.
    - apply (delete_all_gives _ (fun p d => is_Some (pl_devices p !! d)) kept_chains); [..|exact Hnd|].
      + intros q. split; [apply shrunk_refl|done].
      + intros q r s [? E1] [? E2]. split; [by eapply shrunk_trans|congruence].
      + intros x q Hx. by apply Device_delete_gives.
      + eapply Forall_impl; [exact Hd|]. intros d (s & Hs & _). by exists s.
    - intros p' [(E1 & E2 & E3 & E4 & E5) E6]. apply gives_ret. split; [|done]. repeat split; cbn; try done; congruence. }
  intros p1 [(E1 & E2 & E3 & E4 & E5) E6]. cbn in *. eapply gives_bind.
  { apply (delete_all_gives _ live_chain shrunk).
    - apply shrunk_refl.
    - apply shrunk_trans.
    - intros x q Hx. eapply gives_mono; [by apply LdaChain_delete_gives|]. intros q' ->. split.
      + repeat split; cbn; [apply delete_subseteq|done].
      + intros y Hy Hl. unfold live_chain. cbn. by rewrite lookup_delete_ne.
    - by rewrite E1.
    - rewrite E1. eapply Forall_impl; [exact Hc|]. intros c Hcl. unfold live_chain. by rewrite E6. }
  intros p2 (F1 & F2 & F3 & F4 & F5). apply gives_ret. split; [|split; [cbn; congruence|done]].
  split; cbn.
  - rewrite F2, E2. apply Forall_nil_2.
  - apply Forall_nil_2.
  - split; [rewrite F2, E2|]; apply NoDup_nil_2.
  - intros k Hk. rewrite F3, E3. apply Hf. destruct Hk as [[x Hx]|[x Hx]]; [left|right]; exists x.
    + rewrite <-E6. by eapply lookup_weaken.
    + eapply lookup_weaken; [|exact E5]. by eapply lookup_weaken.
  - rewrite F2, E2. unfold MaxDevices. cbn. lia.
Qed.
End destroy.

(** ** Enumeration *)

(** A run on the new chain [c] found devices, or failed; unlinked it then added none. *)
Definition queried (unlinked : bool) (c : Z) (p : Platform) (r : ErrorCode * Platform) : Prop :=
  platform_with unlinked [c] r.2 /\ lda_chain_list_ r.2 = lda_chain_list_ p /\
  (r.1 <> Success -> unlinked = true -> devices_ r.2 = devices_ p /\ pl_devices r.2 = pl_devices p).

Lemma alter_chain_ok b f c x p : platform_with b [c] p -> platform_with b [c] (pl_set_chains (alter f x (pl_chains p)) p).
Proof.
  intros [Hd Hc Hn Hf Hb]. split; cbn; try done.
  - eapply Forall_impl; [exact Hc|]. intros y Hy. unfold live_chain. cbn. by rewrite lookup_alter_is_Some.
  - intros k [Hk|Hk]; apply Hf; [left; by rewrite lookup_alter_is_Some in Hk|by right].
Qed.

(** The new device of the chain [c]. *)
Lemma new_device_ok b c ctx i info p : platform_with b [c] p -> Z.of_nat (length (devices_ p)) < MaxDevices ->
  let p' := pl_new_device (mkSharedDevice ctx c i info) p in
  platform_with b [c] (pl_set_lists (lda_chain_list_ p') (devices_ p' ++ [pl_next p]) p').
Proof.
  intros [Hd Hc [Hn Hnc] Hf Hb] Hlen p'. unfold p'. split; cbn.
  - apply Forall_app. split.
    + eapply Forall_impl; [exact Hd|]. intros d (s & Hs & Hin). exists s. cbn. split; [|done].
      rewrite lookup_insert_ne; [done|]. intros <-. specialize (Hf (pl_next p)). rewrite Hs in Hf. enough (pl_next p < pl_next p) by lia.
      apply Hf. by right.
    + apply Forall_singleton. eexists. cbn. rewrite lookup_insert_eq. split; [done|]. cbn. set_solver.
  - exact Hc.
  - split; [|done]. apply NoDup_app. split; [done|]. split; [|apply NoDup_singleton].
    intros x Hx ->%list_elem_of_singleton. rewrite Forall_forall in Hd. destruct (Hd _ Hx) as (s & Hs & _).
    enough (pl_next p < pl_next p) by lia. apply Hf. right. by rewrite Hs.
  - intros k [Hk|Hk]; [enough (k < pl_next p) by lia; apply Hf; by left|].
    destruct (decide (k = pl_next p)) as [->|Hne]; [lia|]. rewrite lookup_insert_ne in Hk by done.
    enough (k < pl_next p) by lia. apply Hf. by right.
  - rewrite length_app. cbn. lia.
Qed.

Lemma chain_there b c p : platform_with b [c] p -> exists l, pl_chains p !! c = Some l.
Proof. intros [_ Hc _ _ _]. rewrite Forall_forall in Hc. destruct (Hc c) as [l Hl]; [set_solver|by exists l]. Qed.

Lemma new_chain_ok b l p : platform_with b [] p -> platform_with b [pl_next p] (pl_new_chain l p).
Proof.
  intros [Hd Hc [Hn Hnc] Hf Hb]. rewrite app_nil_r in *. split; cbn; [..|done].
  - eapply Forall_impl; [exact Hd|]. intros d (s & Hs & Hin). exists s. split; [done|]. set_solver.
  - apply Forall_app. split; [|apply Forall_singleton; unfold live_chain; cbn; by rewrite lookup_insert_eq].
    eapply Forall_impl; [exact Hc|]. intros c [x Hx]. unfold live_chain. cbn. rewrite lookup_insert_is_Some. destruct (decide (pl_next p = c)); [by left|].
    right. split; [done|by exists x].
  - split; [done|]. apply NoDup_app. split; [done|]. split; [|apply NoDup_singleton]. intros x Hx ->%list_elem_of_singleton.
    rewrite Forall_forall in Hc. enough (pl_next p < pl_next p) by lia. apply Hf. left. by apply Hc.
  - intros k [Hk|Hk]; [|enough (k < pl_next p) by lia; apply Hf; by right].
    destruct (decide (k = pl_next p)) as [->|Hne]; [lia|]. rewrite lookup_insert_ne in Hk by done.
    enough (k < pl_next p) by lia. apply Hf. by left.
Qed.

Lemma keep_chain_ok b c p : platform_with b [c] p -> Z.of_nat (length (lda_chain_list_ p)) < MaxDevices ->
  platform_with b [] (pl_set_lists (lda_chain_list_ p ++ [c]) (devices_ p) p).
Proof. intros [Hd Hc Hn Hf Hb] Hlen. split; cbn; rewrite ?app_nil_r; try done. rewrite length_app. cbn. lia. Qed.

Lemma drop_chain_ok b c p p' : platform_with b [] p -> platform_with b [c] p' -> lda_chain_list_ p' = lda_chain_list_ p ->
  (b = true -> devices_ p' = devices_ p /\ pl_devices p' = pl_devices p) ->
  platform_with b [] (pl_set_chains (delete c (pl_chains p')) p').
Proof.
  intros [Hd _ _ _ _] [Hd' Hc [Hn Hnc] Hf Hb] E1 E2. apply NoDup_app in Hnc as (Hnc & Hnot & _). apply Forall_app in Hc as [Hc _].
  split; cbn; rewrite ?app_nil_r in *; [..|done].
  - destruct b.
    + destruct (E2 eq_refl) as [-> E3]. rewrite E1. eapply Forall_impl; [exact Hd|]. intros d (s & Hs & Hin). exists s. cbn. by rewrite E3.
    + eapply Forall_impl; [exact Hd'|]. intros d (s & Hs & _). by exists s.
  - apply Forall_forall. intros x Hx. rewrite Forall_forall in Hc. unfold live_chain. cbn. rewrite lookup_delete_ne; [by apply Hc|].
    intros <-. apply (Hnot _ Hx). set_solver.
  - done.
  - intros k [Hk|Hk]; apply Hf; [left; by eapply lookup_delete_is_Some|by right].
Qed.

Section enumerate.
Context {K : Type} `{Hk : Kernel K} {unlinked : bool} {Hs : GpuChains K unlinked}.

Lemma query_gpu_gives c i p : platform_with unlinked [c] p -> Z.of_nat (length (devices_ p)) < MaxDevices -> i < MaxGpusPerChain ->
  gives (queried unlinked c p) (query_gpu c i p).
Proof.
  intros Hp Hlen Hi. destruct (chain_there _ _ _ Hp) as [l Hl]. unfold query_gpu, get_chain. eapply gives_deref; [done|].
  apply gives_call. intros vendor. case_match; [|by apply gives_ret].
  eapply (gives_bind (fun _ => True)); [intros w; exists tt, w; unfold massert; by rewrite (proj2 (Z.ltb_lt _ _))|]. intros _ _.
  unfold Device_Create, get_chain. eapply (gives_bind (fun r => r = (InitializationFailed, 0, p) \/
    exists ctx info, r = (Success, pl_next p, pl_new_device (mkSharedDevice ctx c i info) p))).
  { eapply gives_deref; [done|]. apply gives_call. intros [ctx info]. case_match; [apply gives_ret; by left|].
    apply gives_call. intros ok. destruct ok; cbn [negb]; [apply gives_ret; right; by exists ctx, info|].
    apply gives_call. intros _. apply gives_ret. by left. }
  intros r [-> | (ctx & info & ->)]; cbv beta iota.
  { change (ErrorCode_ok InitializationFailed) with false. apply gives_ret. by split_and!. }
  change (ErrorCode_ok Success) with true. unfold get_shared. cbn [pl_devices pl_set_chains pl_set_lists pl_new_device].
  eapply gives_deref; [apply lookup_insert_eq|]. apply gives_call. intros _. apply gives_ret. split; [|split; [done|by intros []]].
  exact (alter_chain_ok _ _ _ _ _ (new_device_ok _ c ctx i info p Hp Hlen)).
Qed.

Lemma chain_count_gives ctx :
  gives (fun n => n <= if unlinked then 1 else MaxGpusPerChain) (kcall_ (ChainContext_NumChainedGpus ctx) : M K Z).
Proof using Hs. eapply gives_mono; [apply gives_kcall|]. intros n [k ->]. apply gpus_bound. Qed.

(** From the device [i] on. Unlinked the loop ends after the first. *)
Lemma query_linked_gives c fuel : forall i code p, platform_with unlinked [c] p -> 0 <= i -> i + Z.of_nat fuel = 5 ->
  gives (fun r => platform_with unlinked [c] r.2 /\ lda_chain_list_ r.2 = lda_chain_list_ p /\
    (unlinked = true -> r = (code, p) \/ i = 0 /\ (r.1 <> Success -> devices_ r.2 = devices_ p /\ pl_devices r.2 = pl_devices p)))
    (query_linked fuel c i code p).
Proof using Hs.
  induction fuel as [|fuel IH]; intros i code p Hp Hi Hf; destruct (chain_there _ _ _ Hp) as [l Hl]; cbn [query_linked];
    unfold get_chain at 1; (eapply gives_deref; [done|]); (eapply gives_bind; [apply chain_count_gives|]); intros n Hn; cbv beta in Hn;
    assert (n <= MaxGpusPerChain) as Hn4 by (unfold MaxGpusPerChain in *; destruct unlinked; lia); unfold MaxGpusPerChain in Hn4.
  { rewrite (proj2 (Z.ltb_ge i n)) by lia. apply gives_ret. split_and!; try done. by left. }
  destruct (Z.ltb_spec i n) as [Hin|]; cbn [andb]; [|apply gives_ret; split_and!; try done; by left].
  destruct (ErrorCode_ok code); [|apply gives_ret; split_and!; try done; by left].
  assert (unlinked = true -> i = 0) as Hi0 by (intros ->; lia).
  destruct (Z.leb_spec MaxDevices (Z.of_nat (length (devices_ p)))).
  { apply gives_ret. split_and!; try done. intros Hu. right. by auto. }
  eapply gives_bind; [apply query_gpu_gives; [done|done|unfold MaxGpusPerChain; lia]|]. intros [code1 p1] (Hp1 & E1 & Hq). cbn [fst snd] in *.
  eapply gives_mono; [apply IH; [done|lia|lia]|]. intros r (Hr & E & Hu). split_and!; [done|congruence|].
  intros Hu'. right. split; [by auto|]. destruct (Hu Hu') as [-> | [? _]]; [by auto|lia].
Qed.

Lemma QueryLinked_gives c b p : platform_with unlinked [c] p -> gives (queried unlinked c p) (QueryLinkedGpusInChain c b p).
Proof using Hs.
  intros Hp. destruct (chain_there _ _ _ Hp) as [l Hl]. unfold QueryLinkedGpusInChain, get_chain. eapply gives_deref; [done|].
  eapply gives_bind; [apply gives_dx|]. intros r _. destruct (ErrorCode_ok r.1); cbn [negb]; [|apply gives_ret; by split_and!].
  apply gives_call. intros q. pose proof (alter_chain_ok _ (lc_set_handle r.2) _ c _ Hp) as Hp1.
  destruct (ErrorCode_ok q); cbn [negb]; [|apply gives_ret; by split_and!].
  eapply gives_mono; [by apply (query_linked_gives c 5 0 Success _ Hp1)|]. intros x (Hx & E & Hf). split_and!; [done..|].
  intros Hne Hu. destruct (Hf Hu) as [-> | [_ ?]]; [done|by auto].
Qed.

Lemma queryLinkedDevices_gives a luid p : platform_with unlinked [] p -> gives (fun r => platform_with unlinked [] r.2) (queryLinkedDevicesInLdaChain a luid p).
Proof using Hs.
  intros Hp. unfold queryLinkedDevicesInLdaChain. eapply gives_bind; [apply gives_dx|]. intros r _.
  eapply (gives_bind (fun _ => True)).
  { destruct (ErrorCode_ok r.1); [|by apply gives_ret]. generalize (seqZ 0 r.2). induction l as [|i l IH]; cbn [check_devices]; [by apply gives_ret|].
    eapply gives_bind; [apply gives_dx|]. intros q _. case_match; [by apply gives_ret|]. destruct q.2 as [v di].
    repeat (case_match; [by apply gives_ret|]). exact IH. }
  intros code _. case_match; [by apply gives_ret|]. destruct (Z.leb_spec MaxDevices (Z.of_nat (length (lda_chain_list_ p)))); [by apply gives_ret|].
  apply gives_call. intros ctx. case_match; [by apply gives_ret|].
  eapply gives_bind; [by apply QueryLinked_gives, new_chain_ok|]. intros [code' p'] (Hp' & E & Hfail). cbn [fst snd lda_chain_list_ devices_ pl_devices pl_new_chain] in *.
  destruct (decide (code' = Success)) as [->|Hne].
  - change (ErrorCode_ok Success) with true. apply gives_ret. apply keep_chain_ok; [done|]. rewrite E. done.
  - unfold ErrorCode_ok. rewrite bool_decide_eq_false_2 by done. 
    destruct (chain_there _ _ _ Hp') as [l Hl]. eapply gives_bind; [apply LdaChain_delete_gives; by exists l|]. intros p2 ->.
    apply gives_ret. cbn. eapply (drop_chain_ok _ _ p); [done..|by auto].
Qed.

Lemma query_adapters_gives infos : forall code p, platform_with unlinked [] p -> Forall is_Some infos ->
  gives (fun r => platform_with unlinked [] r.2) (query_adapters infos code p).
Proof using Hs.
  induction infos as [|o infos IH]; intros code p Hp Hall; cbn [query_adapters]; [by apply gives_ret|].
  apply Forall_cons in Hall as [[[a luid] ->] Hall]. eapply gives_deref; [done|]. cbv beta iota.
  eapply gives_bind; [by apply queryLinkedDevices_gives|]. intros [code' p'] Hp'. by apply IH.
Qed.
End enumerate.

Section create.
Context {K : Type} `{Hk : Kernel K} {unlinked : bool} {Hs : GpuChains K unlinked} {He : EnumAdaptersOk K}.
Implicit Types (w : World K).

Lemma dx_step {R} (c : kcall (NTSTATUS * R)) w r k :
  kernel_step _ c (w_ker w) = (r, k) -> dx c w = Some ((TranslateNtStatus r.1, r.2), log_call k (KEvent c r) w).
Proof. intros E. unfold dx, mbind, M_bind, kcall_. by rewrite E. Qed.

(** Finding the adapters ends, unless the first of them appear meanwhile: then a null
    pointer is dereferenced. *)
Lemma reQuery_spec p w : platform_with unlinked [] p ->
  if adapters_appear (w_ker w) then reQueryDevices p w = None
  else exists r w', reQueryDevices p w = Some (r, w') /\ lib w' = lib w /\ platform_with unlinked [] r.2.
Proof using Hs He.
  intros Hp. unfold adapters_appear, reQueryDevices.
  pose proof (enum_count 0 (w_ker w)) as Hn1. destruct (kernel_step _ (D3DKMTEnumAdapters2 0) (w_ker w)) as [[st1 [n1 l1]] k1] eqn:E1.
  rewrite (M_bind_step _ _ _ _ _ _ _ _ (dx_step _ _ _ _ E1)). cbn [fst snd] in *.
  set (w1 := log_call k1 _ w).
  destruct (ErrorCode_ok (TranslateNtStatus st1)) eqn:Ok1; cbn [negb andb].
  2:{ destruct (kernel_step _ (D3DKMTEnumAdapters2 0) k1) as [[st2 [n2 l2]] k2]. cbn [andb fst snd]. eexists (_, p), w1. by split_and!. }
  pose proof (enum_count n1 k1) as Hn2. pose proof (enum_bounded n1 k1) as Hle.
  destruct (kernel_step _ (D3DKMTEnumAdapters2 n1) k1) as [[st2 [n2 l2]] k2] eqn:E2.
  rewrite (M_bind_step _ _ _ _ _ _ _ _ (dx_step _ w1 _ _ E2)). cbn [fst snd] in *. set (w2 := log_call k2 _ w1).
  assert (n2 <= n1 -> exists r w', (if negb (ErrorCode_ok (TranslateNtStatus st2)) then mret (TranslateNtStatus st2, p)
    else '(code, p') ← query_adapters ((fun i => take (Z.to_nat n1) (l2 ++ repeat (0, mkLUID 0 0) (Z.to_nat n1)) !! Z.to_nat i) <$> seqZ 0 n2) Success p;
      mret (if 0 <? Z.of_nat (length (lda_chain_list_ p')) then Success else code, p')) w2 = Some (r, w') /\
    lib w' = lib w /\ platform_with unlinked [] r.2) as Hrun.
  { intros Hle2. destruct (ErrorCode_ok (TranslateNtStatus st2)); cbn [negb]; [|eexists (_, p), w2; by split_and!].
    assert (gives (fun r => platform_with unlinked [] r.2) ('(code, p') ← query_adapters
      ((fun i => take (Z.to_nat n1) (l2 ++ repeat (0, mkLUID 0 0) (Z.to_nat n1)) !! Z.to_nat i) <$> seqZ 0 n2) Success p;
      mret (if 0 <? Z.of_nat (length (lda_chain_list_ p')) then Success else code, p'))) as Hg.
    { eapply (gives_bind (fun r => platform_with unlinked [] r.2)); [|intros [code p'] Hp'; by apply gives_ret]. apply query_adapters_gives; [done|].
      apply Forall_fmap, Forall_forall. intros i Hi%elem_of_seqZ. cbn. apply lookup_lt_is_Some_2. rewrite length_take, length_app, repeat_length. lia. }
    destruct (Hg w2) as (r & w' & Hr & Hl & Hp'). exists r, w'. by split_and!. }
  destruct (Z.eqb_spec n1 0) as [->|Hne].
  - rewrite E2. cbn [fst snd]. destruct (ErrorCode_ok (TranslateNtStatus st2)) eqn:Ok2; cbn [andb negb].
    + destruct (Z.ltb_spec 0 n2) as [Hpos|Hnp]; [|apply Hrun; lia].
      rewrite seqZ_cons by lia. unfold mbind at 1, M_bind at 1. cbn [fmap list_fmap query_adapters]. by rewrite take_0.
    + cbn [negb]. eexists (_, p), w2. by split_and!.
  - cbn [andb]. destruct (kernel_step _ (D3DKMTEnumAdapters2 0) k1) as [[st3 [n3 l3]] k3]. cbn [andb].
    destruct (ErrorCode_ok (TranslateNtStatus st2)) eqn:Ok2; [apply Hrun, Hle; [lia|done]|]. cbn [negb]. eexists (_, p), w2. by split_and!.
Qed.

Lemma ReEnumerate_spec p w : platform_with unlinked [] p ->
  exists p0 w0, Platform_Destroy p w = Some (p0, w0) /\ lib w0 = lib w /\ platform_with unlinked [] p0 /\ devices_ p0 = [] /\ lda_chain_list_ p0 = [] /\
    if adapters_appear (w_ker w0) then ReEnumerateDevices p w = None
    else exists r w', ReEnumerateDevices p w = Some (r, w') /\ lib w' = lib w /\ platform_with unlinked [] r.2 /\
      (r.1 <> Success -> devices_ r.2 = [] /\ lda_chain_list_ r.2 = []).
Proof using Hs He.
  intros Hp. destruct (Destroy_gives _ _ Hp w) as (p0 & w0 & H0 & Hl0 & Hp0 & Hd0 & Hc0). exists p0, w0. split_and!; try done.
  pose proof (reQuery_spec p0 w0 Hp0) as Hq. unfold ReEnumerateDevices. rewrite (M_bind_step _ _ _ _ _ _ _ _ H0).
  destruct (adapters_appear (w_ker w0)); [unfold mbind, M_bind; by rewrite Hq|].
  destruct Hq as ([code p1] & w1 & H1 & Hl1 & Hp1). rewrite (M_bind_step _ _ _ _ _ _ _ _ H1). cbv beta iota. unfold ErrorCode_ok.
  case_bool_decide as Hok; [eexists _, w1; split_and!; [done|congruence|done|done]|].
  destruct (Destroy_gives _ _ Hp1 w1) as (p2 & w2 & H2 & Hl2 & Hp2 & Hd2 & Hc2). rewrite (M_bind_step _ _ _ _ _ _ _ _ H2).
  eexists _, w2. split_and!; [done|congruence|done|done].
Qed.
End create.

(** ** The WDDM devices *)

Section wddm.
Context {K : Type} `{Kernel K}.


(** What a device is from its construction on, and all of the library but the devices. *)
Definition identity (d : WDDMDevice) := (adapter_ d, shared_dev_ d, node_id_ d).
Definition rest (w : World K) := (w_rt w, w_mems w, (w_next w, w_amap w, w_fa w, w_nodes w, w_atfork w, w_loader w)).

(** [m] returns when the table ends in a device of the identity [e] behind the devices [l],
    and changes no more than the other members of that device. *)
Definition on_new {A} (l : list WDDMDevice) (e : Z * DeviceInfo * Z) (m : M K A) : Prop :=
  forall w d, w_devs w = l ++ [d] -> identity d = e ->
    exists x w' d', m w = Some (x, w') /\ w_devs w' = l ++ [d'] /\ identity d' = e /\ rest w' = rest w.

Lemma on_new_ret {A} l e (x : A) : on_new l e (mret x).
Proof. intros w d Hd He. by exists x, w, d. Qed.
Lemma on_new_bind {A B} l e (m : M K A) (f : A -> M K B) :
  on_new l e m -> (forall x, on_new l e (f x)) -> on_new l e (m ≫= f).
Proof.
  intros Hm Hf w d Hd He. destruct (Hm w d Hd He) as (x & w1 & d1 & H1 & Hd1 & He1 & Hr1).
  destruct (Hf x w1 d1 Hd1 He1) as (y & w2 & d2 & H2 & Hd2 & He2 & Hr2). exists y, w2, d2.
  rewrite (M_bind_step _ _ _ _ _ _ _ _ H1), H2. split_and!; [done..|congruence].
Qed.
Lemma on_new_gives {A} l e (Q : A -> Prop) (m : M K A) : gives Q m -> on_new l e m.
Proof.
  intros Hm w d Hd He. destruct (Hm w) as (x & w1 & H1 & Hl & _). exists x, w1, d. unfold lib in Hl. unfold rest.
  injection Hl as -> -> -> -> -> -> -> -> ->. by split_and!.
Qed.
Lemma on_new_get {B} l e (f : WDDMDevice -> M K B) :
  (forall d, identity d = e -> on_new l e (f d)) -> on_new l e (get_dev (length l) ≫= f).
Proof.
  intros Hf w d Hd He. destruct (Hf d He w d Hd He) as (x & w1 & d1 & H1 & ?). exists x, w1, d1. split; [|done].
  rewrite <-H1. unfold get_dev, mbind, M_bind. cbn. by rewrite Hd, list_lookup_middle.
Qed.
Lemma on_new_set l e d' : identity d' = e -> on_new l e (set_dev (length l) d' : M K unit).
Proof.
  intros He w d Hd _. unfold set_dev. rewrite Hd, list_lookup_middle by done. eexists tt, _, d'. split; [done|]. cbn.
  rewrite insert_app_r_alt by lia. rewrite Nat.sub_diag. by split_and!.
Qed.

Lemma on_new_dx {R B} l e (c : kcall (NTSTATUS * R)) (f : ErrorCode * R -> M K B) :
  (forall r, on_new l e (f r)) -> on_new l e (dx c ≫= f).
Proof. intros Hf. apply on_new_bind; [eapply on_new_gives, gives_dx|done]. Qed.
Lemma on_new_dx_ {B} l e (c : kcall NTSTATUS) (f : ErrorCode -> M K B) :
  (forall r, on_new l e (f r)) -> on_new l e (dx_ c ≫= f).
Proof. intros Hf. apply on_new_bind; [eapply on_new_gives, gives_dx_|done]. Qed.

Lemma SetPowerOptimization_new l e b : on_new l e (SetPowerOptimization (length l) b : M K unit).
Proof. apply on_new_get. intros d _. apply on_new_dx_. intros r. apply on_new_ret. Qed.

Lemma CreatePagingQueue_new l e : on_new l e (CreatePagingQueue (length l) : M K bool).
Proof.
  apply on_new_get. intros d Hd. apply on_new_dx. intros r. destruct (ErrorCode_ok r.1); [|apply on_new_ret].
  destruct r.2 as [[queue sync] addr]. apply on_new_bind; [by apply on_new_set|intros _; apply on_new_ret].
Qed.

Lemma query_segments_gives ids luid acc : gives (fun _ => True) (query_segments ids luid acc : M K (bool * list SegmentInfo)).
Proof.
  revert acc. induction ids as [|k ids IH]; intros acc; cbn [query_segments]; [by apply gives_ret|].
  eapply gives_bind; [apply gives_dx|]. intros r _. destruct (ErrorCode_ok r.1); [apply IH|by apply gives_ret].
Qed.

Lemma QuerySegmentInfo_new l e : on_new l e (QuerySegmentInfo (length l) : M K bool).
Proof.
  apply on_new_get. intros d Hd. apply on_new_bind; [by apply on_new_set|]. intros _. apply on_new_dx. intros r.
  destruct (ErrorCode_ok r.1); [|apply on_new_ret]. apply on_new_bind; [eapply on_new_gives, query_segments_gives|]. intros [ok segs].
  apply on_new_get. intros d' Hd'. apply on_new_bind; [by apply on_new_set|]. intros _. apply on_new_ret.
Qed.

(** The constructor puts one device of the given identity at the end of the table. *)
Lemma WDDMDevice_new_spec info adapter node (w : World K) : exists w' d, WDDMDevice_new info adapter node w = Some (tt, w') /\
  w_devs w' = w_devs w ++ [d] /\ identity d = (adapter, info, node) /\ rest w' = rest w.
Proof.
  unfold WDDMDevice_new, garbage.
  destruct (gives_kcall uninitialized_u32 w) as (queue & w1 & H1 & Hl1 & _). rewrite (M_bind_step _ _ _ _ _ _ _ _ H1).
  destruct (gives_kcall uninitialized_u32 w1) as (sync & w2 & H2 & Hl2 & _). rewrite (M_bind_step _ _ _ _ _ _ _ _ H2).
  destruct (gives_kcall uninitialized_u32 w2) as (addr & w3 & H3 & Hl3 & _). rewrite (M_bind_step _ _ _ _ _ _ _ _ H3).
  destruct (gives_kcall uninitialized_u32 w3) as (value & w4 & H4 & Hl4 & _). rewrite (M_bind_step _ _ _ _ _ _ _ _ H4).
  destruct (gives_kcall uninitialized_u32 w4) as (frame0 & w5 & H5 & Hl5 & _). rewrite (M_bind_step _ _ _ _ _ _ _ _ H5).
  assert (lib w5 = lib w) as Hl by congruence. clear -Hl.
  set (d := mkWDDMDevice adapter info node queue sync addr value 0 frame0 []).
  set (w6 := set_devs (w_devs w5 ++ [d]) w5).
  assert (on_new (w_devs w5) (adapter, info, node) (SetPowerOptimization (length (w_devs w5)) false ;;
    CreatePagingQueue (length (w_devs w5)) ;; d ← get_dev (length (w_devs w5));
    (let '(frame, size) := InitCmdbufInfo_sizes (sd_Major info) (cmdbuf_aql_frame_size_ d) in
     set_dev (length (w_devs w5)) (set_cmdbuf_info size frame d)) ;;
    QuerySegmentInfo (length (w_devs w5)) ;; mret tt)) as Hrun.
  { apply on_new_bind; [apply SetPowerOptimization_new|intros _]. apply on_new_bind; [apply CreatePagingQueue_new|intros _].
    apply on_new_get. intros d' Hd'. apply on_new_bind; [destruct (InitCmdbufInfo_sizes _ _); by apply on_new_set|intros _].
    apply on_new_bind; [apply QuerySegmentInfo_new|intros _]. apply on_new_ret. }
  destruct (Hrun w6 d) as ([] & w7 & d7 & H7 & Hd7 & He7 & Hr7); [done..|]. exists w7, d7.
  unfold lib in Hl. injection Hl as E1 E2 E3 E4 E5 E6 E7 E8 E9. split_and!; [exact H7|by rewrite Hd7, E2|done|].
  rewrite Hr7. unfold rest. cbn. congruence.
Qed.
End wddm.

(** ** The table of devices *)

(** [v] is what the constructor makes of the device [d] of the platform: the adapter is the
    one of its chain. *)
Definition made_of (p : Platform) (d : Z) (v : WDDMDevice) : Prop :=
  exists s c, pl_devices p !! d = Some s /\ pl_chains p !! lda_chain_ s = Some c /\
    adapter_ v = adapter_handle_ c /\ shared_dev_ v = sv_info s.

Section table.
Context {K : Type} `{Hk : Kernel K} {Hs : GpuChains K true} {He : EnumAdaptersOk K}.

Lemma create_devices_spec p l : platform_unlinked p -> Forall (live_device true (lda_chain_list_ p ++ []) p) l ->
  forall w : World K, exists w' new, create_devices l p w = Some (tt, w') /\ rest w' = rest w /\
    w_devs w' = w_devs w ++ new /\ Forall2 (made_of p) l new /\
    node_id_ <$> new = seqZ (Z.of_nat (length (w_devs w)) + 1) (Z.of_nat (length l)).
Proof using Type.
  intros Hp. induction l as [|d l IH]; intros Hl w.
  { exists w, []. rewrite app_nil_r. by split_and!. }
  apply Forall_cons in Hl as [(s & Hds & Hc) Hl]. pose proof (pw_chains _ _ _ Hp) as Hcs. rewrite Forall_forall in Hcs.
  destruct (Hcs _ (Hc eq_refl)) as [c Hdc].
  destruct (WDDMDevice_new_spec (sv_info s) (adapter_handle_ c) (Z.of_nat (length (w_devs w)) + 1) w) as (w1 & v & H1 & Hd1 & Hv & Hr1).
  destruct (IH Hl w1) as (w2 & new & H2 & Hr2 & Hd2 & Hf & Hn). exists w2, (v :: new).
  unfold identity in Hv. injection Hv as Ha Hi Hnode. split_and!.
  - cbn [create_devices]. rewrite (M_bind_step _ _ _ (get_shared p d) _ w s w) by (unfold get_shared; by rewrite Hds).
    rewrite (M_bind_step _ _ _ (get_chain p (lda_chain_ s)) _ w c w) by (unfold get_chain; by rewrite Hdc).
    rewrite (M_bind_step _ _ _ get_num_wddmdev _ w _ w eq_refl). by rewrite (M_bind_step _ _ _ _ _ _ _ _ H1).
  - congruence.
  - by rewrite Hd2, Hd1, <-app_assoc.
  - constructor; [|done]. exists s, c. by split_and!.
  - rewrite fmap_cons, Hn, Hnode, Hd1, length_app. cbn [length]. rewrite (seqZ_cons (_ + 1) (Z.of_nat (S _))) by lia.
    f_equal. f_equal; lia.
Qed.

(** C21: On a machine without linked adapters ([GpuChains K true]) and from every state of
    the platform in which the listed objects are there, finding the devices first empties
    the platform. If then the driver reports no adapter and, a call later, some, a null
    pointer is dereferenced. Otherwise it goes through whatever the driver answers, within
    what the documentation of D3DKMTEnumAdapters2 allows: no chain or device that is gone
    is used, nothing is written outside of a list; the platform is such a state again, with
    at most 16 devices and chains, and its devices are those of the table in their order,
    each with the adapter of its chain and what the driver says about it, the node numbers
    going on from those in the table. Nothing else of the library changes. *)
Theorem WDDMCreateDevices_safe p (w : World K) : platform_unlinked p ->
  exists p0 w0, Platform_Destroy p w = Some (p0, w0) /\ devices_ p0 = [] /\ lda_chain_list_ p0 = [] /\
  if adapters_appear (w_ker w0) then WDDMCreateDevices p w = None
  else
    exists p' w' new, WDDMCreateDevices p w = Some (p', w') /\ platform_unlinked p' /\ rest w' = rest w /\
      w_devs w' = w_devs w ++ new /\ Forall2 (made_of p') (devices_ p') new /\
      node_id_ <$> new = seqZ (Z.of_nat (length (w_devs w)) + 1) (Z.of_nat (length new)).
Proof using Hs He.
  intros Hp. destruct (ReEnumerate_spec p w Hp) as (p0 & w0 & H0 & _ & _ & Hd0 & Hc0 & Hre). exists p0, w0. split_and!; try done.
  unfold WDDMCreateDevices, EnumerateDevices. destruct (adapters_appear (w_ker w0)).
  { unfold mbind, M_bind. by rewrite Hre. }
  destruct Hre as ([code p'] & w1 & H1 & Hl1 & Hp' & Hfail). cbn [fst snd] in *.
  assert (rest w1 = rest w /\ w_devs w1 = w_devs w) as [Hr1 Hd1].
  { unfold lib in Hl1. unfold rest. injection Hl1 as -> -> -> -> -> -> -> -> ->. done. }
  assert ((if ErrorCode_ok code then devices_ p' else []) = devices_ p') as El.
  { unfold ErrorCode_ok. case_bool_decide as E; [done|]. by destruct (Hfail E) as [-> _]. }
  erewrite M_bind_step by (rewrite (M_bind_step _ _ _ _ _ _ _ _ H1); rewrite El; reflexivity). cbv beta iota.
  destruct (create_devices_spec p' (devices_ p') Hp' (pw_devices _ _ _ Hp') w1) as (w2 & new & H2 & Hr2 & Hd2 & Hf & Hn).
  destruct (negb (ErrorCode_ok code) && bool_decide (devices_ p' = [])) eqn:E.
  - apply andb_true_iff in E as [_ E%bool_decide_eq_true]. exists p', w1, []. rewrite app_nil_r, E. by split_and!.
  - exists p', w2, new. rewrite (M_bind_step _ _ _ _ _ _ _ _ H2). rewrite <-(Forall2_length _ _ _ Hf), <-Hd1.
    split_and!; [done..|congruence|done|done|done].
Qed.
End table.

(** ** On the demonstration machine *)

#[export] Instance demo_gpus : GpuChains DemoKernel true.
Proof. intros ctx k. cbn. lia. Qed.
#[export] Instance demo_gpus_linked : GpuChains DemoKernel false.
Proof. intros ctx k. cbn. unfold MaxGpusPerChain. lia. Qed.

Lemma dk_status_value {R} (f : Z -> R) v k : (forall k, f k = v) -> (dk_status f k).1.2 = v.
Proof. intros Hf. unfold dk_status, dk_pop, dk_new. destruct (dk_script k); apply Hf. Qed.

#[export] Instance demo_enum : EnumAdaptersOk DemoKernel.
Proof.
  split; [intros n k|intros n k Hn _]; cbn [kernel_step demo_kernel]; rewrite ?(dk_status_value _ _ _ (fun _ => eq_refl)); cbn; lia.
Qed.

(** Its adapter is there from the start. *)
Lemma demo_adapters k : adapters_appear (K := DemoKernel) k = false.
Proof.
  unfold adapters_appear. cbn [kernel_step demo_kernel]. pose proof (dk_status_value (fun _ : Z => (1, [] : list (Z * LUID))) _ k (fun _ => eq_refl)) as E.
  change (if 0 =? 0 then [] else [(5, demo_luid)]) with ([] : list (Z * LUID)).
  destruct (dk_status _ k) as [[st v] k1]. cbn in E. subst v. destruct (dk_status _ k1) as [r k2]. cbn. by rewrite andb_false_r.
Qed.

Lemma Platform_new_ok b n : platform_with b [] (Platform_new n).
Proof. split; cbn; [done|done|split; apply NoDup_nil_2|intros k [[? Hk]|[? Hk]]; by rewrite lookup_empty in Hk|unfold MaxDevices; lia]. Qed.

#[local] Notation demo_start := (demo_world []).

Lemma WDDMCreateDevices_safe_witness :
  platform_unlinked (Platform_new 1) /\
  exists p' w' new, WDDMCreateDevices (Platform_new 1) demo_start = Some (p', w') /\ platform_unlinked p' /\ rest w' = rest demo_start /\
    w_devs w' = w_devs demo_start ++ new /\ Forall2 (made_of p') (devices_ p') new /\
    node_id_ <$> new = seqZ 2 (Z.of_nat (length new)).
Proof.
  split; [exact (Platform_new_ok true 1)|].
  destruct (WDDMCreateDevices_safe (Platform_new 1) demo_start (Platform_new_ok true 1)) as (p0 & w0 & _ & _ & _ & H).
  rewrite demo_adapters in H. exact H.
Defined.

(** It finds the device of the machine. *)
Lemma demo_found : (fun x => (devices_ x.1, node_id_ <$> w_devs x.2)) <$> WDDMCreateDevices (Platform_new 1) demo_start = Some ([2], [1; 2]).
Proof. vm_compute. reflexivity. Qed.

(** ** Linked adapters

    The hypothesis is needed. On a machine with two adapters, the first a chain of two
    devices of which the driver supports one, the device that was found stays in the list
    while its chain is deleted, and its chain is asked for the adapter. *)

Record LinkedKernel := mkLinkedKernel { linked : DemoKernel }.

#[export] Instance linked_kernel : Kernel LinkedKernel := fun R c k =>
  match c in kcall R return R * LinkedKernel with
  | D3DKMTEnumAdapters2 n => ((STATUS_SUCCESS, (2, if n =? 0 then [] else [(5, demo_luid); (6, demo_luid)])), k)
  | ChainContext_Create adapter _ => (adapter, k)
  | ChainContext_NumChainedGpus ctx => (if ctx =? 5 then 2 else 1, k)
  | ChainContext_VendorId _ i => (if i =? 0 then 0x1002 else 0x10DE, k)
  | c => let '(r, k) := demo_kernel _ c (linked k) in (r, mkLinkedKernel k)
  end.

Lemma linked_adapters_dangle :
  WDDMCreateDevices (Platform_new 1)
    (mkWorld (mkLinkedKernel (mkDemoKernel [] 50)) [] (w_rt demo_start) [] ∅ 1 [] (w_fa demo_start) 0 false DxcoreLoader_new) = None.
Proof. vm_compute. reflexivity. Qed.

(** ** An adapter that appears

    The machine of the demonstration whose adapter is there from the second call on. *)

Record LateKernel := mkLateKernel { late : DemoKernel }.

#[export] Instance late_kernel : Kernel LateKernel := fun R c k =>
  match c in kcall R return R * LateKernel with
  | D3DKMTEnumAdapters2 n =>
      let '(r, k') := demo_kernel _ (D3DKMTEnumAdapters2 n) (late k) in
      (if dk_fresh (late k) =? 20 then ((STATUS_SUCCESS, (0, [])), mkLateKernel k') else (r, mkLateKernel k'))
  | c => let '(r, k) := demo_kernel _ c (late k) in (r, mkLateKernel k)
  end.

Lemma late_adapter_dereferences_null :
  let w := mkWorld (mkLateKernel (mkDemoKernel [] 20)) [] (w_rt demo_start) [] ∅ 1 [] (w_fa demo_start) 0 false DxcoreLoader_new in
  adapters_appear (w_ker w) = true /\ WDDMCreateDevices (Platform_new 1) w = None.
Proof. split; vm_compute; reflexivity. Qed.
