(* ===== verification/SmiSpec.v ===== *)
(** * SmiSpec: the life of the AMD SMI library

    Initialisation is a counter: the platform is there while it is not zero, and one
    reference to libdxcore is held, over those that failed initialisations leave behind.
    Chains may have several devices; an initialisation during which the first adapter of
    the machine appears dereferences a null pointer. *)

From Stdlib Require Import String.
From S2P Require Import Prelude.
From S2P Require Import BitField.
From S2P Require Import Status.
From S2P Require Import SmiStatus.
From S2P Require Import SmiTypes.
From S2P Require Import World.
From S2P Require Import Loader.
From S2P Require Import Device.
From S2P Require Import Queue.
From S2P Require Import Platform.
From S2P Require Import PlatformSpec.
From S2P Require Import Demo.
From S2P Require Import Smi.
#[local] Open Scope Z_scope.

(** ** Runs without dlopen and dlclose *)

Section quiet.
Context {K : Type} `{Kernel K}.

Lemma quiet_kcall {R} (c : kcall R) : (forall r, as_dl (KEvent c r) = 0) -> still dlw (kcall_ c).
Proof. intros Hc w r w' E. destruct (kcall_dl c w) as (r2 & k & w2 & E2 & -> & Hd). rewrite E2 in E. injection E as <- <-. rewrite Hd, Hc. lia. Qed.
End quiet.

Ltac quiet :=
  repeat match goal with
  | |- still _ (_ ≫= _) => apply still_bind; [|intros ?]
  | |- still _ (match ?x with _ => _ end) => destruct x
  | |- still _ (kcall_ _) => apply quiet_kcall; reflexivity
  | |- still _ (dx _) => unfold dx
  | |- still _ (dx_ _) => unfold dx_
  | |- still _ (get_chain _ _) => unfold get_chain
  | |- still _ (get_shared _ _) => unfold get_shared
  | |- still _ _ => solve [auto with still]
  end.

Section platform.
Context {K : Type} `{Kernel K}.
Implicit Types p : Platform.

Lemma Device_delete_quiet d p : still dlw (Device_delete d p).
Proof. unfold Device_delete. quiet. Qed.
Lemma LdaChain_delete_quiet c p : still dlw (LdaChain_delete c p).
Proof. unfold LdaChain_delete. quiet. Qed.
Lemma delete_all_quiet del l p : (forall x p, still dlw (del x p)) -> still dlw (delete_all (K := K) del l p).
Proof. intros Hd. revert p. induction l as [|x l IH]; intros p; cbn [delete_all]; quiet; auto. Qed.
Lemma Destroy_quiet p : still dlw (Platform_Destroy p).
Proof.
  unfold Platform_Destroy, TearDownDevices. quiet; apply delete_all_quiet; [apply Device_delete_quiet|apply LdaChain_delete_quiet].
Qed.
Lemma query_gpu_quiet c i p : still dlw (query_gpu c i p).
Proof. unfold query_gpu, Device_Create. quiet. Qed.
Lemma query_linked_quiet fuel c i code p : still dlw (query_linked fuel c i code p).
Proof. revert i code p. induction fuel as [|fuel IH]; intros i code p; cbn [query_linked]; quiet; auto using query_gpu_quiet. Qed.
Lemma QueryLinked_quiet c b p : still dlw (QueryLinkedGpusInChain c b p).
Proof. unfold QueryLinkedGpusInChain. quiet. apply query_linked_quiet. Qed.
Lemma check_devices_quiet ids a : still dlw (check_devices ids a).
Proof. induction ids as [|i ids IH]; cbn [check_devices]; quiet; done. Qed.
Lemma queryLinkedDevices_quiet a luid p : still dlw (queryLinkedDevicesInLdaChain a luid p).
Proof.
  unfold queryLinkedDevicesInLdaChain. quiet; auto using check_devices_quiet, QueryLinked_quiet, LdaChain_delete_quiet.
Qed.
Lemma query_adapters_quiet infos code p : still dlw (query_adapters infos code p).
Proof. revert code p. induction infos as [|o infos IH]; intros code p; cbn [query_adapters]; quiet; auto using queryLinkedDevices_quiet. Qed.
Lemma ReEnumerate_quiet p : still dlw (ReEnumerateDevices p).
Proof. unfold ReEnumerateDevices, reQueryDevices. quiet; auto using Destroy_quiet, query_adapters_quiet. Qed.
End platform.

(** ** The specification: a counter *)

Inductive smi_op := OpInit | OpShutDown.

(** The count and the references that were left behind. *)
Inductive counter_step : Z * Z -> smi_op -> amdsmi_status_t -> Z * Z -> Prop :=
  | init_more n k : 0 < n -> counter_step (n, k) OpInit AMDSMI_STATUS_SUCCESS (n + 1, k)
  | init_first k : counter_step (0, k) OpInit AMDSMI_STATUS_SUCCESS (1, k)
  | init_no_library k : counter_step (0, k) OpInit AMDSMI_STATUS_INIT_ERROR (0, k)
  | init_no_platform k st : st <> AMDSMI_STATUS_SUCCESS -> counter_step (0, k) OpInit st (0, k + 1)
  | shut_down_idle k : counter_step (0, k) OpShutDown AMDSMI_STATUS_SUCCESS (0, k)
  | shut_down n k : 0 < n -> counter_step (n, k) OpShutDown AMDSMI_STATUS_SUCCESS (n - 1, k).

Inductive counter_steps : Z * Z -> list smi_op -> list amdsmi_status_t -> Z * Z -> Prop :=
  | no_steps a : counter_steps a [] [] a
  | one_step a b c op st ops sts : counter_step a op st b -> counter_steps b ops sts c -> counter_steps a (op :: ops) (st :: sts) c.

Definition held (n : Z) : Z := if n =? 0 then 0 else 1.

Record smi_ok (s : Smi) : Prop := {
  so_count : 0 <= init_ref_count s;
  so_platform : platform_ok (sm_platform s);
  so_empty : init_ref_count s = 0 -> devices_ (sm_platform s) = [] /\ lda_chain_list_ (sm_platform s) = [];
  so_loaded : 0 < init_ref_count s -> dxcore_handle_ (sm_loader s) <> 0;
}.

Lemma Smi_new_ok n : smi_ok (Smi_new n).
Proof. split; cbn; [lia|apply (Platform_new_ok false)|done|lia]. Qed.

Section history.
Context {K : Type} `{Hk : Kernel K} {Hs : GpuChains K false} {He : EnumAdaptersOk K}.
Implicit Types (s : Smi) (w : World K).

Definition do_op (op : smi_op) (s : Smi) : M K (amdsmi_status_t * Smi) :=
  match op with OpInit => amdsmi_init s | OpShutDown => amdsmi_shut_down s end.

Fixpoint do_ops (ops : list smi_op) (s : Smi) : M K (list amdsmi_status_t * Smi) :=
  match ops with
  | [] => mret ([], s)
  | op :: ops => '(st, s) ← do_op op s; '(sts, s) ← do_ops ops s; mret (st :: sts, s)
  end.

Lemma kept_lib w w' : kept w w' -> lib w' = lib w.
Proof. intros (?&?&?&?&?&?&?&?&?). unfold lib. congruence. Qed.

Lemma translate_ok code : translateCodeToSmiStatus code = AMDSMI_STATUS_SUCCESS <-> code = Success.
Proof. by destruct code. Qed.

(** An initialisation from zero that finds libdxcore and during which adapters appear. *)
Definition meets_new_adapters (s : Smi) w : Prop :=
  init_ref_count s = 0 /\ exists l w1 p0 w0, Loader_Initialize (sm_loader s) w = Some ((true, l), w1) /\
    Platform_Destroy (sm_platform s) w1 = Some (p0, w0) /\ adapters_appear (w_ker w0) = true.

(** What calls from [s] and [w] with [k] references left behind lead to. *)
Record led_to ops sts s w (k : Z) s' w' (k' : Z) : Prop := {
  lt_ok : smi_ok s';
  lt_lib : lib w' = lib w;
  lt_steps : counter_steps (init_ref_count s, k) ops sts (init_ref_count s', k');
  lt_refs : dlw w' - (held (init_ref_count s') + k') = dlw w - (held (init_ref_count s) + k);
  lt_range : init_ref_count s' <= init_ref_count s + Z.of_nat (length ops);
}.

Lemma led_to_cons op ops st sts s w k s1 w1 k1 s2 w2 k2 :
  led_to [op] [st] s w k s1 w1 k1 -> led_to ops sts s1 w1 k1 s2 w2 k2 -> led_to (op :: ops) (st :: sts) s w k s2 w2 k2.
Proof.
  intros [H1 H2 H3 H4 H5] [G1 G2 G3 G4 G5]. split; [done|congruence| |lia|cbn in *; lia].
  inversion H3 as [|a b c o t os ts Hst Hno]; subst. inversion Hno; subst. by econstructor.
Qed.

Lemma led_to_one op st s w k s' w' k' :
  smi_ok s' -> lib w' = lib w -> counter_step (init_ref_count s, k) op st (init_ref_count s', k') ->
  dlw w' - (held (init_ref_count s') + k') = dlw w - (held (init_ref_count s) + k) -> led_to [op] [st] s w k s' w' k'.
Proof.
  intros H1 H2 H3 H4. split; try done; [econstructor; [done|constructor]|]. cbn. inversion H3; subst; lia.
Qed.

(** One call is one step of the counter, or meets new adapters. *)
Lemma do_op_refines op s w k : smi_ok s -> init_ref_count s < INT_MAX ->
  (op = OpInit /\ meets_new_adapters s w /\ do_op op s w = None) \/
  exists st s' w' k', do_op op s w = Some ((st, s'), w') /\ led_to [op] [st] s w k s' w' k'.
Proof using Hs He.
  intros Hok Hmax. pose proof Hok as [Hc Hp He0 Hl]. destruct op; cbn [do_op].
  - unfold amdsmi_init. destruct (Z.ltb_spec 0 (init_ref_count s)) as [Hn|Hn].
    { right. exists AMDSMI_STATUS_SUCCESS, (mkSmi (init_ref_count s + 1) (sm_loader s) (sm_platform s)), w, k.
      split; [unfold mbind, M_bind, massert; by rewrite (proj2 (Z.ltb_lt _ _) Hmax)|]. apply led_to_one; cbn.
      - split; cbn; [lia|done|lia|intros _; by apply Hl].
      - done.
      - by constructor.
      - unfold held. destruct (Z.eqb_spec (init_ref_count s) 0), (Z.eqb_spec (init_ref_count s + 1) 0); lia. }
    assert (init_ref_count s = 0) as E0 by lia. destruct (He0 E0) as [Hd0 Hc0].
    destruct (Initialize_spec (sm_loader s) w) as (ok & l & w1 & H1 & Hk1 & Hdl). rewrite (M_bind_step _ _ _ _ _ _ _ _ H1).
    pose proof (kept_lib _ _ Hk1) as Hl1. destruct ok; cbn [negb].
    + destruct Hdl as (Hdl & Hh & _). destruct (ReEnumerate_spec (sm_platform s) w1 Hp) as (p0 & w0 & H0 & _ & _ & _ & _ & Hre).
      unfold Platform_Init. destruct (adapters_appear (w_ker w0)) eqn:Ha.
      { left. split; [done|]. split; [by split; [|exists l, w1, p0, w0]|]. unfold mbind, M_bind. by rewrite Hre. }
      right. destruct Hre as ([code p] & w2 & H2 & Hl2 & Hp2 & Hf2).
      pose proof (ReEnumerate_quiet _ _ _ _ H2) as Hq. rewrite (M_bind_step _ _ _ _ _ _ _ _ H2). cbn [fst snd] in *. rewrite E0.
      destruct (decide (code = Success)) as [->|Hne].
      * change (ErrorCode_ok Success) with true. eexists _, _, w2, k. split; [reflexivity|]. apply led_to_one; cbn; rewrite ?E0.
        -- split; cbn; [lia|done|done|by intros _].
        -- congruence.
        -- apply init_first.
        -- unfold dlw in *. change (held (0 + 1)) with 1. change (held 1) with 1. change (held 0) with 0. lia.
      * eexists _, _, w2, (k + 1). unfold ErrorCode_ok. rewrite bool_decide_eq_false_2 by done. split; [reflexivity|]. apply led_to_one; cbn; rewrite ?E0.
        -- split; cbn; [lia|done|by intros _; auto|lia].
        -- congruence.
        -- apply init_no_platform. by rewrite translate_ok.
        -- unfold dlw in *. change (held 0) with 0. lia.
    + right. destruct Hdl as [Hdl Hh]. eexists _, _, w1, k. split; [reflexivity|]. apply led_to_one; cbn; rewrite ?E0.
      * split; cbn; [lia|done|done|lia].
      * done.
      * apply init_no_library.
      * unfold dlw in *. lia.
  - right. unfold amdsmi_shut_down. destruct (Z.eqb_spec (init_ref_count s) 0) as [E|Hn].
    { exists AMDSMI_STATUS_SUCCESS, s, w, k. split; [done|]. apply led_to_one; try done. rewrite E. constructor. }
    destruct (Z.ltb_spec 0 (init_ref_count s - 1)) as [Hlt|Hge].
    { eexists _, _, w, k. split; [reflexivity|]. apply led_to_one; cbn; [split; cbn; [lia|done|lia|intros _; apply Hl; lia]|done|constructor; lia|].
      unfold held. destruct (Z.eqb_spec (init_ref_count s) 0), (Z.eqb_spec (init_ref_count s - 1) 0); lia. }
    assert (init_ref_count s = 1) as E1 by lia. rewrite E1.
    destruct (Destroy_gives _ _ Hp w) as (p & w1 & H1 & Hl1 & Hp1 & Hd1 & Hc1). pose proof (Destroy_quiet _ _ _ _ H1) as Hq1.
    rewrite (M_bind_step _ _ _ _ _ _ _ _ H1).
    destruct (Shutdown_spec (sm_loader s) w1) as (l & w2 & H2 & Hk2 & Hh2 & Hd2). rewrite (M_bind_step _ _ _ _ _ _ _ _ H2).
    rewrite (proj2 (Z.eqb_neq _ 0)) in Hd2 by (apply Hl; lia).
    eexists _, _, w2, k. split; [reflexivity|]. apply led_to_one; cbn; rewrite ?E1.
    + split; cbn; [lia|done|done|lia].
    + rewrite (kept_lib _ _ Hk2). congruence.
    + apply shut_down. lia.
    + change (held (1 - 1)) with 0. change (held 0) with 0. change (held 1) with 1. lia.
Qed.

(** C10: The life of the library is a counter. On a machine whose chains have at most the
    four devices they have places for, and with what the documentation of
    D3DKMTEnumAdapters2 allows, a history of [amdsmi_init] and [amdsmi_shut_down] either
    goes through: an initialisation counts up or, from zero, may fail; a shutdown counts
    down and at zero does nothing; the statuses are those of the specification. The count
    never goes below zero; at zero the platform has no devices and no chains, above zero
    libdxcore is loaded. The library holds one reference to libdxcore while the count is
    not zero, and one more for every initialisation that found libdxcore and then no
    platform: those are never given back. Nothing of the thunk's own state changes. Or it
    does so up to an initialisation from zero that finds libdxcore while the first adapters
    appear between the two enumerations, and ends there in a null dereference. *)
Theorem smi_history_refines ops s w k : smi_ok s -> init_ref_count s + Z.of_nat (length ops) <= INT_MAX ->
  (exists sts s' w' k', do_ops ops s w = Some ((sts, s'), w') /\ led_to ops sts s w k s' w' k') \/
  (exists ops1 ops2 sts s1 w1 k1, ops = ops1 ++ OpInit :: ops2 /\ do_ops ops1 s w = Some ((sts, s1), w1) /\
    led_to ops1 sts s w k s1 w1 k1 /\ meets_new_adapters s1 w1 /\ do_ops ops s w = None).
Proof using Hs He.
  revert s w k. induction ops as [|op ops IH]; intros s w k Hok Hmax; cbn [do_ops].
  { left. exists [], s, w, k. split; [done|]. split; try done; [constructor|cbn; lia]. }
  cbn [length] in Hmax. destruct (do_op_refines op s w k Hok ltac:(lia)) as [(-> & Hm & Hnone)|(st & s1 & w1 & k1 & H1 & Hled)].
  { right. exists [], ops, [], s, w, k. split_and!; try done; [split; try done; [constructor|cbn; lia]|].
    unfold mbind, M_bind. by rewrite Hnone. }
  rewrite (M_bind_step _ _ _ _ _ _ _ _ H1). cbv beta iota. pose proof (lt_range _ _ _ _ _ _ _ _ Hled) as Hr. cbn in Hr.
  destruct (IH s1 w1 k1 (lt_ok _ _ _ _ _ _ _ _ Hled) ltac:(lia))
    as [(sts & s2 & w2 & k2 & H2 & Hled2)|(ops1 & ops2 & sts & s2 & w2 & k2 & -> & H2 & Hled2 & Hm & Hnone)].
  - left. exists (st :: sts), s2, w2, k2. rewrite (M_bind_step _ _ _ _ _ _ _ _ H2). split; [done|by eapply led_to_cons].
  - right. exists (op :: ops1), ops2, (st :: sts), s2, w2, k2. split_and!; [done| |by eapply led_to_cons|done|].
    + cbn [do_ops]. rewrite (M_bind_step _ _ _ _ _ _ _ _ H1). cbv beta iota. by rewrite (M_bind_step _ _ _ _ _ _ _ _ H2).
    + unfold mbind, M_bind. by rewrite Hnone.
Qed.
End history.

#[local] Notation demo_ops := [OpInit; OpInit; OpShutDown; OpShutDown; OpShutDown].

Lemma smi_history_refines_witness :
  smi_ok (Smi_new 1) /\ init_ref_count (Smi_new 1) + Z.of_nat (length demo_ops) <= INT_MAX /\
  exists sts s' w' k', do_ops demo_ops (Smi_new 1) (demo_world []) = Some ((sts, s'), w') /\
    led_to demo_ops sts (Smi_new 1) (demo_world []) 0 s' w' k'.
Proof.
  assert (init_ref_count (Smi_new 1) + Z.of_nat (length demo_ops) <= INT_MAX) as Hmax by (vm_compute; congruence).
  split; [exact (Smi_new_ok 1)|split; [exact Hmax|]].
  destruct (smi_history_refines demo_ops (Smi_new 1) (demo_world []) 0 (Smi_new_ok 1) Hmax)
    as [H|(ops1 & ops2 & sts & s1 & w1 & k1 & _ & _ & _ & (_ & l & w2 & p0 & w0 & _ & _ & Ha) & _)]; [exact H|].
  exfalso. rewrite demo_adapters in Ha. discriminate Ha.
Defined.

(** Two initialisations on a machine whose adapters cannot be listed, then one that
    succeeds and its shutdown: two references stay. *)
Lemma failed_init_leaks :
  (fun r => (r.1.1, dlw r.2)) <$>
    do_ops [OpInit; OpInit; OpInit; OpShutDown] (Smi_new 1) (demo_world [STATUS_OTHER 1; STATUS_OTHER 1]) =
  Some ([AMDSMI_STATUS_UNKNOWN_ERROR; AMDSMI_STATUS_UNKNOWN_ERROR; AMDSMI_STATUS_SUCCESS; AMDSMI_STATUS_SUCCESS], 2).
Proof. vm_compute. reflexivity. Qed.
