(* ===== verification/SmiDeviceSpec.v ===== *)
(** * SmiDeviceSpec: the handles of AMD SMI

    The devices are numbered through the sockets in the order of the platform's list,
    sockets with several processors included, and a handle, its number and its PCI address
    name the same device. *)

From Stdlib Require Import String.
From S2P Require Import Prelude.
From S2P Require Import BitField.
From S2P Require Import Status.
From S2P Require Import SmiStatus.
From S2P Require Import SmiTypes.
From S2P Require Import World.
From S2P Require Import Loader.
From S2P Require Import Device.
From S2P Require Import Queue.
From S2P Require Import Platform.
From S2P Require Import PlatformSpec.
From S2P Require Import Demo.
From S2P Require Import Smi.
From S2P Require Import SmiUtils.
From S2P Require Import SimpleHeap.
From S2P Require Import SmiSpec.
#[local] Open Scope Z_scope.

(** ** The environment *)

(** The number of devices of a chain does not change, and is at most the four a chain has
    places for. *)
Class StableChains (K : Type) `{Kernel K} := {
  gpus_of : Z -> Z;
  stable_gpus : forall ctx k, (kernel_step _ (ChainContext_NumChainedGpus ctx) k).1 = gpus_of ctx;
  gpus_range : forall ctx, 0 <= gpus_of ctx <= MaxGpusPerChain;
}.
#[export] Instance stable_chains_gpus K `{Hk : Kernel K} `{Hst : @StableChains K Hk} : GpuChains K false.
Proof. intros ctx k. rewrite stable_gpus. apply gpus_range. Qed.

(** ** No object is at [nullptr] *)

Definition positive (p : Platform) : Prop :=
  0 < pl_next p /\ Forall (fun c => 0 < c) (lda_chain_list_ p) /\ Forall (fun d => 0 < d) (devices_ p).

Section positive.
Context {K : Type} `{Hk : Kernel K}.
Implicit Types p : Platform.
#[local] Notation stays m := (returns positive m).
#[local] Notation stays2 m := (returns (fun r => positive r.2) m).

Lemma delete_all_positive (del : Z -> Platform -> M K Platform) l p :
  (forall x p, positive p -> stays (del x p)) -> positive p -> stays (delete_all del l p).
Proof. intros Hd. revert p. induction l as [|x l IH]; intros p Hp; cbn [delete_all]; [by apply returns_ret|]. eapply returns_bind; eauto. Qed.

Lemma Destroy_positive p : positive p -> stays (Platform_Destroy (K := K) p).
Proof.
  assert (forall x p, positive p -> stays (Device_delete (K := K) x p)) as Hd by (intros x q Hq; unfold Device_delete; by returns).
  assert (forall x p, positive p -> stays (LdaChain_delete (K := K) x p)) as Hc by (intros x q Hq; unfold LdaChain_delete; by returns).
  intros Hp. unfold Platform_Destroy, TearDownDevices. eapply (returns_bind positive).
  { eapply returns_bind; [by apply delete_all_positive|]. intros q (H1 & H2 & H3). apply returns_ret. split_and!; [done..|apply Forall_nil_2]. }
  intros q Hq. eapply returns_bind; [by apply delete_all_positive|]. intros r (H1 & H2 & H3). apply returns_ret. split_and!; [done|apply Forall_nil_2|done].
Qed.

Lemma query_gpu_positive c i p : positive p -> stays2 (query_gpu (K := K) c i p).
Proof.
  intros (H1 & H2 & H3). unfold query_gpu. apply returns_any. intros l. apply returns_any. intros v. case_match; [|by apply returns_ret].
  apply returns_any. intros _. eapply (returns_bind (fun r => r = (InitializationFailed, 0, p) \/ exists x, r = (Success, pl_next p, pl_new_device x p))).
  { unfold Device_Create. apply returns_any. intros l2. apply returns_any. intros [d info]. case_match; [apply returns_ret; by left|].
    apply returns_any. intros ok. case_match; [apply returns_any; intros _; apply returns_ret; by left|]. apply returns_ret. right. eauto. }
  intros r [-> | [x ->]]; cbv beta iota; [by apply returns_ret|]. change (ErrorCode_ok Success) with true. cbv iota.
  apply returns_any. intros s. apply returns_any. intros code. apply returns_ret. split_and!; cbn; [lia|done|].
  apply Forall_app. split; [done|]. by apply Forall_singleton.
Qed.

Lemma query_linked_positive fuel c i code p : positive p -> stays2 (query_linked (K := K) fuel c i code p).
Proof.
  revert i code p. induction fuel as [|fuel IH]; intros i code p Hp; cbn [query_linked]; [by returns|].
  apply returns_any. intros l. apply returns_any. intros n. case_match; [|by apply returns_ret]. case_match; [by apply returns_ret|].
  eapply returns_bind; [by apply query_gpu_positive|]. intros [code' q] Hq. by apply IH.
Qed.

Lemma QueryLinked_positive c b p : positive p -> stays2 (QueryLinkedGpusInChain (K := K) c b p).
Proof.
  intros Hp. unfold QueryLinkedGpusInChain. apply returns_any. intros l. apply returns_any. intros r. case_match; [by apply returns_ret|].
  apply returns_any. intros q. case_match; [by apply returns_ret|]. by apply query_linked_positive.
Qed.

Lemma queryLinkedDevices_positive a luid p : positive p -> stays2 (queryLinkedDevicesInLdaChain (K := K) a luid p).
Proof.
  intros (H1 & H2 & H3). unfold queryLinkedDevicesInLdaChain. apply returns_any. intros r. apply returns_any. intros code.
  case_match; [by apply returns_ret|]. case_match; [by apply returns_ret|]. apply returns_any. intros ctx. case_match; [by apply returns_ret|].
  eapply returns_bind; [apply QueryLinked_positive; split_and!; cbn; [lia|done|done]|]. intros [code' q] (G1 & G2 & G3). cbn in *. case_match.
  - apply returns_ret. split_and!; cbn; [done| |done]. apply Forall_app. split; [done|]. by apply Forall_singleton.
  - eapply (returns_bind positive); [unfold LdaChain_delete; returns; by split_and!|]. intros x Hx. by apply returns_ret.
Qed.

Lemma ReEnumerate_positive p : positive p -> stays2 (ReEnumerateDevices (K := K) p).
Proof.
  intros Hp. unfold ReEnumerateDevices. eapply returns_bind; [by apply Destroy_positive|]. intros q Hq.
  eapply (returns_bind (fun r => positive r.2)).
  { unfold reQueryDevices. apply returns_any. intros r. case_match; [by apply returns_ret|]. apply returns_any. intros r2. case_match; [by apply returns_ret|].
    eapply (returns_bind (fun r => positive r.2)); [|intros [code x] Hx; by apply returns_ret].
    generalize Success. generalize ((λ i : Z, take (Z.to_nat r.2.1) (r2.2.2 ++ repeat (0, mkLUID 0 0) (Z.to_nat r.2.1)) !! Z.to_nat i) <$> seqZ 0 r2.2.1).
    intros infos. revert q Hq. induction infos as [|o infos IH]; intros q Hq code; cbn [query_adapters]; [by apply returns_ret|].
    apply returns_any. intros [ad luid]. eapply returns_bind; [by apply queryLinkedDevices_positive|]. intros [code' x] Hx. by apply IH. }
  intros [code x] Hx. case_match; [by apply returns_ret|]. eapply returns_bind; [by apply Destroy_positive|]. intros y Hy. by apply returns_ret.
Qed.

Lemma do_op_positive op (s : Smi) : positive (sm_platform s) -> returns (fun r => positive (sm_platform r.2)) (do_op (K := K) op s).
Proof.
  intros Hp. destruct op; cbn [do_op].
  - unfold amdsmi_init. case_match; [by returns|]. apply returns_any. intros [ok l]. case_match; [by apply returns_ret|]. unfold Platform_Init.
    eapply returns_bind; [by apply ReEnumerate_positive|]. intros [code p] Hip. by apply returns_ret.
  - unfold amdsmi_shut_down. case_match; [by apply returns_ret|]. case_match; [by apply returns_ret|].
    eapply returns_bind; [by apply Destroy_positive|]. intros p Hq. by returns.
Qed.
End positive.

(** ** The devices of a chain *)

Section indexed.
Context {K : Type} `{Hk : Kernel K} {Hst : StableChains K}.
Implicit Types p : Platform.

Definition chain_devices p (c : Z) : list Z :=
  match pl_chains p !! c with Some l => take (Z.to_nat (gpus_of (chain_ctx_ l))) (chained_devices_ l) | None => [] end.

(** The devices the sockets lead to: those whose chain is listed. The query of a chain that
    fails after some of its devices leaves these in the list without it. *)
Definition attached p (d : Z) : bool :=
  match pl_devices p !! d with Some s => bool_decide (lda_chain_ s ∈ lda_chain_list_ p) | None => false end.
Definition reachable p : list Z := List.filter (attached p) (devices_ p).

(** They are the devices of the chains, one after the other. *)
Record indexed p : Prop := {
  ix_devices : reachable p = concat (chain_devices p <$> lda_chain_list_ p);
  ix_places : Forall (fun c => forall l, pl_chains p !! c = Some l -> length (chained_devices_ l) = Z.to_nat MaxGpusPerChain) (lda_chain_list_ p);
  ix_fresh : Forall (fun d => exists s, pl_devices p !! d = Some s /\ lda_chain_ s < pl_next p) (devices_ p);
}.

Lemma returns_gives {A} (Q : A -> Prop) (m : M K A) : gives Q m -> returns Q m.
Proof. intros Hm w x w' E. destruct (Hm w) as (y & w2 & E2 & _ & HQ). rewrite E2 in E. by injection E as <- <-. Qed.
Lemma returns_and {A} (P Q : A -> Prop) (m : M K A) : returns P m -> returns Q m -> returns (fun x => P x /\ Q x) m.
Proof. intros HP HQ w x w' E. split; [by eapply HP|by eapply HQ]. Qed.
Lemma returns_deref {A B} (Q : B -> Prop) (o : option A) (f : A -> M K B) : (forall x, o = Some x -> returns Q (f x)) -> returns Q (mderef o ≫= f).
Proof. intros Hf w y w2. destruct o as [x|]; [|done]. by eapply (Hf x eq_refl). Qed.
Lemma returns_gpus {B} (Q : B -> Prop) ctx (f : Z -> M K B) : returns Q (f (gpus_of ctx)) -> returns Q (kcall_ (ChainContext_NumChainedGpus ctx) ≫= f).
Proof.
  intros Hf w y w2 (n & w1 & H1 & H2)%M_bind_Some. unfold kcall_ in H1. destruct (kernel_step _ _ (w_ker w)) as [r k] eqn:E.
  injection H1 as -> <-. pose proof (stable_gpus ctx (w_ker w)) as Hn. rewrite E in Hn. cbn in Hn. subst n. by eapply Hf.
Qed.

Lemma returns_mono {A} (P Q : A -> Prop) (m : M K A) : returns P m -> (forall x, P x -> Q x) -> returns Q m.
Proof. intros Hm HPQ w x w' E. eapply HPQ, Hm, E. Qed.

(** From [p0] on the devices [new] of the chain [c] have been found. *)
Record grown (c : Z) (l : LdaChain) p0 p (new : list Z) : Prop := {
  g_chains : lda_chain_list_ p = lda_chain_list_ p0;
  g_other : forall x, x <> c -> pl_chains p !! x = pl_chains p0 !! x;
  g_old : forall d s, pl_devices p0 !! d = Some s -> pl_devices p !! d = Some s;
  g_next : pl_next p0 <= pl_next p;
  g_devices : devices_ p = devices_ p0 ++ new;
  g_new : Forall (fun d => exists s, pl_devices p !! d = Some s /\ lda_chain_ s = c) new;
  g_chain : exists l', pl_chains p !! c = Some l' /\ chain_ctx_ l' = chain_ctx_ l /\
    length (chained_devices_ l') = Z.to_nat MaxGpusPerChain /\ take (length new) (chained_devices_ l') = new;
}.

Lemma grown_refl c l p : pl_chains p !! c = Some l -> length (chained_devices_ l) = Z.to_nat MaxGpusPerChain -> grown c l p p [].
Proof. intros Hl Hlen. split; try done; [by rewrite app_nil_r|]. exists l. by split_and!. Qed.

(** One more. *)
Lemma grown_step c l p0 p new ctx info : platform_with false [c] p -> grown c l p0 p new -> (length new < 4)%nat ->
  let p1 := pl_new_device (mkSharedDevice ctx c (Z.of_nat (length new)) info) p in
  let p2 := pl_set_chains (alter (lc_set_chained (Z.of_nat (length new)) (pl_next p)) c (pl_chains p1)) p1 in
  grown c l p0 (pl_set_lists (lda_chain_list_ p2) (devices_ p2 ++ [pl_next p]) p2) (new ++ [pl_next p]).
Proof.
  intros Hp [G1 G2 G3 G4 G5 G6 (l' & L1 & L2 & L3 & L4)] Hlt p1 p2.
  assert (pl_devices p !! pl_next p = None) as Hfresh.
  { apply eq_None_not_Some. intros Hs. enough (pl_next p < pl_next p) by lia. apply (pw_fresh _ _ _ Hp). by right. }
  assert (forall d s, pl_devices p !! d = Some s -> d <> pl_next p) as Hne by (intros d s Hd ->; congruence).
  split; cbn.
  - done.
  - intros x Hx. by rewrite lookup_alter_ne, G2 by done.
  - intros d s Hd. apply G3 in Hd. rewrite lookup_insert_ne; [done|]. intros E. by apply (Hne d s).
  - lia.
  - by rewrite G5, app_assoc.
  - apply Forall_app. split.
    + eapply Forall_impl; [exact G6|]. intros d (s & Hd & Hc). exists s. rewrite lookup_insert_ne; [done|]. intros E. by apply (Hne d s).
    + apply Forall_singleton. eexists. by rewrite lookup_insert_eq.
  - exists (lc_set_chained (Z.of_nat (length new)) (pl_next p) l'). rewrite lookup_alter_eq, L1. split_and!; [done|done|cbn; by rewrite length_insert|].
    rewrite length_app. cbn. change (Z.to_nat MaxGpusPerChain) with 4%nat in L3. rewrite Nat.add_1_r, Nat2Z.id.
    erewrite take_S_r by (apply list_lookup_insert_eq; lia). by rewrite take_insert_ge, L4 by lia.
Qed.

Lemma query_gpu_returns c l p0 p new : platform_with false [c] p -> grown c l p0 p new -> (length new < 4)%nat ->
  returns (fun r => exists new', grown c l p0 r.2 new' /\ (length new' <= S (length new))%nat /\ (r.1 = Success -> length new' = S (length new)))
    (query_gpu (K := K) c (Z.of_nat (length new)) p).
Proof.
  intros Hp Hg Hlt. unfold query_gpu, get_chain. apply returns_deref. intros l0 _. apply returns_any. intros vendor. case_match.
  2: { apply returns_ret. exists new. split_and!; [done|lia|done]. }
  apply returns_any. intros _. unfold Device_Create, get_chain.
  eapply (returns_bind (fun r => r = (InitializationFailed, 0, p) \/
    exists ctx info, r = (Success, pl_next p, pl_new_device (mkSharedDevice ctx c (Z.of_nat (length new)) info) p))).
  { apply returns_deref. intros x _. apply returns_any. intros [ctx info]. case_match; [apply returns_ret; by left|].
    apply returns_any. intros ok. destruct ok; cbn [negb]; [apply returns_ret; right; by exists ctx, info|].
    apply returns_any. intros _. apply returns_ret. by left. }
  intros r [-> | (ctx & info & ->)]; cbv beta iota.
  { change (ErrorCode_ok InitializationFailed) with false. apply returns_ret. exists new. split_and!; [done|lia|done]. }
  change (ErrorCode_ok Success) with true. cbv iota. apply returns_any. intros s. apply returns_any. intros code. apply returns_ret.
  exists (new ++ [pl_next p]). split; [exact (grown_step c l p0 p new ctx info Hp Hg Hlt)|]. rewrite length_app. cbn. split; [lia|]. intros _. lia.
Qed.

(** What a query of the chain [c] leaves: if it succeeds, all of its devices are found. *)
Definition found (c : Z) (l : LdaChain) p0 (r : ErrorCode * Platform) : Prop :=
  exists new, grown c l p0 r.2 new /\ (r.1 = Success -> Z.of_nat (length new) = gpus_of (chain_ctx_ l)).

Lemma query_linked_returns c l p0 fuel : forall code p new, platform_with false [c] p -> grown c l p0 p new ->
  Z.of_nat (length new) <= gpus_of (chain_ctx_ l) -> (length new + fuel = 5)%nat ->
  returns (found c l p0) (query_linked (K := K) fuel c (Z.of_nat (length new)) code p).
Proof.
  induction fuel as [|fuel IH]; intros code p new Hp Hg Hle Hf; cbn [query_linked]; unfold get_chain at 1; apply returns_deref; intros x Hx;
    pose proof Hg as [_ _ _ _ _ _ (l' & L1 & L2 & L3 & L4)]; rewrite L1 in Hx; injection Hx as <-; apply returns_gpus; rewrite L2;
    pose proof (gpus_range (chain_ctx_ l)) as Hr; unfold MaxGpusPerChain in Hr.
  { lia. }
  destruct (Z.ltb_spec (Z.of_nat (length new)) (gpus_of (chain_ctx_ l))) as [Hlt|Hge]; cbn [andb].
  2: { apply returns_ret. exists new. split; [done|]. intros _. lia. }
  destruct (ErrorCode_ok code) eqn:Hok; [|apply returns_ret; exists new; split; [done|]; intros E; cbn in E; by rewrite E in Hok].
  case_match; [apply returns_ret; by exists new|].
  eapply (returns_bind (fun r => queried false c p r /\ _)).
  { apply returns_and; [|apply (query_gpu_returns c l p0 p new Hp Hg); lia]. apply returns_gives, query_gpu_gives; [done|lia|unfold MaxGpusPerChain; lia]. }
  intros [code1 p1] [(Hp1 & _ & _) (new1 & Hg1 & Hle1 & Hs1)]. cbn [fst snd] in *.
  destruct (decide (code1 = Success)) as [->|Hne].
  - replace (Z.of_nat (length new) + 1) with (Z.of_nat (length new1)) by (rewrite (Hs1 eq_refl); lia).
    apply IH; [done|done|rewrite (Hs1 eq_refl); lia|rewrite (Hs1 eq_refl); lia].
  - destruct fuel as [|fuel]; cbn [query_linked]; unfold get_chain at 1; apply returns_deref; intros x _; apply returns_any; intros n;
      (replace (ErrorCode_ok code1) with false by (unfold ErrorCode_ok; by rewrite bool_decide_eq_false_2));
      rewrite andb_false_r; apply returns_ret; by exists new1.
Qed.

Lemma QueryLinked_returns c b p l : platform_with false [c] p -> pl_chains p !! c = Some l -> length (chained_devices_ l) = Z.to_nat MaxGpusPerChain ->
  returns (found c l p) (QueryLinkedGpusInChain (K := K) c b p).
Proof.
  intros Hp Hl Hlen. unfold QueryLinkedGpusInChain, get_chain. apply returns_deref. intros x Hx. rewrite Hl in Hx. injection Hx as <-.
  pose proof (grown_refl c l p Hl Hlen) as Hg.
  apply returns_any. intros r. case_match eqn:E.
  { apply returns_ret. exists []. split; [done|]. cbn. intros E2. by rewrite E2 in E. }
  set (l1 := lc_set_handle r.2 l). set (p1 := pl_set_chains (alter (lc_set_handle r.2) c (pl_chains p)) p).
  assert (pl_chains p1 !! c = Some l1) as Hl1 by (cbn; by rewrite lookup_alter_eq, Hl).
  assert (grown c l p p1 []) as Hg1.
  { split; cbn; try done; [intros x Hx; by rewrite lookup_alter_ne|by rewrite app_nil_r|]. exists l1. by split_and!. }
  apply returns_any. intros q. case_match eqn:E2.
  { apply returns_ret. exists []. split; [done|]. cbn. intros E3. by rewrite E3 in E2. }
  pose proof (gpus_range (chain_ctx_ l)).
  apply (query_linked_returns c l p 5 Success p1 []); [by apply alter_chain_ok|done|cbn; lia|done].
Qed.

Lemma chain_devices_same p p' (l : list Z) : (forall x, x ∈ l -> pl_chains p' !! x = pl_chains p !! x) ->
  chain_devices p' <$> l = chain_devices p <$> l.
Proof. intros Hs. apply list_fmap_ext. intros i x Hx. unfold chain_devices. by rewrite Hs by (by eapply list_elem_of_lookup_2). Qed.

Lemma indexed_nil p : devices_ p = [] -> lda_chain_list_ p = [] -> indexed p.
Proof. intros E1 E2. split; rewrite ?E2; unfold reachable; rewrite ?E1; [done|apply Forall_nil_2|apply Forall_nil_2]. Qed.

Lemma new_chain_not_listed p : platform_ok p -> pl_next p ∉ lda_chain_list_ p.
Proof.
  intros [_ Hc _ Hf _] Hin. rewrite app_nil_r, Forall_forall in Hc. enough (pl_next p < pl_next p) by lia. apply Hf. left. by apply Hc.
Qed.

(** The devices of before and the new ones of the chain [c], which is listed at the end or not. *)
Lemma reachable_grown c l p0 p new (keep : bool) p2 : indexed p0 -> pl_next p0 <= c -> c ∉ lda_chain_list_ p0 -> grown c l p0 p new ->
  pl_devices p2 = pl_devices p -> devices_ p2 = devices_ p -> lda_chain_list_ p2 = lda_chain_list_ p ++ (if keep then [c] else []) ->
  reachable p2 = reachable p0 ++ (if keep then new else []).
Proof.
  intros [_ _ Hfr] Hc Hnot [G1 _ G3 _ G5 G6 _] E1 E2 E3. unfold reachable. rewrite E2, G5, List.filter_app. f_equal.
  - apply List.filter_ext_in. intros d Hd%list_elem_of_In. rewrite Forall_forall in Hfr. destruct (Hfr d Hd) as (s & Hs & Hlt).
    unfold attached. rewrite E1, Hs, (G3 _ _ Hs), E3, G1. apply bool_decide_ext. destruct keep; [|by rewrite app_nil_r].
    rewrite elem_of_app, list_elem_of_singleton. split; [intros [?|E]; [done|exfalso; lia]|by left].
  - assert (forall d, d ∈ new -> attached p2 d = keep) as Hat.
    { intros d Hd. rewrite Forall_forall in G6. destruct (G6 d Hd) as (s & Hs & Hsc). unfold attached. rewrite E1, Hs, Hsc, E3, G1.
      destruct keep; [apply bool_decide_eq_true; set_solver|apply bool_decide_eq_false; by rewrite app_nil_r]. }
    clear -Hat. induction new as [|d new IH]; cbn; [by destruct keep|]. rewrite (Hat d) by set_solver.
    rewrite IH by set_solver. by destruct keep.
Qed.

Lemma queryLinkedDevices_returns a luid p : platform_ok p -> indexed p ->
  returns (fun r => platform_ok r.2 /\ indexed r.2) (queryLinkedDevicesInLdaChain (K := K) a luid p).
Proof.
  intros Hp Hi. apply returns_and; [by apply returns_gives, queryLinkedDevices_gives|].
  unfold queryLinkedDevicesInLdaChain. apply returns_any. intros r. apply returns_any. intros code. case_match; [by apply returns_ret|].
  case_match; [by apply returns_ret|]. apply returns_any. intros ctx. case_match; [by apply returns_ret|].
  set (c := pl_next p). set (l := mkLdaChain ctx luid a 0 (repeat 0 (Z.to_nat MaxGpusPerChain))). pose proof (new_chain_not_listed _ Hp : c ∉ _) as Hnot.
  set (p0 := pl_new_chain l p). assert (pl_chains p0 !! c = Some l) as Hl by apply lookup_insert_eq.
  assert (forall x, x ∈ lda_chain_list_ p -> x <> c) as Hne by (by intros x Hx ->).
  eapply returns_bind; [apply (QueryLinked_returns c false p0 l); [by apply new_chain_ok|done|done]|].
  intros [code' p'] (new & Hg & Hs). cbn [fst snd] in *. pose proof Hg as [G1 G2 G3 G4 G5 G6 (l' & L1 & L2 & L3 & L4)].
  assert (forall x, x ∈ lda_chain_list_ p -> pl_chains p' !! x = pl_chains p !! x) as Hsame.
  { intros x Hx. rewrite G2 by auto. apply lookup_insert_ne. intros E. by apply (Hne x). }
  assert (Forall (fun d => exists s, pl_devices p' !! d = Some s /\ lda_chain_ s < pl_next p') (devices_ p')) as Hfr.
  { rewrite G5. apply Forall_app. split.
    - eapply Forall_impl; [exact (ix_fresh _ Hi)|]. intros d (s & Hd & Hlt). exists s. split; [by apply G3|]. cbn in G4. lia.
    - eapply Forall_impl; [exact G6|]. intros d (s & Hd & Hsc). exists s. split; [done|]. rewrite Hsc. cbn in G4. unfold c. lia. }
  assert (forall keep p2, pl_devices p2 = pl_devices p' -> devices_ p2 = devices_ p' ->
    lda_chain_list_ p2 = lda_chain_list_ p' ++ (if keep : bool then [c] else []) -> reachable p2 = reachable p ++ (if keep then new else [])) as Hreach.
  { intros keep p2 E1 E2 E3. apply (reachable_grown c l p p' new keep p2 Hi); try done; try (unfold c; lia).
    split; try done; try (cbn in G4; lia); try (by exists l').
    intros x Hx. rewrite G2 by done. apply lookup_insert_ne. by intros <-. }
  destruct (decide (code' = Success)) as [->|Hnok].
  - change (ErrorCode_ok Success) with true. apply returns_ret. cbn [snd]. cbn in G1. split.
    + rewrite (Hreach true) by (cbn; done). cbn [lda_chain_list_ pl_set_lists]. rewrite G1, fmap_app, concat_app, (ix_devices _ Hi). f_equal.
      * by rewrite <- (chain_devices_same p p') by done.
      * cbn. unfold chain_devices. cbn. by rewrite L1, L2, app_nil_r, <- (Hs eq_refl), Nat2Z.id, L4.
    + cbn. rewrite G1. apply Forall_app. split.
      * apply Forall_forall. intros x Hx y Hy. rewrite Hsame in Hy by done. by eapply (proj1 (Forall_forall _ _) (ix_places _ Hi)).
      * apply Forall_singleton. intros x Hx. rewrite L1 in Hx. by injection Hx as <-.
    + exact Hfr.
  - unfold ErrorCode_ok. rewrite bool_decide_eq_false_2 by done.
    eapply returns_bind; [apply returns_gives, LdaChain_delete_gives; by exists l'|]. intros p2 ->. apply returns_ret. cbn [snd].
    assert (forall x, x ∈ lda_chain_list_ p -> pl_chains (pl_set_chains (delete c (pl_chains p')) p') !! x = pl_chains p !! x) as Hsame2.
    { intros x Hx. cbn. rewrite lookup_delete_ne by (intros E; by apply (Hne x)). by apply Hsame. }
    cbn in G1. split.
    + rewrite (Hreach false) by (cbn; rewrite ?app_nil_r; done). rewrite app_nil_r, (ix_devices _ Hi). cbn [lda_chain_list_ pl_set_chains]. rewrite G1.
      by rewrite (chain_devices_same p (pl_set_chains (delete c (pl_chains p')) p')) by done.
    + cbn [lda_chain_list_ pl_set_chains]. rewrite G1. apply Forall_forall. intros x Hx y Hy. rewrite Hsame2 in Hy by done.
      by eapply (proj1 (Forall_forall _ _) (ix_places _ Hi)).
    + exact Hfr.
Qed.

Lemma query_adapters_returns infos : forall code p, platform_ok p -> indexed p ->
  returns (fun r => platform_ok r.2 /\ indexed r.2) (query_adapters (K := K) infos code p).
Proof.
  induction infos as [|o infos IH]; intros code p Hp Hi; cbn [query_adapters]; [by apply returns_ret|].
  apply returns_deref. intros [a luid] _. eapply returns_bind; [by apply queryLinkedDevices_returns|]. intros [code' p'] [Hp' Hi']. by apply IH.
Qed.

Lemma ReEnumerate_indexed p : platform_ok p -> returns (fun r => indexed r.2) (ReEnumerateDevices (K := K) p).
Proof.
  intros Hp. unfold ReEnumerateDevices. eapply returns_bind; [by apply returns_gives, Destroy_gives|]. intros p1 (Hp1 & Hd1 & Hc1).
  eapply (returns_bind (fun r => platform_ok r.2 /\ indexed r.2)).
  { unfold reQueryDevices. apply returns_any. intros r. pose proof (indexed_nil _ Hd1 Hc1) as Hi1. case_match; [by apply returns_ret|].
    apply returns_any. intros r2. case_match; [by apply returns_ret|]. eapply returns_bind; [by apply query_adapters_returns|].
    intros [code' p'] Hok. by apply returns_ret. }
  intros [code p2] [Hp2 Hi2]. case_match; [by apply returns_ret|].
  eapply returns_bind; [by apply returns_gives, Destroy_gives|]. intros p3 (_ & Hd3 & Hc3). apply returns_ret. by apply indexed_nil.
Qed.

(** A library that is initialised, or about to be, numbers its devices by the chains. *)
Lemma do_op_indexed op (s : Smi) : smi_ok s -> indexed (sm_platform s) ->
  returns (fun r => indexed (sm_platform r.2)) (do_op (K := K) op s).
Proof.
  intros [Hc Hp He0 _] Hi. destruct op; cbn [do_op].
  - unfold amdsmi_init. case_match; [apply returns_any; intros _; by apply returns_ret|].
    apply returns_any. intros [ok l]. case_match; [by apply returns_ret|]. unfold Platform_Init.
    eapply returns_bind; [by apply ReEnumerate_indexed|]. intros [code p] Hip. by apply returns_ret.
  - unfold amdsmi_shut_down. case_match; [by apply returns_ret|]. case_match; [by apply returns_ret|].
    eapply returns_bind; [by apply returns_gives, Destroy_gives|]. intros p (_ & Hd & Hcl). apply returns_any. intros l.
    apply returns_ret. by apply indexed_nil.
Qed.
End indexed.

(** ** Numbering *)

(** The first of [l] that [hit] takes, counted from [i]. *)
Fixpoint first_hit {A} (hit : Z -> Z -> option A) (l : list Z) (i : Z) : option A :=
  match l with
  | [] => None
  | h :: l => match hit i h with Some r => Some r | None => first_hit hit l (i + 1) end
  end.

Lemma first_hit_app {A} (hit : Z -> Z -> option A) l l' i :
  first_hit hit (l ++ l') i = match first_hit hit l i with Some r => Some r | None => first_hit hit l' (i + Z.of_nat (length l)) end.
Proof.
  revert i. induction l as [|h l IH]; intros i; cbn [first_hit app length]; [by rewrite Z.add_0_r|].
  destruct (hit i h); [done|]. rewrite IH. by replace (i + 1 + Z.of_nat (length l)) with (i + Z.of_nat (S (length l))) by lia.
Qed.

Lemma scan_handles_spec {A} (hit : Z -> Z -> option A) l i : 0 <= i -> i + Z.of_nat (length l) < 2 ^ 32 ->
  scan_handles hit (length l) l i = Some (match first_hit hit l i with Some r => inl r | None => inr (i + Z.of_nat (length l)) end).
Proof.
  revert i. induction l as [|h l IH]; intros i Hi Hb; cbn [scan_handles first_hit length]; [by rewrite Z.add_0_r|].
  cbn [length] in Hb. destruct (hit i h); [done|]. rewrite u32_small, IH by lia.
  by replace (i + 1 + Z.of_nat (length l)) with (i + Z.of_nat (S (length l))) by lia.
Qed.

(** The index of a handle, and the handle of an index. *)
Lemma first_hit_handle l x i : first_hit (fun i h => if h =? x then Some i else None) l i =
  (fun e => i + Z.of_nat e.1) <$> list_find (fun h => h = x) l.
Proof.
  revert i. induction l as [|h l IH]; intros i; cbn [first_hit list_find]; [done|]. destruct (Z.eqb_spec h x), (decide (h = x)); try done.
  - cbn. by rewrite Z.add_0_r.
  - rewrite IH. destruct (list_find _ l) as [[m y]|]; cbn; [|done]. f_equal. lia.
Qed.

Lemma first_hit_index l n i : first_hit (fun i h => if i =? n then Some h else None) l i = if i <=? n then l !! Z.to_nat (n - i) else None.
Proof.
  revert i. induction l as [|h l IH]; intros i; cbn [first_hit]; [by case_match|]. destruct (Z.eqb_spec i n) as [->|Hne].
  { rewrite Z.leb_refl, Z.sub_diag. done. }
  rewrite IH. destruct (Z.leb_spec (i + 1) n), (Z.leb_spec i n); try lia; [|done].
  replace (Z.to_nat (n - i)) with (S (Z.to_nat (n - (i + 1)))) by lia. done.
Qed.

Section numbering.
Context {K : Type} `{Hk : Kernel K} {Hst : StableChains K}.
Implicit Types (s : Smi) (w : World K).

Lemma write_list_all {A} (new dst : list A) : length dst = length new -> write_list new dst = Some new.
Proof. intros Hl. unfold write_list. rewrite (proj2 (Nat.leb_le _ _)) by lia. by rewrite drop_ge, app_nil_r by lia. Qed.

Lemma gives_pure {A B} (Q : B -> Prop) (x : A) (f : A -> M K B) : gives Q (f x) -> gives Q (mret x ≫= f).
Proof. done. Qed.

Lemma gives_this {A} (x : A) : gives (fun y => y = x) (mret x : M K A).
Proof. by apply gives_ret. Qed.

Lemma socket_vector_spec s : 0 < init_ref_count s -> let cs := lda_chain_list_ (sm_platform s) in
  gives (fun r => r = (AMDSMI_STATUS_SUCCESS, Z.of_nat (length cs), cs)) (socket_vector (K := K) s).
Proof.
  intros Hn cs. unfold socket_vector, amdsmi_get_socket_handles. rewrite (proj2 (Z.eqb_neq (init_ref_count s) 0)) by lia.
  apply gives_pure. cbv beta iota. rewrite bool_decide_eq_true_2 by done. cbn [negb]. fold cs.
  change (default 0 (Some (Z.of_nat (length cs)))) with (Z.of_nat (length cs)). rewrite Nat2Z.id.
  destruct (decide (cs = [])) as [E|E]; [rewrite E; apply gives_pure; by apply gives_ret|].
  assert (data (repeat 0 (length cs)) = Some (repeat 0 (length cs))) as -> by (by destruct cs).
  rewrite Z.leb_refl, Nat2Z.id, firstn_all, write_list_all by apply repeat_length.
  apply gives_pure. by apply gives_ret.
Qed.

Lemma chained_take n l : (n <= length (chained_devices_ l))%nat -> chained n l = Some (take n (chained_devices_ l)).
Proof.
  induction n as [|n IH]; intros Hl; cbn [chained]; [done|]. rewrite IH by lia. cbn.
  destruct (lookup_lt_is_Some_2 (chained_devices_ l) n) as [d Hd]; [lia|]. rewrite Hd. cbn. by erewrite take_S_r.
Qed.

Context (s : Smi) (Hok : smi_ok s) (Hi : indexed (sm_platform s)) (Hpos : positive (sm_platform s)) (Hn : 0 < init_ref_count s).
#[local] Notation p := (sm_platform s).

Lemma listed_chain c : c ∈ lda_chain_list_ p -> exists l, pl_chains p !! c = Some l /\ c <> 0 /\ length (chained_devices_ l) = 4%nat /\
  chain_devices p c = take (Z.to_nat (gpus_of (chain_ctx_ l))) (chained_devices_ l) /\
  length (chain_devices p c) = Z.to_nat (gpus_of (chain_ctx_ l)).
Proof using Hok Hi Hpos.
  intros Hc. destruct (so_platform _ Hok) as [_ Hch _ _ _]. rewrite app_nil_r, Forall_forall in Hch. destruct (Hch _ Hc) as [l Hl].
  pose proof (proj1 (Forall_forall _ _) (ix_places _ Hi) c Hc l Hl) as Hlen. change (Z.to_nat MaxGpusPerChain) with 4%nat in Hlen.
  destruct Hpos as (_ & Hpc & _). rewrite Forall_forall in Hpc. specialize (Hpc c Hc). exists l.
  assert (chain_devices p c = take (Z.to_nat (gpus_of (chain_ctx_ l))) (chained_devices_ l)) as E by (unfold chain_devices; by rewrite Hl).
  split_and!; [done|lia|done..|]. rewrite E, length_take, Hlen. pose proof (gpus_range (chain_ctx_ l)). unfold MaxGpusPerChain in *. lia.
Qed.

Lemma gives_gpus {B} (Q : B -> Prop) ctx (f : Z -> M K B) : gives Q (f (gpus_of ctx)) -> gives Q (kcall_ (ChainContext_NumChainedGpus ctx) ≫= f).
Proof. intros Hf. eapply gives_bind; [apply gives_kcall|]. intros r [k ->]. by rewrite stable_gpus. Qed.

Lemma processor_count_spec c : c ∈ lda_chain_list_ p ->
  gives (fun n => n = Z.of_nat (length (chain_devices p c))) (processor_count (K := K) s c).
Proof using Hok Hi Hpos Hn.
  intros Hc. destruct (listed_chain c Hc) as (l & Hl & Hc0 & _ & _ & Hlen). unfold processor_count, amdsmi_get_processor_handles, get_chain.
  rewrite (proj2 (Z.eqb_neq (init_ref_count s) 0)), (proj2 (Z.eqb_neq c 0)) by lia. rewrite Hl, Hlen.
  eapply gives_bind; [eapply gives_deref; [done|]; apply gives_gpus, gives_this|]. intros r ->. cbn.
  apply gives_ret. pose proof (gpus_range (chain_ctx_ l)). unfold MaxGpusPerChain in *. lia.
Qed.

Lemma processor_vector_spec c : c ∈ lda_chain_list_ p ->
  gives (fun r => r = (Z.of_nat (length (chain_devices p c)), chain_devices p c)) (processor_vector (K := K) s c).
Proof using Hok Hi Hpos Hn.
  intros Hc. unfold processor_vector. eapply gives_bind; [by apply processor_count_spec|]. intros n ->.
  destruct (listed_chain c Hc) as (l & Hl & Hc0 & Hl4 & Hd & Hlen). rewrite Nat2Z.id. unfold amdsmi_get_processor_handles, get_chain.
  rewrite (proj2 (Z.eqb_neq (init_ref_count s) 0)), (proj2 (Z.eqb_neq c 0)) by lia. rewrite Hl.
  pose proof (gpus_range (chain_ctx_ l)) as Hr. unfold MaxGpusPerChain in Hr.
  assert (Z.of_nat (length (chain_devices p c)) = gpus_of (chain_ctx_ l)) as Eg by lia.
  destruct (decide (chain_devices p c = [])) as [E|E].
  { rewrite E in *. cbn [length repeat data]. eapply gives_bind; [eapply gives_deref; [done|]; apply gives_gpus, gives_this|].
    intros r ->. apply gives_ret. cbn in *. by rewrite <-Eg. }
  assert (data (repeat 0 (length (chain_devices p c))) = Some (repeat 0 (length (chain_devices p c)))) as -> by (by destruct (chain_devices p c)).
  rewrite Eg. eapply gives_bind.
  { eapply gives_deref; [done|]. apply gives_gpus. rewrite Z.leb_refl, chained_take, <-Hd by lia. eapply gives_deref; [done|].
    rewrite write_list_all by apply repeat_length. eapply gives_deref; [done|]. apply gives_this. }
  intros r ->. by apply gives_ret.
Qed.

Lemma scan_sockets_spec {A} (hit : Z -> Z -> option A) cs i : (forall c, c ∈ cs -> c ∈ lda_chain_list_ p) -> 0 <= i ->
  i + Z.of_nat (length (concat (chain_devices p <$> cs))) < 2 ^ 32 ->
  gives (fun r => r = first_hit hit (concat (chain_devices p <$> cs)) i) (scan_sockets (K := K) s hit (length cs) cs i).
Proof using Hok Hi Hpos Hn.
  revert i. induction cs as [|c cs IH]; intros i Hcs Hi0 Hb; cbn [scan_sockets length]; [by apply gives_ret|].
  rewrite fmap_cons. cbn [concat] in *. rewrite fmap_cons in Hb. cbn [concat] in Hb. rewrite length_app in Hb.
  eapply gives_bind; [apply processor_vector_spec, Hcs; set_solver|]. intros r ->. cbv beta iota. rewrite Nat2Z.id, first_hit_app.
  eapply gives_deref; [apply scan_handles_spec; lia|]. destruct (first_hit hit (chain_devices p c) i) as [x|]; [by apply gives_ret|].
  apply IH; [set_solver|lia|lia].
Qed.

Lemma reachable_bound : Z.of_nat (length (concat (chain_devices p <$> lda_chain_list_ p))) <= 16.
Proof using Hok Hi.
  rewrite <- (ix_devices _ Hi). destruct (so_platform _ Hok) as [_ _ _ _ [Hb _]]. unfold MaxDevices in Hb.
  pose proof (List.filter_length_le (attached p) (devices_ p)). unfold reachable. lia.
Qed.

Lemma find_device_spec {A} (hit : Z -> Z -> option A) (out : A) :
  gives (fun r => r = match first_hit hit (reachable p) 0 with Some x => (AMDSMI_STATUS_SUCCESS, x) | None => (AMDSMI_STATUS_API_FAILED, out) end)
    (find_device (K := K) s hit out).
Proof using Hok Hi Hpos Hn.
  unfold find_device. eapply gives_bind; [by apply socket_vector_spec|]. intros r ->. cbv beta iota. rewrite bool_decide_eq_true_2 by done.
  cbn [negb]. rewrite Nat2Z.id. pose proof reachable_bound as Hb. rewrite (ix_devices _ Hi).
  eapply gives_bind; [apply scan_sockets_spec; [done|lia|lia]|]. intros r ->. destruct (first_hit _ _ _); by apply gives_ret.
Qed.

Lemma count_devices_spec cs i : (forall c, c ∈ cs -> c ∈ lda_chain_list_ p) -> 0 <= i ->
  i + Z.of_nat (length (concat (chain_devices p <$> cs))) < 2 ^ 32 ->
  gives (fun r => r = i + Z.of_nat (length (concat (chain_devices p <$> cs)))) (count_devices (K := K) s (length cs) cs i).
Proof using Hok Hi Hpos Hn.
  revert i. induction cs as [|c cs IH]; intros i Hcs Hi0 Hb; cbn [count_devices length]; [apply gives_ret; cbn; lia|].
  rewrite fmap_cons in Hb |- *. cbn [concat] in *. rewrite length_app in Hb |- *.
  eapply gives_bind; [apply processor_count_spec, Hcs; set_solver|]. intros n ->. rewrite u32_small by lia.
  eapply gives_mono; [apply IH; [set_solver|lia|lia]|]. intros r ->. lia.
Qed.
End numbering.

(** ** Every library that has been used *)

Section reached.
Context {K : Type} `{Hk : Kernel K} {Hst : StableChains K} {He : EnumAdaptersOk K}.

(** What holds of the library after any history of initialisations and shutdowns. *)
Record smi_inv (s : Smi) : Prop := {
  si_ok : smi_ok s;
  si_positive : positive (sm_platform s);
}.

Lemma Smi_new_inv next : 0 < next -> smi_inv (Smi_new next).
Proof. intros Hn. split; [apply Smi_new_ok|by split_and!]. Qed.

Lemma do_ops_inv ops : forall s, smi_inv s -> indexed (sm_platform s) -> init_ref_count s + Z.of_nat (length ops) <= INT_MAX ->
  returns (fun r => smi_inv r.2 /\ indexed (sm_platform r.2)) (do_ops (K := K) ops s).
Proof using He.
  induction ops as [|op ops IH]; intros s [Hok Hp] Hi Hmax; cbn [do_ops]; [by apply returns_ret|]. cbn [length] in Hmax.
  eapply (returns_bind (fun r => (smi_inv r.2 /\ indexed (sm_platform r.2)) /\ init_ref_count r.2 <= init_ref_count s + 1)).
  - intros w r w' E. destruct (do_op_refines op s w 0 Hok ltac:(lia)) as [(_ & _ & Hnone)|(st & s' & w2 & k' & E2 & [Hok' _ _ _ Hle])]; [congruence|].
    rewrite E2 in E. injection E as <- <-. split; [|exact Hle]. split; [split; [done|]|by eapply (do_op_indexed op s Hok Hi w (st, s') w2)].
    by eapply (do_op_positive op s Hp w (st, s') w2).
  - intros [st s'] [[Hs' Hi'] Hle]. cbn [snd] in *. eapply returns_bind; [apply IH; [done|done|lia]|]. intros [sts s2] Hs2. by apply returns_ret.
Qed.

(** C11: The devices are numbered. On a machine whose chains keep their number of devices,
    at most four each ([StableChains]), and with what the documentation of
    D3DKMTEnumAdapters2 allows: after any history of initialisations and shutdowns that
    leaves the library initialised, walking the sockets and their processors, several in a
    socket included, gives every device of the platform whose socket is listed once, in the
    platform's order: the count is their number, the handle of a number is the device at
    that place, the number of a device is its place, and a number or a handle that is none
    of them is refused with [AMDSMI_STATUS_API_FAILED], the number set to [UINT32_MAX], the
    handle left alone. These are all the devices of the platform, but for those of a chain
    that was given up after some of its devices were found. The type of a handle is that of
    a GPU for exactly the devices of the platform. From every world, without undefined
    behaviour and without a change to the thunk's state. *)
Theorem devices_numbered next ops sts s (w0 w : World K) : 0 < next -> Z.of_nat (length ops) <= INT_MAX ->
  do_ops ops (Smi_new next) w0 = Some ((sts, s), w) -> 0 < init_ref_count s ->
  let ds := List.filter (attached (sm_platform s)) (devices_ (sm_platform s)) in
  (forall old, gives (fun r => r = (AMDSMI_STATUS_SUCCESS, Some (Z.of_nat (length ds)))) (smi_amdgpu_get_device_count (K := K) s (Some old))) /\
  (forall i old, 0 <= i -> gives (fun r => r = match ds !! Z.to_nat i with
                                               | Some h => (AMDSMI_STATUS_SUCCESS, Some h)
                                               | None => (AMDSMI_STATUS_API_FAILED, Some old)
                                               end) (smi_amdgpu_get_processor_handle_by_index (K := K) s i (Some old))) /\
  (forall n h old, ds !! n = Some h ->
     gives (fun r => r = (AMDSMI_STATUS_SUCCESS, Some (Z.of_nat n))) (smi_amdgpu_get_device_index (K := K) s h (Some old))) /\
  (forall h old, h ∉ ds -> gives (fun r => r = (AMDSMI_STATUS_API_FAILED, Some UINT32_MAX)) (smi_amdgpu_get_device_index (K := K) s h (Some old))) /\
  (forall h old, gives (fun r => r = (AMDSMI_STATUS_SUCCESS, Some (if bool_decide (h ∈ devices_ (sm_platform s)) then AMDSMI_PROCESSOR_TYPE_AMD_GPU else AMDSMI_PROCESSOR_TYPE_UNKNOWN)))
     (amdsmi_get_processor_type (K := K) s h (Some old))).
Proof using Hst He.
  intros Hnext Hlen Hrun Hn ds.
  destruct (do_ops_inv ops _ (Smi_new_inv next Hnext) (indexed_nil (Platform_new next) eq_refl eq_refl) Hlen w0 (sts, s) w Hrun) as [[Hok Hp] Hi]. cbn [snd] in *.
  change ds with (reachable (sm_platform s)) in *. clear ds. set (ds := reachable (sm_platform s)).
  assert (NoDup ds) as Hnd.
  { destruct (so_platform _ Hok) as [_ _ [Hnd _] _ _]. apply NoDup_ListNoDup, List.NoDup_filter. by apply NoDup_ListNoDup. }
  pose proof (reachable_bound s Hok Hi) as Hb. split_and!.
  - intros old. unfold smi_amdgpu_get_device_count, nonnull. eapply gives_bind; [by apply socket_vector_spec|]. intros r ->. cbv beta iota.
    rewrite bool_decide_eq_true_2 by done. cbn [negb]. rewrite Nat2Z.id. unfold ds. rewrite (ix_devices _ Hi).
    eapply gives_bind; [apply count_devices_spec; [done..|lia|lia]|]. intros r ->. by apply gives_ret.
  - intros i old Hi0. unfold smi_amdgpu_get_processor_handle_by_index, nonnull. eapply gives_bind; [by apply find_device_spec|]. intros r ->.
    rewrite first_hit_index, (proj2 (Z.leb_le 0 i)), Z.sub_0_r by done. fold ds. apply gives_ret. by destruct (ds !! Z.to_nat i).
  - intros n h old Hh. unfold smi_amdgpu_get_device_index, nonnull. eapply gives_bind; [by apply find_device_spec|]. intros r ->.
    rewrite first_hit_handle. fold ds. assert (list_find (fun x => x = h) ds = Some (n, h)) as ->.
    { apply list_find_Some. split_and!; [done..|]. intros j y Hj Hlt ->. assert (j = n) by (by eapply (NoDup_lookup ds)). lia. }
    by apply gives_ret.
  - intros h old Hh. unfold smi_amdgpu_get_device_index, nonnull. eapply gives_bind; [by apply find_device_spec|]. intros r ->.
    rewrite first_hit_handle. fold ds. assert (list_find (fun x => x = h) ds = None) as ->; [|by apply gives_ret].
    apply list_find_None. apply Forall_forall. by intros y Hy ->.
  - intros h old. unfold amdsmi_get_processor_type, AMDSMI_CHECK_INIT, nonnull, succeeds. rewrite (proj2 (Z.eqb_neq _ 0)) by lia. by apply gives_ret.
Qed.
End reached.

#[export] Instance demo_stable : StableChains DemoKernel.
Proof. refine {| gpus_of := fun _ => 1 |}; [done|unfold MaxGpusPerChain; lia]. Defined.

(** Two initialisations and a shutdown on the demonstration machine. *)
#[local] Notation demo_ops := [OpInit; OpInit; OpShutDown].
Definition demo_sts : list amdsmi_status_t * Smi * World DemoKernel :=
  default ([], Smi_new 1, demo_world []) (do_ops demo_ops (Smi_new 1) (demo_world [])).
Definition demo_smi : Smi := demo_sts.1.2.

Lemma demo_smi_run : do_ops demo_ops (Smi_new 1) (demo_world []) = Some (demo_sts.1.1, demo_smi, demo_sts.2).
Proof. vm_compute. reflexivity. Qed.

(** The demonstration machine with two linked devices. *)
Record PairKernel := mkPairKernel { pair : DemoKernel }.

#[export] Instance pair_kernel : Kernel PairKernel := fun R c k =>
  match c in kcall R return R * PairKernel with
  | ChainContext_NumChainedGpus _ => (2, k)
  | c => let '(r, k) := demo_kernel _ c (pair k) in (r, mkPairKernel k)
  end.

#[export] Instance pair_stable : StableChains PairKernel.
Proof. refine {| gpus_of := fun _ => 2 |}; [done|unfold MaxGpusPerChain; lia]. Defined.

#[export] Instance pair_enum : EnumAdaptersOk PairKernel.
Proof.
  split; [intros n k|intros n k Hn]; cbn [kernel_step pair_kernel]; pose proof (enum_count (K := DemoKernel) n (pair k)) as Hc;
    [|pose proof (enum_bounded (K := DemoKernel) n (pair k) Hn) as Hb];
    change (kernel_step _ (D3DKMTEnumAdapters2 n) (pair k)) with (demo_kernel _ (D3DKMTEnumAdapters2 n) (pair k)) in *;
    by destruct (demo_kernel _ (D3DKMTEnumAdapters2 n) (pair k)).
Qed.

Definition pair_world : World PairKernel :=
  mkWorld (mkPairKernel (mkDemoKernel [] 20)) [] demo_rt [] ∅ 1 [] SimpleHeap_new 0 false DxcoreLoader_new.
Definition pair_sts : list amdsmi_status_t * Smi * World PairKernel :=
  default ([], Smi_new 1, pair_world) (do_ops demo_ops (Smi_new 1) pair_world).

Lemma pair_run : do_ops demo_ops (Smi_new 1) pair_world = Some (pair_sts.1.1, pair_sts.1.2, pair_sts.2).
Proof. vm_compute. reflexivity. Qed.

Lemma devices_numbered_witness :
  0 < 1 /\ 0 < init_ref_count pair_sts.1.2 /\ devices_ (sm_platform pair_sts.1.2) = [2; 3] /\
  gives (fun r => r = (AMDSMI_STATUS_SUCCESS, Some 3)) (smi_amdgpu_get_processor_handle_by_index (K := PairKernel) pair_sts.1.2 1 (Some 0)).
Proof.
  assert (0 < init_ref_count pair_sts.1.2) as Hn by (vm_compute; reflexivity).
  split_and!; [reflexivity|exact Hn|vm_compute; reflexivity|].
  exact (proj1 (proj2 (devices_numbered 1 demo_ops pair_sts.1.1 pair_sts.1.2 pair_world pair_sts.2 eq_refl
    ltac:(vm_compute; congruence) pair_run Hn)) 1 0 ltac:(lia)).
Defined.

(** ** Addresses *)

(** The driver gives the same answer to the same question. *)
Class StableQueries (K : Type) `{Kernel K} := {
  answer : forall R, device_query R -> Z -> ErrorCode * R;
  stable_answer : forall R (q : device_query R) ctx k, (kernel_step _ (DeviceContext_Query q ctx) k).1 = answer R q ctx;
}.
#[global] Arguments answer {K _ _ R}.

(** A device of the list and its object. *)
Definition device_at (s : Smi) (h : Z) (d : SharedDevice) : Prop :=
  h ∈ devices_ (sm_platform s) /\ pl_devices (sm_platform s) !! h = Some d.

Definition bdf_in_range (bi : BdfInfo) : Prop :=
  0 <= bi_domain_number bi < 2 ^ 32 /\ 0 <= bi_bus_number bi < 2 ^ 8 /\ 0 <= bi_device_number bi < 2 ^ 5 /\ 0 <= bi_function_number bi < 2 ^ 3.

Section addresses.
Context {K : Type} `{Hk : Kernel K} {Hq : StableQueries K}.
Implicit Types s : Smi.

Lemma gives_query {R B} (Q : B -> Prop) (q : device_query R) ctx (f : ErrorCode * R -> M K B) :
  gives Q (f (answer q ctx)) -> gives Q (kcall_ (DeviceContext_Query q ctx) ≫= f).
Proof. intros Hf. eapply gives_bind; [apply gives_kcall|]. intros r [k ->]. by rewrite stable_answer. Qed.

Lemma device_nonnull s h : smi_inv s -> h ∈ devices_ (sm_platform s) -> h <> 0 /\ exists d, pl_devices (sm_platform s) !! h = Some d.
Proof.
  intros [Hok Hp] Hh. destruct Hp as (_ & _ & Hpd). rewrite Forall_forall in Hpd. specialize (Hpd h Hh). split; [lia|].
  destruct (so_platform _ Hok) as [Hd _ _ _ _]. rewrite Forall_forall in Hd. destruct (Hd h Hh) as (d & Hd2 & _). by exists d.
Qed.

(** A query of a device of the list answers what the driver says. *)
Lemma device_query_gives {R T} s h d (q : device_query R) (null : M K (amdsmi_status_t * T)) (out : T) (f : R -> T) :
  smi_inv s -> device_at s h d ->
  gives (fun r => r = (let a := answer q (device_ctx_ d) in
                       if ErrorCode_ok a.1 then (AMDSMI_STATUS_SUCCESS, f a.2) else (translateCodeToSmiStatus a.1, out)))
    (device_of s h null (fun d => query (K := K) d q out (fun x => succeeds (f x)))).
Proof.
  intros Hs [Hh Hd]. destruct (device_nonnull s h Hs Hh) as [Hn _]. unfold device_of, query, succeeds, get_shared.
  rewrite (proj2 (Z.eqb_neq h 0) Hn). eapply gives_deref; [done|]. apply gives_query. case_match; by apply gives_ret.
Qed.

(** The handles whose device answers with the address [b]. *)
Definition has_bdf s (b : amdsmi_bdf_t) (h : Z) : bool :=
  match pl_devices (sm_platform s) !! h with
  | Some d => let a := answer QueryBdfInfo (device_ctx_ d) in ErrorCode_ok a.1 && bdf_matches b a.2
  | None => false
  end.

Lemma find_bdf_gives s b old l : smi_inv s -> (forall h, h ∈ l -> h ∈ devices_ (sm_platform s)) ->
  gives (fun r => r = match list_find (fun h => Is_true (has_bdf s b h)) l with
                      | Some (_, h) => (AMDSMI_STATUS_SUCCESS, h)
                      | None => (AMDSMI_STATUS_NOT_FOUND, old)
                      end) (find_bdf (K := K) (sm_platform s) l b old).
Proof.
  intros Hs. induction l as [|h l IH]; intros Hl; cbn [find_bdf list_find]; [by apply gives_ret|].
  destruct (device_nonnull s h Hs) as [Hn [d Hd]]; [apply Hl; set_solver|]. rewrite (proj2 (Z.eqb_neq h 0) Hn). unfold get_shared.
  eapply gives_deref; [done|]. apply gives_query.
  assert (has_bdf s b h = (let a := answer QueryBdfInfo (device_ctx_ d) in ErrorCode_ok a.1 && bdf_matches b a.2)) as Hb by (unfold has_bdf; by rewrite Hd).
  cbv zeta in Hb.
  assert (gives (fun r => r = match list_find (fun h => Is_true (has_bdf s b h)) l with
                              | Some (_, h) => (AMDSMI_STATUS_SUCCESS, h)
                              | None => (AMDSMI_STATUS_NOT_FOUND, old)
                              end) (find_bdf (K := K) (sm_platform s) l b old)) as IH' by (apply IH; set_solver).
  destruct (ErrorCode_ok _); cbn [negb andb] in *; [destruct (bdf_matches _ _)|].
  1: rewrite decide_True by (by rewrite Hb); by apply gives_ret.
  all: rewrite decide_False by (rewrite Hb; by intros []); eapply gives_mono; [exact IH'|]; intros r ->; by destruct (list_find _ l) as [[? ?]|].
Qed.

Lemma bdf_find s b old : smi_inv s -> 0 < init_ref_count s ->
  gives (fun r => r = match list_find (fun h => Is_true (has_bdf s b h)) (devices_ (sm_platform s)) with
                      | Some (_, h) => (AMDSMI_STATUS_SUCCESS, Some h)
                      | None => (AMDSMI_STATUS_NOT_FOUND, Some old)
                      end) (amdsmi_get_processor_handle_from_bdf (K := K) s b (Some old)).
Proof.
  intros Hs Hn. unfold amdsmi_get_processor_handle_from_bdf, AMDSMI_CHECK_INIT, nonnull. rewrite (proj2 (Z.eqb_neq _ 0)) by lia.
  eapply gives_bind; [by apply find_bdf_gives|]. intros r ->. apply gives_ret. by destruct (list_find _ _) as [[? ?]|].
Qed.

Lemma bdf_of_fields bi : bdf_in_range bi ->
  bdf_of bi = mkBdf (bi_function_number bi) (bi_device_number bi) (bi_bus_number bi) (bi_domain_number bi).
Proof. intros (H1 & H2 & H3 & H4). unfold bdf_of, wrap. rewrite !Z.mod_small by lia. done. Qed.

Lemma land_ones_small w x : 0 <= w -> 0 <= x < 2 ^ w -> Z.land x (Z.ones w) = x.
Proof. intros Hw Hx. rewrite Z.land_ones by done. by apply Z.mod_small. Qed.
Lemma testbit_high x w n : 0 <= x < 2 ^ w -> 0 <= w <= n -> Z.testbit x n = false.
Proof. intros Hx Hn. rewrite <-(land_ones_small w x) by lia. rewrite Z.land_spec, Z.testbit_ones_nonneg by lia. rewrite (proj2 (Z.ltb_ge n w)) by lia. apply andb_false_r. Qed.

Lemma parse_bdf_id bi : bdf_in_range bi ->
  parse_bdfid (bdf_id bi) = (bi_domain_number bi, bi_bus_number bi, bi_device_number bi, bi_function_number bi).
Proof.
  intros (H1 & H2 & H3 & H4). unfold parse_bdfid, bdf_id.
  change 0xFFFFFFFF with (Z.ones 32). change 0xFF with (Z.ones 8). change 0x1F with (Z.ones 5). change 0x7 with (Z.ones 3).
  rewrite (land_ones_small 32 (bi_domain_number bi)), (land_ones_small 8 (bi_bus_number bi)),
    (land_ones_small 5 (bi_device_number bi)), (land_ones_small 3 (bi_function_number bi)) by lia.
  f_equal; [f_equal; [f_equal|]|]; apply Z.bits_inj'; intros n Hn;
    rewrite Z.land_spec, ?Z.shiftr_spec, !Z.lor_spec, !Z.shiftl_spec, Z.testbit_ones_nonneg by lia.
  - rewrite (testbit_high (bi_bus_number bi) 8), (testbit_high (bi_device_number bi) 5), (testbit_high (bi_function_number bi) 3) by lia.
    rewrite !orb_false_r. replace (n + 32 - 32) with n by lia. destruct (Z.ltb_spec n 32); [by rewrite andb_true_r|].
    rewrite andb_false_r, (testbit_high _ 32) by lia. done.
  - rewrite (testbit_high (bi_device_number bi) 5), (testbit_high (bi_function_number bi) 3) by lia.
    rewrite !orb_false_r. replace (n + 8 - 8) with n by lia. destruct (Z.ltb_spec n 8).
    + rewrite Z.testbit_neg_r by lia. by rewrite orb_false_l, andb_true_r.
    + rewrite andb_false_r, (testbit_high _ 8) by lia. done.
  - rewrite (testbit_high (bi_function_number bi) 3) by lia.
    rewrite !orb_false_r. replace (n + 3 - 3) with n by lia. destruct (Z.ltb_spec n 5).
    + rewrite (Z.testbit_neg_r (bi_domain_number bi)), (Z.testbit_neg_r (bi_bus_number bi)) by lia. by rewrite !orb_false_l, andb_true_r.
    + rewrite andb_false_r, (testbit_high _ 5) by lia. done.
  - destruct (Z.ltb_spec n 3).
    + rewrite (Z.testbit_neg_r (bi_domain_number bi)), (Z.testbit_neg_r (bi_bus_number bi)), (Z.testbit_neg_r (bi_device_number bi)) by lia.
      by rewrite !orb_false_l, andb_true_r.
    + rewrite andb_false_r, (testbit_high _ 3) by lia. done.
Qed.

(** C31: Addresses lead back. On an initialised library, for a device whose driver reports
    an address in the range of its fields: the address the library gives out is the
    driver's, field for field; the handle found for that address is the device itself, if
    no other device of the list has the same address; and the 64-bit identifier, taken
    apart by [parse_bdfid], is the address again. For any address, the handle that is found
    is that of a device of the list whose driver reports it, the first such, and without
    one the answer is [AMDSMI_STATUS_NOT_FOUND] and the handle is left alone. *)
Theorem bdf_roundtrip s h d bi : smi_inv s -> 0 < init_ref_count s -> device_at s h d ->
  answer QueryBdfInfo (device_ctx_ d) = (Success, bi) -> bdf_in_range bi ->
  (forall h', h' ∈ devices_ (sm_platform s) -> has_bdf s (bdf_of bi) h' = true -> h' = h) ->
  (forall old, gives (fun r => r = (AMDSMI_STATUS_SUCCESS, Some (bdf_of bi))) (amdsmi_get_gpu_device_bdf (K := K) s h (Some old))) /\
  (domain_number (bdf_of bi), bus_number (bdf_of bi), device_number (bdf_of bi), function_number (bdf_of bi)) =
    (bi_domain_number bi, bi_bus_number bi, bi_device_number bi, bi_function_number bi) /\
  (forall old, gives (fun r => r = (AMDSMI_STATUS_SUCCESS, Some h)) (amdsmi_get_processor_handle_from_bdf (K := K) s (bdf_of bi) (Some old))) /\
  (forall old, gives (fun r => r = (AMDSMI_STATUS_SUCCESS, Some (bdf_id bi))) (amdsmi_get_gpu_bdf_id (K := K) s h (Some old))) /\
  parse_bdfid (bdf_id bi) = (bi_domain_number bi, bi_bus_number bi, bi_device_number bi, bi_function_number bi) /\
  (forall b old, gives (fun r => r = match list_find (fun h => Is_true (has_bdf s b h)) (devices_ (sm_platform s)) with
                                     | Some (_, h) => (AMDSMI_STATUS_SUCCESS, Some h)
                                     | None => (AMDSMI_STATUS_NOT_FOUND, Some old)
                                     end) (amdsmi_get_processor_handle_from_bdf (K := K) s b (Some old))).
Proof using Hq.
  intros Hs Hn Hat Ha Hr Huniq. assert ((init_ref_count s =? 0) = false) as Hc by lia.
  pose proof (bdf_of_fields bi Hr) as Hf. pose proof (bdf_find s) as Hfind.
  assert (forall b old, gives (fun r => r = match list_find (fun h => Is_true (has_bdf s b h)) (devices_ (sm_platform s)) with
                                     | Some (_, h) => (AMDSMI_STATUS_SUCCESS, Some h)
                                     | None => (AMDSMI_STATUS_NOT_FOUND, Some old)
                                     end) (amdsmi_get_processor_handle_from_bdf (K := K) s b (Some old))) as Hall by (intros b old; by apply Hfind).
  split_and!; [|by rewrite Hf| | |by apply parse_bdf_id|exact Hall].
  - intros old. unfold amdsmi_get_gpu_device_bdf, AMDSMI_CHECK_INIT, nonnull. rewrite Hc.
    eapply gives_mono; [by apply device_query_gives|]. intros r ->. by rewrite Ha.
  - intros old. eapply gives_mono; [apply Hall|]. intros r ->.
    destruct Hat as [Hh Hd]. assert (has_bdf s (bdf_of bi) h = true) as Hb.
    { unfold has_bdf. rewrite Hd, Ha, Hf. unfold bdf_matches. cbn. by rewrite !Z.eqb_refl. }
    destruct (list_find_elem_of (fun h => Is_true (has_bdf s (bdf_of bi) h)) _ h Hh) as [[i h'] E]; [by rewrite Hb|]. rewrite E.
    apply list_find_Some in E as (E1 & E2 & _). apply list_elem_of_lookup_2 in E1. rewrite (Huniq h' E1); [done|by apply Is_true_true].
  - intros old. unfold amdsmi_get_gpu_bdf_id, query_into, AMDSMI_CHECK_INIT, nonnull. rewrite Hc.
    eapply gives_mono; [by apply device_query_gives|]. intros r ->. by rewrite Ha.
Qed.
End addresses.

#[export] Instance demo_answers : StableQueries DemoKernel.
Proof. refine {| answer := fun R q ctx => (Success, demo_query q) |}; done. Defined.

Lemma demo_smi_inv : smi_inv demo_smi.
Proof.
  refine (proj1 (do_ops_inv demo_ops (Smi_new 1) (Smi_new_inv 1 eq_refl) (indexed_nil (K := DemoKernel) (Platform_new 1) eq_refl eq_refl) _ (demo_world [])
    (demo_sts.1.1, demo_smi) demo_sts.2 demo_smi_run)).
  vm_compute. congruence.
Qed.

Definition demo_device : SharedDevice := default (mkSharedDevice 0 0 0 demo_info) (pl_devices (sm_platform demo_smi) !! 2).

Lemma demo_device_at : device_at demo_smi 2 demo_device.
Proof.
  assert (devices_ (sm_platform demo_smi) = [2]) as E by (vm_compute; reflexivity). assert (2 ∈ devices_ (sm_platform demo_smi)) as Hin by (rewrite E; constructor). split; [done|].
  destruct (device_nonnull demo_smi 2 demo_smi_inv Hin) as [_ [d Hd]]. unfold demo_device. by rewrite Hd.
Qed.

Lemma bdf_roundtrip_witness :
  0 < init_ref_count demo_smi /\ bdf_in_range (demo_query QueryBdfInfo) /\
  gives (fun r => r = (AMDSMI_STATUS_SUCCESS, Some 2))
    (amdsmi_get_processor_handle_from_bdf (K := DemoKernel) demo_smi (bdf_of (demo_query QueryBdfInfo)) (Some 0)).
Proof.
  assert (0 < init_ref_count demo_smi) as Hn by (vm_compute; reflexivity).
  assert (bdf_in_range (demo_query QueryBdfInfo)) as Hr by (repeat split; vm_compute; congruence).
  split; [exact Hn|split; [exact Hr|]].
  refine (proj1 (proj2 (proj2 (bdf_roundtrip demo_smi 2 demo_device (demo_query QueryBdfInfo) demo_smi_inv Hn demo_device_at eq_refl Hr _))) 0).
  intros h' Hh _. assert (devices_ (sm_platform demo_smi) = [2]) as E by (vm_compute; reflexivity). rewrite E in Hh. by apply list_elem_of_singleton in Hh.
Defined.
