(* ===== verification/SmiProcessSpec.v ===== *)
(** * SmiProcessSpec: the process tables of AMD SMI

    The table of one device is what the driver lists, cut to the room the caller has; the
    table of all devices has every process once, with what the devices add up to. *)

From Stdlib Require Import String.
From S2P Require Import Prelude.
From S2P Require Import CString.
From S2P Require Import BitField.
From S2P Require Import Status.
From S2P Require Import SmiStatus.
From S2P Require Import SmiTypes.
From S2P Require Import World.
From S2P Require Import Sysfs.
From S2P Require Import Platform.
From S2P Require Import PlatformSpec.
From S2P Require Import Demo.
From S2P Require Import Smi.
From S2P Require Import SmiQuery.
From S2P Require Import SmiProcess.
From S2P Require Import SmiSpec.
From S2P Require Import SmiDeviceSpec.
#[local] Open Scope Z_scope.

(** ** One device *)

Section process_list.
Context {K : Type} `{Hk : Kernel K} {Hq : StableQueries K}.
Implicit Types s : Smi.

(** The entry of a process, whatever its name. *)
Definition entry_of (gp : GpuProcessInfo) (e : amdsmi_proc_info_t) : Prop :=
  exists exe, e = proc_info gp exe.

Lemma proc_entries_gives l room : gives (fun es => Forall2 entry_of (take room l) es) (proc_entries (K := K) l room).
Proof.
  revert room. induction l as [|gp l IH]; intros room; (destruct room as [|room]; [by apply gives_ret|]); cbn [proc_entries take]; [by apply gives_ret|].
  apply gives_call. intros exe. eapply gives_bind; [apply IH|]. intros es Hes. apply gives_ret. constructor; [by exists exe|done].
Qed.

Lemma Forall2_length_take {A B} (R : A -> B -> Prop) n l k : Forall2 R (take n l) k -> length k = Nat.min n (length l).
Proof. intros Hf. by rewrite <-(Forall2_length _ _ _ Hf), length_take. Qed.

Lemma length_str_take n (s : string) : (String.length (string_of_list_ascii (take n (chars s))) <= n)%nat.
Proof.
  revert s. induction n as [|n IH]; intros s; [done|]. destruct s as [|c s]; cbn; [lia|]. specialize (IH s). unfold chars in IH. lia.
Qed.

(** The name always leaves room for its terminator. *)
Lemma process_name_fits exe : (String.length (process_name exe) < AMDSMI_MAX_STRING_LENGTH)%nat.
Proof.
  assert (String.length "N/A" < AMDSMI_MAX_STRING_LENGTH)%nat by (vm_compute; lia).
  unfold process_name. destruct exe as [[|c path]|]; [done| |done]. unfold array_text.
  eapply Nat.le_lt_trans; [apply length_str_take|]. unfold AMDSMI_MAX_STRING_LENGTH. lia.
Qed.

(** C28: The two calls for the processes of a device. On an initialised library, for a
    device whose driver lists the processes [l]: asked without a table, or with room for
    none, the answer is the number of processes and nothing else is touched; asked with
    room for [max], the first [max] of them are written, one entry each and in the driver's
    order, with the process and its memory and a name that ends inside of its array, the
    rest of the table is left alone, the number of processes is the answer, and the status
    is that of success exactly if all of them had room. So asking again with the number
    that was answered gets all of them. *)
Theorem process_list_protocol s h d l max dst : smi_inv s -> 0 < init_ref_count s -> device_at s h d ->
  answer EnumGpuProcesses (device_ctx_ d) = (Success, l) -> Z.of_nat (length l) < 2 ^ 32 ->
  0 < max -> (Z.to_nat max <= length dst)%nat ->
  let total := Z.of_nat (length l) in
  (forall n, gives (fun r => r = (AMDSMI_STATUS_SUCCESS, (Some total, None))) (amdsmi_get_gpu_process_list (K := K) s h (Some n) None)) /\
  gives (fun r => r = (AMDSMI_STATUS_SUCCESS, (Some total, Some dst))) (amdsmi_get_gpu_process_list (K := K) s h (Some 0) (Some dst)) /\
  gives (fun r => exists es, Forall2 entry_of (take (Z.to_nat max) l) es /\
      Forall (fun e => (String.length (pr_name e) < AMDSMI_MAX_STRING_LENGTH)%nat) es /\
      r.2 = (Some total, Some (es ++ drop (length es) dst)) /\
      r.1 = (if total <=? max then AMDSMI_STATUS_SUCCESS else AMDSMI_STATUS_OUT_OF_RESOURCES) /\
      (total <= max -> Forall2 entry_of l es))
    (amdsmi_get_gpu_process_list (K := K) s h (Some max) (Some dst)).
Proof using Hq.
  intros Hs Hn [Hh Hd] Ha Hl Hm Hdst total. destruct (device_nonnull s h Hs Hh) as [Hh0 _].
  assert (u32 (Z.of_nat (length l)) = total) as Et by (apply u32_small; unfold total; lia).
  unfold amdsmi_get_gpu_process_list, AMDSMI_CHECK_INIT, device_of, get_shared. rewrite (proj2 (Z.eqb_neq (init_ref_count s) 0)), (proj2 (Z.eqb_neq h 0)) by lia.
  split; [|split].
  - intros n. eapply gives_deref; [done|]. apply gives_query. rewrite Ha. cbn [fst snd]. rewrite Et. by apply gives_ret.
  - eapply gives_deref; [done|]. apply gives_query. rewrite Ha. cbn [fst snd]. rewrite Et. by apply gives_ret.
  - eapply gives_deref; [done|]. apply gives_query. rewrite Ha. cbn [fst snd]. rewrite Et, (proj2 (Z.eqb_neq max 0)) by lia.
    eapply gives_bind; [apply proc_entries_gives|]. intros es Hes. pose proof (Forall2_length_take _ _ _ _ Hes) as Hlen.
    assert (write_list es dst = Some (es ++ drop (length es) dst)) as -> by (unfold write_list; by rewrite (proj2 (Nat.leb_le _ _)) by lia).
    eapply gives_deref; [done|]. apply gives_ret. exists es. cbn [fst snd]. split_and!; try done.
    + eapply Forall2_Forall_r; [exact Hes|]. apply Forall_forall. intros gp _ e [exe ->]. apply process_name_fits.
    + intros Hle. by rewrite take_ge in Hes by (unfold total in Hle; lia).
Qed.
End process_list.

Lemma process_list_protocol_witness :
  0 < init_ref_count demo_smi /\
  gives (fun r => r = (AMDSMI_STATUS_SUCCESS, (Some 2, None))) (amdsmi_get_gpu_process_list (K := DemoKernel) demo_smi 2 (Some 7) None).
Proof.
  assert (0 < init_ref_count demo_smi) as Hn by (vm_compute; reflexivity). split; [exact Hn|].
  refine (proj1 (process_list_protocol demo_smi 2 demo_device (demo_query EnumGpuProcesses) 1
    [proc_info (mkGpuProcessInfo 0 0) None] demo_smi_inv Hn demo_device_at eq_refl _ _ _) 7); vm_compute; [reflexivity|reflexivity|lia].
Defined.

(** ** All devices *)

Definition uses (pid : Z) (gp : GpuProcessInfo) : bool := win_pid gp =? pid.

(** The bytes a process has in [l], before any wrap-around. *)
Definition usage (pid : Z) (l : list GpuProcessInfo) : Z :=
  foldr (fun gp n => (if uses pid gp then vram_usage_bytes gp else 0) + n) 0 l.

Lemma usage_app pid l l' : usage pid (l ++ l') = usage pid l + usage pid l'.
Proof. unfold usage. induction l as [|gp l IH]; cbn; [done|]. rewrite IH. lia. Qed.

Lemma add_matching_spec pid l : forall x b, 0 <= x < 2 ^ 64 ->
  fold_left (add_matching pid) l (x, b) = (u64 (x + usage pid l), b || existsb (uses pid) l).
Proof.
  induction l as [|gp l IH]; intros x b Hx; cbn; [by rewrite Z.add_0_r, u64_small, orb_false_r|].
  unfold add_matching at 2. cbn [fst]. change (win_pid gp =? pid) with (uses pid gp). change (usage pid (gp :: l)) with ((if uses pid gp then vram_usage_bytes gp else 0) + usage pid l).
  destruct (uses pid gp).
  - rewrite IH by (unfold add64, u64, wrap; apply Z.mod_pos_bound; lia). cbn. rewrite orb_true_r. f_equal.
    unfold add64, u64, wrap. rewrite Zplus_mod_idemp_l. f_equal. fold (usage pid l). lia.
  - by rewrite IH.
Qed.

Definition there {A} (o : option A) : bool := match o with Some _ => true | None => false end.

(** The map and the sum of one process agree. *)
Lemma add_process_lookup pid l : forall m,
  fold_left add_process l m !! pid =
  (let r := fold_left (add_matching pid) l (default 0 (m !! pid), there (m !! pid)) in if r.2 then Some r.1 else None).
Proof.
  induction l as [|gp l IH]; intros m; cbn.
  { destruct (m !! pid) as [x|] eqn:E; by rewrite ?E. }
  rewrite IH. cbv zeta. assert ((default 0 (add_process m gp !! pid), there (add_process m gp !! pid)) =
    add_matching pid (default 0 (m !! pid), there (m !! pid)) gp) as ->; [|done].
  unfold add_process, add_matching. cbn [fst]. destruct (Z.eqb_spec (win_pid gp) pid) as [->|Hne].
  - by rewrite lookup_insert_eq.
  - by rewrite lookup_insert_ne.
Qed.

Lemma pid_map_lookup pid l : fold_left add_process l ∅ !! pid = if existsb (uses pid) l then Some (u64 (usage pid l)) else None.
Proof.
  rewrite add_process_lookup, lookup_empty. cbn [default from_option there].
  rewrite add_matching_spec by lia. done.
Qed.

(** What the driver lists for a device; nothing if it does not answer. *)
Definition listing (a : ErrorCode * list GpuProcessInfo) : list GpuProcessInfo := if ErrorCode_ok a.1 then a.2 else [].

(** The loop over the devices, on the lists [ls]. *)
Fixpoint walk {A} (body : Z -> list GpuProcessInfo -> A -> A) (i : Z) (ls : list (list GpuProcessInfo)) (acc : A) : A :=
  match ls with [] => acc | l :: ls => walk body (i + 1) ls (body i l acc) end.

Lemma walk_fold {A} (f : A -> GpuProcessInfo -> A) ls i acc : walk (fun _ gplist acc => fold_left f gplist acc) i ls acc = fold_left f (concat ls) acc.
Proof. revert i acc. induction ls as [|l ls IH]; intros i acc; cbn [walk]; [done|]. rewrite IH. cbn. by rewrite fold_left_app. Qed.

(** The places of the devices that list a process. *)
Fixpoint places (pid : Z) (i : Z) (ls : list (list GpuProcessInfo)) : list Z :=
  match ls with [] => [] | l :: ls => (if existsb (uses pid) l then [i] else []) ++ places pid (i + 1) ls end.

Lemma walk_places pid ls i acc : 0 <= i -> i + Z.of_nat (length ls) <= 2 ^ 32 ->
  walk (add_device pid) i ls acc = acc ++ places pid i ls.
Proof.
  revert i acc. induction ls as [|l ls IH]; intros i acc Hi Hb; cbn [walk places]; [by rewrite app_nil_r|]. cbn [length] in Hb.
  rewrite IH by lia. unfold add_device. change (existsb (fun gp => win_pid gp =? pid) l) with (existsb (uses pid) l).
  destruct (existsb (uses pid) l); [|done]. rewrite u32_small by lia. by rewrite <-app_assoc.
Qed.

Lemma places_elem pid i ls j : j ∈ places pid i ls <-> exists l, i <= j /\ ls !! Z.to_nat (j - i) = Some l /\ existsb (uses pid) l = true.
Proof.
  revert i. induction ls as [|l ls IH]; intros i; cbn [places]; [split; [by intros ?%not_elem_of_nil|by intros (? & ? & ? & ?)]|].
  rewrite elem_of_app, IH. split.
  - intros [Hj|(h' & Hle & Hl & Hu)].
    + destruct (existsb (uses pid) l) eqn:E; [|by apply not_elem_of_nil in Hj]. apply list_elem_of_singleton in Hj as ->.
      exists l. by rewrite Z.sub_diag.
    + exists h'. split_and!; [lia| |done]. by replace (Z.to_nat (j - i)) with (S (Z.to_nat (j - (i + 1)))) by lia.
  - intros (h' & Hle & Hl & Hu). destruct (decide (j = i)) as [->|Hne].
    + left. rewrite Z.sub_diag in Hl. injection Hl as <-. rewrite Hu. by apply list_elem_of_singleton.
    + right. exists h'. split_and!; [lia| |done]. by replace (Z.to_nat (j - i)) with (S (Z.to_nat (j - (i + 1)))) in Hl by lia.
Qed.

Lemma pid_map_size l : forall m : gmap Z Z, (size (fold_left add_process l m) <= size m + length l)%nat.
Proof.
  induction l as [|gp l IH]; intros m; cbn; [lia|]. etrans; [apply IH|]. unfold add_process. rewrite map_size_insert. case_match; cbn; lia.
Qed.

(** ** The three tables, as functions of the lists *)

Definition known (ls : list (list GpuProcessInfo)) (pid : Z) : bool := existsb (uses pid) (concat ls).
Definition total_of (ls : list (list GpuProcessInfo)) (pid : Z) : amdsmi_process_info_t := process_info pid (u64 (usage pid (concat ls))).

Lemma known_places ls pid : known ls pid = true <-> places pid 0 ls <> [].
Proof.
  unfold known. generalize 0. induction ls as [|l ls IH]; intros i; cbn [places concat]; [done|].
  rewrite existsb_app, orb_true_iff, (IH (i + 1)). destruct (existsb (uses pid) l); cbn; naive_solver.
Qed.

Section table.
(** Any iteration visits every entry of the map once. *)
Context (iteration : gmap Z Z -> list (Z * Z)) (Hit : forall m, iteration m ≡ₚ map_to_list m).

Definition table (ls : list (list GpuProcessInfo)) : list amdsmi_process_info_t :=
  (fun e => process_info e.1 e.2) <$> iteration (fold_left add_process (concat ls) ∅).

Lemma table_pids ls : NoDup (pi_process_id <$> table ls) /\
  (forall e, e ∈ table ls <-> known ls (pi_process_id e) = true /\ e = total_of ls (pi_process_id e)).
Proof using Hit.
  unfold table. set (m := fold_left add_process (concat ls) ∅). split.
  - rewrite <-list_fmap_compose. change (_ ∘ _) with (fun e : Z * Z => e.1). rewrite (Hit m). apply NoDup_fst_map_to_list.
  - intros e. rewrite (Hit m), list_elem_of_fmap. unfold known, total_of. split.
    + intros ([pid n] & -> & Hm). apply elem_of_map_to_list in Hm. unfold m in Hm. rewrite pid_map_lookup in Hm. cbn.
      destruct (existsb _ _); [|done]. by injection Hm as <-.
    + intros [Hk' ->]. exists (pi_process_id e, u64 (usage (pi_process_id e) (concat ls))). split; [done|].
      apply elem_of_map_to_list. unfold m. by rewrite pid_map_lookup, Hk'.
Qed.
End table.

(** ** The calls *)

Section tables.
Context {K : Type} `{Hk : Kernel K}.
Implicit Types (s : Smi) (w : World K).

(** The devices [l] asked for their processes, with the answers [ans]. *)
Definition questions s (l : list Z) (ans : list (ErrorCode * list GpuProcessInfo)) : list kevent :=
  concat (zip_with (fun h a => match pl_devices (sm_platform s) !! h with
                               | Some d => [KEvent (DeviceContext_Query EnumGpuProcesses (device_ctx_ d)) a]
                               | None => []
                               end) l ans).

(** [m] asks every device of the platform once, and returns [f] of what they list. *)
Definition reads {A} s (f : list (list GpuProcessInfo) -> A) (m : M K A) : Prop :=
  forall w, exists ans w', m w = Some (f (listing <$> ans), w') /\ lib w' = lib w /\
    length ans = length (devices_ (sm_platform s)) /\ w_log w' = w_log w ++ questions s (devices_ (sm_platform s)) ans.

Lemma each_device_reads {A} s (body : Z -> list GpuProcessInfo -> A -> A) l : smi_inv s -> (forall i acc, body i [] acc = acc) ->
  (forall h, h ∈ l -> h ∈ devices_ (sm_platform s)) ->
  forall i acc w, exists ans w', each_device (sm_platform s) body i l acc w = Some (walk body i (listing <$> ans) acc, w') /\ lib w' = lib w /\
    length ans = length l /\ w_log w' = w_log w ++ questions s l ans.
Proof.
  intros Hs Hnil. induction l as [|h l IH]; intros Hl i acc w; cbn [each_device].
  { exists [], w. split_and!; try done. by rewrite app_nil_r. }
  destruct (device_nonnull s h Hs) as [_ [d Hd]]; [apply Hl; set_solver|].
  rewrite (M_bind_step _ _ _ (get_shared (sm_platform s) h) _ w d w) by (unfold get_shared; by rewrite Hd).
  destruct (kernel_step _ (DeviceContext_Query EnumGpuProcesses (device_ctx_ d)) (w_ker w)) as [r k] eqn:E.
  set (w1 := log_call k (KEvent (DeviceContext_Query EnumGpuProcesses (device_ctx_ d)) r) w).
  rewrite (M_bind_step _ _ _ _ _ w r w1) by (unfold kcall_; by rewrite E).
  destruct (IH ltac:(set_solver) (i + 1) (if ErrorCode_ok r.1 then body i r.2 acc else acc) w1) as (ans & w' & Hr & Hlib & Hlen & Hlog).
  exists (r :: ans), w'. split_and!; [|done|cbn; by rewrite Hlen|].
  - assert (body i (listing r) acc = if ErrorCode_ok r.1 then body i r.2 acc else acc) as Eb.
    { unfold listing. destruct (ErrorCode_ok r.1); [done|apply Hnil]. }
    cbn [fmap list_fmap walk]. rewrite Eb. exact Hr.
  - rewrite Hlog. unfold questions. cbn [zip_with concat]. rewrite Hd. cbn. by rewrite <-app_assoc.
Qed.

Lemma all_devices_reads {A B} s (body : Z -> list GpuProcessInfo -> A -> A) acc (f : A -> M K B) (g : list (list GpuProcessInfo) -> B) :
  smi_inv s -> (forall i acc, body i [] acc = acc) ->
  (forall ls w, length ls = length (devices_ (sm_platform s)) -> f (walk body 0 ls acc) w = Some (g ls, w)) ->
  reads s g (all_devices s body acc ≫= f).
Proof.
  intros Hs Hnil Hf w. destruct (each_device_reads s body (devices_ (sm_platform s)) Hs Hnil (fun h Hh => Hh) 0 acc w) as (ans & w' & Hr & Hlib & Hlen & Hlog).
  exists ans, w'. unfold all_devices. rewrite (M_bind_step _ _ _ _ _ _ _ _ Hr). split_and!; try done. apply Hf. by rewrite length_fmap.
Qed.

(** What [fill_table] leaves of the count and of the caller's table. *)
Definition filled {A} (items : list A) (n : Z) (out : option (list A)) : option Z * option (list A) :=
  (Some (u32 (Z.of_nat (length items))), (fun dst => take (Z.to_nat n) items ++ drop (Nat.min (Z.to_nat n) (length items)) dst) <$> out).
(** The caller's table has room for the count he passes. *)
Definition has_room {A} (n : Z) (out : option (list A)) : Prop := forall dst, out = Some dst -> (Z.to_nat n <= length dst)%nat.

Lemma fill_table_runs {A} (items : list A) n out w : has_room n out ->
  fill_table items n out w = Some ((AMDSMI_STATUS_SUCCESS, filled items n out), w).
Proof.
  intros Hout. unfold fill_table, filled. destruct out as [dst|]; [|done].
  specialize (Hout dst eq_refl). unfold write_list. rewrite length_take, (proj2 (Nat.leb_le _ _)) by lia. done.
Qed.

Context (iteration : gmap Z Z -> list (Z * Z)) (Hit : forall m, iteration m ≡ₚ map_to_list m).

(** C12: The tables of processes agree. On an initialised library each of the three calls
    asks every device of the platform once, and its answer is a function of the lists [ls]
    the driver gives in that call, a device that does not answer listing none:
    [amdsmi_get_gpu_compute_process_info] answers the length of [table ls] and writes of it
    the first [n] entries and nothing else, in whatever order the hash map is;
    [amdsmi_get_gpu_compute_process_info_by_pid] answers the entry [total_of ls pid] of a
    process that is known and [AMDSMI_STATUS_NOT_FOUND] for any other;
    [amdsmi_get_gpu_compute_process_gpus] answers the number of [places pid 0 ls] and
    writes the first [n] of them. The counts answered are those of all the entries, not
    of those written. And these functions agree on the same lists: the table
    has every process that is listed exactly once, with the entry the second call gives it,
    the sum of the memory of its listings modulo 2^64 in MiB; the places are those of the
    devices that list the process, and there is one exactly for the processes of the table. *)
Theorem process_tables_agree s : smi_inv s -> 0 < init_ref_count s ->
  (forall n out, has_room n out ->
     reads s (fun ls => (AMDSMI_STATUS_SUCCESS, filled (table iteration ls) n out)) (amdsmi_get_gpu_compute_process_info iteration s out (Some n))) /\
  (forall pid old,
     reads s (fun ls => if known ls pid then (AMDSMI_STATUS_SUCCESS, Some (total_of ls pid)) else (AMDSMI_STATUS_NOT_FOUND, Some old))
       (amdsmi_get_gpu_compute_process_info_by_pid s pid (Some old))) /\
  (forall pid n out, has_room n out ->
     reads s (fun ls => (AMDSMI_STATUS_SUCCESS, filled (places pid 0 ls) n out)) (amdsmi_get_gpu_compute_process_gpus s pid out (Some n))) /\
  forall ls,
    NoDup (pi_process_id <$> table iteration ls) /\
    (forall e, e ∈ table iteration ls <-> known ls (pi_process_id e) = true /\ e = total_of ls (pi_process_id e)) /\
    (forall pid i, i ∈ places pid 0 ls <-> exists l, 0 <= i /\ ls !! Z.to_nat i = Some l /\ existsb (uses pid) l = true) /\
    (forall pid, known ls pid = true <-> places pid 0 ls <> []).
Proof using Hit.
  intros Hs Hn. assert ((init_ref_count s =? 0) = false) as Hc by lia.
  assert (Z.of_nat (length (devices_ (sm_platform s))) <= 16) as Hdev by apply (so_platform _ (si_ok _ Hs)).
  split_and!.
  - intros n out Hout. unfold amdsmi_get_gpu_compute_process_info, AMDSMI_CHECK_INIT, pid_vram_map. rewrite Hc.
    apply all_devices_reads; [done|done|]. intros ls w _. rewrite walk_fold. by apply fill_table_runs.
  - intros pid old. unfold amdsmi_get_gpu_compute_process_info_by_pid, AMDSMI_CHECK_INIT, nonnull. rewrite Hc.
    apply all_devices_reads; [done|done|]. intros ls w _. rewrite walk_fold, add_matching_spec by lia. cbv beta iota.
    fold (known ls pid). rewrite orb_false_l. by destruct (known ls pid).
  - intros pid n out Hout. unfold amdsmi_get_gpu_compute_process_gpus, AMDSMI_CHECK_INIT. rewrite Hc.
    apply all_devices_reads; [done|done|]. intros ls w Hlen. rewrite walk_places by lia. by apply fill_table_runs.
  - intros ls. destruct (table_pids iteration Hit ls) as [H1 H2]. split_and!; [done|done| |apply known_places].
    intros pid i. rewrite places_elem. by rewrite Z.sub_0_r.
Qed.
End tables.

Lemma process_tables_agree_witness :
  (forall m : gmap Z Z, map_to_list m ≡ₚ map_to_list m) /\ smi_inv demo_smi /\ 0 < init_ref_count demo_smi /\
  exists r w', amdsmi_get_gpu_compute_process_info_by_pid demo_smi 100 (Some (mkProcessInfo 0 0 0 0 0)) (demo_world []) = Some (r, w') /\
    r = (AMDSMI_STATUS_SUCCESS, Some (mkProcessInfo 100 5 0 0 0)).
Proof.
  assert (0 < init_ref_count demo_smi) as Hn by (vm_compute; reflexivity). split; [done|split; [exact demo_smi_inv|split; [exact Hn|]]].
  destruct (proj1 (proj2 (process_tables_agree (K := DemoKernel) map_to_list (fun m => Permutation_refl _) demo_smi demo_smi_inv Hn))
    100 (mkProcessInfo 0 0 0 0 0) (demo_world [])) as (ans & w' & Hr & _).
  assert (fst <$> amdsmi_get_gpu_compute_process_info_by_pid demo_smi 100 (Some (mkProcessInfo 0 0 0 0 0)) (demo_world []) =
    Some (AMDSMI_STATUS_SUCCESS, Some (mkProcessInfo 100 5 0 0 0))) as Hv by (vm_compute; reflexivity).
  eexists _, w'. split; [exact Hr|]. rewrite Hr in Hv. by injection Hv.
Defined.

(** A process whose memory two devices do not know, [UINT64_MAX] for each. *)
Lemma unknown_memory_adds_up :
  (fold_left (add_matching 7) [mkGpuProcessInfo 7 UINT64_MAX; mkGpuProcessInfo 7 UINT64_MAX] (0, false)).1 = UINT64_MAX - 1 /\
  pi_vram_usage (process_info 7 (UINT64_MAX - 1)) = 17592186044415.
Proof. vm_compute. done. Qed.
