(* ===== verification/SmiQuerySpec.v ===== *)
(** * SmiQuerySpec: what the queries of AMD SMI hand out

    Refusal before initialisation, texts that end inside of their buffers, tables that stay
    inside of their arrays when the driver's counts do. *)

From Stdlib Require Import String Ascii.
From S2P Require Import Prelude.
From S2P Require Import CString.
From S2P Require Import BitField.
From S2P Require Import Status.
From S2P Require Import SmiStatus.
From S2P Require Import SmiTypes.
From S2P Require Import World.
From S2P Require Import Platform.
From S2P Require Import PlatformSpec.
From S2P Require Import Demo.
From S2P Require Import Smi.
From S2P Require Import SmiQuery.
From S2P Require Import SmiSensor.
From S2P Require Import SmiProcess.
From S2P Require Import SmiStubs.
From S2P Require Import SmiSpec.
From S2P Require Import SmiDeviceSpec.
#[local] Open Scope Z_scope.

(** ** Before initialisation and after shutdown *)

Section uninitialised.
Context {K : Type} `{Hk : Kernel K}.
Implicit Types s : Smi.

(** A query answers [AMDSMI_STATUS_NOT_INIT] and leaves the caller's object and the world
    alone. *)
Definition refuses {A T} (f : A -> option T -> M K (amdsmi_status_t * option T)) : Prop :=
  forall a out w, f a out w = Some ((AMDSMI_STATUS_NOT_INIT, out), w).

Lemma not_init {T} s (out : T) (m : M K (amdsmi_status_t * T)) w : init_ref_count s = 0 ->
  AMDSMI_CHECK_INIT s out m w = Some ((AMDSMI_STATUS_NOT_INIT, out), w).
Proof. unfold AMDSMI_CHECK_INIT. by intros ->. Qed.

(** The four queries that do not ask: on a handle that is not [nullptr]. *)
Definition uses_device s (h : Z) (w : World K) : Prop :=
  (forall x, amdsmi_get_gpu_fan_rpms s h (Some x) w = None) /\
  (forall x, amdsmi_get_gpu_fan_speed s h (Some x) w = None) /\
  (forall x, amdsmi_get_gpu_pci_bandwidth s h (Some x) w = None) /\
  (forall x, amdsmi_get_gpu_volt_metric s h AMDSMI_VOLT_TYPE_VDDGFX AMDSMI_VOLT_CURRENT (Some x) w = None).

(** C39: A library that is not initialised refuses. While the count is zero every one of
    the forty calls that check it answers [AMDSMI_STATUS_NOT_INIT], whatever the arguments:
    no handle is followed, no call is made, the caller's objects keep what they hold. The
    two fan speeds, the PCI bandwidth and the voltage do not check: with the handle of a
    device that a shutdown deleted they use the deleted object. *)
Theorem uninitialised_refuses s : init_ref_count s = 0 ->
  (* handles and addresses *)
  (forall n l (w : World K), amdsmi_get_socket_handles s n l w = Some ((AMDSMI_STATUS_NOT_INIT, n, l), w)) /\
  refuses (fun a out => amdsmi_get_socket_info s a.1 a.2 out) /\
  (forall h n l (w : World K), amdsmi_get_processor_handles s h n l w = Some ((AMDSMI_STATUS_NOT_INIT, n, l), w)) /\
  refuses (fun h out => amdsmi_get_processor_type s h out) /\ refuses (fun h out => amdsmi_get_gpu_device_bdf s h out) /\
  refuses (fun h out => amdsmi_get_gpu_bdf_id s h out) /\ refuses (fun b out => amdsmi_get_processor_handle_from_bdf s b out) /\
  (* the identity of a device *)
  refuses (fun a out => amdsmi_get_gpu_device_uuid s a.1 a.2 out) /\ refuses (fun h out => amdsmi_get_gpu_id s h out) /\
  refuses (fun h out => amdsmi_get_gpu_revision s h out) /\ refuses (fun h out => amdsmi_get_gpu_subsystem_id s h out) /\
  refuses (fun h out => amdsmi_get_gpu_asic_info s h out) /\ refuses (fun h out => amdsmi_get_gpu_board_info s h out) /\
  refuses (fun a out => amdsmi_get_gpu_vendor_name s a.1 out a.2) /\ refuses (fun a out => amdsmi_get_gpu_subsystem_name s a.1 out a.2) /\
  refuses (fun h out => amdsmi_get_gpu_vbios_info s h out) /\ refuses (fun h out => amdsmi_get_gpu_driver_info s h out) /\
  (* caches, firmware and memory *)
  refuses (fun h out => amdsmi_get_gpu_cache_info s h out) /\ refuses (fun h out => amdsmi_get_fw_info s h out) /\
  refuses (fun h out => amdsmi_get_gpu_vram_usage s h out) /\ refuses (fun h out => amdsmi_get_gpu_vram_info s h out) /\
  refuses (fun a out => amdsmi_get_gpu_memory_total s a.1 a.2 out) /\ refuses (fun a out => amdsmi_get_gpu_memory_usage s a.1 a.2 out) /\
  amdsmi_set_gpu_memory_partition_mode s = AMDSMI_STATUS_NOT_INIT /\
  (* sensors, clocks and links *)
  refuses (fun a out => amdsmi_get_temp_metric s a.1.1 a.1.2 a.2 out) /\ refuses (fun _ : unit => amdsmi_get_gpu_metrics_header_info s) /\
  refuses (fun h out => amdsmi_get_gpu_metrics_info s h out) /\ refuses (fun h out => amdsmi_get_power_info s h out) /\
  refuses (fun h out => amdsmi_get_power_cap_info s h out) /\ refuses (fun a out => amdsmi_get_clk_freq s a.1 a.2 out) /\
  refuses (fun a out => amdsmi_get_clock_info s a.1 a.2 out) /\ refuses (fun h out => amdsmi_get_pcie_info s h out) /\
  refuses (fun h out => amdsmi_get_gpu_pci_replay_counter s h out) /\ refuses (fun h out => amdsmi_get_gpu_activity s h out) /\
  refuses (fun h out => amdsmi_get_gpu_busy_percent s h out) /\
  (forall h l n ts (w : World K), amdsmi_get_utilization_count s h l n ts w = Some ((AMDSMI_STATUS_NOT_INIT, (l, ts)), w)) /\
  (* processes *)
  refuses (fun pid out => amdsmi_get_gpu_compute_process_info_by_pid s pid out) /\
  (forall h max l (w : World K), amdsmi_get_gpu_process_list s h max l w = Some ((AMDSMI_STATUS_NOT_INIT, (max, l)), w)) /\
  (forall it l n (w : World K), amdsmi_get_gpu_compute_process_info it s l n w = Some ((AMDSMI_STATUS_NOT_INIT, (n, l)), w)) /\
  (forall pid l n (w : World K), amdsmi_get_gpu_compute_process_gpus s pid l n w = Some ((AMDSMI_STATUS_NOT_INIT, (n, l)), w)) /\
  (* without the check *)
  (forall h w, h <> 0 -> pl_devices (sm_platform s) !! h = None -> uses_device s h w).
Proof.
  intros Hn.
  do 40 (split; [first [intros a out w; by apply not_init|intros h a out w; by apply not_init|intros h l n ts w; by apply not_init
    |intros a b w; unfold amdsmi_get_socket_handles; by rewrite Hn|intros a b c w; unfold amdsmi_get_processor_handles; by rewrite Hn
    |unfold amdsmi_set_gpu_memory_partition_mode; by rewrite Hn]|]).
  intros h w Hh Hd. apply Z.eqb_neq in Hh. split_and!; intros x;
    unfold amdsmi_get_gpu_fan_rpms, amdsmi_get_gpu_fan_speed, amdsmi_get_gpu_pci_bandwidth, amdsmi_get_gpu_volt_metric, metric_value, nonnull, device_of, get_shared;
    cbn [negb Z.eqb AMDSMI_VOLT_CURRENT AMDSMI_VOLT_TYPE_VDDGFX]; by rewrite Hh, Hd.
Qed.
End uninitialised.

(** After the last shutdown on the demonstration machine. *)
Definition demo_down : Smi :=
  default (Smi_new 1) ((fun r => r.1.2) <$> do_ops [OpInit; OpShutDown] (Smi_new 1) (demo_world [])).

Lemma uninitialised_refuses_witness :
  init_ref_count demo_down = 0 /\ pl_devices (sm_platform demo_down) !! 2 = None /\ uses_device demo_down 2 (demo_world []).
Proof.
  assert (init_ref_count demo_down = 0) as Hn by (vm_compute; reflexivity).
  assert (pl_devices (sm_platform demo_down) !! 2 = None) as Hd by (vm_compute; reflexivity).
  split; [exact Hn|split; [exact Hd|]].
  pose proof (uninitialised_refuses (K := DemoKernel) demo_down Hn) as Hall. do 40 apply proj2 in Hall. by apply Hall.
Defined.

(** ** Texts *)

Definition no_NUL (s : string) : Prop := Forall (fun c => c <> NUL) (chars s).
Definition str_prefix (n : nat) (s : string) : string := string_of_list_ascii (take n (chars s)).

Lemma take_no_NUL n s : no_NUL s -> Forall (fun c => c <> NUL) (take n (chars s)).
Proof. apply Forall_take. Qed.

Lemma write0_Some l b : (length l <= length b)%nat -> write_at 0 l b = Some (l ++ drop (length l) b).
Proof. intros Hl. unfold write_at. by rewrite (proj2 (Nat.leb_le _ _)). Qed.

Lemma length_strncpy n s : length (take n (chars s ++ repeat NUL n)) = n.
Proof. rewrite length_take, length_app, repeat_length. lia. Qed.

(** [strncpy] of a text that is shorter than the room pads it. *)
Lemma strncpy_short s n b : (String.length s < n)%nat -> (n <= length b)%nat ->
  exists rest, strncpy s n b = Some (chars s ++ NUL :: rest) /\ drop n (chars s ++ NUL :: rest) = drop n b.
Proof.
  intros Hs Hn. unfold strncpy. rewrite write0_Some by (by rewrite length_strncpy). rewrite length_strncpy.
  rewrite take_app, take_ge by (rewrite length_chars; lia). rewrite length_chars.
  destruct (n - String.length s)%nat as [|m] eqn:E; [lia|]. destruct n as [|n]; [lia|]. cbn [repeat take]. exists (take m (repeat NUL n) ++ drop (S n) b).
  rewrite <-!app_assoc. split; [done|]. rewrite drop_app, length_chars, drop_ge by (rewrite length_chars; lia). rewrite E. cbn.
  rewrite drop_app, length_take, repeat_length, drop_ge by (rewrite length_take, repeat_length; lia). cbn. rewrite drop_drop. f_equal. lia.
Qed.

(** A longer one fills it. *)
Lemma strncpy_long s n b : (n <= String.length s)%nat -> (n <= length b)%nat -> strncpy s n b = Some (take n (chars s) ++ drop n b).
Proof.
  intros Hs Hn. unfold strncpy. rewrite write0_Some by (by rewrite length_strncpy). rewrite length_strncpy.
  rewrite take_app_le by (rewrite length_chars; lia). done.
Qed.

Lemma c_string_prefix n s rest : no_NUL s -> c_string (take n (chars s) ++ NUL :: rest) = Some (str_prefix n s).
Proof.
  intros Hs. unfold str_prefix. rewrite <-(chars_of_list (take n (chars s))) at 1. apply c_string_app. rewrite chars_of_list. by apply take_no_NUL.
Qed.

Lemma vendor_no_NUL : no_NUL amdsmi_vendor_text /\ no_NUL "Advanced Micro Devices Inc. [AMD/ATI]".
Proof. split; apply (bool_decide_unpack _); vm_compute; done. Qed.

(** What copying [src] into the first [n] places and closing the buffer after them gives. *)
Lemma closed_copy src n b : no_NUL src -> (n < length b)%nat ->
  exists b', (strncpy src n b ≫= write_at n [NUL]) = Some b' /\ c_string b' = Some (str_prefix n src) /\ drop (S n) b' = drop (S n) b.
Proof.
  intros Hsrc Hn. destruct (strncpy src n b) as [b1|] eqn:E1.
  2: { unfold strncpy in E1. rewrite write0_Some in E1 by (rewrite length_strncpy; lia). done. }
  pose proof (write_at_length _ _ _ _ E1) as Hl1. destruct (write_at_Some n [NUL] b1) as [b2 E2]; [cbn; lia|].
  exists b2. cbn. split; [done|].
  assert (drop n b1 = drop n b) as Hd by (eapply write_at_drop; [exact E1|rewrite length_strncpy; lia]).
  split.
  - unfold write_at in E2. case_match; [|done]. injection E2 as <-. destruct (Nat.lt_ge_cases (String.length src) n).
    + destruct (strncpy_short src n b) as (rest & E & _); [done|lia|]. rewrite E in E1. injection E1 as <-.
      rewrite take_app, length_chars, take_ge by (rewrite length_chars; lia). destruct (n - String.length src)%nat eqn:En; [lia|]. cbn [take].
      rewrite <-app_assoc. cbn [app]. rewrite c_string_app by done. unfold str_prefix. by rewrite take_ge, string_of_chars by (rewrite length_chars; lia).
    + rewrite strncpy_long in E1 by lia. injection E1 as <-. rewrite take_app_le by (rewrite length_take, length_chars; lia). rewrite take_take, Nat.min_id.
      by apply c_string_prefix.
  - transitivity (drop (S n) b1); [eapply write_at_drop; [exact E2|cbn; lia]|].
    assert (forall x y : buffer, drop n x = drop n y -> drop (S n) x = drop (S n) y) as Hdd.
    { intros x y Hxy. replace (S n) with (n + 1)%nat by lia. by rewrite <-!drop_drop, Hxy. }
    by apply Hdd.
Qed.

Section texts.
Context {K : Type} `{Hk : Kernel K} {Hq : StableQueries K}.
Implicit Types s : Smi.

Definition asic_arrays (info : amdsmi_asic_info_t) : Prop :=
  length (sa_market_name info) = AMDSMI_MAX_STRING_LENGTH /\ length (sa_vendor_name info) = AMDSMI_MAX_STRING_LENGTH /\
  length (sa_asic_serial info) = AMDSMI_MAX_STRING_LENGTH.

(** The character a caller left in the last place of [market_name]. *)
Definition last_char (info : amdsmi_asic_info_t) : ascii := default NUL (sa_market_name info !! 255%nat).

Definition asic_vendor (id : Z) : string := if id =? 0x1002 then "Advanced Micro Devices Inc. [AMD/ATI]" else EmptyString.

Definition asic_texts_ok (ai : AsicInfo) (info0 info : amdsmi_asic_info_t) : Prop :=
  c_string (sa_asic_serial info) = Some (hex_fixed 16 (as_asic_serial ai)) /\ read_hex 0 (hex_fixed 16 (as_asic_serial ai)) = Some (as_asic_serial ai) /\
  c_string (sa_vendor_name info) = Some (asic_vendor (as_vendor_id ai)) /\
  c_string (sa_market_name info) =
    (if (String.length (as_market_name ai) <? 255)%nat || bool_decide (last_char info0 = NUL) then Some (str_prefix 255 (as_market_name ai)) else None).

Lemma serial_printed serial b : 0 <= serial < 2 ^ 64 -> length b = AMDSMI_MAX_STRING_LENGTH ->
  exists b', snprintf AMDSMI_MAX_STRING_LENGTH (print_x 16 serial) b = Some b' /\ c_string b' = Some (hex_fixed 16 serial).
Proof.
  intros Hs Hb. rewrite print_x_fixed by (change (16 ^ Z.of_nat 16) with (2 ^ 64); lia). unfold snprintf, AMDSMI_MAX_STRING_LENGTH.
  rewrite take_ge by (rewrite length_chars, hex_fixed_length; lia).
  rewrite write0_Some by (rewrite length_app, length_chars, hex_fixed_length, Hb; unfold AMDSMI_MAX_STRING_LENGTH; cbn; lia).
  eexists. split; [done|]. rewrite <-app_assoc. cbn [app]. apply c_string_app, hex_fixed_no_NUL.
Qed.

Lemma vendor_written id b : length b = AMDSMI_MAX_STRING_LENGTH ->
  exists b', (b ← write_at 0 [NUL] b; if id =? 0x1002 then strncpy "Advanced Micro Devices Inc. [AMD/ATI]" (AMDSMI_MAX_STRING_LENGTH - 1) b else Some b) = Some b' /\
    c_string b' = Some (asic_vendor id).
Proof.
  intros Hb. rewrite write0_Some by (rewrite Hb; unfold AMDSMI_MAX_STRING_LENGTH; cbn; lia). cbn [mbind option_bind]. unfold asic_vendor. destruct (id =? 0x1002).
  - destruct (strncpy_short "Advanced Micro Devices Inc. [AMD/ATI]" (AMDSMI_MAX_STRING_LENGTH - 1) ([NUL] ++ drop (length [NUL]) b)) as (rest & E & _).
    { vm_compute. lia. }
    { rewrite length_app, length_drop, Hb. unfold AMDSMI_MAX_STRING_LENGTH. cbn. lia. }
    eexists. split; [exact E|]. apply c_string_app, vendor_no_NUL.
  - eexists. split; [done|]. done.
Qed.

Lemma market_written name b : no_NUL name -> length b = AMDSMI_MAX_STRING_LENGTH ->
  exists b', strncpy name (AMDSMI_MAX_STRING_LENGTH - 1) b = Some b' /\
    c_string b' = (if (String.length name <? 255)%nat || bool_decide (default NUL (b !! 255%nat) = NUL) then Some (str_prefix 255 name) else None).
Proof.
  intros Hn Hb. change (AMDSMI_MAX_STRING_LENGTH - 1)%nat with 255%nat. change AMDSMI_MAX_STRING_LENGTH with 256%nat in Hb.
  destruct (Nat.ltb_spec (String.length name) 255).
  - destruct (strncpy_short name 255 b) as (rest & E & _); [done|lia|]. eexists. split; [exact E|]. cbn [orb]. rewrite c_string_app by done.
    unfold str_prefix. by rewrite take_ge, string_of_chars by (rewrite length_chars; lia).
  - rewrite strncpy_long by lia. eexists. split; [done|]. cbn [orb]. destruct (lookup_lt_is_Some_2 b 255) as [c Hc]; [lia|]. rewrite Hc. cbn [default from_option].
    rewrite (drop_S b c 255 Hc), drop_ge by lia. destruct (decide (c = NUL)) as [->|Hne]; [rewrite bool_decide_eq_true_2 by done; by apply c_string_prefix|].
    rewrite bool_decide_eq_false_2 by done. apply c_string_none, Forall_app. split; [by apply take_no_NUL|by apply Forall_singleton].
Qed.

(** C29: Where texts end. On an initialised library, for a device of the list whose name has
    no [NUL] inside: [amdsmi_get_gpu_subsystem_name] writes the longest part of the name
    that leaves room for the terminator, closes it, and nothing behind the buffer;
    [amdsmi_get_gpu_vendor_name] writes nothing behind the buffer either, but with room for
    38 characters or less there is no terminator in it;
    [amdsmi_get_gpu_asic_info] writes the serial number as 16 digits that read back to it,
    a vendor for AMD's own devices and none for others, and the name, which is terminated
    if it has fewer than 255 characters and otherwise only where the caller cleared the
    array. *)
Theorem texts_terminated s h d ai : smi_inv s -> 0 < init_ref_count s -> device_at s h d ->
  answer QueryAsicInfo (device_ctx_ d) = (Success, ai) -> no_NUL (as_market_name ai) -> 0 <= as_asic_serial ai < 2 ^ 64 ->
  (forall b len, (0 < len <= length b)%nat ->
     gives (fun r => exists b', r = (AMDSMI_STATUS_SUCCESS, Some b') /\ c_string b' = Some (str_prefix (len - 1) (as_market_name ai)) /\
                       drop len b' = drop len b)
       (amdsmi_get_gpu_subsystem_name (K := K) s h (Some b) len)) /\
  (forall b len, (len <= length b)%nat ->
     gives (fun r => exists b', r = (AMDSMI_STATUS_SUCCESS, Some b') /\ drop len b' = drop len b /\
                       if (len <=? 38)%nat then c_string (take len b') = None else c_string b' = Some amdsmi_vendor_text)
       (amdsmi_get_gpu_vendor_name (K := K) s h (Some b) len)) /\
  (forall info0, asic_arrays info0 ->
     gives (fun r => exists info, r = (AMDSMI_STATUS_SUCCESS, Some info) /\ asic_texts_ok ai info0 info /\
                       sa_device_id info = as_device_id ai /\ sa_vendor_id info = as_vendor_id ai)
       (amdsmi_get_gpu_asic_info (K := K) s h (Some info0))).
Proof using Hq.
  intros Hs Hn [Hh Hd] Ha Hname Hser. destruct (device_nonnull s h Hs Hh) as [Hh0 _]. apply Z.eqb_neq in Hh0.
  assert ((init_ref_count s =? 0) = false) as Hc by lia. split; [|split].
  - intros b len Hlen. unfold amdsmi_get_gpu_subsystem_name, AMDSMI_CHECK_INIT, device_of, query, get_shared, succeeds. rewrite Hc, Hh0, Hd.
    rewrite bool_decide_eq_false_2, (proj2 (Nat.eqb_neq len 0)) by (done || lia). cbn [orb]. eapply gives_deref; [done|]. apply gives_query. rewrite Ha.
    change (ErrorCode_ok (Success, ai).1) with true. cbn [snd]. destruct (closed_copy (as_market_name ai) (len - 1) b) as (b' & E & E2 & E3); [done|lia|].
    eapply gives_deref; [exact E|]. apply gives_ret. exists b'. replace (S (len - 1)) with len in E3 by lia. done.
  - intros b len Hlen. unfold amdsmi_get_gpu_vendor_name, AMDSMI_CHECK_INIT, succeeds. rewrite Hc, Hh0, bool_decide_eq_false_2 by done. cbn [orb mbind option_bind].
    change (String.length amdsmi_vendor_text) with 38%nat. destruct (Nat.leb_spec len 38).
    + eapply gives_deref; [by apply strncpy_long|]. apply gives_ret. eexists. split; [done|].
      assert (length (take len (chars amdsmi_vendor_text)) = len) as El by (rewrite length_take, length_chars; cbn; lia).
      split; [by rewrite drop_app_length'|]. rewrite take_app_length' by done. apply c_string_none. by apply take_no_NUL, vendor_no_NUL.
    + destruct (strncpy_short amdsmi_vendor_text len b) as (rest & E & E2); [done|done|]. eapply gives_deref; [exact E|]. apply gives_ret.
      eexists. split; [done|]. split; [exact E2|]. by apply c_string_app, vendor_no_NUL.
  - intros info0 (Hm & Hv & Hsn). unfold amdsmi_get_gpu_asic_info, AMDSMI_CHECK_INIT, nonnull, device_of, query, get_shared, succeeds.
    rewrite Hc, Hh0, Hd. eapply gives_deref; [done|]. apply gives_query. rewrite Ha. change (ErrorCode_ok (Success, ai).1) with true. cbn [snd].
    destruct (serial_printed _ _ Hser Hsn) as (b1 & E1 & F1). destruct (market_written _ _ Hname Hm) as (b2 & E2 & F2).
    destruct (vendor_written (as_vendor_id ai) _ Hv) as (b3 & E3 & F3).
    assert (asic_texts ai info0 = Some (b1, b2, b3)) as Et.
    { unfold asic_texts. rewrite E1. cbn [mbind option_bind]. rewrite E2. cbn [mbind option_bind].
      destruct (write_at 0 [NUL] (sa_vendor_name info0)) as [b4|]; [|done]. cbn [mbind option_bind] in *. by rewrite E3. }
    eapply gives_deref; [exact Et|]. apply gives_ret. eexists. split; [done|]. split; [|done]. split_and!; [exact F1| |exact F3|exact F2].
    rewrite read_hex_fixed; [f_equal; lia|]. change (16 ^ Z.of_nat 16) with (2 ^ 64). lia.
Qed.
End texts.

Lemma texts_terminated_witness :
  0 < init_ref_count demo_smi /\ no_NUL (as_market_name (demo_query QueryAsicInfo)) /\
  gives (fun r => exists b', r = (AMDSMI_STATUS_SUCCESS, Some b') /\ c_string b' = Some "Rad"%string /\ drop 4 b' = [])
    (amdsmi_get_gpu_subsystem_name (K := DemoKernel) demo_smi 2 (Some (repeat NUL 4)) 4).
Proof.
  assert (0 < init_ref_count demo_smi) as Hn by (vm_compute; reflexivity).
  assert (no_NUL (as_market_name (demo_query QueryAsicInfo))) as Hm by (apply (bool_decide_unpack _); vm_compute; done).
  split; [exact Hn|split; [exact Hm|]].
  assert (0 <= as_asic_serial (demo_query QueryAsicInfo) < 2 ^ 64) as Hs by (vm_compute; split; congruence).
  exact (proj1 (texts_terminated demo_smi 2 demo_device (demo_query QueryAsicInfo) demo_smi_inv Hn demo_device_at eq_refl Hm Hs) (repeat NUL 4) 4%nat
    ltac:(cbn; lia)).
Defined.

(** ** Tables *)

Lemma copy_entries_spec {A B} (f : A -> B -> B) n src dst : (n <= length src)%nat -> (n <= length dst)%nat ->
  copy_entries f n src dst = Some (zip_with f (take n src) (take n dst) ++ drop n dst).
Proof.
  induction n as [|n IH]; intros Hs Hd; cbn [copy_entries]; [by rewrite drop_0|]. rewrite IH by lia. cbn [mbind option_bind].
  destruct (lookup_lt_is_Some_2 src n) as [x Hx]; [lia|]. destruct (lookup_lt_is_Some_2 dst n) as [y Hy]; [lia|]. rewrite Hx. cbn [mbind option_bind].
  assert (length (zip_with f (take n src) (take n dst)) = n) as El by (rewrite length_zip_with, !length_take; lia).
  rewrite lookup_app_r, El, Nat.sub_diag, lookup_drop, Nat.add_0_r, Hy by lia. cbn [mbind option_bind]. f_equal.
  rewrite (take_S_r src n x Hx), (take_S_r dst n y Hy), zip_with_app by (rewrite !length_take; lia). cbn [zip_with].
  rewrite insert_app_r_alt, El, Nat.sub_diag by lia. rewrite (drop_S dst y n Hy). cbn. by rewrite <-app_assoc.
Qed.

Lemma copy_entries_None {A B} (f : A -> B -> B) n src dst : (length src < n \/ length dst < n)%nat -> copy_entries f n src dst = None.
Proof.
  induction n as [|n IH]; intros Hn; [lia|]. cbn [copy_entries]. destruct (Nat.lt_ge_cases (length src) n), (Nat.lt_ge_cases (length dst) n);
    try (rewrite IH by lia; done).
  rewrite copy_entries_spec by lia. cbn [mbind option_bind]. destruct (src !! n) as [x|] eqn:Ex; [|done]. cbn [mbind option_bind].
  apply lookup_lt_Some in Ex. rewrite lookup_ge_None_2; [done|]. rewrite length_app, length_zip_with, !length_take, length_drop. lia.
Qed.

(** The two speeds a bus can be in: what the table says and which entry is current. *)
Definition link_table (pi : PCIeInfo) : list (Z * Z) :=
  (if 0 <? px_max_pcie_speed pi then [(px_max_pcie_speed pi, px_max_pcie_width pi)] else []) ++
  (if (0 <? px_pcie_speed pi) && negb (px_pcie_speed pi =? px_max_pcie_speed pi) then [(px_pcie_speed pi, px_pcie_width pi)] else []).

Section tables.
Context {K : Type} `{Hk : Kernel K} {Hq : StableQueries K}.
Implicit Types s : Smi.

(** What is said of the table of PCI speeds. *)
Definition bandwidth_ok (pi : PCIeInfo) (b : amdsmi_pcie_bandwidth_t) : Prop :=
  let t := transfer_rate b in
  num_supported t = Z.of_nat (length (link_table pi)) /\ 0 <= num_supported t <= 2 /\
  take (length (link_table pi)) (frequency t) = (fun e => e.1 * 1000000) <$> link_table pi /\
  take (length (link_table pi)) (lanes b) = snd <$> link_table pi /\
  (0 < px_max_pcie_speed pi ->
     frequency t !! Z.to_nat (current t) = Some ((if 0 <? px_pcie_speed pi then px_pcie_speed pi else px_max_pcie_speed pi) * 1000000) /\
     current t < num_supported t) /\
  (px_max_pcie_speed pi = 0 -> 0 < px_pcie_speed pi ->
     num_supported t = 1 /\ current t = 1 /\ frequency t !! 0%nat = Some (px_pcie_speed pi * 1000000)).

Lemma bandwidth_of_ok pi : 0 <= px_max_pcie_speed pi < 2 ^ 32 -> 0 <= px_pcie_speed pi < 2 ^ 32 ->
  bandwidth_ok pi (bandwidth_of pi).2 /\
  (bandwidth_of pi).1 = (if (px_max_pcie_speed pi =? 0) && (px_pcie_speed pi =? 0) then AMDSMI_STATUS_NOT_SUPPORTED else AMDSMI_STATUS_SUCCESS).
Proof.
  intros Hm Hc. unfold bandwidth_ok, bandwidth_of, bandwidth_entries, link_table. rewrite !mul64_small by lia.
  destruct (Z.ltb_spec 0 (px_max_pcie_speed pi)), (Z.ltb_spec 0 (px_pcie_speed pi)), (Z.eqb_spec (px_pcie_speed pi) (px_max_pcie_speed pi)),
    (Z.eqb_spec (px_max_pcie_speed pi) 0), (Z.eqb_spec (px_pcie_speed pi) 0); try lia; cbn; split_and!; try done; try lia; intros; split_and!; try lia; try done.
  change (Some (px_max_pcie_speed pi * 1000000) = Some (px_pcie_speed pi * 1000000)). f_equal. lia.
Qed.

Definition cache_table (ci : CacheInfo) (info : amdsmi_gpu_cache_info_t) : Prop :=
  let n := Z.to_nat (ca_num_cache_types ci) in
  sc_num_cache_types info = ca_num_cache_types ci /\
  sc_cache info = ((fun e => cache_of e (mkSmiCache 0 0 0 0 0)) <$> take n (ca_cache ci)) ++
    repeat (mkSmiCache 0 0 0 0 0) (AMDSMI_MAX_CACHE_TYPES - n).

Definition fw_table (fw : FwInfo) (info : amdsmi_fw_info_t) : Prop :=
  let n := Z.to_nat (fw_num_fw_info fw) in
  sf_num_fw_info info = u8 (fw_num_fw_info fw) /\
  sf_fw_info_list info = ((fun e => mkFwInfoList (fe_fw_id e) (fe_fw_version e)) <$> take n (fw_entries fw)) ++
    repeat (mkFwInfoList AMDSMI_FW_ID__MAX 0) (Z.to_nat AMDSMI_FW_ID__MAX - n).

(** Copying over equal entries. *)
Lemma copy_over {A B} (f : A -> B -> B) (y : B) n m src : (n <= length src)%nat -> (n <= m)%nat ->
  copy_entries f n src (repeat y m) = Some (((fun x => f x y) <$> take n src) ++ repeat y (m - n)).
Proof.
  intros Hs Hm. rewrite copy_entries_spec by (rewrite ?repeat_length; lia). f_equal. f_equal.
  - replace m with (n + (m - n))%nat by lia. rewrite repeat_app, take_app_length' by (symmetry; apply repeat_length).
    assert (length (take n src) = n) as El by (rewrite length_take; lia). revert El. generalize (take n src). clear. intros l <-.
    induction l as [|x l IH]; [done|]. cbn. f_equal. exact IH.
  - replace m with (n + (m - n))%nat at 1 by lia. by rewrite repeat_app, drop_app_length' by (symmetry; apply repeat_length).
Qed.

Lemma query_abort {R B} (q : device_query R) ctx (f : ErrorCode * R -> M K B) w :
  (forall w', f (answer q ctx) w' = None) -> (kcall_ (DeviceContext_Query q ctx) ≫= f) w = None.
Proof.
  intros Hf. unfold mbind, M_bind, kcall_. destruct (kernel_step _ _ (w_ker w)) as [r k] eqn:E.
  pose proof (stable_answer R q ctx (w_ker w)) as Hr. rewrite E in Hr. cbn in Hr. subst r. apply Hf.
Qed.

(** C30: Tables stay in their arrays. On an initialised library, for a device of the list:
    the table of PCI speeds has at most two entries, those of the maximum and of the
    current speed, in Hz without overflow, and no table is made exactly when both are
    unknown. If the maximum is known, the current entry is one of the table and is the
    current speed if that is known, the maximum otherwise; if it is not, the one entry is
    the current speed but the entry called current is the one behind the end of the table.
    The caches and the firmware versions stay in their arrays under the condition that the
    driver's count is not above the size of its own array (10 caches, [kMaxFwEntries]
    firmware entries): then they are copied entry for entry, and the rest of the caller's
    array is the empty entry. A greater count is not checked: the copy runs past the end of
    the arrays. *)
Theorem tables_in_bounds s h d pi : smi_inv s -> 0 < init_ref_count s -> device_at s h d ->
  answer QueryPCIeInfo (device_ctx_ d) = (Success, pi) -> 0 <= px_max_pcie_speed pi < 2 ^ 32 -> 0 <= px_pcie_speed pi < 2 ^ 32 ->
  (forall old, gives (fun r => exists b, r.2 = Some b /\ bandwidth_ok pi b /\
       r.1 = (if (px_max_pcie_speed pi =? 0) && (px_pcie_speed pi =? 0) then AMDSMI_STATUS_NOT_SUPPORTED else AMDSMI_STATUS_SUCCESS))
     (amdsmi_get_gpu_pci_bandwidth (K := K) s h (Some old))) /\
  (forall ci old, answer QueryCacheInfo (device_ctx_ d) = (Success, ci) -> length (ca_cache ci) = AMDSMI_MAX_CACHE_TYPES ->
     if (Z.to_nat (ca_num_cache_types ci) <=? AMDSMI_MAX_CACHE_TYPES)%nat then
       gives (fun r => exists info, r = (AMDSMI_STATUS_SUCCESS, Some info) /\ cache_table ci info) (amdsmi_get_gpu_cache_info (K := K) s h (Some old))
     else forall w : World K, amdsmi_get_gpu_cache_info s h (Some old) w = None) /\
  (forall fw old, answer QueryFwInfo (device_ctx_ d) = (Success, fw) -> length (fw_entries fw) = Z.to_nat kMaxFwEntries ->
     if (Z.to_nat (fw_num_fw_info fw) <=? Z.to_nat kMaxFwEntries)%nat then
       gives (fun r => exists info, r = (AMDSMI_STATUS_SUCCESS, Some info) /\ fw_table fw info) (amdsmi_get_fw_info (K := K) s h (Some old))
     else forall w : World K, amdsmi_get_fw_info s h (Some old) w = None).
Proof using Hq.
  intros Hs Hn [Hh Hd] Ha Hm Hcur. destruct (device_nonnull s h Hs Hh) as [Hh0 _]. apply Z.eqb_neq in Hh0.
  assert ((init_ref_count s =? 0) = false) as Hc by lia. split; [|split].
  - intros old. unfold amdsmi_get_gpu_pci_bandwidth, nonnull, device_of, query, get_shared. rewrite Hh0, Hd. eapply gives_deref; [done|].
    apply gives_query. rewrite Ha. change (ErrorCode_ok (Success, pi).1) with true. cbn [snd].
    destruct (bandwidth_of_ok pi Hm Hcur) as [Hb Hst]. destruct (bandwidth_of pi) as [st b]. apply gives_ret. by exists b.
  - intros ci old Hci Hl. destruct (Nat.leb_spec (Z.to_nat (ca_num_cache_types ci)) AMDSMI_MAX_CACHE_TYPES) as [Hle|Hgt].
    + unfold amdsmi_get_gpu_cache_info, AMDSMI_CHECK_INIT, nonnull, device_of, query, get_shared, succeeds. rewrite Hc, Hh0, Hd.
      eapply gives_deref; [done|]. apply gives_query. rewrite Hci. change (ErrorCode_ok (Success, ci).1) with true. cbn [snd].
      eapply gives_deref; [unfold cache_info_zero; cbn [sc_cache]; apply copy_over; lia|]. apply gives_ret. eexists. split; [done|].
      by split.
    + intros w. unfold amdsmi_get_gpu_cache_info, AMDSMI_CHECK_INIT, nonnull, device_of, query, get_shared. rewrite Hc, Hh0, Hd.
      rewrite (M_bind_step _ _ _ _ _ _ _ _ eq_refl). apply query_abort. intros w'. rewrite Hci. change (ErrorCode_ok (Success, ci).1) with true.
      cbn [snd]. by rewrite copy_entries_None by (left; rewrite Hl; exact Hgt).
  - intros fw old Hfw Hl. destruct (Nat.leb_spec (Z.to_nat (fw_num_fw_info fw)) (Z.to_nat kMaxFwEntries)) as [Hle|Hgt].
    + unfold amdsmi_get_fw_info, AMDSMI_CHECK_INIT, nonnull, device_of, query, get_shared, succeeds. rewrite Hc, Hh0, Hd.
      eapply gives_deref; [done|]. apply gives_query. rewrite Hfw. change (ErrorCode_ok (Success, fw).1) with true. cbn [snd].
      eapply gives_deref; [unfold fw_info_zero; cbn [sf_fw_info_list]; apply copy_over; unfold kMaxFwEntries, AMDSMI_FW_ID__MAX in *; lia|].
      apply gives_ret. eexists. split; [done|]. done.
    + intros w. unfold amdsmi_get_fw_info, AMDSMI_CHECK_INIT, nonnull, device_of, query, get_shared. rewrite Hc, Hh0, Hd.
      rewrite (M_bind_step _ _ _ _ _ _ _ _ eq_refl). apply query_abort. intros w'. rewrite Hfw. change (ErrorCode_ok (Success, fw).1) with true.
      cbn [snd]. by rewrite copy_entries_None by (left; rewrite Hl; exact Hgt).
Qed.
End tables.

Lemma tables_in_bounds_witness :
  0 < init_ref_count demo_smi /\ answer QueryPCIeInfo (device_ctx_ demo_device) = (Success, demo_query QueryPCIeInfo) /\
  gives (fun r => exists b, r.2 = Some b /\ bandwidth_ok (demo_query QueryPCIeInfo) b /\ r.1 = AMDSMI_STATUS_SUCCESS)
    (amdsmi_get_gpu_pci_bandwidth (K := DemoKernel) demo_smi 2 (Some (mkPcieBandwidth frequencies_zero []))).
Proof.
  assert (0 < init_ref_count demo_smi) as Hn by (vm_compute; reflexivity). split; [exact Hn|split; [reflexivity|]].
  assert (0 <= px_max_pcie_speed (demo_query QueryPCIeInfo) < 2 ^ 32) as Hm by (vm_compute; split; congruence).
  assert (0 <= px_pcie_speed (demo_query QueryPCIeInfo) < 2 ^ 32) as Hc by (vm_compute; split; congruence).
  exact (proj1 (tables_in_bounds demo_smi 2 demo_device (demo_query QueryPCIeInfo) demo_smi_inv Hn demo_device_at eq_refl Hm Hc)
    (mkPcieBandwidth frequencies_zero [])).
Defined.

(** A link whose maximum is unknown: one entry, and entry 1 is current. *)
Lemma bandwidth_current_outside :
  (fun b => (num_supported (transfer_rate b), current (transfer_rate b))) (bandwidth_of (mkPCIeInfo 0 0 0 0 16 8000 0 0 0 0 0 0)).2 = (1, 1).
Proof. reflexivity. Qed.
