(* ===== verification/SmiUtilsSpec.v ===== *)
(** * SmiUtilsSpec: the string helpers of AMD SMI

    When the loops end and what they leave. *)

From Stdlib Require Import String Ascii.
From S2P Require Import Prelude.
From S2P Require Import CString.
From S2P Require Import Status.
From S2P Require Import SmiStatus.
From S2P Require Import SmiTypes.
From S2P Require Import World.
From S2P Require Import Runtime.
From S2P Require Import Sysfs.
From S2P Require Import Smi.
From S2P Require Import SmiQuery.
From S2P Require Import SmiUtils.
#[local] Open Scope Z_scope.

Definition contains (needle s : string) : Prop := exists pre post, s = (pre ++ needle ++ post)%string.

(** ** Parts of strings *)

Lemma chars_str_take n s : chars (str_take n s) = take n (chars s).
Proof. revert s. induction n as [|n IH]; intros [|c s]; try done. cbn. f_equal. apply IH. Qed.
Lemma chars_str_drop n s : chars (str_drop n s) = drop n (chars s).
Proof. revert s. induction n as [|n IH]; intros [|c s]; try done. cbn. apply IH. Qed.
Lemma chars_inj s t : chars s = chars t -> s = t.
Proof. intros E. by rewrite <-(string_of_chars s), E, string_of_chars. Qed.

Lemma chars_erase i n s : chars (erase i n s) = take i (chars s) ++ drop (i + n) (chars s).
Proof. unfold erase. by rewrite chars_app, chars_str_take, chars_str_drop. Qed.

Lemma length_erase i n s : (i + n <= String.length s)%nat -> String.length (erase i n s) = (String.length s - n)%nat.
Proof. intros Hl. rewrite <-length_chars, chars_erase, length_app, length_take, length_drop, length_chars. lia. Qed.

Lemma erase_sublist i n s : sublist (chars (erase i n s)) (chars s).
Proof.
  rewrite chars_erase. rewrite <-(take_drop i (chars s)) at 3. apply sublist_app; [done|]. rewrite <-drop_drop. apply sublist_drop.
Qed.

Lemma chars_substring m n s : chars (String.substring m n s) = take n (drop m (chars s)).
Proof.
  revert m n. induction s as [|c s IH]; intros m n; [by destruct m, n|]. destruct m as [|m].
  - destruct n as [|n]; [done|]. change (c :: chars (String.substring 0 n s) = c :: take n (chars s)). f_equal. by rewrite IH, drop_0.
  - change (chars (String.substring m n s) = take n (drop m (chars s))). apply IH.
Qed.

Lemma index_bound needle s i : needle <> EmptyString -> String.index 0 needle s = Some i -> (i + String.length needle <= String.length s)%nat.
Proof.
  intros Hne Hi. apply String.index_correct1 in Hi. apply (f_equal chars) in Hi. rewrite chars_substring in Hi. apply (f_equal length) in Hi.
  rewrite length_take, length_drop, !length_chars in Hi. assert (String.length needle <> 0)%nat by (by destruct needle). lia.
Qed.

Lemma index_None needle s : needle <> EmptyString -> String.index 0 needle s = None -> ~ contains needle s.
Proof.
  intros Hne Hi (pre & post & ->). apply (String.index_correct3 0 (String.length pre) needle _ Hi Hne); [lia|]. apply chars_inj.
  rewrite chars_substring, !chars_app, <-!length_chars, drop_app_length. by rewrite take_app_length.
Qed.

Lemma index_empty s : String.index 0 EmptyString s = Some 0%nat.
Proof. by destruct s. Qed.

(** ** The loops *)

Lemma removeString_ends needle fuel : needle <> EmptyString -> forall s, (String.length s <= fuel)%nat ->
  exists out, (forall more, removeString (fuel + more) s needle = Some out) /\ ~ contains needle out /\ sublist (chars out) (chars s).
Proof.
  intros Hne. induction fuel as [|fuel IH]; intros s Hs.
  - destruct s; [|by cbn in Hs; lia]. assert (String.index 0 needle EmptyString = None) as E by (by destruct needle). exists EmptyString.
    split_and!; [|by apply index_None|done]. intros more. destruct more; cbn [removeString Nat.add]; by rewrite E.
  - cbn [removeString Nat.add]. destruct (String.index 0 needle s) as [i|] eqn:E.
    + pose proof (index_bound _ _ _ Hne E) as Hb. assert (String.length needle <> 0)%nat by (by destruct needle).
      destruct (IH (erase i (String.length needle) s)) as (out & H1 & H2 & H3); [rewrite length_erase by done; lia|].
      exists out. split_and!; [done|done|]. etrans; [exact H3|apply erase_sublist].
    + exists s. split_and!; [done|by apply index_None|done].
Qed.

Lemma removeString_empty fuel s : removeString fuel s EmptyString = None.
Proof. revert s. induction fuel as [|fuel IH]; intros s; cbn [removeString]; rewrite index_empty; [done|apply IH]. Qed.

Lemma split_from_ends fuel delim : forall rest out, (String.length rest <= fuel)%nat -> Forall (fun t => t <> EmptyString) out ->
  exists tokens, split_from fuel rest delim out = Some tokens /\ Forall (fun t => t <> EmptyString) tokens.
Proof.
  induction fuel as [|fuel IH]; intros rest out Hl Hout; (destruct rest as [|c rest]; [by exists out|]); [by cbn in Hl; lia|]. cbn [split_from].
  apply IH.
  - rewrite <-length_chars, chars_str_drop, length_drop, length_chars. cbn in *. lia.
  - destruct (String.eqb_spec (trim (str_take (default (String.length (String c rest)) (find_char delim (String c rest))) (String c rest))) EmptyString); [done|].
    apply Forall_app. split; [done|]. by apply Forall_singleton.
Qed.

(** The string loops end. [removeString] with something to remove ends after as many
    rounds as the string has characters: it leaves characters of the string in their
    order, and what was to be removed is not among them any more, not even where the parts
    around a removal meet. With the empty string to remove it never ends. [split_string]
    ends for every line and delimiter, with no empty token. *)
Theorem string_loops_end :
  (forall needle s, needle <> EmptyString ->
     exists out, (forall more, removeString (String.length s + more) s needle = Some out) /\ ~ contains needle out /\ sublist (chars out) (chars s)) /\
  (forall fuel s, removeString fuel s EmptyString = None) /\
  (forall line delim, exists tokens, split_string line delim = Some tokens /\ Forall (fun t => t <> EmptyString) tokens).
Proof.
  split_and!.
  - intros needle s Hne. by apply removeString_ends.
  - apply removeString_empty.
  - intros line delim. by apply split_from_ends.
Qed.

Lemma removeString_meets : removeString 6 "aabbab" "ab" = Some EmptyString.
Proof. reflexivity. Qed.

(** ** Numbers *)

Section numbers.
Context {K : Type} `{Hk : Kernel K}.

(** The board information never has a serial number. *)
Lemma product_serial_never (s : Smi) h (w : World K) n w' : get_product_serial_number s h w = Some (n, w') -> n = 0.
Proof.
  unfold get_product_serial_number. intros ([st info] & w1 & H1 & H2)%M_bind_Some. injection H2 as <- _.
  case_match; [done|]. assert (sb_product_serial (default board_info_zero info) = EmptyString) as ->; [|done].
  unfold amdsmi_get_gpu_board_info, query_into, AMDSMI_CHECK_INIT, nonnull, device_of, query, fails, succeeds in H1.
  repeat (case_match; [by injection H1 as _ <- _|]). apply M_bind_Some in H1 as (d & w2 & _ & H1). apply M_bind_Some in H1 as (r & w3 & _ & H1).
  case_match; by injection H1 as _ <- _.
Qed.

(** The time to live of the cache is never negative. *)
Lemma read_env_ms_nonneg name def : 0 <= def -> returns (fun n => 0 <= n) (read_env_ms (K := K) name def).
Proof. intros Hd. unfold read_env_ms. apply returns_any. intros r. apply returns_ret. repeat case_match; lia. Qed.
End numbers.

Lemma string_loops_end_witness :
  "ab"%string <> EmptyString /\ exists out, removeString 6 "aabbab" "ab" = Some out /\ ~ contains "ab" out.
Proof.
  split; [done|]. destruct (proj1 string_loops_end "ab"%string "aabbab"%string ltac:(done)) as (out & H1 & H2 & _).
  exists out. split; [exact (H1 0%nat)|exact H2].
Defined.
