(* ===== verification/Wakeup.v ===== *)
(** * Wakeup: the sleep of the worker of a compute queue (src/wddm/queue.cpp)

    The worker sleeps on a condition variable when it sees nothing to do, producers
    publish packets without the lock and ring the doorbell, the destructor asks it to
    stop. Each access to what they share is a step here, so that all interleavings are
    there; what the worker does with a packet is one step, its effects are those of
    Queue.v. A packet is named by its index, as the write pointer counts them. *)

From stdpp Require Import relations.
From S2P Require Import Prelude.
From S2P Require Import World.
#[local] Open Scope Z_scope.

(** ** State *)

Record Ring := mkRing {
  rg_wptr : Z;             (* [*ring_wptr], written by producers *)
  rg_rptr : Z;             (* [*ring_rptr], written by the device *)
  rg_write_index : Z;      (* [cmdbuf_aql_frame_write_index], the next packet of the worker *)
  rg_packets : gset Z;     (* the packets whose header has been published *)
}.

Definition rg_set_wptr (v : Z) (r : Ring) : Ring := mkRing v (rg_rptr r) (rg_write_index r) (rg_packets r).
Definition rg_set_rptr (v : Z) (r : Ring) : Ring := mkRing (rg_wptr r) v (rg_write_index r) (rg_packets r).
Definition rg_set_write_index (v : Z) (r : Ring) : Ring := mkRing (rg_wptr r) (rg_rptr r) v (rg_packets r).
Definition rg_publish (i : Z) (r : Ring) : Ring := mkRing (rg_wptr r) (rg_rptr r) (rg_write_index r) ({[i]} ∪ rg_packets r).

(** [!IsInvalidPacket()] *)
Definition has_packet (r : Ring) : bool := bool_decide (rg_write_index r ∈ rg_packets r).

(** Where the worker is in its loop; [sleep] is its local variable, [wptr] and [rptr]
    what it has read of the pointers, in the order the compiler has chosen. *)
Inductive wake_pc :=
  | Polling (sleep : bool)             (* the top of the loop *)
  | Processing                         (* in [Process] *)
  | Checking (sleep : bool) (wptr rptr : option Z)  (* the test without the lock *)
  | Locking (sleep : bool)
  | Testing (sleep : bool) (wptr rptr : option Z)   (* from here on under the lock *)
  | Peeking (sleep : bool)
  | Deciding (sleep : bool)
  | Sleeping (sleep : bool)            (* in [wait], the lock released *)
  | Woken (sleep : bool)
  | Exited.

Definition holds_lock (pc : wake_pc) : bool :=
  match pc with Testing _ _ _ | Peeking _ | Deciding _ => true | _ => false end.

(** [wk_owing] threads have published packets and not yet taken the lock of their
    doorbell; [wk_notifying] have released a lock and will notify. *)
Record WakeState := mkWakeState {
  wk_ring : Ring;
  wk_stop : bool;
  wk_owing : nat;
  wk_notifying : nat;
  wk_pc : wake_pc;
}.

(** ** Steps *)

(** The worker alone: the loop of [AqlToPm4Thread] from one shared access to the next. *)
Inductive worker_step (stop : bool) : Ring * wake_pc -> Ring * wake_pc -> Prop :=
  | w_poll r s : has_packet r = true -> worker_step stop (r, Polling s) (r, Processing)
  (* nothing there: the clock may let it sleep, a moved write pointer keep it awake *)
  | w_poll_none r s s' : has_packet r = false -> worker_step stop (r, Polling s) (r, Checking s' None None)
  | w_process r : has_packet r = true -> rg_write_index r < rg_wptr r ->
      worker_step stop (r, Processing) (rg_set_write_index (rg_write_index r + 1) r, Processing)
  | w_processed r : has_packet r = false \/ rg_wptr r <= rg_write_index r ->
      worker_step stop (r, Processing) (r, Checking false None None)
  | w_fail r : worker_step stop (r, Processing) (r, Exited)
  | w_check_wptr r s o : worker_step stop (r, Checking s None o) (r, Checking s (Some (rg_wptr r)) o)
  | w_check_rptr r s o : worker_step stop (r, Checking s o None) (r, Checking s o (Some (rg_rptr r)))
  | w_checked r s w p : worker_step stop (r, Checking s (Some w) (Some p))
      (r, if (p <? w) && negb s then Polling s else Locking s)
  | w_lock r s : worker_step stop (r, Locking s) (r, Testing s None None)
  | w_test_wptr r s o : worker_step stop (r, Testing s None o) (r, Testing s (Some (rg_wptr r)) o)
  | w_test_rptr r s o : worker_step stop (r, Testing s o None) (r, Testing s o (Some (rg_rptr r)))
  | w_tested r s w p : worker_step stop (r, Testing s (Some w) (Some p))
      (r, if w <=? p then Deciding s else if s then Peeking s else Polling s)
  | w_peek r s : worker_step stop (r, Peeking s) (r, if has_packet r then Polling s else Deciding s)
  | w_decide r s : worker_step stop (r, Deciding s) (r, if stop then Exited else Sleeping s)
  | w_spurious r s : worker_step stop (r, Sleeping s) (r, Woken s)
  | w_woken r s : worker_step stop (r, Woken s) (r, Polling s).

(** [notify_one]: the worker is the one thread that waits. *)
Definition notified (pc : wake_pc) : wake_pc := match pc with Sleeping s => Woken s | pc => pc end.

(** Doorbells and the destructor: the lock is taken and released, then the worker is
    notified. *)
Inductive doorbell_step : WakeState -> WakeState -> Prop :=
  | d_lock r stop o n pc : holds_lock pc = false ->
      doorbell_step (mkWakeState r stop (S o) n pc) (mkWakeState r stop o (S n) pc)
  | d_notify r stop o n pc :
      doorbell_step (mkWakeState r stop o (S n) pc) (mkWakeState r stop o n (notified pc)).

Inductive wake_step : WakeState -> WakeState -> Prop :=
  | wk_worker r r' stop o n pc pc' : worker_step stop (r, pc) (r', pc') ->
      wake_step (mkWakeState r stop o n pc) (mkWakeState r' stop o n pc')
  | wk_doorbell s s' : doorbell_step s s' -> wake_step s s'
  (* a producer moves the write pointer, then publishes packets before it *)
  | wk_reserve r stop o n pc v : rg_wptr r <= v ->
      wake_step (mkWakeState r stop o n pc) (mkWakeState (rg_set_wptr v r) stop o n pc)
  | wk_publish r stop o o' n pc i : i < rg_wptr r -> o' = S o \/ (0 < o /\ o' = o)%nat ->
      wake_step (mkWakeState r stop o n pc) (mkWakeState (rg_publish i r) stop o' n pc)
  (* the device moves the read pointer over packets the worker has handed it *)
  | wk_device r stop o n pc v : rg_rptr r <= v <= rg_write_index r ->
      wake_step (mkWakeState r stop o n pc) (mkWakeState (rg_set_rptr v r) stop o n pc)
  (* the destructor, under the lock *)
  | wk_destroy r stop o n pc : holds_lock pc = false ->
      wake_step (mkWakeState r stop o n pc) (mkWakeState r true o (S n) pc).

(** A queue just built. *)
Definition wake_start : WakeState := mkWakeState (mkRing 0 0 0 ∅) false 0 0 (Polling false).

(** ** The invariant *)

(** What the worker has seen of the ring holds up, unless a doorbell is still to come. *)
Definition pc_ok (s : WakeState) : Prop :=
  let work := has_packet (wk_ring s) = true in
  match wk_pc s with
  | Testing _ w p =>
      (forall v, w = Some v -> work -> (0 < wk_owing s)%nat \/ rg_write_index (wk_ring s) < v) /\
      (forall v, p = Some v -> v <= rg_write_index (wk_ring s))
  | Deciding _ => work -> (0 < wk_owing s)%nat
  | Sleeping _ => (work -> (0 < wk_owing s + wk_notifying s)%nat) /\ (wk_stop s = true -> (0 < wk_notifying s)%nat)
  | _ => True
  end.

Record wake_inv (s : WakeState) : Prop := {
  wi_published : forall i, i ∈ rg_packets (wk_ring s) -> i < rg_wptr (wk_ring s);
  wi_rptr : rg_rptr (wk_ring s) <= rg_write_index (wk_ring s);
  wi_pc : pc_ok s;
}.

Lemma has_packet_true r : has_packet r = true <-> rg_write_index r ∈ rg_packets r.
Proof. apply bool_decide_eq_true. Qed.

Lemma worker_step_inv r r' stop o n pc pc' :
  wake_inv (mkWakeState r stop o n pc) -> worker_step stop (r, pc) (r', pc') -> wake_inv (mkWakeState r' stop o n pc').
Proof.
  intros [Hp Hr Hpc] Hstep. cbn in *. inversion Hstep; subst; split; unfold pc_ok in *; cbn in *; try done; try lia.
  - by case_match.
  - destruct Hpc as [_ Hpc]. split; [|done]. intros v [= <-] Hw%has_packet_true. right. by apply Hp.
  - destruct Hpc as [Hpc _]. split; [done|]. intros v [= <-]. done.
  - destruct Hpc as [Hw Hpr]. specialize (Hpr _ eq_refl). destruct (Z.leb_spec w p); [|by case_match]. cbn in *.
    intros Hwork. destruct (Hw _ eq_refl Hwork); [done|lia].
  - destruct (has_packet r') eqn:E; [done|]. done.
  - destruct stop; cbn; [done|]. split; [|done]. intros Hw. specialize (Hpc Hw). lia.
Qed.

Lemma doorbell_step_inv s s' : wake_inv s -> doorbell_step s s' -> wake_inv s'.
Proof.
  intros [Hp Hr Hpc]. destruct 1 as [r stop o n pc Hlock|r stop o n pc]; split; unfold pc_ok in *; cbn in *; try done.
  - destruct pc; cbn in *; try done. destruct Hpc as [Hw Hs]. split; [intros H; specialize (Hw H); lia|lia].
  - by destruct pc.
Qed.

Lemma publish_pc_ok r stop o o' n pc i : (0 < o')%nat -> pc_ok (mkWakeState r stop o n pc) ->
  pc_ok (mkWakeState (rg_publish i r) stop o' n pc).
Proof.
  intros Ho. unfold pc_ok. destruct pc; cbn; try done; try lia; intros [H1 H2]; split; try done; [by left|lia].
Qed.

Lemma wake_step_inv s s' : wake_inv s -> wake_step s s' -> wake_inv s'.
Proof.
  intros Hs. destruct 1 as [r r' stop o n pc pc' Hw|s0 s0' Hd|r stop o n pc v Hv|r stop o o' n pc i Hi Ho|r stop o n pc v Hv|r stop o n pc Hlock].
  - by eapply worker_step_inv.
  - by eapply doorbell_step_inv.
  - destruct Hs as [Hp Hr Hpc]. split; cbn in *; [intros i Hi; specialize (Hp i Hi); lia|done|by destruct pc].
  - destruct Hs as [Hp Hr Hpc]. split; cbn in *; [|done|eapply publish_pc_ok; [|exact Hpc]; lia].
    intros j [->%elem_of_singleton|Hj]%elem_of_union; [done|by apply Hp].
  - destruct Hs as [Hp Hr Hpc]. split; cbn in *; [done|lia|by destruct pc].
  - destruct Hs as [Hp Hr Hpc]. split; cbn in *; [done|done|]. unfold pc_ok in *. destruct pc; cbn in *; try done.
    split; lia.
Qed.

Lemma wake_inv_reachable s : rtc wake_step wake_start s -> wake_inv s.
Proof.
  intros Hreach. pattern s. eapply rtc_ind_r; [| |exact Hreach].
  - split; cbn; [set_solver|lia|done].
  - intros s1 s2 _ Hstep Hs1. by eapply wake_step_inv.
Qed.

(** C15: The worker of a compute queue misses no wake-up. Whatever the interleaving, when
    it sleeps although its next packet has been published, or although the destructor
    has asked it to stop, a doorbell or the destructor is on its way to notify it, and
    can do so with no step of anyone else. *)
Theorem worker_misses_no_wakeup s sleep :
  rtc wake_step wake_start s -> wk_pc s = Sleeping sleep -> has_packet (wk_ring s) = true \/ wk_stop s = true ->
  (0 < wk_owing s + wk_notifying s)%nat /\
  exists s', rtc doorbell_step s s' /\ wk_pc s' = Woken sleep /\ wk_ring s' = wk_ring s /\ wk_stop s' = wk_stop s.
Proof.
  intros Hreach Hsl Hwork. destruct (wake_inv_reachable s Hreach) as [_ _ Hpc]. unfold pc_ok in Hpc. rewrite Hsl in Hpc.
  assert (0 < wk_owing s + wk_notifying s)%nat as Hring.
  { destruct Hpc as [H1 H2], Hwork as [Hw|Hw]; [by apply H1|specialize (H2 Hw); lia]. }
  split; [done|]. destruct s as [r stop o [|n] pc]; cbn in *; subst pc.
  - destruct o as [|o]; [lia|]. exists (mkWakeState r stop o 0 (Woken sleep)). split; [|done].
    eapply rtc_l; [by apply d_lock|]. eapply rtc_once, (d_notify r stop o 0 (Sleeping sleep)).
  - exists (mkWakeState r stop o n (Woken sleep)). split; [|done]. eapply rtc_once, (d_notify r stop o n (Sleeping sleep)).
Qed.

(** A worker that went to sleep on an empty ring, and a producer that published a packet
    and has not rung yet. *)
Definition demo_asleep : WakeState := mkWakeState (mkRing 1 0 0 ({[0]} ∪ ∅)) false 1 0 (Sleeping false).

Lemma demo_asleep_reachable : rtc wake_step wake_start demo_asleep.
Proof.
  set (r := mkRing 0 0 0 ∅).
  assert (rtc wake_step wake_start (mkWakeState r false 0 0 (Sleeping false))) as H0.
  { eapply rtc_l; [apply wk_worker, (w_poll_none _ _ _ false); reflexivity|].
    eapply rtc_l; [apply wk_worker, w_check_wptr|]. eapply rtc_l; [apply wk_worker, w_check_rptr|].
    eapply rtc_l; [apply wk_worker, w_checked|]. eapply rtc_l; [apply wk_worker, w_lock|].
    eapply rtc_l; [apply wk_worker, w_test_wptr|]. eapply rtc_l; [apply wk_worker, w_test_rptr|].
    eapply rtc_l; [apply wk_worker, w_tested|]. eapply rtc_once. apply wk_worker, w_decide. }
  etrans; [exact H0|]. eapply rtc_l; [apply (wk_reserve _ _ _ _ _ 1); cbn; lia|].
  eapply rtc_once. apply (wk_publish (mkRing 1 0 0 ∅) false 0 1 0 (Sleeping false) 0); [cbn; lia|by left].
Qed.

Lemma worker_misses_no_wakeup_witness :
  has_packet (wk_ring demo_asleep) = true /\
  exists s', rtc doorbell_step demo_asleep s' /\ wk_pc s' = Woken false /\ wk_ring s' = wk_ring demo_asleep /\
    wk_stop s' = wk_stop demo_asleep.
Proof.
  split; [reflexivity|]. refine (proj2 (worker_misses_no_wakeup demo_asleep false demo_asleep_reachable _ _)).
  - reflexivity.
  - left. reflexivity.
Defined.
