(* ===== verification/Fence.v ===== *)
(** * Fence: many threads at the paging fence (src/wddm/device.cpp)

    [UpdatePageFence] is called without a lock by every thread that maps memory. Its loop
    of a load and compare-and-exchanges is taken apart into its atomic accesses here; the
    theorem is what lets Device.v take it for one step. *)

From stdpp Require Import relations.
From S2P Require Import Prelude.
From S2P Require Import World.
From S2P Require Import Device.
#[local] Open Scope Z_scope.

(** ** The steps of a thread *)

(** Before the load; in the loop, with [current]; returned. *)
Inductive fence_pc :=
  | Loading
  | Comparing (current : Z)
  | Returned.

(** The fence and the calls in progress, each with its [fence_value]. *)
Record FenceState := mkFenceState {
  fs_fence : Z;
  fs_calls : list (Z * fence_pc);
}.

(** One access of one call. [compare_exchange_weak] may fail for no reason
    ([spurious]); when it fails it loads the fence into [current]. *)
Inductive call_step (spurious : bool) (fence : Z) : Z * fence_pc -> Z -> Z * fence_pc -> Prop :=
  | call_load v : call_step spurious fence (v, Loading) fence (v, Comparing fence)
  | call_break v c : v <= c -> call_step spurious fence (v, Comparing c) fence (v, Returned)
  | call_exchange v c : c < v -> fence = c -> call_step spurious fence (v, Comparing c) v (v, Returned)
  | call_fail v c : c < v -> fence <> c \/ spurious = true ->
      call_step spurious fence (v, Comparing c) fence (v, Comparing fence).

Inductive fence_step (spurious : bool) : FenceState -> FenceState -> Prop :=
  | fence_call f f' l1 p p' l2 : call_step spurious f p f' p' ->
      fence_step spurious (mkFenceState f (l1 ++ p :: l2)) (mkFenceState f' (l1 ++ p' :: l2)).

#[export] Instance fence_pc_eq_dec : EqDecision fence_pc.
Proof. solve_decision. Defined.

(** The calls with these values, none of them begun. *)
Definition fence_start (f : Z) (vs : list Z) : FenceState := mkFenceState f ((fun v => (v, Loading)) <$> vs).

Definition all_returned (s : FenceState) : Prop := Forall (fun p => p.2 = Returned) (fs_calls s).

(** ** The invariant *)

Definition call_ok (fence : Z) (p : Z * fence_pc) : Prop :=
  match p.2 with Loading => True | Comparing c => c <= fence | Returned => p.1 <= fence end.

(** From [f0] with the values [vs]. *)
Record fence_inv (f0 : Z) (vs : list Z) (s : FenceState) : Prop := {
  fi_calls : (fs_calls s).*1 = vs;
  fi_fence : f0 <= fs_fence s /\ fs_fence s ∈ f0 :: vs;
  fi_ok : Forall (call_ok (fs_fence s)) (fs_calls s);
}.

Lemma call_ok_mono f f' p : f <= f' -> call_ok f p -> call_ok f' p.
Proof. unfold call_ok. destruct p.2; lia. Qed.

Lemma call_step_spec sp f p f' p' : call_step sp f p f' p' -> call_ok f p ->
  p'.1 = p.1 /\ f <= f' /\ (f' = f \/ f' = p.1) /\ call_ok f' p'.
Proof. destruct 1; unfold call_ok; cbn; intros; split_and!; auto; lia. Qed.

Lemma fence_step_inv sp f0 vs s s' : fence_inv f0 vs s -> fence_step sp s s' -> fence_inv f0 vs s'.
Proof.
  intros [Hc [Hf Hin] Hok]. destruct 1 as [f f' l1 p p' l2 Hstep]. cbn in *.
  apply Forall_app in Hok as [Hok1 [Hp Hok2]%Forall_cons]. destruct (call_step_spec _ _ _ _ _ Hstep Hp) as (E & Hle & Hv & Hp').
  split; cbn.
  - by rewrite <-Hc, !fmap_app, !fmap_cons, E.
  - split; [lia|]. destruct Hv as [-> | ->]; [done|]. rewrite <-Hc, fmap_app, fmap_cons. set_solver.
  - apply Forall_app. split; [|apply Forall_cons; split; [done|]]; (eapply Forall_impl; [done|]); intros q; by apply call_ok_mono.
Qed.

Lemma fence_inv_start f vs : fence_inv f vs (fence_start f vs).
Proof.
  split; cbn; [|split; [lia|set_solver]|].
  - induction vs; cbn; [done|by f_equal].
  - apply Forall_fmap, Forall_true. done.
Qed.

(** ** Termination *)

(** The values above [c]. *)
Definition above (c : Z) (vs : list Z) : nat := length (filter (fun v => (c < v)%Z) vs).

Lemma above_le c vs : (above c vs <= length vs)%nat.
Proof. apply length_filter. Qed.
Lemma above_lt c d vs : c < d -> d ∈ vs -> (above d vs < above c vs)%nat.
Proof.
  intros Hcd. unfold above. induction vs as [|v vs IH]; [intros H; by apply elem_of_nil in H|].
  assert (above d vs <= above c vs)%nat as Hle; unfold above in *.
  { clear IH. induction vs as [|u vs IH]; [done|]. rewrite !filter_cons. repeat case_decide; cbn; lia. }
  rewrite !filter_cons. intros [->|Hd]%elem_of_cons.
  - rewrite decide_False, decide_True by lia. cbn. lia.
  - specialize (IH Hd). repeat case_decide; cbn; lia.
Qed.

(** The accesses a call may still make, when the fence is one of [fs]. *)
Definition call_work (fs : list Z) (p : Z * fence_pc) : nat :=
  match p.2 with Loading => length fs + 2 | Comparing c => above c fs + 1 | Returned => 0 end.
Definition fence_work (fs : list Z) (s : FenceState) : nat := sum_list_with (call_work fs) (fs_calls s).

Lemma fence_step_work f0 vs s s' : fence_inv f0 vs s -> fence_step false s s' ->
  (fence_work (f0 :: vs) s' < fence_work (f0 :: vs) s)%nat.
Proof.
  intros [Hc [Hf Hin] Hok]. destruct 1 as [f f' l1 p p' l2 Hstep]. unfold fence_work. cbn [fs_calls fs_fence] in *.
  rewrite !sum_list_with_app. cbn [sum_list_with]. apply Forall_app in Hok as [_ [Hp _]%Forall_cons].
  enough (call_work (f0 :: vs) p' < call_work (f0 :: vs) p)%nat by lia.
  destruct Hstep as [v|v c Hle|v c Hlt He|v c Hlt [Hne|]]; unfold call_work, call_ok in *; cbn [fst snd] in *; try done; try lia.
  - pose proof (above_le f (f0 :: vs)). lia.
  - assert (c < f) as Hcf by lia. pose proof (above_lt c f (f0 :: vs) Hcf Hin). lia.
Qed.

Lemma fence_progress s : all_returned s \/ exists s', fence_step false s s'.
Proof.
  destruct s as [f l]. unfold all_returned. cbn. destruct (decide (Forall (fun p : Z * fence_pc => p.2 = Returned) l)) as [|Hn]; [by left|right].
  apply not_Forall_Exists, Exists_exists in Hn as (p & (l1 & l2 & ->)%list_elem_of_split & Hp); [|tc_solve].
  enough (exists f' p', call_step false f p f' p') as (f' & p' & Hstep) by (eexists; by apply (fence_call _ _ _ _ _ _ _ Hstep)).
  destruct p as [v [|c|]]; cbn in Hp; [| |done].
  - eexists _, _. apply call_load.
  - destruct (Z.le_gt_cases v c); [eexists _, _; by apply call_break|]. destruct (Z.eq_dec f c).
    + eexists _, _. by apply call_exchange.
    + eexists _, _. apply call_fail; [lia|by left].
Qed.

(** ** All the calls *)

(** One call after the other. *)
Lemma fence_max_all f vs : let r := foldl fence_max f vs in f <= r /\ Forall (fun v => v <= r) vs /\ r ∈ f :: vs.
Proof.
  revert f. induction vs as [|v vs IH]; intros f; cbn; [split_and!; [lia|constructor|set_solver]|].
  destruct (IH (fence_max f v)) as (H1 & H2 & H3). cbn in *. set (r := foldl _ _ vs) in *.
  assert (f <= fence_max f v /\ v <= fence_max f v /\ (fence_max f v = f \/ fence_max f v = v)) as (G1 & G2 & G3).
  { unfold fence_max. destruct (Z.leb_spec v f); split_and!; auto; lia. }
  split_and!; [lia|constructor; [lia|done]|]. apply elem_of_cons in H3 as [E|H3]; [|set_solver].
  rewrite E. destruct G3 as [-> | ->]; set_solver.
Qed.

Lemma fence_max_unique f vs x : f <= x -> Forall (fun v => v <= x) vs -> x ∈ f :: vs -> x = foldl fence_max f vs.
Proof.
  intros Hf Hvs Hx. destruct (fence_max_all f vs) as (H1 & H2 & H3). cbn in *. rewrite Forall_forall in *.
  assert (forall y z, (forall v, v ∈ vs -> v <= z) -> f <= z -> y ∈ f :: vs -> y <= z) as Hle.
  { intros y z Hz Hfz [->|Hy]%elem_of_cons; auto. }
  apply Z.le_antisymm; eapply Hle; eauto.
Qed.

Lemma fence_inv_steps sp f vs n s : nsteps (fence_step sp) n (fence_start f vs) s -> fence_inv f vs s.
Proof.
  intros Hn. assert (rtc (fence_step sp) (fence_start f vs) s) as Hr by (apply rtc_nsteps; by exists n). clear Hn.
  pattern s. eapply rtc_ind_r; [apply fence_inv_start| |exact Hr]. intros s1 s2 _ Hstep H1. by eapply fence_step_inv.
Qed.

Lemma fence_steps_work f vs n s : nsteps (fence_step false) n (fence_start f vs) s ->
  (n + fence_work (f :: vs) s <= fence_work (f :: vs) (fence_start f vs))%nat.
Proof.
  revert s. induction n as [|n IH]; intros s Hn; [by inversion Hn|].
  apply nsteps_inv_r in Hn as (s1 & Hn & Hstep). specialize (IH _ Hn).
  pose proof (fence_step_work _ _ _ _ (fence_inv_steps _ _ _ _ _ Hn) Hstep). lia.
Qed.

Lemma fence_work_start f vs : fence_work (f :: vs) (fence_start f vs) = (length vs * (length vs + 3))%nat.
Proof.
  unfold fence_work, fence_start. cbn [fs_calls].
  assert (forall fs l, sum_list_with (call_work fs) ((fun v => (v, Loading)) <$> l) = length l * (length fs + 2))%nat as ->; [|cbn; lia].
  intros fs l. induction l as [|v l IH]; [done|]. rewrite fmap_cons. cbn [sum_list_with length]. rewrite IH. cbn. lia.
Qed.

(** C33: Calls of [UpdatePageFence] that run at the same time act as if they ran one after
    the other. After any number of their accesses, in any order, the fence has not gone
    down and is at least the value of every call that has returned; when all have
    returned it is what the calls leave one after the other. Unless exchanges fail for
    no reason, [n] calls need at most [n * (n + 3)] accesses under every schedule; and
    as long as one has not returned, one can go on. *)
Theorem UpdatePageFence_linearizable spurious f vs n s :
  nsteps (fence_step spurious) n (fence_start f vs) s ->
  (f <= fs_fence s /\ forall v, (v, Returned) ∈ fs_calls s -> v <= fs_fence s) /\
  (all_returned s -> fs_fence s = foldl fence_max f vs) /\
  (spurious = false -> (n <= length vs * (length vs + 3))%nat) /\
  (all_returned s \/ exists s', fence_step false s s').
Proof.
  intros Hn. destruct (fence_inv_steps _ _ _ _ _ Hn) as [Hc [Hf Hin] Hok]. split_and!.
  - done.
  - intros v Hv. rewrite Forall_forall in Hok. exact (Hok _ Hv).
  - intros Hall. apply fence_max_unique; [done| |done]. rewrite <-Hc. apply Forall_fmap, Forall_forall. intros [v pc] Hv.
    unfold all_returned in Hall. rewrite Forall_forall in Hok, Hall. specialize (Hall _ Hv). specialize (Hok _ Hv). cbn in *. by subst pc.
  - intros ->. pose proof (fence_steps_work _ _ _ _ Hn) as Hw. rewrite fence_work_start in Hw. lia.
  - apply fence_progress.
Qed.

(** Two calls, of 5 and 3, the second failing its exchange. *)
Lemma demo_race : nsteps (fence_step false) 5 (fence_start 0 [5; 3]) (mkFenceState 5 [(5, Returned); (3, Returned)]).
Proof.
  eapply nsteps_l; [exact (fence_call _ _ _ [] _ _ [(3, Loading)] (call_load _ _ 5))|].
  eapply nsteps_l; [exact (fence_call _ _ _ [(5, Comparing 0)] _ _ [] (call_load _ _ 3))|].
  eapply nsteps_l; [refine (fence_call _ _ _ [] _ _ [(3, Comparing 0)] (call_exchange _ 0 5 0 _ _)); [lia|reflexivity]|].
  eapply nsteps_l; [refine (fence_call _ _ _ [(5, Returned)] _ _ [] (call_fail _ 5 3 0 _ _)); [lia|left; discriminate]|].
  apply nsteps_once. refine (fence_call _ _ _ [(5, Returned)] _ _ [] (call_break _ 5 3 5 _)). lia.
Qed.

Lemma UpdatePageFence_linearizable_witness : foldl fence_max 0 [5; 3] = 5 /\ (5 <= 2 * (2 + 3))%nat.
Proof.
  destruct (UpdatePageFence_linearizable false 0 [5; 3] 5 _ demo_race) as (_ & H1 & H2 & _). split; [|exact (H2 eq_refl)].
  symmetry. apply H1. repeat constructor.
Defined.
