(* ===== verification/Locks.v ===== *)
(** * Locks: the mutexes of util/locks.h

    The locks that do not come from pthreads, [HybridMutex] and [SpinMutex], as steps of
    many threads: each access to the word of the lock or to its semaphore is a step. The
    semaphore is that of os_linux.cpp, a count that POSIX bounds by [SEM_VALUE_MAX], here
    a parameter. A thread releases only a lock it holds. *)

From stdpp Require Import relations.
From S2P Require Import Prelude.
#[local] Open Scope Z_scope.

(** ** Threads *)

Section Threads.
Context {St P : Type}.

(** Steps of one thread with its number, lifted to all threads over a shared state. *)
Inductive threads_step (step : nat -> St * P -> St * P -> Prop) : St * list P -> St * list P -> Prop :=
  | one_steps s s' l i p p' : l !! i = Some p -> step i (s, p) (s', p') ->
      threads_step step (s, l) (s', <[i := p']> l).

Lemma thread_alone step s p s' p' : step 0%nat (s, p) (s', p') -> threads_step step (s, [p]) (s', [p']).
Proof. intros H. by apply (one_steps step s s' [p] 0 p p'). Qed.

(** The threads at a place of [f]. *)
Definition threads_at (f : P -> bool) (l : list P) : nat := sum_list_with (fun p => Nat.b2n (f p)) l.

Lemma threads_at_insert f l i p p' : l !! i = Some p ->
  (threads_at f (<[i := p']> l) + Nat.b2n (f p) = threads_at f l + Nat.b2n (f p'))%nat.
Proof.
  intros Hi. rewrite <-(take_drop_middle l i p Hi) at 2.
  rewrite insert_take_drop by (by eapply lookup_lt_Some). unfold threads_at. rewrite !sum_list_with_app. cbn. lia.
Qed.

Lemma threads_at_pos f l : (0 < threads_at f l)%nat <-> exists i p, l !! i = Some p /\ f p = true.
Proof.
  unfold threads_at. induction l as [|q l IH]; cbn.
  - split; [lia|]. intros (i & p & Hi & _). done.
  - destruct (f q) eqn:E; cbn; split; try lia.
    + intros _. by exists 0%nat, q.
    + intros (i & p & Hi & Hf)%IH. by exists (S i), p.
    + intros ([|i] & p & Hi & Hf); cbn in Hi; [congruence|]. apply IH. eauto.
Qed.

Lemma threads_at_unique f l i j p q : (threads_at f l <= 1)%nat ->
  l !! i = Some p -> f p = true -> l !! j = Some q -> f q = true -> i = j.
Proof.
  unfold threads_at. revert i j. induction l as [|r l IH]; [done|]. cbn. intros i j H1 Hi Hp Hj Hq.
  assert (forall k p, l !! k = Some p -> f p = true -> (0 < threads_at f l)%nat) as Hpos by (intros; apply threads_at_pos; eauto).
  unfold threads_at in Hpos. destruct i as [|i], j as [|j]; cbn in Hi, Hj; simplify_eq; [done| | |].
  - rewrite Hp in H1. cbn in H1. specialize (Hpos _ _ Hj Hq). lia.
  - rewrite Hq in H1. cbn in H1. specialize (Hpos _ _ Hi Hp). lia.
  - f_equal. eapply IH; eauto. lia.
Qed.

Lemma threads_at_replicate f n p : f p = false -> threads_at f (replicate n p) = 0%nat.
Proof. intros H. unfold threads_at. induction n; cbn; [done|]. by rewrite H. Qed.

End Threads.

(** ** HybridMutex *)

Definition maxSpinIterPause : Z := 55.
Definition maxSpinIterYield : Z := 55.

(** What [Acquire] does after a failed exchange, with what is left in [cnt]. *)
Inductive Backoff := Pause | Yield | Sleep.

(** [cnt] is an [int], compared with a [uint32_t]. *)
Definition backoff (cnt : Z) : Backoff * Z :=
  let cnt := cnt - 1 in
  if maxSpinIterPause <? u32 cnt then (Pause, cnt)
  else if maxSpinIterYield <? u32 cnt then (Yield, cnt - 1)
  else (Sleep, maxSpinIterPause + maxSpinIterYield).

Record HybridMutex := mkHybridMutex { lock_ : Z; sem_ : Z }.
Definition HybridMutex_new : HybridMutex := mkHybridMutex 0 0.

Definition compare_exchange (old new : Z) (m : HybridMutex) : bool * HybridMutex :=
  if lock_ m =? old then (true, mkHybridMutex new (sem_ m)) else (false, m).

(** Where a thread is: outside; before an exchange in [Acquire]; in [WaitSemaphore]; after
    a call that got the lock; in [Release] before [PostSemaphore]. *)
Inductive hm_pc :=
  | Outside
  | Trying (cnt : Z)
  | Waiting
  | Holding
  | Posting.

Definition is_trying (p : hm_pc) : bool := match p with Trying _ => true | _ => false end.
Definition is_waiting (p : hm_pc) : bool := match p with Waiting => true | _ => false end.
Definition is_holding (p : hm_pc) : bool := match p with Holding => true | _ => false end.
Definition is_posting (p : hm_pc) : bool := match p with Posting => true | _ => false end.

(** After a failed exchange. *)
Definition hm_after_failure (cnt : Z) : hm_pc :=
  let '(b, cnt) := backoff cnt in match b with Sleep => Waiting | _ => Trying cnt end.

Section HybridMutex.
Context (SEM_VALUE_MAX : Z).

(** The steps of a thread that is inside a call, or that holds the lock and releases it.
    A semaphore at its bound is not posted: that assertion of [PostSemaphore] fails. *)
Inductive hm_inside : nat -> HybridMutex * hm_pc -> HybridMutex * hm_pc -> Prop :=
  | hm_exchanged i m m' cnt : compare_exchange 0 1 m = (true, m') ->
      hm_inside i (m, Trying cnt) (m', Holding)
  | hm_failed i m m' cnt : compare_exchange 0 1 m = (false, m') ->
      hm_inside i (m, Trying cnt) (m', hm_after_failure cnt)
  | hm_wait i m : 0 < sem_ m ->
      hm_inside i (m, Waiting) (mkHybridMutex (lock_ m) (sem_ m - 1), Trying (maxSpinIterPause + maxSpinIterYield))
  | hm_interrupted i m : hm_inside i (m, Waiting) (m, Waiting)
  | hm_release i m m' b : compare_exchange 1 0 m = (b, m') ->
      hm_inside i (m, Holding) (m', if b then Posting else Outside)
  | hm_post i m : sem_ m < SEM_VALUE_MAX ->
      hm_inside i (m, Posting) (mkHybridMutex (lock_ m) (sem_ m + 1), Outside).

(** And the calls a thread outside can make. *)
Inductive hm_step : nat -> HybridMutex * hm_pc -> HybridMutex * hm_pc -> Prop :=
  | hm_goes_on i x y : hm_inside i x y -> hm_step i x y
  | hm_Acquire i m : hm_step i (m, Outside) (m, Trying (maxSpinIterPause + maxSpinIterYield))
  | hm_Try i m m' b : compare_exchange 0 1 m = (b, m') -> hm_step i (m, Outside) (m', if b then Holding else Outside).

Definition hm_start (n : nat) : HybridMutex * list hm_pc := (HybridMutex_new, replicate n Outside).

(** *** The invariant *)

(** The word is 1 while one thread holds the lock; a thread sleeps on a free lock only if
    another will wake it. *)
Record hm_inv (x : HybridMutex * list hm_pc) : Prop := {
  hi_lock : lock_ x.1 = Z.of_nat (threads_at is_holding x.2);
  hi_one : (threads_at is_holding x.2 <= 1)%nat;
  hi_sem : 0 <= sem_ x.1;
  hi_wake : lock_ x.1 = 0 -> (0 < threads_at is_waiting x.2)%nat ->
    0 < sem_ x.1 \/ (0 < threads_at is_posting x.2 + threads_at is_trying x.2)%nat;
}.

Lemma hm_inv_start n : hm_inv (hm_start n).
Proof. split; unfold hm_start, HybridMutex_new; cbn [fst snd lock_ sem_]; rewrite ?threads_at_replicate by done; lia. Qed.

Ltac hm_count Hi p' :=
  pose proof (threads_at_insert is_holding _ _ _ p' Hi); pose proof (threads_at_insert is_waiting _ _ _ p' Hi);
  pose proof (threads_at_insert is_posting _ _ _ p' Hi); pose proof (threads_at_insert is_trying _ _ _ p' Hi).

Lemma compare_exchange_spec old new m b m' : compare_exchange old new m = (b, m') ->
  sem_ m' = sem_ m /\ (b = true /\ lock_ m = old /\ lock_ m' = new \/ b = false /\ lock_ m <> old /\ lock_ m' = lock_ m).
Proof. unfold compare_exchange. destruct (Z.eqb_spec (lock_ m) old); intros [= <- <-]; cbn; auto. Qed.

Lemma hm_after_failure_or cnt : (exists c, hm_after_failure cnt = Trying c) \/ hm_after_failure cnt = Waiting.
Proof. unfold hm_after_failure. destruct (backoff cnt) as [[] ?]; eauto. Qed.

Lemma hm_step_inv x y : hm_inv x -> threads_step hm_step x y -> hm_inv y.
Proof.
  intros [Hl H1 Hs Hw]. destruct 1 as [m m' l i p p' Hi Hstep]. cbn [fst snd] in *. hm_count Hi p'.
  inversion Hstep; subst; try match goal with H : hm_inside _ _ _ |- _ => inversion H; subst end;
    try match goal with H : compare_exchange _ _ _ = _ |- _ =>
      apply compare_exchange_spec in H as [? [(E & ? & ?)|(E & ? & ?)]]; simplify_eq end;
    try match goal with |- context [hm_after_failure ?c] => destruct (hm_after_failure_or c) as [[c' E]|E]; rewrite E in * end.
  all: cbn [is_holding is_waiting is_posting is_trying Nat.b2n] in *; split; cbn [fst snd lock_ sem_] in *; lia.
Qed.

(** *** How a waiting thread gets on *)

Abbreviation hm_run := (rtc (threads_step hm_inside)).

Lemma hm_run_one m l i p m' p' x : l !! i = Some p -> hm_inside i (m, p) (m', p') ->
  hm_run (m', <[i := p']> l) x -> hm_run (m, l) x.
Proof. intros Hi Hs. apply rtc_l. by econstructor. Qed.

(** Free, with a count for the sleeper or the thread awake. *)
Lemma hm_gets_free m l i p : lock_ m = 0 -> l !! i = Some p ->
  is_trying p = true \/ is_waiting p = true /\ 0 < sem_ m ->
  exists y, hm_run (m, l) y /\ y.2 !! i = Some Holding.
Proof.
  intros H0 Hi Hp.
  assert (forall m l c, lock_ m = 0 -> l !! i = Some (Trying c) -> exists y, hm_run (m, l) y /\ y.2 !! i = Some Holding) as Htry.
  { clear. intros m l c H0 Hi. eexists (mkHybridMutex 1 (sem_ m), <[i := Holding]> l). split.
    - eapply hm_run_one; [done| |apply rtc_refl]. apply hm_exchanged. unfold compare_exchange. by rewrite H0.
    - cbn. apply list_lookup_insert_eq. by eapply lookup_lt_Some. }
  destruct p; destruct Hp as [Hp|[Hp Hs]]; try done; [by eapply Htry|].
  destruct (Htry (mkHybridMutex (lock_ m) (sem_ m - 1)) (<[i := Trying (maxSpinIterPause + maxSpinIterYield)]> l)
    (maxSpinIterPause + maxSpinIterYield)) as (y & Hy & Hh); [done|apply list_lookup_insert_eq; by eapply lookup_lt_Some|].
  exists y. split; [|done]. eapply hm_run_one; [done|by apply hm_wait|done].
Qed.

(** The thread [j] posts, or has first to release or even to get the lock. *)
Lemma hm_gets_posted m l i j : i <> j -> sem_ m < SEM_VALUE_MAX -> 0 <= sem_ m -> lock_ m = 0 ->
  l !! i = Some Waiting -> l !! j = Some Posting -> exists y, hm_run (m, l) y /\ y.2 !! i = Some Holding.
Proof.
  intros Hij Hm Hs H0 Hi Hj.
  destruct (hm_gets_free (mkHybridMutex (lock_ m) (sem_ m + 1)) (<[j := Outside]> l) i Waiting) as (y & Hy & Hh);
    [done|by rewrite list_lookup_insert_ne by done|right; cbn; split; [done|lia]|].
  exists y. split; [|done]. eapply hm_run_one; [done|by apply hm_post|done].
Qed.

Lemma hm_gets_released m l i j p : i <> j -> 0 < SEM_VALUE_MAX -> 0 <= sem_ m -> lock_ m = 1 ->
  l !! i = Some p -> is_trying p || is_waiting p = true -> l !! j = Some Holding ->
  exists y, hm_run (m, l) y /\ y.2 !! i = Some Holding.
Proof.
  intros Hij HM Hs H1 Hi Hp Hj.
  assert (exists y, hm_run (mkHybridMutex 0 (sem_ m), <[j := Posting]> l) y /\ y.2 !! i = Some Holding) as (y & Hy & Hh).
  { assert (<[j := Posting]> l !! i = Some p) as Hi' by (by rewrite list_lookup_insert_ne).
    destruct p; try done; [eapply hm_gets_free; [done..|by left]|].
    destruct (decide (sem_ m < SEM_VALUE_MAX)).
    - apply (hm_gets_posted _ _ i j); try done. apply list_lookup_insert_eq. by eapply lookup_lt_Some.
    - eapply hm_gets_free; [done..|]. right. split; [done|cbn; lia]. }
  exists y. split; [|done]. eapply hm_run_one; [done| |done]. apply (hm_release _ _ _ true).
  unfold compare_exchange. by rewrite H1.
Qed.

Lemma hm_gets_it x i p : 0 < SEM_VALUE_MAX -> hm_inv x -> x.2 !! i = Some p -> is_trying p || is_waiting p = true ->
  exists y, hm_run x y /\ y.2 !! i = Some Holding.
Proof.
  destruct x as [m l]. intros HM [Hl H1 Hs Hw] Hi Hp. cbn [fst snd] in *.
  assert (forall j q, l !! j = Some q -> is_holding q || is_posting q = true -> i <> j) as Hne
    by (intros j q Hj Hq ->; destruct p, q; simplify_eq; done).
  destruct (decide (0 < threads_at is_holding l)%nat) as [(j & q & Hj & Hq)%threads_at_pos|Hn].
  { assert (threads_at is_holding l = 1%nat) as E by (enough (0 < threads_at is_holding l)%nat by lia; apply threads_at_pos; eauto).
    destruct q; try done. apply (hm_gets_released m l i j p); try done; [by eapply Hne|lia]. }
  destruct p; try done; [eapply hm_gets_free; [lia|done|by left]|].
  destruct (decide (0 < sem_ m)); [eapply hm_gets_free; [lia|done|by right]|].
  destruct Hw as [|Ho]; [lia|apply threads_at_pos; eauto|lia|].
  destruct (decide (0 < threads_at is_posting l)%nat) as [(j & q & Hj & Hq)%threads_at_pos|Hnp].
  { destruct q; try done. apply (hm_gets_posted m l i j); try done; [by eapply Hne|lia..]. }
  assert (0 < threads_at is_trying l)%nat as (j & q & Hj & Hq)%threads_at_pos by lia. destruct q as [|c| | |]; try done.
  assert (i <> j) as Hij by congruence.
  destruct (hm_gets_released (mkHybridMutex 1 (sem_ m)) (<[j := Holding]> l) i j Waiting) as (y & Hy & Hh);
    [done..|by rewrite list_lookup_insert_ne|done|apply list_lookup_insert_eq; by eapply lookup_lt_Some|].
  exists y. split; [|done]. eapply hm_run_one; [done| |done]. apply hm_exchanged. unfold compare_exchange.
  replace (lock_ m) with 0 by lia. done.
Qed.

Lemma hm_reachable_inv n x : rtc (threads_step hm_step) (hm_start n) x -> hm_inv x.
Proof. intros H. eapply rtc_ind_r with (P := hm_inv); [apply hm_inv_start|intros; by eapply hm_step_inv|done]. Qed.

(** C16: whatever any number of threads do with a HybridMutex, one at most holds it, its
    word is 1 exactly while one does, and no wake-up is lost: a thread in Acquire, also one
    asleep in the semaphore, can get the lock by steps of the threads that are in calls or
    hold it, without any new call. *)
Theorem HybridMutex_sound n x : 0 < SEM_VALUE_MAX -> rtc (threads_step hm_step) (hm_start n) x ->
  (forall i j, x.2 !! i = Some Holding -> x.2 !! j = Some Holding -> i = j) /\
  (lock_ x.1 = 1 <-> exists i, x.2 !! i = Some Holding) /\
  (lock_ x.1 = 0 \/ lock_ x.1 = 1) /\
  (forall i p, x.2 !! i = Some p -> is_trying p || is_waiting p = true ->
     exists y, rtc (threads_step hm_inside) x y /\ y.2 !! i = Some Holding).
Proof.
  intros HM Hx%hm_reachable_inv. pose proof Hx as [Hl H1 _ _]. split_and!.
  - intros i j Hi Hj. by eapply threads_at_unique.
  - split.
    + intros E. assert (0 < threads_at is_holding x.2)%nat as (i & p & Hi & Hp)%threads_at_pos by lia. destruct p; try done. eauto.
    + intros (i & Hi). assert (0 < threads_at is_holding x.2)%nat by (apply threads_at_pos; eauto). lia.
  - lia.
  - intros i p. by apply hm_gets_it.
Qed.

(** *** The semaphore counts every release *)

(** A release posts whether or not a thread sleeps: each use of the lock by a thread alone
    leaves a count behind. *)
Lemma hm_alone s : 0 <= s < SEM_VALUE_MAX ->
  rtc (threads_step hm_step) (mkHybridMutex 0 s, [Outside]) (mkHybridMutex 0 (s + 1), [Outside]).
Proof.
  intros Hs. eapply rtc_l; [apply thread_alone, (hm_Try _ _ (mkHybridMutex 1 s) true); done|].
  eapply rtc_l; [apply thread_alone, hm_goes_on, (hm_release _ _ (mkHybridMutex 0 s) true); done|].
  apply rtc_once, thread_alone, hm_goes_on, (hm_post _ (mkHybridMutex 0 s)). cbn. lia.
Qed.

(** So one thread that only takes and releases the lock reaches the failing assertion of
    [PostSemaphore]. *)
Lemma HybridMutex_posts_pile_up : 0 <= SEM_VALUE_MAX ->
  rtc (threads_step hm_step) (hm_start 1) (mkHybridMutex 0 SEM_VALUE_MAX, [Posting]) /\
  forall y, ~ threads_step hm_step (mkHybridMutex 0 SEM_VALUE_MAX, [Posting]) y.
Proof.
  intros HM. split.
  - assert (forall k : nat, Z.of_nat k <= SEM_VALUE_MAX ->
      rtc (threads_step hm_step) (hm_start 1) (mkHybridMutex 0 (Z.of_nat k), [Outside])) as Hk.
    { induction k as [|k IH]; [constructor|]. intros Hk. etrans; [apply IH; lia|].
      replace (Z.of_nat (S k)) with (Z.of_nat k + 1) by lia. apply hm_alone. lia. }
    specialize (Hk (Z.to_nat SEM_VALUE_MAX) ltac:(lia)). rewrite Z2Nat.id in Hk by done. etrans; [done|].
    eapply rtc_l; [apply thread_alone, (hm_Try _ _ (mkHybridMutex 1 SEM_VALUE_MAX) true); done|].
    apply rtc_once, thread_alone, hm_goes_on. by apply (hm_release _ _ _ true).
  - intros y H. inversion H as [? ? ? [|i] ? ? Hi Hstep]; subst; [|done]. injection Hi as <-.
    inversion Hstep as [? ? ? Hin| |]; subst. inversion Hin; subst. cbn in *. lia.
Qed.
End HybridMutex.

Lemma HybridMutex_sound_witness :
  let x := (mkHybridMutex 1 0, [Holding; Trying 110]) in
  rtc (threads_step (hm_step 1)) (hm_start 2) x /\
  exists y, rtc (threads_step (hm_inside 1)) x y /\ y.2 !! 1%nat = Some Holding.
Proof.
  cbn zeta.
  assert (rtc (threads_step (hm_step 1)) (hm_start 2) (mkHybridMutex 1 0, [Holding; Trying 110])) as Hx.
  { apply rtc_l with (mkHybridMutex 1 0, [Holding; Outside]).
    - apply (one_steps _ (mkHybridMutex 0 0) _ [Outside; Outside] 0%nat Outside Holding); [reflexivity|].
      apply (hm_Try _ _ _ _ true). reflexivity.
    - apply rtc_once, (one_steps _ (mkHybridMutex 1 0) _ [Holding; Outside] 1%nat Outside (Trying 110)); [reflexivity|apply hm_Acquire]. }
  split; [exact Hx|].
  destruct (HybridMutex_sound 1 2 _ eq_refl Hx) as (_ & _ & _ & H). exact (H 1%nat (Trying 110) eq_refl eq_refl).
Defined.

(** The attempts of a thread between two sleeps: 55, with a pause after each but the last.
    It never yields its time slice, the second bound being the first. *)
Lemma backoff_never_yields cnt : fst (backoff cnt) <> Yield.
Proof.
  unfold backoff, maxSpinIterPause, maxSpinIterYield. destruct (Z.ltb_spec 55 (u32 (cnt - 1))); [done|].
  destruct (Z.ltb_spec 55 (u32 (cnt - 1))); [lia|done].
Qed.

Definition hm_failures (n : nat) : hm_pc :=
  Nat.iter n (fun p => match p with Trying cnt => hm_after_failure cnt | p => p end) (Trying (maxSpinIterPause + maxSpinIterYield)).

Lemma hm_attempts n : (n < 55)%nat -> is_trying (hm_failures n) = true /\ hm_failures 55 = Waiting.
Proof.
  intros Hn. split; [|done].
  assert (forallb (fun n => is_trying (hm_failures n)) (seq 0 55) = true) as H by (vm_compute; done).
  rewrite forallb_forall in H. apply H, in_seq. lia.
Qed.

(** ** SpinMutex *)

Inductive sp_step : nat -> Z * hm_pc -> Z * hm_pc -> Prop :=
  | sp_Acquire i v : sp_step i (v, Outside) (v, Trying 0)
  | sp_exchanged i : sp_step i (0, Trying 0) (1, Holding)
  | sp_yield i v : v <> 0 -> sp_step i (v, Trying 0) (v, Trying 0)
  | sp_Try i : sp_step i (0, Outside) (1, Holding)
  | sp_Try_failed i v : v <> 0 -> sp_step i (v, Outside) (v, Outside)
  | sp_Release i v : sp_step i (v, Holding) (0, Outside).

(** Exclusion, and a holder can always let a thread that spins on. *)
Lemma SpinMutex_sound n x : rtc (threads_step sp_step) (0, replicate n Outside) x ->
  x.1 = Z.of_nat (threads_at is_holding x.2) /\
  (forall i j, x.2 !! i = Some Holding -> x.2 !! j = Some Holding -> i = j).
Proof.
  intros Hx. enough (x.1 = Z.of_nat (threads_at is_holding x.2) /\ (threads_at is_holding x.2 <= 1)%nat) as [He H1].
  { split; [done|]. intros i j Hi Hj. by eapply threads_at_unique. }
  revert Hx. apply (rtc_ind_r (fun x => x.1 = Z.of_nat (threads_at is_holding x.2) /\ (threads_at is_holding x.2 <= 1)%nat)); [cbn [fst snd]; rewrite threads_at_replicate by done; lia|].
  intros y z _ Hstep [He H1]. destruct Hstep as [v v' l i p p' Hi Hstep]. cbn [fst snd] in *.
  pose proof (threads_at_insert is_holding _ _ _ p' Hi). inversion Hstep; subst; cbn [is_holding Nat.b2n] in *; lia.
Qed.
