(* ===== verification/OsLinux.v ===== *)
(** * OsLinux: events and threads of the operating system layer (util/lnx/os_linux.cpp)

    An event is a flag with a mutex and a condition variable, a thread object a handle
    that many may wait for; both are steps of many threads here. The mutexes are those
    [pthread_mutex_init] makes without attributes: a thread that locks one it holds waits
    for itself. *)

From stdpp Require Import relations.
From S2P Require Import Prelude.
From S2P Require Import Utils.
From S2P Require Import Locks.
#[local] Open Scope Z_scope.

(** A mutex is held by one thread at most: [owner], by its number. *)
Abbreviation mutex_t := (option nat).

(** The owner is the one thread at a place that holds the mutex. *)
Definition owned {P} (holds : P -> bool) (m : mutex_t) (l : list P) : Prop :=
  forall i, m = Some i <-> exists p, l !! i = Some p /\ holds p = true.

Lemma owned_insert {P} (holds : P -> bool) m m' l i p p' : owned holds m l -> l !! i = Some p ->
  (m' = Some i <-> holds p' = true) -> (forall j, j <> i -> m' = Some j <-> m = Some j) ->
  owned holds m' (<[i := p']> l).
Proof.
  intros Ho Hi Hs Hother j. destruct (decide (j = i)) as [->|Hj].
  - rewrite list_lookup_insert_eq by (by eapply lookup_lt_Some). rewrite Hs. split; [eauto|].
    by intros (q & [= ->] & ?).
  - rewrite (Hother j Hj), list_lookup_insert_ne by done. apply Ho.
Qed.

Lemma owned_at {P} (holds : P -> bool) m l i p : owned holds m l -> l !! i = Some p -> m = Some i <-> holds p = true.
Proof. intros Ho Hi. split; [intros (q & ? & ?)%Ho; by simplify_eq|intros; apply Ho; eauto]. Qed.

Lemma owned_others {P} (holds : P -> bool) m l i j p q : owned holds m l -> l !! i = Some p -> l !! j = Some q -> j <> i ->
  holds p = true \/ m = None -> holds q = false.
Proof.
  intros Ho Hi Hj Hji Hp. destruct (holds q) eqn:E; [|done].
  apply (owned_at _ _ _ _ _ Ho Hj) in E. destruct Hp as [Hp|]; [apply (owned_at _ _ _ _ _ Ho Hi) in Hp|]; congruence.
Qed.

(** ** Events *)

(** The absolute time a wait of [ms] milliseconds ends, from what [gettimeofday] says. *)
Definition deadline (tv_sec tv_usec ms : Z) : Z * Z :=
  let sec := tv_sec + ms / 1000 in
  let nsec := tv_usec * 1000 + u32 (ms mod 1000 * 1000000) in
  if 1000000000 <? nsec then (sec + 1, nsec - 1000000000) else (sec, nsec).

(** [pthread_cond_timedwait] refuses other times. *)
Definition timespec_valid (ts : Z * Z) : bool := (0 <=? ts.2) && (ts.2 <? 1000000000).

Definition EINVAL : Z := 22.
Definition ETIMEDOUT : Z := 110.

Record EventDescriptor := mkEvent { mutex : mutex_t; state : bool; auto_reset : bool }.
Definition ev_set_mutex m e := mkEvent m (state e) (auto_reset e).
Definition ev_set_state b e := mkEvent (mutex e) b (auto_reset e).

Definition CreateOsEvent (auto_reset init_state : bool) : EventDescriptor := mkEvent None init_state auto_reset.

Inductive ev_call := EvWait (milli_seconds : Z) | EvSet | EvReset.

(** Where a thread is in [WaitForOsEvent], [SetOsEvent] and [ResetOsEvent]: outside, with
    its last call and what that returned; before [pthread_mutex_trylock]; before
    [pthread_mutex_lock]; after it; in the wait, the mutex released; woken with the result
    of the wait, before it has the mutex again; before [pthread_mutex_unlock]; before
    [pthread_cond_signal]. *)
Inductive ev_pc :=
  | EvOutside (last : option (ev_call * Z))
  | EvPolling
  | EvLocking (c : ev_call)
  | EvLocked (c : ev_call)
  | EvBlocked (ms : Z)
  | EvRelocking (ms ret : Z)
  | EvUnlocking (c : ev_call) (ret : Z)
  | EvSignalling.

(** The flag is taken by the wait that sees it, if the event resets itself. *)
Definition ev_take (e : EventDescriptor) : EventDescriptor := if auto_reset e then ev_set_state false e else e.

(** After the wait, with the mutex. *)
Definition ev_woken (ret : Z) (e : EventDescriptor) : Z * EventDescriptor :=
  let ret := if ret =? ETIMEDOUT then 0x14003 else ret in
  (ret, if ret =? 0 then ev_take e else e).

Inductive ev_thread : nat -> EventDescriptor * ev_pc -> EventDescriptor * ev_pc -> Prop :=
  | ev_call_wait i e o ms : 0 <= ms < 2 ^ 32 ->
      ev_thread i (e, EvOutside o) (e, if ms =? 0 then EvPolling else EvLocking (EvWait ms))
  | ev_call_set i e o : ev_thread i (e, EvOutside o) (e, EvLocking EvSet)
  | ev_call_reset i e o : ev_thread i (e, EvOutside o) (e, EvLocking EvReset)
  (* trylock *)
  | ev_poll i e : mutex e = None -> ev_thread i (e, EvPolling) (ev_set_mutex (Some i) e, EvLocking (EvWait 0))
  | ev_poll_busy i e j : mutex e = Some j -> ev_thread i (e, EvPolling) (e, EvOutside (Some (EvWait 0, 1)))
  | ev_lock i e c : mutex e = None -> ev_thread i (e, EvLocking c) (ev_set_mutex (Some i) e, EvLocked c)
  (* under the mutex *)
  | ev_is_set i e ms : state e = true -> ev_thread i (e, EvLocked (EvWait ms)) (ev_take e, EvUnlocking (EvWait ms) 0)
  | ev_not_set i e : state e = false -> ev_thread i (e, EvLocked (EvWait 0)) (e, EvUnlocking (EvWait 0) 1)
  | ev_wait_invalid i e ms sec usec ret e' : state e = false -> ms <> 0 -> 0 <= usec < 1000000 ->
      timespec_valid (deadline sec usec ms) = false -> ev_woken EINVAL e = (ret, e') ->
      ev_thread i (e, EvLocked (EvWait ms)) (e', EvUnlocking (EvWait ms) ret)
  | ev_wait i e ms sec usec : state e = false -> ms <> 0 -> 0 <= usec < 1000000 ->
      timespec_valid (deadline sec usec ms) = true ->
      ev_thread i (e, EvLocked (EvWait ms)) (ev_set_mutex None e, EvBlocked ms)
  (* a wait ends by its time or, as POSIX allows, for no reason *)
  | ev_unblock i e ms ret : ret = ETIMEDOUT \/ ret = 0 -> ev_thread i (e, EvBlocked ms) (e, EvRelocking ms ret)
  | ev_relock i e ms ret ret' e' : mutex e = None -> ev_woken ret (ev_set_mutex (Some i) e) = (ret', e') ->
      ev_thread i (e, EvRelocking ms ret) (e', EvUnlocking (EvWait ms) ret')
  | ev_set i e : ev_thread i (e, EvLocked EvSet) (ev_set_state true e, EvUnlocking EvSet 0)
  | ev_reset i e : ev_thread i (e, EvLocked EvReset) (ev_set_state false e, EvUnlocking EvReset 0)
  | ev_unlock i e c ret :
      ev_thread i (e, EvUnlocking c ret)
        (ev_set_mutex None e, match c with EvSet => EvSignalling | _ => EvOutside (Some (c, ret)) end).

(** A signal wakes one thread that waits, if there is one. *)
Inductive ev_step : EventDescriptor * list ev_pc -> EventDescriptor * list ev_pc -> Prop :=
  | ev_one x y : threads_step ev_thread x y -> ev_step x y
  | ev_signal e l i j ms : l !! i = Some EvSignalling -> l !! j = Some (EvBlocked ms) ->
      ev_step (e, l) (e, <[j := EvRelocking ms 0]> (<[i := EvOutside (Some (EvSet, 0))]> l))
  | ev_signal_none e l i : l !! i = Some EvSignalling -> (forall j ms, l !! j <> Some (EvBlocked ms)) ->
      ev_step (e, l) (e, <[i := EvOutside (Some (EvSet, 0))]> l).

Definition ev_start (auto_reset init_state : bool) (n : nat) : EventDescriptor * list ev_pc :=
  (CreateOsEvent auto_reset init_state, replicate n (EvOutside None)).

(** *** The invariant *)

(** A poll that comes to lock the mutex has it since [pthread_mutex_trylock]. *)
Definition ev_holds (p : ev_pc) : bool :=
  match p with EvLocking (EvWait ms) => ms =? 0 | EvLocked _ | EvUnlocking _ _ => true | _ => false end.

(** No poll comes further. *)
Definition ev_pc_ok (p : ev_pc) : Prop :=
  match p with
  | EvOutside (Some (EvWait ms, ret)) => ms = 0 -> ret = 1
  | EvLocked (EvWait ms) | EvBlocked ms | EvRelocking ms _ | EvUnlocking (EvWait ms) _ => ms <> 0
  | _ => True
  end.

Record ev_inv (x : EventDescriptor * list ev_pc) : Prop := {
  ei_owner : owned ev_holds (mutex x.1) x.2;
  ei_pc : forall i p, x.2 !! i = Some p -> ev_pc_ok p;
}.

Lemma ev_inv_start auto_reset init_state n : ev_inv (ev_start auto_reset init_state n).
Proof.
  split; cbn.
  - intros i. split; [done|]. intros (p & Hp & Hh). apply lookup_replicate in Hp as [-> _]. done.
  - intros i p Hp. apply lookup_replicate in Hp as [-> _]. done.
Qed.

Lemma ev_take_mutex e : mutex (ev_take e) = mutex e.
Proof. unfold ev_take. by destruct (auto_reset e). Qed.
Lemma ev_woken_mutex ret e ret' e' : ev_woken ret e = (ret', e') -> mutex e' = mutex e.
Proof. unfold ev_woken. intros [= _ <-]. case_match; [apply ev_take_mutex|done]. Qed.

Lemma ev_inv_insert e e' l i p p' : ev_inv (e, l) -> l !! i = Some p ->
  (mutex e' = Some i <-> ev_holds p' = true) -> (forall j, j <> i -> mutex e' = Some j <-> mutex e = Some j) ->
  ev_pc_ok p' -> ev_inv (e', <[i := p']> l).
Proof.
  intros [Ho Hp] Hi Hs Hother Hok. split; [by eapply owned_insert|]. cbn.
  intros j q [(-> & <- & _)|(_ & Hj)]%list_lookup_insert_Some; [done|]. by eapply Hp.
Qed.

Lemma ev_thread_inv e e' l i p p' : ev_inv (e, l) -> l !! i = Some p -> ev_thread i (e, p) (e', p') ->
  ev_inv (e', <[i := p']> l).
Proof.
  intros Hinv Hi Hstep. pose proof (owned_at _ _ _ _ _ (ei_owner _ Hinv) Hi) as Ho. cbn in Ho.
  pose proof (ei_pc _ Hinv _ _ Hi) as Hok.
  eapply ev_inv_insert; [done..| | |]; inversion Hstep; subst; cbn [ev_holds ev_pc_ok mutex ev_set_mutex ev_set_state] in *;
    repeat match goal with H : ev_woken _ _ = _ |- _ => apply ev_woken_mutex in H; rewrite H end;
    rewrite ?ev_take_mutex; cbn [mutex ev_set_mutex] in *; try done; try (intros; split; congruence).
  - case_match eqn:E; cbn; [|rewrite E]; done.
  - case_match; done.
  - intros j Hj. rewrite (proj2 Ho eq_refl). split; congruence.
  - intros j Hj. rewrite (proj2 Ho eq_refl). split; congruence.
  - by case_match.
  - destruct c; try done. intros ->. pose proof (proj2 Ho eq_refl). congruence.
  - destruct c; cbn; [congruence|done..].
Qed.

Lemma ev_step_inv x y : ev_inv x -> ev_step x y -> ev_inv y.
Proof.
  intros Hinv. destruct 1 as [x y [e e' l i p p' Hi Hstep]|e l i j ms Hi Hj|e l i Hi _]; [by eapply ev_thread_inv| |].
  - pose proof (owned_at _ _ _ _ _ (ei_owner _ Hinv) Hi) as Ho. pose proof (owned_at _ _ _ _ _ (ei_owner _ Hinv) Hj) as Hoj.
    pose proof (ei_pc _ Hinv _ _ Hj). assert (i <> j) by congruence.
    eapply (ev_inv_insert e e); [eapply (ev_inv_insert e e)|by rewrite list_lookup_insert_ne|..]; done.
  - pose proof (owned_at _ _ _ _ _ (ei_owner _ Hinv) Hi). by eapply (ev_inv_insert e e).
Qed.

Lemma ev_reachable_inv auto_reset init_state n x : rtc ev_step (ev_start auto_reset init_state n) x -> ev_inv x.
Proof. intros H. eapply rtc_ind_r with (P := ev_inv); [apply ev_inv_start|intros; by eapply ev_step_inv|done]. Qed.

(** *** A poll that finds the mutex free *)

(** Once thread [i] polls with the mutex in its hands the event stays as it is, and no
    thread gets the mutex. [l] is where the threads were then. *)
Record ev_stuck (i : nat) (x y : EventDescriptor * list ev_pc) : Prop := {
  es_event : y.1 = x.1;
  es_poller : y.2 !! i = Some (EvLocking (EvWait 0));
  es_new : forall j o, j <> i -> x.2 !! j = Some (EvOutside o) -> exists q, y.2 !! j = Some q /\
    match q with EvOutside o' => o' = o \/ o' = Some (EvWait 0, 1) | EvPolling | EvLocking _ => True | _ => False end;
  es_locking : forall j c, x.2 !! j = Some (EvLocking c) -> y.2 !! j = Some (EvLocking c);
}.

Lemma ev_stuck_refl i x : x.2 !! i = Some (EvLocking (EvWait 0)) -> ev_stuck i x x.
Proof. intros Hi. split; try done. intros j o _ Hj. exists (EvOutside o). eauto. Qed.

(** A thread that does not hold the mutex while another does. *)
Lemma ev_thread_shut_out i j e p e' p' : mutex e = Some i -> ev_holds p = false -> ev_thread j (e, p) (e', p') ->
  e' = e /\
  match p with
  | EvOutside _ => p' = EvPolling \/ exists c, p' = EvLocking c
  | EvPolling => p' = EvOutside (Some (EvWait 0, 1))
  | EvLocking _ => False
  | _ => True
  end.
Proof.
  intros Hm Hh Hs. inversion Hs; subst; cbn in *; try congruence; (split; [done|]); try done; eauto.
  case_match; eauto.
Qed.

Lemma ev_stuck_insert i x e l j p p' : ev_stuck i x (e, l) -> l !! j = Some p -> j <> i ->
  match p with
  | EvOutside _ => p' = EvPolling \/ exists c, p' = EvLocking c
  | EvPolling => p' = EvOutside (Some (EvWait 0, 1))
  | EvLocking _ => False
  | _ => True
  end -> ev_stuck i x (e, <[j := p']> l).
Proof.
  intros [He Hp Hnew Hlock] Hj Hji Hpp. split; cbn in *; [done|by rewrite list_lookup_insert_ne| |].
  - intros k o Hk Ho. destruct (Hnew k o Hk Ho) as (q & Hq & Hqo). destruct (decide (k = j)) as [->|Hkj].
    + rewrite list_lookup_insert_eq by (by eapply lookup_lt_Some). exists p'. split; [done|]. assert (q = p) as -> by congruence.
      destruct p; try done; [destruct Hpp as [->|[c ->]]; done|subst; by right].
    + rewrite list_lookup_insert_ne by done. eauto.
  - intros k c Hk. specialize (Hlock _ _ Hk). destruct (decide (k = j)) as [->|Hkj]; [by simplify_eq|].
    by rewrite list_lookup_insert_ne.
Qed.

Lemma ev_stuck_step i x y z : ev_inv y -> ev_stuck i x y -> ev_step y z -> ev_stuck i x z.
Proof.
  intros Hinv Hst Hstep. pose proof (es_poller _ _ _ Hst) as Hp.
  assert (mutex y.1 = Some i) as Hm by (apply (ei_owner _ Hinv); eauto).
  destruct Hstep as [y z [e e' l j p p' Hj Hstep]|e l j k ms Hj Hk|e l j Hj _]; cbn in *.
  - pose proof (owned_at _ _ _ _ _ (ei_owner _ Hinv) Hj) as Ho. cbn in Ho.
    destruct (decide (j = i)) as [->|Hji]; [simplify_eq; inversion Hstep; subst; congruence|].
    destruct (ev_thread_shut_out i j e p e' p') as [-> Hpp]; [done| |done|by eapply ev_stuck_insert].
    destruct (ev_holds p); [|done]. rewrite (proj2 Ho eq_refl) in Hm. congruence.
  - assert (j <> k) by congruence. apply (ev_stuck_insert _ _ _ _ _ (EvBlocked ms)); [|by rewrite list_lookup_insert_ne|congruence|done].
    apply (ev_stuck_insert _ _ _ _ _ EvSignalling); [done|done|congruence|done].
  - apply (ev_stuck_insert _ _ _ _ _ EvSignalling); [done|done|congruence|done].
Qed.

(** C18: [KernelEvent::IsSet] never says that the event is set: its poll takes the mutex with
    [pthread_mutex_trylock] and then locks it again, or returns 1 when that fails. From then on,
    whatever the threads do, the poll has not returned, the event is as it was, a thread that
    waits for the mutex waits on, and a new call gets to the mutex or is another poll that
    returns 1. *)
Theorem IsSet_never_true auto_reset init_state n x : rtc ev_step (ev_start auto_reset init_state n) x ->
  (forall i ret, x.2 !! i = Some (EvOutside (Some (EvWait 0, ret))) -> ret = 1) /\
  (forall i, x.2 !! i = Some EvPolling -> mutex x.1 = None -> forall e p, ev_thread i (x.1, EvPolling) (e, p) -> p = EvLocking (EvWait 0)) /\
  (forall i y, x.2 !! i = Some (EvLocking (EvWait 0)) -> rtc ev_step x y -> ev_stuck i x y).
Proof.
  intros Hx%ev_reachable_inv. split_and!.
  - intros i ret Hi. by apply (ei_pc _ Hx _ _ Hi).
  - intros i _ Hm e p Hs. inversion Hs; subst; congruence.
  - intros i y Hi Hy. enough (ev_inv y /\ ev_stuck i x y) by tauto.
    eapply rtc_ind_r with (P := fun y => ev_inv y /\ ev_stuck i x y); [by split; [|apply ev_stuck_refl]| |done].
    intros y' z _ Hstep [Hinv Hst]. split; [by eapply ev_step_inv|by eapply ev_stuck_step].
Qed.

(** The first poll of a fresh event, and then a thread that wants to set it. *)
Lemma IsSet_never_true_witness :
  let x := (mkEvent (Some 0%nat) true true, [EvLocking (EvWait 0); EvOutside None]) in
  let y := (mkEvent (Some 0%nat) true true, [EvLocking (EvWait 0); EvLocking EvSet]) in
  rtc ev_step (ev_start true true 2) x /\ ev_stuck 0 x y.
Proof.
  cbn zeta.
  assert (rtc ev_step (ev_start true true 2) (mkEvent (Some 0%nat) true true, [EvLocking (EvWait 0); EvOutside None])) as Hx.
  { apply rtc_l with (CreateOsEvent true true, [EvPolling; EvOutside None]).
    - apply ev_one, (one_steps _ _ _ [EvOutside None; EvOutside None] 0%nat (EvOutside None) EvPolling); [reflexivity|].
      apply (ev_call_wait 0%nat _ None 0). lia.
    - apply rtc_once, ev_one, (one_steps _ _ _ [EvPolling; EvOutside None] 0%nat EvPolling (EvLocking (EvWait 0))); [reflexivity|].
      by apply (ev_poll 0%nat (CreateOsEvent true true)). }
  split; [exact Hx|]. destruct (IsSet_never_true true true 2 _ Hx) as (_ & _ & H). apply H; [reflexivity|].
  apply rtc_once, ev_one, (one_steps _ _ _ [EvLocking (EvWait 0); EvOutside None] 1%nat (EvOutside None) (EvLocking EvSet)); [reflexivity|].
  apply ev_call_set.
Defined.

(** *** A wait *)

(** The deadline is the time now and the milliseconds. It has the form POSIX wants unless
    the nanoseconds add up to a second: then the wait fails. *)
Lemma deadline_ok sec usec ms : 0 <= usec < 1000000 -> 0 <= ms < 2 ^ 32 ->
  let d := deadline sec usec ms in
  d.1 * 1000000000 + d.2 = sec * 1000000000 + usec * 1000 + ms * 1000000 /\
  (timespec_valid d = false <-> usec * 1000 + ms mod 1000 * 1000000 = 1000000000).
Proof.
  intros Hu Hms. unfold deadline, timespec_valid. pose proof (Z.mod_pos_bound ms 1000 ltac:(lia)).
  pose proof (Z.div_mod ms 1000 ltac:(lia)). rewrite (u32_small (ms mod 1000 * 1000000)) by lia.
  destruct (Z.ltb_spec 1000000000 (usec * 1000 + ms mod 1000 * 1000000)); cbn; (split; [lia|]);
    rewrite andb_false_iff, Z.leb_gt, Z.ltb_ge; lia.
Qed.

(** A wait returns 0 for an event nobody has set, when the condition variable wakes it for
    no reason: the flag is not tested again. *)
Lemma wait_returns_unset : rtc ev_step (ev_start true false 1) (mkEvent None false true, [EvOutside (Some (EvWait 1000, 0))]).
Proof.
  eapply rtc_l; [apply ev_one, thread_alone, (ev_call_wait _ _ None 1000); lia|].
  eapply rtc_l; [apply ev_one, thread_alone, ev_lock; done|].
  eapply rtc_l; [apply ev_one, thread_alone, (ev_wait _ _ _ 0 0); done|].
  eapply rtc_l; [apply ev_one, thread_alone, (ev_unblock _ _ _ 0); by right|].
  eapply rtc_l; [apply ev_one, thread_alone, (ev_relock _ _ _ 0 0); done|].
  apply rtc_once, ev_one, thread_alone. apply (ev_unlock 0%nat (mkEvent (Some 0%nat) false true) (EvWait 1000) 0).
Qed.

(** ** Threads *)

(** What the constructor of [os_thread] calls: the results of the attribute calls, with the
    stack sizes that are refused; what [pthread_create] answers for a stack size, 0 for the
    default, and leaves in the handle; the affinity of all cores where the flag asks for it,
    [None] where its set cannot be allocated. *)
Record Pthread := mkPthread {
  pt_stack_min : Z;
  pt_attr_init : Z;
  pt_setstacksize : Z -> Z;
  pt_attr_destroy : Z;
  pt_affinity : option (option Z);
  pt_create : Z -> Z * Z;
}.

Definition stack_limit : Z := 20 * 1024 * 1024.

(** The loop that doubles the stack: the last error, or nothing when it returns from the
    constructor, and the handle. *)
Fixpoint grow_stack (fuel : nat) (pt : Pthread) (stackSize err thread : Z) : option (option Z * Z) :=
  match fuel with
  | O => None
  | S fuel =>
      if stackSize <? stack_limit then
        let stackSize := u32 (stackSize * 2) in
        if pt_setstacksize pt stackSize =? 0 then
          let '(err, thread) := pt_create pt stackSize in
          if err =? EINVAL then grow_stack fuel pt stackSize err thread else Some (Some err, thread)
        else Some (None, thread)
      else Some (Some err, thread)
  end.

(** The handle of the new thread, 0 for none; [None] where a destroyed attribute is used. *)
Definition os_thread_new (pt : Pthread) (stackSize : Z) : option Z :=
  if negb (pt_attr_init pt =? 0) then Some 0
  else
    let stackSize := if stackSize =? 0 then 0 else AlignUp 32 (Max (pt_stack_min pt) stackSize) 4096 in
    let refused := negb (stackSize =? 0) && negb (pt_setstacksize pt stackSize =? 0) in
    if refused && negb (pt_attr_destroy pt =? 0) then Some 0
    else
      match pt_affinity pt with
      | Some None => Some 0
      | o =>
          check (negb refused) ;;
          if match o with Some (Some err) => negb (err =? 0) | _ => false end then Some 0
          else
            let '(err, thread) := pt_create pt stackSize in
            '(err, thread) ← (if (err =? EINVAL) && negb (stackSize =? 0) then grow_stack 14 pt stackSize err thread
                              else Some (Some err, thread));
            Some (match err with None => thread | Some err => if err =? 0 then thread else 0 end)
      end.

Lemma grow_stack_total fuel pt s err thread : 0 < s < 2 ^ 31 -> stack_limit <= s * 2 ^ Z.of_nat fuel -> (0 < fuel)%nat ->
  is_Some (grow_stack (S fuel) pt s err thread).
Proof.
  revert s err thread. induction fuel as [|fuel IH]; [lia|]. intros s err thread Hs Hlim _. remember (S fuel) as f eqn:Ef. cbn [grow_stack].
  destruct (Z.ltb_spec s stack_limit) as [Hlt|]; [|eauto]. unfold stack_limit in Hlt.
  rewrite u32_small by lia. case_match; [|eauto]. destruct (pt_create pt (s * 2)) as [err' thread']. case_match; [|eauto].
  subst f. destruct fuel as [|fuel].
  - cbn [grow_stack]. destruct (Z.ltb_spec (s * 2) stack_limit); [|eauto]. unfold stack_limit in *. lia.
  - apply IH; [lia| |lia]. rewrite Nat2Z.inj_succ, Z.pow_succ_r in Hlim by lia. nia.
Qed.

Lemma page_aligned v : 0 < v < 2 ^ 30 -> 4096 <= AlignUp 32 v 4096 < 2 ^ 31.
Proof.
  intros Hv. destruct (AlignUp_ceil 32 v 4096) as (Hmod & Hb & _); [lia..|].
  pose proof (Z.div_mod (AlignUp 32 v 4096) 4096 ltac:(lia)). lia.
Qed.

(** The constructor ends, unless it goes on with an attribute it has destroyed because the
    stack size was refused. *)
Lemma os_thread_new_total pt stackSize : 0 <= stackSize < 2 ^ 30 -> 0 < pt_stack_min pt < 2 ^ 30 ->
  let size := if stackSize =? 0 then 0 else AlignUp 32 (Max (pt_stack_min pt) stackSize) 4096 in
  size = 0 \/ pt_setstacksize pt size = 0 \/ pt_attr_destroy pt <> 0 -> is_Some (os_thread_new pt stackSize).
Proof.
  intros Hs Hm size Hok. unfold os_thread_new. fold size. destruct (pt_attr_init pt =? 0); [|by eexists]. cbn [negb].
  assert (size = 0 \/ 4096 <= size < 2 ^ 31) as Hsize.
  { subst size. destruct (Z.eqb_spec stackSize 0); [by left|right]. apply page_aligned. unfold Max. case_match; lia. }
  set (refused := negb (size =? 0) && negb (pt_setstacksize pt size =? 0)).
  destruct (refused && negb (pt_attr_destroy pt =? 0)) eqn:E; [by eexists|].
  assert (refused = false) as ->.
  { subst refused. destruct (Z.eqb_spec size 0), (Z.eqb_spec (pt_setstacksize pt size) 0), (Z.eqb_spec (pt_attr_destroy pt) 0); cbn in *; try done; lia. }
  assert (forall err thread, is_Some (if (err =? EINVAL) && negb (size =? 0) then grow_stack 14 pt size err thread else Some (Some err, thread))) as Hg.
  { intros err thread. case_match eqn:Eg; [|by eexists]. apply grow_stack_total; unfold stack_limit; [|lia..].
    destruct (Z.eqb_spec size 0); [by rewrite andb_false_r in Eg|lia]. }
  destruct (pt_affinity pt) as [[a|]|]; cbn [negb check mbind option_bind]; [|by eexists|].
  all: try (destruct (negb (a =? 0)); [by eexists|]).
  all: destruct (pt_create pt size) as [err thread]; destruct (Hg err thread) as [[o th] Hgo]; rewrite Hgo; by eexists.
Qed.

Lemma os_thread_new_destroyed pt stackSize : stackSize <> 0 ->
  pt_attr_init pt = 0 -> pt_attr_destroy pt = 0 -> pt_affinity pt <> Some None ->
  let size := AlignUp 32 (Max (pt_stack_min pt) stackSize) 4096 in
  size <> 0 -> pt_setstacksize pt size <> 0 -> os_thread_new pt stackSize = None.
Proof.
  intros Hs Hi Hd Ha size Hz Hset. unfold os_thread_new. rewrite (proj2 (Z.eqb_neq stackSize 0) Hs). fold size.
  rewrite Hi, Hd, (proj2 (Z.eqb_neq size 0) Hz), (proj2 (Z.eqb_neq _ 0) Hset). cbn.
  by destruct (pt_affinity pt) as [[]|].
Qed.

(** [Wait] from many threads. *)
Record os_thread := mkThread { th_lock : mutex_t; th_finished : bool; th_joins : nat }.

(** [th_joins] counts the joins that have succeeded. A thread is outside, with what its last
    [Wait] returned; before or after taking the mutex; in [pthread_join]; after one that
    succeeded; before it releases the mutex. *)
Inductive th_pc :=
  | ThOutside (last : option bool)
  | ThLocking
  | ThLocked
  | ThJoining
  | ThJoined
  | ThUnlocking (ret : bool).

Inductive th_step : nat -> os_thread * th_pc -> os_thread * th_pc -> Prop :=
  | th_Wait i t o : th_step i (t, ThOutside o) (t, if th_finished t then ThOutside (Some true) else ThLocking)
  | th_take i t : th_lock t = None -> th_step i (t, ThLocking) (mkThread (Some i) (th_finished t) (th_joins t), ThLocked)
  | th_test i t : th_step i (t, ThLocked) (t, if th_finished t then ThUnlocking true else ThJoining)
  | th_join i t : th_step i (t, ThJoining) (mkThread (th_lock t) (th_finished t) (S (th_joins t)), ThJoined)
  | th_join_failed i t : th_step i (t, ThJoining) (t, ThUnlocking false)
  | th_finish i t : th_step i (t, ThJoined) (mkThread (th_lock t) true (th_joins t), ThUnlocking true)
  | th_release i t ret : th_step i (t, ThUnlocking ret) (mkThread None (th_finished t) (th_joins t), ThOutside (Some ret)).

Definition th_start (n : nat) : os_thread * list th_pc := (mkThread None false 0, replicate n (ThOutside None)).

Definition th_holds (p : th_pc) : bool := match p with ThOutside _ | ThLocking => false | _ => true end.

(** What a thread at a place knows. *)
Definition th_pc_ok (t : os_thread) (p : th_pc) : Prop :=
  match p with
  | ThOutside (Some true) => th_finished t = true
  | ThOutside _ | ThLocking => True
  | ThLocked => th_joins t = Nat.b2n (th_finished t)
  | ThJoining => th_finished t = false /\ th_joins t = 0%nat
  | ThJoined => th_finished t = false /\ th_joins t = 1%nat
  | ThUnlocking ret => th_joins t = Nat.b2n (th_finished t) /\ (ret = true -> th_finished t = true)
  end.

Record th_inv (x : os_thread * list th_pc) : Prop := {
  ti_owner : owned th_holds (th_lock x.1) x.2;
  ti_free : th_lock x.1 = None -> th_joins x.1 = Nat.b2n (th_finished x.1);
  ti_pc : forall i p, x.2 !! i = Some p -> th_pc_ok x.1 p;
}.

Lemma th_step_inv x y : th_inv x -> threads_step th_step x y -> th_inv y.
Proof.
  intros Hinv. destruct 1 as [t t' l i p p' Hi Hstep]. destruct Hinv as [Ho Hf Hp]. cbn in *.
  pose proof (owned_at _ _ _ _ _ Ho Hi) as Hown. pose proof (Hp _ _ Hi) as Hok.
  assert ((th_lock t' = Some i <-> th_holds p' = true) /\ (forall j, j <> i -> th_lock t' = Some j <-> th_lock t = Some j) /\
    (th_lock t' = None -> th_joins t' = Nat.b2n (th_finished t')) /\ th_pc_ok t' p' /\
    (t' = t \/ th_holds p = true \/ th_lock t = None) /\ (th_finished t = true -> th_finished t' = true)) as (H1 & H2 & H3 & H4 & H5 & H6).
  { inversion Hstep; subst; cbn in *; try (destruct (th_finished t') eqn:E); cbn in *; split_and!; try done; try tauto;
      try (intros j Hj); rewrite ?(proj2 Hown eq_refl); try (intuition congruence); try congruence; auto.
    - by rewrite E.
    - destruct ret; [by apply Hok|done]. }
  split; cbn; [by eapply owned_insert|done|]. intros j q [(-> & <- & _)|(Hj & Hq)]%list_lookup_insert_Some; [done|].
  specialize (Hp _ _ Hq). destruct H5 as [->|H5]; [done|]. pose proof (owned_others _ _ _ _ _ _ _ Ho Hi Hq ltac:(congruence) H5) as Hh.
  destruct q as [[[]|]| | | | |]; try done. by apply H6.
Qed.

Lemma th_inv_start n : th_inv (th_start n).
Proof.
  split; cbn; [|done|].
  - intros i. split; [done|]. intros (p & [-> _]%lookup_replicate & Hh). done.
  - intros i p [-> _]%lookup_replicate. done.
Qed.

(** C17: however many threads wait for a thread object, and in whatever order, pthread_join is
    called by one at a time and never again after it has succeeded, and a Wait that returns
    true returns after that. *)
Theorem os_thread_Wait_joins_once n x : rtc (threads_step th_step) (th_start n) x ->
  (th_joins x.1 <= 1)%nat /\
  (forall i j, x.2 !! i = Some ThJoining -> x.2 !! j = Some ThJoining -> i = j) /\
  (forall i, x.2 !! i = Some ThJoining -> th_joins x.1 = 0%nat) /\
  (forall i, x.2 !! i = Some (ThOutside (Some true)) -> th_joins x.1 = 1%nat).
Proof.
  intros Hx. assert (th_inv x) as [Ho Hf Hp] by (eapply rtc_ind_r with (P := th_inv); [apply th_inv_start|intros; by eapply th_step_inv|done]).
  assert ((th_joins x.1 <= 1)%nat /\ (th_finished x.1 = true -> th_joins x.1 = 1%nat)) as [H1 Hfin].
  { destruct (th_lock x.1) as [k|] eqn:Ek.
    - destruct (proj1 (Ho k) eq_refl) as (p & Hk & Hh). specialize (Hp _ _ Hk). destruct p as [| | | | |]; try done; cbn in Hp.
      all: destruct (th_finished x.1); cbn in *; intuition (try congruence; lia).
    - rewrite Hf by done. destruct (th_finished x.1); cbn; split; done || lia. }
  split_and!; [done| | |].
  - intros i j Hi Hj. pose proof (owned_at _ _ _ _ _ Ho Hi) as [_ E]. pose proof (owned_at _ _ _ _ _ Ho Hj) as [_ E'].
    specialize (E eq_refl). specialize (E' eq_refl). congruence.
  - intros i Hi. by apply (Hp _ _ Hi).
  - intros i Hi. apply Hfin, (Hp _ _ Hi).
Qed.

(** One thread waits for the thread object, twice. *)
Lemma os_thread_Wait_joins_once_witness :
  let x := (mkThread None true 1, [ThOutside (Some true)]) in
  rtc (threads_step th_step) (th_start 1) x /\ th_joins x.1 = 1%nat.
Proof.
  cbn zeta.
  assert (rtc (threads_step th_step) (th_start 1) (mkThread None true 1, [ThOutside (Some true)])) as Hx.
  { eapply rtc_l; [apply thread_alone, (th_Wait 0%nat (mkThread None false 0) None)|].
    eapply rtc_l; [apply thread_alone, th_take; reflexivity|].
    eapply rtc_l; [apply thread_alone, (th_test 0%nat (mkThread (Some 0%nat) false 0))|].
    eapply rtc_l; [apply thread_alone, th_join|].
    eapply rtc_l; [apply thread_alone, th_finish|].
    eapply rtc_l; [apply thread_alone, th_release|].
    apply rtc_once, thread_alone. apply (th_Wait 0%nat (mkThread None true 1) (Some true)). }
  split; [exact Hx|]. destruct (os_thread_Wait_joins_once 1 _ Hx) as (_ & _ & _ & H). exact (H 0%nat eq_refl).
Defined.
