(* ===== verification/LazyPtr.v ===== *)
(** * LazyPtr: construction at first use (util/lazy_ptr.h)

    [lazy_ptr] tests without its mutex whether the object has been made, and again with
    it. Each access of a thread to the object, to the function that makes it or to the
    mutex is a step. [reset] and the moves are not for use by many threads. *)

From stdpp Require Import relations.
From S2P Require Import Prelude.
From S2P Require Import Locks.
From S2P Require Import OsLinux.
#[local] Open Scope Z_scope.

Section LazyPtr.
Context {T : Type}.

(** [func] is null or not, [obj] a [unique_ptr]; [lp_calls] counts the calls of [func]. *)
Record lazy_ptr := mkLazy { lp_lock : mutex_t; lp_func : bool; lp_obj : option T; lp_calls : nat }.

Definition lp_new : lazy_ptr := mkLazy None true None 0.
Definition lp_created (p : lazy_ptr) : bool := negb (lp_func p).
Definition empty (p : lazy_ptr) : bool := match lp_obj p with None => true | Some _ => false end.

(** A thread is outside, with the pointer its last access returned; before or after taking
    the mutex in [make_body(block)]; between the store of the object and that of [func];
    before releasing the mutex; back from [make(true)], before it reads [obj]. *)
Inductive lp_pc :=
  | LpOutside (last : option (option T))
  | LpLocking (block : bool)
  | LpLocked (block : bool)
  | LpStored (block : bool)
  | LpUnlocking (block : bool)
  | LpReading.

(** What follows [make]. *)
Definition lp_made (block : bool) : lp_pc := if block then LpReading else LpOutside None.

Inductive lp_step : nat -> lazy_ptr * lp_pc -> lazy_ptr * lp_pc -> Prop :=
  (* [operator*], [operator->] and [touch] *)
  | lp_make i p o block : lp_step i (p, LpOutside o) (p, if lp_created p then lp_made block else LpLocking block)
  | lp_take i p block : lp_lock p = None ->
      lp_step i (p, LpLocking block) (mkLazy (Some i) (lp_func p) (lp_obj p) (lp_calls p), LpLocked block)
  | lp_Try_failed i p j : lp_lock p = Some j -> lp_step i (p, LpLocking false) (p, LpOutside None)
  | lp_done i p block : lp_func p = false -> lp_step i (p, LpLocked block) (p, LpUnlocking block)
  | lp_call i p block ptr : lp_func p = true ->
      lp_step i (p, LpLocked block) (mkLazy (lp_lock p) (lp_func p) ptr (S (lp_calls p)), LpStored block)
  | lp_clear i p block : lp_step i (p, LpStored block) (mkLazy (lp_lock p) false (lp_obj p) (lp_calls p), LpUnlocking block)
  | lp_unlock i p block : lp_step i (p, LpUnlocking block) (mkLazy None (lp_func p) (lp_obj p) (lp_calls p), lp_made block)
  | lp_read i p : lp_step i (p, LpReading) (p, LpOutside (Some (lp_obj p))).

Definition lp_start (n : nat) : lazy_ptr * list lp_pc := (lp_new, replicate n (LpOutside None)).

(** ** The invariant *)

Definition lp_holds (pc : lp_pc) : bool := match pc with LpLocked _ | LpStored _ | LpUnlocking _ => true | _ => false end.

(** How often [func] has been called, where no thread is between its two stores. *)
Definition lp_settled (p : lazy_ptr) : Prop := lp_calls p = if lp_func p then 0%nat else 1%nat.

Definition lp_pc_ok (p : lazy_ptr) (pc : lp_pc) : Prop :=
  match pc with
  | LpOutside None | LpLocking _ => True
  | LpOutside (Some o) => lp_func p = false /\ o = lp_obj p
  | LpReading => lp_func p = false
  | LpLocked _ => lp_settled p
  | LpStored _ => lp_func p = true /\ lp_calls p = 1%nat
  | LpUnlocking _ => lp_func p = false /\ lp_calls p = 1%nat
  end.

Record lp_inv (x : lazy_ptr * list lp_pc) : Prop := {
  li_owner : owned lp_holds (lp_lock x.1) x.2;
  li_free : lp_lock x.1 = None -> lp_settled x.1;
  li_pc : forall i pc, x.2 !! i = Some pc -> lp_pc_ok x.1 pc;
}.

Lemma lp_inv_start n : lp_inv (lp_start n).
Proof.
  split; cbn; [|done|].
  - intros i. split; [done|]. intros (p & [-> _]%lookup_replicate & Hh). done.
  - intros i p [-> _]%lookup_replicate. done.
Qed.

(** A step of the thread [i]: what it leaves of the shared state for the others. *)
Lemma lp_step_local i p pc p' pc' : lp_step i (p, pc) (p', pc') ->
  (lp_lock p = Some i <-> lp_holds pc = true) -> (lp_lock p = None -> lp_settled p) -> lp_pc_ok p pc ->
  (lp_lock p' = Some i <-> lp_holds pc' = true) /\ (forall j, j <> i -> lp_lock p' = Some j <-> lp_lock p = Some j) /\
  (lp_lock p' = None -> lp_settled p') /\ lp_pc_ok p' pc' /\
  (p' = p \/ lp_holds pc = true \/ lp_lock p = None) /\
  (lp_func p = false -> lp_func p' = false /\ lp_obj p' = lp_obj p).
Proof.
  intros Hs Ho Hf Hok. unfold lp_settled in *. inversion Hs; subst; cbn in *.
  all: try (unfold lp_created, lp_made; destruct (lp_func p') eqn:E; cbn [negb] in *; try destruct block).
  all: cbn in *; unfold lp_settled in *; cbn in *; split_and!; try done; try tauto; try (intros j Hj); rewrite ?(proj2 Ho eq_refl);
    try (intuition congruence); try congruence; auto.
  - by rewrite E in Hok.
  - by rewrite E in Hok.
  - match goal with H : lp_func p = true |- _ => rewrite H in Hok end. by rewrite Hok.
  - by destruct block.
  - intros _. destruct Hok as [-> ->]. done.
  - destruct block; [apply Hok|done].
Qed.

Lemma lp_step_inv x y : lp_inv x -> threads_step lp_step x y -> lp_inv y.
Proof.
  intros [Ho Hf Hp]. destruct 1 as [p p' l i pc pc' Hi Hstep]. cbn in *.
  pose proof (owned_at _ _ _ _ _ Ho Hi) as Hown.
  destruct (lp_step_local _ _ _ _ _ Hstep Hown Hf (Hp _ _ Hi)) as (H1 & H2 & H3 & H4 & H5 & H6).
  split; cbn; [by eapply owned_insert|done|]. intros j q [(-> & <- & _)|(Hj & Hq)]%list_lookup_insert_Some; [done|].
  specialize (Hp _ _ Hq). destruct H5 as [->|H5]; [done|]. pose proof (owned_others _ _ _ _ _ _ _ Ho Hi Hq ltac:(congruence) H5) as Hh.
  destruct q as [[o|]| | | | |]; try done; cbn in *.
  - destruct Hp as [Hfn ->]. destruct (H6 Hfn) as [-> ->]. done.
  - by apply H6.
Qed.

(** However many threads use a [lazy_ptr], and in whatever order, [func] is called once at
    most, and what an access returns is the object it has made: all see the same. A [touch]
    never waits for the mutex. *)
Theorem lazy_ptr_made_once n x : rtc (threads_step lp_step) (lp_start n) x ->
  (lp_calls x.1 <= 1)%nat /\
  (forall i o, x.2 !! i = Some (LpOutside (Some o)) -> lp_created x.1 = true /\ lp_calls x.1 = 1%nat /\ o = lp_obj x.1) /\
  (forall i, x.2 !! i = Some (LpLocking false) -> exists y, lp_step i (x.1, LpLocking false) y).
Proof.
  intros Hx. assert (lp_inv x) as [Ho Hf Hp] by (eapply rtc_ind_r with (P := lp_inv); [apply lp_inv_start|intros; by eapply lp_step_inv|done]).
  assert ((lp_calls x.1 <= 1)%nat /\ (lp_func x.1 = false -> lp_calls x.1 = 1%nat)) as [H1 Hfin].
  { unfold lp_settled in *. destruct (lp_lock x.1) as [k|] eqn:Ek.
    - destruct (proj1 (Ho k) eq_refl) as (p & Hk & Hh). specialize (Hp _ _ Hk). destruct p; try done; cbn in Hp; unfold lp_settled in Hp.
      all: destruct (lp_func x.1); cbn in *; intuition (try congruence; lia).
    - rewrite Hf by done. destruct (lp_func x.1); cbn; split; done || lia. }
  split_and!; [done| |].
  - intros i o Hi. destruct (Hp _ _ Hi) as [Hfn ->]. unfold lp_created. rewrite Hfn. split_and!; [done|by apply Hfin|done].
  - intros i Hi. destruct (lp_lock x.1) as [j|] eqn:E; eexists; [by eapply lp_Try_failed|by apply lp_take].
Qed.
End LazyPtr.

Lemma lazy_ptr_made_once_witness :
  let x := (mkLazy None false (Some 7) 1, [LpOutside (Some (Some 7))]) in
  rtc (threads_step lp_step) (lp_start 1) x /\ lp_created x.1 = true.
Proof.
  cbn zeta.
  assert (rtc (threads_step lp_step) (lp_start 1) (mkLazy None false (Some 7) 1, [LpOutside (Some (Some 7))])) as Hx.
  { eapply rtc_l; [apply thread_alone, (lp_make 0%nat lp_new None true)|].
    eapply rtc_l; [apply thread_alone, lp_take; reflexivity|].
    eapply rtc_l; [apply thread_alone, (lp_call _ _ _ (Some 7)); reflexivity|].
    eapply rtc_l; [apply thread_alone, lp_clear|].
    eapply rtc_l; [apply thread_alone, lp_unlock|].
    apply rtc_once, thread_alone. apply (lp_read 0%nat (mkLazy None false (Some 7) 1)). }
  split; [exact Hx|]. destruct (lazy_ptr_made_once 1 _ Hx) as (_ & H & _). exact (proj1 (H 0%nat _ eq_refl)).
Defined.
