(* ===== verification/HsaBridge.v ===== *)
(** * HsaBridge: the functions of libhsa-runtime64 (hsa.cpp)

    The library cannot link against the runtime that links against it: it looks up what it
    needs of libhsa-runtime64 in the process when it is first called, and keeps the function
    pointers. ([hsakmt_hsa_loader_init], which opening the library calls, is in Runtime.) Behind a pointer is the call of Kernel.v. The lock makes a lookup one step. *)

From Stdlib Require Import String.
From stdpp Require Import strings.
From S2P Require Import Prelude.
From S2P Require Import Status.
From S2P Require Import World.
From S2P Require Import Device.
#[local] Open Scope Z_scope.

Definition RTLD_DEFAULT : Z := 0.

(** The static pointers [fn_##_sym], 0 is [nullptr]. *)
Abbreviation fn_table := (gmap string Z).
Definition fn (name : string) (t : fn_table) : Z := default 0 (t !! name).

Section bridge.
Context {K : Type} `{Kernel K}.
Implicit Types (w : World K) (t : fn_table).

Definition HSAKMT_LOOKUP_SYMS (name : string) t : M K fn_table :=
  if fn name t =? 0 then p ← kcall_ (sys_dlsym RTLD_DEFAULT name); mret (<[name := p]> t) else mret t.

(** The function if there is one, else the value after the macros. *)
Definition HSAKMT_EXEC_API {R} (name : string) (t : fn_table) (api : kcall R) (otherwise : R) : M K R :=
  if negb (fn name t =? 0) then kcall_ api else mret otherwise.

Definition hsakmt_hsa_signal_load_relaxed (signal : Z) t : M K (Z * fn_table) :=
  t ← HSAKMT_LOOKUP_SYMS "hsa_signal_load_relaxed" t;
  v ← HSAKMT_EXEC_API "hsa_signal_load_relaxed" t (hsa_signal_load_relaxed signal) 0;
  mret (v, t).

Definition hsakmt_hsa_signal_wait_relaxed (signal compare : Z) t : M K (Z * fn_table) :=
  t ← HSAKMT_LOOKUP_SYMS "hsa_signal_wait_relaxed" t;
  v ← HSAKMT_EXEC_API "hsa_signal_wait_relaxed" t (hsa_signal_wait_relaxed signal compare) 0;
  mret (v, t).

Definition hsakmt_hsa_signal_store_screlease (signal value : Z) t : M K fn_table :=
  t ← HSAKMT_LOOKUP_SYMS "hsa_signal_store_screlease" t;
  HSAKMT_EXEC_API "hsa_signal_store_screlease" t (hsa_signal_store_screlease signal value) tt ;;
  mret t.

(** The status and [*host_address], 0 where it is not written. The status of the call for
    the table is not looked at: what is read of a table it has not filled is undefined. *)
Definition hsakmt_hsa_ven_amd_loader_query_host_address (addr : Z) t : M K (Z * Z * fn_table) :=
  let name := "hsa_ven_amd_loader_query_host_address"%string in
  o ← (if fn name t =? 0 then
         p ← kcall_ (sys_dlsym RTLD_DEFAULT "hsa_system_get_extension_table");
         if p =? 0 then mret None
         else o ← kcall_ hsa_system_get_extension_table; q ← mderef o; mret (Some (<[name := q]> t))
       else mret (Some t));
  match o with
  | None => mret (HSA_STATUS_ERROR, 0, t)
  | Some t => r ← HSAKMT_EXEC_API name t (hsa_loader_query_host_address addr) (HSA_STATUS_ERROR, 0); mret (r, t)
  end.

(** ** Histories *)

Inductive bridge_op :=
  | SignalLoad (signal : Z)
  | SignalWait (signal compare : Z)
  | SignalStore (signal value : Z)
  | QueryHost (addr : Z).

Definition do_bridge_op (op : bridge_op) t : M K fn_table :=
  match op with
  | SignalLoad s => r ← hsakmt_hsa_signal_load_relaxed s t; mret r.2
  | SignalWait s v => r ← hsakmt_hsa_signal_wait_relaxed s v t; mret r.2
  | SignalStore s v => hsakmt_hsa_signal_store_screlease s v t
  | QueryHost a => r ← hsakmt_hsa_ven_amd_loader_query_host_address a t; mret r.2
  end.

Fixpoint do_bridge_ops (ops : list bridge_op) t : M K fn_table :=
  match ops with [] => mret t | op :: ops => t ← do_bridge_op op t; do_bridge_ops ops t end.

(** What dlsym(3) answered for a name. *)
Definition as_dlsym (name : string) (e : kevent) : option Z :=
  match e with
  | KEvent c r =>
      match c in kcall R return R -> option Z with
      | sys_dlsym _ s => fun p => if String.eqb s name then Some p else None
      | _ => fun _ => None
      end r
  end.
Definition dlsyms (name : string) (l : list kevent) : list Z := omap (as_dlsym name) l.

Definition signal_functions : list string := ["hsa_signal_load_relaxed"; "hsa_signal_wait_relaxed"; "hsa_signal_store_screlease"]%string.

(** Lookups of [name] that go from the pointer in [t] to the one in [t']: while it is null
    each answer is kept, and after the first that is not there are no more. *)
Inductive lookups (name : string) t t' : list Z -> Prop :=
  | lookups_none : fn name t' = fn name t -> lookups name t t' []
  | lookups_snoc l p : fn name t = 0 -> Forall (fun q => q = 0) l -> fn name t' = p -> lookups name t t' (l ++ [p]).

Lemma lookups_trans name t t1 t2 l1 l2 : lookups name t t1 l1 -> lookups name t1 t2 l2 -> lookups name t t2 (l1 ++ l2).
Proof.
  intros [E|l p H0 Hl Hp] H2; [cbn; destruct H2; constructor; congruence|].
  destruct H2 as [E|l' p' H0' Hl' Hp']; [rewrite app_nil_r; constructor; congruence|].
  rewrite app_assoc. constructor; [done| |done]. apply Forall_app. split; [apply Forall_app; split; [done|]|done].
  apply Forall_singleton. congruence.
Qed.

(** The calls of one name leave the others alone. *)
Definition looks_up {A} (name : string) t (m : M K A) (table : A -> fn_table) : Prop :=
  forall w r w', m w = Some (r, w') -> exists evs, w_log w' = w_log w ++ evs /\ lookups name t (table r) (dlsyms name evs).

Lemma kcall_log {R} (c : kcall R) w r w' : kcall_ c w = Some (r, w') -> w_log w' = w_log w ++ [KEvent c r].
Proof. unfold kcall_. destruct (kernel_step R c (w_ker w)) as [r0 k]. by intros [= <- <-]. Qed.

Lemma LOOKUP_looks_up name other t : looks_up name t (HSAKMT_LOOKUP_SYMS other t) id.
Proof.
  intros w t' w'. unfold HSAKMT_LOOKUP_SYMS. destruct (Z.eqb_spec (fn other t) 0) as [E|].
  - intros (p & w1 & Hc & [= <- <-])%M_bind_Some. apply kcall_log in Hc. eexists. split; [exact Hc|].
    unfold dlsyms. cbn. destruct (String.eqb_spec other name) as [->|Hne].
    + apply (lookups_snoc name t _ []); [done..|]. unfold fn, id. by rewrite lookup_insert_eq.
    + constructor. unfold fn, id. by rewrite lookup_insert_ne.
  - intros [= <- <-]. exists []. split; [by rewrite app_nil_r|by constructor].
Qed.

Lemma EXEC_looks_up {R} name t other (c : kcall R) v : (forall r, as_dlsym name (KEvent c r) = None) ->
  looks_up name t (HSAKMT_EXEC_API other t c v) (fun _ => t).
Proof.
  intros Hc w r w'. unfold HSAKMT_EXEC_API. destruct (negb _).
  - intros Hr%kcall_log. eexists. split; [exact Hr|]. unfold dlsyms. cbn -[as_dlsym]. rewrite Hc. by constructor.
  - intros [= <- <-]. exists []. split; [by rewrite app_nil_r|by constructor].
Qed.

Lemma looks_up_bind {A B} name t (m : M K A) (f : A -> M K B) tm tf :
  looks_up name t m tm -> (forall a, looks_up name (tm a) (f a) tf) -> looks_up name t (m ≫= f) tf.
Proof.
  intros Hm Hf w r w' (a & w1 & H1 & H2)%M_bind_Some. destruct (Hm _ _ _ H1) as (e1 & L1 & S1). destruct (Hf _ _ _ _ H2) as (e2 & L2 & S2).
  exists (e1 ++ e2). split; [by rewrite L2, L1, app_assoc|]. unfold dlsyms. rewrite omap_app. by eapply lookups_trans.
Qed.

Lemma looks_up_ret {A} name t (a : A) tm : fn name (tm a) = fn name t -> looks_up name t (mret a) tm.
Proof. intros E w r w' [= <- <-]. exists []. split; [by rewrite app_nil_r|by constructor]. Qed.

Lemma looks_up_kcall {R} name t (c : kcall R) : (forall r, as_dlsym name (KEvent c r) = None) -> looks_up name t (kcall_ c) (fun _ => t).
Proof. intros Hc w r w' Hr%kcall_log. eexists. split; [exact Hr|]. unfold dlsyms. cbn -[as_dlsym]. rewrite Hc. by constructor. Qed.

(** A lookup with its call. *)
Lemma sym_looks_up {R B} name other t (c : kcall R) v (f : fn_table -> R -> M K B) tm :
  (forall r, as_dlsym name (KEvent c r) = None) ->
  (forall t r, looks_up name t (f t r) tm) ->
  looks_up name t (HSAKMT_LOOKUP_SYMS other t ≫= fun t => HSAKMT_EXEC_API other t c v ≫= f t) tm.
Proof.
  intros Hc Hf. eapply looks_up_bind; [apply LOOKUP_looks_up|]. intros t1.
  eapply looks_up_bind; [by apply EXEC_looks_up|]. intros r. apply Hf.
Qed.

Lemma query_host_looks_up name addr t : name ∈ signal_functions ->
  looks_up name t (hsakmt_hsa_ven_amd_loader_query_host_address addr t) snd.
Proof.
  intros Hname. unfold hsakmt_hsa_ven_amd_loader_query_host_address.
  assert (String.eqb "hsa_system_get_extension_table" name = false /\ "hsa_ven_amd_loader_query_host_address"%string <> name) as [Hne Hne'].
  { unfold signal_functions in Hname. rewrite !elem_of_cons in Hname. destruct Hname as [->|[->|[->|[]%elem_of_nil]]]; done. }
  eapply (looks_up_bind name t _ _ (fun o => default t o)).
  - destruct (_ =? 0); [|by apply looks_up_ret]. eapply (looks_up_bind name t _ _ (fun _ => t)).
    + apply looks_up_kcall. intros r. unfold as_dlsym. cbv beta iota. by rewrite Hne.
    + intros q. destruct (q =? 0); [by apply looks_up_ret|]. eapply (looks_up_bind name t _ _ (fun _ => t)); [by apply looks_up_kcall|].
      intros [q'|]; [|by intros w r w']. apply looks_up_ret. cbn. unfold fn. by rewrite lookup_insert_ne.
  - intros [t1|]; [|by apply looks_up_ret]. eapply (looks_up_bind name _ _ _ (fun _ => t1)); [by apply EXEC_looks_up|].
    intros r. by apply looks_up_ret.
Qed.

Lemma bridge_op_looks_up name op t : name ∈ signal_functions -> looks_up name t (do_bridge_op op t) id.
Proof.
  intros Hname. destruct op as [s|s v|s v|a]; cbn [do_bridge_op].
  1,2: eapply looks_up_bind; [by apply (sym_looks_up _ _ _ _ _ _ snd); [|intros; apply looks_up_ret]|]; intros r; by apply looks_up_ret.
  - apply sym_looks_up; [done|]. intros. by apply looks_up_ret.
  - eapply looks_up_bind; [by apply query_host_looks_up|]. intros r. by apply looks_up_ret.
Qed.

(** Every history of calls through the bridge looks a function of the signals up again
    and again until it is found, and then never more: the pointer in the table is the last
    answer of dlsym(3), those before it are null. *)
Theorem symbols_resolved_once name ops w t w' : name ∈ signal_functions ->
  do_bridge_ops ops ∅ w = Some (t, w') ->
  exists evs, w_log w' = w_log w ++ evs /\
    (dlsyms name evs = [] /\ fn name t = 0 \/
     exists l, dlsyms name evs = l ++ [fn name t] /\ Forall (fun q => q = 0) l).
Proof.
  intros Hname Hrun. assert (forall ops t, looks_up name t (do_bridge_ops ops t) id) as Hl.
  { clear -Hname. intros ops. induction ops as [|op ops IH]; intros t; [by apply looks_up_ret|].
    eapply looks_up_bind; [by apply bridge_op_looks_up|]. exact IH. }
  destruct (Hl _ _ _ _ _ Hrun) as (evs & Hlog & Hsyms). exists evs. split; [done|].
  destruct Hsyms as [E|l p _ Hz Hp]; [left; split; [done|exact E]|right]. exists l. by rewrite <- Hp.
Qed.

(** Without libhsa-runtime64 in the process every signal reads as 0, which is what the
    dependencies of a barrier packet wait for, and every wait ends at once with 0. *)
Lemma unresolved_signals_read_0 w signal compare : (forall s k, (kernel_step _ (sys_dlsym RTLD_DEFAULT s) k).1 = 0) ->
  exists t1 w1 t2 w2, hsakmt_hsa_signal_load_relaxed signal ∅ w = Some ((0, t1), w1) /\
    hsakmt_hsa_signal_wait_relaxed signal compare ∅ w = Some ((0, t2), w2).
Proof.
  intros Hnone. assert (forall s, exists w1, HSAKMT_LOOKUP_SYMS s ∅ w = Some (<[s := 0]> ∅, w1)) as Hl.
  { intros s. unfold HSAKMT_LOOKUP_SYMS. change (fn s ∅ =? 0) with true. unfold mbind, M_bind, kcall_, mret, M_ret. cbv iota.
    specialize (Hnone s (w_ker w)). destruct (kernel_step _ _ (w_ker w)) as [p k]. cbn in Hnone. subst p. by eexists. }
  unfold hsakmt_hsa_signal_load_relaxed, hsakmt_hsa_signal_wait_relaxed.
  destruct (Hl "hsa_signal_load_relaxed"%string) as [w1 H1]. destruct (Hl "hsa_signal_wait_relaxed"%string) as [w2 H2].
  do 4 eexists. split; erewrite M_bind_step by eassumption; reflexivity.
Qed.
End bridge.
