(* ===== verification/OsServices.v ===== *)
(** * OsServices: clocks, libraries, environment and processor (util/lnx/os_linux.cpp)

    The part of the operating system layer that asks Linux: the two clocks with the
    resolutions they keep, the functions and names of shared libraries, the search for tool
    libraries in the objects of the process, environment variables, the size of memory and
    what cpuid says. Doubles are those of IEEE 754, 64 bits wide (SpecFloat). *)

From Stdlib Require Import String Ascii SpecFloat DecimalPos DecimalN.
From stdpp Require Import relations.
From S2P Require Import Prelude.
From S2P Require Import CString.
From S2P Require Import World.
From S2P Require Import Runtime.
From S2P Require Import Sysfs.
#[local] Open Scope Z_scope.

(** ** Doubles *)

Definition double_of_Z (n : Z) : spec_float := binary_normalize 53 1024 n 0 false.
Definition double_0 : spec_float := S754_zero false.
Definition double_mul : spec_float -> spec_float -> spec_float := SFmul 53 1024.
Definition double_div : spec_float -> spec_float -> spec_float := SFdiv 53 1024.

(** The conversion of a double to [uint64_t]: towards 0, undefined out of its range. *)
Definition double_to_u64 (f : spec_float) : option Z :=
  match f with
  | S754_zero _ => Some 0
  | S754_finite sign m e =>
      let n := Z.shiftl (Z.pos m) e in
      if sign then if n =? 0 then Some 0 else None else if n <? 2 ^ 64 then Some n else None
  | _ => None
  end.

(** ** Clocks *)

(** [clock] ([CLOCK_MONOTONIC_RAW] or not) and [first] of [AccurateClockFrequency],
    [invPeriod] and [sys_clock_period_]. *)
Record os_clock := mkClock {
  clock_raw : bool;
  clock_first : bool;
  invPeriod : spec_float;
  sys_clock_period_ : Z;
}.
Definition os_clock_new : os_clock := mkClock false true double_0 0.

(** [std::stoi(s, &idx)]: the number and how many characters it takes. *)
Definition stoi_idx (s : string) : option (Z * nat) :=
  n ← stoi s;
  Some (n, String.length s - String.length (scan_digits 0 (scan_sign (skip_space s)).2).2)%nat.

(** The release of the kernel has a raw clock with a resolution; [stoi] and [substr] throw on
    others. *)
Definition release_has_raw (ver : string) : bool :=
  match stoi_idx ver with
  | Some (major, idx) =>
      if (idx + 1 <=? String.length ver)%nat then
        match stoi_idx (str_drop (idx + 1) ver) with
        | Some (minor, _) => (4 <=? major) && (4 <=? minor)
        | None => false
        end
      else false
  | None => false
  end.

Definition nanoseconds (t : Z * Z) : Z := u64 t.1 *64 1000000000 +64 u64 t.2.

Section services.
Context {K : Type} `{Kernel K}.
Implicit Types (w : World K) (c : os_clock).

Definition select_clock c : M K os_clock :=
  if clock_first c then
    release ← kcall_ sys_uname_release;
    let raw := match release with Some ver => release_has_raw ver | None => false end in
    mret (mkClock (raw || clock_raw c) false (invPeriod c) (sys_clock_period_ c))
  else mret c.

(** [abort] ends the process. *)
Definition AccurateClockFrequency c : M K (Z * os_clock) :=
  c ← select_clock c;
  o ← kcall_ (clock_getres_monotonic (clock_raw c));
  time ← mderef o;
  if negb (time.1 =? 0) || (0xFFFFFFFF <=? time.2) then abort
  else
    let inv := if SFeqb (invPeriod c) double_0 then double_div (double_of_Z 1) (double_of_Z time.2) else invPeriod c in
    massert (negb (u64 time.2 =? 0)) ;;
    mret (1000000000 / u64 time.2, mkClock (clock_raw c) (clock_first c) inv (sys_clock_period_ c)).

Definition ReadAccurateClock c : M K (Z * os_clock) :=
  c ← (if SFeqb (invPeriod c) double_0 then r ← AccurateClockFrequency c; mret r.2 else mret c);
  o ← kcall_ clock_monotonic_raw;
  time ← mderef o;
  n ← mderef (double_to_u64 (double_mul (double_of_Z (nanoseconds time)) (invPeriod c)));
  mret (n, c).

(** A division by 0 ends the process. *)
Definition ReadSystemClock c : M K Z :=
  ts ← kcall_ clock_boottime;
  let time := nanoseconds ts in
  if negb (sys_clock_period_ c =? 1) then
    massert (negb (sys_clock_period_ c =? 0)) ;; mret (time / sys_clock_period_ c)
  else mret time.

Definition SystemClockFrequency c : M K (Z * os_clock) :=
  ts ← kcall_ clock_getres_boottime;
  let period := nanoseconds ts in
  massert (negb (period =? 0)) ;;
  mret (1000000000 / period, mkClock (clock_raw c) (clock_first c) (invPeriod c) period).

(** ** Shared libraries *)

(** 0 is [NULL]. *)
Definition LoadLib (filename : string) : M K Z := kcall_ (sys_dlopen filename).

(** The function, if it is one of the library itself. *)
Definition GetExportAddress (lib : Z) (export_name : string) : M K Z :=
  ret ← kcall_ (sys_dlsym lib export_name);
  if ret =? 0 then mret ret
  else
    map ← kcall_ (sys_dlinfo_linkmap lib);
    match map with
    | None => mret 0
    | Some l_name =>
        info ← kcall_ (sys_dladdr ret);
        match info with
        | None => mret 0
        | Some dli_fname => if String.eqb dli_fname l_name then mret ret else mret 0
        end
    end.

Definition CloseLib (lib : Z) : M K unit := kcall_ (sys_dlclose lib) ;; mret tt.

Definition GetLibraryName (lib : Z) : M K string :=
  map ← kcall_ (sys_dlinfo_linkmap lib);
  mret (default EmptyString map).

Definition PT_DYNAMIC : Z := 2.
Definition DT_STRTAB : Z := 5.
Definition DT_STRSZ : Z := 10.
Definition tool_symbol : string := "HSA_AMD_TOOL_PRIORITY".

(** The last string table of a dynamic section and its size. *)
Definition string_table (dyn_section : list (Z * Z)) : Z * Z :=
  fold_left (fun '(strings, limit) '(d_tag, d_un) =>
    (if d_tag =? DT_STRTAB then d_un else strings, if d_tag =? DT_STRSZ then d_un else limit)) dyn_section (0, 0).

(** [while (strings < end)]: a string and the one behind it. *)
Fixpoint scan_strings (fuel : nat) (strings end_ : Z) : M K bool :=
  if strings <? end_ then
    match fuel with
    | O => abort
    | S fuel =>
        s ← kcall_ (read_c_string strings);
        if String.eqb s tool_symbol then mret true
        else scan_strings fuel (strings + (Z.of_nat (String.length s) + 1)) end_
    end
  else mret false.

(** The loop over the program headers: the symbol is in a string table of one. *)
Fixpoint scan_headers (headers : list program_header) : M K bool :=
  match headers with
  | [] => mret false
  | ph :: headers =>
      if p_type ph =? PT_DYNAMIC then
        let '(strings, limit) := string_table (p_dynamic ph) in
        found ← (if negb (strings =? 0) then scan_strings (Z.to_nat limit) strings (strings + limit) else mret false);
        if (found : bool) then mret true else scan_headers headers
      else scan_headers headers
  end.

Definition find_sub (sub s : string) : bool := bool_decide (is_Some (String.index 0 sub s)).

(** [callback] for a loaded object, with [loadedToolsLib]. *)
Definition callback (info : dl_phdr_info) (loadedToolsLib : list string) : M K (list string) :=
  if negb (String.eqb (dlpi_name info) EmptyString) then
    if find_sub "vdso.so" (dlpi_name info) then mret loadedToolsLib
    else
      found ← scan_headers (dlpi_phdr info);
      mret (if (found : bool) then loadedToolsLib ++ [dlpi_name info] else loadedToolsLib)
  else mret loadedToolsLib.

Fixpoint iterate_objects (objects : list dl_phdr_info) (names : list string) : M K (list string) :=
  match objects with
  | [] => mret names
  | info :: objects => names ← callback info names; iterate_objects objects names
  end.

Fixpoint load_names (names : list string) : M K (list Z) :=
  match names with
  | [] => mret []
  | name :: names => lib ← LoadLib name; l ← load_names names; mret (lib :: l)
  end.

Definition GetLoadedToolsLib : M K (list Z) :=
  objects ← kcall_ sys_dl_iterate_phdr;
  names ← iterate_objects objects [];
  load_names names.

(** ** Environment, memory, processor *)

Definition IsEnvVarSet (env_var_name : string) : M K bool :=
  buff ← kcall_ (sys_getenv env_var_name); mret (bool_decide (is_Some buff)).

Definition SetEnvVar (env_var_name env_var_value : string) : M K unit := kcall_ (sys_setenv env_var_name env_var_value).

Definition GetEnvVar (env_var_name : string) : M K string :=
  buff ← kcall_ (sys_getenv env_var_name); mret (default EmptyString buff).

Definition GetProcessId : M K Z := kcall_ sys_getpid.

Definition GetUserModeVirtualMemorySize : Z := 0x800000000000.
Definition GetUserModeVirtualMemoryBase : Z := 0.

Definition GetUsablePhysicalHostMemorySize : M K Z :=
  info ← kcall_ sys_sysinfo_units;
  match info with
  | None => mret 0
  | Some (totalram, mem_unit) => mret (Z.min GetUserModeVirtualMemorySize (totalram *64 mem_unit))
  end.

(** The four characters of a register, the lowest first. *)
Definition reg_chars (r : Z) : list ascii :=
  (fun i => ascii_of_nat (Z.to_nat (Z.land (Z.shiftr r (8 * i)) 0xFF))) <$> [0; 1; 2; 3].

(** Where cpuid writes the registers of the name, in an array of 13 characters of 0. *)
Definition vendor_id (ebx edx ecx : Z) : buffer := reg_chars ebx ++ reg_chars edx ++ reg_chars ecx ++ [NUL].

(** [cpuid_t], the name as an array of 13 characters. *)
Record cpuid_t := mkCpuid { ManufacturerID : buffer; mwaitx : bool }.
Definition cpuid_zero : cpuid_t := mkCpuid (repeat NUL 13) false.

Definition ParseCpuID : M K (bool * cpuid_t) :=
  max ← kcall_ (sys_cpuid_max 0x80000004);
  if max =? 0 then mret (false, cpuid_zero)
  else
    o ← kcall_ (sys_cpuid 0);
    match o with
    | None => mret (false, cpuid_zero)
    | Some (_, ebx, ecx, edx) =>
        let id := vendor_id ebx edx ecx in
        vendor ← mderef (c_string id);
        if String.eqb vendor "AuthenticAMD" then
          o ← kcall_ (sys_cpuid 0x80000001);
          let mwaitx := match o with Some (_, _, ecx, _) => Z.testbit ecx 29 | None => false end in
          mret (true, mkCpuid id mwaitx)
        else mret (true, mkCpuid id false)
    end.
End services.

(** ** The version of the kernel *)

(** The digits of a printed number read back to it. *)
Fixpoint uint_digits (acc : Z) (d : Decimal.uint) : Z :=
  match d with
  | Decimal.Nil => acc
  | Decimal.D0 d => uint_digits (10 * acc + 0) d | Decimal.D1 d => uint_digits (10 * acc + 1) d
  | Decimal.D2 d => uint_digits (10 * acc + 2) d | Decimal.D3 d => uint_digits (10 * acc + 3) d
  | Decimal.D4 d => uint_digits (10 * acc + 4) d | Decimal.D5 d => uint_digits (10 * acc + 5) d
  | Decimal.D6 d => uint_digits (10 * acc + 6) d | Decimal.D7 d => uint_digits (10 * acc + 7) d
  | Decimal.D8 d => uint_digits (10 * acc + 8) d | Decimal.D9 d => uint_digits (10 * acc + 9) d
  end.

Lemma scan_digits_uint d rest acc : starts_with_digit rest = false ->
  scan_digits acc (DecimalString.NilEmpty.string_of_uint d ++ rest) = (uint_digits acc d, rest).
Proof.
  intros Hrest. revert acc. induction d; intros acc; [|exact (IHd _)..].
  destruct rest as [|c r]; [done|]. change (is_digit c = false) in Hrest.
  change (scan_digits acc (String c r) = (acc, String c r)). cbn [scan_digits]. by rewrite Hrest.
Qed.

Lemma uint_digits_acc d p : uint_digits (Z.pos p) d = Z.pos (Pos.of_uint_acc d p).
Proof. revert p. induction d; intros p; cbn [uint_digits Pos.of_uint_acc]; rewrite <- ?IHd; f_equal; lia. Qed.

Lemma uint_digits_0 d : uint_digits 0 d = Z.of_N (Pos.of_uint d).
Proof. induction d; [done|exact IHd|..]; exact (uint_digits_acc _ _). Qed.

Lemma starts_with_uint d rest : d <> Decimal.Nil -> starts_with_digit (DecimalString.NilEmpty.string_of_uint d ++ rest) = true.
Proof. by destruct d. Qed.

(** Printed without leading zeros. *)
Definition decimal (n : N) : string := DecimalString.NilEmpty.string_of_uint (N.to_uint n).

Lemma scan_plain s : starts_with_digit s = true -> scan_sign (skip_space s) = (false, s).
Proof.
  destruct s as [|[[] [] [] [] [] [] [] []] s]; intros Hs; cbv in Hs; done.
Qed.

Lemma stoi_idx_decimal n rest : (n < 2 ^ 31)%N -> starts_with_digit rest = false ->
  stoi_idx (decimal n ++ rest) = Some (Z.of_N n, String.length (decimal n)).
Proof.
  intros Hn Hrest. assert (N.to_uint n <> Decimal.Nil) as Hd.
  { destruct n; [done|]. apply DecimalPos.Unsigned.to_uint_nonnil. }
  assert (scan_digits 0 (decimal n ++ rest) = (Z.of_N n, rest)) as Hscan.
  { unfold decimal. rewrite scan_digits_uint, uint_digits_0 by done.
    change (Pos.of_uint (N.to_uint n)) with (N.of_uint (N.to_uint n)). by rewrite DecimalN.Unsigned.of_to. }
  pose proof (starts_with_uint (N.to_uint n) rest Hd) as Hs. fold (decimal n) in Hs.
  unfold stoi_idx, stoi. rewrite (scan_plain _ Hs), Hs, Hscan. cbn [fst snd].
  rewrite (proj2 (Z.leb_le _ _)), (proj2 (Z.ltb_lt _ _)) by lia. cbn.
  rewrite Hscan. cbn. rewrite length_str_app. do 2 f_equal. lia.
Qed.

(** The raw clock is asked for its resolution with releases whose second number is at least
    4, whatever the first from 4 on: with 4.4 and 5.15, not with 5.0 or 6.1. *)
Theorem release_has_raw_iff major minor rest : (major < 2 ^ 31)%N -> (minor < 2 ^ 31)%N -> starts_with_digit rest = false ->
  release_has_raw (decimal major ++ "." ++ decimal minor ++ rest) = true <-> (4 <= major /\ 4 <= minor)%N.
Proof.
  intros Hmaj Hmin Hrest. unfold release_has_raw. rewrite (stoi_idx_decimal major ("." ++ decimal minor ++ rest)%string) by done.
  rewrite (proj2 (Nat.leb_le _ _)) by (rewrite !length_str_app; cbn [String.length]; lia).
  assert (str_drop (String.length (decimal major) + 1) (decimal major ++ "." ++ decimal minor ++ rest) = decimal minor ++ rest)%string as ->.
  { generalize (decimal minor ++ rest)%string as u. induction (decimal major); [done|exact IHs]. }
  rewrite (stoi_idx_decimal minor rest) by done. rewrite andb_true_iff, !Z.leb_le. lia.
Qed.

Lemma release_6_1_not_raw : release_has_raw "6.1.0-generic" = false /\ release_has_raw "4.4.0" = true.
Proof. split; vm_compute; reflexivity. Qed.

(** ** The clocks *)

Section clocks.
Context {K : Type} `{Kernel K}.
Implicit Types (w : World K) (c : os_clock).

(** The system clock divides by 0 until its frequency has been asked for; from then on it
    counts the periods of the resolution that the frequency was computed from. *)
Theorem system_clock_needs_frequency c w :
  ReadSystemClock os_clock_new w = None /\
  forall f c' w1, SystemClockFrequency c w = Some (f, c', w1) ->
    0 < sys_clock_period_ c' /\ f = 1000000000 / sys_clock_period_ c' /\
    forall w2, exists ts k, ReadSystemClock c' w2 =
      Some (nanoseconds ts / sys_clock_period_ c', log_call k (KEvent clock_boottime ts) w2).
Proof.
  split.
  - unfold ReadSystemClock, mbind, M_bind, kcall_. by destruct (kernel_step _ clock_boottime _).
  - intros f c' w1 (ts & w2 & _ & Hr)%M_bind_Some. pose proof (wrap_range 64 (u64 ts.1 *64 1000000000 + u64 ts.2) ltac:(done)) as Hb.
    apply M_bind_Some in Hr as ([] & w3 & Hm & [= <- <- <-]). cbn [sys_clock_period_].
    unfold massert in Hm. destruct (Z.eqb_spec (nanoseconds ts) 0) as [|Hne]; [done|].
    assert (0 < nanoseconds ts) as Hpos by (unfold nanoseconds, add64 in *; lia). split_and!; [done..|].
    intros w4. unfold ReadSystemClock, mbind, M_bind, kcall_. cbn [sys_clock_period_].
    destruct (kernel_step _ clock_boottime _) as [t k] eqn:E. exists t, k.
    destruct (Z.eqb_spec (nanoseconds ts) 1) as [->|]; cbn; [by rewrite Z.div_1_r|].
    by rewrite (proj2 (Z.eqb_neq _ 0) Hne).
Qed.

(** The accurate clock counts in doubles: after 2^53 nanoseconds, 104 days, it has no odd
    values any more. *)
Lemma accurate_clock_rounds :
  double_to_u64 (double_mul (double_of_Z (2 ^ 53 + 1)) (double_div (double_of_Z 1) (double_of_Z 1))) = Some (2 ^ 53) /\
  double_to_u64 (double_mul (double_of_Z (2 ^ 53 - 1)) (double_div (double_of_Z 1) (double_of_Z 1))) = Some (2 ^ 53 - 1).
Proof. split; vm_compute; reflexivity. Qed.
End clocks.

(** ** Libraries *)

Section libraries.
Context {K : Type} `{Kernel K}.
Implicit Types (w : World K).

(** A function that is found is the one of the library itself. *)
Theorem GetExportAddress_own lib name w r w' : GetExportAddress lib name w = Some (r, w') -> r <> 0 ->
  exists path, w_log w' = w_log w ++ [KEvent (sys_dlsym lib name) r; KEvent (sys_dlinfo_linkmap lib) (Some path);
    KEvent (sys_dladdr r) (Some path)].
Proof.
  intros Hr Hne. unfold GetExportAddress, mbind, M_bind, kcall_ in Hr.
  destruct (kernel_step _ (sys_dlsym lib name) _) as [p k1]. cbn -[Z.eqb] in Hr.
  destruct (Z.eqb_spec p 0); [by injection Hr as <- _|]. destruct (kernel_step _ (sys_dlinfo_linkmap lib) _) as [[l|] k2]; cbn in Hr.
  2:{ by injection Hr as <- _. }
  destruct (kernel_step _ (sys_dladdr p) _) as [[d|] k3]; cbn in Hr; [|by injection Hr as <- _].
  destruct (String.eqb_spec d l) as [->|]; [|by injection Hr as <- _]. injection Hr as <- <-.
  exists l. cbn. by rewrite <- !app_assoc.
Qed.

(** What was opened, with the handles. *)
Definition as_dlopen (e : kevent) : option (string * Z) :=
  match e with
  | KEvent c r =>
      match c in kcall R return R -> option (string * Z) with
      | sys_dlopen name => fun h => Some (name, h)
      | _ => fun _ => None
      end r
  end.
Definition dlopens (l : list kevent) : list (string * Z) := omap as_dlopen l.

(** The run opens these libraries and no others. *)
Definition opens {A} (m : M K A) (good : A -> list (string * Z) -> Prop) : Prop :=
  forall w, exists x w' evs, m w = Some (x, w') /\ w_log w' = w_log w ++ evs /\ good x (dlopens evs).

Lemma opens_ret {A} (x : A) : opens (mret x) (fun y l => y = x /\ l = []).
Proof. intros w. exists x, w, []. by rewrite app_nil_r. Qed.

Lemma opens_bind {A B} (m : M K A) (f : A -> M K B) P Q (R : B -> list (string * Z) -> Prop) :
  opens m P -> (forall x, opens (f x) (Q x)) -> (forall x y l1 l2, P x l1 -> Q x y l2 -> R y (l1 ++ l2)) -> opens (m ≫= f) R.
Proof.
  intros Hm Hf HR w. destruct (Hm w) as (x & w1 & e1 & H1 & Hl1 & Hx), (Hf x w1) as (y & w2 & e2 & H2 & Hl2 & Hy).
  exists y, w2, (e1 ++ e2). rewrite (M_bind_step _ _ _ _ _ _ _ _ H1), Hl2, Hl1, app_assoc. split_and!; [done..|].
  unfold dlopens. rewrite omap_app. by apply (HR x).
Qed.

Lemma opens_weaken {A} (m : M K A) (P Q : A -> list (string * Z) -> Prop) : opens m P -> (forall x l, P x l -> Q x l) -> opens m Q.
Proof. intros Hm HPQ w. destruct (Hm w) as (x & w' & evs & ? & ? & ?). exists x, w', evs. eauto. Qed.

Lemma opens_kcall {R} (c : kcall R) : opens (kcall_ c) (fun r l => l = dlopens [KEvent c r]).
Proof. intros w. unfold kcall_. destruct (kernel_step R c (w_ker w)) as [r k]. by exists r, (log_call k (KEvent c r) w), [KEvent c r]. Qed.

Lemma opens_LoadLib name : opens (LoadLib name) (fun h l => l = [(name, h)]).
Proof. apply opens_kcall. Qed.

Lemma load_names_opens names : opens (load_names names) (fun handles l => l = zip names handles /\ length handles = length names).
Proof.
  induction names as [|name names IH]; cbn.
  - eapply opens_weaken; [apply opens_ret|]. by intros ? ? [-> ->].
  - eapply opens_bind; [apply opens_LoadLib|intros lib|].
    + eapply opens_bind; [exact IH|intros l; apply opens_ret|].
      intros l hs l1 l2 [-> Hl] [-> ->]. rewrite app_nil_r. instantiate (1 := fun lib hs l => exists hs', hs = lib :: hs' /\ l = zip names hs' /\ length hs' = length names).
      by exists l.
    + cbn. intros lib hs ? ? -> (hs' & -> & -> & Hl). cbn. by rewrite Hl.
Qed.
End libraries.

(** Memory whose strings stay as they are while they are read. *)
Class StableStrings (K : Type) `{Kernel K} (mem : Z -> string) : Prop :=
  stable_string : forall addr k, (kernel_step _ (read_c_string addr) k).1 = mem addr.

Section tools.
Context {K : Type} `{Kernel K} (mem : Z -> string) {Hmem : StableStrings K mem}.
Implicit Types (w : World K).

(** The addresses of a string and of the one behind it. *)
Definition next_string (p q : Z) : Prop := q = p + (Z.of_nat (String.length (mem p)) + 1).

(** The symbol is one of the strings of the table. *)
Fixpoint table_has (fuel : nat) (p e : Z) : bool :=
  (p <? e) && match fuel with
              | O => false
              | S fuel => String.eqb (mem p) tool_symbol || table_has fuel (p + (Z.of_nat (String.length (mem p)) + 1)) e
              end.

Lemma table_has_iff fuel p e : e - p <= Z.of_nat fuel ->
  table_has fuel p e = true <-> exists q, rtc next_string p q /\ q < e /\ mem q = tool_symbol.
Proof.
  revert p. induction fuel as [|fuel IH]; intros p He; cbn [table_has]; rewrite andb_true_iff, Z.ltb_lt.
  - split; [lia|]. intros (q & Hq & ? & _). assert (p <= q); [|lia].
    clear -Hq. induction Hq as [|x y z Hxy _ IH]; [done|]. unfold next_string in Hxy. lia.
  - rewrite orb_true_iff, String.eqb_eq, IH by lia. split.
    + intros [Hp [Hm|(q & Hq & Hlt & Hm)]]; [by exists p|]. exists q. split_and!; [|done..]. by eapply rtc_l.
    + intros (q & Hq & Hlt & Hm). destruct Hq as [|p p' q Hpp Hq]; [by auto|]. unfold next_string in Hpp. subst p'.
      split; [|right; by exists q]. assert (p + (Z.of_nat (String.length (mem p)) + 1) <= q); [|lia].
      clear -Hq. induction Hq as [|x y z Hxy _ IH]; [done|]. unfold next_string in Hxy. lia.
Qed.

Definition header_has (ph : program_header) : bool :=
  (p_type ph =? PT_DYNAMIC) &&
  let '(strings, limit) := string_table (p_dynamic ph) in
  negb (strings =? 0) && table_has (Z.to_nat limit) strings (strings + limit).

Definition tool_object (info : dl_phdr_info) : bool :=
  negb (String.eqb (dlpi_name info) EmptyString) && negb (find_sub "vdso.so" (dlpi_name info)) && existsb header_has (dlpi_phdr info).

Lemma opens_read p : opens (kcall_ (read_c_string p)) (fun s l => s = mem p /\ l = []).
Proof using Hmem.
  intros w. unfold kcall_. pose proof (stable_string p (w_ker w)) as Hs.
  destruct (kernel_step _ (read_c_string p) (w_ker w)) as [s k]. cbn in Hs. subst s. by do 2 eexists; exists [KEvent (read_c_string p) (mem p)].
Qed.

Lemma scan_strings_opens fuel p e : e - p <= Z.of_nat fuel -> opens (scan_strings fuel p e) (fun b l => b = table_has fuel p e /\ l = []).
Proof using Hmem.
  revert p. induction fuel as [|fuel IH]; intros p He; cbn [scan_strings table_has]; destruct (Z.ltb_spec p e); try apply opens_ret; [lia|].
  apply (opens_bind _ _ (fun s l => s = mem p /\ l = [])
    (fun s b l => e - (p + (Z.of_nat (String.length s) + 1)) <= Z.of_nat fuel ->
      b = String.eqb s tool_symbol || table_has fuel (p + (Z.of_nat (String.length s) + 1)) e /\ l = [])).
  - apply opens_read.
  - intros s. destruct (String.eqb s tool_symbol).
    + eapply opens_weaken; [apply opens_ret|]. by intros ? ? [-> ->] _.
    + eapply opens_weaken; [apply IH; lia|]. by intros ? ? [-> ->] _.
  - cbn. intros s b l1 l2 [-> ->] Hb. apply Hb. lia.
Qed.

Lemma scan_headers_opens headers : opens (scan_headers headers) (fun b l => b = existsb header_has headers /\ l = []).
Proof using Hmem.
  induction headers as [|ph headers IH]; [apply opens_ret|]. cbn [scan_headers existsb]. unfold header_has at 1.
  destruct (p_type ph =? PT_DYNAMIC); [|exact IH]. destruct (string_table (p_dynamic ph)) as [strings limit].
  eapply (opens_bind _ _ (fun b l => b = negb (strings =? 0) && table_has (Z.to_nat limit) strings (strings + limit) /\ l = [])).
  - destruct (strings =? 0); [apply opens_ret|]. apply scan_strings_opens. lia.
  - intros found. instantiate (1 := fun found b l => b = found || existsb header_has headers /\ l = []). by destruct found; [apply opens_ret|].
  - cbn. by intros ? ? ? ? [-> ->] [-> ->].
Qed.

Lemma iterate_objects_opens objects names :
  opens (iterate_objects objects names) (fun r l => r = names ++ (dlpi_name <$> filter tool_object objects) /\ l = []).
Proof using Hmem.
  revert names. induction objects as [|info objects IH]; intros names; cbn [iterate_objects].
  - eapply opens_weaken; [apply opens_ret|]. intros ? ? [-> ->]. by rewrite app_nil_r.
  - eapply (opens_bind _ _ (fun r l => r = (if tool_object info then names ++ [dlpi_name info] else names) /\ l = [])); [|exact IH|].
    + unfold callback, tool_object. destruct (String.eqb _ _); [apply opens_ret|]. cbn [negb andb].
      destruct (find_sub _ _); [apply opens_ret|]. cbn [negb andb].
      eapply opens_bind; [apply scan_headers_opens|intros b; apply opens_ret|]. by intros b ? ? ? [-> ->] [-> ->].
    + cbn. intros ? ? ? ? [-> ->] [-> ->]. split; [|done].
      destruct (tool_object info); cbn; [by rewrite <- app_assoc|done].
Qed.

(** The libraries opened are the tools among the objects of the process, in their order:
    those with the symbol in the string table of a dynamic section. *)
Theorem GetLoadedToolsLib_opens w : exists objects handles w' evs,
  GetLoadedToolsLib w = Some (handles, w') /\ w_log w' = w_log w ++ KEvent sys_dl_iterate_phdr objects :: evs /\
  dlopens evs = zip (dlpi_name <$> filter tool_object objects) handles /\
  length handles = length (filter tool_object objects).
Proof using Hmem.
  unfold GetLoadedToolsLib, kcall_. unfold mbind at 1, M_bind at 1.
  destruct (kernel_step _ sys_dl_iterate_phdr (w_ker w)) as [objects k]. set (w1 := log_call _ _ _).
  assert (opens (iterate_objects objects [] ≫= load_names) (fun handles l =>
    l = zip (dlpi_name <$> filter tool_object objects) handles /\ length handles = length (filter tool_object objects))) as Ho.
  { eapply opens_bind; [apply iterate_objects_opens|apply load_names_opens|].
    cbn. intros ? ? ? ? [-> ->] [-> Hl]. by rewrite length_fmap in Hl. }
  destruct (Ho w1) as (handles & w' & evs & Hr & Hl & Hopens & Hlen).
  exists objects, handles, w', evs. rewrite Hl. cbn. rewrite <- app_assoc. by split_and!.
Qed.
End tools.

(** ** cpuid *)

Lemma byte_inj x y : ascii_of_nat (Z.to_nat (Z.land x 0xFF)) = ascii_of_nat (Z.to_nat (Z.land y 0xFF)) -> x mod 256 = y mod 256.
Proof.
  change 0xFF with (Z.ones 8). rewrite !Z.land_ones by done. change (2 ^ 8) with 256. intros E%(f_equal nat_of_ascii).
  pose proof (Z.mod_pos_bound x 256). pose proof (Z.mod_pos_bound y 256). rewrite !nat_ascii_embedding in E by lia. lia.
Qed.

Lemma reg_chars_inj r r' : 0 <= r < 2 ^ 32 -> 0 <= r' < 2 ^ 32 -> reg_chars r = reg_chars r' -> r = r'.
Proof.
  intros Hr Hr' E. unfold reg_chars in E. cbn -[ascii_of_nat Z.land Z.shiftr] in E.
  injection E as E0%byte_inj E1%byte_inj E2%byte_inj E3%byte_inj. rewrite !Z.shiftr_div_pow2 in * by lia.
  cbn -[Z.div Z.modulo] in *. Z.div_mod_to_equations. lia.
Qed.

Lemma c_string_Some b s : c_string b = Some s -> exists rest, b = chars s ++ NUL :: rest.
Proof.
  revert s. induction b as [|c b IH]; intros s; cbn; [done|]. destruct (Ascii.eqb_spec c NUL) as [->|].
  - intros [= <-]. by exists b.
  - intros (t & Ht & ->)%fmap_Some. destruct (IH t Ht) as [rest ->]. by exists rest.
Qed.

Lemma c_string_terminated l : is_Some (c_string (l ++ [NUL])).
Proof. induction l as [|c l IH]; cbn; [by eexists|]. destruct (Ascii.eqb c NUL); [by eexists|]. by apply fmap_is_Some. Qed.

(** The vendor's name is recognised in exactly the registers that spell it. *)
Lemma vendor_id_amd ebx edx ecx : 0 <= ebx < 2 ^ 32 -> 0 <= edx < 2 ^ 32 -> 0 <= ecx < 2 ^ 32 ->
  c_string (vendor_id ebx edx ecx) = Some "AuthenticAMD"%string <-> ebx = 0x68747541 /\ edx = 0x69746E65 /\ ecx = 0x444D4163.
Proof.
  intros Hb Hd Hc. split; [|intros (-> & -> & ->); vm_compute; reflexivity].
  intros [rest E]%c_string_Some. unfold vendor_id in E.
  change (chars "AuthenticAMD") with (reg_chars 0x68747541 ++ reg_chars 0x69746E65 ++ reg_chars 0x444D4163) in E.
  rewrite <- !app_assoc in E. apply app_inj_1 in E as [E1 E]; [|done]. apply app_inj_1 in E as [E2 E]; [|done].
  apply app_inj_1 in E as [E3 _]; [|done]. split_and!; by apply reg_chars_inj.
Qed.

(** mwaitx is reported on AMD's processors only, when the extended leaf says so, and the name is
    terminated whatever the processor answers. *)
Theorem ParseCpuID_outcome {K} `{Kernel K} w : exists ok id w', ParseCpuID (K := K) w = Some ((ok, id), w') /\
  length (ManufacturerID id) = 13%nat /\ is_Some (c_string (ManufacturerID id)) /\
  (mwaitx id = true -> ok = true /\ c_string (ManufacturerID id) = Some "AuthenticAMD"%string /\
     exists max eax ebx ecx edx regs, ManufacturerID id = vendor_id ebx edx ecx /\ Z.testbit regs.1.2 29 = true /\
       w_log w' = w_log w ++ [KEvent (sys_cpuid_max 0x80000004) max; KEvent (sys_cpuid 0) (Some (eax, ebx, ecx, edx));
         KEvent (sys_cpuid 0x80000001) (Some regs)]).
Proof.
  unfold ParseCpuID, mbind, M_bind, kcall_. destruct (kernel_step _ (sys_cpuid_max _) _) as [max k1].
  destruct (max =? 0); [by do 3 eexists; split_and!; [reflexivity|done..]|]. cbn -[vendor_id Z.testbit].
  destruct (kernel_step _ (sys_cpuid 0) _) as [[[[[eax ebx] ecx] edx]|] k2]; [|by do 3 eexists; split_and!; [reflexivity|done..]].
  assert (is_Some (c_string (vendor_id ebx edx ecx))) as [vendor Hv].
  { unfold vendor_id. rewrite !app_assoc. apply c_string_terminated. }
  assert (is_Some (c_string (vendor_id ebx edx ecx))) as Hs by (rewrite Hv; by eexists).
  rewrite Hv. cbn -[vendor_id Z.testbit]. destruct (String.eqb_spec vendor "AuthenticAMD") as [->|].
  2:{ do 3 eexists. split_and!; [reflexivity|done|exact Hs|done]. }
  cbn -[vendor_id Z.testbit]. destruct (kernel_step _ (sys_cpuid 0x80000001) _) as [o k3].
  do 3 eexists. split_and!; [reflexivity|done|exact Hs|]. cbn -[vendor_id Z.testbit].
  destruct o as [[[[a b] c] d]|]; [|done]. intros Hbit. split_and!; [done..|].
  exists max, eax, ebx, ecx, edx, (a, b, c, d). split_and!; [done..|]. by rewrite <- !app_assoc.
Qed.
