(* ===== verification/Entry.v ===== *)
(** * Entry: the other entry points of the library

    The functions of the interface that the library answers without doing anything:
    events, debugging, performance counters, SPM, PC sampling, SVM attributes, AIS and
    what memory.cpp and libdrm.cpp leave out; and the two that do something, the clock
    counters (src/time.cpp) and the negotiation of structure sizes (src/version.cpp)
    with the layouts it chooses. *)

From S2P Require Import Prelude.
From S2P Require Import StdMap.
From S2P Require Import BitField.
From S2P Require Import Status.
From S2P Require Import World.
From S2P Require Import Runtime.
From S2P Require Import Device.
From S2P Require Import Memory.
From S2P Require Import Platform.
From S2P Require Import Topology.
From S2P Require Import Demo.
#[local] Open Scope Z_scope.

Section entry.
Context {K : Type} `{Kernel K}.

(** ** Entry points without a function behind them *)

(** [CHECK_DXG_OPEN(); return HSAKMT_STATUS_NOT_SUPPORTED;] *)
Definition not_supported : M K HSAKMT_STATUS := CHECK_DXG_OPEN id (mret HSAKMT_STATUS_NOT_SUPPORTED).

(** [CHECK_DXG_OPEN(); assert(false); ...] *)
Definition asserts_false : M K HSAKMT_STATUS := CHECK_DXG_OPEN id abort.

(** debug.cpp *)
Definition hsaKmtDbgRegister : M K HSAKMT_STATUS := not_supported.
Definition hsaKmtDbgUnregister : M K HSAKMT_STATUS := not_supported.
Definition hsaKmtDbgWavefrontControl : M K HSAKMT_STATUS := not_supported.
Definition hsaKmtDbgAddressWatch : M K HSAKMT_STATUS := not_supported.
Definition hsaKmtCheckRuntimeDebugSupport : M K HSAKMT_STATUS := not_supported.
Definition hsaKmtDbgEnable : M K HSAKMT_STATUS := not_supported.
Definition hsaKmtDbgDisable : M K HSAKMT_STATUS := not_supported.
Definition hsaKmtDbgGetDeviceData : M K HSAKMT_STATUS := not_supported.
Definition hsaKmtDbgGetQueueData : M K HSAKMT_STATUS := not_supported.
Definition hsaKmtDebugTrapIoctl : M K HSAKMT_STATUS := not_supported.

Definition hsaKmtRuntimeEnable : M K HSAKMT_STATUS :=
  result ← hsaKmtCheckRuntimeDebugSupport;
  if negb (bool_decide (result = HSAKMT_STATUS_SUCCESS)) then mret result else abort.

Definition hsaKmtRuntimeDisable : M K HSAKMT_STATUS :=
  result ← hsaKmtCheckRuntimeDebugSupport;
  if negb (bool_decide (result = HSAKMT_STATUS_SUCCESS)) then mret HSAKMT_STATUS_SUCCESS else abort.

Definition runtime_capabilities_mask : Z := 0.

Definition hsaKmtGetRuntimeCapabilities (caps_mask : Z) : M K (HSAKMT_STATUS * Z) :=
  CHECK_DXG_OPEN (fun s => (s, caps_mask)) (mret (HSAKMT_STATUS_SUCCESS, runtime_capabilities_mask)).

(** spm.cpp *)
Definition hsaKmtSPMAcquire : M K HSAKMT_STATUS := not_supported.
Definition hsaKmtSPMSetDestBuffer : M K HSAKMT_STATUS := not_supported.
Definition hsaKmtSPMRelease : M K HSAKMT_STATUS := not_supported.

(** perfctr.cpp *)
Definition hsaKmtPmcGetCounterProperties : M K HSAKMT_STATUS := not_supported.
Definition hsaKmtPmcRegisterTrace : M K HSAKMT_STATUS := not_supported.
Definition hsaKmtPmcUnregisterTrace : M K HSAKMT_STATUS := not_supported.
Definition hsaKmtPmcAcquireTraceAccess : M K HSAKMT_STATUS := not_supported.
Definition hsaKmtPmcReleaseTraceAccess : M K HSAKMT_STATUS := not_supported.
Definition hsaKmtPmcStartTrace : M K HSAKMT_STATUS := not_supported.
Definition hsaKmtPmcQueryTrace : M K HSAKMT_STATUS := not_supported.
Definition hsaKmtPmcStopTrace : M K HSAKMT_STATUS := not_supported.

(** pc_sampling.cpp *)
Definition hsaKmtPcSamplingSupport : M K HSAKMT_STATUS := not_supported.
Definition hsaKmtPcSamplingQueryCapabilities : M K HSAKMT_STATUS := not_supported.
Definition hsaKmtPcSamplingCreate : M K HSAKMT_STATUS := not_supported.
Definition hsaKmtPcSamplingDestroy : M K HSAKMT_STATUS := not_supported.
Definition hsaKmtPcSamplingStart : M K HSAKMT_STATUS := not_supported.
Definition hsaKmtPcSamplingStop : M K HSAKMT_STATUS := not_supported.

(** ais.cpp *)
Definition hsaKmtAisReadWriteFile : M K HSAKMT_STATUS := not_supported.

(** svm.cpp *)
Definition hsaKmtSVMSetAttr : M K HSAKMT_STATUS := not_supported.
Definition hsaKmtSVMGetAttr : M K HSAKMT_STATUS := not_supported.
Definition hsaKmtSetXNACKMode : M K HSAKMT_STATUS := not_supported.
Definition hsaKmtGetXNACKMode (enable : Z) : M K (HSAKMT_STATUS * Z) :=
  CHECK_DXG_OPEN (fun s => (s, enable)) (mret (HSAKMT_STATUS_SUCCESS, 0)).

(** hsakmtmodel.cpp: the library need not be open. *)
Definition hsaKmtModelEnabled (enable : bool) : M K (HSAKMT_STATUS * bool) := mret (HSAKMT_STATUS_SUCCESS, false).

(** memory.cpp *)
Definition hsaKmtSetMemoryPolicy : M K HSAKMT_STATUS := asserts_false.
Definition hsaKmtRegisterMemory : M K HSAKMT_STATUS := asserts_false.
Definition hsaKmtRegisterMemoryToNodes : M K HSAKMT_STATUS := asserts_false.
Definition hsaKmtShareMemory : M K HSAKMT_STATUS := asserts_false.
Definition hsaKmtRegisterSharedHandle : M K HSAKMT_STATUS := asserts_false.
Definition hsaKmtRegisterSharedHandleToNodes : M K HSAKMT_STATUS := asserts_false.
Definition hsaKmtProcessVMRead : M K HSAKMT_STATUS := asserts_false.
Definition hsaKmtProcessVMWrite : M K HSAKMT_STATUS := asserts_false.
Definition hsaKmtUnmapGraphicHandle : M K HSAKMT_STATUS := asserts_false.
Definition hsaKmtGetTileConfig : M K HSAKMT_STATUS := asserts_false.
Definition hsaKmtReplaceAsanHeaderPage : M K HSAKMT_STATUS := asserts_false.
Definition hsaKmtReturnAsanHeaderPage : M K HSAKMT_STATUS := asserts_false.
Definition hsaKmtGetMemoryHandle : M K HSAKMT_STATUS := not_supported.
Definition hsaKmtMapGraphicHandle : M K HSAKMT_STATUS := CHECK_DXG_OPEN id (mret HSAKMT_STATUS_NOT_IMPLEMENTED).

(** libdrm.cpp: the result and what is stored through the pointer argument. *)
Definition amdgpu_device_initialize : M K Z := mret 0.
Definition amdgpu_device_deinitialize : M K Z := mret 0.
Definition amdgpu_bo_query_info : M K Z := mret 0.
Definition amdgpu_bo_set_metadata : M K Z := mret 0.
Definition drmCommandWriteRead : M K Z := mret 0.
Definition amdgpu_bo_export : M K (Z * Z) := mret (0, 0).
Definition amdgpu_query_gpu_info (dev : nat) : M K (Z * Z) :=
  d ← get_dev dev; mret (0, sd_GpuCounterFrequency (shared_dev_ d) / 1000).

(** ** Events (events.cpp)

    There are none: an event that is not null fails an assertion. *)

Definition hsaKmtCreateEvent : M K HSAKMT_STATUS := asserts_false.
Definition hsaKmtOpenSMI : M K HSAKMT_STATUS := asserts_false.
Definition hsaKmtDestroyEvent (Event : Z) : M K HSAKMT_STATUS :=
  CHECK_DXG_OPEN id (if Event =? 0 then mret HSAKMT_STATUS_SUCCESS else abort).
Definition hsaKmtSetEvent (Event : Z) : M K HSAKMT_STATUS :=
  CHECK_DXG_OPEN id (if Event =? 0 then mret HSAKMT_STATUS_INVALID_HANDLE else abort).
Definition hsaKmtResetEvent (Event : Z) : M K HSAKMT_STATUS :=
  CHECK_DXG_OPEN id (if Event =? 0 then mret HSAKMT_STATUS_INVALID_HANDLE else abort).
Definition hsaKmtQueryEventState (Event : Z) : M K HSAKMT_STATUS :=
  CHECK_DXG_OPEN id (if Event =? 0 then mret HSAKMT_STATUS_INVALID_HANDLE else abort).

(** [Events] is the array, [None] the null pointer; what it holds past its end is
    undefined. One null event is how the runtime waits a little. *)
Definition hsaKmtWaitOnMultipleEvents_Ext (Events : option (list Z)) (NumEvents : Z) : M K HSAKMT_STATUS :=
  CHECK_DXG_OPEN id
  (match Events with
   | None => mret HSAKMT_STATUS_INVALID_HANDLE
   | Some l =>
       if NumEvents =? 1 then
         e ← mderef (head l);
         if e =? 0 then kcall_ (sleep_us 20) ;; mret HSAKMT_STATUS_SUCCESS else abort
       else abort
   end).
Definition hsaKmtWaitOnMultipleEvents (Events : option (list Z)) (NumEvents : Z) : M K HSAKMT_STATUS :=
  hsaKmtWaitOnMultipleEvents_Ext Events NumEvents.
Definition hsaKmtWaitOnEvent_Ext (Event : Z) : M K HSAKMT_STATUS :=
  if Event =? 0 then mret HSAKMT_STATUS_INVALID_HANDLE else hsaKmtWaitOnMultipleEvents_Ext (Some [Event]) 1.
Definition hsaKmtWaitOnEvent (Event : Z) : M K HSAKMT_STATUS := hsaKmtWaitOnEvent_Ext Event.

(** ** Clocks (time.cpp) *)

Record HsaClockCounters := mkClockCounters {
  GPUClockCounter : Z;
  CPUClockCounter : Z;
  SystemClockCounter : Z;
  SystemClockFrequencyHz : Z;
}.

(** The integer [n >= 0] rounded to the 53 bits of a [double], halves to even. *)
Definition double_round (n : Z) : Z :=
  if n <? 2 ^ 53 then n
  else
    let u := 2 ^ (Z.log2 n - 52) in
    let q := n / u in
    let up := (u / 2 <? n mod u) || ((n mod u =? u / 2) && Z.odd q) in
    (if up then q + 1 else q) * u.

(** [ts.tv_sec * 1e9 + ts.tv_nsec], computed in [double]. *)
Definition system_clock (sec nsec : Z) : Z := u64 (double_round (double_round (sec * 10 ^ 9) + nsec)).

Definition hsaKmtGetClockCounters (NodeId : Z) (Counters : HsaClockCounters) : M K (HSAKMT_STATUS * HsaClockCounters) :=
  CHECK_DXG_OPEN (fun s => (s, Counters))
  (o ← get_wddmdev NodeId;
   i ← mderef o;
   '(gpu, cpu) ← GetClockCounters i 0 0;
   ts ← kcall_ clock_monotonic_raw;
   mret (HSAKMT_STATUS_SUCCESS, mkClockCounters gpu cpu
     (match ts with Some (sec, nsec) => system_clock sec nsec | None => 0 end) 1000000000)).

(** ** Versions and layouts (version.cpp, memory.cpp) *)

Definition hsaKmtGetVersion (VersionInfo : Z * Z) : M K (HSAKMT_STATUS * (Z * Z)) :=
  CHECK_DXG_OPEN (fun s => (s, VersionInfo)) (mret (HSAKMT_STATUS_SUCCESS, (1, 17))).

Record HsaStructureSizes := mkStructureSizes {
  StructureSizes : Z;
  SizeOfHsaNodeProperties : Z;
  SizeOfHsaExternalHandleDesc : Z;
}.

(** [detected_abi_] as the library starts. *)
Definition detected_abi_start : HsaStructureSizes := mkStructureSizes 0 0 0.

(** The status and [detected_abi_]; the structure has 16 bytes. *)
Definition DxgAbiCheck (actual : option HsaStructureSizes) (detected_abi : HsaStructureSizes) : HSAKMT_STATUS * HsaStructureSizes :=
  match actual with
  | None => (HSAKMT_STATUS_INVALID_PARAMETER, detected_abi)
  | Some a =>
      if negb (StructureSizes a =? 16) then (HSAKMT_STATUS_INVALID_PARAMETER, detected_abi)
      else (HSAKMT_STATUS_SUCCESS, a)
  end.

(** The device, the descriptor and the type in the 32-bit words of an import descriptor:
    in the 32 bytes of the current layout, whose file descriptor has 64 bits of which the
    cast to [HSAint32] keeps the low half, or in the legacy one. *)
Definition handle_desc (desc_size : Z) (words : list Z) : option (Z * Z * Z) :=
  lo ← words !! 0%nat; hi ← words !! 1%nat;
  fd ← words !! 2%nat;
  type ← words !! (if desc_size =? 32 then 4%nat else 3%nat);
  Some (lo + 2 ^ 32 * hi, s32 fd, type).

(** [hsaKmtHandleImport] on a descriptor in memory. *)
Definition hsaKmtHandleImport_desc (detected_abi : HsaStructureSizes) (import_desc : list Z) : M K (HSAKMT_STATUS * (Z * Z)) :=
  CHECK_DXG_OPEN (fun s => (s, (0, 0)))
  ('(dev, fd, type) ← mderef (handle_desc (SizeOfHsaExternalHandleDesc detected_abi) import_desc);
   hsaKmtHandleImport (Z.to_nat dev) fd type).
End entry.


(** ** Properties *)

(** No rounding below 2^53 nanoseconds, 104 days. *)
Lemma system_clock_exact sec nsec : 0 <= sec -> 0 <= nsec -> sec * 10 ^ 9 + nsec < 2 ^ 53 -> system_clock sec nsec = sec * 10 ^ 9 + nsec.
Proof.
  intros Hs Hn Hlt. unfold system_clock, double_round. rewrite (proj2 (Z.ltb_lt (sec * 10 ^ 9) _)) by lia.
  rewrite (proj2 (Z.ltb_lt _ _)) by lia. apply wrap_small. lia.
Qed.

(** The layouts of a caller: the current one, with the address of an existing buffer, and
    the one of 20 bytes before it. *)
Definition current_desc (dev fd type mem metadata : Z) : list Z :=
  [u32 dev; dev / 2 ^ 32; u32 fd; u64 fd / 2 ^ 32; type; u32 mem; mem / 2 ^ 32; metadata].
Definition legacy_desc (dev fd type metadata : Z) : list Z := [u32 dev; dev / 2 ^ 32; u32 fd; type; metadata].

Lemma split_u64 x : u32 x + 2 ^ 32 * (x / 2 ^ 32) = x.
Proof. unfold wrap. pose proof (Z.div_mod x (2 ^ 32) ltac:(lia)). lia. Qed.

Lemma HandleImport_desc_words {K} `{Kernel K} abi words dev fd type (w : World K) :
  handle_desc (SizeOfHsaExternalHandleDesc abi) words = Some (dev, fd, type) ->
  hsaKmtHandleImport_desc abi words w = hsaKmtHandleImport (Z.to_nat dev) fd type w.
Proof.
  intros Hd. unfold hsaKmtHandleImport_desc. rewrite Hd. unfold CHECK_DXG_OPEN at 1, get_rt, mget, mbind, M_bind.
  case_match eqn:E; [|done]. unfold hsaKmtHandleImport, CHECK_DXG_OPEN, get_rt, mget, mbind, M_bind. by rewrite E.
Qed.

(** The fields of [HsaNodeProperties] in order, each by the byte it ends at and by what it
    is for two structures to agree on it. *)
Definition node_fields : list (Z * (HsaNodeProperties -> HsaNodeProperties -> Prop)) :=
  let on {A} (f : HsaNodeProperties -> A) (p q : HsaNodeProperties) := f p = f q in
  [(4, on NumCPUCores); (8, on NumFComputeCores); (16, on NumMemoryBanks); (20, on NumCaches); (24, on NumIOLinks);
   (28, on CComputeIdLo); (32, on FComputeIdLo); (36, on Capability); (44, on MaxWavesPerSIMD); (48, on LDSSizeInKB);
   (52, on GDSSizeInKB); (56, on np_WaveFrontSize); (60, on NumShaderBanks); (64, on NumArrays); (68, on NumCUPerArray);
   (72, on NumSIMDPerCU); (76, on MaxSlotsScratchCU); (80, on EngineId); (84, on OverrideEngineId); (86, on VendorId);
   (88, on np_DeviceId); (92, on LocationId); (100, on LocalMemSize); (104, on MaxEngineClockMhzFCompute);
   (108, on MaxEngineClockMhzCCompute); (112, on DrmRenderMinor); (240, on MarketingName); (304, on AMDName);
   (308, on uCodeSDMA); (316, on DebugProperties); (324, on HiveID); (328, on NumSdmaEngines);
   (332, on NumSdmaXgmiEngines); (333, on NumSdmaQueuesPerEngine); (334, on np_NumCpQueues); (335, on NumGws);
   (336, on Integrated); (340, on np_Domain); (348, on UniqueID); (352, on VGPRSizePerCU); (356, on SGPRSizePerCU);
   (360, on NumXcc); (364, on KFDGpuID); (368, on FamilyID)].

(** They agree on the fields that end past the first [size] bytes; on those within. *)
Definition same_past (size : Z) (p q : HsaNodeProperties) : Prop :=
  Forall (fun field => size < field.1 -> field.2 p q) node_fields.
Definition same_within (size : Z) (p q : HsaNodeProperties) : Prop :=
  Forall (fun field => field.1 <= size -> field.2 p q) node_fields.

Lemma same_past_refl s p : same_past s p p.
Proof. unfold same_past, node_fields. repeat (constructor; [done|]). constructor. Qed.

(** What a field of the copy is, from [copy_node_props] computed at that field. *)
Lemma copied_out {A} end_ (f : HsaNodeProperties -> A) n p dst :
  f (copy_node_props n p dst) = (if end_ <=? n then f p else f dst) -> n < end_ -> f (copy_node_props n p dst) = f dst.
Proof. intros -> Hlt. by rewrite (proj2 (Z.leb_gt _ _)). Qed.

Lemma copied_in {A} end_ (f : HsaNodeProperties -> A) n p dst :
  f (copy_node_props n p dst) = (if end_ <=? n then f p else f dst) -> end_ <= n -> f (copy_node_props n p dst) = f p.
Proof. intros -> Hle. by rewrite (proj2 (Z.leb_le _ _)). Qed.

Lemma copied_past s n p dst : n <= s -> same_past s (copy_node_props n p dst) dst.
Proof.
  intros Hn. unfold same_past, node_fields.
  repeat (constructor; [intros Hlt; cbn [fst snd] in Hlt |- *; refine (copied_out _ _ n p dst eq_refl _); lia|]).
  constructor.
Qed.

Lemma copied_within s n p dst : s <= n \/ 368 <= n -> same_within s (copy_node_props n p dst) p.
Proof.
  intros Hn. unfold same_within, node_fields.
  repeat (constructor; [intros Hle; cbn [fst snd] in Hle |- *; refine (copied_in _ _ n p dst eq_refl _); lia|]).
  constructor.
Qed.

(** What [hsaKmtGetNodeProperties] makes of what it has copied. *)
Definition with_gpu_heaps (gpu_id : Z) (p : HsaNodeProperties) : HsaNodeProperties :=
  if gpu_id =? 0 then p
  else np_set_NumMemoryBanks (u32 (NumMemoryBanks p + (if Integrated p =? 0 then NUM_OF_DGPU_HEAPS else NUM_OF_IGPU_HEAPS))) p.

Lemma GetNodeProperties_cases {K} `{Kernel K} NodeId T (w : World K) :
  (exists st, st <> HSAKMT_STATUS_SUCCESS /\
    forall abi dst, hsaKmtGetNodeProperties abi NodeId (Some dst) T w = Some (st, Some dst, T, w)) \/
  (forall abi dst, hsaKmtGetNodeProperties abi NodeId (Some dst) T w = None) \/
  exists t, forall abi dst, hsaKmtGetNodeProperties abi NodeId (Some dst) T w =
    Some (HSAKMT_STATUS_SUCCESS, Some (with_gpu_heaps (KFDGpuID t) (copy_node_props (copy_size abi) t dst)), T, w).
Proof.
  cbv [hsaKmtGetNodeProperties T_CHECK_DXG_OPEN validate_nodeid topology_get_node_props get_props tget tlift get_rt mget
       mderef abort mbind TM_bind M_bind mret TM_ret M_ret].
  case_match eqn:Eopen; [left; eexists; by split; [|done]|].
  destruct (no_node T NodeId) eqn:En; [left; eexists; by split; [|done]|].
  destruct (g_props T !! Z.to_nat NodeId) as [t|] eqn:Et; [|by right; left].
  right; right. exists (np_node t). intros abi dst.
  rewrite !bool_decide_true by done. cbn [negb]. by rewrite En, Et, bool_decide_true.
Qed.

Lemma banks_past s v p dst : 16 <= s -> same_past s p dst -> same_past s (np_set_NumMemoryBanks v p) dst.
Proof.
  unfold same_past, node_fields. intros Hs Hp.
  repeat (apply Forall_cons in Hp as [Hf Hp]; constructor;
    [first [exact Hf | cbn [fst snd]; intros Hlt; exfalso; clear - Hs Hlt; lia]|clear Hf]).
  constructor.
Qed.

Lemma banks_within s v p q : same_within s p q -> same_within s (np_set_NumMemoryBanks v p) (np_set_NumMemoryBanks v q).
Proof.
  unfold same_within, node_fields. intros Hp.
  repeat (apply Forall_cons in Hp as [Hf Hp]; constructor; [first [exact Hf | by intros _]|clear Hf]).
  constructor.
Qed.

Lemma same_within_trans s p q r : same_within s p q -> same_within s r q -> same_within s p r.
Proof.
  unfold same_within, node_fields. intros Hp Hq.
  repeat (apply Forall_cons in Hp as [Hf Hp]; apply Forall_cons in Hq as [Hg Hq]; constructor;
    [cbn [fst snd] in *; intros Hle; exact (eq_trans (Hf Hle) (eq_sym (Hg Hle)))|clear Hf Hg]).
  constructor.
Qed.

(** One field of two structures that agree, [place] its place in [node_fields]. *)
Lemma same_within_field {A} (place : nat) end_ (f : HsaNodeProperties -> A) s p q :
  node_fields !! place = Some (end_, fun p q => f p = f q) -> end_ <= s -> same_within s p q -> f p = f q.
Proof. intros Hat Hle Hall. exact (Forall_lookup_1 _ _ _ _ Hall Hat Hle). Qed.

Lemma with_heaps_past s gpu_id p dst : 16 <= s -> same_past s p dst -> same_past s (with_gpu_heaps gpu_id p) dst.
Proof. unfold with_gpu_heaps. intros Hs Hp. case_match; [done|]. by apply banks_past. Qed.

(** From byte 336 on the caller's structure holds [Integrated]. *)
Lemma with_heaps_within s gpu_id p q : 336 <= s -> same_within s p q -> same_within s (with_gpu_heaps gpu_id p) (with_gpu_heaps gpu_id q).
Proof.
  unfold with_gpu_heaps. intros Hs Hp. case_match; [done|].
  rewrite (same_within_field 36 336 Integrated s p q eq_refl Hs Hp), (same_within_field 2 16 NumMemoryBanks s p q eq_refl ltac:(lia) Hp).
  by apply banks_within.
Qed.

(** C38: A caller that has announced its structures keeps working with the library,
    whatever was announced before. The properties of a node never touch its structure past
    the [size] bytes it announced, and from 336 bytes on, where the structure holds
    [Integrated], the fields within are those a caller with a structure of the present size
    gets. The import descriptors it lays out, the current way or the legacy way, are read
    back as the device, the file descriptor with its sign, and the type it put in. An
    announcement of the wrong size, or none, is refused and changes nothing. The structure
    must reach the end of [NumMemoryBanks], 16 bytes, which is written in any case. *)
Theorem abi_negotiated {K} `{Kernel K} a old :
  (StructureSizes a <> 16 -> DxgAbiCheck (Some a) old = (HSAKMT_STATUS_INVALID_PARAMETER, old)) /\
  DxgAbiCheck None old = (HSAKMT_STATUS_INVALID_PARAMETER, old) /\
  (StructureSizes a = 16 -> exists abi, DxgAbiCheck (Some a) old = (HSAKMT_STATUS_SUCCESS, abi) /\
    (let size := SizeOfHsaNodeProperties a in
     forall NodeId dst T (w : World K) status answer T' w', 16 <= size ->
       hsaKmtGetNodeProperties (SizeOfHsaNodeProperties abi) NodeId (Some dst) T w = Some (status, Some answer, T', w') ->
       same_past size answer dst /\
       (status = HSAKMT_STATUS_SUCCESS -> 336 <= size -> forall dst', exists answer',
         hsaKmtGetNodeProperties 392 NodeId (Some dst') T w = Some (HSAKMT_STATUS_SUCCESS, Some answer', T', w') /\
         same_within size answer answer')) /\
    forall dev fd type mem metadata (w : World K),
      (SizeOfHsaExternalHandleDesc a = 32 ->
        hsaKmtHandleImport_desc abi (current_desc dev fd type mem metadata) w = hsaKmtHandleImport (Z.to_nat dev) (s32 fd) type w) /\
      (SizeOfHsaExternalHandleDesc a = 20 ->
        hsaKmtHandleImport_desc abi (legacy_desc dev fd type metadata) w = hsaKmtHandleImport (Z.to_nat dev) (s32 fd) type w)).
Proof.
  split_and!; [intros Hne; cbn; by rewrite (proj2 (Z.eqb_neq _ _) Hne)|done|].
  intros Heq. exists a. split_and!; [cbn; by rewrite Heq|cbv zeta|].
  - intros NodeId dst T w status answer T' w' Hs Hget.
    destruct (GetNodeProperties_cases NodeId T w) as [(st & Hst & Hall)|[Hall|(t & Hall)]]; rewrite Hall in Hget; simplify_eq.
    + split; [apply same_past_refl|done].
    + split; [apply with_heaps_past, copied_past; [done|]; unfold copy_size; case_match; lia|].
      intros _ Hbig dst'. eexists. split; [apply Hall|]. apply with_heaps_within; [done|].
      apply same_within_trans with t; apply copied_within; unfold copy_size; case_match; lia.
  - intros dev fd type mem metadata w. split; intros Hd; apply HandleImport_desc_words; rewrite Hd; cbn; by rewrite split_u64, s32_wrap.
Qed.

(** A caller with 364 bytes of properties, so without [FamilyID], and the legacy descriptor,
    whose file descriptor is -1; and a topology of one node, a GPU with one bank. *)
Definition demo_sizes : HsaStructureSizes := mkStructureSizes 16 364 20.

Definition demo_node : HsaNodeProperties :=
  mkNodeProperties 0 64 1 0 0 0 0 capability_zero 0 0 0 32 0 0 0 0 0 engine_zero engine_zero 0 0 0 0 0 0 0 [65] [66] 0 0 0 0 0
    0 0 0 0 0 0 0 0 1 7 145.
Definition demo_nodes : Topology :=
  tp_set_system (Some 1) (tp_set_props [mkNodePropsT demo_node [] [] []] (Topology_new (Platform_new 1))).

Lemma abi_negotiated_witness :
  exists abi, DxgAbiCheck (Some demo_sizes) detected_abi_start = (HSAKMT_STATUS_SUCCESS, abi) /\
    hsaKmtHandleImport_desc abi (legacy_desc 0 (-1) 2 0) (demo_world []) = hsaKmtHandleImport 0 (-1) 2 (demo_world []) /\
    exists answer, hsaKmtGetNodeProperties (SizeOfHsaNodeProperties abi) 0 (Some np_zero) demo_nodes (demo_world []) =
        Some (HSAKMT_STATUS_SUCCESS, Some answer, demo_nodes, demo_world []) /\
      KFDGpuID answer = 7 /\ same_past 364 answer np_zero /\
      exists answer', hsaKmtGetNodeProperties 392 0 (Some np_zero) demo_nodes (demo_world []) =
          Some (HSAKMT_STATUS_SUCCESS, Some answer', demo_nodes, demo_world []) /\
        same_within 364 answer answer' /\ FamilyID answer' = 145.
Proof.
  exists demo_sizes. split; [reflexivity|].
  destruct (proj2 (proj2 (abi_negotiated demo_sizes detected_abi_start)) eq_refl) as (abi & H1 & H2 & H3).
  injection H1 as <-. split; [exact (proj2 (H3 0 (-1) 2 0 0 (demo_world [])) eq_refl)|].
  destruct (H2 0 np_zero demo_nodes (demo_world []) HSAKMT_STATUS_SUCCESS
    (with_gpu_heaps 7 (copy_node_props 364 demo_node np_zero)) demo_nodes (demo_world []) ltac:(cbn; lia) eq_refl) as [H4 H5].
  destruct (H5 eq_refl ltac:(cbn; lia) np_zero) as (answer' & H6 & H7).
  eexists. split; [reflexivity|]. split; [reflexivity|]. split; [exact H4|]. exists answer'. split; [exact H6|]. split; [exact H7|].
  injection H6 as <-. reflexivity.
Defined.
